(* ===== verification/_CoqProject ===== *)
-Q . S2P
Prelude.v
Bytes.v
Spinlock.v
Printf.v
CFloat.v
CString.v
Grep.v
Strdiff.v
State.v
PrioLock.v
PrioConc.v
Sched.v
Proc.v
Sleep.v
Syscall.v
Kalloc.v
Vm.v
Uvm.v
Pipe.v
Sleeplock.v
FsState.v
Bio.v
Log.v
Fs.v
FsTx.v
File.v
Inode.v
Sysfile.v
Console.v
ConsDev.v
Kbd.v
Shell.v
ShellRun.v
Umalloc.v
Mkfs.v
