(* ===== verification/Prelude.v ===== *)
(** * A verification of the xv6 lab kernel

    The program is the teaching kernel xv6 for 32-bit x86 as extended in a
    course on operating systems ([src/xv6]): a multi-level scheduler, a priority
    lock, per-CPU counters of system calls, shared memory pages, a command line
    with history, and system calls that use them.  This library embeds it
    shallowly: a C function is a Rocq function of the same name, and the theorems
    are about these functions.

    ** How the code is represented

    - Integers are [Z], and [u8], [u32], [s32], ... of this file are applied where
      C converts or computes at a width.
    - A kernel routine has type [K S A], a state transformer whose outcomes are
      those the C code has: it returns, panics, busy-waits for a lock, does
      something undefined in C, or calls [swtch] and goes on when it is resumed
      in whatever state the scheduler then finds ([Wait]).  Interleaving with
      other processes therefore happens at the places where the kernel sleeps;
      where the grain is finer (the priority lock and its race, the crash of a
      commit, pipes, the fairness of the scheduler) a step relation or a sequence
      of steps is given explicitly.
    - Globals are the record [kstate X] of [State], where [X] holds the part the
      process subsystem reaches only through calls: a pair of memory ([mem] of
      [Kalloc]) and file system ([fsx] of [FsState]).  What [proc.c] relies on
      from the two is stated by the classes [MemOps] and [FsOps] of [Proc], and
      the page allocator and the page tables discharge the first ([vm_mem] of
      [Uvm]); device drivers are the class [DevOps] of [Fs]; where structures are
      kept is reached through [HasMachine], [HasPipes], [HasSleeplocks] and
      [HasConsole].  What the linker promises of the kernel's symbols is the
      class [LinkerOk] of [Uvm].
    - User programs are functions over their own data: [grep], [strdiff] and the
      allocator of [umalloc.c] over their memory, the shell as a tree of system
      calls with an interpreter for the kernel's side, [mkfs] over the image.
    - Pointers into tables are indices, null is [None]; addresses of pages,
      page-table entries and user memory are numbers.  On-disk and in-memory
      structures that the code overlays on bytes (directory entries, inodes, the
      log header, page tables, the free list) are bytes here as well ([Bytes]).

    ** The files

    - [Prelude]: integers, the monad, searches, tactics and hints.  [Bytes]:
      little-endian integers in byte arrays.
    - [Spinlock]: [spinlock.c], [struct cpu], [mycpu]/[myproc].
    - [Printf], [CString], [CFloat]: [printint], [cprintf] and [printf];
      [string.c] and the string part of [ulib.c]; C floats.
    - [Grep], [Strdiff]: the user programs [grep.c] and [strdiff.c].
    - [State]: the structures of [proc.h], [prioritylock.h] and [x86.h].
    - [PrioLock]: [prioritylock.c], and [PrioConc]: the same access by access, for
      the interleaving of its callers.  [Sched]: the queues and the scheduler of
      [proc.c].  [Proc] and [Sleep]: the rest of [proc.c].
    - [Syscall]: [syscall.c], [sysproc.c], [trap.c].
    - [Kalloc] and [Vm]: [kalloc.c] and [vm.c], with shared memory.  [Uvm]: what
      the routines of [vm.c] do to user address spaces, and that all spaces and
      kernel pages stay apart.
    - [Pipe], [Sleeplock]: [pipe.c], [sleeplock.c].
    - [FsState], [Bio], [Log], [Fs], [FsTx], [Inode], [File], [Sysfile]: the
      buffer cache with the memory disk of [memide.c], the log, [fs.c], its
      blocks and its inodes inside a transaction, [file.c] and [sysfile.c].
    - [Console], [ConsDev], [Kbd]: the screen and the line editor of [console.c]
      with its history, the console as a device, and [kbd.c].
    - [Shell], [ShellRun]: the parser of [sh.c], and running commands.
      [Umalloc]: [umalloc.c].  [Mkfs]: [mkfs.c].

    ** What is proved

    - Crash safety: a crash after any of the disk writes of [commit], followed by
      recovery, leaves all of the transaction or nothing of it; reserving log
      space and [log_write]; the buffer cache as a transparent copy of the disk;
      the block allocator inside a transaction; [writei] and [readi] with the
      inode on the disk; [mkfs] builds a file system of the kind they expect.
    - Processes: [sleep] loses no wakeup, whatever happens to the process table
      between the two; the outcomes of [fork], [wait] and
      [exit]; the scheduler's choice, its dispatching and the fairness of
      round robin; the interrupt nesting and exclusion of spin locks and the
      outcomes of sleep locks.
    - The priority lock: the array implements a priority queue; however the memory
      accesses of its callers interleave the lock has one holder; the highest pid
      is served first and no request is lost provided [enqueue], which runs without
      the spin lock, is not interleaved; when it is, a request is lost.
    - Memory: the page allocator, [mappages] and the shared pages; growing,
      shrinking, copying and freeing user memory, byte by byte as the hardware
      translates it, without a page lost or shared.  [vm_own] of [Uvm], on which
      the last rests, accounts for every page of memory and describes processes
      without shared pages attached.
    - The console: the line editor against a line with a cursor (with the exception
      of [C('A')] in the middle of a line), what is typed is what is read; the
      keyboard's tables and flags.
    - The shell: the parser against a grammar, the programs a line starts, their
      descriptors and who waits for them, whole sessions.  The interpreter of the
      shell's system calls ([launch] of [ShellRun]) runs a child before its parent
      goes on and lets every [fork] succeed; [wait] is an event that records the
      descriptors of the waiting process.  The allocator of user memory: free
      blocks and blocks in use are together all the memory obtained.
    - Pipes: a bounded queue on every path, also when the counters wrap, and who
      sleeps on it, except after a write that failed.
    - System calls: arguments stay in the caller's memory, dispatch and counters,
      the clock tick.
    - Routines and programs: [memmove], [memset], [strncpy], [printint], [droot],
      [grep] (on files with lines that fit its buffer) and its matcher, [strdiff].
    - Where the code does not do what it means to, a theorem says what it does:
      [aging] panics, [closeshmem] leaves a hole that makes [fork] panic, a killed
      writer of a pipe strands its readers.

    ** Fuel and bounds

    Loops of the code that have a bound are run with it: table scans over the
    table's size, [balloc] over the blocks of the disk, [mappages] over the pages
    of the range, list walks over the number of buffers.  Theorems about these
    have no fuel in their statements, and show that the result is not [NoFuel].
    Loops that wait for other processes ([acquiresleep], [begin_op], [wait],
    [sys_sleep], the pipes) take the number of times they may be resumed as an
    argument; the theorems hold for every such number, and the outcome of being
    asleep is [Wait], never [NoFuel].  [PRINT_FUEL] covers the digits of a 32-bit
    number in any base, and [droot] and [digitcount] are shown to end.  The loops
    of [vm.c] run over the pages below the size they are given, [kbd_keys] over
    the bytes of the controller, the shell's parser over the length of the line.
    The waiting loop of [PrioConc] is given any number of turns for every call.
    [malloc] and [free] of user programs take fuel, and every heap has a number
    that is enough: a little more than twice the length of its free list.

    ** Not modelled

    - The code that sets up and drives hardware: [lapic.c], [ioapic.c], [mp.c],
      [picirq.c], [ide.c], the descriptor tables of [trap.c] and [vm.c],
      [main.c], [bootmain.c] and the assembly files.  Their effect is on devices
      and registers the kernel state does not contain.  The file system is over
      the disk of the build [kernelmemfs].
    - [exec.c], a parameter of the system calls, and [loaduvm].  The instance of
      [FsOps] for the file system: [fork] and [exit] are verified against the
      class.
    - The test programs, and the user programs that only pass their arguments to
      system calls.
    - Debugging output: [procdump], [getcallerpcs]. *)

From Stdlib Require Export ZArith Lia Bool.
From stdpp Require Export base tactics list sorting strings gmap relations numbers.

Set Default Proof Using "Type".

Declare Scope xv6_scope.
Delimit Scope xv6_scope with xv6.
Global Open Scope Z_scope.
Global Open Scope xv6_scope.

(** ** C machine integers

    The kernel is compiled with [-m32]: [int] and [uint] have 32 bits, [short]
    16, [char] 8 (signed).  Values are kept in [Z]; the conversion functions
    below are applied wherever the C code stores into, or computes at, a type of
    that width. *)

Definition u8 (x : Z) : Z := x mod 2 ^ 8.
Definition u16 (x : Z) : Z := x mod 2 ^ 16.
Definition u32 (x : Z) : Z := x mod 2 ^ 32.
Definition s8 (x : Z) : Z := let y := u8 x in if y <? 2 ^ 7 then y else y - 2 ^ 8.
Definition s16 (x : Z) : Z := let y := u16 x in if y <? 2 ^ 15 then y else y - 2 ^ 16.
Definition s32 (x : Z) : Z := let y := u32 x in if y <? 2 ^ 31 then y else y - 2 ^ 32.

(** ** The modes of [open]: [fcntl.h] *)

Definition O_RDONLY : Z := 0.
Definition O_WRONLY : Z := 1.
Definition O_RDWR : Z := 2.
Definition O_CREATE : Z := 512.

(** ** The kernel monad

    A kernel routine is a state transformer with the outcomes the C code has.
    - [Ok a s]: it returned [a] in state [s];
    - [Panic msg]: it called [panic(msg)], which freezes the machine;
    - [Spin s]: it is busy-waiting for a lock another CPU holds;
    - [Undef what]: it executed an operation C leaves undefined (a null or
      out-of-range access);
    - [NoFuel]: the model ran out of fuel (only in routines that take fuel);
    - [Wait s k]: it called [swtch] in state [s]; when the scheduler resumes
      the kernel thread in a state [s'], it continues as [k s']. *)

Inductive res (S A : Type) : Type :=
| Ok (a : A) (s : S)
| Panic (msg : string)
| Spin (s : S)
| Undef (what : string)
| NoFuel
| Wait (s : S) (k : S → res S A).
Arguments Ok {S A} a s.
Arguments Panic {S A} msg.
Arguments Spin {S A} s.
Arguments Undef {S A} what.
Arguments NoFuel {S A}.
Arguments Wait {S A} s k.

Definition K (S A : Type) : Type := S → res S A.

Fixpoint rbind {S A B : Type} (r : res S A) (f : A → K S B) : res S B :=
  match r with
  | Ok a s => f a s
  | Panic m => Panic m
  | Spin s => Spin s
  | Undef w => Undef w
  | NoFuel => NoFuel
  | Wait s k => Wait s (λ s', rbind (k s') f)
  end.

#[global] Instance K_ret (S : Type) : MRet (K S) := λ A a s, Ok a s.
#[global] Instance K_bind (S : Type) : MBind (K S) := λ A B f m s, rbind (m s) f.

Section kernel_monad.
Context {S : Type}.

Definition kget : K S S := λ s, Ok s s.
Definition kput (s' : S) : K S unit := λ _, Ok tt s'.
Definition kgets {A} (f : S → A) : K S A := λ s, Ok (f s) s.
Definition kmodify (f : S → S) : K S unit := λ s, Ok tt (f s).
Definition kpanic {A} (msg : string) : K S A := λ _, Panic msg.
Definition kundef {A} (what : string) : K S A := λ _, Undef what.
Definition kspin {A} : K S A := λ s, Spin s.
Definition knofuel {A} : K S A := λ _, NoFuel.
Definition kswtch : K S unit := λ s, Wait s (λ s', Ok tt s').

(** [for (i in l) body(i)] where the body may leave the loop early with a
    result (a [return], [goto] or [break] of the C code). *)
Fixpoint kfor {R} (l : list nat) (body : nat → K S (option R)) : K S (option R) :=
  match l with
  | [] => mret None
  | i :: l' =>
      r ← body i;
      match r with
      | Some x => mret (Some x)
      | None => kfor l' body
      end
  end.

(** [for (i in l) body(i)] without early exit. *)
Fixpoint kfor_ (l : list nat) (body : nat → K S unit) : K S unit :=
  match l with
  | [] => mret tt
  | i :: l' => body i;; kfor_ l' body
  end.

Lemma bind_ok {A B} (m : K S A) (f : A → K S B) s a s' :
  m s = Ok a s' → (m ≫= f) s = f a s'.
Proof. intros H. unfold mbind, K_bind. by rewrite H. Qed.

Lemma bind_panic {A B} (m : K S A) (f : A → K S B) s msg :
  m s = Panic msg → (m ≫= f) s = Panic msg.
Proof. intros H. unfold mbind, K_bind. by rewrite H. Qed.

Lemma bind_spin {A B} (m : K S A) (f : A → K S B) s s' :
  m s = Spin s' → (m ≫= f) s = Spin s'.
Proof. intros H. unfold mbind, K_bind. by rewrite H. Qed.

Lemma bind_wait {A B} (m : K S A) (f : A → K S B) s s' k :
  m s = Wait s' k → (m ≫= f) s = Wait s' (λ s'', rbind (k s'') f).
Proof. intros H. unfold mbind, K_bind. by rewrite H. Qed.

Lemma rbind_run {A B} (m : K S A) (f : A → K S B) s : rbind (m s) f = (m ≫= f) s.
Proof. done. Qed.

(** Sequencing is associative when the first part does not give up the CPU. *)
Lemma bind_assoc_ok {A B C} (m : K S A) (f : A → K S B) (g : B → K S C) s a s' :
  m s = Ok a s' → ((m ≫= f) ≫= g) s = (f a ≫= g) s'.
Proof. intros H. unfold mbind, K_bind. by rewrite H. Qed.

Lemma bind_kgets {A B} (g : S → A) (f : A → K S B) s : (kgets g ≫= f) s = f (g s) s.
Proof. done. Qed.

Lemma bind_kmodify {B} (g : S → S) (f : unit → K S B) s : (kmodify g ≫= f) s = f tt (g s).
Proof. done. Qed.

Lemma bind_mret {A B} (a : A) (f : A → K S B) s : (mret a ≫= f) s = f a s.
Proof. done. Qed.

Lemma bind_ok_inv {A B} (m : K S A) (f : A → K S B) s b s' :
  (m ≫= f) s = Ok b s' → ∃ a s1, m s = Ok a s1 ∧ f a s1 = Ok b s'.
Proof. unfold mbind, K_bind. destruct (m s); simpl; naive_solver. Qed.

(** A loop whose body never leaves early and never changes the state. *)
Lemma kfor_none {R} l (body : nat → K S (option R)) s :
  (∀ i, i ∈ l → body i s = Ok None s) → kfor l body s = Ok None s.
Proof.
  induction l as [|i l IH]; intros H; [done|]. simpl.
  rewrite (bind_ok _ _ _ None s) by (apply H; set_solver). apply IH. set_solver.
Qed.

(** The loop stops at the first index whose body produces a result. *)
Lemma kfor_first {R} l1 i l2 (body : nat → K S (option R)) s r s' :
  (∀ j, j ∈ l1 → body j s = Ok None s) →
  body i s = Ok (Some r) s' →
  kfor (l1 ++ i :: l2) body s = Ok (Some r) s'.
Proof.
  induction l1 as [|j l1 IH]; intros Hn Hi; simpl.
  - by rewrite (bind_ok _ _ _ (Some r) s').
  - rewrite (bind_ok _ _ _ None s) by (apply Hn; set_solver).
    apply IH; [set_solver|done].
Qed.

Lemma kfor_first_panic {R} l1 i l2 (body : nat → K S (option R)) s msg :
  (∀ j, j ∈ l1 → body j s = Ok None s) →
  body i s = Panic msg →
  kfor (l1 ++ i :: l2) body s = Panic msg.
Proof.
  induction l1 as [|j l1 IH]; intros Hn Hi; simpl.
  - by apply bind_panic.
  - rewrite (bind_ok _ _ _ None s) by (apply Hn; set_solver).
    apply IH; [set_solver|done].
Qed.

(** The same for loops without early exit. *)
Lemma kfor__first_panic (l1 : list nat) i l2 (body : nat → K S unit) s msg :
  (∀ j, j ∈ l1 → body j s = Ok tt s) → body i s = Panic msg →
  kfor_ (l1 ++ i :: l2) body s = Panic msg.
Proof.
  induction l1 as [|j l1 IH]; intros H1 Hi; simpl; [by apply bind_panic|].
  rewrite (bind_ok _ _ _ tt s) by (apply H1; set_solver). apply IH; [set_solver|done].
Qed.

Lemma kfor__skip (l : list nat) (body : nat → K S unit) s :
  (∀ j, j ∈ l → body j s = Ok tt s) → kfor_ l body s = Ok tt s.
Proof.
  induction l as [|j l IH]; intros H; simpl; [done|].
  rewrite (bind_ok _ _ _ tt s) by (apply H; set_solver). apply IH. set_solver.
Qed.

End kernel_monad.

(** ** Runs that return *)

Section wp.
Context {S : Type}.

Definition wp {A} (m : K S A) (Q : A → S → Prop) (s : S) : Prop := ∃ a s', m s = Ok a s' ∧ Q a s'.

Lemma wp_ret {A} (a : A) Q s : Q a s → wp (mret a) Q s.
Proof. intros H. by exists a, s. Qed.

Lemma wp_bind {A B} (m : K S A) (k : A → K S B) Q s : wp m (λ a s', wp (k a) Q s') s → wp (m ≫= k) Q s.
Proof. intros (a & s' & R & b & s'' & R' & H). exists b, s''. split; [|done]. by rewrite (bind_ok _ _ _ _ _ R). Qed.

Lemma wp_mono {A} (m : K S A) (Q Q' : A → S → Prop) s : wp m Q s → (∀ a s', Q a s' → Q' a s') → wp m Q' s.
Proof. intros (a & s' & R & H) HQ. exists a, s'. auto. Qed.

Lemma wp_same {A} (m m' : K S A) Q s s' : m s = m' s' → wp m' Q s' → wp m Q s.
Proof. intros E (a & s'' & R & H). exists a, s''. by rewrite E. Qed.

(** Chaining a known step. *)
Lemma wp_step {A B} (m : K S A) (k : A → K S B) P Q s : wp m P s → (∀ a s', P a s' → wp (k a) Q s') → wp (m ≫= k) Q s.
Proof. intros H1 H2. apply wp_bind. by eapply wp_mono. Qed.

Lemma wp_run {A B} (m : K S A) (k : A → K S B) a s s' Q : m s = Ok a s' → wp (k a) Q s' → wp (m ≫= k) Q s.
Proof. intros R H. apply wp_bind. by exists a, s'. Qed.

(** A loop, by an invariant on the indices left. *)
Lemma wp_kfor_ (I : list nat → S → Prop) (Q : S → Prop) l (body : nat → K S unit) s :
  I l s → (∀ s, I [] s → Q s) →
  (∀ i l s, I (i :: l) s → wp (body i) (λ _, I l) s) →
  wp (kfor_ l body) (λ _, Q) s.
Proof.
  intros H HQ Hb. revert s H. induction l as [|i l IH]; intros s H; cbn [kfor_]; [by apply wp_ret; auto|].
  eapply wp_step; [by apply Hb|]. intros [] s'. apply IH.
Qed.

End wp.

(** ** Searching a C array from index 0 *)

Section find_index.
Context {A : Type} (P : A → bool).

(** The first index at or after [i] whose element satisfies the test. *)
Fixpoint find_from (i : nat) (l : list A) : option nat :=
  match l with
  | [] => None
  | x :: l' => if P x then Some i else find_from (i + 1)%nat l'
  end.

Definition find_index (l : list A) : option nat := find_from 0 l.

Lemma find_from_Some l i k :
  find_from i l = Some k →
  ∃ x, (i ≤ k)%nat ∧ l !! (k - i)%nat = Some x ∧ P x = true
    ∧ ∀ j y, (j < k - i)%nat → l !! j = Some y → P y = false.
Proof.
  revert i k. induction l as [|x l IH]; intros i k; simpl; [done|].
  destruct (P x) eqn:HP.
  - intros [= <-]. exists x. rewrite Nat.sub_diag. repeat split; [lia|done|lia].
  - intros (y & Hle & Hl & Hy & Hmin)%IH. exists y.
    replace (k - i)%nat with (Datatypes.S (k - (i + 1)))%nat by lia.
    repeat split; [lia|done|done|]. intros [|j] z Hj Hz; simpl in Hz; simplify_eq; [done|].
    eapply Hmin; [|done]. lia.
Qed.

Lemma find_index_Some l k :
  find_index l = Some k →
  ∃ x, l !! k = Some x ∧ P x = true ∧ ∀ j y, (j < k)%nat → l !! j = Some y → P y = false.
Proof.
  intros (x & _ & Hl & Hx & Hmin)%find_from_Some. rewrite Nat.sub_0_r in *. eauto.
Qed.

Lemma find_from_None l i : find_from i l = None ↔ ∀ x, x ∈ l → P x = false.
Proof.
  revert i. induction l as [|x l IH]; intros i; simpl.
  - split; [|done]. by intros _ x ?%elem_of_nil.
  - setoid_rewrite elem_of_cons. destruct (P x) eqn:HP.
    + split; [done|]. intros H. specialize (H x). rewrite HP in H. naive_solver.
    + rewrite IH. naive_solver.
Qed.

Lemma find_index_None l : find_index l = None ↔ ∀ x, x ∈ l → P x = false.
Proof. apply find_from_None. Qed.

Lemma find_index_intro l k x :
  l !! k = Some x → P x = true →
  (∀ j y, (j < k)%nat → l !! j = Some y → P y = false) →
  find_index l = Some k.
Proof.
  intros Hk Hx Hmin. destruct (find_index l) as [j|] eqn:Hf.
  - apply find_index_Some in Hf as (y & Hy & HPy & Hmin').
    destruct (decide (j = k)) as [->|Hne]; [done|].
    destruct (decide (j < k)%nat) as [Hlt|].
    + by rewrite (Hmin j y Hlt Hy) in HPy.
    + by rewrite (Hmin' k x ltac:(lia) Hk) in Hx.
  - rewrite find_index_None in Hf. rewrite (Hf x) in Hx; [done|].
    by eapply list_elem_of_lookup_2.
Qed.

End find_index.

Lemma find_index_lt {A} (P : A → bool) l k : find_index P l = Some k → (k < length l)%nat.
Proof. intros (x & Hx & _)%find_index_Some. by eapply lookup_lt_Some. Qed.

Lemma find_index_ext {A} (P P' : A → bool) l : (∀ x, x ∈ l → P x = P' x) → find_index P l = find_index P' l.
Proof.
  unfold find_index. generalize 0%nat as k. induction l as [|x l IH]; intros k H; [done|]. cbn [find_from].
  rewrite (H x) by by left. destruct (P' x); [done|]. apply IH. intros y Hy. apply H. by right.
Qed.

Lemma find_from_alter {A} (P : A → bool) (f : A → A) l i j :
  (∀ x, P (f x) = P x) → find_from P i (alter f j l) = find_from P i l.
Proof.
  intros Hf. revert i j. induction l as [|x l IH]; intros i j; [by destruct j|].
  destruct j as [|j].
  - change (alter f 0%nat (x :: l)) with (f x :: l). simpl. by rewrite Hf.
  - change (alter f (S j) (x :: l)) with (x :: alter f j l). cbn [find_from]. by rewrite IH.
Qed.

Lemma find_index_alter {A} (P : A → bool) (f : A → A) l j :
  (∀ x, P (f x) = P x) → find_index P (alter f j l) = find_index P l.
Proof. apply find_from_alter. Qed.

Lemma list_alter_as_insert {A} (f : A → A) (l : list A) i x :
  l !! i = Some x → alter f i l = <[i := f x]> l.
Proof.
  intros Hx. apply list_eq. intros j. destruct (decide (i = j)) as [->|].
  - rewrite list_lookup_alter_eq, Hx, list_lookup_insert_eq; [done|]. by eapply lookup_lt_Some.
  - by rewrite list_lookup_alter_ne, list_lookup_insert_ne.
Qed.

Lemma elem_of_insert_inv {A} (l : list A) i (x y : A) : x ∈ <[i := y]> l → x = y ∨ x ∈ l.
Proof.
  rewrite list_elem_of_lookup. intros [j Hj]. destruct (decide (i = j)) as [->|].
  - apply list_lookup_insert_Some in Hj. naive_solver eauto using list_elem_of_lookup_2.
  - rewrite list_lookup_insert_ne in Hj by done. right. by eapply list_elem_of_lookup_2.
Qed.

(** ** Machine-integer lemmas *)

Lemma u32_range x : 0 ≤ u32 x < 2 ^ 32.
Proof. unfold u32. apply Z.mod_pos_bound. lia. Qed.

Lemma u32_small x : 0 ≤ x < 2 ^ 32 → u32 x = x.
Proof. intros. unfold u32. by apply Z.mod_small. Qed.

Lemma u32_u32 x : u32 (u32 x) = u32 x.
Proof. apply u32_small, u32_range. Qed.

Lemma u32_add_l x y : u32 (u32 x + y) = u32 (x + y).
Proof. unfold u32. by rewrite Zplus_mod_idemp_l. Qed.

Lemma u32_add_r x y : u32 (x + u32 y) = u32 (x + y).
Proof. unfold u32. by rewrite Zplus_mod_idemp_r. Qed.

Lemma u32_sub_l x y : u32 (u32 x - y) = u32 (x - y).
Proof. unfold u32. by rewrite Zminus_mod_idemp_l. Qed.

Lemma u32_sub_r x y : u32 (x - u32 y) = u32 (x - y).
Proof. unfold u32. by rewrite Zminus_mod_idemp_r. Qed.

Lemma u32_sub_same_l x y z : 0 ≤ z < 2 ^ 32 → u32 (x - y) = z → u32 x = u32 (y + z).
Proof. intros Hz <-. rewrite u32_add_r. f_equal. lia. Qed.

Lemma u8_range x : 0 ≤ u8 x < 2 ^ 8.
Proof. unfold u8. apply Z.mod_pos_bound. lia. Qed.

Lemma u8_small x : 0 ≤ x < 2 ^ 8 → u8 x = x.
Proof. intros. unfold u8. by apply Z.mod_small. Qed.

Lemma s32_range x : - 2 ^ 31 ≤ s32 x < 2 ^ 31.
Proof. unfold s32. pose proof (u32_range x). destruct (Z.ltb_spec (u32 x) (2 ^ 31)); lia. Qed.

Lemma s32_small x : - 2 ^ 31 ≤ x < 2 ^ 31 → s32 x = x.
Proof.
  intros. unfold s32, u32. destruct (Z.ltb_spec (x mod 2 ^ 32) (2 ^ 31)) as [Hl|Hl].
  - destruct (decide (0 ≤ x)); [apply Z.mod_small; lia|].
    replace x with ((x + 2 ^ 32) + (-1) * 2 ^ 32) in Hl by lia.
    rewrite Z.mod_add, Z.mod_small in Hl by lia. lia.
  - destruct (decide (0 ≤ x)); [rewrite Z.mod_small in Hl; lia|].
    replace x with ((x + 2 ^ 32) + (-1) * 2 ^ 32) at 1 by lia.
    rewrite Z.mod_add, Z.mod_small by lia. lia.
Qed.

Lemma u32_mod_pow2 x n : 0 ≤ n ≤ 32 → u32 x mod 2 ^ n = x mod 2 ^ n.
Proof.
  intros Hn. unfold u32. apply Z.mod_mod_divide.
  exists (2 ^ (32 - n)). rewrite <- Z.pow_add_r by lia. f_equal. lia.
Qed.

Create HintDb xv6.
Create Rewrite HintDb u32.
#[export] Hint Rewrite @u32_u32 u32_add_l u32_add_r u32_sub_l u32_sub_r : u32.
#[export] Hint Resolve u32_range u8_range s32_range : xv6.

(** ** Tactics *)

(** Split the boolean tests of the code into propositions [lia] understands. *)
Ltac bool_to_prop :=
  repeat match goal with
  | H : (_ && _) = true |- _ => apply andb_true_iff in H as [? ?]
  | H : (_ || _) = false |- _ => apply orb_false_iff in H as [? ?]
  | H : (_ || _) = true |- _ => apply orb_true_iff in H
  | H : (_ && _) = false |- _ => apply andb_false_iff in H
  | H : negb _ = true |- _ => apply negb_true_iff in H
  | H : negb _ = false |- _ => apply negb_false_iff in H
  | H : (_ =? _) = true |- _ => apply Z.eqb_eq in H
  | H : (_ =? _) = false |- _ => apply Z.eqb_neq in H
  | H : (_ <? _) = true |- _ => apply Z.ltb_lt in H
  | H : (_ <? _) = false |- _ => apply Z.ltb_ge in H
  | H : (_ <=? _) = true |- _ => apply Z.leb_le in H
  | H : (_ <=? _) = false |- _ => apply Z.leb_gt in H
  | H : bool_decide _ = true |- _ => apply bool_decide_eq_true in H
  | H : bool_decide _ = false |- _ => apply bool_decide_eq_false in H
  end.

(** Run the kernel monad one primitive at a time in the goal. *)
Ltac krun :=
  unfold mbind, K_bind, mret, K_ret, kget, kput, kgets, kmodify, kpanic, kundef, kspin; simpl.

(** Case analysis on the scrutinee of an [if] or [match] in the goal. *)
Ltac kcase := case_match; bool_to_prop; simplify_eq/=.
