(* ===== verification/Bytes.v ===== *)
(** * Integers in memory

    Little-endian integers stored in byte arrays, as the kernel's structures lie
    in disk blocks and memory pages, and the copying of byte ranges. *)

From S2P Require Import Prelude.

(** The [k]-byte integer at offset [off], and storing one. *)
Fixpoint rd (k : nat) (data : list Z) (off : nat) : Z :=
  match k with
  | O => 0
  | S k' => (data !!! off) mod 2 ^ 8 + 2 ^ 8 * rd k' data (S off)
  end.

Fixpoint wr (k : nat) (v : Z) (data : list Z) (off : nat) : list Z :=
  match k with
  | O => data
  | S k' => wr k' (v / 2 ^ 8) (<[off := v mod 2 ^ 8]> data) (S off)
  end.

(** [memmove] of bytes [src] to offset [off]. *)
Definition blit (data : list Z) (off : nat) (src : list Z) : list Z :=
  take off data ++ src ++ drop (off + length src) data.

Lemma length_wr k v data off : length (wr k v data off) = length data.
Proof. revert v data off. induction k as [|k IH]; intros; simpl; [done|]. by rewrite IH, length_insert. Qed.

Lemma lookup_wr_ne k v data off i :
  (i < off ∨ off + k ≤ i)%nat → wr k v data off !! i = data !! i.
Proof.
  revert v data off. induction k as [|k IH]; intros v data off H; simpl; [done|].
  rewrite IH by lia. by rewrite list_lookup_insert_ne by lia.
Qed.

Lemma rd_ext k data data' off :
  (∀ i, (off ≤ i < off + k)%nat → data' !! i = data !! i) → rd k data' off = rd k data off.
Proof.
  revert off. induction k as [|k IH]; intros off H; simpl; [done|]. f_equal.
  - rewrite !list_lookup_total_alt, H by lia. done.
  - f_equal. apply IH. intros i Hi. apply H. lia.
Qed.

Lemma rd_wr_ne k k' v data off off' :
  (off' + k' ≤ off ∨ off + k ≤ off')%nat → rd k' (wr k v data off) off' = rd k' data off'.
Proof. intros H. apply rd_ext. intros i Hi. apply lookup_wr_ne. lia. Qed.

Lemma rd_wr_eq k v data off :
  (off + k ≤ length data)%nat → rd k (wr k v data off) off = v mod 2 ^ (8 * Z.of_nat k).
Proof.
  revert v data off. induction k as [|k IH]; intros v data off H; cbn [rd wr].
  - by rewrite Z.mod_1_r.
  - rewrite IH by (rewrite length_insert; lia).
    assert (wr k (v / 2 ^ 8) (<[off := v mod 2 ^ 8]> data) (S off) !!! off = v mod 2 ^ 8) as ->.
    { rewrite list_lookup_total_alt, lookup_wr_ne by lia. rewrite list_lookup_insert_eq by lia. done. }
    rewrite Z.mod_mod by done. replace (8 * Z.of_nat (S k)) with (8 + 8 * Z.of_nat k) by lia.
    rewrite Z.pow_add_r by lia. rewrite Z.rem_mul_r by lia. done.
Qed.

Lemma rd_range k data off : 0 ≤ rd k data off < 2 ^ (8 * Z.of_nat k).
Proof.
  revert off. induction k as [|k IH]; intros off; cbn [rd]; [simpl; lia|].
  replace (8 * Z.of_nat (S k)) with (8 + 8 * Z.of_nat k) by lia. rewrite Z.pow_add_r by lia.
  pose proof (Z.mod_pos_bound (data !!! off) (2 ^ 8)). specialize (IH (S off)). nia.
Qed.

Lemma length_blit data off src : (off + length src ≤ length data)%nat → length (blit data off src) = length data.
Proof. intros H. unfold blit. rewrite !length_app, length_take, length_drop. lia. Qed.

(** The bytes of a range. *)
Definition sub_range (data : list Z) (off n : nat) : list Z := take n (drop off data).

Lemma length_sub_range data off n : (off + n ≤ length data)%nat → length (sub_range data off n) = n.
Proof. intros H. unfold sub_range. rewrite length_take, length_drop. lia. Qed.

Lemma sub_range_app data off n m : sub_range data off (n + m) = sub_range data off n ++ sub_range data (off + n) m.
Proof. unfold sub_range. rewrite <- drop_drop. symmetry. apply take_take_drop. Qed.

Lemma lookup_blit data off src i :
  (off + length src ≤ length data)%nat →
  blit data off src !! i = if decide (off ≤ i < off + length src)%nat then src !! (i - off)%nat else data !! i.
Proof.
  intros H. unfold blit. destruct (decide (off ≤ i < off + length src)%nat) as [Hi|Hi].
  - rewrite lookup_app_r by (rewrite length_take; lia). rewrite length_take, Nat.min_l by lia.
    by rewrite lookup_app_l by lia.
  - destruct (decide (i < off)%nat).
    + rewrite lookup_app_l by (rewrite length_take; lia). by rewrite lookup_take_lt.
    + rewrite lookup_app_r by (rewrite length_take; lia). rewrite length_take, Nat.min_l by lia.
      rewrite lookup_app_r by lia. rewrite lookup_drop. f_equal. lia.
Qed.

Lemma sub_range_blit_eq data off src : (off + length src ≤ length data)%nat → sub_range (blit data off src) off (length src) = src.
Proof.
  intros H. unfold sub_range, blit. rewrite drop_app_le by (rewrite length_take; lia).
  rewrite drop_ge by (rewrite length_take; lia). simpl. by rewrite take_app_length.
Qed.
