(* ===== verification/Spinlock.v ===== *)
(** * CPUs, interrupt nesting and spin locks

    Models [spinlock.c], [spinlock.h], the [struct cpu] of [proc.h] and the
    functions [cpuid], [mycpu] and [myproc] of [proc.c].  The call-stack trace
    [pcs] kept in a lock for debugging is not part of the model. *)

From S2P Require Import Prelude.

(** ** State *)

(** One entry per [struct spinlock] of the kernel; locks that live in dynamic
    or tabled objects are indexed. *)
Inductive lockid :=
| L_ptable | L_ticks | L_plock | L_nsys | L_kmem | L_shmem | L_cons | L_ftable
| L_icache | L_bcache | L_log | L_ide
| L_sleep (n : nat) | L_pipe (n : nat).

#[global] Instance lockid_eq_dec : EqDecision lockid.
Proof. solve_decision. Defined.

Definition lockid_code (l : lockid) : nat * nat :=
  match l with
  | L_ptable => (0, 0) | L_ticks => (1, 0) | L_plock => (2, 0) | L_nsys => (3, 0)
  | L_kmem => (4, 0) | L_shmem => (5, 0) | L_cons => (6, 0) | L_ftable => (7, 0)
  | L_icache => (8, 0) | L_bcache => (9, 0) | L_log => (10, 0) | L_ide => (11, 0)
  | L_sleep n => (12, n) | L_pipe n => (13, n)
  end%nat.

Definition lockid_decode (c : nat * nat) : lockid :=
  match c with
  | (0, _) => L_ptable | (1, _) => L_ticks | (2, _) => L_plock | (3, _) => L_nsys
  | (4, _) => L_kmem | (5, _) => L_shmem | (6, _) => L_cons | (7, _) => L_ftable
  | (8, _) => L_icache | (9, _) => L_bcache | (10, _) => L_log | (11, _) => L_ide
  | (12, n) => L_sleep n | (_, n) => L_pipe n
  end%nat.

#[global] Instance lockid_countable : Countable lockid.
Proof. apply (inj_countable' lockid_code lockid_decode). by intros []. Defined.

(** [struct spinlock]: the lock word and the CPU holding it. *)
Record spinlock := Spinlock { locked : Z; lcpu : option nat }.

(** [struct cpu]; [cproc] is the index in the process table of the running
    process, [None] for a null pointer. *)
Record cpu := Cpu {
  apicid : Z;
  started : Z;
  ncli : Z;
  intena : Z;
  cproc : option nat;
  nsyscall : Z
}.

(** The hardware as one CPU sees it: the [cpus] array, the local APIC id and the
    interrupt flag of the executing CPU, and the lock words in shared memory.  A
    lock absent from [locks] is one whose structure is all zeros (free). *)
Record machine := Machine {
  cpus : list cpu;
  lapicid : Z;
  eflags_if : bool;
  locks : gmap lockid spinlock
}.

#[global] Instance spinlock_eq_dec : EqDecision spinlock.
Proof. solve_decision. Defined.

Definition unlocked : spinlock := Spinlock 0 None.

Definition get_lock (l : lockid) (m : machine) : spinlock := default unlocked (locks m !! l).

Definition FL_IF : Z := 512.

Definition set_cpus (cs : list cpu) (m : machine) : machine :=
  Machine cs (lapicid m) (eflags_if m) (locks m).
Definition set_if (b : bool) (m : machine) : machine :=
  Machine (cpus m) (lapicid m) b (locks m).
Definition set_lock (l : lockid) (v : spinlock) (m : machine) : machine :=
  Machine (cpus m) (lapicid m) (eflags_if m)
    (if decide (v = unlocked) then delete l (locks m) else <[l := v]> (locks m)).

Definition cpu_set_ncli (n : Z) (c : cpu) : cpu :=
  Cpu (apicid c) (started c) n (intena c) (cproc c) (nsyscall c).
Definition cpu_set_intena (n : Z) (c : cpu) : cpu :=
  Cpu (apicid c) (started c) (ncli c) n (cproc c) (nsyscall c).
Definition cpu_set_proc (p : option nat) (c : cpu) : cpu :=
  Cpu (apicid c) (started c) (ncli c) (intena c) p (nsyscall c).
Definition cpu_set_nsyscall (n : Z) (c : cpu) : cpu :=
  Cpu (apicid c) (started c) (ncli c) (intena c) (cproc c) n.

(** What a kernel component needs of its state to take locks: access to the
    machine, with the laws of a record field. *)
Class HasMachine (S : Type) := {
  mach : S → machine;
  set_mach : machine → S → S;
  mach_set_mach : ∀ m s, mach (set_mach m s) = m;
  set_mach_set_mach : ∀ m m' s, set_mach m (set_mach m' s) = set_mach m s;
  set_mach_mach : ∀ s, set_mach (mach s) s = s
}.

#[global] Instance machine_has_machine : HasMachine machine :=
  {| mach := λ m, m; set_mach := λ m _, m;
     mach_set_mach := λ _ _, eq_refl; set_mach_set_mach := λ _ _ _, eq_refl;
     set_mach_mach := λ _, eq_refl |}.

(** ** Operations *)

Section spinlock_ops.
Context {S : Type} `{!HasMachine S}.

Definition modify_mach (f : machine → machine) : K S unit :=
  kmodify (λ s, set_mach (f (mach s)) s).

Definition readeflags_if : K S bool := kgets (λ s, eflags_if (mach s)).
Definition cli : K S unit := modify_mach (set_if false).
Definition sti : K S unit := modify_mach (set_if true).

(** [mycpu()]: the index in [cpus] of the entry with the executing CPU's APIC
    id; all [ncpu] entries of the array are present in the list. *)
Definition mycpu : K S nat :=
  fl ← readeflags_if;
  if (fl : bool) then kpanic "mycpu called with interrupts enabled" else
  m ← kgets mach;
  match find_index (λ c, apicid c =? lapicid m) (cpus m) with
  | Some i => mret i
  | None => kpanic "unknown apicid"
  end.

Definition cpuid : K S Z := i ← mycpu; mret (Z.of_nat i).

(** [mycpu()->field] read and write. *)
Definition mycpu_get : K S cpu :=
  i ← mycpu;
  m ← kgets mach;
  match cpus m !! i with
  | Some c => mret c
  | None => kundef "cpus index"
  end.

Definition mycpu_alter (f : cpu → cpu) : K S unit :=
  i ← mycpu;
  modify_mach (λ m, set_cpus (alter f i (cpus m)) m).

Definition pushcli : K S unit :=
  eflags ← readeflags_if;
  cli;;
  c ← mycpu_get;
  (if ncli c =? 0 then mycpu_alter (cpu_set_intena (if (eflags : bool) then FL_IF else 0))
   else mret tt);;
  mycpu_alter (λ c, cpu_set_ncli (s32 (ncli c + 1)) c).

Definition popcli : K S unit :=
  fl ← readeflags_if;
  if (fl : bool) then kpanic "popcli - interruptible" else
  mycpu_alter (λ c, cpu_set_ncli (s32 (ncli c - 1)) c);;
  c ← mycpu_get;
  if ncli c <? 0 then kpanic "popcli" else
  c' ← mycpu_get;
  if (ncli c' =? 0) && negb (intena c' =? 0) then sti else mret tt.

Definition myproc : K S (option nat) :=
  pushcli;;
  c ← mycpu_get;
  popcli;;
  mret (cproc c).

Definition initlock (l : lockid) : K S unit := modify_mach (set_lock l unlocked).

Definition holding (l : lockid) : K S bool :=
  pushcli;;
  m ← kgets mach;
  r ← (if negb (locked (get_lock l m) =? 0)
       then i ← mycpu; mret (bool_decide (lcpu (get_lock l m) = Some i))
       else mret false);
  popcli;;
  mret r.

(** [while (xchg(&lk->locked, 1) != 0);] leaves the loop at once when the lock
    word is 0 and otherwise spins. *)
Definition acquire (l : lockid) : K S unit :=
  pushcli;;
  h ← holding l;
  if (h : bool) then kpanic "acquire" else
  m ← kgets mach;
  if locked (get_lock l m) =? 0 then
    modify_mach (set_lock l (Spinlock 1 (lcpu (get_lock l m))));;
    i ← mycpu;
    modify_mach (set_lock l (Spinlock 1 (Some i)))
  else kspin.

Definition release (l : lockid) : K S unit :=
  h ← holding l;
  if negb h then kpanic "release" else
  modify_mach (λ m, set_lock l (Spinlock (locked (get_lock l m)) None) m);;
  modify_mach (set_lock l unlocked);;
  popcli.

End spinlock_ops.

(** ** The executing CPU *)

(** [mach_at m i c]: the executing CPU is entry [i] of [cpus], with contents
    [c], and interrupts are off whenever its [ncli] is positive. *)
Record mach_at (m : machine) (i : nat) (c : cpu) : Prop := MachAt {
  at_find : find_index (λ c, apicid c =? lapicid m) (cpus m) = Some i;
  at_cpu : cpus m !! i = Some c;
  at_ncli : 0 ≤ ncli c;
  at_irq : 0 < ncli c → eflags_if m = false
}.

Definition push_cpu (fl : bool) (c : cpu) : cpu :=
  cpu_set_ncli (ncli c + 1) (if ncli c =? 0 then cpu_set_intena (if fl then FL_IF else 0) c else c).

Definition pop_cpu (c : cpu) : cpu := cpu_set_ncli (ncli c - 1) c.

(** The machine after [pushcli], after [popcli], and after a balanced pair. *)
Definition pushed (i : nat) (c : cpu) (m : machine) : machine :=
  Machine (<[i := push_cpu (eflags_if m) c]> (cpus m)) (lapicid m) false (locks m).

Definition popped (i : nat) (c : cpu) (m : machine) : machine :=
  Machine (<[i := pop_cpu c]> (cpus m)) (lapicid m)
    ((ncli c =? 1) && negb (intena c =? 0)) (locks m).

Definition settle (fl : bool) (c : cpu) : cpu :=
  if ncli c =? 0 then cpu_set_intena (if fl then FL_IF else 0) c else c.

Definition settled (i : nat) (c : cpu) (m : machine) : machine :=
  set_cpus (<[i := settle (eflags_if m) c]> (cpus m)) m.

(** The machine inside a critical section of lock [l]. *)
Definition acquired (l : lockid) (i : nat) (c : cpu) (m : machine) : machine :=
  set_lock l (Spinlock 1 (Some i)) (pushed i c m).

Lemma find_index_insert_apicid (cs : list cpu) (i k : nat) (c c' : cpu) (a : Z) :
  cs !! i = Some c → apicid c' = apicid c →
  find_index (λ c, apicid c =? a) cs = Some k →
  find_index (λ c, apicid c =? a) (<[i := c']> cs) = Some k.
Proof.
  intros Hi Ha (x & Hx & HP & Hmin)%find_index_Some.
  destruct (decide (i = k)) as [->|Hne].
  - simplify_eq. eapply find_index_intro with c'.
    + rewrite list_lookup_insert_eq; [done|]. by eapply lookup_lt_Some.
    + simpl in *. by rewrite Ha.
    + intros j y Hj. rewrite list_lookup_insert_ne by lia. by apply Hmin.
  - eapply find_index_intro with x; [by rewrite list_lookup_insert_ne|done|].
    intros j y Hj Hy. destruct (decide (j = i)) as [->|].
    + rewrite list_lookup_insert_eq in Hy by (by eapply lookup_lt_Some). simplify_eq.
      rewrite Ha. by eapply (Hmin i c).
    + rewrite list_lookup_insert_ne in Hy by done. by eapply Hmin.
Qed.

Lemma mach_at_insert m i c c' b ls :
  mach_at m i c → apicid c' = apicid c → 0 ≤ ncli c' → (0 < ncli c' → b = false) →
  mach_at (Machine (<[i := c']> (cpus m)) (lapicid m) b ls) i c'.
Proof.
  intros [Hf Hc Hn Hi] Ha Hn' Hi'. split; simpl; [|by rewrite list_lookup_insert_eq;
    [|by eapply lookup_lt_Some]|done|done].
  by eapply find_index_insert_apicid.
Qed.

Lemma apicid_push fl c : apicid (push_cpu fl c) = apicid c.
Proof. unfold push_cpu. by destruct (ncli c =? 0). Qed.

Lemma ncli_push fl c : ncli (push_cpu fl c) = ncli c + 1.
Proof. done. Qed.

Lemma cproc_push fl c : cproc (push_cpu fl c) = cproc c.
Proof. unfold push_cpu. by destruct (ncli c =? 0). Qed.

Lemma mach_at_pushed m i c : mach_at m i c → mach_at (pushed i c m) i (push_cpu (eflags_if m) c).
Proof.
  intros H. apply mach_at_insert with c; [done|apply apicid_push| |done].
  rewrite ncli_push. destruct H. lia.
Qed.

Lemma mach_at_acquired m i c l :
  mach_at m i c → mach_at (acquired l i c m) i (push_cpu (eflags_if m) c).
Proof. intros H%mach_at_pushed. destruct H. by split. Qed.

Lemma mach_at_set_lock m i c l v : mach_at m i c → mach_at (set_lock l v m) i c.
Proof. intros []. by split. Qed.

Lemma mach_at_settled m i c :
  mach_at m i c → mach_at (settled i c m) i (settle (eflags_if m) c).
Proof.
  intros H. unfold settled, set_cpus. destruct H as [Hf Hc Hn Hi].
  apply mach_at_insert with c; [by split| | |]; unfold settle; destruct (ncli c =? 0); auto.
Qed.

Lemma settled_busy m i c : mach_at m i c → 0 < ncli c → settled i c m = m.
Proof.
  intros H Hn. unfold settled, settle. destruct (Z.eqb_spec (ncli c) 0); [lia|].
  rewrite list_insert_id by apply H. by destruct m.
Qed.

(** Balancing a [pushcli] with a [popcli]. *)
Lemma popped_pushed m i c :
  mach_at m i c → popped i (push_cpu (eflags_if m) c) (pushed i c m) = settled i c m.
Proof.
  intros H. unfold popped, pushed, settled, set_cpus; simpl. rewrite list_insert_insert_eq.
  f_equal.
  - f_equal. unfold pop_cpu, push_cpu, settle, cpu_set_ncli, cpu_set_intena.
    destruct c as [a st n it p ns]; simpl. destruct (n =? 0); simpl; f_equal; lia.
  - destruct H as [_ _ Hn Hi]. unfold push_cpu. destruct (Z.eqb_spec (ncli c) 0) as [E|E]; simpl.
    + rewrite E. simpl. by destruct (eflags_if m).
    + rewrite Hi by lia. destruct (Z.eqb_spec (ncli c + 1) 1); [lia|done].
Qed.

Lemma get_set_lock_eq l v m : get_lock l (set_lock l v m) = v.
Proof.
  unfold get_lock, set_lock; simpl. destruct (decide (v = unlocked)) as [->|].
  - by rewrite lookup_delete_eq.
  - by rewrite lookup_insert_eq.
Qed.

Lemma get_set_lock_ne l l' v m : l ≠ l' → get_lock l (set_lock l' v m) = get_lock l m.
Proof.
  intros. unfold get_lock, set_lock; simpl. destruct (decide (v = unlocked)).
  - by rewrite lookup_delete_ne.
  - by rewrite lookup_insert_ne.
Qed.

Lemma set_set_lock l v w m : set_lock l v (set_lock l w m) = set_lock l v m.
Proof.
  unfold set_lock; simpl. f_equal.
  repeat case_decide; rewrite ?delete_delete_eq, ?delete_insert_eq, ?insert_delete_eq,
    ?insert_insert_eq; done.
Qed.

Lemma set_lock_free l w m : locks m !! l = None → set_lock l unlocked (set_lock l w m) = m.
Proof.
  intros H. rewrite set_set_lock. unfold set_lock. destruct m as [cs a b ls]; simpl in *.
  f_equal. by apply delete_id.
Qed.

(** ** What the operations do *)

Section spinlock_specs.
Context {S : Type} `{!HasMachine S}.
Implicit Types (s : S).

Lemma mycpu_ok s i c :
  mach_at (mach s) i c → eflags_if (mach s) = false → mycpu s = Ok i s.
Proof. intros [Hf _ _ _] Hi. unfold mycpu, readeflags_if. krun. rewrite Hi. simpl. by rewrite Hf. Qed.

Lemma mycpu_get_ok s i c :
  mach_at (mach s) i c → eflags_if (mach s) = false → mycpu_get s = Ok c s.
Proof.
  intros H Hi. unfold mycpu_get. rewrite (bind_ok _ _ _ i s) by (by eapply mycpu_ok).
  krun. destruct H as [_ Hc _ _]. by rewrite Hc.
Qed.

Lemma mycpu_alter_ok f s i c :
  mach_at (mach s) i c → eflags_if (mach s) = false →
  mycpu_alter f s = Ok tt (set_mach (set_cpus (<[i := f c]> (cpus (mach s))) (mach s)) s).
Proof.
  intros H Hi. unfold mycpu_alter. rewrite (bind_ok _ _ _ i s) by (by eapply mycpu_ok).
  unfold modify_mach. krun. do 3 f_equal. apply list_alter_as_insert. apply H.
Qed.

Lemma pushcli_ok s i c :
  mach_at (mach s) i c → ncli c < 2 ^ 31 - 1 →
  pushcli s = Ok tt (set_mach (pushed i c (mach s)) s).
Proof.
  intros H Hb. unfold pushcli, readeflags_if, cli, modify_mach.
  set (m := mach s) in *.
  rewrite (bind_ok _ _ _ (eflags_if m) s) by done.
  set (s1 := set_mach (set_if false m) s).
  rewrite (bind_ok _ _ _ tt s1) by done.
  assert (mach_at (mach s1) i c) as H1.
  { unfold s1. rewrite mach_set_mach. destruct H. by split. }
  assert (eflags_if (mach s1) = false) as Hi1 by (unfold s1; by rewrite mach_set_mach).
  rewrite (bind_ok _ _ _ c s1) by (by eapply mycpu_get_ok).
  set (c2 := if ncli c =? 0 then cpu_set_intena (if eflags_if m then FL_IF else 0) c else c).
  set (s2 := set_mach (set_cpus (<[i := c2]> (cpus m)) (set_if false m)) s).
  rewrite (bind_ok _ _ _ tt s2).
  2:{ unfold s2, c2. destruct (ncli c =? 0).
      - rewrite (mycpu_alter_ok _ s1 i c) by done. unfold s1.
        by rewrite mach_set_mach, set_mach_set_mach.
      - krun. unfold s1. f_equal. rewrite list_insert_id by apply H. by destruct m. }
  assert (mach_at (mach s2) i c2) as H2.
  { unfold s2. rewrite mach_set_mach. unfold set_cpus, set_if; simpl.
    apply mach_at_insert with c; [done| | |]; unfold c2; destruct (ncli c =? 0); simpl; auto; apply H. }
  rewrite (mycpu_alter_ok _ s2 i c2) by (done || (unfold s2; by rewrite mach_set_mach)).
  unfold s2. rewrite mach_set_mach, set_mach_set_mach. unfold set_cpus, pushed; simpl.
  rewrite list_insert_insert_eq. do 3 f_equal. unfold push_cpu, c2.
  destruct H as [_ _ Hn _].
  destruct (ncli c =? 0); simpl; (rewrite s32_small by lia); done.
Qed.

Lemma popcli_ok s i c :
  mach_at (mach s) i c → 1 ≤ ncli c < 2 ^ 31 →
  popcli s = Ok tt (set_mach (popped i c (mach s)) s).
Proof.
  intros H Hb. assert (eflags_if (mach s) = false) as Hi by (apply H; lia).
  unfold popcli, readeflags_if. rewrite (bind_ok _ _ _ false s) by (krun; by rewrite Hi).
  simpl. set (s1 := set_mach (set_cpus (<[i := pop_cpu c]> (cpus (mach s))) (mach s)) s).
  rewrite (bind_ok _ _ _ tt s1).
  2:{ rewrite (mycpu_alter_ok _ s i c) by done. rewrite s32_small by lia. done. }
  assert (mach_at (mach s1) i (pop_cpu c)) as H1.
  { unfold s1. rewrite mach_set_mach. unfold set_cpus.
    apply mach_at_insert with c; [done..| |]; simpl; [lia|done]. }
  assert (eflags_if (mach s1) = false) as Hi1 by (unfold s1; by rewrite mach_set_mach).
  rewrite (bind_ok _ _ _ (pop_cpu c) s1) by (by eapply mycpu_get_ok). simpl.
  destruct (Z.ltb_spec (ncli c - 1) 0); [lia|].
  rewrite (bind_ok _ _ _ (pop_cpu c) s1) by (by eapply mycpu_get_ok). simpl.
  unfold popped. replace (ncli c - 1 =? 0) with (ncli c =? 1)
    by (destruct (Z.eqb_spec (ncli c) 1), (Z.eqb_spec (ncli c - 1) 0); lia).
  destruct ((ncli c =? 1) && negb (intena c =? 0)) eqn:E.
  - unfold sti, modify_mach. krun. unfold s1. by rewrite mach_set_mach, set_mach_set_mach.
  - krun. unfold s1, set_cpus. by rewrite Hi.
Qed.

Lemma myproc_ok s i c :
  mach_at (mach s) i c → ncli c < 2 ^ 31 - 1 →
  myproc s = Ok (cproc c) (set_mach (settled i c (mach s)) s).
Proof.
  intros H Hb. unfold myproc.
  rewrite (bind_ok _ _ _ _ _ (pushcli_ok s i c H Hb)).
  set (s1 := set_mach (pushed i c (mach s)) s).
  assert (mach_at (mach s1) i (push_cpu (eflags_if (mach s)) c)) as H1.
  { unfold s1. rewrite mach_set_mach. by apply mach_at_pushed. }
  rewrite (bind_ok _ _ _ (push_cpu (eflags_if (mach s)) c) s1)
    by (eapply mycpu_get_ok; [done|unfold s1; by rewrite mach_set_mach]).
  rewrite (bind_ok _ _ _ tt (set_mach (settled i c (mach s)) s)).
  - by rewrite cproc_push.
  - rewrite (popcli_ok s1 i (push_cpu (eflags_if (mach s)) c)); [|done|rewrite ncli_push; destruct H; lia].
    unfold s1. rewrite mach_set_mach, set_mach_set_mach, popped_pushed by done. done.
Qed.

Lemma holding_ok l s i c :
  mach_at (mach s) i c → ncli c < 2 ^ 31 - 1 →
  holding l s = Ok (negb (locked (get_lock l (mach s)) =? 0)
                    && bool_decide (lcpu (get_lock l (mach s)) = Some i))
                   (set_mach (settled i c (mach s)) s).
Proof.
  intros H Hb. unfold holding.
  rewrite (bind_ok _ _ _ _ _ (pushcli_ok s i c H Hb)).
  set (s1 := set_mach (pushed i c (mach s)) s).
  assert (mach s1 = pushed i c (mach s)) as Hm1 by (unfold s1; by rewrite mach_set_mach).
  assert (mach_at (mach s1) i (push_cpu (eflags_if (mach s)) c)) as H1.
  { rewrite Hm1. by apply mach_at_pushed. }
  rewrite (bind_ok _ _ _ (mach s1) s1) by done.
  set (b := negb _ && _).
  rewrite (bind_ok _ _ _ b s1).
  2:{ unfold b. rewrite Hm1. change (get_lock l (pushed i c (mach s))) with (get_lock l (mach s)).
      destruct (negb _); [|done].
      rewrite (bind_ok _ _ _ i s1) by (eapply mycpu_ok; [done|by rewrite Hm1]). done. }
  rewrite (bind_ok _ _ _ tt (set_mach (settled i c (mach s)) s)); [done|].
  rewrite (popcli_ok s1 i (push_cpu (eflags_if (mach s)) c)); [|done|rewrite ncli_push; destruct H; lia].
  by rewrite Hm1; unfold s1; rewrite set_mach_set_mach, popped_pushed by done.
Qed.

Lemma acquire_unfold l s i c :
  mach_at (mach s) i c → ncli c < 2 ^ 31 - 2 →
  acquire l s =
    (if negb (locked (get_lock l (mach s)) =? 0)
        && bool_decide (lcpu (get_lock l (mach s)) = Some i) then Panic "acquire"
     else if locked (get_lock l (mach s)) =? 0 then
       Ok tt (set_mach (acquired l i c (mach s)) s)
     else Spin (set_mach (pushed i c (mach s)) s)).
Proof.
  intros H Hb. unfold acquire.
  rewrite (bind_ok _ _ _ _ _ (pushcli_ok s i c H ltac:(lia))).
  set (s1 := set_mach (pushed i c (mach s)) s).
  set (c1 := push_cpu (eflags_if (mach s)) c).
  assert (mach s1 = pushed i c (mach s)) as Hm1 by (unfold s1; by rewrite mach_set_mach).
  assert (mach_at (mach s1) i c1) as H1 by (rewrite Hm1; by apply mach_at_pushed).
  assert (ncli c1 = ncli c + 1) as Hn1 by apply ncli_push.
  assert (0 ≤ ncli c) as Hn by apply H.
  rewrite (bind_ok _ _ _ _ _ (holding_ok l s1 i c1 H1 ltac:(lia))).
  rewrite (settled_busy _ _ _ H1) by lia. rewrite set_mach_mach.
  rewrite Hm1. change (get_lock l (pushed i c (mach s))) with (get_lock l (mach s)).
  destruct (negb _ && _); [done|].
  rewrite (bind_ok _ _ _ (mach s1) s1) by done. rewrite Hm1.
  change (get_lock l (pushed i c (mach s))) with (get_lock l (mach s)).
  destruct (locked _ =? 0); [|done].
  unfold modify_mach at 1.
  set (s2 := set_mach (set_lock l (Spinlock 1 (lcpu (get_lock l (mach s)))) (mach s1)) s1).
  rewrite (bind_ok _ _ _ tt s2) by done.
  assert (mach s2 = set_lock l (Spinlock 1 (lcpu (get_lock l (mach s)))) (mach s1)) as Hm2
    by (unfold s2; by rewrite mach_set_mach).
  rewrite (bind_ok _ _ _ i s2).
  2:{ eapply mycpu_ok; rewrite Hm2; [by apply mach_at_set_lock|]. by rewrite Hm1. }
  unfold modify_mach. krun. rewrite Hm2, set_set_lock. unfold s2, s1.
  by rewrite !set_mach_set_mach, mach_set_mach.
Qed.

Lemma acquire_ok l s i c :
  mach_at (mach s) i c → ncli c < 2 ^ 31 - 2 → locks (mach s) !! l = None →
  acquire l s = Ok tt (set_mach (acquired l i c (mach s)) s).
Proof. intros H Hb Hl. rewrite (acquire_unfold l s i c H Hb). unfold get_lock. by rewrite Hl. Qed.

Lemma acquire_held l s i c :
  mach_at (mach s) i c → ncli c < 2 ^ 31 - 2 → locks (mach s) !! l = Some (Spinlock 1 (Some i)) →
  acquire l s = Panic "acquire".
Proof.
  intros H Hb Hl. rewrite (acquire_unfold l s i c H Hb). unfold get_lock. rewrite Hl. simpl.
  by rewrite bool_decide_true.
Qed.

Lemma acquire_busy l s i c j :
  mach_at (mach s) i c → ncli c < 2 ^ 31 - 2 → locks (mach s) !! l = Some (Spinlock 1 (Some j)) →
  i ≠ j → acquire l s = Spin (set_mach (pushed i c (mach s)) s).
Proof.
  intros H Hb Hl Hne. rewrite (acquire_unfold l s i c H Hb). unfold get_lock. rewrite Hl. simpl.
  by rewrite bool_decide_false by congruence.
Qed.

(** Releasing a lock the executing CPU holds. *)
Lemma release_ok l s i c :
  mach_at (mach s) i c → 1 ≤ ncli c < 2 ^ 31 - 1 →
  locks (mach s) !! l = Some (Spinlock 1 (Some i)) →
  release l s = Ok tt (set_mach (popped i c (set_lock l unlocked (mach s))) s).
Proof.
  intros H Hb Hl. unfold release.
  rewrite (bind_ok _ _ _ _ _ (holding_ok l s i c H ltac:(lia))).
  rewrite (settled_busy _ _ _ H) by lia. rewrite set_mach_mach.
  assert (get_lock l (mach s) = Spinlock 1 (Some i)) as -> by (unfold get_lock; by rewrite Hl).
  simpl. rewrite bool_decide_true by done. simpl.
  unfold modify_mach.
  set (s1 := set_mach (set_lock l (Spinlock (locked (get_lock l (mach s))) None) (mach s)) s).
  rewrite (bind_ok _ _ _ tt s1) by done.
  set (s2 := set_mach (set_lock l unlocked (mach s)) s).
  rewrite (bind_ok _ _ _ tt s2).
  2:{ krun. unfold s1, s2. by rewrite mach_set_mach, set_mach_set_mach, set_set_lock. }
  assert (mach s2 = set_lock l unlocked (mach s)) as Hm2 by (unfold s2; by rewrite mach_set_mach).
  rewrite (popcli_ok s2 i c); [|rewrite Hm2; by apply mach_at_set_lock|lia].
  rewrite Hm2. unfold s2. by rewrite set_mach_set_mach.
Qed.

Lemma release_not_held l s i c :
  mach_at (mach s) i c → ncli c < 2 ^ 31 - 1 →
  locked (get_lock l (mach s)) = 0 ∨ lcpu (get_lock l (mach s)) ≠ Some i →
  release l s = Panic "release".
Proof.
  intros H Hb Hl. unfold release. rewrite (bind_ok _ _ _ _ _ (holding_ok l s i c H Hb)).
  destruct Hl as [->|Hl]; simpl; [done|].
  rewrite bool_decide_false by done. by rewrite andb_false_r.
Qed.

(** Leaving the critical section restores the machine as [acquire] found it. *)
Lemma release_acquired l s i c :
  mach_at (mach s) i c → ncli c < 2 ^ 31 - 2 → locks (mach s) !! l = None →
  ∀ s', mach s' = acquired l i c (mach s) →
  release l s' = Ok tt (set_mach (settled i c (mach s)) s').
Proof.
  intros H Hb Hl s' Hs'. assert (0 ≤ ncli c) as Hn by apply H.
  rewrite (release_ok l s' i (push_cpu (eflags_if (mach s)) c)); rewrite ?Hs'.
  - unfold acquired. rewrite set_lock_free by done. by rewrite popped_pushed.
  - by apply mach_at_acquired.
  - rewrite ncli_push. lia.
  - unfold acquired, set_lock; simpl. by rewrite lookup_insert_eq.
Qed.

End spinlock_specs.

(** [n] nested [pushcli]/[popcli] pairs around [body]. *)
Fixpoint nested_cli (n : nat) (body : K machine bool) : K machine bool :=
  match n with
  | 0%nat => body
  | Datatypes.S n' => pushcli;; r ← nested_cli n' body; popcli;; mret r
  end.

Lemma nested_cli_busy n m i c :
  mach_at m i c → 0 < ncli c → ncli c + Z.of_nat n < 2 ^ 31 - 1 →
  nested_cli n readeflags_if m = Ok false m.
Proof.
  revert m c. induction n as [|n IH]; intros m c H Hp Hb.
  - simpl. unfold readeflags_if. krun. rewrite (at_irq _ _ _ H) by done. done.
  - cbn [nested_cli]. rewrite (bind_ok _ _ _ _ _ (@pushcli_ok machine machine_has_machine m i c H ltac:(lia))). cbn [set_mach machine_has_machine].
    pose proof (mach_at_pushed _ _ _ H) as H1.
    rewrite (bind_ok _ _ _ false (pushed i c m)).
    2:{ eapply IH; [exact H1| |]; rewrite ncli_push; lia. }
    rewrite (bind_ok _ _ _ _ _ (@popcli_ok machine machine_has_machine (pushed i c m) i _ H1 ltac:(rewrite ncli_push; lia))).
    cbn [set_mach mach machine_has_machine].
    rewrite popped_pushed, settled_busy by done. done.
Qed.

(** ** Properties *)

(** C29: a spin lock is a mutual-exclusion lock.  When CPU [i] acquires a free
    lock, the lock records it as holder with interrupts off; a second [acquire]
    on that CPU panics; on every other CPU [acquire] spins without touching any
    lock word and [release] panics; and CPU [i]'s [release] restores the machine
    it started from (interrupt flag included). *)
Theorem spinlock_exclusive (l : lockid) (m : machine) (i : nat) (c : cpu) :
  mach_at m i c → ncli c < 2 ^ 31 - 3 → locks m !! l = None →
  ∃ m1, acquire l m = Ok tt m1
    ∧ get_lock l m1 = Spinlock 1 (Some i) ∧ eflags_if m1 = false
    ∧ acquire l m1 = Panic "acquire"
    ∧ (∀ m2 j cj, locks m2 = locks m1 → mach_at m2 j cj → ncli cj < 2 ^ 31 - 2 → j ≠ i →
         (∃ m3, acquire l m2 = Spin m3 ∧ locks m3 = locks m1) ∧ release l m2 = Panic "release")
    ∧ release l m1 = Ok tt (settled i c m).
Proof.
  intros H Hb Hl. exists (acquired l i c m).
  pose proof (mach_at_acquired m i c l H) as H1.
  assert (locks (acquired l i c m) !! l = Some (Spinlock 1 (Some i))) as Hl1
    by (unfold acquired, set_lock; simpl; by rewrite lookup_insert_eq).
  repeat split.
  - by apply (@acquire_ok machine machine_has_machine l m i c H); [lia|].
  - unfold get_lock. by rewrite Hl1.
  - eapply (@acquire_held machine machine_has_machine l (acquired l i c m)); [exact H1| |done]. rewrite ncli_push. lia.
  - exists (pushed j cj m2). split; [|done].
    eapply (@acquire_busy machine machine_has_machine l m2 j cj i); [done..| |done]. simpl. by rewrite H0.
  - eapply (@release_not_held machine machine_has_machine l m2 j cj); [done|lia|]. right. unfold get_lock.
    simpl. rewrite H0, Hl1. simpl. congruence.
  - by apply (@release_acquired machine machine_has_machine l m i c H ltac:(lia) Hl).
Qed.

Definition cpu0 : cpu := Cpu 0 1 0 0 None 0.
Definition cpu1 : cpu := Cpu 7 1 0 0 None 0.
Definition boot_machine : machine := Machine [cpu0; cpu1] 7 true ∅.

Lemma boot_machine_at : mach_at boot_machine 1 cpu1.
Proof. by split. Qed.

Lemma spinlock_exclusive_witness :
  ∃ m1, acquire L_ptable boot_machine = Ok tt m1 ∧ acquire L_ptable m1 = Panic "acquire".
Proof.
  destruct (spinlock_exclusive L_ptable boot_machine 1 cpu1) as (m1 & H1 & _ & _ & H2 & _).
  - exact boot_machine_at.
  - simpl; lia.
  - reflexivity.
  - exists m1. split; assumption.
Defined.

(** [pushcli]/[popcli] are matched.  Any number [n+1] of nested pairs keeps
    interrupts off inside and ends in the machine it started from, with the
    interrupt flag restored ([intena] of the CPU may record the saved flag). *)
Theorem pushcli_popcli_nesting (n : nat) (m : machine) (i : nat) (c : cpu) :
  mach_at m i c → ncli c + Z.of_nat n < 2 ^ 31 - 2 →
  nested_cli (n + 1) readeflags_if m = Ok false (settled i c m).
Proof.
  intros H Hb. rewrite Nat.add_1_r. cbn [nested_cli]. assert (0 ≤ ncli c) by apply H.
  rewrite (bind_ok _ _ _ _ _ (@pushcli_ok machine machine_has_machine m i c H ltac:(lia))). cbn [set_mach mach machine_has_machine].
  pose proof (mach_at_pushed _ _ _ H) as H1.
  rewrite (bind_ok _ _ _ false (pushed i c m)).
  2:{ eapply nested_cli_busy; [exact H1| |]; rewrite ncli_push; lia. }
  rewrite (bind_ok _ _ _ _ _ (@popcli_ok machine machine_has_machine (pushed i c m) i _ H1 ltac:(rewrite ncli_push; lia))).
  cbn [set_mach mach machine_has_machine]. by rewrite popped_pushed.
Qed.

Lemma pushcli_popcli_nesting_witness :
  nested_cli 4 readeflags_if boot_machine = Ok false (settled 1 cpu1 boot_machine).
Proof. apply (pushcli_popcli_nesting 3 boot_machine 1 cpu1); [exact boot_machine_at|simpl; lia]. Defined.
