(* ===== verification/Printf.v ===== *)
(** * Formatted output

    Models the number and format printing of the kernel console ([printint] and
    the format loop of [cprintf] in [console.c]) and of the user library
    ([printint] and [printf] in [printf.c]).  Output is the list of characters
    handed to [consputc] or [putc], in order. *)

From S2P Require Import Prelude.
From Stdlib Require Ascii String.

(** Character codes of a string literal. *)
Fixpoint str (s : string) : list Z :=
  match s with
  | String.EmptyString => []
  | String.String c s' => Z.of_N (Ascii.N_of_ascii c) :: str s'
  end.

(** [digits[k]] for the two digit tables. *)
Definition kdigits : list Z := str "0123456789abcdef".
Definition udigits : list Z := str "0123456789ABCDEF".

(** [do { buf[i++] = digits[x % base]; } while ((x /= base) != 0);]
    The characters in the order they are stored.  [None]: out of fuel or a digit
    index outside the table. *)
Fixpoint digit_loop (digits : list Z) (fuel : nat) (x base : Z) : option (list Z) :=
  match fuel with
  | 0%nat => None
  | S fuel' =>
      d ← digits !! Z.to_nat (x mod base);
      let x' := x / base in
      if x' =? 0 then Some [d] else cons d <$> digit_loop digits fuel' x' base
  end.

(** A 32-bit value has at most 32 digits in any base from 2 on. *)
Definition PRINT_FUEL : nat := 32.

(** [printint] of [console.c]: characters in the order they are printed. *)
Definition printint (xx base : Z) (sign : bool) : option (list Z) :=
  let neg := sign && (xx <? 0) in
  let x := if neg then u32 (- xx) else u32 xx in
  buf ← digit_loop kdigits PRINT_FUEL x base;
  Some (rev (buf ++ if neg then str "-" else [])).

(** [printint] of [printf.c]. *)
Definition uprintint (xx base : Z) (sgn : bool) : option (list Z) :=
  let neg := sgn && (xx <? 0) in
  let x := if neg then u32 (- xx) else u32 xx in
  buf ← digit_loop udigits PRINT_FUEL x base;
  Some (rev (buf ++ if neg then str "-" else [])).

(** The words after the format on the stack: an integer, or a pointer to a
    nul-terminated string given by its characters. *)
Inductive farg := FInt (z : Z) | FStr (s : list Z).

Definition PERCENT : Z := 37.
Definition CH_d : Z := 100.
Definition CH_x : Z := 120.
Definition CH_p : Z := 112.
Definition CH_s : Z := 115.
Definition CH_c : Z := 99.

(** The text [%s] prints: a null pointer prints as [(null)]; a word that is not
    a string pointer is an undefined read. *)
Definition farg_str (a : farg) : option (list Z) :=
  match a with
  | FStr s => Some s
  | FInt z => if z =? 0 then Some (str "(null)") else None
  end.

Definition farg_int (a : farg) : option Z :=
  match a with
  | FInt z => Some z
  | FStr _ => None
  end.

(** The format loop of [cprintf]; [fmt] is the string without its final nul.
    [None]: a missing or ill-typed argument. *)
Fixpoint cprintf_loop (fmt : list Z) (args : list farg) : option (list Z) :=
  match fmt with
  | [] => Some []
  | c :: fmt' =>
      if negb (c =? PERCENT) then cons c <$> cprintf_loop fmt' args
      else
        match fmt' with
        | [] => Some []
        | c' :: fmt'' =>
            if c' =? CH_d then
              match args with
              | a :: args' =>
                  z ← farg_int a; out ← printint z 10 true;
                  app out <$> cprintf_loop fmt'' args'
              | [] => None
              end
            else if (c' =? CH_x) || (c' =? CH_p) then
              match args with
              | a :: args' =>
                  z ← farg_int a; out ← printint z 16 false;
                  app out <$> cprintf_loop fmt'' args'
              | [] => None
              end
            else if c' =? CH_s then
              match args with
              | a :: args' =>
                  out ← farg_str a;
                  app out <$> cprintf_loop fmt'' args'
              | [] => None
              end
            else if c' =? PERCENT then cons PERCENT <$> cprintf_loop fmt'' args
            else app [PERCENT; c'] <$> cprintf_loop fmt'' args
        end
  end.

(** [printf] of [printf.c], with its two-state loop ([state] is 0 or '%'). *)
Fixpoint printf_loop (state : bool) (fmt : list Z) (args : list farg) : option (list Z) :=
  match fmt with
  | [] => Some []
  | c :: fmt' =>
      if negb state then
        if c =? PERCENT then printf_loop true fmt' args
        else cons c <$> printf_loop false fmt' args
      else if c =? CH_d then
        match args with
        | a :: args' =>
            z ← farg_int a; out ← uprintint z 10 true;
            app out <$> printf_loop false fmt' args'
        | [] => None
        end
      else if (c =? CH_x) || (c =? CH_p) then
        match args with
        | a :: args' =>
            z ← farg_int a; out ← uprintint z 16 false;
            app out <$> printf_loop false fmt' args'
        | [] => None
        end
      else if c =? CH_s then
        match args with
        | a :: args' =>
            out ← farg_str a;
            app out <$> printf_loop false fmt' args'
        | [] => None
        end
      else if c =? CH_c then
        match args with
        | a :: args' =>
            z ← farg_int a;
            cons (u8 z) <$> printf_loop false fmt' args'
        | [] => None
        end
      else if c =? PERCENT then cons c <$> printf_loop false fmt' args
      else app [PERCENT; c] <$> printf_loop false fmt' args
  end.

Definition printf (fmt : list Z) (args : list farg) : option (list Z) := printf_loop false fmt args.

(** ** Reading numbers back *)

(** The value of a digit character of either table. *)
Definition digit_val (c : Z) : Z :=
  if c <=? 57 then c - 48 else if c <=? 70 then c - 55 else c - 87.

(** The number a most-significant-first digit string denotes. *)
Definition digits_val (base : Z) (ds : list Z) : Z :=
  fold_left (λ acc c, acc * base + digit_val c) ds 0.

Lemma kdigits_val k : 0 ≤ k < 16 → ∃ d, kdigits !! Z.to_nat k = Some d ∧ digit_val d = k
  ∧ (k < 10 → d = 48 + k).
Proof.
  intros Hk. assert (∃ n : nat, k = Z.of_nat n ∧ (n < 16)%nat) as (n & -> & Hn).
  { exists (Z.to_nat k). lia. }
  rewrite Nat2Z.id. do 16 (destruct n as [|n]; [eexists; split; [reflexivity|split; [reflexivity|simpl; lia]]|]). lia.
Qed.

Lemma udigits_val k : 0 ≤ k < 16 → ∃ d, udigits !! Z.to_nat k = Some d ∧ digit_val d = k.
Proof.
  intros Hk. assert (∃ n : nat, k = Z.of_nat n ∧ (n < 16)%nat) as (n & -> & Hn).
  { exists (Z.to_nat k). lia. }
  rewrite Nat2Z.id. do 16 (destruct n as [|n]; [eexists; split; reflexivity|]). lia.
Qed.

Lemma digits_val_snoc base ds d :
  digits_val base (ds ++ [d]) = digits_val base ds * base + digit_val d.
Proof. unfold digits_val. by rewrite fold_left_app. Qed.

Section digit_loop.
Context (digits : list Z).
Hypothesis digits_ok :
  ∀ k, 0 ≤ k < 16 → ∃ d, digits !! Z.to_nat k = Some d ∧ digit_val d = k.

(** The loop terminates within [fuel] digits and its reverse denotes [x]; the
    last digit produced is zero only for [x = 0]. *)
Lemma digit_loop_spec fuel x base :
  2 ≤ base ≤ 16 → 0 ≤ x < base ^ Z.of_nat fuel → (0 < fuel)%nat →
  ∃ ds, digit_loop digits fuel x base = Some ds
    ∧ digits_val base (rev ds) = x ∧ (length ds ≤ fuel)%nat ∧ ds ≠ []
    ∧ Forall (λ d, ∃ k, 0 ≤ k < base ∧ digits !! Z.to_nat k = Some d) ds
    ∧ (x ≠ 0 → ∃ d, list.last ds = Some d ∧ digit_val d ≠ 0).
Proof.
  intros Hb. revert x. induction fuel as [|fuel IH]; intros x Hx Hf; [lia|]. simpl.
  pose proof (Z.mod_pos_bound x base ltac:(lia)) as Hm.
  destruct (digits_ok (x mod base)) as (d & Hd & Hdv); [lia|]. rewrite Hd. simpl.
  pose proof (Z.div_mod x base ltac:(lia)) as Hdm.
  destruct (Z.eqb_spec (x / base) 0) as [E|E].
  - exists [d]. simpl. rewrite E, Z.mul_0_r, Z.add_0_l in Hdm.
    repeat split; [unfold digits_val; simpl; lia|lia|done| |].
    + repeat constructor. eauto.
    + intros Hx0. exists d. split; [done|]. lia.
  - assert (0 ≤ x / base) as Hq by (apply Z.div_pos; lia).
    assert (x / base < base ^ Z.of_nat fuel) as Hlt.
    { apply Z.div_lt_upper_bound; [lia|]. rewrite <- Z.pow_succ_r by lia.
      rewrite <- Nat2Z.inj_succ. lia. }
    destruct fuel as [|fuel'].
    { simpl in Hlt. lia. }
    destruct (IH (x / base)) as (ds & Hl & Hv & Hlen & Hne & Hall & Hlast); [lia|lia|].
    simpl in Hl |- *. rewrite Hl. simpl. exists (d :: ds). simpl.
    rewrite digits_val_snoc, Hv. repeat split; [lia|simpl in *; lia|done| |].
    + constructor; [|done]. eauto.
    + intros _. destruct (Hlast E) as (e & He & Hev). exists e. split; [|done].
      by destruct ds.
Qed.

Lemma u32_digit_loop x base :
  2 ≤ base ≤ 16 →
  ∃ ds, digit_loop digits PRINT_FUEL (u32 x) base = Some ds
    ∧ digits_val base (rev ds) = u32 x ∧ ds ≠ []
    ∧ Forall (λ d, ∃ k, 0 ≤ k < base ∧ digits !! Z.to_nat k = Some d) ds
    ∧ (u32 x ≠ 0 → ∃ d, list.last ds = Some d ∧ digit_val d ≠ 0)
    ∧ ∀ n : nat, u32 x < base ^ Z.of_nat n → (0 < n)%nat → (length ds ≤ n)%nat.
Proof.
  intros Hb. pose proof (u32_range x) as Hr.
  assert (2 ^ 32 ≤ base ^ 32) by (apply Z.pow_le_mono_l; lia).
  destruct (digit_loop_spec PRINT_FUEL (u32 x) base) as (ds & Hl & Hv & _ & Hne & Hall & Hlast);
    [lia|unfold PRINT_FUEL; lia|unfold PRINT_FUEL; lia|].
  exists ds. repeat split; [done..|]. intros n Hn Hn0.
  destruct (decide (n ≤ PRINT_FUEL)%nat) as [Hle|Hgt].
  2:{ assert (length ds ≤ PRINT_FUEL)%nat; [|lia].
      destruct (digit_loop_spec PRINT_FUEL (u32 x) base) as (ds' & Hl' & _ & Hlen & _);
        [lia|unfold PRINT_FUEL; lia|unfold PRINT_FUEL; lia|]. by simplify_eq. }
  destruct (digit_loop_spec n (u32 x) base) as (ds' & Hl' & _ & Hlen & _); [lia..|].
  assert (∀ f g y l, (f ≤ g)%nat → digit_loop digits f y base = Some l →
            digit_loop digits g y base = Some l) as Hmono.
  { clear. induction f as [|f IH]; intros [|g] y l Hfg; simpl; try done; try lia.
    destruct (digits !! _); simpl; [|done]. destruct (_ =? 0); [done|].
    destruct (digit_loop digits f (y / base) base) as [l'|] eqn:E; simpl; [|done].
    rewrite (IH g _ l') by (done || lia). done. }
  rewrite (Hmono _ _ _ _ Hle Hl') in Hl. by simplify_eq.
Qed.

End digit_loop.

(** Printing a number always ends. *)
Lemma printint_total x base sgn : 2 ≤ base ≤ 16 → is_Some (printint x base sgn).
Proof.
  intros Hb. unfold printint.
  assert (∀ y, is_Some (digit_loop kdigits PRINT_FUEL (u32 y) base)) as H.
  { intros y. destruct (u32_digit_loop kdigits) with (x := y) (base := base) as (ds & -> & _); [|done|by eexists].
    intros k Hk. destruct (kdigits_val k Hk) as (d & ? & ? & _). eauto. }
  destruct (sgn && (x <? 0)); [destruct (H (- x)) as [ds ->]|destruct (H x) as [ds ->]]; by eexists.
Qed.

(** The arguments match the directives of the format. *)
Fixpoint fmt_args (fmt : list Z) (args : list farg) : bool :=
  match fmt with
  | [] => true
  | c :: fmt' =>
      if negb (c =? PERCENT) then fmt_args fmt' args
      else
        match fmt' with
        | [] => true
        | c' :: fmt'' =>
            if (c' =? CH_d) || ((c' =? CH_x) || (c' =? CH_p)) then
              match args with FInt _ :: args' => fmt_args fmt'' args' | _ => false end
            else if c' =? CH_s then
              match args with FStr _ :: args' => fmt_args fmt'' args' | _ => false end
            else fmt_args fmt'' args
        end
  end.

Lemma cprintf_total fmt args : fmt_args fmt args = true → is_Some (cprintf_loop fmt args).
Proof.
  assert (∀ n fmt args, (length fmt ≤ n)%nat → fmt_args fmt args = true → is_Some (cprintf_loop fmt args)) as H.
  2:{ by apply (H (length fmt)). }
  clear. induction n as [|n IH]; intros fmt args Hn; destruct fmt as [|c fmt']; simpl in *;
    try (by eexists); try lia.
  destruct (negb (c =? PERCENT)).
  { intros H. destruct (IH fmt' args) as [l ->]; [lia|done|by eexists]. }
  destruct fmt' as [|c' fmt'']; [by eexists|]. simpl in Hn.
  assert (∀ args, fmt_args fmt'' args = true → is_Some (cprintf_loop fmt'' args)) as IH'
    by (intros; apply IH; [lia|done]).
  destruct (c' =? CH_d); cbn [orb].
  { destruct args as [|[z|] args]; try done. intros H. simpl.
    destruct (printint_total z 10 true ltac:(lia)) as [o ->]. destruct (IH' _ H) as [l ->]. by eexists. }
  destruct ((c' =? CH_x) || (c' =? CH_p)).
  { destruct args as [|[z|] args]; try done. intros H. simpl.
    destruct (printint_total z 16 false ltac:(lia)) as [o ->]. destruct (IH' _ H) as [l ->]. by eexists. }
  destruct (c' =? CH_s).
  { destruct args as [|[z|] args]; try done. intros H. simpl. destruct (IH' _ H) as [l ->]. by eexists. }
  intros H. destruct (IH' _ H) as [l ->]. destruct (c' =? PERCENT); by eexists.
Qed.

(** Base-ten digits are the same in both tables. *)
Lemma digit_loop_10 fuel x : 0 ≤ x →
  digit_loop kdigits fuel x 10 = digit_loop udigits fuel x 10.
Proof.
  revert x. induction fuel as [|fuel IH]; intros x Hx; [done|]. simpl.
  assert (kdigits !! Z.to_nat (x mod 10) = udigits !! Z.to_nat (x mod 10)) as ->.
  { pose proof (Z.mod_pos_bound x 10 ltac:(lia)) as Hm.
    remember (Z.to_nat (x mod 10)) as n eqn:En. assert (n < 10)%nat by lia.
    do 10 (destruct n as [|n]; [reflexivity|]). lia. }
  rewrite IH by (apply Z.div_pos; lia). done.
Qed.

Lemma printint_uprintint n : printint n 10 true = uprintint n 10 true.
Proof.
  unfold printint, uprintint. rewrite digit_loop_10; [done|].
  destruct (_ && _); apply u32_range.
Qed.

(** Formats whose directives both printers treat alike: [%d], [%s], [%%] and
    unknown letters, but not [%x], [%p] (digit case differs) or [%c] (unknown to
    the kernel). *)
Fixpoint common_fmt (fmt : list Z) : bool :=
  match fmt with
  | [] => true
  | c :: fmt' =>
      if c =? PERCENT then
        match fmt' with
        | [] => true
        | c' :: fmt'' =>
            negb ((c' =? CH_x) || (c' =? CH_p) || (c' =? CH_c)) && common_fmt fmt''
        end
      else common_fmt fmt'
  end.

(** ** Properties *)

Lemma printint_digits (n : Z) :
  - 2 ^ 31 ≤ n < 2 ^ 31 →
  ∃ ds, printint n 10 true = Some ((if n <? 0 then str "-" else []) ++ ds)
    ∧ digits_val 10 ds = Z.abs n
    ∧ Forall (λ d, 48 ≤ d ≤ 57) ds
    ∧ (n ≠ 0 → ∃ d ds', ds = d :: ds' ∧ d ≠ 48)
    ∧ (length ((if (n <? 0)%Z then str "-" else []) ++ ds) ≤ 11)%nat.
Proof.
  intros Hn. unfold printint. simpl (true && _).
  assert (u32 (if n <? 0 then - n else n) = Z.abs n) as Habs.
  { destruct (Z.ltb_spec n 0); rewrite u32_small; lia. }
  destruct (u32_digit_loop kdigits) with (x := if n <? 0 then - n else n) (base := 10)
    as (ds & Hl & Hv & Hne & Hall & Hlast & Hlen); [|lia|].
  { intros k Hk. destruct (kdigits_val k Hk) as (d & ? & ? & _). eauto. }
  assert ((if n <? 0 then u32 (- n) else u32 n) = u32 (if n <? 0 then - n else n)) as ->
    by (by destruct (n <? 0)).
  rewrite Hl. simpl. exists (rev ds). rewrite Habs in *.
  assert (length ds ≤ 10)%nat as Hlen10 by (apply Hlen; lia).
  repeat split.
  - by destruct (n <? 0); rewrite rev_app_distr.
  - done.
  - apply Forall_rev. revert Hall. apply Forall_impl. intros d (k & Hk & Hd).
    destruct (kdigits_val k ltac:(lia)) as (d' & Hd' & _ & H10). simplify_eq.
    rewrite (H10 ltac:(lia)). lia.
  - intros Hn0. destruct Hlast as (d & Hd & Hd0); [lia|].
    apply last_Some in Hd as (ds' & ->). exists d, (rev ds'). rewrite rev_app_distr.
    split; [done|]. intros ->. by apply Hd0.
  - rewrite length_app, length_rev. destruct (n <? 0); simpl; lia.
Qed.

(** [printint(n, 10, 1)] prints every 32-bit [n] (the most negative one
    included) as an optional minus sign and the decimal digits of [|n|], without
    leading zeros, in at most 11 characters, so [char buf[16]] never overflows. *)
Theorem printint_decimal (n : Z) :
  - 2 ^ 31 ≤ n < 2 ^ 31 →
  ∃ ds, printint n 10 true = Some ((if n <? 0 then str "-" else []) ++ ds)
    ∧ digits_val 10 ds = Z.abs n
    ∧ Forall (λ d, 48 ≤ d ≤ 57) ds
    ∧ (n ≠ 0 → ∃ d ds', ds = d :: ds' ∧ d ≠ 48)
    ∧ (length ((if (n <? 0)%Z then str "-" else []) ++ ds) ≤ 11)%nat.
Proof. apply printint_digits. Qed.

Lemma printint_decimal_witness :
  ∃ ds, printint (-2147483648) 10 true = Some (str "-" ++ ds) ∧ digits_val 10 ds = 2147483648.
Proof.
  destruct (printint_decimal (-2147483648)) as (ds & H & Hv & _); [lia|].
  exists ds. split; [exact H|exact Hv].
Defined.

(** the kernel's [cprintf] and the user library's [printf], although written
    differently (look-ahead against a two-state loop, separate number printers),
    print the same characters for every format of their common directives. *)
Theorem cprintf_printf_agree (fmt : list Z) (args : list farg) :
  common_fmt fmt = true → cprintf_loop fmt args = printf fmt args.
Proof.
  unfold printf. remember (length fmt) as n eqn:Hn.
  revert fmt args Hn. induction (lt_wf n) as [n _ IH]. intros fmt args -> Hc.
  destruct fmt as [|c fmt]; [done|]. simpl in *.
  destruct (c =? PERCENT); simpl.
  - destruct fmt as [|c' fmt]; [done|]. simpl in *.
    apply andb_true_iff in Hc as [Hd Hc].
    apply negb_true_iff, orb_false_iff in Hd as [[Hx Hp]%orb_false_iff Hch].
    assert (∀ a, cprintf_loop fmt a = printf_loop false fmt a) as IH'.
    { intros a. apply (IH (length fmt)); [lia|done|done]. }
    destruct (c' =? CH_d).
    { destruct args as [|a args]; [done|]. destruct (farg_int a); simpl; [|done].
      rewrite printint_uprintint. by rewrite IH'. }
    rewrite Hx, Hp. simpl.
    destruct (c' =? CH_s).
    { destruct args as [|a args]; [done|]. destruct (farg_str a); simpl; [|done]. by rewrite IH'. }
    rewrite Hch.
    destruct (Z.eqb_spec c' PERCENT) as [->|]; by rewrite IH'.
  - rewrite (IH (length fmt)); [done|lia|done|done].
Qed.

Lemma cprintf_printf_agree_witness :
  cprintf_loop (str "pid %d %s: 100%% done %q") [FInt (-7); FStr (str "sh")]
  = printf (str "pid %d %s: 100%% done %q") [FInt (-7); FStr (str "sh")].
Proof. apply cprintf_printf_agree. vm_compute. reflexivity. Defined.
