(* ===== verification/CFloat.v ===== *)
(** * C [float] values

    The best-job-first scheduler of [proc.c] computes with [float].  Values are
    the standard library's [spec_float]; operations round to an evaluation
    format, which is the 80-bit x87 format for the default [-m32] build and
    binary32 for an SSE build, and assignments to a [float] round to binary32. *)

From S2P Require Import Prelude.
From Stdlib Require Export SpecFloat.

(** Precision and maximal exponent of intermediate results. *)
Record fpeval := Fpeval { ev_prec : Z; ev_emax : Z }.
Definition x87 : fpeval := Fpeval 64 16384.
Definition sse : fpeval := Fpeval 24 128.

Section ops.
Context (ev : fpeval).

Definition fadd (x y : spec_float) : spec_float := SFadd (ev_prec ev) (ev_emax ev) x y.
Definition fmul (x y : spec_float) : spec_float := SFmul (ev_prec ev) (ev_emax ev) x y.
Definition fof_int (n : Z) : spec_float := binary_normalize (ev_prec ev) (ev_emax ev) n 0 false.

End ops.

(** Conversion to [float] on assignment. *)
Definition to_float (x : spec_float) : spec_float :=
  match x with
  | S754_finite s m e => binary_round 24 128 s m e
  | _ => x
  end.

Definition flt (x y : spec_float) : bool := SFltb x y.

(** The [float] whose representation is the 32-bit word [w]. *)
Definition float_of_bits (w : Z) : spec_float :=
  let s := Z.testbit w 31 in
  let ex := Z.land (Z.shiftr w 23) 255 in
  let m := Z.land w (2 ^ 23 - 1) in
  if ex =? 255 then if m =? 0 then S754_infinity s else S754_nan
  else if ex =? 0 then
    match m with
    | Zpos p => S754_finite s p (-149)
    | _ => S754_zero s
    end
  else
    match m + 2 ^ 23 with
    | Zpos p => S754_finite s p (ex - 150)
    | _ => S754_nan
    end.

(** [(int)x]: truncation; out of range the x86 conversion yields the most
    negative integer. *)
Definition float_to_int (x : spec_float) : Z :=
  match x with
  | S754_zero _ => 0
  | S754_finite s m e =>
      let a := if 0 <=? e then Zpos m * 2 ^ e else Zpos m / 2 ^ (- e) in
      let v := if s then - a else a in
      if (- 2 ^ 31 <=? v) && (v <? 2 ^ 31) then v else - 2 ^ 31
  | _ => - 2 ^ 31
  end.

(** The literals [1] and [0.1f]. *)
Definition f_one : spec_float := S754_finite false 8388608 (-23).
Definition f_tenth : spec_float := S754_finite false 13421773 (-27).

Example f_one_bits : float_of_bits 1065353216 = f_one.
Proof. reflexivity. Qed.
Example f_tenth_bits : float_of_bits 1036831949 = f_tenth.
Proof. reflexivity. Qed.
Example f_one_int : to_float (fof_int x87 1) = f_one.
Proof. reflexivity. Qed.

(** ** The order of [<] on numbers *)

Definition is_nan (x : spec_float) : bool :=
  match x with S754_nan => true | _ => false end.

(** A key whose lexicographic order is the order of the comparison. *)
Definition fkey (x : spec_float) : Z * Z * Z :=
  match x with
  | S754_infinity true => (-2, 0, 0)
  | S754_finite true m e => (-1, - e, Zneg m)
  | S754_zero _ | S754_nan => (0, 0, 0)
  | S754_finite false m e => (1, e, Zpos m)
  | S754_infinity false => (2, 0, 0)
  end.

Definition klt (a b : Z * Z * Z) : bool :=
  let '(a1, a2, a3) := a in
  let '(b1, b2, b3) := b in
  (a1 <? b1) || ((a1 =? b1) && ((a2 <? b2) || ((a2 =? b2) && (a3 <? b3)))).

Lemma flt_klt x y : is_nan x = false → is_nan y = false → flt x y = klt (fkey x) (fkey y).
Proof.
  destruct x as [sx|[]| |[] mx ex], y as [sy|[]| |[] my ey]; intros Hx Hy; try done;
    unfold flt, SFltb; simpl;
    (destruct (Z.compare_spec ex ey) as [->|H|H]; simpl;
     [rewrite Z.ltb_irrefl, Z.eqb_refl; simpl|..]).
  all: try (change (Pos.compare_cont Eq mx my) with (Pos.compare mx my);
            destruct (Pos.compare_spec mx my) as [->|H|H]; simpl; symmetry;
            rewrite ?Z.ltb_lt, ?Z.ltb_ge; lia).
  all: repeat (match goal with |- context [?a <? ?b] => destruct (Z.ltb_spec a b) end; try lia; simpl; try done);
       repeat (match goal with |- context [?a =? ?b] => destruct (Z.eqb_spec a b) end; try lia; simpl; try done).
Qed.

Lemma klt_irrefl a : klt a a = false.
Proof. destruct a as [[a1 a2] a3]. unfold klt. rewrite !Z.ltb_irrefl, !Z.eqb_refl. done. Qed.

(** Not being better is transitive, which makes the ranks a total preorder. *)
Lemma klt_not_trans a b c : klt b a = false → klt c b = false → klt c a = false.
Proof.
  destruct a as [[a1 a2] a3], b as [[b1 b2] b3], c as [[c1 c2] c3]. unfold klt.
  rewrite !orb_false_iff, !andb_false_iff, !orb_false_iff, !andb_false_iff.
  rewrite !Z.ltb_ge, !Z.eqb_neq. lia.
Qed.

Lemma klt_asym a b : klt a b = true → klt b a = false.
Proof.
  intros H. apply not_true_is_false. intros E.
  destruct a as [[a1 a2] a3], b as [[b1 b2] b3]. revert E H. unfold klt.
  rewrite !orb_true_iff, !andb_true_iff, !orb_true_iff, !andb_true_iff.
  rewrite !Z.ltb_lt, !Z.eqb_eq. lia.
Qed.

Lemma flt_asym x y : is_nan x = false → is_nan y = false → flt x y = true → flt y x = false.
Proof. intros Hx Hy. rewrite !flt_klt by done. apply klt_asym. Qed.

Lemma flt_not_trans x y z :
  is_nan x = false → is_nan y = false → is_nan z = false →
  flt y x = false → flt z y = false → flt z x = false.
Proof. intros Hx Hy Hz. rewrite !flt_klt by done. apply klt_not_trans. Qed.
