(* ===== verification/CString.v ===== *)
(** * Memory and string routines

    Models [string.c] (the kernel's routines) and the string routines of
    [ulib.c].  A buffer is the list of its bytes, an address in it an index; the
    string routines that read past the end of what they are given have no
    result. *)

From S2P Require Import Prelude Printf.

(** ** [memset], [memcmp], [memmove] *)

(** [rep stosb]: [n] bytes from [dst]. *)
Fixpoint stosb (n : nat) (m : list Z) (dst : nat) (c : Z) : list Z :=
  match n with
  | 0%nat => m
  | S n' => stosb n' (<[dst := u8 c]> m) (dst + 1) c
  end.

(** The four bytes of a word in memory order. *)
Definition word_bytes (w : Z) : list Z :=
  [u8 w; u8 (Z.shiftr w 8); u8 (Z.shiftr w 16); u8 (Z.shiftr w 24)].

(** Writing the bytes [bs] from [dst] on. *)
Fixpoint put_bytes (m : list Z) (dst : nat) (bs : list Z) : list Z :=
  match bs with
  | [] => m
  | b :: bs' => put_bytes (<[dst := b]> m) (dst + 1) bs'
  end.

(** [rep stosl]: [n] words from [dst]. *)
Fixpoint stosl (n : nat) (m : list Z) (dst : nat) (w : Z) : list Z :=
  match n with
  | 0%nat => m
  | S n' => stosl n' (put_bytes m dst (word_bytes w)) (dst + 4) w
  end.

Definition memset (m : list Z) (dst : nat) (c : Z) (n : nat) : list Z :=
  if (dst mod 4 =? 0)%nat && (n mod 4 =? 0)%nat then
    let c := Z.land c 255 in
    stosl (n / 4) m dst
      (u32 (Z.lor (Z.lor (Z.lor (Z.shiftl c 24) (Z.shiftl c 16)) (Z.shiftl c 8)) c))
  else stosb n m dst c.

Fixpoint memcmp (n : nat) (s1 s2 : list Z) : option Z :=
  match n with
  | 0%nat => Some 0
  | S n' =>
      match s1, s2 with
      | a :: s1', b :: s2' => if negb (a =? b) then Some (a - b) else memcmp n' s1' s2'
      | _, _ => None
      end
  end.

(** [while (n-- > 0) *d++ = *s++] *)
Fixpoint copy_fwd (n : nat) (m : list Z) (d s : nat) : list Z :=
  match n with
  | 0%nat => m
  | S n' => copy_fwd n' (<[d := m !!! s]> m) (d + 1) (s + 1)
  end.

(** [while (n-- > 0) *--d = *--s] *)
Fixpoint copy_bwd (n : nat) (m : list Z) (d s : nat) : list Z :=
  match n with
  | 0%nat => m
  | S n' => copy_bwd n' (<[(d - 1)%nat := m !!! (s - 1)%nat]> m) (d - 1) (s - 1)
  end.

Definition memmove (m : list Z) (dst src n : nat) : list Z :=
  if (src <? dst)%nat && (dst <? src + n)%nat then copy_bwd n m (dst + n) (src + n)
  else copy_fwd n m dst src.

(** [memmove] of [ulib.c] always copies forwards. *)
Definition umemmove (m : list Z) (dst src n : nat) : list Z := copy_fwd n m dst src.

(** ** Strings *)

Fixpoint strncmp (n : nat) (p q : list Z) : option Z :=
  match n with
  | 0%nat => Some 0
  | S n' =>
      match p, q with
      | a :: p', b :: q' =>
          if negb (a =? 0) && (a =? b) then strncmp n' p' q' else Some (u8 a - u8 b)
      | _, _ => None
      end
  end.

(** The bytes [strncpy] writes: the first loop copies, the second fills. *)
Fixpoint strncpy_bytes (n : nat) (t : list Z) : option (list Z) :=
  match n with
  | 0%nat => Some []
  | S n' =>
      match t with
      | [] => None
      | c :: t' => if c =? 0 then Some (0 :: replicate n' 0) else (c ::.) <$> strncpy_bytes n' t'
      end
  end.

Definition strncpy (s t : list Z) (n : Z) : option (list Z) :=
  w ← strncpy_bytes (Z.to_nat n) t;
  Some (w ++ drop (length w) s).

(** The bytes [safestrcpy] writes, for a counter [m] left after [--n]: when the
    loop ends at the source's NUL, [*s = 0] writes one more. *)
Fixpoint safestrcpy_bytes (m : nat) (t : list Z) : option (list Z) :=
  match m with
  | 0%nat => Some [0]
  | S m' =>
      match t with
      | [] => None
      | c :: t' => if c =? 0 then Some [0; 0] else (c ::.) <$> safestrcpy_bytes m' t'
      end
  end.

Definition safestrcpy (s t : list Z) (n : Z) : option (list Z) :=
  if n <=? 0 then Some s else
  w ← safestrcpy_bytes (Z.to_nat (n - 1)) t;
  Some (w ++ drop (length w) s).

Fixpoint strlen (s : list Z) : option Z :=
  match s with
  | [] => None
  | c :: s' => if c =? 0 then Some 0 else Z.succ <$> strlen s'
  end.

Fixpoint strcpy_bytes (t : list Z) : option (list Z) :=
  match t with
  | [] => None
  | c :: t' => if c =? 0 then Some [0] else (c ::.) <$> strcpy_bytes t'
  end.

Definition strcpy (s t : list Z) : option (list Z) :=
  w ← strcpy_bytes t; Some (w ++ drop (length w) s).

Fixpoint strcmp (p q : list Z) : option Z :=
  match p, q with
  | a :: p', b :: q' => if negb (a =? 0) && (a =? b) then strcmp p' q' else Some (u8 a - u8 b)
  | _, _ => None
  end.

(** [strchr]: the offset of the character, or none; outer [None] is a string
    without end. *)
Fixpoint strchr (s : list Z) (c : Z) : option (option nat) :=
  match s with
  | [] => None
  | a :: s' =>
      if a =? 0 then Some None
      else if a =? c then Some (Some 0%nat)
      else option_map (option_map S) (strchr s' c)
  end.

(** [gets]: reads one byte at a time from the input [inp] into a buffer of [max]
    bytes; the fuel is the number of iterations.  Returns the bytes stored
    (without the final NUL) and the rest of the input. *)
Fixpoint gets_loop (fuel : nat) (max i : Z) (inp : list Z) : list Z * list Z :=
  match fuel with
  | 0%nat => ([], inp)
  | S fuel' =>
      if i + 1 <? max then
        match inp with
        | [] => ([], [])
        | c :: inp' =>
            if (c =? 10) || (c =? 13) then ([c], inp')
            else let '(l, rest) := gets_loop fuel' max (i + 1) inp' in (c :: l, rest)
        end
      else ([], inp)
  end.

Definition gets (max : Z) (inp : list Z) : list Z * list Z :=
  let '(l, rest) := gets_loop (Z.to_nat max) max 0 inp in (l ++ [0], rest).

Fixpoint atoi_loop (s : list Z) (n : Z) : option Z :=
  match s with
  | [] => None
  | c :: s' => if (48 <=? c) && (c <=? 57) then atoi_loop s' (s32 (n * 10 + c - 48)) else Some n
  end.

Definition atoi (s : list Z) : option Z := atoi_loop s 0.

(** ** Lemmas *)

(** The string a buffer holds: its bytes up to the first NUL. *)
Fixpoint cstr (l : list Z) : list Z :=
  match l with
  | [] => []
  | c :: l' => if c =? 0 then [] else c :: cstr l'
  end.

Lemma lookup_copy_fwd n m d s j :
  (d + n ≤ length m)%nat → (s + n ≤ length m)%nat → (d ≤ s ∨ s + n ≤ d)%nat →
  copy_fwd n m d s !! j = if decide (d ≤ j < d + n)%nat then m !! (s + (j - d))%nat else m !! j.
Proof.
  revert m d s. induction n as [|n IH]; intros m d s Hd Hs Hov; simpl.
  { by rewrite decide_False by lia. }
  rewrite IH by (rewrite ?length_insert; lia).
  destruct (lookup_lt_is_Some_2 m s) as [x Hx]; [lia|].
  rewrite (list_lookup_total_correct _ _ _ Hx).
  repeat case_decide; try lia.
  - rewrite list_lookup_insert_ne by lia. f_equal. lia.
  - assert (j = d) as -> by lia. rewrite list_lookup_insert_eq by lia.
    by rewrite Nat.sub_diag, Nat.add_0_r.
  - by rewrite list_lookup_insert_ne by lia.
Qed.

Lemma lookup_copy_bwd n m d s j :
  (n ≤ d ≤ length m)%nat → (n ≤ s ≤ length m)%nat → (s ≤ d)%nat →
  copy_bwd n m d s !! j = if decide (d - n ≤ j < d)%nat then m !! (s - (d - j))%nat else m !! j.
Proof.
  revert m d s. induction n as [|n IH]; intros m d s Hd Hs Hov; simpl.
  { by rewrite decide_False by lia. }
  rewrite IH by (rewrite ?length_insert; lia).
  destruct (lookup_lt_is_Some_2 m (s - 1)) as [x Hx]; [lia|].
  rewrite (list_lookup_total_correct _ _ _ Hx).
  repeat case_decide; try lia.
  - rewrite list_lookup_insert_ne by lia. f_equal. lia.
  - assert (j = d - 1)%nat as -> by lia. rewrite list_lookup_insert_eq by lia.
    rewrite <- Hx. f_equal. lia.
  - by rewrite list_lookup_insert_ne by lia.
Qed.

(** The buffer after [bs] has replaced the bytes from [dst] on. *)
Definition splice (m : list Z) (dst : nat) (bs : list Z) : list Z :=
  take dst m ++ bs ++ drop (dst + length bs) m.

Lemma lookup_splice m dst bs j :
  (dst ≤ length m)%nat →
  splice m dst bs !! j = if decide (dst ≤ j < dst + length bs)%nat then bs !! (j - dst)%nat else m !! j.
Proof.
  intros Hd. unfold splice. case_decide.
  - rewrite lookup_app_r by (rewrite length_take; lia). rewrite length_take, Nat.min_l by lia.
    by rewrite lookup_app_l by lia.
  - destruct (decide (j < dst)%nat).
    + rewrite lookup_app_l by (rewrite length_take; lia). by rewrite lookup_take_lt by lia.
    + rewrite lookup_app_r by (rewrite length_take; lia). rewrite length_take, Nat.min_l by lia.
      rewrite lookup_app_r by lia. rewrite lookup_drop. f_equal. lia.
Qed.

Lemma length_put_bytes m dst bs : length (put_bytes m dst bs) = length m.
Proof.
  revert m dst. induction bs as [|b bs IH]; intros m dst; simpl; [done|].
  by rewrite IH, length_insert.
Qed.

Lemma put_bytes_splice m dst bs :
  (dst + length bs ≤ length m)%nat → put_bytes m dst bs = splice m dst bs.
Proof.
  revert m dst. induction bs as [|b bs IH]; intros m dst Hl; simpl in *.
  { unfold splice. simpl. by rewrite Nat.add_0_r, take_drop. }
  rewrite IH by (rewrite length_insert; lia). apply list_eq. intros j.
  rewrite !lookup_splice by (rewrite ?length_insert; lia). simpl.
  destruct (decide (dst = j)) as [<-|Hne].
  - rewrite decide_False, decide_True by lia. rewrite list_lookup_insert_eq by lia.
    by rewrite Nat.sub_diag.
  - repeat case_decide; try lia; rewrite ?list_lookup_insert_ne by lia; [|done].
    rewrite (lookup_cons_ne_0 _ _ (j - dst)) by lia. f_equal. lia.
Qed.

Lemma put_bytes_app m dst bs bs' :
  put_bytes m dst (bs ++ bs') = put_bytes (put_bytes m dst bs) (dst + length bs) bs'.
Proof.
  revert m dst. induction bs as [|b bs IH]; intros m dst; simpl.
  - by rewrite Nat.add_0_r.
  - rewrite IH. f_equal. lia.
Qed.

Lemma stosb_put n m dst c : stosb n m dst c = put_bytes m dst (replicate n (u8 c)).
Proof. revert m dst. induction n as [|n IH]; intros m dst; simpl; [done|]. by rewrite IH. Qed.

Lemma stosl_put n m dst w :
  stosl n m dst w = put_bytes m dst (concat (replicate n (word_bytes w))).
Proof.
  revert m dst. induction n as [|n IH]; intros m dst; [done|].
  change (put_bytes m dst (concat (replicate (S n) (word_bytes w))))
    with (put_bytes m dst (word_bytes w ++ concat (replicate n (word_bytes w)))).
  rewrite put_bytes_app, <- IH. done.
Qed.

(** The word [stosl] stores is four copies of the byte. *)
Lemma memset_word c :
  let b := Z.land c 255 in
  word_bytes (u32 (Z.lor (Z.lor (Z.lor (Z.shiftl b 24) (Z.shiftl b 16)) (Z.shiftl b 8)) b))
  = replicate 4 (u8 c).
Proof.
  cbv zeta. change 255 with (Z.ones 8). rewrite Z.land_ones by lia. fold (u8 c).
  pose proof (u8_range c) as Hb. set (b := u8 c) in *. clearbody b.
  assert (b ∈ seqZ 0 256) as Hin by (apply elem_of_seqZ; lia).
  assert (Forall (λ b, word_bytes (u32 (Z.lor (Z.lor (Z.lor (Z.shiftl b 24) (Z.shiftl b 16))
    (Z.shiftl b 8)) b)) = replicate 4 b) (seqZ 0 256)) as Hall.
  { apply (bool_decide_unpack _). by vm_compute. }
  rewrite Forall_forall in Hall. apply Hall. by apply list_elem_of_In.
Qed.

Lemma concat_replicate_replicate {A} n k (x : A) :
  concat (replicate n (replicate k x)) = replicate (n * k) x.
Proof. induction n as [|n IH]; simpl; [done|]. by rewrite IH, replicate_add. Qed.

(** [strncmp] compares the first [n] characters of the two strings. *)
Lemma strncmp_zero n p q r :
  Forall (λ b, 0 ≤ b < 256) p → Forall (λ b, 0 ≤ b < 256) q → strncmp n p q = Some r →
  (r = 0 ↔ take n (cstr p) = take n (cstr q)).
Proof.
  revert p q. induction n as [|n IH]; intros p q Hp Hq; simpl; [naive_solver|].
  destruct p as [|a p], q as [|b q]; try done.
  inversion_clear Hp as [|?? Ha Hp']. inversion_clear Hq as [|?? Hb Hq']. simpl.
  rewrite !u8_small by lia.
  destruct (Z.eqb_spec a 0) as [->|Ha0]; simpl.
  { intros [= <-]. destruct (Z.eqb_spec b 0) as [->|]; [done|]. split; [lia|done]. }
  destruct (Z.eqb_spec a b) as [->|Hab]; simpl.
  - intros H. apply IH in H; [|done..]. rewrite H. destruct (Z.eqb_spec b 0); [done|]. simpl.
    split; [by intros ->|by intros [=]].
  - intros [= <-]. destruct (Z.eqb_spec b 0); simpl; split; try done; try lia.
    intros [= ->]. done.
Qed.

Lemma cstr_replicate_zero n : cstr (replicate n 0) = [].
Proof. by destruct n. Qed.

Lemma strncpy_bytes_spec n t w :
  strncpy_bytes n t = Some w → length w = n ∧ take n (cstr w) = take n (cstr t).
Proof.
  revert t w. induction n as [|n IH]; intros t w; simpl; [by intros [= <-]|].
  destruct t as [|c t]; [done|]. simpl. destruct (Z.eqb_spec c 0) as [->|Hc].
  - intros [= <-]. by rewrite length_cons, length_replicate.
  - intros (w' & Hw & ->)%fmap_Some. apply IH in Hw as [Hl He]. simpl.
    destruct (Z.eqb_spec c 0); [done|]. simpl. by rewrite Hl, He.
Qed.

Lemma strncpy_bytes_range n t w :
  Forall (λ b, 0 ≤ b < 256) t → strncpy_bytes n t = Some w → Forall (λ b, 0 ≤ b < 256) w.
Proof.
  revert t w. induction n as [|n IH]; intros t w Ht; simpl; [by intros [= <-]|].
  inversion_clear Ht as [|c t' Hc Ht']; [done|]. destruct (c =? 0).
  - intros [= <-]. constructor; [lia|]. apply Forall_replicate. lia.
  - intros (w' & Hw & ->)%fmap_Some. constructor; [done|]. by eapply IH.
Qed.

Lemma strncmp_total n p q :
  (n ≤ length p)%nat → (n ≤ length q)%nat → is_Some (strncmp n p q).
Proof.
  revert p q. induction n as [|n IH]; intros [|a p] [|b q] Hp Hq; simpl in *; try lia; try (by eexists).
  destruct (negb (a =? 0) && (a =? b)); [|by eexists]. apply IH; lia.
Qed.

Lemma strncpy_bytes_total n t : 0 ∈ t → is_Some (strncpy_bytes n t).
Proof.
  revert t. induction n as [|n IH]; intros t Ht; simpl; [by eexists|].
  destruct t as [|c t]; [by apply elem_of_nil in Ht|].
  destruct (Z.eqb_spec c 0) as [->|Hc]; [by eexists|].
  apply elem_of_cons in Ht as [<-|Ht]; [done|]. destruct (IH t Ht) as [w ->]. by eexists.
Qed.

(** A NUL-terminated string of a buffer. *)
Lemma safestrcpy_bytes_spec m t :
  0 ∈ t → ∃ w, safestrcpy_bytes m t = Some w ∧ cstr w = take m (cstr t) ∧ 0 ∈ w ∧ (length w ≤ S m)%nat.
Proof.
  revert t. induction m as [|m IH]; intros t Ht; simpl.
  { exists [0]. repeat split; [by left|simpl; lia]. }
  destruct t as [|c t]; [by apply elem_of_nil in Ht|]. simpl. destruct (Z.eqb_spec c 0) as [->|Hc].
  - exists [0; 0]. repeat split; [by left|simpl; lia].
  - apply elem_of_cons in Ht as [<-|Ht]; [done|]. destruct (IH t Ht) as (w & -> & Hw & H0 & Hl).
    exists (c :: w). simpl. destruct (Z.eqb_spec c 0); [done|]. rewrite Hw.
    repeat split; [by right|lia].
Qed.

Lemma cstr_app_nul w l : 0 ∈ w → cstr (w ++ l) = cstr w.
Proof.
  induction w as [|c w IH]; intros H; simpl; [by apply elem_of_nil in H|].
  destruct (Z.eqb_spec c 0) as [->|Hc]; [done|].
  apply elem_of_cons in H as [<-|H]; [done|]. by rewrite IH.
Qed.

Lemma atoi_digits ds n :
  Forall (λ d, 48 ≤ d ≤ 57) ds → 0 ≤ n → fold_left (λ v d, v * 10 + digit_val d) ds n < 2 ^ 31 →
  atoi_loop (ds ++ [0]) n = Some (fold_left (λ v d, v * 10 + digit_val d) ds n).
Proof.
  revert n. induction ds as [|d ds IH]; intros n Hds Hn Hb; [done|].
  inversion_clear Hds as [|?? Hd Hds']. cbn [app atoi_loop fold_left] in *.
  destruct (Z.leb_spec 48 d); [|lia]. destruct (Z.leb_spec d 57); [|lia]. cbn [andb].
  assert (digit_val d = d - 48) as Hv by (unfold digit_val; destruct (Z.leb_spec d 57); lia).
  assert (∀ l m, Forall (λ d, 48 ≤ d ≤ 57) l → 0 ≤ m →
    m ≤ fold_left (λ v d, v * 10 + digit_val d) l m) as Hmono.
  { clear. induction l as [|e l IHl]; intros m Hl Hm; simpl; [lia|].
    inversion_clear Hl as [|?? He Hl'].
    assert (0 ≤ digit_val e) by (unfold digit_val; destruct (Z.leb_spec e 57); lia).
    etrans; [|apply IHl; [done|lia]]. lia. }
  pose proof (Hmono ds (n * 10 + digit_val d) Hds' ltac:(lia)).
  rewrite s32_small by lia. replace (n * 10 + d - 48) with (n * 10 + digit_val d) by lia.
  apply IH; [done|lia|done].
Qed.

Lemma memmove_splice m dst src n :
  (dst + n ≤ length m)%nat → (src + n ≤ length m)%nat →
  memmove m dst src n = splice m dst (take n (drop src m)).
Proof.
  intros Hd Hs. assert (length (take n (drop src m)) = n) as Hn by (rewrite length_take, length_drop; lia).
  apply list_eq. intros j. rewrite lookup_splice, Hn by lia. unfold memmove.
  destruct (Nat.ltb_spec src dst), (Nat.ltb_spec dst (src + n)); cbn [andb];
    [rewrite lookup_copy_bwd by lia|rewrite lookup_copy_fwd by lia..];
    repeat case_decide; try lia; rewrite ?lookup_take_lt, ?lookup_drop by lia; try done; f_equal; lia.
Qed.

Lemma memset_splice m dst c n :
  (dst + n ≤ length m)%nat → memset m dst c n = splice m dst (replicate n (u8 c)).
Proof.
  intros Hd. rewrite <- put_bytes_splice by (rewrite length_replicate; lia). unfold memset.
  destruct ((dst mod 4 =? 0)%nat && (n mod 4 =? 0)%nat) eqn:Ha; [|apply stosb_put].
  apply andb_true_iff in Ha as [_ Ha%Nat.eqb_eq].
  rewrite stosl_put, memset_word, concat_replicate_replicate. do 2 f_equal.
  pose proof (Nat.div_mod n 4 ltac:(lia)). lia.
Qed.

(** ** Properties *)

(** [memmove] replaces the [n] bytes at [dst] by the [n] bytes that were at
    [src], also when the two ranges overlap either way, and [memset] fills the
    range with the low byte of [c] whether it stores words or bytes; nothing
    else changes. *)
Theorem memmove_memset_correct (m : list Z) (dst src n : nat) (c : Z) :
  (dst + n ≤ length m)%nat → (src + n ≤ length m)%nat →
  memmove m dst src n = splice m dst (take n (drop src m))
  ∧ memset m dst c n = splice m dst (replicate n (u8 c)).
Proof. intros Hd Hs. split; [by apply memmove_splice|by apply memset_splice]. Qed.

Lemma memmove_memset_correct_witness :
  memmove [1; 2; 3; 4; 5] 1 0 4 = [1; 1; 2; 3; 4] ∧ memset [1; 2; 3; 4; 5] 0 511 4 = [255; 255; 255; 255; 5].
Proof.
  destruct (memmove_memset_correct [1; 2; 3; 4; 5] 1 0 4 511) as [H1 _]; [simpl; lia..|].
  destruct (memmove_memset_correct [1; 2; 3; 4; 5] 0 0 4 511) as [_ H2]; [simpl; lia..|].
  rewrite H1, H2. split; reflexivity.
Defined.

(** fixed-width names survive storing.  A string stored in an [n]-byte
    field with [strncpy] compares equal with [strncmp] to exactly the strings
    that agree with it in their first [n] characters (this is how [dirlink]
    writes and [dirlookup] finds a name). *)
Theorem strncpy_strncmp_roundtrip (n : nat) (t t' : list Z) :
  0 ∈ t → 0 ∈ t' → Forall (λ b, 0 ≤ b < 256) t → Forall (λ b, 0 ≤ b < 256) t' →
  (n ≤ length t')%nat →
  ∃ w r, strncpy_bytes n t = Some w ∧ length w = n ∧ strncmp n w t' = Some r
    ∧ (r = 0 ↔ take n (cstr t) = take n (cstr t')).
Proof.
  intros H0 H0' Hb Hb' Hl. destruct (strncpy_bytes_total n t H0) as [w Hw].
  destruct (strncpy_bytes_spec n t w Hw) as [Hlen Hc].
  destruct (strncmp_total n w t') as [r Hr]; [lia|lia|].
  exists w, r. split; [done|]. split; [done|]. split; [done|]. rewrite <- Hc.
  exact (strncmp_zero n w t' r (strncpy_bytes_range n t w Hb Hw) Hb' Hr).
Qed.

Lemma strncpy_strncmp_roundtrip_witness :
  ∃ w, strncpy_bytes 3 [97; 98; 99; 100; 0] = Some w ∧ strncmp 3 w [97; 98; 99; 0] = Some 0.
Proof.
  destruct (strncpy_strncmp_roundtrip 3 [97; 98; 99; 100; 0] [97; 98; 99; 0]) as (w & r & Hw & _ & Hr & H).
  - apply (bool_decide_unpack _). reflexivity.
  - apply (bool_decide_unpack _). reflexivity.
  - apply (bool_decide_unpack _). reflexivity.
  - apply (bool_decide_unpack _). reflexivity.
  - simpl; lia.
  - exists w. split; [exact Hw|]. rewrite Hr. f_equal. apply H. reflexivity.
Defined.

(** [atoi] reads back what [cprintf] prints: for every non-negative [int],
    printing it in decimal and parsing the text gives the number. *)
Theorem atoi_printint_roundtrip (n : Z) :
  0 ≤ n < 2 ^ 31 → ∃ ds, printint n 10 true = Some ds ∧ atoi (ds ++ [0]) = Some n.
Proof.
  intros Hn. destruct (printint_digits n ltac:(lia)) as (ds & Hp & Hv & Hds & _).
  destruct (Z.ltb_spec n 0); [lia|]. exists ds. split; [done|]. unfold atoi.
  rewrite atoi_digits; [|done|lia|]; change (fold_left _ ds 0) with (digits_val 10 ds);
    rewrite Hv; [f_equal|]; lia.
Qed.

Lemma atoi_printint_roundtrip_witness :
  ∃ ds, printint 2024 10 true = Some ds ∧ atoi (ds ++ [0]) = Some 2024.
Proof. apply (atoi_printint_roundtrip 2024). lia. Defined.
