(* ===== verification/Grep.v ===== *)
(** * The grep program

    Models [grep.c]: the matcher for the operators [^ . * $] and the loop that
    reads a file through a 1024-byte buffer and prints the matching lines.  A C
    string is the list of its characters; the end of the list is the NUL. *)

From S2P Require Import Prelude CString.

Definition CARET : Z := 94.
Definition DOT : Z := 46.
Definition STAR : Z := 42.
Definition DOLLAR : Z := 36.
Definition NEWLINE : Z := 10.

(** ** The matcher *)

(** [matchstar(c, re, text)]; [here] is [matchhere(re, _)]. *)
Definition matchstar (here : list Z → bool) (c : Z) : list Z → bool :=
  fix go (text : list Z) : bool :=
    if here text then true
    else match text with
         | [] => false
         | t :: text' => if (t =? c) || (c =? DOT) then go text' else false
         end.

Fixpoint matchhere (re text : list Z) : bool :=
  match re with
  | [] => true
  | c :: re1 =>
      let rest :=
        if (c =? DOLLAR) && (match re1 with [] => true | _ => false end) then
          match text with [] => true | _ => false end
        else
          match text with
          | [] => false
          | t :: text' => if (c =? DOT) || (c =? t) then matchhere re1 text' else false
          end in
      match re1 with
      | [] => rest
      | s :: re2 => if s =? STAR then matchstar (matchhere re2) c text else rest
      end
  end.

(** The [do ... while] of [match]. *)
Fixpoint match_anywhere (re text : list Z) : bool :=
  if matchhere re text then true
  else match text with
       | [] => false
       | _ :: text' => match_anywhere re text'
       end.

Definition matches (re text : list Z) : bool :=
  match re with
  | c :: re1 => if c =? CARET then matchhere re1 text else match_anywhere re text
  | [] => match_anywhere re text
  end.

(** ** Reading and printing lines *)

Definition BUFSIZE : nat := 1024.

(** [read(fd, _, k)]: the file delivers its chunks in order, at most [k] bytes at
    a time. *)
Definition read_chunk (k : nat) (chunks : list (list Z)) : list Z * list (list Z) :=
  match chunks with
  | [] => ([], [])
  | c :: cs => (take k c, if (length c <=? k)%nat then cs else drop k c :: cs)
  end.

(** The inner loop: [p] is the text from the pointer [p] to the end of what was
    read (the NUL stored after it is not part of it).  Returns the bytes written
    and the text left. *)
Fixpoint grep_lines (fuel : nat) (pattern p : list Z) : list Z * list Z :=
  match fuel with
  | 0%nat => ([], p)
  | S fuel' =>
      match strchr (p ++ [0]) NEWLINE with
      | Some (Some k) =>
          let line := take k p in
          let '(out, rest) := grep_lines fuel' pattern (drop (k + 1) p) in
          ((if matches pattern line then line ++ [NEWLINE] else []) ++ out, rest)
      | _ => ([], p)
      end
  end.

(** The outer loop: [m] is the text kept at the start of the buffer. *)
Fixpoint grep_loop (fuel : nat) (pattern m : list Z) (chunks : list (list Z)) : option (list Z) :=
  match fuel with
  | 0%nat => None
  | S fuel' =>
      match read_chunk (BUFSIZE - length m - 1) chunks with
      | ([], _) => Some []
      | (n, chunks') =>
          let buf := m ++ n in
          let '(out, p) := grep_lines (length buf + 1) pattern buf in
          let m' := if (length p =? length buf)%nat then [] else p in
          app out <$> grep_loop fuel' pattern m' chunks'
      end
  end.

(** Each turn of the outer loop consumes at least one byte of the input. *)
Definition grep (pattern : list Z) (chunks : list (list Z)) : option (list Z) :=
  grep_loop (length (concat chunks) + length chunks + 1) pattern [] chunks.

(** ** What a pattern means *)

(** The character [x] is one that [c] stands for. *)
Definition stands_for (c x : Z) : Prop := c = DOT ∨ c = x.

(** The text starts with an instance of the pattern. *)
Inductive here : list Z → list Z → Prop :=
| here_nil t : here [] t
| here_star c re u v : Forall (stands_for c) u → here re v → here (c :: STAR :: re) (u ++ v)
| here_end : here [DOLLAR] []
| here_char c re x t :
    head re ≠ Some STAR → (c = DOLLAR → re ≠ []) → stands_for c x → here re t → here (c :: re) (x :: t).

Definition pattern_in (re text : list Z) : Prop :=
  match re with
  | c :: re1 => if decide (c = CARET) then here re1 text else ∃ u v, text = u ++ v ∧ here re v
  | [] => ∃ u v, text = u ++ v ∧ here re v
  end.

Lemma stands_for_test c t : (t =? c) || (c =? DOT) = true ↔ stands_for c t.
Proof. unfold stands_for. rewrite orb_true_iff, !Z.eqb_eq. naive_solver. Qed.

Lemma matchstar_spec mh c text :
  matchstar mh c text = true ↔ ∃ u v, text = u ++ v ∧ Forall (stands_for c) u ∧ mh v = true.
Proof.
  induction text as [|t text IH]; simpl.
  - destruct (mh []) eqn:E.
    + split; [|done]. intros _. exists [], []. auto using Forall_nil_2.
    + split; [done|]. intros ([|] & [|] & ? & _ & ?); simplify_eq/=; congruence.
  - destruct (mh (t :: text)) eqn:E.
    { split; [|done]. intros _. exists [], (t :: text). auto using Forall_nil_2. }
    pose proof (stands_for_test c t) as Ht. destruct ((t =? c) || (c =? DOT)).
    + rewrite IH. split.
      * intros (u & v & -> & Hu & Hv). exists (t :: u), v. split; [done|]. split; [|done].
        constructor; [by apply Ht|done].
      * intros ([|x u] & v & Heq & Hu & Hv); simplify_eq/=; [congruence|].
        inversion_clear Hu. by exists u, v.
    + split; [done|]. intros ([|x u] & v & Heq & Hu & Hv); simplify_eq/=; [congruence|].
      inversion_clear Hu as [|?? Hx _]. by apply Ht in Hx.
Qed.

(** The equations of [matchhere] on a non-empty pattern. *)
Lemma matchhere_star c re text : matchhere (c :: STAR :: re) text = matchstar (matchhere re) c text.
Proof. done. Qed.

Lemma matchhere_char c re text :
  head re ≠ Some STAR →
  matchhere (c :: re) text =
  if decide (c = DOLLAR ∧ re = []) then match text with [] => true | _ => false end
  else match text with
       | [] => false
       | t :: text' => if (c =? DOT) || (c =? t) then matchhere re text' else false
       end.
Proof.
  intros Hre. cbn [matchhere].
  assert ((c =? DOLLAR) && (match re with [] => true | _ => false end)
    = bool_decide (c = DOLLAR ∧ re = [])) as ->.
  { apply eq_true_iff_eq. rewrite andb_true_iff, bool_decide_eq_true, Z.eqb_eq. destruct re; naive_solver. }
  rewrite decide_bool_decide. destruct re as [|s re]; [done|].
  simpl in Hre. destruct (Z.eqb_spec s STAR); [congruence|done].
Qed.

Lemma matchhere_spec n : ∀ re text, (length re ≤ n)%nat → matchhere re text = true ↔ here re text.
Proof.
  induction n as [|n IH]; intros re text Hn.
  { destruct re; [|simpl in Hn; lia]. split; [constructor|done]. }
  destruct re as [|c re]; [split; [constructor|done]|]. simpl in Hn.
  destruct (decide (head re = Some STAR)) as [Hs|Hs].
  { destruct re as [|s re]; [done|]. injection Hs as ->. cbn [length] in Hn.
    rewrite matchhere_star, matchstar_spec. split.
    - intros (u & v & -> & Hu & Hv). constructor; [done|]. apply IH in Hv; [done|lia].
    - intros H. inversion H; simplify_eq/=; try done.
      eexists _, _. split; [done|]. split; [done|]. apply IH; [lia|done]. }
  rewrite matchhere_char by done. destruct (decide (c = DOLLAR ∧ re = [])) as [[-> ->]|Hd].
  { destruct text as [|t text]; split; try done; [constructor|].
    intros H. inversion H; simplify_eq/=; naive_solver. }
  destruct text as [|t text].
  { split; [done|]. intros H. inversion H; simplify_eq/=; naive_solver. }
  assert ((c =? DOT) || (c =? t) = true ↔ stands_for c t) as Ht.
  { unfold stands_for. by rewrite orb_true_iff, !Z.eqb_eq. }
  destruct ((c =? DOT) || (c =? t)).
  - rewrite IH by lia. split.
    + intros H. constructor; [done|naive_solver|by apply Ht|done].
    + intros H. inversion H; simplify_eq/=; done.
  - split; [done|]. intros H. inversion H; simplify_eq/=; naive_solver.
Qed.

Lemma match_anywhere_spec re text :
  match_anywhere re text = true ↔ ∃ u v, text = u ++ v ∧ here re v.
Proof.
  induction text as [|t text IH]; simpl.
  - destruct (matchhere re []) eqn:E.
    + split; [|done]. intros _. exists [], []. split; [done|]. by eapply matchhere_spec.
    + split; [done|]. intros ([|] & [|] & ? & H); simplify_eq/=. eapply matchhere_spec in H; [|done]. congruence.
  - destruct (matchhere re (t :: text)) eqn:E.
    + split; [|done]. intros _. exists [], (t :: text). split; [done|]. by eapply matchhere_spec.
    + rewrite IH. split.
      * intros (u & v & -> & H). by exists (t :: u), v.
      * intros ([|x u] & v & ? & H); simplify_eq/=; [|by exists u, v].
        eapply matchhere_spec in H; [|done]. congruence.
Qed.

Lemma matches_spec re text : matches re text = true ↔ pattern_in re text.
Proof.
  unfold matches, pattern_in. destruct re as [|c re]; [apply match_anywhere_spec|].
  destruct (Z.eqb_spec c CARET) as [->|Hc].
  - rewrite decide_True by done. by eapply matchhere_spec.
  - rewrite decide_False by done. apply match_anywhere_spec.
Qed.

(** ** What the program prints *)

(** The complete lines of a text and what follows the last newline. *)
Fixpoint cut (t : list Z) : list (list Z) * list Z :=
  match t with
  | [] => ([], [])
  | x :: t' =>
      let '(ls, r) := cut t' in
      if x =? NEWLINE then ([] :: ls, r)
      else match ls with
           | [] => ([], x :: r)
           | l :: ls' => ((x :: l) :: ls', r)
           end
  end.

(** The matching lines, each with its newline. *)
Definition select (pattern : list Z) (ls : list (list Z)) : list Z :=
  concat (map (λ l, if matches pattern l then l ++ [NEWLINE] else []) ls).

Lemma cut_line l t : NEWLINE ∉ l → cut (l ++ NEWLINE :: t) = (l :: fst (cut t), snd (cut t)).
Proof.
  induction l as [|x l IH]; intros Hl; simpl; [by destruct (cut t)|].
  apply not_elem_of_cons in Hl as [Hx Hl]. rewrite IH by done.
  by destruct (Z.eqb_spec x NEWLINE).
Qed.

Lemma cut_open l : NEWLINE ∉ l → cut l = ([], l).
Proof.
  induction l as [|x l IH]; intros Hl; simpl; [done|].
  apply not_elem_of_cons in Hl as [Hx Hl]. rewrite IH by done.
  by destruct (Z.eqb_spec x NEWLINE).
Qed.

(** Every text is its complete lines and the rest. *)
Lemma cut_split t : NEWLINE ∈ t →
  ∃ l t', t = l ++ NEWLINE :: t' ∧ NEWLINE ∉ l.
Proof.
  induction t as [|x t IH]; intros H; [by apply elem_of_nil in H|].
  destruct (decide (x = NEWLINE)) as [->|Hx]; [by exists [], t; split; [|apply not_elem_of_nil]|].
  apply elem_of_cons in H as [<-|H]; [done|]. destruct (IH H) as (l & t' & -> & Hl).
  exists (x :: l), t'. split; [done|]. apply not_elem_of_cons. auto.
Qed.

Lemma cut_app n : ∀ t1 t2, (length t1 ≤ n)%nat →
  cut (t1 ++ t2) = (fst (cut t1) ++ fst (cut (snd (cut t1) ++ t2)), snd (cut (snd (cut t1) ++ t2))).
Proof.
  induction n as [|n IH]; intros t1 t2 Hn.
  { destruct t1; [|simpl in Hn; lia]. simpl. by destruct (cut t2). }
  destruct (decide (NEWLINE ∈ t1)) as [Hin|Hnin].
  - destruct (cut_split t1 Hin) as (l & t' & -> & Hl). rewrite length_app in Hn. cbn [length] in Hn.
    rewrite <- app_assoc. cbn [app]. rewrite !cut_line by done. cbn [fst snd]. rewrite IH by lia. done.
  - rewrite (cut_open t1) by done. cbn [fst snd app]. by destruct (cut (t1 ++ t2)).
Qed.


Lemma strchr_line l t c : c ∉ l → c ≠ 0 → 0 ∉ l → strchr (l ++ c :: t) c = Some (Some (length l)).
Proof.
  induction l as [|x l IH]; intros Hc H0 Hz; cbn [app strchr].
  - destruct (Z.eqb_spec c 0); [done|]. by rewrite Z.eqb_refl.
  - apply not_elem_of_cons in Hc as [Hc Hc']. apply not_elem_of_cons in Hz as [Hz Hz'].
    destruct (Z.eqb_spec x 0); [done|]. destruct (Z.eqb_spec x c); [done|]. by rewrite IH.
Qed.

Lemma strchr_none l c : c ∉ l → 0 ∉ l → strchr (l ++ [0]) c = Some None.
Proof.
  induction l as [|x l IH]; intros Hc Hz; cbn [app strchr]; [done|].
  apply not_elem_of_cons in Hc as [Hc Hc']. apply not_elem_of_cons in Hz as [Hz Hz'].
  destruct (Z.eqb_spec x 0); [done|]. destruct (Z.eqb_spec x c); [done|]. by rewrite IH.
Qed.

Lemma grep_lines_spec pattern fuel : ∀ p, (length p < fuel)%nat → 0 ∉ p →
  grep_lines fuel pattern p = (select pattern (fst (cut p)), snd (cut p)).
Proof.
  induction fuel as [|fuel IH]; intros p Hf Hz; [lia|]. cbn [grep_lines].
  destruct (decide (NEWLINE ∈ p)) as [Hin|Hnin].
  - destruct (cut_split p Hin) as (l & t & -> & Hl).
    rewrite length_app in Hf. cbn [length] in Hf.
    assert (0 ∉ l ∧ 0 ∉ t) as [Hzl Hzt].
    { rewrite elem_of_app, elem_of_cons in Hz. split; intros H; apply Hz; auto. }
    rewrite <- app_assoc. cbn [app]. rewrite strchr_line by done.
    rewrite take_app_length. replace (l ++ NEWLINE :: t) with ((l ++ [NEWLINE]) ++ t) by (by rewrite <- app_assoc).
    rewrite drop_app_length' by (rewrite length_app; done). rewrite IH by (done || lia).
    rewrite <- app_assoc. cbn [app]. by rewrite cut_line.
  - rewrite strchr_none by done. by rewrite cut_open.
Qed.

Lemma cut_rest_le n : ∀ t, (length t ≤ n)%nat → (length (snd (cut t)) ≤ length t)%nat.
Proof.
  induction n as [|n IH]; intros t Hn; [destruct t; [done|simpl in Hn; lia]|].
  destruct (decide (NEWLINE ∈ t)) as [Hi|Hi]; [|by rewrite cut_open].
  destruct (cut_split t Hi) as (l & t' & -> & Hl). rewrite length_app in *. cbn [length] in *.
  rewrite cut_line by done. cbn [snd]. specialize (IH t' ltac:(lia)). lia.
Qed.

(** What follows the last newline is a part of the text without newlines. *)
Lemma cut_rest_elem n : ∀ t, (length t ≤ n)%nat → NEWLINE ∉ snd (cut t) ∧ ∀ x, x ∈ snd (cut t) → x ∈ t.
Proof.
  induction n as [|n IH]; intros t Hn.
  { destruct t; [split; [apply not_elem_of_nil|done]|simpl in Hn; lia]. }
  destruct (decide (NEWLINE ∈ t)) as [Hi|Hi]; [|by rewrite cut_open].
  destruct (cut_split t Hi) as (l & t' & -> & Hl). rewrite length_app in Hn. cbn [length] in Hn.
  rewrite cut_line by done. cbn [snd]. destruct (IH t' ltac:(lia)) as [H1 H2]. split; [done|].
  intros x Hx. apply elem_of_app. right. apply elem_of_cons. auto.
Qed.

(** What stays buffered is shorter than the last chunk that had a newline. *)
Lemma cut_rest_length t1 t2 : NEWLINE ∈ t2 → (length (snd (cut (t1 ++ t2))) < length t2)%nat.
Proof.
  intros Hin. destruct (cut_split t2 Hin) as (l & t' & -> & Hl).
  rewrite (cut_app (length t1)) by lia. cbn [snd].
  destruct (cut_rest_elem (length t1) t1 ltac:(lia)) as [Hr _].
  rewrite app_assoc, cut_line by (rewrite elem_of_app; tauto). cbn [snd].
  rewrite length_app. cbn [length]. pose proof (cut_rest_le (length t') t' ltac:(lia)). lia.
Qed.

Lemma select_app pattern l1 l2 : select pattern (l1 ++ l2) = select pattern l1 ++ select pattern l2.
Proof. unfold select. by rewrite map_app, concat_app. Qed.

(** A read that delivers text ending at least one line and leaving room in the
    buffer. *)
Definition good_chunk (c : list Z) : Prop := NEWLINE ∈ c ∧ 0 ∉ c ∧ (length c ≤ 511)%nat.

Lemma read_whole k c cs : (length c ≤ k)%nat → read_chunk k (c :: cs) = (c, cs).
Proof. intros H. unfold read_chunk. rewrite take_ge by done. by destruct (Nat.leb_spec (length c) k); [|lia]. Qed.

Lemma grep_loop_spec pattern chunks : ∀ fuel m, (length chunks < fuel)%nat →
  NEWLINE ∉ m → 0 ∉ m → (length m ≤ 511)%nat → Forall good_chunk chunks →
  grep_loop fuel pattern m chunks = Some (select pattern (fst (cut (m ++ concat chunks)))).
Proof.
  induction chunks as [|c cs IH]; intros fuel m Hf Hm Hz Hlen Hall; (destruct fuel as [|fuel]; cbn [length] in Hf; [lia|]);
    cbn [grep_loop].
  { simpl. by rewrite app_nil_r, cut_open. }
  inversion_clear Hall as [|?? (Hc1 & Hc2 & Hc3) Hall']. rewrite read_whole by (unfold BUFSIZE; lia).
  destruct c as [|y c]; [by apply elem_of_nil in Hc1|]. set (c' := y :: c) in *.
  assert (0 ∉ m ++ c') as Hzb by (rewrite elem_of_app; tauto).
  rewrite grep_lines_spec by (done || lia).
  pose proof (cut_rest_length m c' Hc1) as Hr.
  destruct (Nat.eqb_spec (length (snd (cut (m ++ c')))) (length (m ++ c'))) as [E|_].
  { rewrite length_app in E. lia. }
  destruct (cut_rest_elem (length (m ++ c')) (m ++ c') ltac:(lia)) as [He1 He2].
  rewrite IH; [|lia|done|by intros H%He2|lia|done]. change (concat (c' :: cs)) with (c' ++ concat cs). rewrite app_assoc.
  rewrite (cut_app (length (m ++ c')) (m ++ c') (concat cs)) by lia. cbn [fst fmap option_fmap option_map].
  by rewrite select_app.
Qed.

(** A regular file delivers as much as is asked for: it is one chunk. *)
Definition short_lines (t : list Z) : Prop := Forall (λ l, (length l ≤ 1022)%nat) (fst (cut t)).

Lemma short_first l t : NEWLINE ∉ l → short_lines (l ++ NEWLINE :: t) → (length l ≤ 1022)%nat.
Proof. intros Hl. unfold short_lines. rewrite cut_line by done. intros H. by inversion H. Qed.

(** A full buffer without a newline: the rest of the file has none either. *)
Lemma no_newline_full b t :
  NEWLINE ∉ b → (length b = 1023)%nat → short_lines (b ++ t) → NEWLINE ∉ t.
Proof.
  intros Hb Hl Hs Hin. destruct (cut_split t Hin) as (l & t' & -> & Hnl). rewrite app_assoc in Hs.
  apply short_first in Hs; [rewrite length_app in Hs; lia|]. rewrite elem_of_app. tauto.
Qed.

Lemma grep_loop_end fuel pattern m : (0 < fuel)%nat → grep_loop fuel pattern m [] = Some [].
Proof. by destruct fuel; [lia|]. Qed.

Lemma grep_loop_nil fuel pattern m : (0 < fuel)%nat → grep_loop fuel pattern m [[]] = Some [].
Proof. destruct fuel; [lia|]. intros _. cbn [grep_loop read_chunk]. by rewrite take_nil. Qed.

(** One turn of the loop on a file, by what it leaves in the buffer. *)
Lemma grep_turn fuel pattern m t :
  t ≠ [] → 0 ∉ m ++ t → (length m ≤ 1022)%nat → (length t ≤ fuel)%nat →
  let k := (1023 - length m)%nat in
  let b := m ++ take k t in
  grep_loop (S fuel) pattern m [t] =
  app (select pattern (fst (cut b))) <$>
    grep_loop fuel pattern (if decide (NEWLINE ∈ b) then snd (cut b) else []) [drop k t].
Proof.
  intros Ht Hz Hm Hf k b. cbn [grep_loop read_chunk].
  replace (BUFSIZE - length m - 1)%nat with k by (unfold BUFSIZE, k; lia).
  assert (Hn : take k t ≠ []) by (destruct t; [done|]; destruct k eqn:Ek; [unfold k in Ek; lia|done]).
  assert (Hz' : 0 ∉ b).
  { unfold b. rewrite elem_of_app. intros [H|H]; apply Hz, elem_of_app; [by left|right].
    rewrite <- (take_drop k t). apply elem_of_app. by left. }
  destruct (take k t) as [|y n] eqn:En; [done|]. fold b. rewrite grep_lines_spec by (done || lia).
  assert (Hkeep : (if (length (snd (cut b)) =? length b)%nat then [] else snd (cut b)) =
    if decide (NEWLINE ∈ b) then snd (cut b) else []).
  { case_decide as Hin.
    - pose proof (cut_rest_length [] b Hin). by destruct (Nat.eqb_spec (length (snd (cut b))) (length b)); [simpl in *; lia|].
    - by rewrite cut_open, Nat.eqb_refl. }
  rewrite Hkeep. destruct (Nat.leb_spec (length t) k); [|done].
  assert (0 < fuel)%nat by (destruct t; [done|simpl in Hf; lia]).
  rewrite (drop_ge t k) by done. by rewrite grep_loop_end, grep_loop_nil.
Qed.

Lemma grep_file_spec pattern fuel : ∀ m t,
  (length t < fuel)%nat → NEWLINE ∉ m → 0 ∉ m ++ t → (length m ≤ 1022)%nat → short_lines (m ++ t) →
  grep_loop fuel pattern m [t] = Some (select pattern (fst (cut (m ++ t)))).
Proof.
  induction fuel as [|fuel IH]; intros m t Hf Hm Hz Hl Hs; [lia|].
  destruct (decide (t = [])) as [->|Ht]; [rewrite grep_loop_nil, app_nil_r, cut_open by (done || lia); done|].
  rewrite grep_turn by (done || lia). set (k := (1023 - length m)%nat). set (b := m ++ take k t).
  assert (Hd : (length (drop k t) < fuel)%nat).
  { rewrite length_drop. destruct t; [done|]. cbn [length] in *. unfold k. lia. }
  assert (Et : m ++ t = b ++ drop k t) by (unfold b; by rewrite <- app_assoc, take_drop).
  assert (Hb : (length b ≤ 1023)%nat) by (unfold b; rewrite length_app, length_take; unfold k; lia).
  rewrite Et in *. rewrite (cut_app (length b)) by lia. cbn [fst]. rewrite elem_of_app in Hz. rewrite select_app.
  destruct (cut_rest_elem (length b) b ltac:(lia)) as [He1 He2]. case_decide as Hin.
  - rewrite IH; [done|done|done| | |].
    + rewrite elem_of_app. intros [H%He2|H]; tauto.
    + pose proof (cut_rest_length [] b Hin). simpl in *. lia.
    + unfold short_lines in Hs. rewrite (cut_app (length b)) in Hs by lia. by apply Forall_app in Hs as [_ Hs].
  - assert (Hnt : NEWLINE ∉ drop k t).
    { destruct (Nat.leb_spec (length t) k); [rewrite drop_ge by done; apply not_elem_of_nil|].
      apply (no_newline_full b); [done| |done]. unfold b. rewrite length_app, length_take. unfold k. lia. }
    rewrite IH; [|done|apply not_elem_of_nil|simpl; tauto|simpl; lia|simpl; unfold short_lines; rewrite cut_open by done; constructor].
    rewrite (cut_open b) by done. cbn [fst snd app]. rewrite !cut_open by (rewrite ?elem_of_app; tauto). done.
Qed.

(** ** Properties *)

(** C34: the matcher decides the pattern language.  [match(re, text)] is true
    exactly when the text contains (for a leading [^]: starts with) an instance
    of the pattern, where [c*] stands for any run of characters [c] matches, [.]
    for any character and a final [$] for the end of the text. *)
Theorem match_decides_pattern (re text : list Z) : matches re text = true ↔ pattern_in re text.
Proof. apply matches_spec. Qed.

(** C35: [grep] ends and prints exactly the matching lines of its input, in order,
    each with its newline, on an input without NUL bytes that either is a regular file
    whose lines have at most 1022 characters, or arrives in reads of at most 511 bytes
    each of which ends a line; lines split over several reads or over the end of the
    buffer included.  (Other inputs can lose lines: see [grep_drops_partial_line].) *)
Theorem grep_prints_matching_lines (pattern : list Z) (chunks : list (list Z)) :
  (Forall good_chunk chunks ∨ ∃ text, chunks = [text] ∧ 0 ∉ text ∧ short_lines text) →
  grep pattern chunks = Some (select pattern (fst (cut (concat chunks)))).
Proof.
  unfold grep. intros [Hall|(text & -> & Hz & Hs)].
  - rewrite grep_loop_spec; [done|lia|apply not_elem_of_nil..|simpl; lia|done].
  - cbn [concat]. rewrite app_nil_r. apply grep_file_spec; [lia|apply not_elem_of_nil|done|simpl; lia|done].
Qed.

Lemma grep_prints_matching_lines_witness :
  grep [97; 42; 36] [[97; 97; 10; 98]; [10; 99; 10]] = Some [97; 97; 10; 98; 10; 99; 10] ∧
  grep [99] [replicate 900 97 ++ [10] ++ replicate 200 98 ++ [99; 10]] = Some (replicate 200 98 ++ [99; 10]).
Proof.
  split.
  - rewrite (grep_prints_matching_lines [97; 42; 36] [[97; 97; 10; 98]; [10; 99; 10]]); [reflexivity|].
    left. repeat constructor; apply (bool_decide_unpack _); reflexivity.
  - rewrite (grep_prints_matching_lines [99] [replicate 900 97 ++ [10] ++ replicate 200 98 ++ [99; 10]]);
      [vm_compute; reflexivity|].
    right. eexists. split; [reflexivity|]. split; apply (bool_decide_unpack _); vm_compute; exact I.
Defined.

(** text read without a newline is thrown away.  When a read delivers part
    of a line and nothing is buffered, [grep] continues as if it had not been
    read, although the buffer has room for the rest of the line. *)
Theorem grep_drops_partial_line (pattern c : list Z) (chunks : list (list Z)) (fuel : nat) :
  c ≠ [] → NEWLINE ∉ c → 0 ∉ c → (length c ≤ 1023)%nat →
  grep_loop (S fuel) pattern [] (c :: chunks) = grep_loop fuel pattern [] chunks.
Proof.
  intros Hne Hnl Hz Hlen. cbn [grep_loop]. rewrite read_whole by (unfold BUFSIZE; simpl; lia).
  destruct c as [|x c]; [done|]. cbn [app]. rewrite grep_lines_spec by (done || lia). rewrite cut_open by done.
  cbn [fst snd]. rewrite Nat.eqb_refl. by destruct (grep_loop fuel pattern [] chunks).
Qed.

(** [ab] then [c] and a newline: the line [abc] matches [a], but nothing is
    printed. *)
Lemma grep_drops_partial_line_witness :
  grep_loop 3 [97] [] [[97; 98]; [99; 10]] = grep_loop 2 [97] [] [[99; 10]]
  ∧ grep_loop 2 [97] [] [[99; 10]] = Some [].
Proof.
  split; [|reflexivity]. apply (grep_drops_partial_line [97] [97; 98] [[99; 10]] 2); [done| | |simpl; lia];
    apply (bool_decide_unpack _); reflexivity.
Defined.
