(* ===== verification/Strdiff.v ===== *)
(** * The strdiff program

    Models [strdiff.c]: the comparison of two words letter by letter, ignoring
    case, written to the buffer [diff] of [MAX_LEN + 2] bytes.  Words are the
    lists of their characters without the final NUL; the memory [malloc] returns
    is taken to be there, as the program does. *)

From S2P Require Import Prelude.

Definition MAX_LEN : nat := 15.

Definition CH_a : Z := 97.
Definition CH_z : Z := 122.
Definition CH_A : Z := 65.
Definition CH_Z : Z := 90.
Definition CH_0 : Z := 48.
Definition CH_1 : Z := 49.

(** [None]: the word has a character that is not a letter. *)
Fixpoint to_lower (word : list Z) : option (list Z) :=
  match word with
  | [] => Some []
  | c :: w =>
      if (CH_a <=? c) && (c <=? CH_z) then cons c <$> to_lower w
      else if (CH_A <=? c) && (c <=? CH_Z) then cons (c + 32) <$> to_lower w
      else None
  end.

(** Store to [diff[i]]; outside the buffer is undefined. *)
Definition put (diff : list Z) (i : nat) (c : Z) : option (list Z) :=
  if (i <? length diff)%nat then Some (<[i := c]> diff) else None.

(** The loop over the common length: [i] and the buffer. *)
Fixpoint diff_common (fuel : nat) (s1 s2 : list Z) (i min_len : nat) (diff : list Z) : option (nat * list Z) :=
  match fuel with
  | 0%nat => None
  | S fuel' =>
      if (i <? min_len)%nat then
        match s1 !! i, s2 !! i with
        | Some a, Some b =>
            diff ← put diff i (if b <=? a then CH_0 else CH_1);
            diff_common fuel' s1 s2 (i + 1) min_len diff
        | _, _ => None
        end
      else Some (i, diff)
  end.

(** The loop over the rest of the longer word. *)
Fixpoint diff_tail (fuel : nat) (max_str : bool) (i max_len : nat) (diff : list Z) : option (nat * list Z) :=
  match fuel with
  | 0%nat => None
  | S fuel' =>
      if (i <? max_len)%nat then
        diff ← put diff i (if max_str then CH_0 else CH_1);
        diff_tail fuel' max_str (i + 1) max_len diff
      else Some (i, diff)
  end.

(** Returns 0 or 1 and the buffer; [None] is an access outside it. *)
Definition strdiff (str1 str2 diff : list Z) : option (Z * list Z) :=
  match to_lower str1, to_lower str2 with
  | Some s1, Some s2 =>
      let max_str := (length s2 <=? length s1)%nat in
      let max_len := if max_str then length s1 else length s2 in
      let min_len := if max_str then length s2 else length s1 in
      r ← diff_common (min_len + 1) s1 s2 0 min_len diff;
      let '(i, diff) := r in
      r ← diff_tail (max_len - i + 1) max_str i max_len diff;
      let '(i, diff) := r in
      diff ← put diff i 10;
      diff ← put diff (i + 1) 0;
      Some (1, diff)
  | _, _ => Some (0, diff)
  end.

(** ** Specification *)

(** The lower-case letter of a letter. *)
Definition lower (c : Z) : Z := if c <=? CH_Z then c + 32 else c.

Definition letter (c : Z) : bool :=
  ((CH_a <=? c) && (c <=? CH_z)) || ((CH_A <=? c) && (c <=? CH_Z)).

(** The digits: [0] where the first word's letter is not before the second's,
    [1] where it is; a missing letter comes before every letter. *)
Fixpoint diff_digits (s1 s2 : list Z) : list Z :=
  match s1, s2 with
  | [], [] => []
  | _ :: s1', [] => CH_0 :: diff_digits s1' []
  | [], _ :: s2' => CH_1 :: (fix go l := match l with [] => [] | _ :: l' => CH_1 :: go l' end) s2'
  | a :: s1', b :: s2' => (if b <=? a then CH_0 else CH_1) :: diff_digits s1' s2'
  end.

Lemma diff_digits_nil_l s2 : diff_digits [] s2 = replicate (length s2) CH_1.
Proof. destruct s2 as [|b s2]; [done|]. simpl. f_equal. induction s2 as [|c s2 IH]; simpl; [done|]. by rewrite IH. Qed.

Lemma diff_digits_nil_r s1 : diff_digits s1 [] = replicate (length s1) CH_0.
Proof. induction s1 as [|a s1 IH]; simpl; [done|]. by rewrite IH. Qed.

Lemma length_diff_digits s1 s2 : length (diff_digits s1 s2) = Nat.max (length s1) (length s2).
Proof.
  revert s2. induction s1 as [|a s1 IH]; intros [|b s2].
  - done.
  - by rewrite diff_digits_nil_l, length_replicate.
  - by rewrite diff_digits_nil_r, length_replicate, Nat.max_0_r.
  - simpl. by rewrite IH.
Qed.

Lemma to_lower_spec w :
  to_lower w = if forallb letter w then Some (map lower w) else None.
Proof.
  induction w as [|c w IH]; simpl; [done|]. unfold letter at 1, lower at 1. rewrite IH.
  unfold CH_a, CH_z, CH_A, CH_Z.
  destruct (Z.leb_spec 97 c), (Z.leb_spec c 122), (Z.leb_spec 65 c), (Z.leb_spec c 90); simpl; try lia;
    try done; by destruct (forallb letter w).
Qed.

(** The buffer with [ds] stored from index 0 on. *)
Definition stored (ds diff : list Z) : list Z := ds ++ drop (length ds) diff.

Lemma put_stored ds diff c :
  (length ds < length diff)%nat → put (stored ds diff) (length ds) c = Some (stored (ds ++ [c]) diff).
Proof.
  intros H. unfold put, stored. rewrite length_app, length_drop.
  destruct (Nat.ltb_spec (length ds) (length ds + (length diff - length ds))); [|lia]. f_equal.
  rewrite insert_app_r_alt by lia. rewrite Nat.sub_diag, length_app. cbn [length].
  destruct (drop (length ds) diff) as [|x l] eqn:E.
  { assert (length (drop (length ds) diff) = 0)%nat as E' by (by rewrite E). rewrite length_drop in E'. lia. }
  cbn. rewrite <- app_assoc. cbn. do 2 f_equal.
  replace (drop (length ds + 1) diff) with (drop 1 (drop (length ds) diff)) by (by rewrite drop_drop).
  by rewrite E.
Qed.

(** The first loop stores the digits of the common prefix. *)
Lemma diff_common_spec fuel s1 s2 n diff : ∀ i ds,
  i = length ds → (i ≤ n)%nat → (n < fuel + i)%nat → (n ≤ length diff)%nat →
  (n ≤ length s1)%nat → (n ≤ length s2)%nat → ds = diff_digits (take i s1) (take i s2) →
  diff_common fuel s1 s2 i n (stored ds diff)
  = Some (n, stored (diff_digits (take n s1) (take n s2)) diff).
Proof.
  induction fuel as [|fuel IH]; intros i ds Hi Hn Hf Hd H1 H2 Hds; [lia|]. cbn [diff_common].
  destruct (Nat.ltb_spec i n) as [Hlt|Hge].
  2:{ assert (i = n) as E by lia. by rewrite Hds, E. }
  destruct (lookup_lt_is_Some_2 s1 i) as [a Ha]; [lia|]. destruct (lookup_lt_is_Some_2 s2 i) as [b Hb]; [lia|].
  rewrite Ha, Hb. rewrite Hi, put_stored by lia. cbn [mbind option_bind].
  rewrite <- Hi. apply IH; try lia.
  - rewrite length_app. simpl. lia.
  - rewrite Hds. replace (i + 1)%nat with (S i) by lia. rewrite (take_S_r _ _ _ Ha), (take_S_r _ _ _ Hb).
    assert (∀ l1 l2, length l1 = length l2 →
      diff_digits (l1 ++ [a]) (l2 ++ [b]) = diff_digits l1 l2 ++ [if b <=? a then CH_0 else CH_1]) as Happ.
    { induction l1 as [|x l1 IHl]; intros [|y l2] Hl; simpl in *; try done. rewrite IHl by lia. done. }
    rewrite Happ; [done|]. rewrite !length_take. lia.
Qed.

Lemma diff_tail_spec fuel (max_str : bool) diff : ∀ k i ds,
  i = length ds → (k < fuel)%nat → (i + k ≤ length diff)%nat →
  diff_tail fuel max_str i (i + k) (stored ds diff)
  = Some ((i + k)%nat, stored (ds ++ replicate k (if max_str then CH_0 else CH_1)) diff).
Proof.
  induction fuel as [|fuel IH]; intros k i ds Hi Hk Hd; [lia|]. cbn [diff_tail].
  destruct k as [|k].
  { destruct (Nat.ltb_spec i (i + 0)); [lia|]. simpl. by rewrite Nat.add_0_r, app_nil_r. }
  destruct (Nat.ltb_spec i (i + S k)); [|lia]. rewrite Hi, put_stored by lia. cbn [mbind option_bind].
  replace (length ds + S k)%nat with (length ds + 1 + k)%nat by lia. rewrite IH; [|rewrite length_app; simpl; lia|lia|lia].
  do 3 f_equal. rewrite <- app_assoc. done.
Qed.

Lemma diff_digits_split s1 s2 n m :
  (m = if (length s2 <=? length s1)%nat then length s1 else length s2)%nat →
  (n = if (length s2 <=? length s1)%nat then length s2 else length s1)%nat →
  diff_digits s1 s2 = diff_digits (take n s1) (take n s2)
    ++ replicate (m - n) (if (length s2 <=? length s1)%nat then CH_0 else CH_1).
Proof.
  intros -> ->. revert s2. induction s1 as [|a s1 IH]; intros [|b s2].
  - done.
  - rewrite diff_digits_nil_l. simpl. by rewrite ?Nat.sub_0_r.
  - rewrite diff_digits_nil_r. simpl. by rewrite ?Nat.sub_0_r.
  - change (diff_digits (a :: s1) (b :: s2)) with ((if b <=? a then CH_0 else CH_1) :: diff_digits s1 s2).
    rewrite (IH s2). simpl. destruct (length s2 <=? length s1)%nat; done.
Qed.

(** strdiff on words of at most [MAX_LEN] characters never leaves its
    buffer of [MAX_LEN + 2] bytes: it returns 0 and writes nothing exactly when
    one of the words has a character that is not a letter, and otherwise
    returns 1 with one digit for each position of the longer word, telling
    whether the first word's letter (case ignored, a missing letter lowest) is
    at least the second's, then a newline and the terminating NUL. *)
Theorem strdiff_correct str1 str2 diff :
  (length str1 ≤ MAX_LEN)%nat → (length str2 ≤ MAX_LEN)%nat → length diff = (MAX_LEN + 2)%nat →
  strdiff str1 str2 diff =
    if forallb letter str1 && forallb letter str2 then
      Some (1, stored (diff_digits (map lower str1) (map lower str2) ++ [10; 0]) diff)
    else Some (0, diff).
Proof.
  intros H1 H2 Hd. unfold strdiff. rewrite !to_lower_spec.
  destruct (forallb letter str1), (forallb letter str2); try done. cbn [andb].
  set (s1 := map lower str1). set (s2 := map lower str2).
  assert (length s1 = length str1) as L1 by apply length_map.
  assert (length s2 = length str2) as L2 by apply length_map.
  pose proof (diff_digits_split s1 s2 _ _ eq_refl eq_refl) as Hsplit.
  set (b := (length s2 <=? length s1)%nat) in *.
  assert ((if b then length s2 else length s1) ≤ length s1 ∧ (if b then length s2 else length s1) ≤ length s2
    ∧ (if b then length s2 else length s1) ≤ (if b then length s1 else length s2) ≤ MAX_LEN)%nat as (Hn1 & Hn2 & Hm).
  { unfold b. destruct (Nat.leb_spec (length s2) (length s1)); lia. }
  revert Hn1 Hn2 Hm Hsplit. generalize (if b then length s2 else length s1) as n.
  generalize (if b then length s1 else length s2) as m. intros m n Hn1 Hn2 Hm Hsplit.
  pose proof (diff_common_spec (n + 1) s1 s2 n diff 0 []) as Hc. change (stored [] diff) with diff in Hc.
  rewrite Hc; [|done|lia|lia|lia|done|done|done]. cbn [mbind option_bind].
  set (ds := diff_digits (take n s1) (take n s2)) in *.
  assert (length ds = n) as Lds by (unfold ds; rewrite length_diff_digits, !length_take; lia).
  replace m with (n + (m - n))%nat at 2 by lia.
  rewrite (diff_tail_spec _ b diff (m - n) n ds); [|done|lia|lia]. cbn [mbind option_bind].
  rewrite <- Hsplit. replace (n + (m - n))%nat with (length (diff_digits s1 s2)) by
    (rewrite Hsplit, length_app, length_replicate; lia).
  assert (length (diff_digits s1 s2) ≤ MAX_LEN)%nat as Lm by (rewrite Hsplit, length_app, length_replicate; lia).
  rewrite put_stored by lia. cbn [mbind option_bind].
  assert (length (diff_digits s1 s2) + 1 = length (diff_digits s1 s2 ++ [10%Z]))%nat as -> by (by rewrite length_app).
  rewrite put_stored by (rewrite length_app; simpl; lia). cbn [mbind option_bind]. by rewrite <- app_assoc.
Qed.

(** Two words of the full length fill the buffer. *)
Lemma strdiff_correct_witness :
  strdiff (replicate 15 65) (replicate 14 98) (replicate 17 0)
  = Some (1, replicate 14 CH_1 ++ [CH_0; 10; 0]).
Proof. rewrite (strdiff_correct (replicate 15 65) (replicate 14 98) (replicate 17 0)); [vm_compute; reflexivity|vm_compute; lia|vm_compute; lia|reflexivity]. Defined.
