(* ===== verification/State.v ===== *)
(** * Data of the process subsystem

    The structures of [proc.h], [prioritylock.h] and the trap frame of [x86.h],
    and [kstate], the record of the globals that [proc.c], [prioritylock.c],
    [sysproc.c], [syscall.c] and [trap.c] read and write.  The record is
    parametric in [X], the state of the memory allocator and of the file system,
    which [proc.c] only reaches through calls. *)

From S2P Require Import Prelude Spinlock.
From Stdlib Require Export SpecFloat.

(** ** [param.h] *)

Definition NPROC : nat := 64.
Definition NOFILE : nat := 16.
Definition NCPU : nat := 4.
Definition KSTACKSIZE : Z := 4096.

(** ** [proc.h] *)

Inductive procstate := UNUSED | EMBRYO | SLEEPING | RUNNABLE | RUNNING | ZOMBIE.

#[global] Instance procstate_eq_dec : EqDecision procstate.
Proof. solve_decision. Defined.

Definition MAX_AGE : Z := 8000.

(** [enum schedqueue]; the field that holds it is an [int] that system calls may
    set to any value, so queues are integers. *)
Definition UNSET : Z := 0.
Definition ROUND_ROBIN : Z := 1.
Definition LCFS : Z := 2.
Definition BJF : Z := 3.

(** [enum schedpriroty] *)
Definition HIGH : Z := 1.
Definition ABOVE_NORMAL : Z := 2.
Definition NORMAL : Z := 3.
Definition BELOW_NORMAL : Z := 4.
Definition LOW : Z := 5.

(** The addresses processes sleep on ([void* chan]); [None] is the null channel. *)
Inductive channel :=
| Chan_proc (i : nat) | Chan_ticks | Chan_log | Chan_input | Chan_buf (n : nat)
| Chan_sleeplock (n : nat) | Chan_pipe_nread (n : nat) | Chan_pipe_nwrite (n : nat).

#[global] Instance channel_eq_dec : EqDecision channel.
Proof. solve_decision. Defined.

(** Code addresses a saved context or kernel stack refers to. *)
Inductive codeaddr := A_forkret | A_trapret | A_code (a : Z).

(** [struct trapframe], the registers kernel C code reads or writes. *)
Record trapframe := Trapframe {
  tf_eax : Z;
  tf_ebx : Z;
  tf_trapno : Z;
  tf_err : Z;
  tf_eip : Z;
  tf_cs : Z;
  tf_ds : Z;
  tf_es : Z;
  tf_eflags : Z;
  tf_esp : Z;
  tf_ss : Z
}.

Definition set_tf_eax (v : Z) (s : trapframe) : trapframe :=
  Trapframe v (tf_ebx s) (tf_trapno s) (tf_err s) (tf_eip s) (tf_cs s) (tf_ds s) (tf_es s) (tf_eflags s) (tf_esp s) (tf_ss s).
Definition set_tf_ebx (v : Z) (s : trapframe) : trapframe :=
  Trapframe (tf_eax s) v (tf_trapno s) (tf_err s) (tf_eip s) (tf_cs s) (tf_ds s) (tf_es s) (tf_eflags s) (tf_esp s) (tf_ss s).
Definition set_tf_trapno (v : Z) (s : trapframe) : trapframe :=
  Trapframe (tf_eax s) (tf_ebx s) v (tf_err s) (tf_eip s) (tf_cs s) (tf_ds s) (tf_es s) (tf_eflags s) (tf_esp s) (tf_ss s).
Definition set_tf_err (v : Z) (s : trapframe) : trapframe :=
  Trapframe (tf_eax s) (tf_ebx s) (tf_trapno s) v (tf_eip s) (tf_cs s) (tf_ds s) (tf_es s) (tf_eflags s) (tf_esp s) (tf_ss s).
Definition set_tf_eip (v : Z) (s : trapframe) : trapframe :=
  Trapframe (tf_eax s) (tf_ebx s) (tf_trapno s) (tf_err s) v (tf_cs s) (tf_ds s) (tf_es s) (tf_eflags s) (tf_esp s) (tf_ss s).
Definition set_tf_cs (v : Z) (s : trapframe) : trapframe :=
  Trapframe (tf_eax s) (tf_ebx s) (tf_trapno s) (tf_err s) (tf_eip s) v (tf_ds s) (tf_es s) (tf_eflags s) (tf_esp s) (tf_ss s).
Definition set_tf_ds (v : Z) (s : trapframe) : trapframe :=
  Trapframe (tf_eax s) (tf_ebx s) (tf_trapno s) (tf_err s) (tf_eip s) (tf_cs s) v (tf_es s) (tf_eflags s) (tf_esp s) (tf_ss s).
Definition set_tf_es (v : Z) (s : trapframe) : trapframe :=
  Trapframe (tf_eax s) (tf_ebx s) (tf_trapno s) (tf_err s) (tf_eip s) (tf_cs s) (tf_ds s) v (tf_eflags s) (tf_esp s) (tf_ss s).
Definition set_tf_eflags (v : Z) (s : trapframe) : trapframe :=
  Trapframe (tf_eax s) (tf_ebx s) (tf_trapno s) (tf_err s) (tf_eip s) (tf_cs s) (tf_ds s) (tf_es s) v (tf_esp s) (tf_ss s).
Definition set_tf_esp (v : Z) (s : trapframe) : trapframe :=
  Trapframe (tf_eax s) (tf_ebx s) (tf_trapno s) (tf_err s) (tf_eip s) (tf_cs s) (tf_ds s) (tf_es s) (tf_eflags s) v (tf_ss s).
Definition set_tf_ss (v : Z) (s : trapframe) : trapframe :=
  Trapframe (tf_eax s) (tf_ebx s) (tf_trapno s) (tf_err s) (tf_eip s) (tf_cs s) (tf_ds s) (tf_es s) (tf_eflags s) (tf_esp s) v.

(** [struct context] *)
Record context := Context {
  ctx_edi : Z;
  ctx_esi : Z;
  ctx_ebx : Z;
  ctx_ebp : Z;
  ctx_eip : codeaddr
}.

Definition set_ctx_edi (v : Z) (s : context) : context :=
  Context v (ctx_esi s) (ctx_ebx s) (ctx_ebp s) (ctx_eip s).
Definition set_ctx_esi (v : Z) (s : context) : context :=
  Context (ctx_edi s) v (ctx_ebx s) (ctx_ebp s) (ctx_eip s).
Definition set_ctx_ebx (v : Z) (s : context) : context :=
  Context (ctx_edi s) (ctx_esi s) v (ctx_ebp s) (ctx_eip s).
Definition set_ctx_ebp (v : Z) (s : context) : context :=
  Context (ctx_edi s) (ctx_esi s) (ctx_ebx s) v (ctx_eip s).
Definition set_ctx_eip (v : codeaddr) (s : context) : context :=
  Context (ctx_edi s) (ctx_esi s) (ctx_ebx s) (ctx_ebp s) v.

(** [struct bjfparams]; [float] fields hold binary32 values. *)
Record bjfparams := Bjfparams {
  priority : Z;
  executed_cycle : spec_float;
  arrival_time : Z;
  process_size : Z;
  priority_ratio : spec_float;
  executed_cycle_ratio : spec_float;
  arrival_time_ratio : spec_float;
  process_size_ratio : spec_float
}.

Definition set_priority (v : Z) (s : bjfparams) : bjfparams :=
  Bjfparams v (executed_cycle s) (arrival_time s) (process_size s) (priority_ratio s) (executed_cycle_ratio s) (arrival_time_ratio s) (process_size_ratio s).
Definition set_executed_cycle (v : spec_float) (s : bjfparams) : bjfparams :=
  Bjfparams (priority s) v (arrival_time s) (process_size s) (priority_ratio s) (executed_cycle_ratio s) (arrival_time_ratio s) (process_size_ratio s).
Definition set_arrival_time (v : Z) (s : bjfparams) : bjfparams :=
  Bjfparams (priority s) (executed_cycle s) v (process_size s) (priority_ratio s) (executed_cycle_ratio s) (arrival_time_ratio s) (process_size_ratio s).
Definition set_process_size (v : Z) (s : bjfparams) : bjfparams :=
  Bjfparams (priority s) (executed_cycle s) (arrival_time s) v (priority_ratio s) (executed_cycle_ratio s) (arrival_time_ratio s) (process_size_ratio s).
Definition set_priority_ratio (v : spec_float) (s : bjfparams) : bjfparams :=
  Bjfparams (priority s) (executed_cycle s) (arrival_time s) (process_size s) v (executed_cycle_ratio s) (arrival_time_ratio s) (process_size_ratio s).
Definition set_executed_cycle_ratio (v : spec_float) (s : bjfparams) : bjfparams :=
  Bjfparams (priority s) (executed_cycle s) (arrival_time s) (process_size s) (priority_ratio s) v (arrival_time_ratio s) (process_size_ratio s).
Definition set_arrival_time_ratio (v : spec_float) (s : bjfparams) : bjfparams :=
  Bjfparams (priority s) (executed_cycle s) (arrival_time s) (process_size s) (priority_ratio s) (executed_cycle_ratio s) v (process_size_ratio s).
Definition set_process_size_ratio (v : spec_float) (s : bjfparams) : bjfparams :=
  Bjfparams (priority s) (executed_cycle s) (arrival_time s) (process_size s) (priority_ratio s) (executed_cycle_ratio s) (arrival_time_ratio s) v.

(** [struct schedparams] *)
Record schedparams := Schedparams {
  queue : Z;
  bjf : bjfparams;
  last_exec : Z
}.

Definition set_queue (v : Z) (s : schedparams) : schedparams :=
  Schedparams v (bjf s) (last_exec s).
Definition set_bjf (v : bjfparams) (s : schedparams) : schedparams :=
  Schedparams (queue s) v (last_exec s).
Definition set_last_exec (v : Z) (s : schedparams) : schedparams :=
  Schedparams (queue s) (bjf s) v.

(** [struct proc].  Pointers to entries of kernel tables (processes, files,
    inodes) are indices, [None] for null; [p_ret] is the word below the trap frame
    on the kernel stack, the return address of the saved context. *)
Record proc := Proc {
  p_sz : Z;
  p_pgdir : Z;
  p_kstack : Z;
  p_state : procstate;
  p_pid : Z;
  p_parent : option nat;
  p_tf : trapframe;
  p_context : context;
  p_ret : codeaddr;
  p_chan : option channel;
  p_killed : Z;
  p_ofile : list (option nat);
  p_cwd : option nat;
  p_name : list Z;
  p_ctime : Z;
  p_sched : schedparams;
  p_shmemaddr : Z
}.

Definition set_p_sz (v : Z) (s : proc) : proc :=
  Proc v (p_pgdir s) (p_kstack s) (p_state s) (p_pid s) (p_parent s) (p_tf s) (p_context s) (p_ret s) (p_chan s) (p_killed s) (p_ofile s) (p_cwd s) (p_name s) (p_ctime s) (p_sched s) (p_shmemaddr s).
Definition set_p_pgdir (v : Z) (s : proc) : proc :=
  Proc (p_sz s) v (p_kstack s) (p_state s) (p_pid s) (p_parent s) (p_tf s) (p_context s) (p_ret s) (p_chan s) (p_killed s) (p_ofile s) (p_cwd s) (p_name s) (p_ctime s) (p_sched s) (p_shmemaddr s).
Definition set_p_kstack (v : Z) (s : proc) : proc :=
  Proc (p_sz s) (p_pgdir s) v (p_state s) (p_pid s) (p_parent s) (p_tf s) (p_context s) (p_ret s) (p_chan s) (p_killed s) (p_ofile s) (p_cwd s) (p_name s) (p_ctime s) (p_sched s) (p_shmemaddr s).
Definition set_p_state (v : procstate) (s : proc) : proc :=
  Proc (p_sz s) (p_pgdir s) (p_kstack s) v (p_pid s) (p_parent s) (p_tf s) (p_context s) (p_ret s) (p_chan s) (p_killed s) (p_ofile s) (p_cwd s) (p_name s) (p_ctime s) (p_sched s) (p_shmemaddr s).
Definition set_p_pid (v : Z) (s : proc) : proc :=
  Proc (p_sz s) (p_pgdir s) (p_kstack s) (p_state s) v (p_parent s) (p_tf s) (p_context s) (p_ret s) (p_chan s) (p_killed s) (p_ofile s) (p_cwd s) (p_name s) (p_ctime s) (p_sched s) (p_shmemaddr s).
Definition set_p_parent (v : option nat) (s : proc) : proc :=
  Proc (p_sz s) (p_pgdir s) (p_kstack s) (p_state s) (p_pid s) v (p_tf s) (p_context s) (p_ret s) (p_chan s) (p_killed s) (p_ofile s) (p_cwd s) (p_name s) (p_ctime s) (p_sched s) (p_shmemaddr s).
Definition set_p_tf (v : trapframe) (s : proc) : proc :=
  Proc (p_sz s) (p_pgdir s) (p_kstack s) (p_state s) (p_pid s) (p_parent s) v (p_context s) (p_ret s) (p_chan s) (p_killed s) (p_ofile s) (p_cwd s) (p_name s) (p_ctime s) (p_sched s) (p_shmemaddr s).
Definition set_p_context (v : context) (s : proc) : proc :=
  Proc (p_sz s) (p_pgdir s) (p_kstack s) (p_state s) (p_pid s) (p_parent s) (p_tf s) v (p_ret s) (p_chan s) (p_killed s) (p_ofile s) (p_cwd s) (p_name s) (p_ctime s) (p_sched s) (p_shmemaddr s).
Definition set_p_ret (v : codeaddr) (s : proc) : proc :=
  Proc (p_sz s) (p_pgdir s) (p_kstack s) (p_state s) (p_pid s) (p_parent s) (p_tf s) (p_context s) v (p_chan s) (p_killed s) (p_ofile s) (p_cwd s) (p_name s) (p_ctime s) (p_sched s) (p_shmemaddr s).
Definition set_p_chan (v : option channel) (s : proc) : proc :=
  Proc (p_sz s) (p_pgdir s) (p_kstack s) (p_state s) (p_pid s) (p_parent s) (p_tf s) (p_context s) (p_ret s) v (p_killed s) (p_ofile s) (p_cwd s) (p_name s) (p_ctime s) (p_sched s) (p_shmemaddr s).
Definition set_p_killed (v : Z) (s : proc) : proc :=
  Proc (p_sz s) (p_pgdir s) (p_kstack s) (p_state s) (p_pid s) (p_parent s) (p_tf s) (p_context s) (p_ret s) (p_chan s) v (p_ofile s) (p_cwd s) (p_name s) (p_ctime s) (p_sched s) (p_shmemaddr s).
Definition set_p_ofile (v : list (option nat)) (s : proc) : proc :=
  Proc (p_sz s) (p_pgdir s) (p_kstack s) (p_state s) (p_pid s) (p_parent s) (p_tf s) (p_context s) (p_ret s) (p_chan s) (p_killed s) v (p_cwd s) (p_name s) (p_ctime s) (p_sched s) (p_shmemaddr s).
Definition set_p_cwd (v : option nat) (s : proc) : proc :=
  Proc (p_sz s) (p_pgdir s) (p_kstack s) (p_state s) (p_pid s) (p_parent s) (p_tf s) (p_context s) (p_ret s) (p_chan s) (p_killed s) (p_ofile s) v (p_name s) (p_ctime s) (p_sched s) (p_shmemaddr s).
Definition set_p_name (v : list Z) (s : proc) : proc :=
  Proc (p_sz s) (p_pgdir s) (p_kstack s) (p_state s) (p_pid s) (p_parent s) (p_tf s) (p_context s) (p_ret s) (p_chan s) (p_killed s) (p_ofile s) (p_cwd s) v (p_ctime s) (p_sched s) (p_shmemaddr s).
Definition set_p_ctime (v : Z) (s : proc) : proc :=
  Proc (p_sz s) (p_pgdir s) (p_kstack s) (p_state s) (p_pid s) (p_parent s) (p_tf s) (p_context s) (p_ret s) (p_chan s) (p_killed s) (p_ofile s) (p_cwd s) (p_name s) v (p_sched s) (p_shmemaddr s).
Definition set_p_sched (v : schedparams) (s : proc) : proc :=
  Proc (p_sz s) (p_pgdir s) (p_kstack s) (p_state s) (p_pid s) (p_parent s) (p_tf s) (p_context s) (p_ret s) (p_chan s) (p_killed s) (p_ofile s) (p_cwd s) (p_name s) (p_ctime s) v (p_shmemaddr s).
Definition set_p_shmemaddr (v : Z) (s : proc) : proc :=
  Proc (p_sz s) (p_pgdir s) (p_kstack s) (p_state s) (p_pid s) (p_parent s) (p_tf s) (p_context s) (p_ret s) (p_chan s) (p_killed s) (p_ofile s) (p_cwd s) (p_name s) (p_ctime s) (p_sched s) v.

(** ** [prioritylock.h] *)

(** [struct prioritylock]; its inner spin lock is [L_plock]. *)
Record prioritylock := Prioritylock {
  pl_locked : Z;
  pl_inqueue : Z;
  pl_lockreq : list Z;
  pl_pid : Z
}.

Definition set_pl_locked (v : Z) (s : prioritylock) : prioritylock :=
  Prioritylock v (pl_inqueue s) (pl_lockreq s) (pl_pid s).
Definition set_pl_inqueue (v : Z) (s : prioritylock) : prioritylock :=
  Prioritylock (pl_locked s) v (pl_lockreq s) (pl_pid s).
Definition set_pl_lockreq (v : list Z) (s : prioritylock) : prioritylock :=
  Prioritylock (pl_locked s) (pl_inqueue s) v (pl_pid s).
Definition set_pl_pid (v : Z) (s : prioritylock) : prioritylock :=
  Prioritylock (pl_locked s) (pl_inqueue s) (pl_lockreq s) v.

(** ** Kernel globals *)

(** [ptable.proc], [nextpid], [initproc], [ticks], the [first] flag of [forkret],
    [plock], [nsys.n], the characters printed on the console, and the rest of the
    kernel. *)
Record kstate (X : Type) := Kstate {
  k_mach : machine;
  k_ptable : list proc;
  k_nextpid : Z;
  k_initproc : option nat;
  k_ticks : Z;
  k_first : Z;
  k_plock : prioritylock;
  k_nsys : Z;
  k_out : list Z;
  k_ext : X
}.
Arguments Kstate {X} _ _ _ _ _ _ _ _ _ _.
Arguments k_mach {X} _.
Arguments k_ptable {X} _.
Arguments k_nextpid {X} _.
Arguments k_initproc {X} _.
Arguments k_ticks {X} _.
Arguments k_first {X} _.
Arguments k_plock {X} _.
Arguments k_nsys {X} _.
Arguments k_out {X} _.
Arguments k_ext {X} _.

Definition set_k_mach {X : Type} (v : machine) (s : kstate X) : kstate X :=
  Kstate v (k_ptable s) (k_nextpid s) (k_initproc s) (k_ticks s) (k_first s) (k_plock s) (k_nsys s) (k_out s) (k_ext s).
Definition set_k_ptable {X : Type} (v : list proc) (s : kstate X) : kstate X :=
  Kstate (k_mach s) v (k_nextpid s) (k_initproc s) (k_ticks s) (k_first s) (k_plock s) (k_nsys s) (k_out s) (k_ext s).
Definition set_k_nextpid {X : Type} (v : Z) (s : kstate X) : kstate X :=
  Kstate (k_mach s) (k_ptable s) v (k_initproc s) (k_ticks s) (k_first s) (k_plock s) (k_nsys s) (k_out s) (k_ext s).
Definition set_k_initproc {X : Type} (v : option nat) (s : kstate X) : kstate X :=
  Kstate (k_mach s) (k_ptable s) (k_nextpid s) v (k_ticks s) (k_first s) (k_plock s) (k_nsys s) (k_out s) (k_ext s).
Definition set_k_ticks {X : Type} (v : Z) (s : kstate X) : kstate X :=
  Kstate (k_mach s) (k_ptable s) (k_nextpid s) (k_initproc s) v (k_first s) (k_plock s) (k_nsys s) (k_out s) (k_ext s).
Definition set_k_first {X : Type} (v : Z) (s : kstate X) : kstate X :=
  Kstate (k_mach s) (k_ptable s) (k_nextpid s) (k_initproc s) (k_ticks s) v (k_plock s) (k_nsys s) (k_out s) (k_ext s).
Definition set_k_plock {X : Type} (v : prioritylock) (s : kstate X) : kstate X :=
  Kstate (k_mach s) (k_ptable s) (k_nextpid s) (k_initproc s) (k_ticks s) (k_first s) v (k_nsys s) (k_out s) (k_ext s).
Definition set_k_nsys {X : Type} (v : Z) (s : kstate X) : kstate X :=
  Kstate (k_mach s) (k_ptable s) (k_nextpid s) (k_initproc s) (k_ticks s) (k_first s) (k_plock s) v (k_out s) (k_ext s).
Definition set_k_out {X : Type} (v : list Z) (s : kstate X) : kstate X :=
  Kstate (k_mach s) (k_ptable s) (k_nextpid s) (k_initproc s) (k_ticks s) (k_first s) (k_plock s) (k_nsys s) v (k_ext s).
Definition set_k_ext {X : Type} (v : X) (s : kstate X) : kstate X :=
  Kstate (k_mach s) (k_ptable s) (k_nextpid s) (k_initproc s) (k_ticks s) (k_first s) (k_plock s) (k_nsys s) (k_out s) v.

#[global] Instance kstate_has_machine (X : Type) : HasMachine (kstate X).
Proof.
  refine {| mach := k_mach; set_mach := set_k_mach |}; [done|done|by intros []].
Defined.

Section table.
Context {X : Type}.

(** [p->...] for a pointer [p] into the process table. *)
Definition get_proc (i : nat) : K (kstate X) proc :=
  s ← kget;
  match k_ptable s !! i with
  | Some p => mret p
  | None => kundef "process pointer"
  end.

Definition alter_proc (i : nat) (f : proc → proc) : K (kstate X) unit :=
  kmodify (λ s, set_k_ptable (alter f i (k_ptable s)) s).

(** [myproc()->...]: dereferences the null pointer when no process runs. *)
Definition curproc : K (kstate X) nat :=
  o ← myproc;
  match o with
  | Some i => mret i
  | None => kundef "myproc() is null"
  end.

Definition cputc (c : Z) : K (kstate X) unit :=
  kmodify (λ s, set_k_out (k_out s ++ [c]) s).

End table.

(** Updates through nested fields. *)
Definition upd_sched (f : schedparams → schedparams) (p : proc) : proc :=
  set_p_sched (f (p_sched p)) p.
Definition upd_bjf (f : bjfparams → bjfparams) (p : proc) : proc :=
  upd_sched (λ sc, set_bjf (f (bjf sc)) sc) p.

(** The lock and CPU lemmas of [Spinlock] at this state. *)
Section kstate_locks.
Context {X : Type}.
Implicit Types (s : kstate X).

Lemma kmyproc_ok s i c :
  mach_at (k_mach s) i c → ncli c < 2 ^ 31 - 1 →
  myproc s = Ok (cproc c) (set_k_mach (settled i c (k_mach s)) s).
Proof. exact (@myproc_ok _ (kstate_has_machine X) s i c). Qed.

Lemma kacquire_ok l s i c :
  mach_at (k_mach s) i c → ncli c < 2 ^ 31 - 2 → locks (k_mach s) !! l = None →
  acquire l s = Ok tt (set_k_mach (acquired l i c (k_mach s)) s).
Proof. exact (@acquire_ok _ (kstate_has_machine X) l s i c). Qed.

Lemma kacquire_held l s i c :
  mach_at (k_mach s) i c → ncli c < 2 ^ 31 - 2 →
  locks (k_mach s) !! l = Some (Spinlock 1 (Some i)) →
  acquire l s = Panic "acquire".
Proof. exact (@acquire_held _ (kstate_has_machine X) l s i c). Qed.

Lemma krelease_ok l s i c :
  mach_at (k_mach s) i c → 1 ≤ ncli c < 2 ^ 31 - 1 →
  locks (k_mach s) !! l = Some (Spinlock 1 (Some i)) →
  release l s = Ok tt (set_k_mach (popped i c (set_lock l unlocked (k_mach s))) s).
Proof. exact (@release_ok _ (kstate_has_machine X) l s i c). Qed.

Lemma krelease_acquired l m s i c :
  mach_at m i c → ncli c < 2 ^ 31 - 2 → locks m !! l = None →
  k_mach s = acquired l i c m →
  release l s = Ok tt (set_k_mach (settled i c m) s).
Proof.
  intros H Hb Hl Hs.
  exact (@release_acquired _ (kstate_has_machine X) l (set_k_mach m s) i c H Hb Hl s Hs).
Qed.

Lemma kholding_ok l s i c :
  mach_at (k_mach s) i c → ncli c < 2 ^ 31 - 1 →
  holding l s = Ok (negb (locked (get_lock l (k_mach s)) =? 0)
                    && bool_decide (lcpu (get_lock l (k_mach s)) = Some i))
                   (set_k_mach (settled i c (k_mach s)) s).
Proof. exact (@holding_ok _ (kstate_has_machine X) l s i c). Qed.

Lemma kmycpu_get_ok s i c :
  mach_at (k_mach s) i c → eflags_if (k_mach s) = false → mycpu_get s = Ok c s.
Proof. exact (@mycpu_get_ok _ (kstate_has_machine X) s i c). Qed.

Lemma kmycpu_alter_ok f s i c :
  mach_at (k_mach s) i c → eflags_if (k_mach s) = false →
  mycpu_alter f s = Ok tt (set_k_mach (set_cpus (<[i := f c]> (cpus (k_mach s))) (k_mach s)) s).
Proof. exact (@mycpu_alter_ok _ (kstate_has_machine X) f s i c). Qed.

(** The executing CPU is entry [i] of [cpus] and runs process [pi], whose table
    entry is [p]. *)
Record running (s : kstate X) (i : nat) (c : cpu) (pi : nat) (p : proc) : Prop := Running {
  run_at : mach_at (k_mach s) i c;
  run_ncli : ncli c < 2 ^ 31 - 8;
  run_proc : cproc c = Some pi;
  run_entry : k_ptable s !! pi = Some p
}.

Lemma curproc_ok s i c pi :
  mach_at (k_mach s) i c → ncli c < 2 ^ 31 - 1 → cproc c = Some pi →
  curproc s = Ok pi (set_k_mach (settled i c (k_mach s)) s).
Proof.
  intros H Hb Hc. unfold curproc. rewrite (bind_ok _ _ _ _ _ (kmyproc_ok s i c H Hb)).
  by rewrite Hc.
Qed.

Lemma get_proc_ok s i p : k_ptable s !! i = Some p → get_proc i s = Ok p s.
Proof. intros H. unfold get_proc. krun. by rewrite H. Qed.

Lemma bind_alter_proc {B} j f (k : unit → K (kstate X) B) s :
  (alter_proc j f ≫= k) s = k tt (set_k_ptable (alter f j (k_ptable s)) s).
Proof. done. Qed.

End kstate_locks.

(** ** Loops over the process table *)

Section table_loops.
Context {X : Type}.

(** [for (p = ptable.proc; p < &ptable.proc[NPROC]; p++) if (P(p)) { act; leave }] *)
Definition ptable_find {R} (P : proc → bool) (act : nat → K (kstate X) R) : K (kstate X) (option R) :=
  kfor (seq 0 NPROC) (λ i,
    p ← get_proc i;
    if P p then r ← act i; mret (Some r) else mret None).

(** [for (p = ptable.proc; p < &ptable.proc[NPROC]; p++) body(p)] *)
Definition ptable_iter (body : nat → K (kstate X) unit) : K (kstate X) unit :=
  kfor_ (seq 0 NPROC) body.

Lemma ptable_split i : (i < NPROC)%nat → seq 0 NPROC = seq 0 i ++ i :: seq (S i) (NPROC - S i).
Proof.
  intros Hi. change (i :: seq (S i) (NPROC - S i)) with (seq i (S (NPROC - S i))).
  rewrite <- seq_app. f_equal. lia.
Qed.

Section find.
Context {R : Type} (P : proc → bool) (act : nat → K (kstate X) R) (s : kstate X).
Hypothesis Hlen : length (k_ptable s) = NPROC.

Lemma ptable_find_skip j p :
  k_ptable s !! j = Some p → P p = false →
  (p ← get_proc j; if P p then r ← act j; mret (Some r) else mret None) s = Ok None s.
Proof. intros Hj HP. rewrite (bind_ok _ _ _ _ _ (get_proc_ok s j p Hj)). by rewrite HP. Qed.

Lemma ptable_find_none :
  find_index P (k_ptable s) = None → ptable_find P act s = Ok None s.
Proof.
  intros Hf. apply kfor_none. intros j [_ Hj]%elem_of_seq.
  destruct (lookup_lt_is_Some_2 (k_ptable s) j) as [p Hp]; [lia|].
  eapply ptable_find_skip; [done|]. rewrite find_index_None in Hf. apply Hf.
  by eapply list_elem_of_lookup_2.
Qed.

Lemma ptable_find_prefix i :
  find_index P (k_ptable s) = Some i →
  (∀ j, j ∈ seq 0 i →
     (p ← get_proc j; if P p then r ← act j; mret (Some r) else mret None) s = Ok None s)
  ∧ (i < NPROC)%nat
  ∧ ∃ p, k_ptable s !! i = Some p ∧ P p = true.
Proof.
  intros Hf. pose proof (find_index_lt _ _ _ Hf) as Hlt. rewrite Hlen in Hlt.
  apply find_index_Some in Hf as (p & Hp & HP & Hmin). repeat split; [|done|eauto].
  intros j [_ Hj]%elem_of_seq. destruct (lookup_lt_is_Some_2 (k_ptable s) j) as [pj Hpj]; [lia|].
  eapply ptable_find_skip; [done|]. eapply Hmin; [|done]. lia.
Qed.

Lemma ptable_find_ok i r s' :
  find_index P (k_ptable s) = Some i → act i s = Ok r s' →
  ptable_find P act s = Ok (Some r) s'.
Proof.
  intros (Hpre & Hi & p & Hp & HP)%ptable_find_prefix Ha. unfold ptable_find.
  rewrite (ptable_split i Hi). apply kfor_first; [done|].
  rewrite (bind_ok _ _ _ _ _ (get_proc_ok s i p Hp)), HP. by rewrite (bind_ok _ _ _ _ _ Ha).
Qed.

Lemma ptable_find_panic i msg :
  find_index P (k_ptable s) = Some i → act i s = Panic msg →
  ptable_find P act s = Panic msg.
Proof.
  intros (Hpre & Hi & p & Hp & HP)%ptable_find_prefix Ha. unfold ptable_find.
  rewrite (ptable_split i Hi). apply kfor_first_panic; [done|].
  rewrite (bind_ok _ _ _ _ _ (get_proc_ok s i p Hp)), HP. by apply bind_panic.
Qed.

End find.

(** A loop that updates every entry independently of the others. *)
Lemma lookup_alter_seq (f : proc → proc) n i (l : list proc) j :
  foldl (λ l k, alter f k l) l (seq i n) !! j =
  if decide (i ≤ j < i + n)%nat then f <$> l !! j else l !! j.
Proof.
  revert i l. induction n as [|n IH]; intros i l; simpl.
  - by rewrite decide_False by lia.
  - rewrite IH. destruct (decide (S i ≤ j < S i + n)%nat).
    + rewrite decide_True by lia. by rewrite list_lookup_alter_ne by lia.
    + destruct (decide (i = j)) as [->|].
      * rewrite decide_True by lia. by rewrite list_lookup_alter_eq.
      * rewrite decide_False by lia. by rewrite list_lookup_alter_ne.
Qed.

Lemma ptable_iter_alter (f : proc → proc) s :
  length (k_ptable s) = NPROC →
  ptable_iter (λ i, alter_proc i f) s = Ok tt (set_k_ptable (map f (k_ptable s)) s).
Proof.
  intros Hlen. unfold ptable_iter.
  assert (∀ l (s : kstate X), kfor_ l (λ i, alter_proc i f) s =
    Ok tt (set_k_ptable (foldl (λ l k, alter f k l) (k_ptable s) l) s)) as ->.
  { clear. induction l as [|i l IH]; intros s; [by destruct s|]. simpl.
    unfold alter_proc at 1. krun. by rewrite IH. }
  do 2 f_equal. apply list_eq. intros j. rewrite lookup_alter_seq. change (map f) with (fmap (M:=list) f).
  rewrite list_lookup_fmap. case_decide as Hd; [done|].
  by rewrite lookup_ge_None_2 by lia.
Qed.

End table_loops.

(** ** Normal form of updated states *)

Section kstate_updates.
Context {X : Type}.
Implicit Types (s : kstate X).

Lemma set_mach_mach v w s : set_k_mach v (set_k_mach w s) = set_k_mach v s.
Proof. done. Qed.
Lemma set_ptable_ptable v w s : set_k_ptable v (set_k_ptable w s) = set_k_ptable v s.
Proof. done. Qed.
Lemma set_nextpid_nextpid v w s : set_k_nextpid v (set_k_nextpid w s) = set_k_nextpid v s.
Proof. done. Qed.
Lemma set_initproc_initproc v w s : set_k_initproc v (set_k_initproc w s) = set_k_initproc v s.
Proof. done. Qed.
Lemma set_ticks_ticks v w s : set_k_ticks v (set_k_ticks w s) = set_k_ticks v s.
Proof. done. Qed.
Lemma set_first_first v w s : set_k_first v (set_k_first w s) = set_k_first v s.
Proof. done. Qed.
Lemma set_plock_plock v w s : set_k_plock v (set_k_plock w s) = set_k_plock v s.
Proof. done. Qed.
Lemma set_nsys_nsys v w s : set_k_nsys v (set_k_nsys w s) = set_k_nsys v s.
Proof. done. Qed.
Lemma set_out_out v w s : set_k_out v (set_k_out w s) = set_k_out v s.
Proof. done. Qed.
Lemma set_ext_ext v w s : set_k_ext v (set_k_ext w s) = set_k_ext v s.
Proof. done. Qed.
Lemma set_ptable_mach v w s : set_k_ptable v (set_k_mach w s) = set_k_mach w (set_k_ptable v s).
Proof. done. Qed.
Lemma set_nextpid_mach v w s : set_k_nextpid v (set_k_mach w s) = set_k_mach w (set_k_nextpid v s).
Proof. done. Qed.
Lemma set_plock_mach v w s : set_k_plock v (set_k_mach w s) = set_k_mach w (set_k_plock v s).
Proof. done. Qed.
Lemma set_out_mach v w s : set_k_out v (set_k_mach w s) = set_k_mach w (set_k_out v s).
Proof. done. Qed.
Lemma set_ext_mach v w s : set_k_ext v (set_k_mach w s) = set_k_mach w (set_k_ext v s).
Proof. done. Qed.
Lemma set_nextpid_ptable v w s : set_k_nextpid v (set_k_ptable w s) = set_k_ptable w (set_k_nextpid v s).
Proof. done. Qed.
Lemma set_plock_ptable v w s : set_k_plock v (set_k_ptable w s) = set_k_ptable w (set_k_plock v s).
Proof. done. Qed.
Lemma set_out_ptable v w s : set_k_out v (set_k_ptable w s) = set_k_ptable w (set_k_out v s).
Proof. done. Qed.
Lemma set_ext_ptable v w s : set_k_ext v (set_k_ptable w s) = set_k_ptable w (set_k_ext v s).
Proof. done. Qed.
Lemma set_plock_nextpid v w s : set_k_plock v (set_k_nextpid w s) = set_k_nextpid w (set_k_plock v s).
Proof. done. Qed.
Lemma set_out_nextpid v w s : set_k_out v (set_k_nextpid w s) = set_k_nextpid w (set_k_out v s).
Proof. done. Qed.
Lemma set_ext_nextpid v w s : set_k_ext v (set_k_nextpid w s) = set_k_nextpid w (set_k_ext v s).
Proof. done. Qed.
Lemma set_out_plock v w s : set_k_out v (set_k_plock w s) = set_k_plock w (set_k_out v s).
Proof. done. Qed.
Lemma set_ext_plock v w s : set_k_ext v (set_k_plock w s) = set_k_plock w (set_k_ext v s).
Proof. done. Qed.
Lemma set_ext_out v w s : set_k_ext v (set_k_out w s) = set_k_out w (set_k_ext v s).
Proof. done. Qed.

Lemma set_mach_id s : set_k_mach (k_mach s) s = s.
Proof. by destruct s. Qed.

Lemma set_ptable_id s : set_k_ptable (k_ptable s) s = s.
Proof. by destruct s. Qed.

Lemma set_ext_id s : set_k_ext (k_ext s) s = s.
Proof. by destruct s. Qed.

End kstate_updates.

Create Rewrite HintDb kst.
#[export] Hint Rewrite @set_mach_mach @set_ptable_ptable @set_nextpid_nextpid @set_initproc_initproc @set_ticks_ticks @set_first_first @set_plock_plock @set_nsys_nsys @set_out_out @set_ext_ext @set_ptable_mach @set_nextpid_mach @set_plock_mach @set_out_mach @set_ext_mach @set_nextpid_ptable @set_plock_ptable @set_out_ptable @set_ext_ptable @set_plock_nextpid @set_out_nextpid @set_ext_nextpid @set_out_plock @set_ext_plock @set_ext_out : kst.

(** Reads of updated states. *)
Ltac kproj :=
  repeat match goal with
  | |- context [k_mach (set_k_mach ?v ?s)] => change (k_mach (set_k_mach v s)) with v
  | |- context [k_mach (?f ?v ?s)] => change (k_mach (f v s)) with (k_mach s)
  | |- context [k_ptable (set_k_ptable ?v ?s)] => change (k_ptable (set_k_ptable v s)) with v
  | |- context [k_ptable (?f ?v ?s)] => change (k_ptable (f v s)) with (k_ptable s)
  | |- context [k_nextpid (set_k_nextpid ?v ?s)] => change (k_nextpid (set_k_nextpid v s)) with v
  | |- context [k_nextpid (?f ?v ?s)] => change (k_nextpid (f v s)) with (k_nextpid s)
  | |- context [k_initproc (set_k_initproc ?v ?s)] => change (k_initproc (set_k_initproc v s)) with v
  | |- context [k_initproc (?f ?v ?s)] => change (k_initproc (f v s)) with (k_initproc s)
  | |- context [k_ticks (set_k_ticks ?v ?s)] => change (k_ticks (set_k_ticks v s)) with v
  | |- context [k_ticks (?f ?v ?s)] => change (k_ticks (f v s)) with (k_ticks s)
  | |- context [k_first (set_k_first ?v ?s)] => change (k_first (set_k_first v s)) with v
  | |- context [k_first (?f ?v ?s)] => change (k_first (f v s)) with (k_first s)
  | |- context [k_plock (set_k_plock ?v ?s)] => change (k_plock (set_k_plock v s)) with v
  | |- context [k_plock (?f ?v ?s)] => change (k_plock (f v s)) with (k_plock s)
  | |- context [k_nsys (set_k_nsys ?v ?s)] => change (k_nsys (set_k_nsys v s)) with v
  | |- context [k_nsys (?f ?v ?s)] => change (k_nsys (f v s)) with (k_nsys s)
  | |- context [k_out (set_k_out ?v ?s)] => change (k_out (set_k_out v s)) with v
  | |- context [k_out (?f ?v ?s)] => change (k_out (f v s)) with (k_out s)
  | |- context [k_ext (set_k_ext ?v ?s)] => change (k_ext (set_k_ext v s)) with v
  | |- context [k_ext (?f ?v ?s)] => change (k_ext (f v s)) with (k_ext s)
  end.

(** Bring the states of the goal to a normal form with one update per field. *)
Ltac ksimpl := repeat progress (kproj; autorewrite with kst).

(** ** Critical sections *)

Section critical.
Context {X : Type}.

(** A critical section whose body keeps the machine as it found it. *)
Lemma kcritical {A B} (l : lockid) (body : K (kstate X) A) (k : A → K (kstate X) B) s i c a s1 :
  mach_at (k_mach s) i c → ncli c < 2 ^ 31 - 2 → locks (k_mach s) !! l = None →
  body (set_k_mach (acquired l i c (k_mach s)) s) = Ok a s1 →
  k_mach s1 = acquired l i c (k_mach s) →
  (acquire l;; x ← body; release l;; k x) s
  = k a (set_k_mach (settled i c (k_mach s)) s1).
Proof.
  intros Hat Hn Hl Hb Hm. rewrite (bind_ok _ _ _ _ _ (kacquire_ok l s i c Hat Hn Hl)).
  rewrite (bind_ok _ _ _ _ _ Hb).
  by rewrite (bind_ok _ _ _ _ _ (krelease_acquired l (k_mach s) s1 i c Hat Hn Hl Hm)).
Qed.

(** Entering and leaving a critical section in the middle of a routine. *)
Lemma bind_acquire {B} l (k : unit → K (kstate X) B) i c s :
  mach_at (k_mach s) i c → ncli c < 2 ^ 31 - 2 → locks (k_mach s) !! l = None →
  (acquire l ≫= k) s = k tt (set_k_mach (acquired l i c (k_mach s)) s).
Proof. intros H1 H2 H3. by rewrite (bind_ok _ _ _ _ _ (kacquire_ok l s i c H1 H2 H3)). Qed.

Lemma bind_release {B} l (k : unit → K (kstate X) B) m i c s :
  mach_at m i c → ncli c < 2 ^ 31 - 2 → locks m !! l = None → k_mach s = acquired l i c m →
  (release l ≫= k) s = k tt (set_k_mach (settled i c m) s).
Proof. intros H1 H2 H3 H4. by rewrite (bind_ok _ _ _ _ _ (krelease_acquired l m s i c H1 H2 H3 H4)). Qed.

Lemma locks_acquired_ne l l' i c m : l ≠ l' → locks (acquired l i c m) !! l' = locks m !! l'.
Proof. intros Hne. unfold acquired, set_lock; simpl. by rewrite lookup_insert_ne. Qed.

Lemma locks_acquired_eq l i c m : locks (acquired l i c m) !! l = Some (Spinlock 1 (Some i)).
Proof. unfold acquired, set_lock; simpl. by rewrite lookup_insert_eq. Qed.

End critical.

(** ** Sample states *)

Definition sample_sched : schedparams :=
  Schedparams ROUND_ROBIN
    (Bjfparams NORMAL (S754_zero false) 0 0 (S754_zero false) (S754_zero false)
       (S754_zero false) (S754_zero false)) 0.

(** A process table entry in state [st] with the given pid and parent. *)
Definition sample_proc (st : procstate) (pid : Z) (parent : option nat) : proc :=
  Proc 4096 8192 16384 st pid parent (Trapframe 0 0 0 0 0 0 0 0 0 0 0)
    (Context 0 0 0 0 A_forkret) A_trapret None 0 (replicate NOFILE None) None [] 0 sample_sched 0.

Definition sample_kstate (lk : prioritylock) (tab : list proc) : kstate unit :=
  Kstate (Machine [Cpu 0 1 0 0 (Some 0%nat) 0] 0 true ∅) tab 20 (Some 0%nat) 0 0 lk 0 [] tt.

Lemma sample_running lk p tab :
  running (sample_kstate lk (p :: tab)) 0 (Cpu 0 1 0 0 (Some 0%nat) 0) 0 p.
Proof. by split. Qed.

(** A full process table that starts with the entries of [l]. *)
Definition sample_table (l : list proc) : list proc :=
  l ++ replicate (NPROC - length l) (sample_proc UNUSED 0 None).
