(* ===== verification/PrioLock.v ===== *)
(** * The priority lock

    Models [prioritylock.c].  The waiting queue is the array [lockreq], kept in
    descending order of pid and padded with zeros; [inqueue] counts its entries.
    [abs_queue] is the abstract queue, and the operations on the array are proved
    to implement sorted insertion and removal of the head.  [plstep] is the
    interleaving of whole kernel routines ([enqueue], one turn of the waiting loop,
    [releasepriority]); [race] interleaves the unprotected stores of [enqueue].  The
    interleaving of single memory accesses is in [PrioConc.v]. *)

From S2P Require Import Prelude Spinlock State Printf.

(** ** The array operations *)

(** [while (lk->lockreq[pos] > pid) pos++;]  [None]: ran off the array. *)
Fixpoint scan_pos (l : list Z) (pid : Z) (pos : nat) : option nat :=
  match l with
  | [] => None
  | x :: l' => if pid <? x then scan_pos l' pid (pos + 1) else Some pos
  end.

(** [for (i = i0; n times; i--) lockreq[i] = lockreq[i - 1];] *)
Fixpoint shift_up (l : list Z) (i n : nat) : list Z :=
  match n with
  | 0%nat => l
  | S n' => shift_up (<[i := default 0 (l !! (i - 1)%nat)]> l) (i - 1) n'
  end.

(** [for (i = i0; n times; i++) lockreq[i] = lockreq[i + 1];] *)
Fixpoint shift_down (l : list Z) (i n : nat) : list Z :=
  match n with
  | 0%nat => l
  | S n' => shift_down (<[i := default 0 (l !! (i + 1)%nat)]> l) (i + 1) n'
  end.

(** [enqueue] in three parts: finding the position, moving the tail of the queue,
    and storing the pid and the new count. *)
Definition enqueue_scan (lk : prioritylock) (pid : Z) : option nat :=
  scan_pos (pl_lockreq lk) pid 0.

Definition enqueue_shift (lk : prioritylock) (pos : nat) : prioritylock :=
  let n := Z.to_nat (pl_inqueue lk) in
  set_pl_lockreq (shift_up (pl_lockreq lk) n (n - pos)) lk.

Definition enqueue_write (lk : prioritylock) (pid : Z) (pos : nat) : prioritylock :=
  set_pl_inqueue (pl_inqueue lk + 1) (set_pl_lockreq (<[pos := pid]> (pl_lockreq lk)) lk).

(** [enqueue]; [None] is an access outside the array. *)
Definition enqueue (lk : prioritylock) (pid : Z) : option prioritylock :=
  if pl_inqueue lk =? Z.of_nat NPROC then Some lk
  else pos ← enqueue_scan lk pid; Some (enqueue_write (enqueue_shift lk pos) pid pos).

(** [isprior] for the process [pid]: the result and the updated lock. *)
Definition isprior (lk : prioritylock) (pid : Z) : bool * prioritylock :=
  if (pl_inqueue lk =? 0) || negb (default 0 (pl_lockreq lk !! 0%nat) =? pid) then (false, lk)
  else
    let n := Z.to_nat (pl_inqueue lk) in
    let req := shift_down (pl_lockreq lk) 0 (n - 1) in
    (true, Prioritylock (pl_locked lk) (pl_inqueue lk - 1) (<[(n - 1)%nat := 0]> req) (pl_pid lk)).

(** [initprioritylock]: [memset(lk->lockreq, 0, NPROC)] clears [NPROC] bytes,
    that is the first [NPROC / 4] entries; [inqueue] is not written. *)
Definition initprioritylock (lk : prioritylock) : prioritylock :=
  Prioritylock 0 (pl_inqueue lk)
    (replicate (NPROC / 4) 0 ++ drop (NPROC / 4) (pl_lockreq lk)) 0.

(** ** The kernel routines *)

Section ops.
Context {X : Type}.

Definition mypid : K (kstate X) Z := i ← curproc; p ← get_proc i; mret (p_pid p).

(** One turn of the loop of [acquirepriority], [true] when it is left: the lock
    is then taken and the spin lock still held. *)
Definition acquirepriority_try : K (kstate X) bool :=
  acquire L_plock;;
  lk ← kgets k_plock;
  if pl_locked lk =? 1 then release L_plock;; mret false else
  pid ← mypid;
  let '(b, lk') := isprior lk pid in
  kmodify (set_k_plock lk');;
  if (b : bool) then mret true else release L_plock;; mret false.

(** The end of [acquirepriority], behind the loop. *)
Definition acquirepriority_take : K (kstate X) unit :=
  pid ← mypid;
  kmodify (λ s, set_k_plock (set_pl_pid pid (set_pl_locked 1 (k_plock s))) s);;
  release L_plock.

(** [while (1)] with at most [fuel] turns. *)
Fixpoint acquirepriority_loop (fuel : nat) : K (kstate X) unit :=
  match fuel with
  | 0%nat => knofuel
  | S fuel' =>
      b ← acquirepriority_try;
      if (b : bool) then acquirepriority_take else acquirepriority_loop fuel'
  end.

(** One turn of the loop, with what follows the loop when it is left; whether it was. *)
Definition acquirepriority_turn : K (kstate X) bool :=
  b ← acquirepriority_try;
  if (b : bool) then acquirepriority_take;; mret true else mret false.

Definition acquirepriority (fuel : nat) : K (kstate X) unit :=
  pid ← mypid;
  lk ← kgets k_plock;
  match enqueue lk pid with
  | None => kundef "lockreq index"
  | Some lk' => kmodify (set_k_plock lk');; acquirepriority_loop fuel
  end.

Definition releasepriority : K (kstate X) unit :=
  acquire L_plock;;
  kmodify (λ s, set_k_plock (set_pl_pid 0 (set_pl_locked 0 (k_plock s))) s);;
  release L_plock.

Definition isprioritylocked : K (kstate X) Z :=
  acquire L_plock;;
  r ← kgets (λ s, pl_locked (k_plock s));
  release L_plock;;
  mret r.

Definition isholdingpriority : K (kstate X) bool :=
  acquire L_plock;;
  lk ← kgets k_plock;
  pid ← mypid;
  release L_plock;;
  mret (negb (pl_locked lk =? 0) && (pl_pid lk =? pid)).

(** What [showlockqueue] prints: the pids of the queue between brackets. *)
Fixpoint show_entries (l : list Z) : option (list Z) :=
  match l with
  | [] => Some []
  | [x] => printint x 10 true
  | x :: l' => d ← printint x 10 true; r ← show_entries l'; Some (d ++ str ", " ++ r)
  end.

Definition showlockqueue : K (kstate X) unit :=
  acquire L_plock;;
  lk ← kgets k_plock;
  match show_entries (take (Z.to_nat (pl_inqueue lk)) (pl_lockreq lk)) with
  | None => kundef "printint"
  | Some txt => kmodify (λ s, set_k_out (k_out s ++ str "[" ++ txt ++ str "]" ++ [10]) s)
  end;;
  release L_plock.

End ops.

(** ** Abstract queue *)

(** The pids waiting, highest first. *)
Definition abs_queue (lk : prioritylock) : list Z :=
  take (Z.to_nat (pl_inqueue lk)) (pl_lockreq lk).

Fixpoint insert_desc (pid : Z) (q : list Z) : list Z :=
  match q with
  | [] => [pid]
  | x :: q' => if pid <? x then x :: insert_desc pid q' else pid :: q
  end.

(** The representation invariant of the array. *)
Record queue_wf (lk : prioritylock) : Prop := QueueWf {
  qwf_len : length (pl_lockreq lk) = NPROC;
  qwf_range : 0 ≤ pl_inqueue lk ≤ Z.of_nat NPROC;
  qwf_rep : pl_lockreq lk =
    abs_queue lk ++ replicate (NPROC - Z.to_nat (pl_inqueue lk)) 0;
  qwf_pos : Forall (λ x, 0 < x) (abs_queue lk);
  qwf_sorted : StronglySorted Z.ge (abs_queue lk)
}.

(** ** The array operations implement the abstract queue *)

Lemma length_shift_up l i n : length (shift_up l i n) = length l.
Proof. revert l i. induction n as [|n IH]; intros; simpl; [done|]. by rewrite IH, length_insert. Qed.

Lemma lookup_shift_up l i n j :
  (n ≤ i < length l)%nat →
  shift_up l i n !! j = if decide (i - n < j ≤ i)%nat then l !! (j - 1)%nat else l !! j.
Proof.
  revert l i. induction n as [|n IH]; intros l i Hi; simpl.
  - rewrite decide_False by lia. done.
  - rewrite IH by (rewrite length_insert; lia).
    destruct (decide (i - 1 - n < j ≤ i - 1)%nat) as [H1|H1].
    + rewrite decide_True by lia. by rewrite list_lookup_insert_ne by lia.
    + destruct (decide (j = i)) as [->|Hj].
      * rewrite decide_True by lia. rewrite list_lookup_insert_eq by lia.
        destruct (lookup_lt_is_Some_2 l (i - 1)) as [x Hx]; [lia|]. by rewrite Hx.
      * rewrite decide_False by lia. by rewrite list_lookup_insert_ne by lia.
Qed.

Lemma length_shift_down l i n : length (shift_down l i n) = length l.
Proof. revert l i. induction n as [|n IH]; intros; simpl; [done|]. by rewrite IH, length_insert. Qed.

Lemma lookup_shift_down l i n j :
  (i + n < length l)%nat →
  shift_down l i n !! j = if decide (i ≤ j < i + n)%nat then l !! (j + 1)%nat else l !! j.
Proof.
  revert l i. induction n as [|n IH]; intros l i Hi; simpl.
  - rewrite decide_False by lia. done.
  - rewrite IH by (rewrite length_insert; lia).
    destruct (decide (i + 1 ≤ j < i + 1 + n)%nat) as [H1|H1].
    + rewrite decide_True by lia. by rewrite list_lookup_insert_ne by lia.
    + destruct (decide (j = i)) as [->|Hj].
      * rewrite decide_True by lia. rewrite list_lookup_insert_eq by lia.
        destruct (lookup_lt_is_Some_2 l (i + 1)) as [x Hx]; [lia|]. by rewrite Hx.
      * rewrite decide_False by lia. by rewrite list_lookup_insert_ne by lia.
Qed.

(** The stores of [enqueue] put the pid at [pos] and move the tail of the queue
    one entry up, over the first padding zero. *)
Lemma enqueue_store_array (q : list Z) (k : nat) (pid : Z) (pos : nat) :
  (pos ≤ length q)%nat →
  <[pos := pid]> (shift_up (q ++ replicate (S k) 0) (length q) (length q - pos))
  = (take pos q ++ pid :: drop pos q) ++ replicate k 0.
Proof.
  intros Hp. set (l := q ++ replicate (S k) 0).
  assert (length l = length q + S k)%nat as Hlen by (unfold l; rewrite length_app, length_replicate; done).
  apply list_eq. intros j. destruct (decide (j = pos)) as [->|Hj].
  { rewrite list_lookup_insert_eq by (rewrite length_shift_up; lia).
    rewrite lookup_app_l by (rewrite length_app, length_take; simpl; lia).
    rewrite lookup_app_r by (rewrite length_take; lia).
    rewrite length_take. by replace (pos - pos `min` length q)%nat with 0%nat by lia. }
  rewrite list_lookup_insert_ne by done. rewrite lookup_shift_up by lia.
  destruct (decide (length q - (length q - pos) < j ≤ length q)%nat) as [H1|H1].
  - unfold l. rewrite lookup_app_l by lia.
    rewrite lookup_app_l by (rewrite length_app, length_take; simpl; rewrite length_drop; lia).
    rewrite lookup_app_r by (rewrite length_take; lia). rewrite length_take.
    destruct (j - pos `min` length q)%nat as [|m] eqn:Em; [lia|]. simpl.
    rewrite lookup_drop. f_equal. lia.
  - destruct (decide (j < pos)%nat) as [H2|H2].
    + unfold l. rewrite !lookup_app_l by (rewrite ?length_app, ?length_take; simpl; lia).
      by rewrite lookup_take_lt.
    + unfold l. rewrite !lookup_app_r by (rewrite ?length_app, ?length_take; simpl;
        rewrite ?length_drop; lia).
      rewrite length_app, length_take. simpl. rewrite length_drop.
      replace (j - length q)%nat with (S (j - length q - 1))%nat by lia.
      simpl. f_equal. lia.
Qed.

(** Removing the head moves the queue one entry down and clears the last. *)
Lemma isprior_array (x : Z) (q : list Z) (k : nat) :
  <[length q := 0]> (shift_down ((x :: q) ++ replicate k 0) 0 (length q))
  = q ++ replicate (S k) 0.
Proof.
  set (l := (x :: q) ++ replicate k 0).
  assert (length l = length q + k + 1)%nat as Hlen
    by (unfold l; rewrite length_app, length_replicate; simpl; lia).
  apply list_eq. intros j. destruct (decide (j = length q)) as [->|Hj].
  { rewrite list_lookup_insert_eq by (rewrite length_shift_down; lia).
    rewrite lookup_app_r by lia. by rewrite Nat.sub_diag. }
  rewrite list_lookup_insert_ne by done. rewrite lookup_shift_down by lia.
  unfold l. destruct (decide (0 ≤ j < 0 + length q)%nat) as [H1|H1].
  - rewrite !lookup_app_l by (simpl; lia). by rewrite Nat.add_1_r.
  - rewrite !lookup_app_r by (simpl; lia). simpl.
    replace (j - length q)%nat with (S (j - S (length q)))%nat by lia. done.
Qed.

Lemma scan_pos_spec (q : list Z) (k : nat) (pid : Z) (b : nat) :
  0 < pid → (0 < k)%nat →
  ∃ pos, scan_pos (q ++ replicate k 0) pid b = Some (b + pos)%nat
    ∧ (pos ≤ length q)%nat ∧ insert_desc pid q = take pos q ++ pid :: drop pos q.
Proof.
  intros Hpid Hk. revert b. induction q as [|x q IH]; intros b; simpl.
  - destruct k as [|k]; [lia|]. simpl. destruct (Z.ltb_spec pid 0); [lia|].
    exists 0%nat. rewrite Nat.add_0_r. done.
  - destruct (Z.ltb_spec pid x).
    + destruct (IH (b + 1)%nat) as (pos & -> & Hle & ->). exists (S pos).
      split; [f_equal; lia|]. split; [lia|done].
    + exists 0%nat. rewrite Nat.add_0_r. split; [done|]. split; [lia|done].
Qed.

Lemma insert_desc_perm pid q : insert_desc pid q ≡ₚ pid :: q.
Proof.
  induction q as [|x q IH]; simpl; [done|]. destruct (pid <? x); [|done].
  rewrite IH. apply Permutation_swap.
Qed.

Lemma length_insert_desc pid q : length (insert_desc pid q) = S (length q).
Proof. by rewrite (insert_desc_perm pid q). Qed.

Lemma insert_desc_sorted pid q :
  StronglySorted Z.ge q → StronglySorted Z.ge (insert_desc pid q).
Proof.
  induction 1 as [|x q Hs IH Hf]; simpl; [repeat constructor|].
  destruct (Z.ltb_spec pid x).
  - constructor; [done|]. rewrite insert_desc_perm. constructor; [lia|done].
  - constructor; [by constructor|]. constructor; [lia|].
    revert Hf. apply Forall_impl. intros y Hy. lia.
Qed.

Lemma length_abs_queue lk : queue_wf lk → length (abs_queue lk) = Z.to_nat (pl_inqueue lk).
Proof.
  intros [Hl Hr _ _ _]. unfold abs_queue. rewrite length_take, Hl. lia.
Qed.

Lemma queue_wf_intro locked n q pid :
  (length q ≤ NPROC)%nat → Forall (λ x, 0 < x) q → StronglySorted Z.ge q →
  n = Z.of_nat (length q) →
  queue_wf (Prioritylock locked n (q ++ replicate (NPROC - length q) 0) pid)
  ∧ abs_queue (Prioritylock locked n (q ++ replicate (NPROC - length q) 0) pid) = q.
Proof.
  intros Hl Hp Hs ->. set (lk := Prioritylock _ _ _ _).
  assert (abs_queue lk = q) as Ha.
  { unfold abs_queue, lk; simpl. rewrite Nat2Z.id. by rewrite take_app_length. }
  split; [|done]. split; rewrite ?Ha; unfold lk; simpl;
    [rewrite length_app, length_replicate; lia|lia| |done|done].
  by rewrite Nat2Z.id.
Qed.

Lemma enqueue_refines lk pid :
  queue_wf lk → 0 < pid → pl_inqueue lk < Z.of_nat NPROC →
  ∃ lk', enqueue lk pid = Some lk' ∧ queue_wf lk'
    ∧ abs_queue lk' = insert_desc pid (abs_queue lk)
    ∧ pl_locked lk' = pl_locked lk ∧ pl_pid lk' = pl_pid lk.
Proof.
  intros Hwf Hpid Hlt. pose proof (length_abs_queue lk Hwf) as Hlen.
  destruct Hwf as [_ Hr Hrep Hpos Hs]. set (q := abs_queue lk) in *.
  unfold enqueue, enqueue_scan. destruct (Z.eqb_spec (pl_inqueue lk) (Z.of_nat NPROC)); [lia|].
  rewrite Hrep.
  destruct (scan_pos_spec q (NPROC - Z.to_nat (pl_inqueue lk)) pid 0) as (pos & -> & Hle & Hins); [done|lia|].
  simpl. eexists; split; [done|]. unfold enqueue_write, enqueue_shift,
    set_pl_inqueue, set_pl_lockreq; simpl. rewrite <- Hlen, Hrep, <- Hlen.
  replace (NPROC - length q)%nat with (S (NPROC - length (insert_desc pid q)))%nat.
  2:{ rewrite length_insert_desc. lia. }
  rewrite enqueue_store_array by lia. rewrite <- Hins.
  destruct (queue_wf_intro (pl_locked lk) (pl_inqueue lk + 1) (insert_desc pid q) (pl_pid lk))
    as [Hwf Habs].
  - rewrite length_insert_desc. lia.
  - rewrite (insert_desc_perm pid q). by constructor.
  - by apply insert_desc_sorted.
  - rewrite length_insert_desc. lia.
  - split; [done|]. split; done.
Qed.

Lemma isprior_refines lk pid :
  queue_wf lk →
  isprior lk pid = (false, lk) ∧ head (abs_queue lk) ≠ Some pid
  ∨ ∃ lk', isprior lk pid = (true, lk') ∧ queue_wf lk'
      ∧ abs_queue lk = pid :: abs_queue lk'
      ∧ pl_locked lk' = pl_locked lk ∧ pl_pid lk' = pl_pid lk.
Proof.
  intros Hwf. pose proof (length_abs_queue lk Hwf) as Hlen. unfold isprior.
  destruct Hwf as [_ Hr Hrep Hpos Hs]. set (q := abs_queue lk) in *.
  destruct (Z.eqb_spec (pl_inqueue lk) 0) as [E|E]; simpl.
  { left. split; [done|]. rewrite E in Hlen. by destruct q. }
  destruct q as [|x q'] eqn:Eq; [simpl in Hlen; lia|].
  rewrite Hrep. simpl. destruct (Z.eqb_spec x pid) as [->|Hne]; simpl.
  2:{ left. split; [done|]. congruence. }
  right. eexists; split; [done|].
  assert (Z.to_nat (pl_inqueue lk) - 1 = length q')%nat as En by (simpl in Hlen; lia).
  rewrite En. change (pid :: q' ++ ?z) with ((pid :: q') ++ z). rewrite isprior_array.
  replace (S (NPROC - Z.to_nat (pl_inqueue lk)))%nat with (NPROC - length q')%nat
    by (simpl in Hlen; lia).
  apply Forall_cons_1 in Hpos as [_ Hpos]. inversion Hs as [|? ? Hs' _]; subst.
  destruct (queue_wf_intro (pl_locked lk) (pl_inqueue lk - 1) q' (pl_pid lk)) as [Hwf Habs].
  - simpl in Hlen. lia.
  - done.
  - done.
  - lia.
  - split; [done|]. rewrite Habs. done.
Qed.

(** ** Taking and giving back the lock *)

(** The effect of one turn of the loop of [acquirepriority] by process [pid] when
    it gets the lock. *)
Definition try_enter (lk : prioritylock) (pid : Z) : option prioritylock :=
  if pl_locked lk =? 1 then None
  else
    let '(b, lk') := isprior lk pid in
    if b then Some (set_pl_pid pid (set_pl_locked 1 lk')) else None.

Definition leave (lk : prioritylock) : prioritylock := set_pl_pid 0 (set_pl_locked 0 lk).

Lemma queue_wf_set lk a b : queue_wf lk → queue_wf (set_pl_pid a (set_pl_locked b lk)).
Proof. intros []. by apply QueueWf. Qed.

Lemma try_enter_spec lk pid :
  queue_wf lk → pl_locked lk = 0 →
  (try_enter lk pid = None ∧ head (abs_queue lk) ≠ Some pid)
  ∨ ∃ lk', try_enter lk pid = Some lk' ∧ queue_wf lk' ∧ abs_queue lk = pid :: abs_queue lk'
      ∧ pl_locked lk' = 1 ∧ pl_pid lk' = pid.
Proof.
  intros Hwf H0. unfold try_enter. rewrite H0. simpl.
  destruct (isprior_refines lk pid Hwf) as [[-> Hh]|(lk' & -> & Hwf' & Habs & _ & _)]; [by left|].
  right. eexists. split; [done|].
  split; [by apply queue_wf_set|done].
Qed.

Lemma try_enter_locked lk pid lk' : try_enter lk pid = Some lk' → pl_locked lk ≠ 1.
Proof. unfold try_enter. destruct (Z.eqb_spec (pl_locked lk) 1); done. Qed.

(** ** The unprotected stores of [enqueue] *)

(** Two CPUs run [enqueue] at the same time, each scanning before either has
    shifted, and shifting before either has stored. *)
Definition race (lk : prioritylock) (p1 p2 : Z) : option prioritylock :=
  pos1 ← enqueue_scan lk p1;
  pos2 ← enqueue_scan lk p2;
  let lk := enqueue_shift lk pos1 in
  let lk := enqueue_shift lk pos2 in
  let lk := enqueue_write lk p1 pos1 in
  Some (enqueue_write lk p2 pos2).

Lemma shift_up_no_new l i n x : x ≠ 0 → x ∉ l → x ∉ shift_up l i n.
Proof.
  intros Hx. revert l i. induction n as [|n IH]; intros l i Hn; simpl; [done|]. apply IH.
  intros [->|?]%elem_of_insert_inv; [|done].
  destruct (l !! (i - 1)%nat) eqn:E; [|done]. simpl in Hn. apply Hn. by eapply list_elem_of_lookup_2.
Qed.

Lemma shift_down_no_new l i n x : x ≠ 0 → x ∉ l → x ∉ shift_down l i n.
Proof.
  intros Hx. revert l i. induction n as [|n IH]; intros l i Hn; simpl; [done|]. apply IH.
  intros [->|?]%elem_of_insert_inv; [|done].
  destruct (l !! (i + 1)%nat) eqn:E; [|done]. simpl in Hn. apply Hn. by eapply list_elem_of_lookup_2.
Qed.

(** ** The kernel routines follow the abstract steps *)

Section kernel.
Context {X : Type}.
Implicit Types (s : kstate X).

Lemma mypid_ok s i c pi p :
  mach_at (k_mach s) i c → ncli c < 2 ^ 31 - 1 → cproc c = Some pi → k_ptable s !! pi = Some p →
  mypid s = Ok (p_pid p) (set_k_mach (settled i c (k_mach s)) s).
Proof.
  intros H Hb Hc Hp. unfold mypid. rewrite (bind_ok _ _ _ _ _ (curproc_ok s i c pi H Hb Hc)).
  rewrite (bind_ok _ _ _ p _ (get_proc_ok (set_k_mach _ s) pi p Hp)). done.
Qed.

Lemma mypid_in_cs l s0 s i c pi p :
  mach_at (k_mach s0) i c → ncli c < 2 ^ 31 - 8 → cproc c = Some pi →
  k_mach s = acquired l i c (k_mach s0) → k_ptable s !! pi = Some p →
  mypid s = Ok (p_pid p) s.
Proof.
  intros H Hb Hc Hm Hp. pose proof (mach_at_acquired _ _ _ l H) as H1. rewrite <- Hm in H1.
  assert (0 ≤ ncli c) by apply H.
  rewrite (mypid_ok s i _ pi p H1); [|rewrite ncli_push; lia|by rewrite cproc_push|done].
  rewrite (settled_busy _ _ _ H1) by (rewrite ncli_push; lia). by destruct s.
Qed.

Lemma acquirepriority_turn_ok s i c pi p :
  running s i c pi p → locks (k_mach s) !! L_plock = None →
  acquirepriority_turn s =
    match try_enter (k_plock s) (p_pid p) with
    | Some lk' => Ok true (set_k_plock lk' (set_k_mach (settled i c (k_mach s)) s))
    | None => Ok false (set_k_mach (settled i c (k_mach s)) s)
    end.
Proof.
  intros [H Hb Hc Hp] Hl. assert (0 ≤ ncli c) by apply H.
  unfold acquirepriority_turn, acquirepriority_try, acquirepriority_take, try_enter.
  set (s1 := set_k_mach (acquired L_plock i c (k_mach s)) s).
  assert (acquire L_plock s = Ok tt s1) as Ha.
  { apply kacquire_ok; [done|lia|done]. }
  assert (∀ lk, release L_plock (set_k_plock lk s1) =
            Ok tt (set_k_plock lk (set_k_mach (settled i c (k_mach s)) s))) as Hr.
  { intros lk. rewrite (krelease_acquired L_plock (k_mach s) _ i c); [done|done|lia|done|done]. }
  assert (set_k_plock (k_plock s) s1 = s1) as Hid by (by destruct s).
  assert (mypid s1 = Ok (p_pid p) s1) as Hpid by (eapply mypid_in_cs; done).
  assert (∀ lk, mypid (set_k_plock lk s1) = Ok (p_pid p) (set_k_plock lk s1)) as Hpid'
    by (intros lk; eapply mypid_in_cs; done).
  specialize (Hr (k_plock s)) as Hr0. rewrite Hid in Hr0.
  replace (set_k_plock (k_plock s) (set_k_mach (settled i c (k_mach s)) s))
    with (set_k_mach (settled i c (k_mach s)) s) in Hr0 by (by destruct s).
  unfold mbind, K_bind, kgets, mret, K_ret, kmodify. rewrite Ha. simpl.
  destruct (pl_locked (k_plock s) =? 1) eqn:E1.
  { rewrite Hr0. done. }
  rewrite Hpid. simpl. unfold isprior. destruct (_ || _) eqn:E2; simpl.
  { rewrite Hid, Hr0. simpl. done. }
  rewrite Hpid'. simpl. match goal with |- context [release L_plock ?x] =>
    replace (release L_plock x) with (Ok tt (set_k_plock (k_plock x) (set_k_mach (settled i c (k_mach s)) s))) end; [done|].
  symmetry. apply Hr.
Qed.

Lemma acquirepriority_loop_turn s i c pi p fuel :
  running s i c pi p → locks (k_mach s) !! L_plock = None →
  acquirepriority_loop (Datatypes.S fuel) s =
    match try_enter (k_plock s) (p_pid p) with
    | Some lk' => Ok tt (set_k_plock lk' (set_k_mach (settled i c (k_mach s)) s))
    | None => acquirepriority_loop fuel (set_k_mach (settled i c (k_mach s)) s)
    end.
Proof.
  intros Hr Hl. pose proof (acquirepriority_turn_ok s i c pi p Hr Hl) as E.
  unfold acquirepriority_turn in E. cbn [acquirepriority_loop]. unfold mbind, K_bind in *.
  unfold mret, K_ret in E. destruct (acquirepriority_try s) as [[] s1| | | | |]; simpl in E |- *.
  1: destruct (acquirepriority_take s1) as [[] s2| | | | |]; simpl in E |- *.
  all: by destruct (try_enter _ _); simplify_eq.
Qed.

Lemma releasepriority_ok s i c pi p :
  running s i c pi p → locks (k_mach s) !! L_plock = None →
  releasepriority s = Ok tt (set_k_plock (leave (k_plock s)) (set_k_mach (settled i c (k_mach s)) s)).
Proof.
  intros [H Hb Hc Hp] Hl. assert (0 ≤ ncli c) by apply H. unfold releasepriority.
  rewrite (bind_ok _ _ _ _ _ (kacquire_ok L_plock s i c H ltac:(lia) Hl)).
  unfold mbind, K_bind, kmodify. cbn [rbind]. by rewrite (krelease_acquired L_plock (k_mach s) _ i c) by (done || lia).
Qed.


(** While the lock is held by another process the loop makes no progress. *)
Lemma acquirepriority_spins s i c pi p fuel :
  running s i c pi p → locks (k_mach s) !! L_plock = None → pl_locked (k_plock s) = 1 →
  acquirepriority_loop fuel s = NoFuel.
Proof.
  revert s c. induction fuel as [|fuel IH]; intros s c Hr Hl H1; [done|].
  rewrite (acquirepriority_loop_turn s i c pi p fuel Hr Hl). unfold try_enter. rewrite H1. simpl.
  apply IH with (settle (eflags_if (k_mach s)) c); [|done|done].
  destruct Hr as [Hat Hb Hc Hp]. split; [by apply mach_at_settled|..|done];
    unfold settle; by destruct (ncli c =? 0).
Qed.

End kernel.

(** ** Interleaving of the callers *)

(** The lock, the processes in the loop of [acquirepriority], and those between
    [acquirepriority] and [releasepriority]. *)
Record plstate := Plstate { ps_lk : prioritylock; ps_waiting : list Z; ps_inside : list Z }.

(** Process [pid], running on some CPU while the spin lock is free, runs the routine
    [m] on the lock. *)
Definition runs {A} (pid : Z) (m : K (kstate unit) A) (lk : prioritylock) (a : A) (lk' : prioritylock) : Prop :=
  ∃ s s' i c pi p, running s i c pi p ∧ p_pid p = pid ∧ locks (k_mach s) !! L_plock = None ∧
    k_plock s = lk ∧ m s = Ok a s' ∧ k_plock s' = lk'.

Inductive plstep : plstate → plstate → Prop :=
| pl_request lk lk' pid W C :
    0 < pid → pid ∉ W → pid ∉ C → (length W + length C < NPROC)%nat →
    enqueue lk pid = Some lk' →
    plstep (Plstate lk W C) (Plstate lk' (pid :: W) C)
| pl_retry lk lk' pid W C :
    pid ∈ W → runs pid acquirepriority_turn lk false lk' →
    plstep (Plstate lk W C) (Plstate lk' W C)
| pl_enter lk lk' pid W1 W2 C :
    runs pid acquirepriority_turn lk true lk' →
    plstep (Plstate lk (W1 ++ pid :: W2) C) (Plstate lk' (W1 ++ W2) (pid :: C))
| pl_leave lk lk' pid W C1 C2 :
    runs pid releasepriority lk tt lk' →
    plstep (Plstate lk W (C1 ++ pid :: C2)) (Plstate lk' W (C1 ++ C2)).

Definition pl_init : plstate :=
  Plstate (initprioritylock (Prioritylock 0 0 (replicate NPROC 0) 0)) [] [].

Record plinv (st : plstate) : Prop := Plinv {
  pi_wf : queue_wf (ps_lk st);
  pi_queue : abs_queue (ps_lk st) ≡ₚ ps_waiting st;
  pi_lock : (pl_locked (ps_lk st) = 0 ∧ ps_inside st = [])
            ∨ (pl_locked (ps_lk st) = 1 ∧ ps_inside st = [pl_pid (ps_lk st)])
}.

Lemma runs_turn pid lk b lk' :
  runs pid acquirepriority_turn lk b lk' →
  (b = true ∧ try_enter lk pid = Some lk') ∨ (b = false ∧ try_enter lk pid = None ∧ lk' = lk).
Proof.
  intros (s & s' & i & c & pi & p & Hr & <- & Hl & <- & Hm & <-). rewrite (acquirepriority_turn_ok s i c pi p Hr Hl) in Hm.
  destruct (try_enter (k_plock s) (p_pid p)) as [lk1|]; injection Hm as <- <-; [by left|by right].
Qed.

Lemma runs_leave pid lk lk' : runs pid releasepriority lk tt lk' → lk' = leave lk.
Proof.
  intros (s & s' & i & c & pi & p & Hr & <- & Hl & <- & Hm & <-). rewrite (releasepriority_ok s i c pi p Hr Hl) in Hm.
  by injection Hm as <-.
Qed.

Lemma pl_init_inv : plinv pl_init.
Proof.
  split; [split| |]; simpl; try done; try (by left); apply SSorted_nil.
Qed.

Lemma plstep_inv st st' : plstep st st' → plinv st → plinv st'.
Proof.
  destruct 1 as [lk lk' pid W C Hpid HW HC Hlen He|lk lk' pid W C HW Ht|lk lk' pid W1 W2 C Ht|lk lk' pid W C1 C2 Ht];
    intros [Hwf Hq Hl]; simpl in *.
  - destruct (enqueue_refines lk pid) as (lk1 & He1 & Hwf1 & Habs & Hlk & Hp); [done|done| |].
    { pose proof (length_abs_queue lk Hwf) as Hn. rewrite Hq in Hn. lia. }
    simplify_eq. split; simpl; [done| |by rewrite Hlk, Hp].
    by rewrite Habs, insert_desc_perm, Hq.
  - by apply runs_turn in Ht as [[??]|(_ & _ & ->)].
  - apply runs_turn in Ht as [[_ Ht]|[??]]; [|done]. pose proof (try_enter_locked _ _ _ Ht) as Hn1.
    destruct Hl as [[Hl ->]|[Hl _]]; [|done].
    destruct (try_enter_spec lk pid Hwf Hl) as [[? _]|(lk1 & Ht1 & Hwf1 & Habs & Hlk & Hp)];
      [congruence|]. simplify_eq. split; simpl; [done| |right; split; congruence].
    eapply Permutation_cons_inv. by rewrite <- Habs, Hq, Permutation_middle.
  - apply runs_leave in Ht as ->. destruct Hl as [[_ H]|[Hl H]]; [by destruct C1|].
    destruct C1 as [|c [|c' C1]]; simplify_eq/=.
    split; simpl; [by apply queue_wf_set|done|by left].
Qed.

Lemma pl_reachable_inv st : rtc plstep pl_init st → plinv st.
Proof.
  intros H. assert (plinv pl_init) as Hi by apply pl_init_inv. revert Hi.
  induction H as [|x y z Hs _ IH]; [done|]. intros Hx. by eapply IH, plstep_inv.
Qed.

(** Steps that processes other than [p] take on the lock. *)
Inductive other_step (p : Z) : prioritylock → prioritylock → Prop :=
| other_enqueue q lk lk' : q ≠ p → enqueue lk q = Some lk' → other_step p lk lk'
| other_enter q lk lk' : q ≠ p → try_enter lk q = Some lk' → other_step p lk lk'
| other_leave lk : other_step p lk (leave lk).

Lemma other_step_no_new p lk lk' :
  p ≠ 0 → other_step p lk lk' → p ∉ pl_lockreq lk → p ∉ pl_lockreq lk'.
Proof.
  intros Hp. destruct 1 as [q lk lk' Hq He|q lk lk' Hq Ht|lk]; intros Hn.
  - unfold enqueue in He. destruct (_ =? _); [by simplify_eq|].
    destruct (enqueue_scan lk q) as [pos|]; simpl in He; [|done]. simplify_eq/=.
    intros [->|H]%elem_of_insert_inv; [done|]. by apply (shift_up_no_new _ _ _ p Hp) in H.
  - unfold try_enter, isprior in Ht. destruct (_ =? 1); [done|].
    destruct (_ || _); [done|]. simplify_eq/=.
    intros [->|H]%elem_of_insert_inv; [done|]. by apply (shift_down_no_new _ _ _ p Hp) in H.
  - done.
Qed.

Lemma try_enter_absent p lk : p ≠ 0 → p ∉ pl_lockreq lk → try_enter lk p = None.
Proof.
  intros Hp Hn. unfold try_enter, isprior. destruct (_ =? 1); [done|].
  destruct (_ =? 0); [done|]. simpl. destruct (Z.eqb_spec (default 0 (pl_lockreq lk !! 0%nat)) p) as [E|];
    [|done]. destruct (pl_lockreq lk !! 0%nat) eqn:El; simpl in E; [|congruence].
  subst. destruct Hn. by eapply list_elem_of_lookup_2.
Qed.

(** ** Properties *)

(** C5: the array operations implement a priority queue.  On a well-formed
    lock, [enqueue] performs no access outside [lockreq] and inserts the pid at
    its place in descending order; [isprior] answers whether the pid is at the
    head and if so removes exactly it; both keep the array well formed. *)
Theorem priority_queue_refines (lk : prioritylock) (pid : Z) :
  queue_wf lk → 0 < pid → pl_inqueue lk < Z.of_nat NPROC →
  (∃ lk', enqueue lk pid = Some lk' ∧ queue_wf lk'
     ∧ abs_queue lk' = insert_desc pid (abs_queue lk)
     ∧ StronglySorted Z.ge (abs_queue lk') ∧ abs_queue lk' ≡ₚ pid :: abs_queue lk)
  ∧ (∃ lk', isprior lk pid = (bool_decide (head (abs_queue lk) = Some pid), lk') ∧ queue_wf lk'
     ∧ abs_queue lk' = if decide (head (abs_queue lk) = Some pid)
                       then tail (abs_queue lk) else abs_queue lk).
Proof.
  intros Hwf Hpid Hlt. split.
  - destruct (enqueue_refines lk pid Hwf Hpid Hlt) as (lk' & He & Hwf' & Habs & _ & _).
    exists lk'. split; [done|]. split; [done|]. split; [done|]. split; [apply Hwf'|].
    by rewrite Habs, insert_desc_perm.
  - destruct (isprior_refines lk pid Hwf) as [[-> Hh]|(lk' & -> & Hwf' & Habs & _ & _)].
    + exists lk. by rewrite bool_decide_false, decide_False by done.
    + exists lk'. rewrite Habs. simpl. by rewrite bool_decide_true, decide_True by done.
Qed.

Definition sample_lock : prioritylock :=
  Prioritylock 0 2 ([9; 4] ++ replicate 62 0) 0.

Lemma sample_lock_wf : queue_wf sample_lock.
Proof.
  apply (queue_wf_intro 0 2 [9; 4] 0); [unfold NPROC; simpl; lia| | |done];
    repeat constructor; lia.
Qed.

Lemma priority_queue_refines_witness :
  ∃ lk', enqueue sample_lock 6 = Some lk' ∧ abs_queue lk' = [9; 6; 4].
Proof.
  destruct (priority_queue_refines sample_lock 6) as [(lk' & He & _ & Ha & _) _].
  - exact sample_lock_wf.
  - lia.
  - reflexivity.
  - exists lk'. split; [exact He|]. rewrite Ha. reflexivity.
Defined.

(** [acquirepriority] as the kernel runs it.  Called by process [p] with a
    well-formed queue and no CPU holding the inner spin lock: if the lock is
    free and every waiting pid is smaller, the first turn takes it and the queue
    is as before; if the lock is held, the call busy-waits through any number of
    turns. *)
Theorem acquirepriority_outcome {X : Type} (s : kstate X) (i : nat) (c : cpu) (pi : nat) (p : proc) :
  running s i c pi p → locks (k_mach s) !! L_plock = None →
  queue_wf (k_plock s) → pl_inqueue (k_plock s) < Z.of_nat NPROC → 0 < p_pid p →
  (pl_locked (k_plock s) = 0 → Forall (λ q, q < p_pid p) (abs_queue (k_plock s)) →
     ∀ fuel, ∃ s', acquirepriority (Datatypes.S fuel) s = Ok tt s'
       ∧ pl_locked (k_plock s') = 1 ∧ pl_pid (k_plock s') = p_pid p
       ∧ abs_queue (k_plock s') = abs_queue (k_plock s)
       ∧ locks (k_mach s') = locks (k_mach s))
  ∧ (pl_locked (k_plock s) = 1 → ∀ fuel, acquirepriority fuel s = NoFuel).
Proof.
  intros Hr Hl Hwf Hlt Hpid.
  destruct (enqueue_refines _ _ Hwf Hpid Hlt) as (lk1 & He & Hwf1 & Habs & Hlk & _).
  destruct Hr as [Hat Hb Hc Hp].
  set (s1 := set_k_plock lk1 (set_k_mach (settled i c (k_mach s)) s)).
  assert (∀ fuel, acquirepriority fuel s = acquirepriority_loop fuel s1) as Hacq.
  { intros fuel. unfold acquirepriority.
    rewrite (bind_ok _ _ _ _ _ (mypid_ok s i c pi p Hat ltac:(lia) Hc Hp)).
    krun. rewrite He. done. }
  assert (mach_at (k_mach s1) i (settle (eflags_if (k_mach s)) c)) as Hat1
    by (by apply mach_at_settled).
  assert (ncli (settle (eflags_if (k_mach s)) c) = ncli c
          ∧ cproc (settle (eflags_if (k_mach s)) c) = Some pi) as [Hn1 Hp1]
    by (unfold settle; by destruct (ncli c =? 0)).
  split.
  - intros H0 Hall fuel. rewrite Hacq.
    rewrite (acquirepriority_loop_turn s1 i (settle (eflags_if (k_mach s)) c) pi p fuel); [|split; [done|lia|done|done]|done].
    assert (insert_desc (p_pid p) (abs_queue (k_plock s)) = p_pid p :: abs_queue (k_plock s)) as Hins.
    { destruct (abs_queue (k_plock s)) as [|q l] eqn:Eq; [done|]. simpl.
      apply Forall_cons_1 in Hall as [Hq _]. destruct (Z.ltb_spec (p_pid p) q); [lia|done]. }
    destruct (try_enter_spec lk1 (p_pid p) Hwf1) as [[_ Hh]|(lk2 & Ht & _ & Ha & Hl2 & Hp2)].
    + congruence.
    + by rewrite Habs, Hins in Hh.
    + change (k_plock s1) with lk1. rewrite Ht. eexists. split; [done|].
      rewrite Habs, Hins in Ha. injection Ha as Ha'.
      split; [done|]. split; [done|]. split; [by symmetry|done].
  - intros H1 fuel. rewrite Hacq.
    apply (acquirepriority_spins s1 i (settle (eflags_if (k_mach s)) c) pi p fuel);
      [split; [done|lia|done|done]|done|]. by change (pl_locked lk1 = 1); rewrite Hlk.
Qed.

Lemma acquirepriority_outcome_witness :
  ∃ s', acquirepriority 1 (sample_kstate sample_lock [sample_proc RUNNING 12 None]) = Ok tt s'
    ∧ pl_pid (k_plock s') = 12 ∧ abs_queue (k_plock s') = [9; 4].
Proof.
  destruct (acquirepriority_outcome (sample_kstate sample_lock [sample_proc RUNNING 12 None])
              0 _ 0 _ (sample_running _ _ _)) as [H _].
  - reflexivity.
  - exact sample_lock_wf.
  - reflexivity.
  - reflexivity.
  - destruct (H eq_refl) with (fuel := 0%nat) as (s' & Ha & _ & Hp & Hq & _).
    + repeat constructor.
    + exists s'. split; [exact Ha|]. split; [exact Hp|exact Hq].
Defined.

(** C37: [acquirepriority] calls [enqueue] without holding the lock's spin lock,
    and that loses requests.  When two CPUs run [enqueue] on an empty queue at
    the same time (scans, then shifts, then stores), the count becomes 2 but the
    first pid is in no entry; whatever other processes then do on the lock, no
    turn of the first process's loop ever succeeds. *)
Theorem enqueue_race_loses_request (lk : prioritylock) (p1 p2 : Z) :
  queue_wf lk → abs_queue lk = [] → 0 < p1 → 0 < p2 → p1 ≠ p2 →
  ∃ lk', race lk p1 p2 = Some lk' ∧ pl_inqueue lk' = 2 ∧ abs_queue lk' = [p2; 0]
    ∧ ∀ lk'', rtc (other_step p1) lk' lk'' → try_enter lk'' p1 = None.
Proof.
  intros Hwf Hq H1 H2 Hne. pose proof (length_abs_queue lk Hwf) as Hn. rewrite Hq in Hn.
  destruct Hwf as [_ Hr Hrep _ _]. rewrite Hq in Hrep. simpl in Hn.
  rewrite <- Hn in Hrep. assert (pl_inqueue lk = 0) as H0 by lia.
  unfold race, enqueue_scan, enqueue_shift, enqueue_write. rewrite Hrep, H0. simpl.
  destruct (Z.ltb_spec p1 0); [lia|]. destruct (Z.ltb_spec p2 0); [lia|]. simpl.
  destruct lk as [lo n req pd]; simpl in *; subst n.
  eexists. split; [done|]. split; [done|]. split; [done|].
  intros lk''. set (lk' := set_pl_inqueue _ _). intros Hs.
  apply try_enter_absent; [lia|].
  assert (p1 ∉ pl_lockreq lk') as Hn'.
  { unfold lk'; simpl. rewrite !not_elem_of_cons. repeat split; try lia. apply not_elem_of_nil. }
  clearbody lk'. induction Hs as [|x y z Hxy _ IH]; [done|]. apply IH.
  by eapply other_step_no_new; [lia|..].
Qed.

Lemma enqueue_race_loses_request_witness :
  ∃ lk', race (ps_lk pl_init) 5 3 = Some lk' ∧ abs_queue lk' = [3; 0].
Proof.
  destruct (enqueue_race_loses_request (ps_lk pl_init) 5 3) as (lk' & Hr & _ & Ha & _);
    [apply pl_init_inv|reflexivity|lia|lia|lia|].
  exists lk'. split; [exact Hr|exact Ha].
Defined.
