(* ===== verification/PrioConc.v ===== *)
(** * The priority lock under interleaving

    [prioritylock.c] once more, access by access.  [acquirepriority] calls
    [enqueue] without the spin lock of the priority lock, so that the loads and stores
    of one process can fall between those of any other.  [code] is a sequence of such
    accesses, with one definition per function of the source; [astep] lets any process
    make its next access.  The codes are proved to do, when they run without
    interruption, what the functions of [PrioLock.v] do. *)

From S2P Require Import Prelude Spinlock State PrioLock.

(** ** Accesses *)

(** The fields of [struct prioritylock] the functions share. *)
Inductive cell := C_locked | C_inqueue | C_pid | C_lockreq (i : Z).

(** [None] is an access outside the array. *)
Definition load (c : cell) (lk : prioritylock) : option Z :=
  match c with
  | C_locked => Some (pl_locked lk)
  | C_inqueue => Some (pl_inqueue lk)
  | C_pid => Some (pl_pid lk)
  | C_lockreq i => if 0 <=? i then pl_lockreq lk !! Z.to_nat i else None
  end.

Definition store (c : cell) (v : Z) (lk : prioritylock) : option prioritylock :=
  match c with
  | C_locked => Some (set_pl_locked v lk)
  | C_inqueue => Some (set_pl_inqueue v lk)
  | C_pid => Some (set_pl_pid v lk)
  | C_lockreq i =>
      if (0 <=? i) && (i <? Z.of_nat (length (pl_lockreq lk)))
      then Some (set_pl_lockreq (<[Z.to_nat i := v]> (pl_lockreq lk)) lk) else None
  end.

(** What a process goes on to do.  [Acquire] and [Release] are those of the spin lock
    [lk->lk]; [Critical] is the time between the return of [acquirepriority] and the
    call of [releasepriority]; [Fault] is an access outside the array; [Spinning] is a
    loop that has made all the turns it was given. *)
Inductive code :=
| Done
| Fault
| Spinning
| Load (c : cell) (k : Z → code)
| Store (c : cell) (v : Z) (k : code)
| Acquire (k : code)
| Release (k : code)
| Critical (k : code).

(** [while (lk->lockreq[pos] > pid) pos++;] with [n] entries left in the array. *)
Fixpoint scan_code (n : nat) (pos : nat) (pid : Z) (k : nat → code) : code :=
  match n with
  | O => Fault
  | S n' => Load (C_lockreq (Z.of_nat pos)) (λ x, if pid <? x then scan_code n' (S pos) pid k else k pos)
  end.

(** [for (; i > pos; i--) lk->lockreq[i] = lk->lockreq[i - 1];] *)
Fixpoint shift_up_code (i pos : nat) (k : code) : code :=
  match i with
  | O => k
  | S i' =>
      if (pos <? i)%nat then
        Load (C_lockreq (Z.of_nat i')) (λ x, Store (C_lockreq (Z.of_nat i)) x (shift_up_code i' pos k))
      else k
  end.

Definition enqueue_code (pid : Z) (k : code) : code :=
  Load C_inqueue (λ n,
    if n =? Z.of_nat NPROC then k
    else
      scan_code NPROC 0 pid (λ pos,
        Load C_inqueue (λ i,
          shift_up_code (Z.to_nat i) pos
            (Store (C_lockreq (Z.of_nat pos)) pid
              (Load C_inqueue (λ n, Store C_inqueue (n + 1) k)))))).

(** [for (; i < lk->inqueue - 1; i++) lk->lockreq[i] = lk->lockreq[i + 1];] with [n]
    entries left in the array. *)
Fixpoint shift_down_code (n i : nat) (k : code) : code :=
  match n with
  | O => Fault
  | S n' =>
      Load C_inqueue (λ m,
        if Z.of_nat i <? m - 1 then
          Load (C_lockreq (Z.of_nat i + 1)) (λ x, Store (C_lockreq (Z.of_nat i)) x (shift_down_code n' (S i) k))
        else k)
  end.

Definition isprior_code (pid : Z) (k : bool → code) : code :=
  Load C_inqueue (λ n,
    if n =? 0 then k false
    else
      Load (C_lockreq 0) (λ x,
        if negb (x =? pid) then k false
        else
          shift_down_code NPROC 0
            (Load C_inqueue (λ n, Store (C_lockreq (n - 1)) 0
              (Load C_inqueue (λ n, Store C_inqueue (n - 1) (k true))))))).

(** One turn of the loop of [acquirepriority]: [again] is the next turn, [k] what
    follows the call. *)
Definition turn_code (pid : Z) (again k : code) : code :=
  Acquire (Load C_locked (λ l,
    if l =? 1 then Release again
    else
      isprior_code pid (λ b : bool,
        if b then Store C_locked 1 (Store C_pid pid (Release k)) else Release again))).

Fixpoint waiting_code (fuel : nat) (pid : Z) (k : code) : code :=
  match fuel with
  | O => Spinning
  | S fuel' => turn_code pid (waiting_code fuel' pid k) k
  end.

Definition acquirepriority_code (fuel : nat) (pid : Z) (k : code) : code :=
  enqueue_code pid (waiting_code fuel pid k).

Definition releasepriority_code (k : code) : code :=
  Acquire (Store C_locked 0 (Store C_pid 0 (Release k))).

(** A process that takes and gives back the lock once for every element of [fuels],
    which bounds the turns of that call. *)
Fixpoint user (pid : Z) (fuels : list nat) : code :=
  match fuels with
  | [] => Done
  | fuel :: fuels' => acquirepriority_code fuel pid (Critical (releasepriority_code (user pid fuels')))
  end.

(** ** Interleaving *)

(** The lock, the holder of its spin lock, and the processes: the pid and the code. *)
Record config := Config { a_lk : prioritylock; a_spin : option nat; a_procs : list (Z * code) }.

(** The next access of process [i]; [None] when it has none or waits for the spin lock. *)
Definition access (i : nat) (lk : prioritylock) (spin : option nat) (m : code) :
    option (prioritylock * option nat * code) :=
  match m with
  | Done | Fault | Spinning => None
  | Load c k => Some (lk, spin, match load c lk with Some v => k v | None => Fault end)
  | Store c v k =>
      Some (match store c v lk with Some lk' => (lk', spin, k) | None => (lk, spin, Fault) end)
  | Acquire k => match spin with None => Some (lk, Some i, k) | Some _ => None end
  | Release k => Some (if decide (spin = Some i) then (lk, None, k) else (lk, spin, Fault))
  | Critical k => Some (lk, spin, k)
  end.

Inductive astep : config → config → Prop :=
| astep_access i lk spin procs pid m lk' spin' m' :
    procs !! i = Some (pid, m) → access i lk spin m = Some (lk', spin', m') →
    astep (Config lk spin procs) (Config lk' spin' (<[i := (pid, m')]> procs)).

(** Any processes, about to use a lock that is free; the queue may hold anything. *)
Definition start (lk : prioritylock) (users : list (Z * list nat)) : config :=
  Config lk None (map (λ '(pid, fuels), (pid, user pid fuels)) users).

Definition inside (cf : config) (i : nat) (pid : Z) : Prop :=
  ∃ k, a_procs cf !! i = Some (pid, Critical k).

(** ** Alone, a code does what the function does *)

(** A code run to its end without interruption. *)
Fixpoint alone (m : code) (lk : prioritylock) : option prioritylock :=
  match m with
  | Done => Some lk
  | Fault | Spinning => None
  | Load c k => match load c lk with Some v => alone (k v) lk | None => None end
  | Store c v k => match store c v lk with Some lk' => alone k lk' | None => None end
  | Acquire k | Release k | Critical k => alone k lk
  end.

Lemma load_req i lk : load (C_lockreq (Z.of_nat i)) lk = pl_lockreq lk !! i.
Proof. simpl. by rewrite (proj2 (Z.leb_le _ _)), Nat2Z.id by lia. Qed.

Lemma store_req i v lk :
  (i < length (pl_lockreq lk))%nat →
  store (C_lockreq (Z.of_nat i)) v lk = Some (set_pl_lockreq (<[i := v]> (pl_lockreq lk)) lk).
Proof.
  intros Hi. unfold store. rewrite (proj2 (Z.leb_le _ _)), (proj2 (Z.ltb_lt _ _)) by lia. by rewrite Nat2Z.id.
Qed.

Lemma alone_scan lk pid k n pos :
  (pos + n = length (pl_lockreq lk))%nat →
  alone (scan_code n pos pid k) lk =
  match scan_pos (drop pos (pl_lockreq lk)) pid pos with Some p => alone (k p) lk | None => None end.
Proof.
  revert pos. induction n as [|n IH]; intros pos Hn; cbn [scan_code alone].
  - by rewrite drop_ge by lia.
  - rewrite load_req. destruct (lookup_lt_is_Some_2 (pl_lockreq lk) pos) as [x Hx]; [lia|].
    rewrite Hx, (drop_S _ x) by done. cbn [scan_pos]. rewrite Nat.add_1_r.
    destruct (pid <? x); [|done]. apply IH. lia.
Qed.

Lemma alone_shift_up lk pos k i :
  (i < length (pl_lockreq lk))%nat →
  alone (shift_up_code i pos k) lk = alone k (set_pl_lockreq (shift_up (pl_lockreq lk) i (i - pos)) lk).
Proof.
  revert lk. induction i as [|i IH]; intros lk Hi; cbn [shift_up_code].
  - simpl. by destruct lk.
  - destruct (Nat.ltb_spec pos (S i)).
    + replace (S i - pos)%nat with (S (i - pos)) by lia. cbn [alone shift_up]. rewrite load_req.
      destruct (lookup_lt_is_Some_2 (pl_lockreq lk) i) as [x Hx]; [lia|].
      rewrite Hx, store_req, IH by (simpl; rewrite ?length_insert; lia). simpl. by rewrite Nat.sub_0_r, Hx.
    + replace (S i - pos)%nat with 0%nat by lia. by destruct lk.
Qed.

Lemma alone_shift_down lk k n i :
  length (pl_lockreq lk) = NPROC → 0 < pl_inqueue lk <= Z.of_nat NPROC → (i + n = NPROC)%nat →
  (Z.of_nat i < pl_inqueue lk) →
  alone (shift_down_code n i k) lk =
  alone k (set_pl_lockreq (shift_down (pl_lockreq lk) i (Z.to_nat (pl_inqueue lk) - 1 - i)) lk).
Proof.
  revert lk i. induction n as [|n IH]; intros lk i Hl Hq Hn Hi; [lia|]. cbn [shift_down_code alone load].
  destruct (Z.ltb_spec (Z.of_nat i) (pl_inqueue lk - 1)).
  - replace (Z.to_nat (pl_inqueue lk) - 1 - i)%nat with (S (Z.to_nat (pl_inqueue lk) - 1 - S i)) by lia.
    cbn [alone shift_down]. replace (Z.of_nat i + 1) with (Z.of_nat (S i)) by lia. rewrite load_req.
    destruct (lookup_lt_is_Some_2 (pl_lockreq lk) (S i)) as [x Hx]; [lia|].
    rewrite Hx, store_req by lia. rewrite IH by (simpl; rewrite ?length_insert; lia). simpl.
    by rewrite Nat.add_1_r, Hx.
  - replace (Z.to_nat (pl_inqueue lk) - 1 - i)%nat with 0%nat by lia. by destruct lk.
Qed.

Lemma scan_pos_lt l pid b p : scan_pos l pid b = Some p → (b <= p < b + length l)%nat.
Proof.
  revert b. induction l as [|x l IH]; intros b; simpl; [done|]. destruct (pid <? x); [|intros [= <-]; lia].
  intros H%IH. lia.
Qed.

Lemma enqueue_alone lk pid k :
  queue_wf lk →
  alone (enqueue_code pid k) lk = match enqueue lk pid with Some lk' => alone k lk' | None => None end.
Proof.
  intros [Hl Hr _ _ _]. unfold enqueue_code, enqueue, enqueue_scan. cbn [alone load].
  destruct (Z.eqb_spec (pl_inqueue lk) (Z.of_nat NPROC)); [done|].
  rewrite alone_scan by (by rewrite Hl). rewrite drop_0.
  destruct (scan_pos (pl_lockreq lk) pid 0) as [pos|] eqn:E; simpl; [|done]. apply scan_pos_lt in E.
  rewrite alone_shift_up by lia. cbn [alone].
  rewrite store_req by (simpl; rewrite length_shift_up; lia). done.
Qed.

Lemma isprior_alone lk pid k :
  queue_wf lk → alone (isprior_code pid k) lk = alone (k (isprior lk pid).1) (isprior lk pid).2.
Proof.
  intros [Hl Hr _ _ _]. unfold isprior_code, isprior. cbn [alone load].
  destruct (Z.eqb_spec (pl_inqueue lk) 0); [done|]. cbn [orb].
  cbn [alone]. change (C_lockreq 0) with (C_lockreq (Z.of_nat 0)). rewrite load_req.
  destruct (lookup_lt_is_Some_2 (pl_lockreq lk) 0) as [x Hx]; [unfold NPROC in Hl; lia|].
  rewrite Hx. cbn [default from_option id]. destruct (negb (x =? pid)); [done|].
  rewrite alone_shift_down by (done || simpl; lia). cbn [alone load]. rewrite Nat.sub_0_r. cbn [pl_inqueue set_pl_lockreq].
  replace (pl_inqueue lk - 1) with (Z.of_nat (Z.to_nat (pl_inqueue lk) - 1)) at 1 by lia.
  rewrite store_req by (simpl; rewrite length_shift_down; lia). done.
Qed.

Lemma turn_alone lk pid again k :
  queue_wf lk →
  alone (turn_code pid again k) lk =
  match try_enter lk pid with Some lk' => alone k lk' | None => alone again lk end.
Proof.
  intros Hwf. unfold turn_code, try_enter. cbn [alone load]. destruct (pl_locked lk =? 1); [done|].
  rewrite isprior_alone by done. destruct (isprior lk pid) as [[] lk'] eqn:E; [done|].
  unfold isprior in E. destruct (_ || _); by simplify_eq.
Qed.

Lemma release_alone lk k : alone (releasepriority_code k) lk = alone k (leave lk).
Proof. done. Qed.

(** ** What a process may still do *)

(** Where a process stands: whether it holds the spin lock and the priority lock, and
    what it knows. *)
Inductive stage :=
| Out                  (** holds nothing *)
| Held                 (** the spin lock *)
| Free                 (** the spin lock, and the priority lock is free *)
| Taken (b : bool)     (** both; [b]: its pid is stored *)
| In.                  (** the priority lock *)

Definition spins (s : stage) : Prop := match s with Held | Free | Taken _ => True | _ => False end.
Definition owns (s : stage) : Prop := match s with Taken _ | In => True | _ => False end.
Definition named (s : stage) : Prop := match s with Taken true | In => True | _ => False end.

Definition queue_cell (c : cell) : Prop := match c with C_inqueue | C_lockreq _ => True | _ => False end.

(** The discipline of the code: [locked] and [pid] are written with the spin lock
    held, by a process that found the lock free or has it; the queue is written
    anywhere. *)
Inductive keeps (pid : Z) : stage → code → Prop :=
| keeps_done : keeps pid Out Done
| keeps_fault s : keeps pid s Fault
| keeps_spinning s : keeps pid s Spinning
| keeps_load s c k : (∀ v, keeps pid s (k v)) → keeps pid s (Load c k)
| keeps_test k : (∀ v, keeps pid (if v =? 1 then Held else Free) (k v)) → keeps pid Held (Load C_locked k)
| keeps_queue s c v k : queue_cell c → keeps pid s k → keeps pid s (Store c v k)
| keeps_lock k : keeps pid (Taken false) k → keeps pid Free (Store C_locked 1 k)
| keeps_name b k : keeps pid (Taken true) k → keeps pid (Taken b) (Store C_pid pid k)
| keeps_unlock b k : keeps pid Free k → keeps pid (Taken b) (Store C_locked 0 k)
| keeps_unname v k : keeps pid Free k → keeps pid Free (Store C_pid v k)
| keeps_acquire k : keeps pid Held k → keeps pid Out (Acquire k)
| keeps_acquire_in k : keeps pid (Taken true) k → keeps pid In (Acquire k)
| keeps_release s k : s = Held ∨ s = Free → keeps pid Out k → keeps pid s (Release k)
| keeps_release_in k : keeps pid In k → keeps pid (Taken true) (Release k)
| keeps_critical k : keeps pid In k → keeps pid In (Critical k).

Lemma scan_keeps pid s n pos k : (∀ p, keeps pid s (k p)) → keeps pid s (scan_code n pos pid k).
Proof.
  intros Hk. revert pos. induction n as [|n IH]; intros pos; simpl; [constructor|].
  apply keeps_load. intros v. by destruct (pid <? v).
Qed.

Lemma shift_up_keeps pid s i pos k : keeps pid s k → keeps pid s (shift_up_code i pos k).
Proof.
  intros Hk. induction i as [|i IH]; simpl; [done|]. destruct (pos <? S i)%nat; [|done].
  apply keeps_load. intros v. by apply keeps_queue.
Qed.

Lemma enqueue_keeps pid s k : keeps pid s k → keeps pid s (enqueue_code pid k).
Proof.
  intros Hk. apply keeps_load. intros n. destruct (n =? _); [done|]. apply scan_keeps. intros p.
  apply keeps_load. intros i. apply shift_up_keeps. apply keeps_queue; [done|].
  apply keeps_load. intros m. by apply keeps_queue.
Qed.

Lemma shift_down_keeps pid s n i k : keeps pid s k → keeps pid s (shift_down_code n i k).
Proof.
  intros Hk. revert i. induction n as [|n IH]; intros i; simpl; [constructor|].
  apply keeps_load. intros m. destruct (_ <? _); [|done]. apply keeps_load. intros v. by apply keeps_queue.
Qed.

Lemma isprior_keeps pid s k : (∀ b, keeps pid s (k b)) → keeps pid s (isprior_code pid k).
Proof.
  intros Hk. apply keeps_load. intros n. destruct (n =? 0); [done|]. apply keeps_load. intros x.
  destruct (negb _); [done|]. apply shift_down_keeps, keeps_load. intros m. apply keeps_queue; [done|].
  apply keeps_load. intros m'. by apply keeps_queue.
Qed.

Lemma turn_keeps pid again k : keeps pid Out again → keeps pid In k → keeps pid Out (turn_code pid again k).
Proof.
  intros Ha Hk. apply keeps_acquire, keeps_test. intros v. destruct (v =? 1).
  - by apply keeps_release; [left|].
  - apply isprior_keeps. intros []; [|by apply keeps_release; [right|]].
    by apply keeps_lock, keeps_name, keeps_release_in.
Qed.

Lemma waiting_keeps pid fuel k : keeps pid In k → keeps pid Out (waiting_code fuel pid k).
Proof. intros Hk. induction fuel as [|fuel IH]; simpl; [constructor|]. by apply turn_keeps. Qed.

Lemma user_keeps pid fuels : keeps pid Out (user pid fuels).
Proof.
  induction fuels as [|fuel fuels IH]; simpl; [constructor|]. apply enqueue_keeps, waiting_keeps, keeps_critical.
  apply keeps_acquire_in, keeps_unlock, keeps_unname. by apply keeps_release; [right|].
Qed.

(** ** Mutual exclusion *)

Record ainv (cf : config) (σ : nat → stage) : Prop := Ainv {
  ai_keeps : ∀ i p m, a_procs cf !! i = Some (p, m) → keeps p (σ i) m;
  ai_spin : ∀ i, spins (σ i) ↔ a_spin cf = Some i;
  ai_one : ∀ i j, owns (σ i) → owns (σ j) → i = j;
  ai_locked : pl_locked (a_lk cf) = 1 ↔ ∃ i, owns (σ i);
  ai_free : ∀ i j, σ i = Free → ¬ owns (σ j);
  ai_named : ∀ i p m, a_procs cf !! i = Some (p, m) → named (σ i) → pl_pid (a_lk cf) = p
}.

Definition upd (i : nat) (s : stage) (σ : nat → stage) : nat → stage := λ j, if decide (j = i) then s else σ j.

Lemma upd_same i s σ : upd i s σ i = s.
Proof. unfold upd. by rewrite decide_True. Qed.

Lemma upd_other i s σ j : j ≠ i → upd i s σ j = σ j.
Proof. intros. unfold upd. by rewrite decide_False. Qed.

Lemma named_owns s : named s → owns s.
Proof. by destruct s as [| | |[]|]. Qed.

Section step.
Context (lk : prioritylock) (spin : option nat) (procs : list (Z * code)) (σ : nat → stage).
Context (i : nat) (p : Z) (m : code).
Hypothesis Hinv : ainv (Config lk spin procs) σ.
Hypothesis Hi : procs !! i = Some (p, m).

(** Process [i] moves to stage [s']. *)
Lemma ainv_move s' lk' spin' m' :
  keeps p s' m' →
  (∀ j, j ≠ i → spin = Some j ↔ spin' = Some j) → (spins s' ↔ spin' = Some i) →
  (owns s' ∨ s' = Free → ∀ j, j ≠ i → ¬ owns (σ j)) → (owns s' → ∀ j, j ≠ i → σ j ≠ Free) →
  (pl_locked lk' = 1 ↔ owns s' ∨ ∃ j, j ≠ i ∧ owns (σ j)) →
  (named s' → pl_pid lk' = p) → (∀ j, j ≠ i → owns (σ j) → pl_pid lk' = pl_pid lk) →
  ainv (Config lk' spin' (<[i := (p, m')]> procs)) (upd i s' σ).
Proof.
  destruct Hinv as [Hk Hs Ho Hl Hf Hn]; simpl in *. intros Hk' Hs1 Hs2 Hx Hfr Hl' Hn1 Hn2. split; simpl.
  - intros j q m1 [(-> & [= <- <-] & _)|[Hne H]]%list_lookup_insert_Some; [by rewrite upd_same|].
    rewrite upd_other by done. eauto.
  - intros j. destruct (decide (j = i)) as [->|]; [by rewrite upd_same|]. rewrite upd_other, Hs by done. auto.
  - intros j j'. destruct (decide (j = i)) as [->|], (decide (j' = i)) as [->|];
      rewrite ?upd_same, ?(upd_other _ _ _ _ n), ?(upd_other _ _ _ _ n0) by done; auto; intros; exfalso; naive_solver.
  - rewrite Hl'. split.
    + intros [H|(j & Hj & H)]; [exists i; by rewrite upd_same|exists j; by rewrite upd_other].
    + intros [j H]. destruct (decide (j = i)) as [->|]; [rewrite upd_same in H; auto|rewrite upd_other in H; eauto].
  - intros j j'. destruct (decide (j = i)) as [->|], (decide (j' = i)) as [->|];
      rewrite ?upd_same, ?(upd_other _ _ _ _ n), ?(upd_other _ _ _ _ n0) by done; naive_solver.
  - intros j q m1 [(-> & [= <- <-] & _)|[Hne H]]%list_lookup_insert_Some; [by rewrite upd_same|].
    rewrite upd_other by done. intros Hj. rewrite (Hn2 j) by (done || by apply named_owns). eauto.
Qed.

(** Process [i] stays at its stage and writes neither [locked] nor [pid]. *)
Lemma ainv_stay lk' m' :
  keeps p (σ i) m' → pl_locked lk' = pl_locked lk → pl_pid lk' = pl_pid lk →
  ainv (Config lk' spin (<[i := (p, m')]> procs)) σ.
Proof.
  destruct Hinv as [Hk Hs Ho Hl Hf Hn]; simpl in *. intros Hk' El Ep. split; simpl; rewrite ?El, ?Ep; auto.
  - intros j q m1 [(-> & [= <- <-] & _)|[Hne H]]%list_lookup_insert_Some; [done|eauto].
  - intros j q m1 [(-> & [= <- <-] & _)|[Hne H]]%list_lookup_insert_Some; eauto.
Qed.

(** The holder of the spin lock is the only one at its stages. *)
Lemma spin_alone j : spins (σ i) → j ≠ i → ¬ spins (σ j).
Proof. rewrite !(ai_spin _ _ Hinv). simpl. congruence. Qed.

Lemma owner_alone j : owns (σ i) → j ≠ i → ¬ owns (σ j).
Proof. intros H1 Hne H2. by apply Hne, (ai_one _ _ Hinv). Qed.

Lemma locked_others : pl_locked lk = 1 ↔ owns (σ i) ∨ ∃ j, j ≠ i ∧ owns (σ j).
Proof.
  rewrite (ai_locked _ _ Hinv). split; [|naive_solver].
  intros [j H]. destruct (decide (j = i)) as [->|]; eauto.
Qed.

(** What is known of the other processes, by the stage of process [i]. *)
Lemma others_spins j : spins (σ i) → j ≠ i → σ j ≠ Free.
Proof. intros H1 Hne E. apply (spin_alone j H1 Hne). by rewrite E. Qed.

Lemma others_free j : owns (σ i) → σ j ≠ Free.
Proof. intros H1 E. by apply (ai_free _ _ Hinv j i E). Qed.

Lemma none_own j : pl_locked lk ≠ 1 → ¬ owns (σ j).
Proof. intros H1 H2. apply H1, (ai_locked _ _ Hinv). eauto. Qed.

Lemma free_none j : σ i = Free → ¬ owns (σ j).
Proof. apply (ai_free _ _ Hinv). Qed.

(** The accesses that change the stage. *)
Lemma move_test m' : σ i = Held → pl_locked lk ≠ 1 → keeps p Free m' → ∃ σ', ainv (Config lk spin (<[i := (p, m')]> procs)) σ'.
Proof.
  intros Ei Hl Hk. exists (upd i Free σ). pose proof (ai_spin _ _ Hinv i) as Hs. rewrite Ei in Hs.
  pose proof (λ j, none_own j Hl). apply ainv_move; [done..|by intros []|split; [done|naive_solver]|done|done].
Qed.

Lemma move_take m' : σ i = Free → keeps p (Taken false) m' → ∃ σ', ainv (Config (set_pl_locked 1 lk) spin (<[i := (p, m')]> procs)) σ'.
Proof.
  intros Ei Hk. exists (upd i (Taken false) σ). pose proof (ai_spin _ _ Hinv i) as Hs. rewrite Ei in Hs.
  pose proof (λ j, free_none j Ei). apply ainv_move; [done..| |by split; [left|]|done|done].
  intros _ j. apply others_spins. by rewrite Ei.
Qed.

Lemma move_name b m' : σ i = Taken b → keeps p (Taken true) m' → ∃ σ', ainv (Config (set_pl_pid p lk) spin (<[i := (p, m')]> procs)) σ'.
Proof.
  intros Ei Hk. exists (upd i (Taken true) σ). pose proof (ai_spin _ _ Hinv i) as Hs.
  assert (Ho : owns (σ i)) by (by rewrite Ei). pose proof (λ j, owner_alone j Ho). rewrite Ei in Hs.
  apply ainv_move; [done..|by intros _ j _; apply others_free| |done|naive_solver].
  simpl. rewrite locked_others, Ei. naive_solver.
Qed.

Lemma move_unlock b m' : σ i = Taken b → keeps p Free m' → ∃ σ', ainv (Config (set_pl_locked 0 lk) spin (<[i := (p, m')]> procs)) σ'.
Proof.
  intros Ei Hk. exists (upd i Free σ). pose proof (ai_spin _ _ Hinv i) as Hs.
  assert (Ho : owns (σ i)) by (by rewrite Ei). pose proof (λ j, owner_alone j Ho). rewrite Ei in Hs.
  apply ainv_move; [done..|by intros []|simpl; naive_solver lia|done|done].
Qed.

Lemma move_unname v m' : σ i = Free → keeps p Free m' → ∃ σ', ainv (Config (set_pl_pid v lk) spin (<[i := (p, m')]> procs)) σ'.
Proof.
  intros Ei Hk. exists (upd i Free σ). pose proof (ai_spin _ _ Hinv i) as Hs. rewrite Ei in Hs.
  pose proof (λ j, free_none j Ei).
  apply ainv_move; [done..|by intros []| |done|naive_solver]. simpl. by rewrite locked_others, Ei.
Qed.

Lemma move_acquire s' m' :
  spin = None → (σ i = Out ∧ s' = Held ∨ σ i = In ∧ s' = Taken true) → keeps p s' m' →
  ∃ σ', ainv (Config lk (Some i) (<[i := (p, m')]> procs)) σ'.
Proof.
  intros Hn Hc Hk. exists (upd i s' σ). assert (Ho : owns (σ i) ↔ owns s') by (by destruct Hc as [[-> ->]|[-> ->]]).
  apply ainv_move; [done| | | | | | |done].
  - intros j Hj. rewrite Hn. naive_solver.
  - by destruct Hc as [[_ ->]|[_ ->]].
  - intros [H|H]; [intros j; by apply owner_alone, Ho|]. by destruct Hc as [[_ ->]|[_ ->]].
  - intros H j _. by apply others_free, Ho.
  - by rewrite locked_others, Ho.
  - destruct Hc as [[_ ->]|[Ei ->]]; [done|]. intros _. eapply (ai_named _ _ Hinv i); [done|]. by rewrite Ei.
Qed.

Lemma move_release s' m' :
  ((σ i = Held ∨ σ i = Free) ∧ s' = Out ∨ σ i = Taken true ∧ s' = In) → keeps p s' m' →
  ∃ σ', ainv (Config lk None (<[i := (p, m')]> procs)) σ'.
Proof.
  intros Hc Hk. exists (upd i s' σ).
  assert (Hs : spins (σ i)) by (by destruct Hc as [[[-> | ->] _]|[-> _]]).
  assert (Ho : owns (σ i) ↔ owns s') by (by destruct Hc as [[[-> | ->] ->]|[-> ->]]).
  apply (ai_spin _ _ Hinv) in Hs as Hsp. simpl in Hsp.
  apply ainv_move; [done| | | | | | |done].
  - intros j Hj. rewrite Hsp. naive_solver.
  - by destruct Hc as [[_ ->]|[_ ->]].
  - intros [H|H]; [intros j; by apply owner_alone, Ho|]. by destruct Hc as [[_ ->]|[_ ->]].
  - intros H j _. by apply others_free, Ho.
  - by rewrite locked_others, Ho.
  - destruct Hc as [[_ ->]|[Ei ->]]; [done|]. intros _. eapply (ai_named _ _ Hinv i); [done|]. by rewrite Ei.
Qed.

End step.

Lemma store_queue_cell c v lk lk' :
  queue_cell c → store c v lk = Some lk' → pl_locked lk' = pl_locked lk ∧ pl_pid lk' = pl_pid lk.
Proof. destruct c; intros [] H; simpl in H; [|destruct (_ && _)]; by simplify_eq. Qed.

Lemma access_inv lk spin procs σ i p m lk' spin' m' :
  ainv (Config lk spin procs) σ → procs !! i = Some (p, m) → access i lk spin m = Some (lk', spin', m') →
  ∃ σ', ainv (Config lk' spin' (<[i := (p, m')]> procs)) σ'.
Proof.
  intros Hinv Hi Ha. pose proof (ai_keeps _ _ Hinv i p m Hi) as Hk.
  assert (Hst : ∀ lk1 m1, keeps p (σ i) m1 → pl_locked lk1 = pl_locked lk → pl_pid lk1 = pl_pid lk →
    ∃ σ', ainv (Config lk1 spin (<[i := (p, m1)]> procs)) σ').
  { intros lk1 m1 H1 H2 H3. exists σ. by apply (ainv_stay lk spin procs σ i p m Hinv Hi). }
  remember (σ i) as s eqn:Es. symmetry in Es.
  destruct Hk as [|s|s|s c k Hk|k Hk|s c v k Hc Hk|k Hk|b k Hk|b k Hk|v k Hk|k Hk|k Hk|s k Hc Hk|k Hk|k Hk];
    cbn [access] in Ha; try done.
  - injection Ha as <- <- <-. apply Hst; [|done..]. destruct (load c lk); [apply Hk|constructor].
  - injection Ha as <- <- <-. specialize (Hk (pl_locked lk)). destruct (Z.eqb_spec (pl_locked lk) 1); simpl;
      [by apply Hst|by eapply move_test].
  - destruct (store c v lk) as [lk1|] eqn:E; injection Ha as <- <- <-; [|apply Hst; [constructor|done..]].
    destruct (store_queue_cell _ _ _ _ Hc E). by apply Hst.
  - injection Ha as <- <- <-. by eapply move_take.
  - injection Ha as <- <- <-. by eapply move_name.
  - injection Ha as <- <- <-. by eapply move_unlock.
  - injection Ha as <- <- <-. by eapply move_unname.
  - destruct spin; [done|]. injection Ha as <- <- <-. eapply move_acquire; eauto.
  - destruct spin; [done|]. injection Ha as <- <- <-. eapply move_acquire; eauto.
  - rewrite decide_True in Ha by (apply (ai_spin _ _ Hinv); rewrite Es; by destruct Hc as [-> | ->]).
    injection Ha as <- <- <-. eapply move_release; [done|done| |done]. left. by destruct Hc as [<- | <-]; auto.
  - rewrite decide_True in Ha by (apply (ai_spin _ _ Hinv); by rewrite Es). injection Ha as <- <- <-.
    eapply move_release; eauto.
  - injection Ha as <- <- <-. by apply Hst.
Qed.

Lemma start_inv lk users : pl_locked lk ≠ 1 → ainv (start lk users) (λ _, Out).
Proof.
  intros Hl. split; simpl; try done.
  - intros i p m H. rewrite list_lookup_fmap in H. destruct (users !! i) as [[q fuels]|]; simplify_eq/=.
    apply user_keeps.
  - split; [done|]. by intros [].
Qed.

Lemma reachable_inv lk users cf :
  pl_locked lk ≠ 1 → rtc astep (start lk users) cf → ∃ σ, ainv cf σ.
Proof.
  intros Hl H. pose proof (start_inv lk users Hl) as Hi. revert Hi. generalize (λ _ : nat, Out).
  induction H as [x|x y z Hs _ IH]; intros σ Hx; [by exists σ|]. destruct Hs as [i lk1 spin procs p m lk' spin' m' Hp Ha].
  destruct (access_inv _ _ _ _ _ _ _ _ _ _ Hx Hp Ha) as [σ' Hy]. by apply (IH σ').
Qed.

(** A process in its critical section owns the lock. *)
Lemma inside_stage cf σ i pid : ainv cf σ → inside cf i pid → σ i = In.
Proof. intros Hinv [k Hk]. apply (ai_keeps _ _ Hinv) in Hk. by inversion Hk. Qed.

(** ** Order and progress *)

(** The turn of the process at the head of the queue. *)
Lemma head_turn (s : kstate unit) i c pi p :
  running s i c pi p → locks (k_mach s) !! L_plock = None → queue_wf (k_plock s) → pl_locked (k_plock s) = 0 →
  head (abs_queue (k_plock s)) = Some (p_pid p) →
  ∃ s', acquirepriority_turn s = Ok true s' ∧ pl_pid (k_plock s') = p_pid p.
Proof.
  intros Hr Hl Hwf H0 Hh. rewrite (acquirepriority_turn_ok s i c pi p Hr Hl).
  destruct (try_enter_spec _ (p_pid p) Hwf H0) as [[_ ?]|(lk' & -> & _ & _ & _ & Hp)]; [done|]. eauto.
Qed.

(** A turn that gets in is that of the highest pid. *)
Lemma turn_highest st pid lk' :
  plinv st → runs pid acquirepriority_turn (ps_lk st) true lk' →
  ps_inside st = [] ∧ pid ∈ ps_waiting st ∧ ∀ q, q ∈ ps_waiting st → q ≤ pid.
Proof.
  intros [Hwf Hq Hl] [[_ H]|[??]]%runs_turn; [|done]. pose proof (try_enter_locked _ _ _ H).
  destruct Hl as [[Hl Hc]|[Hl _]]; [|done]. split; [done|].
  destruct (try_enter_spec _ pid Hwf Hl) as [[? _]|(? & _ & _ & Habs & _)]; [congruence|].
  split; [rewrite <- Hq, Habs; by left|]. pose proof (qwf_sorted _ Hwf) as Hs. rewrite Habs in Hs.
  inversion Hs as [|? ? _ Hf]; subst. intros q. rewrite <- Hq, Habs.
  intros [->|Hin]%elem_of_cons; [lia|]. apply list_elem_of_In in Hin. rewrite Forall_forall in Hf.
  specialize (Hf q Hin). lia.
Qed.

Lemma pl_order st :
  rtc plstep pl_init st →
  (length (ps_inside st) ≤ 1)%nat
  ∧ (∀ pid lk', runs pid acquirepriority_turn (ps_lk st) true lk' →
       ps_inside st = [] ∧ pid ∈ ps_waiting st ∧ ∀ q, q ∈ ps_waiting st → q ≤ pid)
  ∧ (ps_inside st = [] → ps_waiting st ≠ [] →
       ∃ pid, pid ∈ ps_waiting st ∧ ∀ (s : kstate unit) i c pi p,
         running s i c pi p → p_pid p = pid → locks (k_mach s) !! L_plock = None → k_plock s = ps_lk st →
         ∃ s', acquirepriority_turn s = Ok true s' ∧ pl_pid (k_plock s') = pid).
Proof.
  intros Hinv%pl_reachable_inv. split; [|split; [by intros; eapply turn_highest|]].
  - destruct (pi_lock _ Hinv) as [[_ ->]|[_ ->]]; simpl; lia.
  - destruct Hinv as [Hwf Hq Hl]. intros Hin Hw. destruct Hl as [[Hl _]|[_ H]]; [|by rewrite H in Hin].
    destruct (abs_queue (ps_lk st)) as [|pid q] eqn:Ea; [by apply Permutation_nil_l in Hq|].
    exists pid. split; [rewrite <- Hq; by left|]. intros s i c pi p Hr <- Hf Hk. rewrite <- Hk in *.
    apply (head_turn s i c pi p); [done..|]. by rewrite Ea.
Qed.

(** C20: the priority lock.  Whatever the queue holds and however the single loads and
    stores of the processes interleave, those of [enqueue] included, at most one
    process is between [acquirepriority] and [releasepriority], and the lock is then
    marked as held by its pid.  Provided the calls of [enqueue] do not overlap with
    each other or with a turn of the waiting loop, a process that gets in finds the
    lock free and has the highest pid of all waiting processes, and when the lock is
    free and some process waits, the next turn of one of them gets in. *)
Theorem priority_lock_safe (lk : prioritylock) (users : list (Z * list nat)) (cf : config) (st : plstate) :
  pl_locked lk = 0 → rtc astep (start lk users) cf → rtc plstep pl_init st →
  ((∀ i j p q, inside cf i p → inside cf j q → i = j)
   ∧ (∀ i p, inside cf i p → pl_locked (a_lk cf) = 1 ∧ pl_pid (a_lk cf) = p))
  ∧ ((length (ps_inside st) ≤ 1)%nat
     ∧ (∀ pid lk', runs pid acquirepriority_turn (ps_lk st) true lk' →
          ps_inside st = [] ∧ pid ∈ ps_waiting st ∧ ∀ q, q ∈ ps_waiting st → q ≤ pid)
     ∧ (ps_inside st = [] → ps_waiting st ≠ [] →
          ∃ pid, pid ∈ ps_waiting st ∧ ∀ (s : kstate unit) i c pi p,
            running s i c pi p → p_pid p = pid → locks (k_mach s) !! L_plock = None → k_plock s = ps_lk st →
            ∃ s', acquirepriority_turn s = Ok true s' ∧ pl_pid (k_plock s') = pid)).
Proof.
  intros Hl Hcf Hst. split; [|by apply pl_order].
  destruct (reachable_inv lk users cf ltac:(lia) Hcf) as [σ Hinv]. split.
  - intros i j p q Hi%(inside_stage _ σ) Hj%(inside_stage _ σ); [|done..].
    apply (ai_one _ _ Hinv); [by rewrite Hi|by rewrite Hj].
  - intros i p Hp. pose proof (inside_stage _ _ _ _ Hinv Hp) as Hs. split.
    + apply (ai_locked _ _ Hinv). exists i. by rewrite Hs.
    + destruct Hp as [k Hk]. apply (ai_named _ _ Hinv i _ _ Hk). by rewrite Hs.
Qed.

(** The accesses of the processes in a given order. *)
Fixpoint schedule (order : list nat) (cf : config) : option config :=
  match order with
  | [] => Some cf
  | i :: order' =>
      '(pid, m) ← a_procs cf !! i;
      '(lk', spin', m') ← access i (a_lk cf) (a_spin cf) m;
      schedule order' (Config lk' spin' (<[i := (pid, m')]> (a_procs cf)))
  end.

Lemma schedule_rtc order cf cf' : schedule order cf = Some cf' → rtc astep cf cf'.
Proof.
  revert cf. induction order as [|i order IH]; intros [lk spin procs] H; simpl in H; [by simplify_eq|].
  destruct (procs !! i) as [[pid m]|] eqn:Hi; simpl in H; [|done].
  destruct (access i lk spin m) as [[[lk' spin'] m']|] eqn:Ha; simpl in H; [|done].
  eapply rtc_l; [by eapply astep_access|by apply IH].
Qed.

Definition is_inside (i : nat) (pid : Z) (cf : config) : bool :=
  match a_procs cf !! i with Some (q, Critical _) => q =? pid | _ => false end.

Lemma schedule_inside order cf i pid :
  match schedule order cf with Some cf' => is_inside i pid cf' | None => false end = true →
  ∃ cf', rtc astep cf cf' ∧ inside cf' i pid.
Proof.
  destruct (schedule order cf) as [cf'|] eqn:E; [|done]. unfold is_inside. intros H. exists cf'.
  split; [by apply (schedule_rtc order)|]. destruct (a_procs cf' !! i) as [[q []]|] eqn:Ep; try done.
  apply Z.eqb_eq in H as ->. by eexists.
Qed.

(** Process 9 is in the middle of its [enqueue] while process 5 takes the lock. *)
Lemma priority_lock_safe_witness :
  ∃ cf lk', rtc astep (start (ps_lk pl_init) [(5, [1%nat]); (9, [1%nat])]) cf ∧ inside cf 0 5
    ∧ pl_locked (a_lk cf) = 1 ∧ pl_pid (a_lk cf) = 5
    ∧ rtc plstep pl_init (Plstate lk' [7] []).
Proof.
  destruct (schedule_inside ([1; 1] ++ replicate 18 0)%nat (start (ps_lk pl_init) [(5, [1%nat]); (9, [1%nat])]) 0 5)
    as (cf & E & Hin); [vm_compute; reflexivity|].
  destruct (enqueue (ps_lk pl_init) 7) as [lk1|] eqn:E1; [|discriminate E1].
  assert (Hr : rtc plstep pl_init (Plstate lk1 [7] [])).
  { apply rtc_once. apply pl_request; [lia|set_solver|set_solver|unfold NPROC; simpl; lia|exact E1]. }
  exists cf, lk1. split; [exact E|]. split; [exact Hin|].
  destruct (proj2 (proj1 (priority_lock_safe (ps_lk pl_init) [(5, [1%nat]); (9, [1%nat])] cf _ eq_refl E Hr)) 0%nat 5 Hin) as [H1 H2].
  split; [exact H1|]. split; [exact H2|exact Hr].
Defined.
