(* ===== verification/Sched.v ===== *)
(** * Scheduling queues

    Models the multi-level queue scheduler of [proc.c]: [round_robin],
    [procrank], [best_job_first], [last_come_first_serve], the choice made by
    [scheduler], and the operations on scheduling parameters ([aging],
    [init_queue], [change_queue], [set_bjs_proc], [set_bjs_sys]). *)

From S2P Require Import Prelude Spinlock State CFloat.

(** ** Choosing a process *)

Definition is_runnable_in (q : Z) (p : proc) : bool :=
  bool_decide (p_state p = RUNNABLE) && (queue (p_sched p) =? q).

Definition rr_ready (tab : list proc) (i : nat) : bool :=
  match tab !! i with
  | Some p => is_runnable_in ROUND_ROBIN p
  | None => false
  end.

(** The loop of [round_robin]: [p] is the pointer, [last] is [last_scheduled].
    The outer [None] is running out of fuel. *)
Fixpoint rr_loop (fuel : nat) (tab : list proc) (p last : nat) : option (option nat) :=
  match fuel with
  | 0%nat => None
  | S fuel' =>
      let p := if (NPROC <=? p)%nat then 0%nat else p in
      if rr_ready tab p then Some (Some p)
      else if (p =? last)%nat then Some None
      else rr_loop fuel' tab (p + 1) last
  end.

(** One lap of the table is [NPROC] turns. *)
Definition round_robin (tab : list proc) (last : nat) : option (option nat) :=
  rr_loop NPROC tab (last + 1) last.

(** [if (next_p == 0 || better(key, best)) { next_p = p; best = key; }] over the
    table, for the candidates. *)
Section best_scan.
Context {T : Type} (cand : proc → bool) (key : proc → T) (better : T → T → bool).

Definition best_step (i : nat) (p : proc) (acc : option (nat * T)) : option (nat * T) :=
  if cand p then
    match acc with
    | None => Some (i, key p)
    | Some (_, best) => if better (key p) best then Some (i, key p) else acc
    end
  else acc.

Fixpoint best_scan (i : nat) (acc : option (nat * T)) (l : list proc) : option (nat * T) :=
  match l with
  | [] => acc
  | p :: l' => best_scan (S i) (best_step i p acc) l'
  end.

End best_scan.

Definition procrank (ev : fpeval) (params : bjfparams) : spec_float :=
  to_float
    (fadd ev (fadd ev (fadd ev
      (fmul ev (fof_int ev (priority params)) (priority_ratio params))
      (fmul ev (fof_int ev (arrival_time params)) (arrival_time_ratio params)))
      (fmul ev (executed_cycle params) (executed_cycle_ratio params)))
      (fmul ev (fof_int ev (process_size params)) (process_size_ratio params))).

Definition best_job_first (ev : fpeval) (tab : list proc) : option nat :=
  fst <$> best_scan (is_runnable_in BJF) (λ p, procrank ev (bjf (p_sched p))) flt 0 None tab.

(** [int time = p->ctime] converts an unsigned time to [int]. *)
Definition last_come_first_serve (tab : list proc) : option nat :=
  fst <$> best_scan (is_runnable_in LCFS) (λ p, s32 (p_ctime p)) (λ a b, b <? a) 0 None tab.

(** The choice of one turn of [scheduler]: the process and the new value of
    [last_scheduled]. *)
Definition sched_pick (ev : fpeval) (tab : list proc) (last : nat) : option (option nat * nat) :=
  r ← round_robin tab last;
  Some (match r with
        | Some p => (Some p, p)
        | None =>
            match last_come_first_serve tab with
            | Some p => (Some p, last)
            | None => (best_job_first ev tab, last)
            end
        end).

(** ** Kernel routines *)

Section ops.
Context {X : Type} (ev : fpeval).

(** [switchuvm]: its checks and its [pushcli]/[popcli] bracket; the task state
    segment and page table register it loads are not part of the model. *)
Definition switchuvm (i : nat) : K (kstate X) unit :=
  p ← get_proc i;
  if p_kstack p =? 0 then kpanic "switchuvm: no kstack" else
  if p_pgdir p =? 0 then kpanic "switchuvm: no pgdir" else
  pushcli;;
  popcli.

(** One turn of the loop of [scheduler], from [sti] to the next; returns the new
    [last_scheduled].  [swtch] is where the chosen process runs. *)
Definition scheduler_turn (last : nat) : K (kstate X) nat :=
  sti;;
  acquire L_ptable;;
  tab ← kgets k_ptable;
  match sched_pick ev tab last with
  | None => knofuel
  | Some (None, last') => release L_ptable;; mret last'
  | Some (Some i, last') =>
      mycpu_alter (cpu_set_proc (Some i));;
      switchuvm i;;
      alter_proc i (set_p_state RUNNING);;
      t ← kgets k_ticks;
      alter_proc i (upd_sched (set_last_exec (s32 t)));;
      alter_proc i (upd_bjf (λ b, set_executed_cycle (to_float (fadd ev (executed_cycle b) f_tenth)) b));;
      kswtch;;
      mycpu_alter (cpu_set_proc None);;
      release L_ptable;;
      mret last'
  end.

Definition init_queue (pid : Z) : K (kstate X) Z :=
  let go (q : Z) :=
    acquire L_ptable;;
    ptable_find (λ p, p_pid p =? pid) (λ i, alter_proc i (upd_sched (set_queue q)));;
    release L_ptable;;
    mret 0 in
  if (pid =? 1) || (pid =? 2) then go ROUND_ROBIN
  else if 2 <? pid then go ROUND_ROBIN
  else mret (-1).

Definition change_queue (pid new_queue : Z) : K (kstate X) Z :=
  if new_queue =? UNSET then mret (-1) else
  acquire L_ptable;;
  found ← ptable_find (λ p, p_pid p =? pid) (λ i,
    alter_proc i (upd_sched (set_queue new_queue));;
    acquire L_ticks;;
    t ← kgets k_ticks;
    alter_proc i (upd_sched (set_last_exec (s32 t)));;
    release L_ticks);
  release L_ptable;;
  mret (match found with Some _ => 0 | None => -1 end).

(** Runnable outside the round-robin queue for more than [MAX_AGE] ticks. *)
Definition starved (curr_time : Z) (p : proc) : bool :=
  bool_decide (p_state p = RUNNABLE) && negb (queue (p_sched p) =? ROUND_ROBIN)
  && (MAX_AGE <? s32 (curr_time - last_exec (p_sched p))).

Definition aging (curr_time : Z) : K (kstate X) unit :=
  acquire L_ptable;;
  ptable_iter (λ i,
    p ← get_proc i;
    if starved curr_time p then change_queue (p_pid p) ROUND_ROBIN;; mret tt else mret tt);;
  release L_ptable.

Definition set_ratios (pr ar er sr : spec_float) (b : bjfparams) : bjfparams :=
  set_process_size_ratio sr (set_executed_cycle_ratio er
    (set_arrival_time_ratio ar (set_priority_ratio pr b))).

Definition set_bjs_proc (pid : Z) (pr ar er sr : spec_float) : K (kstate X) Z :=
  acquire L_ptable;;
  found ← ptable_find (λ p, p_pid p =? pid) (λ i, alter_proc i (upd_bjf (set_ratios pr ar er sr)));
  release L_ptable;;
  mret (match found with Some _ => 0 | None => -1 end).

Definition set_bjs_sys (pr ar er sr : spec_float) : K (kstate X) Z :=
  acquire L_ptable;;
  ptable_iter (λ i, alter_proc i (upd_bjf (set_ratios pr ar er sr)));;
  release L_ptable;;
  mret 0.

(** [digitcount], with fuel for the ten digits of an [int]. *)
Fixpoint digitcount_loop (fuel : nat) (num count : Z) : option Z :=
  match fuel with
  | 0%nat => None
  | S fuel' => if num =? 0 then Some count else digitcount_loop fuel' (Z.quot num 10) (count + 1)
  end.

Definition digitcount (num : Z) : option Z :=
  if num =? 0 then Some 1 else digitcount_loop 11 num 0.

(** [droot]: the inner loop sums decimal digits, the outer repeats while the
    number has several. *)
Fixpoint sum_digits_loop (fuel : nat) (temp sum : Z) : option Z :=
  match fuel with
  | 0%nat => None
  | S fuel' =>
      if 0 <? temp then sum_digits_loop fuel' (Z.quot temp 10) (sum + Z.rem temp 10) else Some sum
  end.

Fixpoint droot_loop (fuel : nat) (n : Z) : option Z :=
  match fuel with
  | 0%nat => None
  | S fuel' =>
      if 9 <? n then s ← sum_digits_loop 11 n 0; droot_loop fuel' s else Some n
  end.

Definition droot (n : Z) : option Z := droot_loop 4 n.

End ops.

(** ** Round robin *)

(** How many entries after [last] the entry [j] comes, cyclically: 0 for the
    next one, [NPROC - 1] for [last] itself. *)
Definition rr_dist (last j : nat) : nat :=
  if (last <? j)%nat then (j - last - 1)%nat else (j + NPROC - last - 1)%nat.

Lemma rr_dist_inj last j k :
  (last < NPROC)%nat → (j < NPROC)%nat → (k < NPROC)%nat → rr_dist last j = rr_dist last k → j = k.
Proof.
  intros Hl Hj Hk. unfold rr_dist.
  destruct (Nat.ltb_spec last j), (Nat.ltb_spec last k); lia.
Qed.

Lemma rr_dist_lt last j : (last < NPROC)%nat → (j < NPROC)%nat → (rr_dist last j < NPROC)%nat.
Proof. intros Hl Hj. unfold rr_dist. destruct (Nat.ltb_spec last j); lia. Qed.

(** After choosing [p], the distance to [j] shrinks. *)
Lemma rr_dist_step last p j :
  (last < NPROC)%nat → (j < NPROC)%nat → (p < NPROC)%nat →
  (rr_dist last p < rr_dist last j)%nat → (rr_dist p j < rr_dist last j)%nat.
Proof.
  intros Hl Hj Hp. unfold rr_dist.
  destruct (Nat.ltb_spec last p), (Nat.ltb_spec last j), (Nat.ltb_spec p j); lia.
Qed.

Lemma rr_ready_lt tab j : length tab = NPROC → rr_ready tab j = true → (j < NPROC)%nat.
Proof.
  intros Hlen H. unfold rr_ready in H. destruct (tab !! j) eqn:E; [|done].
  apply lookup_lt_Some in E. lia.
Qed.

(** The loop looks at the entries in cyclic order: with [d] entries after [last]
    already rejected, it finds the nearest ready one or none. *)
Lemma rr_loop_spec fuel d tab p last :
  length tab = NPROC → (last < NPROC)%nat → (d + fuel = NPROC)%nat → (0 < fuel)%nat →
  (p ≤ NPROC)%nat → rr_dist last (if (NPROC <=? p)%nat then 0%nat else p) = d →
  (∀ j, rr_ready tab j = true → (d ≤ rr_dist last j)%nat) →
  ∃ r, rr_loop fuel tab p last = Some r
    ∧ match r with
      | Some j => rr_ready tab j = true ∧ ∀ k, rr_ready tab k = true → (rr_dist last j ≤ rr_dist last k)%nat
      | None => ∀ k, rr_ready tab k = false
      end.
Proof.
  revert d p. induction fuel as [|fuel IH]; intros d p Hlen Hl Hd Hf Hp Hdp Hrej; [lia|]. cbn [rr_loop].
  set (p' := if (NPROC <=? p)%nat then 0%nat else p) in *.
  assert (p' < NPROC)%nat as Hp'.
  { unfold p'. destruct (Nat.leb_spec NPROC p); unfold NPROC in *; lia. }
  destruct (rr_ready tab p') eqn:Hr.
  { exists (Some p'). split; [done|]. split; [done|]. intros k Hk. rewrite Hdp. by apply Hrej. }
  assert (∀ j, rr_ready tab j = true → (d + 1 ≤ rr_dist last j)%nat) as Hrej'.
  { intros j Hj. pose proof (Hrej j Hj). destruct (decide (rr_dist last j = d)) as [E|]; [|lia].
    assert (j = p') as Ej; [|rewrite Ej in Hj; congruence].
    apply (rr_dist_inj last); [done|by eapply rr_ready_lt|done|congruence]. }
  destruct (Nat.eqb_spec p' last) as [E|E].
  - exists None. split; [done|]. intros k. destruct (rr_ready tab k) eqn:Hk; [|done].
    pose proof (Hrej' k Hk). pose proof (rr_dist_lt last k Hl (rr_ready_lt _ _ Hlen Hk)).
    rewrite E in Hdp. unfold rr_dist in Hdp. rewrite Nat.ltb_irrefl in Hdp. lia.
  - assert (rr_dist last (if (NPROC <=? p' + 1)%nat then 0%nat else (p' + 1)%nat) = d + 1)%nat as Hd'.
    { unfold rr_dist in *. destruct (Nat.leb_spec NPROC (p' + 1)).
      - destruct (Nat.ltb_spec last 0), (Nat.ltb_spec last p'); lia.
      - destruct (Nat.ltb_spec last (p' + 1)), (Nat.ltb_spec last p'); lia. }
    apply (IH (d + 1)%nat); [done|done|lia| |lia|done|done].
    destruct fuel; [|lia]. exfalso. revert Hd'. unfold rr_dist.
    destruct (Nat.leb_spec NPROC (p' + 1)), (Nat.ltb_spec last 0), (Nat.ltb_spec last (p' + 1)); lia.
Qed.

Lemma round_robin_spec tab last :
  length tab = NPROC → (last < NPROC)%nat →
  ∃ r, round_robin tab last = Some r
    ∧ match r with
      | Some j => rr_ready tab j = true ∧ ∀ k, rr_ready tab k = true → (rr_dist last j ≤ rr_dist last k)%nat
      | None => ∀ k, rr_ready tab k = false
      end.
Proof.
  intros Hlen Hl. unfold round_robin. apply (rr_loop_spec NPROC 0); [done|done|lia| |lia| |lia].
  - unfold NPROC; lia.
  - unfold rr_dist. destruct (Nat.leb_spec NPROC (last + 1)).
    + destruct (Nat.ltb_spec last 0); lia.
    + destruct (Nat.ltb_spec last (last + 1)); lia.
Qed.

(** Successive choices on a sequence of process tables. *)
Fixpoint rr_run (tabs : list (list proc)) (last : nat) : list (option nat) :=
  match tabs with
  | [] => []
  | tab :: tabs' =>
      match round_robin tab last with
      | Some (Some p) => Some p :: rr_run tabs' p
      | _ => None :: rr_run tabs' last
      end
  end.

Lemma rr_run_fair tabs last j :
  (last < NPROC)%nat → (rr_dist last j < length tabs)%nat →
  Forall (λ tab, length tab = NPROC ∧ rr_ready tab j = true) tabs →
  Some j ∈ rr_run tabs last.
Proof.
  revert last. induction tabs as [|tab tabs IH]; intros last Hl Hd Hall; simpl in *; [lia|].
  inversion_clear Hall as [|?? [Hlen Hj] Hall'].
  destruct (round_robin_spec tab last Hlen Hl) as ([p|] & -> & Hr).
  2:{ specialize (Hr j). congruence. }
  destruct Hr as [Hp Hmin]. destruct (decide (p = j)) as [->|Hne]; [by left|].
  right. pose proof (rr_ready_lt _ _ Hlen Hj) as Hj'. pose proof (rr_ready_lt _ _ Hlen Hp) as Hp'.
  pose proof (Hmin j Hj) as Hle.
  assert (rr_dist last p ≠ rr_dist last j) by (intros E; by apply rr_dist_inj in E).
  apply IH; [done| |done].
  pose proof (rr_dist_step last p j Hl Hj' Hp' ltac:(lia)). lia.
Qed.

(** ** The best candidate *)

Section best_spec.
Context {T : Type} (cand : proc → bool) (key : proc → T) (better : T → T → bool) (good : T → Prop).
Hypothesis better_asym : ∀ a b, good a → good b → better a b = true → better b a = false.
Hypothesis better_ntrans : ∀ a b c,
  good a → good b → good c → better b a = false → better c b = false → better c a = false.

(** [r] is the first of the best candidates of [l]: none is better, and those
    before it are strictly worse. *)
Definition first_best (l : list proc) (r : option (nat * T)) : Prop :=
  match r with
  | None => ∀ p, p ∈ l → cand p = false
  | Some (j, k) =>
      (∃ p, l !! j = Some p ∧ cand p = true ∧ k = key p)
      ∧ ∀ j' q, l !! j' = Some q → cand q = true →
          better (key q) k = false ∧ ((j' < j)%nat → better k (key q) = true)
  end.

Lemma best_scan_snoc i acc l p :
  best_scan cand key better i acc (l ++ [p])
  = best_step cand key better (i + length l) p (best_scan cand key better i acc l).
Proof.
  revert i acc. induction l as [|q l IH]; intros i acc; simpl.
  - by rewrite Nat.add_0_r.
  - rewrite IH. f_equal. lia.
Qed.

Lemma better_irrefl a : good a → better a a = false.
Proof. intros Ha. destruct (better a a) eqn:E; [|done]. by rewrite (better_asym a a) in E. Qed.

Lemma first_best_step l p r :
  (cand p = true → good (key p)) → (∀ q, q ∈ l → cand q = true → good (key q)) →
  first_best l r → first_best (l ++ [p]) (best_step cand key better (length l) p r).
Proof.
  intros Hgp Hgl Hr. unfold best_step. destruct (cand p) eqn:Hc.
  2:{ destruct r as [[j k]|]; simpl in *.
      - destruct Hr as ((q & Hq & Hcq & ->) & Hall). split.
        + exists q. split; [|done]. by rewrite lookup_app_l by (by eapply lookup_lt_Some).
        + intros j' q' [Hj'|[_ Hj']]%lookup_app_Some Hc'; [by apply Hall|].
          apply list_lookup_singleton_Some in Hj' as [_ <-]. congruence.
      - intros q [Hq| ->%list_elem_of_singleton]%elem_of_app; auto. }
  specialize (Hgp eq_refl). destruct r as [[j k]|]; simpl in *.
  - destruct Hr as ((q & Hq & Hcq & ->) & Hall).
    assert (good (key q)) as Hgq by (apply Hgl; [by eapply list_elem_of_lookup_2|done]).
    destruct (better (key p) (key q)) eqn:Hb; simpl.
    + split; [exists p; by rewrite lookup_app_r, Nat.sub_diag by lia|].
      intros j' q' [Hj'|[Hle Hj']]%lookup_app_Some Hc'.
      * assert (good (key q')) as Hg' by (apply Hgl; [by eapply list_elem_of_lookup_2|done]).
        assert (better (key p) (key q') = true) as Hbt; [|auto].
        destruct (better (key p) (key q')) eqn:E; [done|]. destruct (Hall _ _ Hj' Hc') as [Hn _].
        rewrite <- Hb. symmetry. by apply (better_ntrans (key q) (key q') (key p)).
      * apply list_lookup_singleton_Some in Hj' as [Hz <-]. split; [by apply better_irrefl|lia].
    + split; [exists q; by rewrite lookup_app_l by (by eapply lookup_lt_Some)|].
      intros j' q' [Hj'|[Hle Hj']]%lookup_app_Some Hc'; [by apply Hall|].
      apply list_lookup_singleton_Some in Hj' as [Hz <-]. split; [done|].
      apply lookup_lt_Some in Hq. lia.
  - split; [exists p; by rewrite lookup_app_r, Nat.sub_diag by lia|].
    intros j' q' [Hj'|[Hle Hj']]%lookup_app_Some Hc'.
    + apply list_elem_of_lookup_2, Hr in Hj'. congruence.
    + apply list_lookup_singleton_Some in Hj' as [Hz <-]. split; [by apply better_irrefl|lia].
Qed.

Lemma best_scan_first_best l :
  (∀ q, q ∈ l → cand q = true → good (key q)) →
  first_best l (best_scan cand key better 0 None l).
Proof.
  induction l as [|p l IH] using rev_ind; intros Hg; simpl.
  - by intros p Hp%elem_of_nil.
  - rewrite best_scan_snoc. apply first_best_step.
    + apply Hg. apply elem_of_app. right. by apply list_elem_of_singleton.
    + intros q Hq. apply Hg. apply elem_of_app. by left.
    + apply IH. intros q Hq. apply Hg. apply elem_of_app. by left.
Qed.

End best_spec.

Lemma best_job_first_spec ev tab :
  (∀ p, p ∈ tab → is_runnable_in BJF p = true → is_nan (procrank ev (bjf (p_sched p))) = false) →
  match best_job_first ev tab with
  | None => ∀ p, p ∈ tab → is_runnable_in BJF p = false
  | Some i => ∃ p, tab !! i = Some p ∧ is_runnable_in BJF p = true
      ∧ ∀ j q, tab !! j = Some q → is_runnable_in BJF q = true →
          flt (procrank ev (bjf (p_sched q))) (procrank ev (bjf (p_sched p))) = false
  end.
Proof.
  intros Hnan.
  pose proof (best_scan_first_best (is_runnable_in BJF) (λ p, procrank ev (bjf (p_sched p))) flt
    (λ r, is_nan r = false) flt_asym flt_not_trans tab Hnan) as H.
  unfold best_job_first. destruct (best_scan _ _ _ _ _ _) as [[i k]|]; simpl in *; [|done].
  destruct H as ((p & Hp & Hc & ->) & Hall). exists p. split; [done|]. split; [done|].
  intros j q Hq Hcq. by apply (Hall j q).
Qed.

Lemma best_job_first_None ev tab :
  best_job_first ev tab = None ↔ ∀ p, p ∈ tab → is_runnable_in BJF p = false.
Proof.
  unfold best_job_first. set (key := λ p, procrank ev (bjf (p_sched p))).
  assert (∀ l i acc, best_scan (is_runnable_in BJF) key flt i acc l = None
    ↔ acc = None ∧ ∀ p, p ∈ l → is_runnable_in BJF p = false) as H.
  { induction l as [|p l IH]; intros i acc; simpl.
    - split; [|by intros []]. intros ->. split; [done|]. by intros p ?%elem_of_nil.
    - rewrite IH. setoid_rewrite elem_of_cons. unfold best_step.
      destruct (is_runnable_in BJF p) eqn:E.
      + destruct acc as [[j k]|]; [destruct (flt _ _)|]; (split; [intros [? _]; congruence|]);
          intros [? Hp]; specialize (Hp p (or_introl eq_refl)); congruence.
      + split; [naive_solver|]. intros [-> Hp]. auto. }
  rewrite fmap_None, H. naive_solver.
Qed.

(** What [best_job_first] returns is a candidate, whatever the ranks. *)
Lemma best_job_first_cand ev tab i :
  best_job_first ev tab = Some i → ∃ p, tab !! i = Some p ∧ is_runnable_in BJF p = true.
Proof.
  unfold best_job_first. set (key := λ p, procrank ev (bjf (p_sched p))).
  intros ([j k] & H & ->)%fmap_Some. simpl. revert j k H.
  induction tab as [|p l IH] using rev_ind; intros j k H; [done|].
  rewrite best_scan_snoc in H. unfold best_step in H. destruct (is_runnable_in BJF p) eqn:E.
  - destruct (best_scan _ _ _ _ _ l) as [[j' k']|]; [destruct (flt _ _)|]; simplify_eq;
      try (exists p; by rewrite lookup_app_r, Nat.sub_diag by lia).
    edestruct IH as (q & Hq & ?); [done|]. exists q.
    by rewrite lookup_app_l by (by eapply lookup_lt_Some).
  - edestruct IH as (q & Hq & ?); [done|]. exists q.
    by rewrite lookup_app_l by (by eapply lookup_lt_Some).
Qed.

Lemma last_come_first_serve_spec tab :
  match last_come_first_serve tab with
  | None => ∀ p, p ∈ tab → is_runnable_in LCFS p = false
  | Some i => ∃ p, tab !! i = Some p ∧ is_runnable_in LCFS p = true
      ∧ ∀ j q, tab !! j = Some q → is_runnable_in LCFS q = true →
          s32 (p_ctime q) ≤ s32 (p_ctime p) ∧ ((j < i)%nat → s32 (p_ctime q) < s32 (p_ctime p))
  end.
Proof.
  pose proof (best_scan_first_best (is_runnable_in LCFS) (λ p, s32 (p_ctime p))
    (λ a b, b <? a) (λ _, True)) as H.
  specialize (H ltac:(cbn; intros; bool_to_prop; apply Z.ltb_ge; lia)
    ltac:(cbn; intros; bool_to_prop; apply Z.ltb_ge; lia) tab ltac:(done)).
  unfold last_come_first_serve. destruct (best_scan _ _ _ _ _ _) as [[i k]|]; simpl in *; [|done].
  destruct H as ((p & Hp & Hc & ->) & Hall). exists p. split; [done|]. split; [done|].
  intros j q Hq Hcq. destruct (Hall j q Hq Hcq) as [H1 H2]. bool_to_prop. split; [lia|].
  intros Hlt. specialize (H2 Hlt). bool_to_prop. lia.
Qed.

Lemma round_robin_ready tab i :
  rr_ready tab i = true ↔ ∃ p, tab !! i = Some p ∧ is_runnable_in ROUND_ROBIN p = true.
Proof. unfold rr_ready. destruct (tab !! i); naive_solver. Qed.

(** ** Properties *)

(** The scheduler may choose the process: it is runnable and in one of the
    three queues. *)
Definition schedulable (p : proc) : Prop :=
  p_state p = RUNNABLE ∧ (queue (p_sched p) = ROUND_ROBIN ∨ queue (p_sched p) = LCFS ∨ queue (p_sched p) = BJF).

Lemma is_runnable_in_true q p :
  is_runnable_in q p = true ↔ p_state p = RUNNABLE ∧ queue (p_sched p) = q.
Proof.
  unfold is_runnable_in. by rewrite andb_true_iff, bool_decide_eq_true, Z.eqb_eq.
Qed.

Lemma not_in_queue (tab : list proc) q p :
  (∀ p, p ∈ tab → is_runnable_in q p = false) → p ∈ tab → p_state p = RUNNABLE → queue (p_sched p) ≠ q.
Proof.
  intros H Hp Hs Hq. specialize (H p Hp). apply not_true_iff_false in H. apply H.
  by apply is_runnable_in_true.
Qed.

Lemma rr_none (tab : list proc) :
  (∀ k, rr_ready tab k = false) → ∀ p, p ∈ tab → is_runnable_in ROUND_ROBIN p = false.
Proof.
  intros H p [k Hk]%list_elem_of_lookup. specialize (H k). unfold rr_ready in H. by rewrite Hk in H.
Qed.

(** C4: one turn of the scheduler always decides (its loops end), and decides
    right: it idles only when no process is schedulable; otherwise it picks a
    runnable process of the first non-empty queue in the order round robin, last
    come first served, best job first.  Within round robin it takes the next
    ready entry after the last one scheduled, within LCFS the latest creation
    time, within BJF a rank no other rank is below (when no rank is NaN). *)
Theorem sched_pick_correct (ev : fpeval) (tab : list proc) (last : nat) :
  length tab = NPROC → (last < NPROC)%nat →
  ∃ r last', sched_pick ev tab last = Some (r, last') ∧ (last' < NPROC)%nat ∧
  match r with
  | None => ∀ p, p ∈ tab → ¬ schedulable p
  | Some i => ∃ p, tab !! i = Some p ∧ schedulable p
      ∧ (∀ q, q ∈ tab → schedulable q → queue (p_sched p) ≤ queue (p_sched q))
      ∧ (queue (p_sched p) = ROUND_ROBIN →
           last' = i ∧ ∀ j, rr_ready tab j = true → (rr_dist last i ≤ rr_dist last j)%nat)
      ∧ (queue (p_sched p) ≠ ROUND_ROBIN → last' = last)
      ∧ (queue (p_sched p) = LCFS →
           ∀ q, q ∈ tab → is_runnable_in LCFS q = true → s32 (p_ctime q) ≤ s32 (p_ctime p))
      ∧ (queue (p_sched p) = BJF →
           (∀ q, q ∈ tab → is_runnable_in BJF q = true → is_nan (procrank ev (bjf (p_sched q))) = false) →
           ∀ q, q ∈ tab → is_runnable_in BJF q = true →
             flt (procrank ev (bjf (p_sched q))) (procrank ev (bjf (p_sched p))) = false)
  end.
Proof.
  intros Hlen Hl. unfold sched_pick.
  destruct (round_robin_spec tab last Hlen Hl) as (r & -> & Hr). simpl.
  destruct r as [i|].
  { destruct Hr as [Hi Hmin]. pose proof (rr_ready_lt _ _ Hlen Hi).
    apply round_robin_ready in Hi as (p & Hp & [Hs Hq]%is_runnable_in_true).
    exists (Some i), i. split; [done|]. split; [done|]. exists p. unfold schedulable.
    split; [done|]. split; [auto|]. rewrite Hq. split; [|done].
    intros q _ [_ [->|[->| ->]]]; done. }
  pose proof (rr_none tab Hr) as Hrr. pose proof (last_come_first_serve_spec tab) as HL.
  destruct (last_come_first_serve tab) as [i|].
  { destruct HL as (p & Hp & [Hs Hq]%is_runnable_in_true & Hall).
    exists (Some i), last. split; [done|]. split; [done|]. exists p. unfold schedulable.
    split; [done|]. split; [auto|]. rewrite Hq. split.
    - intros q Hq' [Hsq [E|[->| ->]]]; [|done|done]. by apply (not_in_queue _ _ q Hrr) in E.
    - repeat split; try done. intros _ q [j Hj]%list_elem_of_lookup Hc. by apply (Hall j). }
  exists (best_job_first ev tab), last. split; [done|]. split; [done|].
  destruct (best_job_first ev tab) as [i|] eqn:Hb.
  - destruct (best_job_first_cand _ _ _ Hb) as (p & Hp & [Hs Hq]%is_runnable_in_true).
    exists p. unfold schedulable. split; [done|]. split; [auto|]. rewrite Hq. split.
    { intros q Hq' [Hsq [E|[E| ->]]]; [by apply (not_in_queue _ _ q Hrr) in E| |done].
      by apply (not_in_queue _ _ q HL) in E. }
    repeat split; try done. intros _ Hnan q [j Hj]%list_elem_of_lookup Hc.
    pose proof (best_job_first_spec ev tab Hnan) as Hspec. rewrite Hb in Hspec.
    destruct Hspec as (p' & Hp' & _ & Hall). simplify_eq. by apply (Hall j).
  - pose proof (proj1 (best_job_first_None ev tab) Hb) as Hb'. intros p Hp [Hs [E|[E|E]]];
      [by apply (not_in_queue _ _ p Hrr) in E|by apply (not_in_queue _ _ p HL) in E|
       by apply (not_in_queue _ _ p Hb') in E].
Qed.

Definition with_queue (q : Z) (p : proc) : proc := upd_sched (set_queue q) p.

Lemma sched_pick_correct_witness :
  ∃ r last', sched_pick x87 (sample_table [with_queue BJF (sample_proc RUNNABLE 3 None);
                                          with_queue LCFS (sample_proc RUNNABLE 4 None)]) 5
    = Some (r, last') ∧ r = Some 1%nat.
Proof.
  destruct (sched_pick_correct x87 (sample_table [with_queue BJF (sample_proc RUNNABLE 3 None);
     with_queue LCFS (sample_proc RUNNABLE 4 None)]) 5) as (r & last' & H & _).
  - reflexivity.
  - unfold NPROC; lia.
  - exists r, last'. split; [exact H|]. vm_compute in H. congruence.
Defined.

(** C27: round robin is fair.  However the rest of the table changes between
    turns, an entry that stays ready is chosen within as many turns as its
    cyclic distance from the last scheduled entry, at most [NPROC]. *)
Theorem round_robin_fair (tabs : list (list proc)) (last j : nat) :
  (last < NPROC)%nat → (j < NPROC)%nat → length tabs = NPROC →
  Forall (λ tab, length tab = NPROC ∧ rr_ready tab j = true) tabs →
  Some j ∈ rr_run (take (S (rr_dist last j)) tabs) last.
Proof.
  intros Hl Hj Hlen Hall. apply rr_run_fair; [done| |by apply Forall_take].
  rewrite length_take. pose proof (rr_dist_lt last j Hl Hj). lia.
Qed.

Lemma round_robin_fair_witness :
  Some 2%nat ∈ rr_run (take 61 (replicate NPROC (sample_table (replicate 3 (sample_proc RUNNABLE 3 None))))) 5.
Proof.
  apply (round_robin_fair _ 5 2); [unfold NPROC; lia|unfold NPROC; lia|reflexivity|].
  apply Forall_replicate. split; reflexivity.
Defined.

(** ** Changing queues and aging *)

Section queue_specs.
Context {X : Type}.
Implicit Types (s : kstate X).

(** Putting process [p] in queue [q] at time [t]. *)
Definition requeue (q t : Z) (p : proc) : proc :=
  upd_sched (λ sc, set_last_exec (s32 t) (set_queue q sc)) p.

(** The body of the search loop of [change_queue], run with [ptable.lock] held. *)
Lemma requeue_entry q s j i c :
  mach_at (k_mach s) i c → 0 < ncli c < 2 ^ 31 - 2 → locks (k_mach s) !! L_ticks = None →
  (alter_proc j (upd_sched (set_queue q));;
   acquire L_ticks;;
   t ← kgets k_ticks;
   alter_proc j (upd_sched (set_last_exec (s32 t)));;
   release L_ticks) s
  = Ok tt (set_k_ptable (alter (requeue q (k_ticks s)) j (k_ptable s)) s).
Proof.
  intros Hat Hn Hl. rewrite bind_alter_proc.
  set (s1 := set_k_ptable _ s).
  rewrite (bind_ok _ _ _ _ _ (kacquire_ok L_ticks s1 i c Hat ltac:(lia) Hl)).
  rewrite bind_kgets, bind_alter_proc.
  rewrite (krelease_acquired L_ticks (k_mach s) _ i c Hat ltac:(lia) Hl) by done.
  rewrite settled_busy by (done || lia). unfold s1. destruct s; simpl. unfold set_k_mach, set_k_ptable; simpl.
  do 2 f_equal. rewrite list_alter_alter_eq. by apply list_alter_ext.
Qed.

Lemma change_queue_found pid q s i c j :
  q ≠ UNSET → mach_at (k_mach s) i c → ncli c < 2 ^ 31 - 4 →
  locks (k_mach s) !! L_ptable = None → locks (k_mach s) !! L_ticks = None →
  length (k_ptable s) = NPROC → find_index (λ p, p_pid p =? pid) (k_ptable s) = Some j →
  change_queue pid q s
  = Ok 0 (set_k_mach (settled i c (k_mach s))
           (set_k_ptable (alter (requeue q (k_ticks s)) j (k_ptable s)) s)).
Proof.
  intros Hq Hat Hn Hl1 Hl2 Hlen Hf. unfold change_queue.
  destruct (Z.eqb_spec q UNSET); [done|].
  set (s1 := set_k_mach (acquired L_ptable i c (k_mach s)) s).
  pose proof (mach_at_acquired (k_mach s) i c L_ptable Hat) as Hat1.
  assert (0 < ncli (push_cpu (eflags_if (k_mach s)) c) < 2 ^ 31 - 2) as Hn1.
  { rewrite ncli_push. destruct Hat. lia. }
  erewrite kcritical; [|done|lia|done| |]; cycle 1.
  - eapply (ptable_find_ok _ _ s1); [done|done|].
    apply (requeue_entry q s1 j i (push_cpu (eflags_if (k_mach s)) c) Hat1 Hn1).
    change (locks (acquired L_ptable i c (k_mach s)) !! L_ticks = None). by rewrite locks_acquired_ne.
  - done.
  - by destruct s.
Qed.

Lemma change_queue_missing pid q s i c :
  q ≠ UNSET → mach_at (k_mach s) i c → ncli c < 2 ^ 31 - 4 →
  locks (k_mach s) !! L_ptable = None → length (k_ptable s) = NPROC →
  find_index (λ p, p_pid p =? pid) (k_ptable s) = None →
  change_queue pid q s = Ok (-1) (set_k_mach (settled i c (k_mach s)) s).
Proof.
  intros Hq Hat Hn Hl Hlen Hf. unfold change_queue. destruct (Z.eqb_spec q UNSET); [done|].
  erewrite kcritical; [|done|lia|done|by apply ptable_find_none|done]. by destruct s.
Qed.

Lemma change_queue_relock pid q s i c :
  q ≠ UNSET → mach_at (k_mach s) i c → ncli c < 2 ^ 31 - 4 →
  locks (k_mach s) !! L_ptable = Some (Spinlock 1 (Some i)) →
  change_queue pid q s = Panic "acquire".
Proof.
  intros Hq Hat Hn Hl. unfold change_queue. destruct (Z.eqb_spec q UNSET); [done|].
  apply bind_panic. apply (kacquire_held L_ptable s i c); [done|lia|done].
Qed.

Lemma aging_skip t s j p :
  k_ptable s !! j = Some p → starved t p = false →
  (p ← get_proc j; if starved t p then change_queue (p_pid p) ROUND_ROBIN;; mret tt else mret tt) s
  = Ok tt s.
Proof. intros Hj Hs. rewrite (bind_ok _ _ _ _ _ (get_proc_ok s j p Hj)). by rewrite Hs. Qed.

End queue_specs.

(** [change_queue] on every path.  The unset queue is refused; a pid that
    no entry has gives -1 and changes nothing; otherwise the first entry with
    the pid moves to the queue and its last execution time becomes now.  Both
    locks are free again and interrupts as before. *)
Theorem change_queue_correct {X : Type} (s : kstate X) (pid q : Z) (i : nat) (c : cpu) :
  mach_at (k_mach s) i c → ncli c < 2 ^ 31 - 4 →
  locks (k_mach s) !! L_ptable = None → locks (k_mach s) !! L_ticks = None →
  length (k_ptable s) = NPROC →
  change_queue pid q s =
  if decide (q = UNSET) then Ok (-1) s else
  match find_index (λ p, p_pid p =? pid) (k_ptable s) with
  | None => Ok (-1) (set_k_mach (settled i c (k_mach s)) s)
  | Some j =>
      Ok 0 (set_k_mach (settled i c (k_mach s))
             (set_k_ptable (alter (requeue q (k_ticks s)) j (k_ptable s)) s))
  end.
Proof.
  intros Hat Hn H1 H2 Hlen. case_decide as Hq; [by rewrite Hq|].
  destruct (find_index _ _) as [j|] eqn:Hf.
  - by apply change_queue_found.
  - by apply change_queue_missing.
Qed.

Lemma change_queue_correct_witness :
  ∃ s', change_queue 7 BJF (sample_kstate (Prioritylock 0 0 [] 0) (sample_table [sample_proc RUNNING 7 None]))
        = Ok 0 s' ∧ (queue ∘ p_sched <$> k_ptable s' !! 0%nat) = Some BJF.
Proof.
  eexists. split.
  - rewrite (change_queue_correct _ 7 BJF 0 (Cpu 0 1 0 0 (Some 0%nat) 0));
      [reflexivity|by split|simpl; lia|reflexivity|reflexivity|reflexivity].
  - reflexivity.
Defined.

Lemma aging_outcome {X : Type} (s : kstate X) (t : Z) (i : nat) (c : cpu) :
  mach_at (k_mach s) i c → ncli c < 2 ^ 31 - 8 →
  locks (k_mach s) !! L_ptable = None → length (k_ptable s) = NPROC →
  aging t s = if existsb (starved t) (k_ptable s) then Panic "acquire"
              else Ok tt (set_k_mach (settled i c (k_mach s)) s).
Proof.
  intros Hat Hn Hl Hlen. unfold aging.
  rewrite (bind_ok _ _ _ _ _ (kacquire_ok L_ptable s i c Hat ltac:(lia) Hl)).
  set (s1 := set_k_mach (acquired L_ptable i c (k_mach s)) s).
  destruct (find_index (starved t) (k_ptable s)) as [j|] eqn:Hf.
  - pose proof (find_index_lt _ _ _ Hf) as Hlt. rewrite Hlen in Hlt.
    apply find_index_Some in Hf as (p & Hp & Hst & Hmin).
    replace (existsb _ _) with true.
    2:{ symmetry. apply existsb_exists. exists p. split; [|done].
        by eapply list_elem_of_In, list_elem_of_lookup_2. }
    apply bind_panic. unfold ptable_iter. rewrite (ptable_split j Hlt).
    apply kfor__first_panic.
    + intros k [_ Hk]%elem_of_seq. destruct (lookup_lt_is_Some_2 (k_ptable s) k) as [pk Hpk]; [lia|].
      eapply aging_skip; [done|]. eapply Hmin; [|done]. lia.
    + rewrite (bind_ok _ _ _ _ _ (get_proc_ok s1 j p Hp)), Hst. apply bind_panic.
      apply (change_queue_relock _ _ s1 i (push_cpu (eflags_if (k_mach s)) c)); [done| | |].
      * by apply mach_at_acquired.
      * rewrite ncli_push. lia.
      * apply locks_acquired_eq.
  - rewrite find_index_None in Hf. destruct (existsb _ _) eqn:He.
    { apply existsb_exists in He as (p & Hp%list_elem_of_In & Hst). by rewrite (Hf p Hp) in Hst. }
    rewrite (bind_ok _ _ _ tt s1).
    + rewrite (krelease_acquired L_ptable (k_mach s) s1 i c Hat ltac:(lia) Hl) by done. by destruct s.
    + apply kfor__skip. intros k [_ Hk]%elem_of_seq.
      destruct (lookup_lt_is_Some_2 (k_ptable s) k) as [pk Hpk]; [lia|].
      eapply aging_skip; [done|]. apply Hf. by eapply list_elem_of_lookup_2.
Qed.

(** C36: [aging] runs [change_queue] while it holds [ptable.lock], which
    [change_queue] takes again: as soon as one process has waited longer than
    [MAX_AGE] outside the round-robin queue, [aging] panics with "acquire"; with
    no such process it changes nothing.  No process is ever promoted. *)
Theorem aging_panics_iff_starved {X : Type} (s : kstate X) (t : Z) (i : nat) (c : cpu) :
  mach_at (k_mach s) i c → ncli c < 2 ^ 31 - 8 →
  locks (k_mach s) !! L_ptable = None → length (k_ptable s) = NPROC →
  aging t s = if existsb (starved t) (k_ptable s) then Panic "acquire"
              else Ok tt (set_k_mach (settled i c (k_mach s)) s).
Proof. apply aging_outcome. Qed.

Lemma aging_panics_iff_starved_witness :
  aging 9000 (sample_kstate (Prioritylock 0 0 [] 0)
    (sample_table [sample_proc RUNNING 7 None; with_queue LCFS (sample_proc RUNNABLE 8 None)])) = Panic "acquire".
Proof.
  rewrite (aging_panics_iff_starved _ 9000 0 (Cpu 0 1 0 0 (Some 0%nat) 0));
    [|by split|simpl; lia|reflexivity|reflexivity].
  reflexivity.
Defined.

(** ** Digit sums *)

Lemma sum_digits_spec (k : nat) : ∀ fuel temp sum, (k < fuel)%nat → 0 ≤ temp < 10 ^ Z.of_nat k →
  ∃ d, sum_digits_loop fuel temp sum = Some (sum + d) ∧ d mod 9 = temp mod 9
    ∧ 0 ≤ d ≤ 9 * Z.of_nat k ∧ (0 < temp → 0 < d).
Proof.
  induction k as [|k IH]; intros [|fuel] temp sum Hf Ht; try lia; simpl.
  - exists 0. destruct (Z.ltb_spec 0 temp); [lia|]. replace temp with 0 by lia.
    rewrite Z.add_0_r. repeat split; lia.
  - destruct (Z.ltb_spec 0 temp) as [H0|H0].
    2:{ exists 0. replace temp with 0 by lia. rewrite Z.add_0_r. repeat split; lia. }
    rewrite Nat2Z.inj_succ, Z.pow_succ_r in Ht by lia.
    rewrite Z.quot_div_nonneg, Z.rem_mod_nonneg by lia.
    destruct (IH fuel (temp / 10) (sum + temp mod 10)) as (d & -> & Hm & Hd & Hp); [lia| |].
    { split; [apply Z.div_pos; lia|apply Z.div_lt_upper_bound; lia]. }
    pose proof (Z.mod_pos_bound temp 10 ltac:(lia)). pose proof (Z.div_mod temp 10 ltac:(lia)) as Hdm.
    exists (temp mod 10 + d). split; [f_equal; lia|]. split; [|split; [lia|]].
    + rewrite Z.add_mod, Hm, <- Z.add_mod by lia. rewrite Hdm at 3.
      replace (10 * (temp / 10) + temp mod 10) with (temp mod 10 + temp / 10 + (temp / 10) * 9) by lia.
      by rewrite Z.mod_add by lia.
    + intros _. destruct (decide (temp mod 10 = 0)) as [E|E]; [|lia].
      rewrite E. apply Hp. apply Z.div_str_pos. lia.
Qed.

(** The digital root: the number below 10 with the same remainder modulo 9. *)
Definition digital_root (n : Z) : Z := if n <=? 0 then n else 1 + (n - 1) mod 9.

Lemma digital_root_small n : n ≤ 9 → digital_root n = n.
Proof. intros. unfold digital_root. destruct (Z.leb_spec n 0); [done|]. rewrite Z.mod_small; lia. Qed.

Lemma digital_root_congr n m : 0 < n → 0 < m → n mod 9 = m mod 9 → digital_root n = digital_root m.
Proof.
  intros Hn Hm H. unfold digital_root. destruct (Z.leb_spec n 0), (Z.leb_spec m 0); [lia..|].
  f_equal. by rewrite Zminus_mod, H, <- Zminus_mod.
Qed.

Lemma droot_loop_step fuel k n :
  (k < 11)%nat → n < 10 ^ Z.of_nat k →
  (∀ m, m ≤ 9 * Z.of_nat k → droot_loop fuel m = Some (digital_root m)) →
  droot_loop (S fuel) n = Some (digital_root n).
Proof.
  intros Hk Hn IH. cbn [droot_loop]. destruct (Z.ltb_spec 9 n) as [H9|H9].
  - destruct (sum_digits_spec k 11 n 0) as (d & -> & Hm & Hd & Hp); [done|lia|]. simpl.
    rewrite IH by lia. f_equal. apply digital_root_congr; [apply Hp; lia|lia|done].
  - by rewrite digital_root_small.
Qed.

(** C38: [droot] ends for every [int] (at most three rounds of summing digits)
    and returns the digital root of a positive number; non-positive arguments
    come back unchanged. *)
Theorem droot_digital_root (n : Z) : n < 2 ^ 31 → droot n = Some (digital_root n).
Proof.
  intros Hn. unfold droot. apply (droot_loop_step 3 10); [lia|lia|]. intros a Ha.
  apply (droot_loop_step 2 2); [lia|lia|]. intros b Hb.
  destruct (decide (b ≤ 9)) as [H9|H9].
  - cbn [droot_loop]. destruct (Z.ltb_spec 9 b); [lia|]. by rewrite digital_root_small.
  - assert (b ∈ seqZ 10 9) as Hin by (apply elem_of_seqZ; lia). clear -Hin.
    change (seqZ 10 9) with [10; 11; 12; 13; 14; 15; 16; 17; 18] in Hin.
    by repeat (apply elem_of_cons in Hin as [->|Hin]; [reflexivity|]); apply elem_of_nil in Hin.
Qed.

Lemma droot_digital_root_witness : droot 2147483647 = Some 1.
Proof. rewrite (droot_digital_root 2147483647); [reflexivity|lia]. Defined.

(** ** A turn of the scheduler *)

Section turn.
Context {X : Type}.
Implicit Types (s : kstate X).

(** With interrupts already off and nested, [switchuvm] only checks. *)
Lemma switchuvm_ok s i c j p :
  mach_at (k_mach s) i c → 0 < ncli c < 2 ^ 31 - 2 →
  k_ptable s !! j = Some p → p_kstack p ≠ 0 → p_pgdir p ≠ 0 →
  switchuvm j s = Ok tt s.
Proof.
  intros Hat Hn Hp Hk Hd. unfold switchuvm. rewrite (bind_ok _ _ _ _ _ (get_proc_ok s j p Hp)).
  destruct (Z.eqb_spec (p_kstack p) 0); [done|]. destruct (Z.eqb_spec (p_pgdir p) 0); [done|].
  rewrite (bind_ok _ _ _ _ _ (@pushcli_ok _ (kstate_has_machine X) s i c Hat ltac:(lia))).
  set (s1 := set_mach _ s).
  rewrite (@popcli_ok _ (kstate_has_machine X) s1 i (push_cpu (eflags_if (k_mach s)) c)
             (mach_at_pushed _ _ _ Hat)) by (rewrite ncli_push; lia).
  unfold s1. simpl. rewrite popped_pushed, settled_busy by (done || lia). by destruct s.
Qed.

(** What the scheduler does to the entry it dispatches at time [t]. *)
Definition dispatched (ev : fpeval) (t : Z) (p : proc) : proc :=
  upd_bjf (λ b, set_executed_cycle (to_float (fadd ev (executed_cycle b) f_tenth)) b)
    (upd_sched (set_last_exec (s32 t)) (set_p_state RUNNING p)).

(** The machine when control leaves for the process in entry [j]. *)
Definition dispatch_mach (i : nat) (c : cpu) (j : nat) (m : machine) : machine :=
  set_lock L_ptable (Spinlock 1 (Some i))
    (Machine (<[i := cpu_set_proc (Some j) (push_cpu true c)]> (cpus m)) (lapicid m) false (locks m)).

Lemma mach_at_dispatch m i c j :
  mach_at m i c → mach_at (dispatch_mach i c j m) i (cpu_set_proc (Some j) (push_cpu true c)).
Proof.
  intros H. apply mach_at_set_lock. apply mach_at_insert with c; [done| | |done].
  - apply apicid_push.
  - simpl. destruct H. lia.
Qed.

Lemma scheduler_dispatch ev s i c last j last' p :
  mach_at (k_mach s) i c → ncli c = 0 → locks (k_mach s) !! L_ptable = None →
  sched_pick ev (k_ptable s) last = Some (Some j, last') →
  k_ptable s !! j = Some p → p_kstack p ≠ 0 → p_pgdir p ≠ 0 →
  ∃ k, scheduler_turn ev last s
       = Wait (set_k_mach (dispatch_mach i c j (k_mach s))
                (set_k_ptable (alter (dispatched ev (k_ticks s)) j (k_ptable s)) s)) k
     ∧ ∀ s', k s' = (mycpu_alter (cpu_set_proc None);; release L_ptable;; mret last') s'.
Proof.
  intros Hat Hc0 Hl Hpick Hp Hk Hd. unfold scheduler_turn, sti, modify_mach. rewrite bind_kmodify.
  set (s1 := set_mach (set_if true (k_mach s)) s : kstate X).
  assert (mach_at (k_mach s1) i c) as Hat1 by (destruct Hat; split; [done..|lia]).
  rewrite (bind_ok _ _ _ _ _ (kacquire_ok L_ptable s1 i c Hat1 ltac:(lia) Hl)).
  rewrite bind_kgets. change (k_ptable (set_k_mach _ s1)) with (k_ptable s). rewrite Hpick.
  set (s2 := set_k_mach _ s1).
  rewrite (bind_ok _ _ _ _ _ (kmycpu_alter_ok (cpu_set_proc (Some j)) s2 i (push_cpu true c)
    (mach_at_acquired _ _ _ L_ptable Hat1) eq_refl)).
  set (s3 := set_k_mach _ s2).
  assert (s3 = set_k_mach (dispatch_mach i c j (k_mach s)) s) as E3.
  { unfold s3, s2, s1. destruct s as [m tab np ip tk fi pl ns out x]. unfold set_k_mach; simpl.
    unfold dispatch_mach, acquired, pushed, set_cpus, set_lock; simpl.
    by rewrite list_insert_insert_eq. }
  clearbody s3. subst s3.
  rewrite (bind_ok _ _ _ _ _ (switchuvm_ok (set_k_mach (dispatch_mach i c j (k_mach s)) s)
    i _ j p (mach_at_dispatch _ i c j Hat) ltac:(simpl; lia) Hp Hk Hd)).
  rewrite bind_alter_proc, bind_kgets, !bind_alter_proc. unfold kswtch, mbind at 1, K_bind at 1. simpl.
  eexists. split; [|done].
  rewrite !list_alter_alter_eq. by destruct s.
Qed.

End turn.

(** C31: a turn of the scheduler that finds a process hands the CPU to it with
    [ptable.lock] held exactly once, interrupts off, [cpu->proc] set, and the
    entry marked running with its execution time and cycle count updated.  When
    control comes back with the lock still held and nested once, the turn ends
    with no current process, the lock free and the interrupt state restored;
    when the process switched back without the lock it panics. *)
Theorem scheduler_turn_dispatches {X : Type} (ev : fpeval) (s : kstate X) (i : nat) (c : cpu)
    (last j last' : nat) (p : proc) :
  mach_at (k_mach s) i c → ncli c = 0 → locks (k_mach s) !! L_ptable = None →
  sched_pick ev (k_ptable s) last = Some (Some j, last') →
  k_ptable s !! j = Some p → p_kstack p ≠ 0 → p_pgdir p ≠ 0 →
  ∃ s1 k, scheduler_turn ev last s = Wait s1 k
    ∧ k_ptable s1 = <[j := dispatched ev (k_ticks s) p]> (k_ptable s)
    ∧ locks (k_mach s1) = <[L_ptable := Spinlock 1 (Some i)]> (locks (k_mach s))
    ∧ eflags_if (k_mach s1) = false
    ∧ (∃ c1, mach_at (k_mach s1) i c1 ∧ ncli c1 = 1 ∧ cproc c1 = Some j)
    ∧ ∀ s2 c2, mach_at (k_mach s2) i c2 → ncli c2 = 1 →
        (locks (k_mach s2) !! L_ptable = Some (Spinlock 1 (Some i)) →
           ∃ s3, k s2 = Ok last' s3 ∧ k_ptable s3 = k_ptable s2
             ∧ locks (k_mach s3) = delete L_ptable (locks (k_mach s2))
             ∧ eflags_if (k_mach s3) = negb (intena c2 =? 0)
             ∧ ∃ c3, mach_at (k_mach s3) i c3 ∧ ncli c3 = 0 ∧ cproc c3 = None)
        ∧ (locks (k_mach s2) !! L_ptable = None → k s2 = Panic "release").
Proof.
  intros Hat Hc0 Hl Hpick Hp Hk Hd.
  destruct (scheduler_dispatch ev s i c last j last' p Hat Hc0 Hl Hpick Hp Hk Hd) as (k & Hrun & Hback).
  eexists _, k. split; [exact Hrun|].
  split; [simpl; by apply list_alter_as_insert|]. split; [done|]. split; [done|]. split.
  { exists (cpu_set_proc (Some j) (push_cpu true c)). split; [by apply mach_at_dispatch|].
    simpl. split; [lia|done]. }
  intros s2 c2 Hat2 Hc2. rewrite Hback.
  assert (eflags_if (k_mach s2) = false) as Hif by (apply Hat2; lia).
  rewrite (bind_ok _ _ _ _ _ (kmycpu_alter_ok _ s2 i c2 Hat2 Hif)).
  set (s3 := set_k_mach _ s2).
  assert (mach_at (k_mach s3) i (cpu_set_proc None c2)) as Hat3.
  { apply mach_at_insert with c2; [done|done|simpl; lia|done]. }
  split; intros Hl2.
  - rewrite (bind_ok _ _ _ _ _ (krelease_ok L_ptable s3 i _ Hat3 ltac:(simpl; lia) Hl2)).
    eexists. split; [done|]. split; [done|]. split; [done|].
    split; [simpl; by rewrite Hc2|].
    exists (pop_cpu (cpu_set_proc None c2)). split; [|simpl; split; [lia|done]].
    apply mach_at_insert with (cpu_set_proc None c2); [by apply mach_at_set_lock|done|simpl; lia|].
    simpl. rewrite Hc2. lia.
  - apply bind_panic. unfold release.
    rewrite (bind_ok _ _ _ _ _ (kholding_ok L_ptable s3 i _ Hat3 ltac:(simpl; lia))).
    unfold get_lock. simpl. by rewrite Hl2.
Qed.

Lemma scheduler_turn_dispatches_witness :
  ∃ s1 k, scheduler_turn x87 5
    (set_k_mach (Machine [Cpu 0 1 0 0 None 0] 0 true ∅)
      (sample_kstate (Prioritylock 0 0 [] 0) (sample_table [sample_proc RUNNABLE 7 None]))) = Wait s1 k
    ∧ k s1 ≠ Panic "release".
Proof.
  destruct (scheduler_turn_dispatches x87
    (set_k_mach (Machine [Cpu 0 1 0 0 None 0] 0 true ∅)
      (sample_kstate (Prioritylock 0 0 [] 0) (sample_table [sample_proc RUNNABLE 7 None])))
    0 (Cpu 0 1 0 0 None 0) 5 0 0 (sample_proc RUNNABLE 7 None))
    as (s1 & k & H & _ & Hl & _ & (c1 & Hat & Hn & _) & Hk).
  - by split.
  - reflexivity.
  - reflexivity.
  - vm_compute. reflexivity.
  - reflexivity.
  - done.
  - done.
  - exists s1, k. split; [exact H|]. destruct (Hk s1 c1 Hat Hn) as [H1 _].
    destruct H1 as (s3 & -> & _); [rewrite Hl; reflexivity|discriminate].
Defined.
