(* ===== verification/Proc.v ===== *)
(** * Processes

    Models the process operations of [proc.c]: [allocproc], [userinit],
    [growproc], [fork], [exit], [wait], [sched], [yield], [forkret], [sleep],
    [wakeup], [kill] and the queries the system calls use.  Memory and file-system
    routines are reached through the interfaces [MemOps] and [FsOps], which state
    what [proc.c] relies on. *)

From S2P Require Import Prelude Spinlock Printf CString CFloat State PrioLock Sched.

Definition PGSIZE : Z := 4096.
Definition SEG_UCODE : Z := 3.
Definition SEG_UDATA : Z := 4.
Definition DPL_USER : Z := 3.
Definition ROOTDEV : Z := 1.

(** ** What [proc.c] calls *)

(** The rest of the kernel is a pair: the memory allocator's state and the file
    system's. *)
Definition put_mem {Xm Xf} (x : Xm) (s : kstate (Xm * Xf)) : kstate (Xm * Xf) := set_k_ext (x, snd (k_ext s)) s.

(** The state after a call that only touches the file system, when a balanced
    [pushcli]/[popcli] ran on CPU [i]: *)
Definition quiet_fs {Xm Xf} (i : nat) (c : cpu) (x : Xf) (s : kstate (Xm * Xf)) : kstate (Xm * Xf) :=
  set_k_ext (fst (k_ext s), x) (set_k_mach (settled i c (k_mach s)) s).

(** A settled machine stays the same through calls that balance [pushcli]. *)
Definition at_rest {X} (s : kstate X) (i : nat) (c : cpu) : Prop := k_mach s = settled i c (k_mach s).

(** The executing CPU can enter a critical section of [l]. *)
Record can_lock {X} (l : lockid) (s : kstate X) (i : nat) (c : cpu) : Prop := CanLock {
  cl_at : mach_at (k_mach s) i c;
  cl_ncli : ncli c < 2 ^ 31 - 16;
  cl_free : locks (k_mach s) !! l = None
}.

(** The user memory of the spaces [S] is the same in [x'] as in [x]. *)
Definition same_user {Xm} (byte : Xm → Z → Z → option Z) (S : gmap Z Z) (x x' : Xm) : Prop :=
  ∀ d va, is_Some (S !! d) → 0 ≤ va < 2 ^ 31 → byte x' d va = byte x d va.

Lemma same_user_trans {Xm} (byte : Xm → Z → Z → option Z) S x1 x2 x3 :
  same_user byte S x1 x2 → same_user byte S x2 x3 → same_user byte S x1 x3.
Proof. intros H1 H2 d va Hd Hva. by rewrite H2, H1. Qed.

(** Memory: [kalloc.c] and [vm.c].  Addresses of pages and page directories are
    integers, 0 for null.  [mem_own x S P]: the spaces [S] (a directory and the
    size it maps) and the kernel pages [P] are in use, and share no page;
    [mem_byte x d va]: the byte at user address [va] of directory [d]. *)
Class MemOps (Xm Xf : Type) := {
  e_kalloc : K (kstate (Xm * Xf)) Z;
  e_kfree : Z → K (kstate (Xm * Xf)) unit;
  e_setupkvm : K (kstate (Xm * Xf)) Z;
  e_inituvm : Z → list Z → K (kstate (Xm * Xf)) unit;
  e_allocuvm : Z → Z → Z → K (kstate (Xm * Xf)) Z;
  e_deallocuvm : Z → Z → Z → K (kstate (Xm * Xf)) Z;
  e_copyuvm : Z → Z → K (kstate (Xm * Xf)) Z;
  e_freevm : Z → K (kstate (Xm * Xf)) unit;
  mem_own : Xm → gmap Z Z → gset Z → Prop;
  mem_byte : Xm → Z → Z → option Z;
  e_kalloc_ok s i c S P : can_lock L_kmem s i c → at_rest s i c → mem_own (fst (k_ext s)) S P →
    ∃ r x, e_kalloc s = Ok r (put_mem x s) ∧ same_user mem_byte S (fst (k_ext s)) x
      ∧ (r = 0 ∧ mem_own x S P ∨ r ≠ 0 ∧ r ∉ P ∧ mem_own x S ({[r]} ∪ P));
  e_kfree_ok s i c S P a : can_lock L_kmem s i c → at_rest s i c → mem_own (fst (k_ext s)) S P → a ∈ P →
    ∃ x, e_kfree a s = Ok tt (put_mem x s) ∧ same_user mem_byte S (fst (k_ext s)) x ∧ mem_own x S (P ∖ {[a]});
  e_copyuvm_ok s i c S P d sz : can_lock L_kmem s i c → at_rest s i c → mem_own (fst (k_ext s)) S P → S !! d = Some sz →
    ∃ r x, e_copyuvm d sz s = Ok r (put_mem x s) ∧ same_user mem_byte S (fst (k_ext s)) x
      ∧ (r = 0 ∧ mem_own x S P ∨ r ≠ 0 ∧ S !! r = None ∧ mem_own x (<[r := sz]> S) P
           ∧ ∀ va, 0 ≤ va < 2 ^ 31 → mem_byte x r va = mem_byte (fst (k_ext s)) d va);
  e_freevm_ok s i c S P d sz : can_lock L_kmem s i c → at_rest s i c → mem_own (fst (k_ext s)) S P → S !! d = Some sz →
    ∃ x, e_freevm d s = Ok tt (put_mem x s) ∧ same_user mem_byte (delete d S) (fst (k_ext s)) x ∧ mem_own x (delete d S) P
}.

(** Files: [file.c], [fs.c] and [log.c].  [fs_file x f] and [fs_inode x n] say
    that the entry is in use. *)
Class FsOps (Xm Xf : Type) := {
  e_filedup : nat → K (kstate (Xm * Xf)) nat;
  e_fileclose : nat → K (kstate (Xm * Xf)) unit;
  e_idup : nat → K (kstate (Xm * Xf)) nat;
  e_iput : nat → K (kstate (Xm * Xf)) unit;
  e_namei : list Z → K (kstate (Xm * Xf)) (option nat);
  e_begin_op : K (kstate (Xm * Xf)) unit;
  e_end_op : K (kstate (Xm * Xf)) unit;
  e_iinit : Z → K (kstate (Xm * Xf)) unit;
  e_initlog : Z → K (kstate (Xm * Xf)) unit;
  fs_file : Xf → nat → Prop;
  fs_inode : Xf → nat → Prop;
  e_filedup_ok s i c f : can_lock L_ftable s i c → fs_file (snd (k_ext s)) f →
    ∃ x, e_filedup f s = Ok f (quiet_fs i c x s)
      ∧ (∀ f', fs_file (snd (k_ext s)) f' → fs_file x f')
      ∧ (∀ n, fs_inode (snd (k_ext s)) n → fs_inode x n);
  e_idup_ok s i c n : can_lock L_icache s i c → fs_inode (snd (k_ext s)) n →
    ∃ x, e_idup n s = Ok n (quiet_fs i c x s)
}.

Section switching.
Context {X : Type}.
Notation M := (K (kstate X)).

(** ** Switching, sleeping and waking *)

Definition sched : M unit :=
  o ← myproc;
  h ← holding L_ptable;
  if negb h then kpanic "sched ptable.lock" else
  c ← mycpu_get;
  if negb (ncli c =? 1) then kpanic "sched locks" else
  match o with
  | None => kundef "p is null"
  | Some i =>
      p ← get_proc i;
      if bool_decide (p_state p = RUNNING) then kpanic "sched running" else
      fl ← readeflags_if;
      if (fl : bool) then kpanic "sched interruptible" else
      c ← mycpu_get;
      kswtch;;
      mycpu_alter (cpu_set_intena (intena c))
  end.

Definition yield : M unit :=
  acquire L_ptable;;
  i ← curproc;
  alter_proc i (set_p_state RUNNABLE);;
  sched;;
  release L_ptable.

Definition sleep (chan : option channel) (lk : option lockid) : M unit :=
  o ← myproc;
  match o with
  | None => kpanic "sleep"
  | Some i =>
      match lk with
      | None => kpanic "sleep without lk"
      | Some l =>
          (if decide (l ≠ L_ptable) then acquire L_ptable;; release l else mret tt);;
          alter_proc i (set_p_chan chan);;
          alter_proc i (set_p_state SLEEPING);;
          sched;;
          alter_proc i (set_p_chan None);;
          (if decide (l ≠ L_ptable) then release L_ptable;; acquire l else mret tt)
      end
  end.

(** What [wakeup1] does to one entry. *)
Definition wake (chan : option channel) (p : proc) : proc :=
  if bool_decide (p_state p = SLEEPING) && bool_decide (p_chan p = chan)
  then set_p_state RUNNABLE p else p.

Definition wakeup1 (chan : option channel) : M unit :=
  ptable_iter (λ i, alter_proc i (wake chan)).

Definition wakeup (chan : option channel) : M unit :=
  acquire L_ptable;;
  wakeup1 chan;;
  release L_ptable.

Definition kill (pid : Z) : M Z :=
  acquire L_ptable;;
  found ← ptable_find (λ p, p_pid p =? pid) (λ i,
    alter_proc i (set_p_killed 1);;
    alter_proc i (λ p, if bool_decide (p_state p = SLEEPING) then set_p_state RUNNABLE p else p));
  release L_ptable;;
  mret (match found with Some _ => 0 | None => -1 end).

(** The end of [exit]: with [ptable.lock] held it wakes the parent, passes the
    children to init and gives up the CPU for good. *)
Definition reparent (cur : nat) : M unit :=
  ptable_iter (λ i,
    p ← get_proc i;
    if bool_decide (p_parent p = Some cur) then
      ip ← kgets k_initproc;
      alter_proc i (set_p_parent ip);;
      (if bool_decide (p_state p = ZOMBIE) then wakeup1 (Chan_proc <$> ip) else mret tt)
    else mret tt).

Definition exit_finish (cur : nat) : M unit :=
  acquire L_ptable;;
  p ← get_proc cur;
  wakeup1 (Chan_proc <$> p_parent p);;
  reparent cur;;
  alter_proc cur (set_p_state ZOMBIE);;
  sched;;
  kpanic "zombie exit".

(** ** Queries *)

Definition cprintf (fmt : string) (args : list farg) : M unit :=
  match cprintf_loop (str fmt) args with
  | Some txt => kmodify (λ s, set_k_out (k_out s ++ txt) s)
  | None => kundef "cprintf"
  end.

(** [for (i = 0; i < count; ++i) cprintf(" ")] *)
Definition printspaces (count : Z) : M unit :=
  kfor_ (seq 0 (Z.to_nat count)) (λ _, cprintf " " []).

(** A column: an integer and the spaces after it. *)
Definition print_column (width n : Z) : M unit :=
  cprintf "%d" [FInt n];;
  match digitcount n with
  | Some k => printspaces (width - k)
  | None => knofuel
  end.

Definition print_text_column (width : Z) (txt : list Z) : M unit :=
  cprintf "%s" [FStr (cstr txt)];;
  printspaces (width - Z.of_nat (length (cstr txt))).

Definition state_name (st : procstate) : string :=
  match st with
  | UNUSED => "unused" | EMBRYO => "embryo" | SLEEPING => "sleeping"
  | RUNNABLE => "runnable" | RUNNING => "running" | ZOMBIE => "zombie"
  end.

Definition NL : list Z := [10].

Definition put_text (txt : list Z) : M unit := kmodify (λ s, set_k_out (k_out s ++ txt) s).

(** [cprintf] of a text that ends a line. *)
Definition message (txt : string) : M unit :=
  cprintf txt [];;
  put_text NL.

Definition print_process (ev : fpeval) (p : proc) : M unit :=
  let b := bjf (p_sched p) in
  print_text_column 16 (p_name p);;
  print_column 8 (p_pid p);;
  print_text_column 12 (str (state_name (p_state p)));;
  print_column 8 (queue (p_sched p));;
  print_column 8 (float_to_int (executed_cycle b));;
  print_column 8 (arrival_time b);;
  print_column 8 (priority b);;
  print_column 8 (process_size b);;
  print_column 8 (float_to_int (priority_ratio b));;
  print_column 8 (float_to_int (arrival_time_ratio b));;
  print_column 8 (float_to_int (executed_cycle_ratio b));;
  print_column 8 (float_to_int (process_size_ratio b));;
  cprintf "%d" [FInt (float_to_int (procrank ev b))];;
  put_text NL.

Definition print_processes_infos (ev : fpeval) : M Z :=
  cprintf "Process_Name    PID     State     Queue   Cycle   Arrival  Priority  Size  R_Prty  R_Arvl  R_Exec  R_Size  Rank" [];;
  put_text NL;;
  cprintf "---------------------------------------------------------------------------------------------------------------" [];;
  put_text NL;;
  ptable_iter (λ i,
    p ← get_proc i;
    if bool_decide (p_state p = UNUSED) then mret tt else print_process ev p);;
  mret 0.

(** [myproc()->parent->parent] dereferences the parent. *)
Definition nuncle : M Z :=
  cur ← curproc;
  p ← get_proc cur;
  match p_parent p with
  | None => kundef "parent is null"
  | Some pa =>
      q ← get_proc pa;
      tab ← kgets k_ptable;
      mret (Z.of_nat (length (filter (λ r, p_parent r = p_parent q) tab)) - 1)
  end.

Definition ptime : M Z :=
  cur ← curproc;
  p ← get_proc cur;
  t ← kgets k_ticks;
  mret (s32 (t - p_ctime p)).

Definition pacquire (fuel : nat) : M Z :=
  h ← isholdingpriority;
  if (h : bool) then mret (-1) else
  acquirepriority fuel;;
  cur ← curproc;
  p ← get_proc cur;
  mret (p_pid p).

Definition prelease : M Z :=
  h ← isholdingpriority;
  if negb h then mret (-1) else
  releasepriority;;
  mret 0.

Definition pqueue : M Z := showlockqueue;; mret 0.

Definition pinit : M unit :=
  initlock L_ptable;;
  kmodify (λ s, set_k_plock (initprioritylock (k_plock s)) s);;
  initlock L_plock.

End switching.

(** ** Life of a process *)

Section proc_ops.
Context {Xm Xf : Type} `{!MemOps Xm Xf} `{!FsOps Xm Xf}.
Notation M := (K (kstate (Xm * Xf))).

(** [safestrcpy(p->name, src, sizeof(p->name))] *)
Definition set_name (i : nat) (src : list Z) : M unit :=
  p ← get_proc i;
  match safestrcpy (p_name p) src 16 with
  | Some n => alter_proc i (set_p_name n)
  | None => kundef "unterminated name"
  end.

(** The scheduling parameters [allocproc] gives a process. *)
Definition initial_sched : schedparams :=
  Schedparams UNSET
    (Bjfparams NORMAL (S754_zero false) 0 0 f_one f_one f_one f_one) 0.

(** The kernel stack of [allocproc]: the saved context starts at [forkret] and
    the word above it is [trapret]; the trap frame keeps what was in the page. *)
Definition setup_stack (p : proc) : proc :=
  set_p_sched initial_sched
    (set_p_context (Context 0 0 0 0 A_forkret) (set_p_ret A_trapret p)).

(** Returns the index of the new process, [None] for a null pointer. *)
Definition allocproc : M (option nat) :=
  acquire L_ptable;;
  found ← ptable_find (λ p, bool_decide (p_state p = UNUSED)) (λ i,
    alter_proc i (set_p_state EMBRYO);;
    pid ← kgets k_nextpid;
    alter_proc i (set_p_pid pid);;
    kmodify (set_k_nextpid (s32 (pid + 1)));;
    mret i);
  release L_ptable;;
  match found with
  | None => mret None
  | Some i =>
      ks ← e_kalloc;
      alter_proc i (set_p_kstack ks);;
      if ks =? 0 then alter_proc i (set_p_state UNUSED);; mret None
      else alter_proc i setup_stack;; mret (Some i)
  end.

Definition zero_tf : trapframe := Trapframe 0 0 0 0 0 0 0 0 0 0 0.

(** The trap frame of the first process. *)
Definition init_tf : trapframe :=
  let ds := Z.lor (Z.shiftl SEG_UDATA 3) DPL_USER in
  set_tf_eip 0 (set_tf_esp PGSIZE (set_tf_eflags FL_IF (set_tf_ss ds (set_tf_es ds
    (set_tf_ds ds (set_tf_cs (Z.lor (Z.shiftl SEG_UCODE 3) DPL_USER) zero_tf)))))).

(** [initcode] is the program the linker puts in the kernel image. *)
Definition userinit (initcode : list Z) : M unit :=
  o ← allocproc;
  kmodify (set_k_initproc o);;
  match o with
  | None => kundef "p is null"
  | Some i =>
      d ← e_setupkvm;
      alter_proc i (set_p_pgdir d);;
      if d =? 0 then kpanic "userinit: out of memory?" else
      e_inituvm d initcode;;
      alter_proc i (set_p_sz PGSIZE);;
      alter_proc i (set_p_tf init_tf);;
      set_name i (str "initcode" ++ [0]);;
      cwd ← e_namei (str "/" ++ [0]);
      alter_proc i (set_p_cwd cwd);;
      acquire L_ptable;;
      alter_proc i (set_p_state RUNNABLE);;
      release L_ptable;;
      p ← get_proc i;
      init_queue (p_pid p);;
      mret tt
  end.

Definition growproc (n : Z) : M Z :=
  i ← curproc;
  p ← get_proc i;
  let sz := p_sz p in
  let finish (sz : Z) : M Z :=
    alter_proc i (set_p_sz sz);;
    switchuvm i;;
    mret 0 in
  if 0 <? n then
    sz ← e_allocuvm (p_pgdir p) sz (u32 (sz + n));
    if sz =? 0 then mret (-1) else finish sz
  else if n <? 0 then
    sz ← e_deallocuvm (p_pgdir p) sz (u32 (sz + n));
    if sz =? 0 then mret (-1) else finish sz
  else finish sz.

(** [sizeof(np)]: the size of a pointer. *)
Definition SIZEOF_PTR : Z := 4.

(** The loop of [fork] over the parent's open files. *)
Definition fork_files (cur np : nat) : M unit :=
  kfor_ (seq 0 NOFILE) (λ fd,
    p ← get_proc cur;
    match p_ofile p !! fd with
    | Some (Some f) =>
        f' ← e_filedup f;
        alter_proc np (λ q, set_p_ofile (<[fd := Some f']> (p_ofile q)) q)
    | _ => mret tt
    end).

(** The end of [fork]: the child [np] becomes runnable. *)
Definition fork_publish (np : nat) (pid : Z) : M Z :=
  acquire L_ptable;;
  alter_proc np (set_p_state RUNNABLE);;
  release L_ptable;;
  acquire L_ticks;;
  t ← kgets k_ticks;
  alter_proc np (upd_sched (set_last_exec (s32 t)));;
  alter_proc np (upd_bjf (set_arrival_time (s32 t)));;
  alter_proc np (set_p_ctime t);;
  release L_ticks;;
  alter_proc np (upd_bjf (set_process_size SIZEOF_PTR));;
  init_queue pid;;
  mret pid.

(** Copying the parent [cur] into the child, once it has its address space:
    size, registers and open files, *)
Definition fork_copy (cur np : nat) : M unit :=
  p ← get_proc cur;
  alter_proc np (set_p_sz (p_sz p));;
  alter_proc np (set_p_parent (Some cur));;
  alter_proc np (set_p_tf (p_tf p));;
  alter_proc np (λ q, set_p_tf (set_tf_eax 0 (p_tf q)) q);;
  fork_files cur np.

(** then the directory and the name. *)
Definition fork_child (cur np : nat) : M Z :=
  fork_copy cur np;;
  p ← get_proc cur;
  match p_cwd p with
  | None => kundef "idup of null"
  | Some ip =>
      ip' ← e_idup ip;
      alter_proc np (set_p_cwd (Some ip'));;
      set_name np (p_name p);;
      q ← get_proc np;
      fork_publish np (p_pid q)
  end.

Definition fork : M Z :=
  cur ← curproc;
  o ← allocproc;
  match o with
  | None => mret (-1)
  | Some np =>
      p ← get_proc cur;
      d ← e_copyuvm (p_pgdir p) (p_sz p);
      alter_proc np (set_p_pgdir d);;
      if d =? 0 then
        q ← get_proc np;
        e_kfree (p_kstack q);;
        alter_proc np (set_p_kstack 0);;
        alter_proc np (set_p_state UNUSED);;
        mret (-1)
      else fork_child cur np
  end.

Definition forkret : M unit :=
  release L_ptable;;
  f ← kgets k_first;
  if negb (f =? 0) then
    kmodify (set_k_first 0);;
    e_iinit ROOTDEV;;
    e_initlog ROOTDEV
  else mret tt.

(** ** [exit] and [wait] *)

(** [exit] closes the open files, *)
Definition exit_files (cur : nat) : M unit :=
  kfor_ (seq 0 NOFILE) (λ fd,
    p ← get_proc cur;
    match p_ofile p !! fd with
    | Some (Some f) =>
        e_fileclose f;;
        alter_proc cur (λ p, set_p_ofile (<[fd := None]> (p_ofile p)) p)
    | _ => mret tt
    end).

(** leaves the current directory, *)
Definition exit_cwd (cur : nat) : M unit :=
  e_begin_op;;
  p ← get_proc cur;
  match p_cwd p with
  | None => kundef "iput of null"
  | Some ip => e_iput ip;; e_end_op;; alter_proc cur (set_p_cwd None)
  end.

(** and ends with [exit_finish]. *)
Definition exit : M unit :=
  cur ← curproc;
  h ← isholdingpriority;
  (if (h : bool) then releasepriority else mret tt);;
  ip ← kgets k_initproc;
  if bool_decide (ip = Some cur) then kpanic "init exiting" else
  exit_files cur;;
  exit_cwd cur;;
  exit_finish cur.

(** Freeing the zombie in entry [i]; the lock is released. *)
Definition reap (i : nat) : M Z :=
  p ← get_proc i;
  let pid := p_pid p in
  e_kfree (p_kstack p);;
  alter_proc i (set_p_kstack 0);;
  e_freevm (p_pgdir p);;
  alter_proc i (set_p_pid 0);;
  alter_proc i (set_p_parent None);;
  alter_proc i (λ p, set_p_name (<[0%nat := 0]> (p_name p)) p);;
  alter_proc i (set_p_killed 0);;
  alter_proc i (set_p_state UNUSED);;
  release L_ptable;;
  mret pid.

(** The scan of [wait]: [inl pid] when a zombie child was reaped, otherwise
    whether there is any child. *)
Fixpoint wait_scan (l : list nat) (cur : nat) (havekids : bool) : M (Z + bool) :=
  match l with
  | [] => mret (inr havekids)
  | i :: l' =>
      p ← get_proc i;
      if negb (bool_decide (p_parent p = Some cur)) then wait_scan l' cur havekids else
      if bool_decide (p_state p = ZOMBIE) then pid ← reap i; mret (inl pid)
      else wait_scan l' cur true
  end.

(** The loop of [wait]; each turn beyond the first follows a [sleep]. *)
Fixpoint wait_loop (fuel : nat) (cur : nat) : M Z :=
  match fuel with
  | 0%nat => knofuel
  | S fuel' =>
      r ← wait_scan (seq 0 NPROC) cur false;
      match r with
      | inl pid => mret pid
      | inr havekids =>
          p ← get_proc cur;
          if negb havekids || negb (p_killed p =? 0) then release L_ptable;; mret (-1)
          else sleep (Some (Chan_proc cur)) (Some L_ptable);; wait_loop fuel' cur
      end
  end.

Definition wait (fuel : nat) : M Z :=
  cur ← curproc;
  acquire L_ptable;;
  wait_loop fuel cur.

End proc_ops.

(** ** Lemmas *)

Section proc_lemmas.
Context {X : Type}.
Implicit Types (s : kstate X).

(** No critical section is open on this CPU beyond [ncli], and the locks of [L]
    are free. *)
Record ready (L : list lockid) (s : kstate X) (i : nat) (c : cpu) : Prop := Ready {
  rd_at : mach_at (k_mach s) i c;
  rd_ncli : ncli c < 2 ^ 31 - 16;
  rd_free : ∀ l, l ∈ L → locks (k_mach s) !! l = None
}.

Lemma ready_can_lock L s i c l : ready L s i c → l ∈ L → can_lock l s i c.
Proof. intros [H1 H2 H3] Hl. split; auto. Qed.

Lemma ready_mono L L' s i c : ready L s i c → L' ⊆ L → ready L' s i c.
Proof. intros [H1 H2 H3] HL. split; [done|done|]. intros l Hl. by apply H3, HL. Qed.

Lemma ready_mach L s s' i c : ready L s i c → k_mach s' = k_mach s → ready L s' i c.
Proof. intros [H1 H2 H3] E. split; by rewrite ?E. Qed.

Lemma ncli_settle fl c : ncli (settle fl c) = ncli c.
Proof. unfold settle. by destruct (ncli c =? 0). Qed.

Lemma cproc_settle fl c : cproc (settle fl c) = cproc c.
Proof. unfold settle. by destruct (ncli c =? 0). Qed.

Lemma settle_settle fl c : settle fl (settle fl c) = settle fl c.
Proof. unfold settle at 1. rewrite ncli_settle. unfold settle. by destruct (ncli c =? 0). Qed.

Lemma settled_settled m i c :
  settled i (settle (eflags_if m) c) (settled i c m) = settled i c m.
Proof.
  unfold settled, set_cpus; simpl. by rewrite settle_settle, list_insert_insert_eq.
Qed.

Lemma ready_settled L s s' i c :
  ready L s i c → k_mach s' = settled i c (k_mach s) →
  ready L s' i (settle (eflags_if (k_mach s)) c).
Proof.
  intros [H1 H2 H3] Hm. split; rewrite ?Hm.
  - by apply mach_at_settled.
  - by rewrite ncli_settle.
  - done.
Qed.

Lemma ready_acquired L s s' i c l :
  ready L s i c → ncli c < 2 ^ 31 - 17 → k_mach s' = acquired l i c (k_mach s) →
  ready (filter (λ l', l' ≠ l) L) s' i (push_cpu (eflags_if (k_mach s)) c).
Proof.
  intros [H1 H2 H3] Hn Hm. split; rewrite ?Hm.
  - by apply mach_at_acquired.
  - rewrite ncli_push. lia.
  - intros l' [Hne Hl']%list_elem_of_filter. rewrite locks_acquired_ne by done. auto.
Qed.

Lemma at_rest_settled m s i c :
  k_mach s = settled i c m → at_rest s i (settle (eflags_if m) c).
Proof. intros H. unfold at_rest. by rewrite H, settled_settled. Qed.

Lemma kcritical_rest {A B} (l : lockid) (body : K (kstate X) A) (k : A → K (kstate X) B) s i c a s1 :
  can_lock l s i c → at_rest s i c →
  body (set_k_mach (acquired l i c (k_mach s)) s) = Ok a s1 →
  k_mach s1 = acquired l i c (k_mach s) →
  (acquire l;; x ← body; release l;; k x) s = k a (set_k_mach (k_mach s) s1).
Proof.
  intros [H1 H2 H3] Hr Hb Hm. rewrite (kcritical l body k s i c a s1) by (done || lia).
  by rewrite <- Hr.
Qed.

(** [wakeup1] as a map over the table. *)
Lemma wakeup1_ok chan s :
  length (k_ptable s) = NPROC →
  wakeup1 chan s = Ok tt (set_k_ptable (map (wake chan) (k_ptable s)) s).
Proof. apply ptable_iter_alter. Qed.

Lemma wake_idem chan p : wake chan (wake chan p) = wake chan p.
Proof.
  unfold wake. destruct (bool_decide (p_state p = SLEEPING) && bool_decide (p_chan p = chan)) eqn:E.
  - done.
  - by rewrite E.
Qed.

Lemma wake_parent chan p : p_parent (wake chan p) = p_parent p.
Proof. unfold wake. by destruct (_ && _). Qed.

Lemma wake_pid chan p : p_pid (wake chan p) = p_pid p.
Proof. unfold wake. by destruct (_ && _). Qed.

Lemma wake_zombie chan p : p_state (wake chan p) = ZOMBIE ↔ p_state p = ZOMBIE.
Proof.
  unfold wake. destruct (bool_decide (p_state p = SLEEPING)) eqn:E; simpl; [|done].
  apply bool_decide_eq_true in E. destruct (bool_decide _); simpl; rewrite ?E; done.
Qed.

End proc_lemmas.

Lemma quiet_fs_rest {Xm Xf} i c (x : Xf) (s : kstate (Xm * Xf)) :
  at_rest s i c → quiet_fs i c x s = set_k_ext (fst (k_ext s), x) s.
Proof. intros H. unfold quiet_fs. rewrite <- H. by destruct s. Qed.

Section alloc_lemmas.
Context {Xm Xf : Type} `{!MemOps Xm Xf} `{!FsOps Xm Xf}.
Implicit Types (s : kstate (Xm * Xf)).

Definition is_unused (p : proc) : bool := bool_decide (p_state p = UNUSED).

(** The table entry after [allocproc] got pid [pid] and kernel stack [ks]. *)
Definition alloc_entry (pid ks : Z) (p : proc) : proc :=
  let p := set_p_kstack ks (set_p_pid pid (set_p_state EMBRYO p)) in
  if ks =? 0 then set_p_state UNUSED p else setup_stack p.

Lemma allocproc_full s i c :
  can_lock L_ptable s i c → length (k_ptable s) = NPROC →
  find_index is_unused (k_ptable s) = None →
  allocproc s = Ok None (set_k_mach (settled i c (k_mach s)) s).
Proof.
  intros [H1 H2 H3] Hlen Hf. unfold allocproc.
  erewrite kcritical; [|done|lia|done|by apply ptable_find_none|done]. by destruct s.
Qed.

(** The state after [allocproc] chose entry [j] and got stack [ks]. *)
Definition alloc_state (i : nat) (c : cpu) (j : nat) (ks : Z) (x : Xm) (s : kstate (Xm * Xf)) : kstate (Xm * Xf) :=
  set_k_ext (x, snd (k_ext s)) (set_k_mach (settled i c (k_mach s))
    (set_k_nextpid (s32 (k_nextpid s + 1))
      (set_k_ptable (alter (alloc_entry (k_nextpid s) ks) j (k_ptable s)) s))).

(** The state in which [allocproc] asks for a stack for entry [j]. *)
Definition picked (i : nat) (c : cpu) (j : nat) (s : kstate (Xm * Xf)) : kstate (Xm * Xf) :=
  set_k_mach (settled i c (k_mach s))
    (set_k_nextpid (s32 (k_nextpid s + 1))
      (set_k_ptable (alter (set_p_pid (k_nextpid s)) j (alter (set_p_state EMBRYO) j (k_ptable s))) s)).

Lemma allocproc_with s i c j ks x :
  can_lock L_ptable s i c → length (k_ptable s) = NPROC → find_index is_unused (k_ptable s) = Some j →
  e_kalloc (picked i c j s) = Ok ks (put_mem x (picked i c j s)) →
  allocproc s = Ok (if ks =? 0 then None else Some j) (alloc_state i c j ks x s).
Proof.
  intros [H1 H2 H3] Hlen Hf Ha. unfold allocproc. erewrite kcritical; [|done|lia|done|eapply ptable_find_ok; [done|done|krun; done]|done].
  cbv iota.
  rewrite (bind_ok _ _ _ ks (put_mem x (picked i c j s))) by exact Ha. unfold put_mem.
  rewrite bind_alter_proc. destruct s as [m tab np ip tk fi pl ns out ext].
  unfold picked, alloc_state, alloc_entry.
  destruct (ks =? 0); rewrite bind_alter_proc; krun; unfold set_k_ptable, set_k_ext, set_k_mach,
    set_k_nextpid; simpl; do 2 f_equal; rewrite !list_alter_alter_eq; by apply list_alter_ext.
Qed.

Lemma allocproc_slot s i c j S P :
  ready [L_ptable; L_kmem] s i c → length (k_ptable s) = NPROC →
  find_index is_unused (k_ptable s) = Some j → mem_own (fst (k_ext s)) S P →
  ∃ ks x, allocproc s = Ok (if ks =? 0 then None else Some j) (alloc_state i c j ks x s)
    ∧ same_user mem_byte S (fst (k_ext s)) x
    ∧ (ks = 0 ∧ mem_own x S P ∨ ks ≠ 0 ∧ ks ∉ P ∧ mem_own x S ({[ks]} ∪ P)).
Proof.
  intros Hrd Hlen Hf Hown.
  assert (can_lock L_kmem (picked i c j s) i (settle (eflags_if (k_mach s)) c)) as Hk.
  { eapply ready_can_lock; [by eapply ready_settled|set_solver]. }
  destruct (e_kalloc_ok (picked i c j s) i _ S P Hk ltac:(by apply at_rest_settled) Hown) as (ks & x & Ha & Hsame & Hpg).
  exists ks, x. split; [|by split]. apply allocproc_with; [eapply ready_can_lock; [done|set_solver]|done..].
Qed.

End alloc_lemmas.

(** ** Pids *)

(** The table: no two entries share a non-zero pid, pids are below [nextpid], and
    an entry in use has one. *)
Record ptable_wf {X} (s : kstate X) : Prop := PtableWf {
  wf_len : length (k_ptable s) = NPROC;
  wf_next : 0 < k_nextpid s;
  wf_pid : ∀ i p, k_ptable s !! i = Some p → 0 ≤ p_pid p < k_nextpid s;
  wf_live : ∀ i p, k_ptable s !! i = Some p → p_state p ≠ UNUSED → p_pid p ≠ 0;
  wf_uniq : ∀ i j p q, k_ptable s !! i = Some p → k_ptable s !! j = Some q →
    p_pid p = p_pid q → p_pid p ≠ 0 → i = j
}.

Section pid_lemmas.
Context {X : Type}.
Implicit Types (s : kstate X).

Lemma init_queue_ok pid s i c j :
  can_lock L_ptable s i c → length (k_ptable s) = NPROC → 0 < pid →
  find_index (λ p, p_pid p =? pid) (k_ptable s) = Some j →
  init_queue pid s = Ok 0 (set_k_mach (settled i c (k_mach s))
    (set_k_ptable (alter (upd_sched (set_queue ROUND_ROBIN)) j (k_ptable s)) s)).
Proof.
  intros [H1 H2 H3] Hlen Hpid Hf. unfold init_queue.
  assert (∀ q, (acquire L_ptable;;
    ptable_find (λ p, p_pid p =? pid) (λ i, alter_proc i (upd_sched (set_queue q)));;
    release L_ptable;; mret 0) s = Ok 0 (set_k_mach (settled i c (k_mach s))
    (set_k_ptable (alter (upd_sched (set_queue q)) j (k_ptable s)) s))) as Hgo.
  { intros q. erewrite kcritical; [|done|lia|done|by eapply ptable_find_ok|done]. by destruct s. }
  destruct (Z.eqb_spec pid 1); [apply Hgo|]. destruct (Z.eqb_spec pid 2); [apply Hgo|].
  destruct (Z.ltb_spec 2 pid); [apply Hgo|lia].
Qed.

(** Changing entries without touching pids keeps the table well formed when no
    unused entry comes to life. *)
Lemma ptable_wf_update s s' :
  ptable_wf s → k_nextpid s' = k_nextpid s → length (k_ptable s') = length (k_ptable s) →
  (∀ i p', k_ptable s' !! i = Some p' → ∃ p, k_ptable s !! i = Some p
     ∧ p_pid p' = p_pid p ∧ (p_state p' ≠ UNUSED → p_state p ≠ UNUSED)) →
  ptable_wf s'.
Proof.
  intros [H1 H2 H3 H4 H5] Hn Hl Hup. split.
  - by rewrite Hl.
  - by rewrite Hn.
  - intros i p' (p & Hp & -> & _)%Hup. rewrite Hn. by eapply H3.
  - intros i p' Hp' Hs. destruct (Hup i p' Hp') as (p & Hp & -> & Hu). eauto.
  - intros i j p' q' Hp' Hq'. destruct (Hup i p' Hp') as (p & Hp & -> & _).
    destruct (Hup j q' Hq') as (q & Hq & -> & _). by eapply H5.
Qed.

Lemma ptable_wf_alter s s' j f :
  ptable_wf s → k_nextpid s' = k_nextpid s → k_ptable s' = alter f j (k_ptable s) →
  (∀ p, k_ptable s !! j = Some p → p_pid (f p) = p_pid p
     ∧ (p_state (f p) ≠ UNUSED → p_state p ≠ UNUSED)) →
  ptable_wf s'.
Proof.
  intros Hwf Hn Ht Hf. eapply ptable_wf_update; [done|done|by rewrite Ht, length_alter|].
  intros i p'. rewrite Ht, list_lookup_alter. case_decide as Hij.
  - subst. intros (p & Hp & ->)%fmap_Some. exists p. destruct (Hf p Hp). auto.
  - intros Hp. by exists p'.
Qed.

Lemma ptable_wf_map s s' f :
  ptable_wf s → k_nextpid s' = k_nextpid s → k_ptable s' = map f (k_ptable s) →
  (∀ p, p_pid (f p) = p_pid p ∧ (p_state (f p) ≠ UNUSED → p_state p ≠ UNUSED)) →
  ptable_wf s'.
Proof.
  intros Hwf Hn Ht Hf. eapply ptable_wf_update; [done|done|by rewrite Ht, length_map|].
  intros i p'. rewrite Ht. change (map f (k_ptable s)) with (f <$> k_ptable s).
  rewrite list_lookup_fmap. intros (p & Hp & ->)%fmap_Some. exists p. destruct (Hf p). auto.
Qed.

(** Giving a fresh pid to an entry. *)
Lemma ptable_wf_fresh s s' j f :
  ptable_wf s → k_nextpid s' = k_nextpid s + 1 → k_ptable s' = alter f j (k_ptable s) →
  (∀ p, k_ptable s !! j = Some p → p_pid (f p) = k_nextpid s) →
  ptable_wf s'.
Proof.
  intros [H1 H2 H3 H4 H5] Hn Ht Hf.
  assert (∀ i p', k_ptable s' !! i = Some p' →
    (i = j ∧ p_pid p' = k_nextpid s) ∨ (i ≠ j ∧ k_ptable s !! i = Some p')) as Hcase.
  { intros i p'. rewrite Ht, list_lookup_alter. case_decide as Hij; [|auto].
    subst. intros (p & Hp & ->)%fmap_Some. left. auto. }
  split.
  - by rewrite Ht, length_alter.
  - lia.
  - intros i p' [[-> ->]|[_ Hp]]%Hcase; [lia|]. specialize (H3 i p' Hp). lia.
  - intros i p' [[-> ->]|[_ Hp]]%Hcase; [lia|]. by eapply H4.
  - intros i i' p q [[-> Hp]|[Hi Hp]]%Hcase [[-> Hq]|[Hi' Hq]]%Hcase Heq Hne; [done|..].
    + specialize (H3 i' q Hq). lia.
    + specialize (H3 i p Hp). lia.
    + by eapply H5.
Qed.

(** With unique pids the search for a pid finds its entry. *)
Lemma find_pid s j p :
  ptable_wf s → k_ptable s !! j = Some p → p_pid p ≠ 0 →
  find_index (λ q, p_pid q =? p_pid p) (k_ptable s) = Some j.
Proof.
  intros Hwf Hj Hne. eapply find_index_intro; [done|apply Z.eqb_refl|].
  intros i q Hi Hq. apply Z.eqb_neq. intros E.
  assert (i = j); [|lia]. eapply (wf_uniq _ Hwf); [done|done|done|congruence].
Qed.

End pid_lemmas.

(** ** [fork] *)

Section fork_lemmas.
Context {Xm Xf : Type} `{!MemOps Xm Xf} `{!FsOps Xm Xf}.
Implicit Types (s : kstate (Xm * Xf)).

(** The open files of a child: those of the parent over its own. *)
Definition dup_file (pof : list (option nat)) (o : list (option nat)) (fd : nat) : list (option nat) :=
  match pof !! fd with
  | Some (Some f) => <[fd := Some f]> o
  | _ => o
  end.

Definition dup_files (pof : list (option nat)) (l : list nat) (o : list (option nat)) : list (option nat) :=
  foldl (dup_file pof) o l.

(** One turn of the loop over the files. *)
Lemma fork_files_step cur np p fd s i c :
  can_lock L_ftable s i c → at_rest s i c → k_ptable s !! cur = Some p →
  (∀ f, p_ofile p !! fd = Some (Some f) → fs_file (snd (k_ext s)) f) →
  ∃ xf, (p ← get_proc cur;
      match p_ofile p !! fd with
      | Some (Some f) =>
          f' ← e_filedup f;
          alter_proc np (λ q, set_p_ofile (<[fd := Some f']> (p_ofile q)) q)
      | _ => mret tt
      end) s
    = Ok tt (set_k_ext (fst (k_ext s), xf)
        (set_k_ptable (alter (λ q, set_p_ofile (dup_file (p_ofile p) (p_ofile q) fd) q) np (k_ptable s)) s))
    ∧ (∀ f, fs_file (snd (k_ext s)) f → fs_file xf f)
    ∧ (∀ n, fs_inode (snd (k_ext s)) n → fs_inode xf n).
Proof.
  intros Hcl Hrest Hp Hfs. rewrite (bind_ok _ _ _ _ _ (get_proc_ok s cur p Hp)). unfold dup_file.
  destruct (p_ofile p !! fd) as [[f|]|] eqn:Hfd.
  - destruct (e_filedup_ok s i c f Hcl (Hfs f eq_refl)) as (xf & He & H1 & H2).
    exists xf. rewrite (bind_ok _ _ _ _ _ He), quiet_fs_rest by done. by destruct s.
  - exists (snd (k_ext s)). rewrite list_alter_id by (by intros []). by destruct s as [????? ???? []].
  - exists (snd (k_ext s)). rewrite list_alter_id by (by intros []). by destruct s as [????? ???? []].
Qed.

Lemma fork_files_loop cur np p l i c : cur ≠ np → ∀ s,
  can_lock L_ftable s i c → at_rest s i c → k_ptable s !! cur = Some p →
  (∀ fd f, p_ofile p !! fd = Some (Some f) → fs_file (snd (k_ext s)) f) →
  ∃ xf, kfor_ l (λ fd,
      p ← get_proc cur;
      match p_ofile p !! fd with
      | Some (Some f) =>
          f' ← e_filedup f;
          alter_proc np (λ q, set_p_ofile (<[fd := Some f']> (p_ofile q)) q)
      | _ => mret tt
      end) s
    = Ok tt (set_k_ext (fst (k_ext s), xf)
        (set_k_ptable (alter (λ q, set_p_ofile (dup_files (p_ofile p) l (p_ofile q)) q) np (k_ptable s)) s))
    ∧ (∀ n, fs_inode (snd (k_ext s)) n → fs_inode xf n).
Proof.
  intros Hne. induction l as [|fd l IH]; intros s Hcl Hrest Hp Hfs; cbn [kfor_].
  { exists (snd (k_ext s)). split; [|done]. unfold dup_files. simpl.
    rewrite list_alter_id by (by intros []). by destruct s as [????? ???? []]. }
  destruct (fork_files_step cur np p fd s i c Hcl Hrest Hp (Hfs fd)) as (x1 & E1 & Hf1 & Hi1).
  rewrite (bind_ok _ _ _ _ _ E1). set (s1 := set_k_ext _ _).
  destruct (IH s1) as (xf & Hrun & Hi).
  - destruct Hcl; by split.
  - done.
  - simpl. by rewrite list_lookup_alter_ne.
  - intros fd' f Hf'. simpl. eauto.
  - exists xf. rewrite Hrun. split; [|simpl in Hi; eauto].
    destruct s as [m tab np' ip tk fi pl ns out [xm xf0]]. unfold s1, set_k_ext, set_k_ptable; simpl.
    do 2 f_equal. rewrite list_alter_alter_eq. by apply list_alter_ext.
Qed.

(** What [fork_publish] does to the child's entry at time [t]. *)
Definition published (t : Z) (p : proc) : proc :=
  upd_sched (set_queue ROUND_ROBIN) (upd_bjf (set_process_size SIZEOF_PTR)
    (set_p_ctime t (upd_bjf (set_arrival_time (s32 t))
      (upd_sched (set_last_exec (s32 t)) (set_p_state RUNNABLE p))))).

Lemma fork_publish_ok np pid s i c :
  ready [L_ptable; L_ticks] s i c → at_rest s i c → length (k_ptable s) = NPROC → 0 < pid →
  find_index (λ p, p_pid p =? pid) (k_ptable s) = Some np →
  fork_publish np pid s
  = Ok pid (set_k_ptable (alter (published (k_ticks s)) np (k_ptable s)) s).
Proof.
  intros Hrd Hrest Hlen Hpid Hf.
  assert (∀ s', k_mach s' = k_mach s → ready [L_ptable; L_ticks] s' i c) as Hrd'.
  { intros s' E. destruct Hrd; split; by rewrite ?E. }
  unfold fork_publish. erewrite kcritical_rest; [|by eapply ready_can_lock; [done|set_solver]|done|done|done].
  set (s1 := set_k_mach _ _).
  destruct (Hrd' s1 eq_refl) as [H1 H2 H3].
  assert (locks (k_mach s1) !! L_ticks = None) as H4 by (apply H3; set_solver).
  rewrite (bind_acquire L_ticks _ i c s1) by (done || lia).
  rewrite bind_kgets, !bind_alter_proc.
  rewrite (bind_release L_ticks _ (k_mach s1) i c) by (done || lia).
  rewrite bind_alter_proc. set (s2 := set_k_ptable _ _).
  assert (k_mach s2 = k_mach s) as Hm2 by (unfold s2; simpl; by rewrite <- Hrest).
  assert (length (k_ptable s2) = NPROC) as Hlen2 by (unfold s2; simpl; by rewrite !length_alter).
  assert (find_index (λ p, p_pid p =? pid) (k_ptable s2) = Some np) as Hf2.
  { unfold s2; simpl. by rewrite !find_index_alter. }
  rewrite (bind_ok _ _ _ _ _ (init_queue_ok pid s2 i c np
    (ready_can_lock _ _ _ _ L_ptable (Hrd' s2 Hm2) ltac:(set_solver)) Hlen2 Hpid Hf2)).
  rewrite Hm2, <- Hrest. clear - Hrest. unfold s2, s1. ksimpl. rewrite <- set_ptable_mach, set_mach_id.
  unfold mret, K_ret. f_equal. f_equal. rewrite !list_alter_alter_eq. by apply list_alter_ext.
Qed.

(** The child's entry after [fork_copy] and before it is published. *)
Definition copied (cur : nat) (p q : proc) : proc :=
  set_p_ofile (dup_files (p_ofile p) (seq 0 NOFILE) (p_ofile q))
    (set_p_tf (set_tf_eax 0 (p_tf p)) (set_p_parent (Some cur) (set_p_sz (p_sz p) q))).

Definition child_entry (cur : nat) (p : proc) (ip : nat) (nm : list Z) (q : proc) : proc :=
  set_p_name nm (set_p_cwd (Some ip) (copied cur p q)).

Lemma safestrcpy_ok d t :
  0 ∈ t → ∃ nm, safestrcpy d t 16 = Some nm ∧ cstr nm = take 15 (cstr t).
Proof.
  intros H. destruct (safestrcpy_bytes_spec 15 t H) as (w & Hw & Hc & H0 & _).
  exists (w ++ drop (length w) d). unfold safestrcpy. simpl (16 <=? 0). cbn iota.
  change (Z.to_nat (16 - 1)) with 15%nat. rewrite Hw. simpl. split; [done|].
  by rewrite cstr_app_nul.
Qed.

Lemma fork_copy_ok cur np p s i c :
  can_lock L_ftable s i c → at_rest s i c → cur ≠ np → k_ptable s !! cur = Some p →
  (∀ fd f, p_ofile p !! fd = Some (Some f) → fs_file (snd (k_ext s)) f) →
  ∃ xf, fork_copy cur np s = Ok tt (set_k_ptable (alter (copied cur p) np (k_ptable s))
                                     (set_k_ext (fst (k_ext s), xf) s))
    ∧ (∀ n, fs_inode (snd (k_ext s)) n → fs_inode xf n).
Proof.
  intros Hcl Hrest Hne Hp Hfs. unfold fork_copy.
  rewrite (bind_ok _ _ _ _ _ (get_proc_ok s cur p Hp)). rewrite !bind_alter_proc. ksimpl.
  rewrite !list_alter_alter_eq. set (s1 := set_k_ptable _ _).
  assert (k_ptable s1 !! cur = Some p) as Hp1 by (unfold s1; kproj; by rewrite list_lookup_alter_ne).
  destruct (fork_files_loop cur np p (seq 0 NOFILE) i c Hne s1 ltac:(by destruct Hcl) Hrest Hp1 Hfs)
    as (xf & Hloop & Hin).
  exists xf. split; [|exact Hin]. unfold fork_files. rewrite Hloop. unfold s1. ksimpl.
  by rewrite list_alter_alter_eq.
Qed.

Lemma set_name_ok np t q s :
  k_ptable s !! np = Some q → 0 ∈ t →
  ∃ nm, set_name np t s = Ok tt (set_k_ptable (alter (set_p_name nm) np (k_ptable s)) s)
    ∧ cstr nm = take 15 (cstr t).
Proof.
  intros Hq Ht. destruct (safestrcpy_ok (p_name q) t Ht) as (nm & Hnm & Hcs).
  exists nm. split; [|done]. unfold set_name. rewrite (bind_ok _ _ _ _ _ (get_proc_ok s np q Hq)).
  by rewrite Hnm.
Qed.

Lemma fork_child_ok cur np p q ip s i c :
  ready [L_ptable; L_ticks; L_ftable; L_icache] s i c → at_rest s i c → cur ≠ np →
  k_ptable s !! cur = Some p → k_ptable s !! np = Some q → ptable_wf s → 0 < p_pid q →
  (∀ fd f, p_ofile p !! fd = Some (Some f) → fs_file (snd (k_ext s)) f) →
  p_cwd p = Some ip → fs_inode (snd (k_ext s)) ip → 0 ∈ p_name p →
  ∃ xf nm, cstr nm = take 15 (cstr (p_name p))
    ∧ fork_child cur np s = Ok (p_pid q) (set_k_ptable
        (alter (published (k_ticks s) ∘ child_entry cur p ip nm) np (k_ptable s))
        (set_k_ext (fst (k_ext s), xf) s)).
Proof.
  intros Hrd Hrest Hne Hp Hq Hwf Hpid Hfs Hcwd Hip Hnul.
  assert (∀ s', k_mach s' = k_mach s → ready [L_ptable; L_ticks; L_ftable; L_icache] s' i c ∧ at_rest s' i c) as Hrd'.
  { intros s' E. split; [|unfold at_rest; by rewrite E]. destruct Hrd; split; by rewrite ?E. }
  destruct (fork_copy_ok cur np p s i c (ready_can_lock _ _ _ _ L_ftable Hrd ltac:(set_solver))
    Hrest Hne Hp Hfs) as (xf & Hcopy & Hin).
  unfold fork_child. rewrite (bind_ok _ _ _ _ _ Hcopy). set (s1 := set_k_ptable _ _).
  assert (k_ptable s1 !! cur = Some p) as Hp1 by (unfold s1; kproj; by rewrite list_lookup_alter_ne).
  rewrite (bind_ok _ _ _ _ _ (get_proc_ok s1 cur p Hp1)), Hcwd. destruct (Hrd' s1 eq_refl) as [Hrd1 Hrest1].
  destruct (e_idup_ok s1 i c ip (ready_can_lock _ _ _ _ L_icache Hrd1 ltac:(set_solver)) (Hin ip Hip))
    as (xf2 & Hidup).
  rewrite (bind_ok _ _ _ _ _ Hidup), quiet_fs_rest by done. rewrite bind_alter_proc.
  unfold s1. ksimpl. rewrite list_alter_alter_eq. set (s2 := set_k_ptable _ _).
  assert (k_ptable s2 !! np = Some (set_p_cwd (Some ip) (copied cur p q))) as Hq2.
  { unfold s2. kproj. by rewrite list_lookup_alter_eq, Hq. }
  destruct (set_name_ok np (p_name p) _ s2 Hq2 Hnul) as (nm & Hnm & Hcs).
  exists xf2, nm. split; [done|]. rewrite (bind_ok _ _ _ _ _ Hnm). unfold s2. ksimpl.
  rewrite list_alter_alter_eq. set (s3 := set_k_ptable _ _).
  assert (k_ptable s3 !! np = Some (child_entry cur p ip nm q)) as Hq3.
  { unfold s3. kproj. by rewrite list_lookup_alter_eq, Hq. }
  rewrite (bind_ok _ _ _ _ _ (get_proc_ok s3 np _ Hq3)). destruct (Hrd' s3 eq_refl) as [[R1 R2 R3] Hrest3].
  change (p_pid (child_entry cur p ip nm q)) with (p_pid q).
  rewrite (fork_publish_ok np (p_pid q) s3 i c).
  - unfold s3. ksimpl. by rewrite list_alter_alter_eq.
  - split; [done|done|]. intros l Hl. apply R3. set_solver.
  - done.
  - unfold s3. kproj. rewrite length_alter. apply Hwf.
  - done.
  - unfold s3. kproj. rewrite find_index_alter by done. apply find_pid; [done|done|lia].
Qed.

End fork_lemmas.

Section fork_outcome.
Context {Xm Xf : Type} `{!MemOps Xm Xf} `{!FsOps Xm Xf}.
Implicit Types (s : kstate (Xm * Xf)).

(** What [fork] needs of the process that calls it; [S] are the address spaces
    and [P] the kernel pages in use. *)
Record can_fork (s : kstate (Xm * Xf)) (i : nat) (c : cpu) (cur : nat) (p : proc) (S : gmap Z Z) (P : gset Z) : Prop := CanFork {
  cf_ready : ready [L_ptable; L_kmem; L_ticks; L_ftable; L_icache] s i c;
  cf_cur : cproc c = Some cur;
  cf_entry : k_ptable s !! cur = Some p;
  cf_state : p_state p ≠ UNUSED;
  cf_wf : ptable_wf s;
  cf_next : k_nextpid s < 2 ^ 31 - 1;
  cf_mem : mem_own (fst (k_ext s)) S P;
  cf_space : S !! p_pgdir p = Some (p_sz p);
  cf_files : ∀ fd f, p_ofile p !! fd = Some (Some f) → fs_file (snd (k_ext s)) f;
  cf_cwd : ∃ ip, p_cwd p = Some ip ∧ fs_inode (snd (k_ext s)) ip;
  cf_name : 0 ∈ p_name p
}.

(** [fork] could not get a kernel stack or an address space: the entry [np] it
    had taken is unused again, though its pid stays spent, and no page is lost. *)
Definition fork_failed (s s' : kstate (Xm * Xf)) (np : nat) (S : gmap Z Z) (P : gset Z) : Prop :=
  ∃ q, k_ptable s' = <[np := q]> (k_ptable s) ∧ p_state q = UNUSED ∧ p_kstack q = 0
    ∧ p_pid q = k_nextpid s ∧ k_nextpid s' = k_nextpid s + 1
    ∧ mem_own (fst (k_ext s')) S P ∧ same_user mem_byte S (fst (k_ext s)) (fst (k_ext s')).

(** Process [q] has a kernel stack and a space of its own, whose user memory is a
    copy of [p]'s; all other memory is as it was. *)
Definition memory_copied (x x' : Xm) (p q : proc) (S : gmap Z Z) (P : gset Z) : Prop :=
  S !! p_pgdir q = None ∧ p_kstack q ∉ P ∧ mem_own x' (<[p_pgdir q := p_sz p]> S) ({[p_kstack q]} ∪ P)
  ∧ same_user mem_byte S x x' ∧ ∀ va, 0 ≤ va < 2 ^ 31 → mem_byte x' (p_pgdir q) va = mem_byte x (p_pgdir p) va.

(** The child [np] is a copy of [p], process [cur], ready to run. *)
Definition forked (s s' : kstate (Xm * Xf)) (cur np : nat) (p : proc) (S : gmap Z Z) (P : gset Z) : Prop :=
  ∃ q0 q, k_ptable s !! np = Some q0 ∧ k_ptable s' = <[np := q]> (k_ptable s)
    ∧ p_state q = RUNNABLE ∧ p_pid q = k_nextpid s ∧ p_parent q = Some cur
    ∧ p_sz q = p_sz p ∧ memory_copied (fst (k_ext s)) (fst (k_ext s')) p q S P
    ∧ p_tf q = set_tf_eax 0 (p_tf p) ∧ ctx_eip (p_context q) = A_forkret ∧ p_ret q = A_trapret
    ∧ p_ofile q = dup_files (p_ofile p) (seq 0 NOFILE) (p_ofile q0)
    ∧ p_cwd q = p_cwd p ∧ cstr (p_name q) = take 15 (cstr (p_name p))
    ∧ p_ctime q = k_ticks s ∧ queue (p_sched q) = ROUND_ROBIN
    ∧ k_nextpid s' = k_nextpid s + 1.

(** The part of [fork] after a successful [allocproc]. *)
Lemma fork_after_alloc s i c cur np p q S P :
  ready [L_ptable; L_kmem; L_ticks; L_ftable; L_icache] s i c → at_rest s i c →
  cur ≠ np → k_ptable s !! cur = Some p → k_ptable s !! np = Some q → ptable_wf s → 0 < p_pid q →
  mem_own (fst (k_ext s)) S P → p_kstack q ∈ P → S !! p_pgdir p = Some (p_sz p) →
  (∀ fd f, p_ofile p !! fd = Some (Some f) → fs_file (snd (k_ext s)) f) →
  (∃ ip, p_cwd p = Some ip ∧ fs_inode (snd (k_ext s)) ip) → 0 ∈ p_name p →
  ∃ d xm xf, let k := (p ← get_proc cur;
      d ← e_copyuvm (p_pgdir p) (p_sz p);
      alter_proc np (set_p_pgdir d);;
      if d =? 0 then
        q ← get_proc np;
        e_kfree (p_kstack q);;
        alter_proc np (set_p_kstack 0);;
        alter_proc np (set_p_state UNUSED);;
        mret (-1)
      else fork_child cur np) s in
    if d =? 0 then
      k = Ok (-1) (set_k_ptable (alter (λ q, set_p_state UNUSED (set_p_kstack 0 (set_p_pgdir d q))) np (k_ptable s))
            (set_k_ext (xm, xf) s)) ∧ mem_own xm S (P ∖ {[p_kstack q]}) ∧ same_user mem_byte S (fst (k_ext s)) xm
    else (S !! d = None ∧ mem_own xm (<[d := p_sz p]> S) P ∧ same_user mem_byte S (fst (k_ext s)) xm
        ∧ ∀ va, 0 ≤ va < 2 ^ 31 → mem_byte xm d va = mem_byte (fst (k_ext s)) (p_pgdir p) va) ∧ ∃ ip nm, p_cwd p = Some ip ∧ cstr nm = take 15 (cstr (p_name p))
      ∧ k = Ok (p_pid q) (set_k_ptable
        (alter (published (k_ticks s) ∘ child_entry cur p ip nm ∘ set_p_pgdir d) np (k_ptable s))
        (set_k_ext (xm, xf) s)).
Proof.
  intros Hrd Hrest Hne Hp Hq Hwf Hpid Hown Hpg Hsp Hfs (ip & Hcwd & Hip) Hnul.
  assert (∀ s', k_mach s' = k_mach s → ready [L_ptable; L_kmem; L_ticks; L_ftable; L_icache] s' i c) as Hrd'.
  { intros s' E. destruct Hrd; split; by rewrite ?E. }
  rewrite (bind_ok _ _ _ _ _ (get_proc_ok s cur p Hp)).
  destruct (e_copyuvm_ok s i c S P _ _ (ready_can_lock _ _ _ _ L_kmem Hrd ltac:(set_solver)) Hrest Hown Hsp)
    as (d & x & Hcp & Hsame & Hcopy).
  rewrite (bind_ok _ _ _ _ _ Hcp). unfold put_mem. rewrite bind_alter_proc. ksimpl.
  set (s1 := set_k_ptable _ _).
  assert (k_ptable s1 !! np = Some (set_p_pgdir d q)) as Hq1.
  { unfold s1. kproj. by rewrite list_lookup_alter_eq, Hq. }
  exists d. destruct (Z.eqb_spec d 0) as [Hd|Hd]; cbv zeta.
  - rewrite (bind_ok _ _ _ _ _ (get_proc_ok s1 np _ Hq1)).
    assert (Hown1 : mem_own (fst (k_ext s1)) S P) by (destruct Hcopy as [[_ Ho]|[Hd' _]]; [exact Ho|done]).
    destruct (e_kfree_ok s1 i c S P (p_kstack q) (ready_can_lock _ _ _ _ L_kmem (Hrd' s1 eq_refl) ltac:(set_solver)) Hrest Hown1 Hpg)
      as (x2 & Hfree & Hsame2 & Hown2).
    exists x2, (snd (k_ext s)). change (p_kstack (set_p_pgdir d q)) with (p_kstack q).
    rewrite (bind_ok _ _ _ _ _ Hfree). unfold put_mem. rewrite !bind_alter_proc.
    split; [unfold s1; ksimpl; rewrite !list_alter_alter_eq; done|]. split; [done|].
    intros d' va Hd' Hva. rewrite Hsame2 by done. by apply Hsame.
  - assert (k_ptable s1 !! cur = Some p) as Hp1 by (unfold s1; kproj; by rewrite list_lookup_alter_ne).
    assert (ptable_wf s1) as Hwf1 by (by eapply (ptable_wf_alter s s1 np (set_p_pgdir d))).
    destruct (fork_child_ok cur np p (set_p_pgdir d q) ip s1 i c) as (xf & nm & Hcs & Hrun); try done.
    { destruct (Hrd' s1 eq_refl) as [R1 R2 R3]. split; [done|done|]. intros l Hl. apply R3. set_solver. }
    destruct Hcopy as [[-> _]|(_ & Hnone & Hown1 & Hbytes)]; [done|].
    exists x, xf. split; [done|]. exists ip, nm. split; [done|]. split; [done|].
    rewrite Hrun. unfold s1. ksimpl. rewrite list_alter_alter_eq. done.
Qed.

(** The part of [fork] after [myproc], when entry [np] is free; [s0] is [s]
    with the machine settled. *)
Lemma fork_slot s s0 i c cur np p q0 S P :
  s0 = set_k_mach (k_mach s0) s → ready [L_ptable; L_kmem; L_ticks; L_ftable; L_icache] s0 i c →
  at_rest s0 i c → cur ≠ np → k_ptable s !! cur = Some p → k_ptable s !! np = Some q0 →
  find_index is_unused (k_ptable s) = Some np → ptable_wf s → k_nextpid s < 2 ^ 31 - 1 →
  mem_own (fst (k_ext s)) S P → S !! p_pgdir p = Some (p_sz p) →
  (∀ fd f, p_ofile p !! fd = Some (Some f) → fs_file (snd (k_ext s)) f) →
  (∃ ip, p_cwd p = Some ip ∧ fs_inode (snd (k_ext s)) ip) → 0 ∈ p_name p →
  ∃ r s', (o ← allocproc;
      match o with
      | None => mret (-1)
      | Some np =>
          p ← get_proc cur;
          d ← e_copyuvm (p_pgdir p) (p_sz p);
          alter_proc np (set_p_pgdir d);;
          if d =? 0 then
            q ← get_proc np;
            e_kfree (p_kstack q);;
            alter_proc np (set_p_kstack 0);;
            alter_proc np (set_p_state UNUSED);;
            mret (-1)
          else fork_child cur np
      end) s0 = Ok r s' ∧ k_mach s' = k_mach s0 ∧ ptable_wf s'
    ∧ (r = -1 ∧ fork_failed s s' np S P ∨ r = k_nextpid s ∧ forked s s' cur np p S P).
Proof.
  intros E0 Hrd0 Hrest0 Hne Hp Hq0 Hf Hwf Hnx Hown Hsp Hfs Hcwd Hnul.
  assert (k_ptable s0 = k_ptable s ∧ k_nextpid s0 = k_nextpid s ∧ k_ext s0 = k_ext s ∧ k_ticks s0 = k_ticks s)
    as (Et & En & Ex & Ek) by (rewrite E0; done).
  rewrite <- Et in Hf. destruct (allocproc_slot s0 i c np S P) as (ks & x & Halloc & Hsame0 & Hown0);
    [apply (ready_mono _ _ _ _ _ Hrd0); set_solver|rewrite Et; apply Hwf|done|by rewrite Ex|]. rewrite Ex in Hsame0.
  rewrite (bind_ok _ _ _ _ _ Halloc). clear Halloc. set (s1 := alloc_state _ _ _ _ _ _).
  assert (k_nextpid s1 = k_nextpid s + 1) as En1.
  { unfold s1, alloc_state. kproj. rewrite En, s32_small; [done|destruct Hwf; lia]. }
  assert (k_ptable s1 = alter (alloc_entry (k_nextpid s) ks) np (k_ptable s)) as Et1.
  { unfold s1, alloc_state. kproj. by rewrite Et, En. }
  assert (k_mach s1 = k_mach s0) as Em1 by (unfold s1, alloc_state; kproj; by rewrite <- Hrest0).
  assert (ptable_wf s1) as Hwf1.
  { eapply (ptable_wf_fresh s s1 np _ Hwf); [done|done|]. intros q _. unfold alloc_entry. by destruct (ks =? 0). }
  assert (k_ptable s1 !! np = Some (alloc_entry (k_nextpid s) ks q0)) as Hq1.
  { by rewrite Et1, list_lookup_alter_eq, Hq0. }
  assert (k_ptable s1 !! cur = Some p) as Hp1 by (by rewrite Et1, list_lookup_alter_ne).
  destruct (Z.eqb_spec ks 0) as [Hks|Hks].
  { exists (-1), s1. split; [done|]. split; [done|]. split; [done|]. left. split; [done|].
    exists (alloc_entry (k_nextpid s) ks q0). split; [rewrite Et1; by apply list_alter_as_insert|].
    destruct Hown0 as [[_ Hown0]|[Hks' _]]; [|done]. unfold alloc_entry. rewrite Hks. done. }
  destruct Hown0 as [[Hks' _]|(_ & HksP & Hown0)]; [done|].
  unfold alloc_entry in Hq1. destruct (Z.eqb_spec ks 0) as [|_]; [done|].
  assert (0 < k_nextpid s) by apply Hwf.
  destruct (fork_after_alloc s1 i c cur np p _ S ({[ks]} ∪ P) (ready_mach _ _ _ _ _ Hrd0 Em1)
    ltac:(unfold at_rest; by rewrite Em1) Hne Hp1 Hq1 Hwf1 ltac:(done) Hown0 ltac:(cbn; set_solver) Hsp
    ltac:(unfold s1, alloc_state; kproj; rewrite Ex; done)
    ltac:(unfold s1, alloc_state; kproj; rewrite Ex; done) Hnul) as (d & xm & xf & Hrun).
  change (fst (k_ext s1)) with x in Hrun. clear - Hrun Et1 En1 Em1 Hwf1 Hq1 Hq0 Ek Hne Hf Hks HksP Hsame0 Hsp. cbv zeta in Hrun.
  assert (k_ticks s1 = k_ticks s) as Ek1 by (unfold s1, alloc_state; kproj; done).
  assert (alloc_entry (k_nextpid s) ks q0
    = setup_stack (set_p_kstack ks (set_p_pid (k_nextpid s) (set_p_state EMBRYO q0)))) as Ea.
  { unfold alloc_entry. by destruct (Z.eqb_spec ks 0). }
  assert (Hst : p_kstack (setup_stack (set_p_kstack ks (set_p_pid (k_nextpid s) (set_p_state EMBRYO q0)))) = ks) by done.
  destruct (Z.eqb_spec d 0) as [Hd|Hd].
  - destruct Hrun as (Hrun & Hown & Hsame). rewrite Hst in Hown. replace (({[ks]} ∪ P) ∖ {[ks]}) with P in Hown by set_solver.
    eexists _, _. split; [exact Hrun|]. split; [kproj; exact Em1|]. split.
    { by eapply (ptable_wf_alter s1 _ np); [exact Hwf1|done|kproj; done|done]. }
    left. split; [done|]. eexists. split.
    { kproj. rewrite Et1, list_alter_alter_eq. by apply list_alter_as_insert. }
    kproj. unfold compose. rewrite Ea, En1. do 4 (split; [done|]). split; [done|]. by eapply same_user_trans.
  - destruct Hrun as ((Hnone & Hown & Hsame & Hbytes) & ip & nm & Hcwd & Hcs & Hrun).
    eexists _, _. split; [exact Hrun|]. split; [kproj; exact Em1|]. split.
    { eapply (ptable_wf_alter s1 _ np); [exact Hwf1|done|kproj; done|].
      intros q. rewrite Hq1. by intros [= <-]. }
    right. split; [done|]. exists q0. eexists. split; [done|]. split.
    { kproj. rewrite Et1, list_alter_alter_eq. by apply list_alter_as_insert. }
    kproj. unfold compose. rewrite Ek1, Ea, En1, Hcwd. do 4 (split; [done|]). split; [|repeat (split; [done|]); done].
    split; [done|]. split; [done|]. split; [done|]. split; [by eapply same_user_trans|].
    intros va Hva. etrans; [by apply Hbytes|]. apply Hsame0; [by rewrite Hsp|done].
Qed.

End fork_outcome.


(** Sample tables are well formed when their first entries have distinct pids. *)
Lemma sample_wf {X} (l : list proc) (s : kstate X) :
  k_ptable s = sample_table l → k_nextpid s = 20 → (length l ≤ NPROC)%nat →
  Forall (λ p, 0 < p_pid p < 20) l → NoDup (p_pid <$> l) → ptable_wf s.
Proof.
  intros Ht Hn Hlen Hpid Hnd.
  assert (∀ i p, k_ptable s !! i = Some p →
    (l !! i = Some p ∧ 0 < p_pid p < 20) ∨ p = sample_proc UNUSED 0 None) as Hc.
  { intros i p. rewrite Ht. unfold sample_table.
    intros [H|[_ [-> _]%lookup_replicate]]%lookup_app_Some; [left|by right]. split; [done|].
    by apply (Forall_lookup_1 _ _ _ _ Hpid H). }
  split.
  - rewrite Ht. unfold sample_table. rewrite length_app, length_replicate. lia.
  - lia.
  - intros i p [[_ H]| ->]%Hc; [lia|simpl; lia].
  - intros i p [[_ H]| ->]%Hc Hu; [lia|done].
  - intros i j p q [[Hi Hp]| ->]%Hc [[Hj Hq]| ->]%Hc Heq Hne; try done.
    eapply (NoDup_lookup _ i j (p_pid p) Hnd); rewrite list_lookup_fmap, ?Hi, ?Hj; simpl; congruence.
Qed.

(** ** A small instance of the interfaces *)

(** The memory is a list of free pages; an address space costs one page.  The
    file system has every file and inode in use. *)
Definition pool_take {Xf} : K (kstate (list Z * Xf)) Z :=
  λ s, match fst (k_ext s) with
       | [] => Ok 0 s
       | a :: l => Ok a (set_k_ext (l, snd (k_ext s)) s)
       end.

Definition pool_alloc {Xf} : K (kstate (list Z * Xf)) Z :=
  acquire L_kmem;; r ← pool_take; release L_kmem;; mret r.

Definition pool_free {Xf} (a : Z) : K (kstate (list Z * Xf)) unit :=
  acquire L_kmem;;
  _ ← kmodify (λ s, set_k_ext (a :: fst (k_ext s), snd (k_ext s)) s);
  release L_kmem;; mret tt.

(** The pool holds what neither a space nor a kernel page uses. *)
Record pool_own (x : list Z) (S : gmap Z Z) (P : gset Z) : Prop := PoolOwn {
  po_nodup : NoDup x;
  po_null : 0 ∉ x ∧ 0 ∉ P ∧ S !! 0 = None;
  po_free : ∀ a, a ∈ x → a ∉ P ∧ S !! a = None;
  po_apart : ∀ a, a ∈ P → S !! a = None
}.

Lemma pool_own_take a x S P : pool_own (a :: x) S P →
  a ≠ 0 ∧ a ∉ P ∧ S !! a = None ∧ pool_own x S ({[a]} ∪ P) ∧ ∀ sz, pool_own x (<[a := sz]> S) P.
Proof.
  intros [[H1 H2]%list.NoDup_cons (N1 & N2 & N3) H4 H5]. destruct (H4 a) as [F1 F2]; [by left|].
  apply not_elem_of_cons in N1 as [N0 N1]. do 3 (split; [done|]). split; [split|intros sz; split].
  - done.
  - split; [done|]. split; [set_solver|done].
  - intros b Hb. destruct (H4 b) as [G1 G2]; [by right|]. split; [|done]. assert (b ≠ a) by (by intros ->). set_solver.
  - intros b [->%elem_of_singleton|Hb]%elem_of_union; [done|auto].
  - done.
  - split; [done|]. split; [done|]. by rewrite lookup_insert_ne.
  - intros b Hb. destruct (H4 b) as [G1 G2]; [by right|]. split; [done|]. rewrite lookup_insert_ne; [done|]. by intros <-.
  - intros b Hb. rewrite lookup_insert_ne; [auto|]. intros <-. done.
Qed.

Lemma pool_own_give a x S P S' P' : pool_own x S P → a ∈ P ∨ is_Some (S !! a) → a ∉ P' → S' !! a = None →
  P' ⊆ P → S' ⊆ S → pool_own (a :: x) S' P'.
Proof.
  intros [H1 (N1 & N2 & N3) H4 H5] Ha HP HS SP SS.
  assert (Hn : ∀ b, S !! b = None → S' !! b = None) by (intros b Hb; by eapply lookup_weaken_None).
  assert (a ∉ x) by (intros Hx; destruct (H4 a Hx) as [F1 F2]; destruct Ha as [|[? Ha]]; [done|congruence]).
  assert (a ≠ 0) by (intros ->; destruct Ha as [|[? Ha]]; [done|congruence]). split.
  - by apply list.NoDup_cons.
  - split; [by apply not_elem_of_cons|]. split; [set_solver|auto].
  - intros b [->|Hb]%elem_of_cons; [done|]. destruct (H4 b Hb). split; [set_solver|auto].
  - intros b Hb. apply Hn, H5. set_solver.
Qed.

Lemma pool_alloc_ok {Xf} (s : kstate (list Z * Xf)) i c :
  can_lock L_kmem s i c → at_rest s i c → pool_alloc s = Ok (hd 0 (fst (k_ext s))) (put_mem (tl (fst (k_ext s))) s).
Proof.
  intros Hc Hr. unfold pool_alloc. set (x := fst (k_ext s)). set (s1 := set_k_mach (acquired L_kmem i c (k_mach s)) s).
  rewrite (kcritical_rest L_kmem pool_take mret s i c (hd 0 x) (put_mem (tl x) s1) Hc Hr).
  - unfold put_mem, s1. by ksimpl.
  - subst x s1. by destruct s as [????? ???? [[] ]].
  - done.
Qed.

Lemma pool_free_ok {Xf} (s : kstate (list Z * Xf)) i c a :
  can_lock L_kmem s i c → at_rest s i c → pool_free a s = Ok tt (put_mem (a :: fst (k_ext s)) s).
Proof.
  intros Hc Hr. unfold pool_free. erewrite kcritical_rest; [|done|done|done|done]. unfold put_mem. ksimpl. done.
Qed.

#[export] Instance pool_mem {Xf} : MemOps (list Z) Xf.
Proof.
  refine {| e_kalloc := pool_alloc; e_kfree := pool_free; e_setupkvm := pool_alloc;
            e_inituvm := λ _ _, mret tt; e_allocuvm := λ _ _ n, mret n;
            e_deallocuvm := λ _ _ n, mret n; e_copyuvm := λ _ _, pool_alloc;
            e_freevm := pool_free; mem_own := pool_own; mem_byte := λ _ _ _, None |}.
  - intros s i c S P Hc Hr Ho. eexists _, _. split; [by eapply pool_alloc_ok|]. split; [done|].
    destruct (fst (k_ext s)) as [|a x]; [by left|]. right. by destruct (pool_own_take _ _ _ _ Ho) as (H1 & H2 & _ & H3 & _).
  - intros s i c S P a Hc Hr Ho Ha. eexists. split; [by eapply pool_free_ok|]. split; [done|].
    eapply pool_own_give; [done|by left|set_solver|by apply (po_apart _ _ _ Ho)|set_solver|done].
  - intros s i c S P d sz Hc Hr Ho _. eexists _, _. split; [by eapply pool_alloc_ok|]. split; [done|].
    destruct (fst (k_ext s)) as [|a x]; [by left|]. right. by destruct (pool_own_take _ _ _ _ Ho) as (H1 & _ & H2 & _ & H3).
  - intros s i c S P d sz Hc Hr Ho Hd. eexists. split; [by eapply pool_free_ok|]. split; [done|].
    eapply pool_own_give; [done|by right| |apply lookup_delete_eq|done|apply delete_subseteq].
    intros HP%(po_apart _ _ _ Ho). congruence.
Defined.

Definition ref_get {Xm} (l : lockid) (f : nat) : K (kstate (Xm * unit)) nat :=
  acquire l;; r ← mret f; release l;; mret r.

Lemma ref_get_ok {Xm} l f (s : kstate (Xm * unit)) i c :
  can_lock l s i c → ref_get l f s = Ok f (quiet_fs i c tt s).
Proof.
  intros [H1 H2 H3]. unfold ref_get. erewrite kcritical; [|done|lia|done|done|done].
  unfold quiet_fs. ksimpl. destruct s as [????? ???? [? []]]. done.
Qed.

#[export] Instance unit_fs {Xm} : FsOps Xm unit.
Proof.
  refine {| e_filedup := ref_get L_ftable; e_fileclose := λ _, mret tt; e_idup := ref_get L_icache;
            e_iput := λ _, mret tt; e_namei := λ _, mret (Some 0%nat); e_begin_op := mret tt;
            e_end_op := mret tt; e_iinit := λ _, mret tt; e_initlog := λ _, mret tt;
            fs_file := λ _ _, True; fs_inode := λ _ _, True |}.
  - intros s i c f H _. exists tt. by rewrite (ref_get_ok _ _ _ i c).
  - intros s i c f H _. exists tt. by rewrite (ref_get_ok _ _ _ i c).
Defined.

(** ** Properties *)


(** Process 0, with directory 12288, forks; two free pages. *)
Definition sample_parent : proc :=
  set_p_pgdir 12288 (set_p_cwd (Some 0%nat) (set_p_name [115; 104; 0] (sample_proc RUNNING 7 None))).

Definition sample_fork : kstate (list Z * unit) :=
  Kstate (Machine [Cpu 0 1 0 0 (Some 0%nat) 0] 0 true ∅) (sample_table [sample_parent])
    20 None 0 0 (Prioritylock 0 0 [] 0) 0 [] ([4096; 8192], tt).

Lemma sample_pool : pool_own [4096; 8192] {[12288 := p_sz sample_parent]} ∅.
Proof.
  split.
  - apply (bool_decide_unpack _). reflexivity.
  - split; [apply (bool_decide_unpack _); reflexivity|]. split; [set_solver|reflexivity].
  - intros a Ha. split; [set_solver|]. repeat (apply elem_of_cons in Ha as [->|Ha]; [reflexivity|]). by apply elem_of_nil in Ha.
  - set_solver.
Qed.

