(* ===== verification/Sleep.v ===== *)
(** * Sleeping, waking, exiting and waiting

    What [sched], [sleep], [wakeup], [exit], [wait] and [kill] of [proc.c] do, on
    the definitions of [Proc]. *)

From S2P Require Import Prelude Spinlock State PrioLock Sched Proc.

(** ** Giving up the CPU *)

Section sleep_lemmas.
Context {X : Type}.
Implicit Types (s : kstate X).

(** The executing CPU runs process [pi] and is inside exactly one critical
    section, that of [l]. *)
Record inside (l : lockid) (s : kstate X) (i : nat) (c : cpu) (pi : nat) : Prop := Inside {
  in_at : mach_at (k_mach s) i c;
  in_ncli : ncli c = 1;
  in_lock : locks (k_mach s) !! l = Some (Spinlock 1 (Some i));
  in_proc : cproc c = Some pi
}.

Lemma inside_mach l s s' i c pi : inside l s i c pi → k_mach s' = k_mach s → inside l s' i c pi.
Proof. intros [] E. split; by rewrite ?E. Qed.

Lemma inside_settled l s i c pi : inside l s i c pi → settled i c (k_mach s) = k_mach s.
Proof. intros []. by apply settled_busy; [|lia]. Qed.

Lemma inside_myproc l s i c pi : inside l s i c pi → myproc s = Ok (Some pi) s.
Proof.
  intros H. pose proof (inside_settled _ _ _ _ _ H) as E. destruct H as [H1 H2 _ H4].
  rewrite (kmyproc_ok s i c H1 ltac:(lia)), E, H4. by rewrite set_mach_id.
Qed.

Lemma sched_ok s i c pi p :
  inside L_ptable s i c pi → k_ptable s !! pi = Some p → p_state p ≠ RUNNING →
  ∃ k, sched s = Wait s k ∧ ∀ s', k s' = mycpu_alter (cpu_set_intena (intena c)) s'.
Proof.
  intros Hin Hp Hst. unfold sched. rewrite (bind_ok _ _ _ _ _ (inside_myproc _ _ _ _ _ Hin)).
  pose proof (inside_settled _ _ _ _ _ Hin) as Hset. destruct Hin as [H1 H2 H3 H4].
  assert (eflags_if (k_mach s) = false) as Hif by (apply H1; lia).
  rewrite (bind_ok _ _ _ _ _ (kholding_ok L_ptable s i c H1 ltac:(lia))), Hset, set_mach_id.
  unfold get_lock. rewrite H3. simpl. rewrite bool_decide_eq_true_2 by done. cbn [negb].
  rewrite (bind_ok _ _ _ _ _ (kmycpu_get_ok s i c H1 Hif)). rewrite H2. cbn [negb Z.eqb Pos.eqb].
  rewrite (bind_ok _ _ _ _ _ (get_proc_ok s pi p Hp)). rewrite bool_decide_eq_false_2 by done.
  unfold readeflags_if. rewrite bind_kgets. change (mach s) with (k_mach s). rewrite Hif.
  rewrite (bind_ok _ _ _ _ _ (kmycpu_get_ok s i c H1 Hif)). unfold kswtch, mbind, K_bind. simpl.
  by eexists.
Qed.

(** The machine after [sleep] exchanged lock [l] for [ptable.lock]. *)
Definition swap_lock (l : lockid) (i : nat) (m : machine) : machine :=
  set_lock l unlocked (set_lock L_ptable (Spinlock 1 (Some i)) m).

Lemma push_pop_busy c fl : ncli c = 1 → pop_cpu (push_cpu fl c) = c.
Proof. intros H. destruct c as [a st n it p ns]. unfold pop_cpu, push_cpu; simpl in *. by subst n. Qed.

Lemma sleep_swap l s i c pi :
  inside l s i c pi → l ≠ L_ptable → locks (k_mach s) !! L_ptable = None →
  (acquire L_ptable;; release l) s = Ok tt (set_k_mach (swap_lock l i (k_mach s)) s).
Proof.
  intros [H1 H2 H3 H4] Hl Hp. rewrite (bind_acquire L_ptable _ i c s) by (done || lia).
  assert (eflags_if (k_mach s) = false) as Hif by (apply H1; lia).
  rewrite (krelease_ok l _ i (push_cpu (eflags_if (k_mach s)) c)).
  - f_equal. ksimpl. f_equal. unfold popped, acquired, swap_lock.
    rewrite push_pop_busy by done. rewrite ncli_push, H2. unfold set_lock, pushed; simpl.
    rewrite list_insert_insert_eq, list_insert_id by apply H1. by rewrite Hif.
  - by apply mach_at_acquired.
  - rewrite ncli_push. lia.
  - kproj. by rewrite locks_acquired_ne.
Qed.

Lemma inside_swap l s s' i c pi :
  inside l s i c pi → l ≠ L_ptable → k_mach s' = swap_lock l i (k_mach s) → inside L_ptable s' i c pi.
Proof.
  intros [H1 H2 H3 H4] Hl E. split; rewrite ?E; [|done| |done].
  - by apply mach_at_set_lock, mach_at_set_lock.
  - unfold swap_lock, set_lock; simpl. by rewrite lookup_delete_ne, lookup_insert_eq.
Qed.

Lemma wakeup_ok chan s i c :
  can_lock L_ptable s i c → length (k_ptable s) = NPROC →
  wakeup chan s = Ok tt (set_k_mach (settled i c (k_mach s))
                   (set_k_ptable (map (wake chan) (k_ptable s)) s)).
Proof.
  intros [H1 H2 H3] Hlen. unfold wakeup. rewrite (bind_acquire L_ptable _ i c s) by (done || lia).
  rewrite (bind_ok _ _ _ _ _ (wakeup1_ok chan (set_k_mach (acquired L_ptable i c (k_mach s)) s) Hlen)).
  rewrite (krelease_acquired L_ptable (k_mach s) _ i c H1 ltac:(lia) H3) by done. by ksimpl.
Qed.

(** Waking up again: the locks change hands the other way. *)
Lemma sleep_resume l it s i c pi :
  inside L_ptable s i c pi → l ≠ L_ptable → locks (k_mach s) !! l = None →
  (mycpu_alter (cpu_set_intena it);;
   alter_proc pi (set_p_chan None);;
   (if decide (l ≠ L_ptable) then release L_ptable;; acquire l else mret tt)) s
  = (release L_ptable;; acquire l)
      (set_k_mach (set_cpus (<[i := cpu_set_intena it c]> (cpus (k_mach s))) (k_mach s))
        (set_k_ptable (alter (set_p_chan None) pi (k_ptable s)) s)).
Proof.
  intros [H1 H2 H3 H4] Hl Hfree. assert (eflags_if (k_mach s) = false) as Hif by (apply H1; lia).
  rewrite (bind_ok _ _ _ _ _ (kmycpu_alter_ok _ s i c H1 Hif)). rewrite bind_alter_proc.
  rewrite decide_True by done. by ksimpl.
Qed.

Lemma release_acquire l l' s i c pi :
  inside l s i c pi → l ≠ l' → locks (k_mach s) !! l' = None →
  ∃ s', (release l;; acquire l') s = Ok tt s' ∧ (∃ c', inside l' s' i c' pi)
    ∧ locks (k_mach s') = <[l' := Spinlock 1 (Some i)]> (delete l (locks (k_mach s)))
    ∧ s' = set_k_mach (k_mach s') s.
Proof.
  intros [H1 H2 H3 H4] Hl Hfree. rewrite (bind_ok _ _ _ _ _ (krelease_ok l s i c H1 ltac:(lia) H3)).
  set (s1 := set_k_mach _ s).
  assert (mach_at (k_mach s1) i (pop_cpu c)) as Hat1.
  { apply mach_at_insert with c; [by apply mach_at_set_lock|done|simpl; lia|].
    simpl. rewrite H2. lia. }
  assert (locks (k_mach s1) !! l' = None) as Hf1.
  { unfold s1, popped, set_lock; simpl. by rewrite lookup_delete_ne. }
  rewrite (kacquire_ok l' s1 i (pop_cpu c) Hat1) by (simpl; lia || done).
  eexists. split; [done|]. split.
  - exists (push_cpu (eflags_if (k_mach s1)) (pop_cpu c)). split.
    + by apply mach_at_acquired.
    + rewrite ncli_push. simpl. lia.
    + apply locks_acquired_eq.
    + by rewrite cproc_push.
  - split; [|unfold s1; by ksimpl]. done.
Qed.

(** [sleep] on a lock other than [ptable.lock]: the CPU is given up with the
    locks exchanged; whatever CPU [i2] resumes the process takes [l] again. *)
Lemma sleep_waits l ch s i c pi p :
  inside l s i c pi → l ≠ L_ptable → locks (k_mach s) !! L_ptable = None → k_ptable s !! pi = Some p →
  ∃ k, sleep (Some ch) (Some l) s
      = Wait (set_k_mach (swap_lock l i (k_mach s))
               (set_k_ptable (<[pi := set_p_state SLEEPING (set_p_chan (Some ch) p)]> (k_ptable s)) s)) k
    ∧ ∀ s2 i2 c2, inside L_ptable s2 i2 c2 pi → locks (k_mach s2) !! l = None →
        ∃ m3 c3, k s2 = Ok tt (set_k_mach m3 (set_k_ptable (alter (set_p_chan None) pi (k_ptable s2)) s2))
          ∧ inside l (set_k_mach m3 s2) i2 c3 pi ∧ locks m3 !! L_ptable = None.
Proof.
  intros Hin Hl Hpt Hp. unfold sleep. rewrite (bind_ok _ _ _ _ _ (inside_myproc _ _ _ _ _ Hin)).
  rewrite (bind_ok _ _ _ tt (set_k_mach (swap_lock l i (k_mach s)) s))
    by (rewrite decide_True by done; by eapply sleep_swap).
  rewrite !bind_alter_proc. ksimpl. rewrite list_alter_alter_eq.
  rewrite (list_alter_as_insert (set_p_state SLEEPING ∘ set_p_chan (Some ch)) _ _ _ Hp). cbn [compose].
  set (s1 := set_k_mach _ _).
  pose proof (lookup_lt_Some _ _ _ Hp) as Hlt.
  destruct (sched_ok s1 i c pi (set_p_state SLEEPING (set_p_chan (Some ch) p))) as (k & Hs & Hk);
    [by eapply inside_swap|by unfold s1; kproj; rewrite list_lookup_insert_eq|done|].
  eexists. split; [exact (bind_wait _ _ _ _ _ Hs)|].
  intros s2 i2 c2 Hin2 Hl2. cbv beta. rewrite Hk, rbind_run.
  rewrite (sleep_resume l (intena c) s2 i2 c2 pi Hin2 Hl Hl2). set (s3 := set_k_mach _ _).
  assert (inside L_ptable s3 i2 (cpu_set_intena (intena c) c2) pi) as Hin3.
  { destruct Hin2 as [A1 A2 A3 A4]. split; [|done..].
    apply mach_at_insert with c2; [done|done|simpl; lia|]. intros _. apply A1. lia. }
  destruct (release_acquire L_ptable l s3 i2 _ pi Hin3 ltac:(done) Hl2) as (s4 & Hrun & (c4 & Hin4) & Hlk & E4).
  exists (k_mach s4), c4. split; [|split].
  - rewrite Hrun, E4. unfold s3. by ksimpl.
  - by eapply inside_mach.
  - by rewrite Hlk, lookup_insert_ne, lookup_delete_eq by done.
Qed.

(** Critical sections entered with interrupts on, seen from inside. *)
Lemma acquire_inside l s i c pi :
  can_lock l s i c → ncli c = 0 → cproc c = Some pi →
  acquire l s = Ok tt (set_k_mach (acquired l i c (k_mach s)) s)
    ∧ inside l (set_k_mach (acquired l i c (k_mach s)) s) i (push_cpu (eflags_if (k_mach s)) c) pi.
Proof.
  intros [H1 H2 H3] Hn Hc. split; [by apply kacquire_ok; [|lia|]|].
  split; kproj; [by apply mach_at_acquired|rewrite ncli_push; lia|apply locks_acquired_eq|by rewrite cproc_push].
Qed.

Definition left_lock (l : lockid) (i : nat) (c : cpu) (m : machine) : machine :=
  popped i c (set_lock l unlocked m).

Lemma release_inside l s i c pi :
  inside l s i c pi → release l s = Ok tt (set_k_mach (left_lock l i c (k_mach s)) s).
Proof. intros [H1 H2 H3 H4]. by apply krelease_ok; [|lia|]. Qed.

Lemma locks_left l i c m : locks (left_lock l i c m) = delete l (locks m).
Proof. done. Qed.

(** [wakeup] inside another critical section leaves the machine alone. *)
Lemma wakeup_inside l chan s i c pi :
  inside l s i c pi → locks (k_mach s) !! L_ptable = None → length (k_ptable s) = NPROC →
  wakeup chan s = Ok tt (set_k_ptable (map (wake chan) (k_ptable s)) s).
Proof.
  intros Hin Hf Hlen. rewrite (wakeup_ok chan s i c); [|by destruct Hin as [??]; split; [|lia|]|done].
  rewrite (inside_settled l) with (pi := pi) by done. by rewrite <- (set_mach_id (set_k_ptable _ _)).
Qed.

End sleep_lemmas.

(** ** [exit] *)

Section exit_lemmas.
Context {X : Type}.
Implicit Types (s : kstate X).

(** What [exit] of process [cur] does to one entry: children go to [ip]. *)
Definition adopt (cur : nat) (ip : option nat) (p : proc) : proc :=
  if bool_decide (p_parent p = Some cur) then set_p_parent ip p else p.

Definition zombie_child (cur : nat) (p : proc) : bool :=
  bool_decide (p_parent p = Some cur) && bool_decide (p_state p = ZOMBIE).

(** Waking the sleepers on [ch] when [b]. *)
Definition wake_if (b : bool) (ch : option channel) (p : proc) : proc := if b then wake ch p else p.

Lemma wake_set_parent ch ip p : wake ch (set_p_parent ip p) = set_p_parent ip (wake ch p).
Proof. unfold wake; simpl. by destruct (bool_decide _ && bool_decide _). Qed.

Lemma adopt_wake_if cur ip b ch p : adopt cur ip (wake_if b ch p) = wake_if b ch (adopt cur ip p).
Proof.
  destruct b; [|done]. unfold adopt, wake_if. rewrite wake_parent.
  destruct (bool_decide _); [by rewrite wake_set_parent|done].
Qed.

Lemma zombie_child_wake_if cur b ch p : zombie_child cur (wake_if b ch p) = zombie_child cur p.
Proof.
  destruct b; [|done]. unfold zombie_child, wake_if. rewrite wake_parent. f_equal.
  apply bool_decide_ext, wake_zombie.
Qed.

(** The table when the loop of [exit] has done the entries below [k]. *)
Definition reparent_upto (cur : nat) (ip : option nat) (k : nat) (tab : list proc) : list proc :=
  map (wake_if (existsb (zombie_child cur) (take k tab)) (Chan_proc <$> ip))
    (map (adopt cur ip) (take k tab) ++ drop k tab).

Lemma wake_if_idem b ch p : wake_if true ch (wake_if b ch p) = wake_if true ch p.
Proof. destruct b; [apply wake_idem|done]. Qed.

Lemma reparent_upto_lookup cur ip k tab p :
  tab !! k = Some p →
  reparent_upto cur ip k tab !! k
  = Some (wake_if (existsb (zombie_child cur) (take k tab)) (Chan_proc <$> ip) p).
Proof.
  intros Hp. pose proof (lookup_lt_Some _ _ _ Hp) as Hk. unfold reparent_upto.
  change (map ?f ?l) with (f <$> l) at 1. rewrite list_lookup_fmap.
  rewrite lookup_app_r by (rewrite length_map, length_take; lia).
  rewrite length_map, length_take, Nat.min_l by lia. by rewrite lookup_drop, Nat.sub_diag, Nat.add_0_r, Hp.
Qed.

Lemma reparent_upto_S cur ip k tab p :
  tab !! k = Some p →
  reparent_upto cur ip (S k) tab
  = (if zombie_child cur p then map (wake (Chan_proc <$> ip)) else λ l, l)
      (alter (adopt cur ip) k (reparent_upto cur ip k tab)).
Proof.
  intros Hp. pose proof (lookup_lt_Some _ _ _ Hp) as Hk.
  pose proof (reparent_upto_lookup cur ip k tab p Hp) as Hl.
  unfold reparent_upto at 1. rewrite (take_S_r _ _ _ Hp), existsb_app. simpl. rewrite orb_false_r.
  replace (map (adopt cur ip) (take k tab ++ [p]) ++ drop (S k) tab)
    with (map (adopt cur ip) (take k tab) ++ adopt cur ip p :: drop (S k) tab)
    by (by rewrite map_app, <- app_assoc).
  set (b := existsb (zombie_child cur) (take k tab)) in *. set (ch := Chan_proc <$> ip) in *.
  assert (alter (adopt cur ip) k (reparent_upto cur ip k tab)
    = map (wake_if b ch) (map (adopt cur ip) (take k tab) ++ adopt cur ip p :: drop (S k) tab)) as ->.
  { rewrite (list_alter_as_insert _ _ _ _ Hl). unfold reparent_upto. rewrite (drop_S _ _ _ Hp).
    rewrite !map_app. simpl. rewrite insert_app_r_alt by (rewrite !length_map, length_take; lia).
    rewrite !length_map, length_take, Nat.min_l, Nat.sub_diag by lia. simpl.
    by rewrite adopt_wake_if. }
  destruct (zombie_child cur p).
  - rewrite orb_true_r, map_map. apply map_ext. intros q. by rewrite <- (wake_if_idem b ch q).
  - by rewrite orb_false_r.
Qed.

Lemma reparent_ok cur s :
  length (k_ptable s) = NPROC →
  reparent cur s = Ok tt (set_k_ptable (reparent_upto cur (k_initproc s) NPROC (k_ptable s)) s).
Proof.
  intros Hlen. unfold reparent, ptable_iter.
  assert (∀ n k s', (k + n = NPROC)%nat →
    s' = set_k_ptable (reparent_upto cur (k_initproc s) k (k_ptable s)) s →
    kfor_ (seq k n) (λ i, p ← get_proc i;
      if bool_decide (p_parent p = Some cur) then
        ip ← kgets k_initproc;
        alter_proc i (set_p_parent ip);;
        (if bool_decide (p_state p = ZOMBIE) then wakeup1 (Chan_proc <$> ip) else mret tt)
      else mret tt) s'
    = Ok tt (set_k_ptable (reparent_upto cur (k_initproc s) NPROC (k_ptable s)) s)) as H.
  2:{ apply (H NPROC 0%nat); [done|]. unfold reparent_upto. simpl.
      rewrite (map_ext (wake_if false _) (λ p, p)) by done. by rewrite map_id, drop_0, set_ptable_id. }
  induction n as [|n IH]; intros k s' Hk Hs'; cbn [seq kfor_].
  { replace NPROC with k by lia. by subst s'. }
  destruct (lookup_lt_is_Some_2 (k_ptable s) k) as [p Hp]; [lia|].
  pose proof (reparent_upto_lookup cur (k_initproc s) k (k_ptable s) p Hp) as Hl.
  set (ip := k_initproc s) in *. set (q := wake_if _ _ p) in Hl.
  assert (k_ptable s' !! k = Some q) as Hq by (subst s'; done).
  assert (length (reparent_upto cur ip k (k_ptable s)) = NPROC) as Hlk.
  { unfold reparent_upto. rewrite length_map, length_app, length_map, length_take, length_drop. lia. }
  erewrite (bind_ok _ _ _ tt); [by apply IH; [lia|]|].
  rewrite (bind_ok _ _ _ _ _ (get_proc_ok s' k q Hq)).
  rewrite (reparent_upto_S cur ip k (k_ptable s) p Hp).
  rewrite <- (zombie_child_wake_if cur (existsb (zombie_child cur) (take k (k_ptable s))) (Chan_proc <$> ip) p).
  fold q. rewrite (list_alter_as_insert _ _ _ _ Hl). unfold zombie_child, adopt.
  destruct (bool_decide (p_parent q = Some cur)); cbn [andb].
  - rewrite bind_kgets, bind_alter_proc. replace (k_initproc s') with ip by (by subst s').
    rewrite (list_alter_as_insert _ _ _ _ Hq). destruct (bool_decide (p_state q = ZOMBIE)).
    + rewrite wakeup1_ok by (subst s'; kproj; by rewrite length_insert). subst s'. by ksimpl.
    + subst s'. by ksimpl.
  - subst s'. by rewrite list_insert_id by exact Hl.
Qed.

End exit_lemmas.

(** ** [kill] and [wait] *)

Section wait_lemmas.
Context {X : Type}.
Implicit Types (s : kstate X).

(** What [kill] does to the entry it finds. *)
Definition killed_entry (p : proc) : proc :=
  let p := set_p_killed 1 p in
  if bool_decide (p_state p = SLEEPING) then set_p_state RUNNABLE p else p.

Lemma kill_found pid s i c j :
  can_lock L_ptable s i c → length (k_ptable s) = NPROC →
  find_index (λ p, p_pid p =? pid) (k_ptable s) = Some j →
  kill pid s = Ok 0 (set_k_mach (settled i c (k_mach s))
                 (set_k_ptable (alter killed_entry j (k_ptable s)) s)).
Proof.
  intros [H1 H2 H3] Hlen Hf. unfold kill.
  erewrite kcritical; [|done|lia|done|eapply ptable_find_ok; [done|done|rewrite bind_alter_proc; done]|done].
  unfold mret, K_ret. ksimpl. by rewrite list_alter_alter_eq.
Qed.

Lemma kill_missing pid s i c :
  can_lock L_ptable s i c → length (k_ptable s) = NPROC →
  find_index (λ p, p_pid p =? pid) (k_ptable s) = None →
  kill pid s = Ok (-1) (set_k_mach (settled i c (k_mach s)) s).
Proof.
  intros [H1 H2 H3] Hlen Hf. unfold kill.
  erewrite kcritical; [|done|lia|done|by apply ptable_find_none|done]. unfold mret, K_ret. by ksimpl.
Qed.

End wait_lemmas.

Section reap_lemmas.
Context {Xm Xf : Type} `{!MemOps Xm Xf} `{!FsOps Xm Xf}.
Implicit Types (s : kstate (Xm * Xf)).

Definition is_child (cur : nat) (p : proc) : bool := bool_decide (p_parent p = Some cur).

(** The scan of [wait] with no zombie child only looks. *)
Lemma wait_scan_none cur s : ∀ n k hk, (k + n ≤ length (k_ptable s))%nat →
  (∀ j p, (k ≤ j < k + n)%nat → k_ptable s !! j = Some p → zombie_child cur p = false) →
  wait_scan (seq k n) cur hk s
  = Ok (inr (hk || existsb (is_child cur) (take n (drop k (k_ptable s))))) s.
Proof.
  induction n as [|n IH]; intros k hk Hlen Hz; cbn [seq wait_scan].
  { simpl. by rewrite orb_false_r. }
  destruct (lookup_lt_is_Some_2 (k_ptable s) k) as [p Hp]; [lia|].
  rewrite (bind_ok _ _ _ _ _ (get_proc_ok s k p Hp)).
  pose proof (Hz k p ltac:(lia) Hp) as Hzp. unfold zombie_child in Hzp.
  rewrite (drop_S _ _ _ Hp). simpl. unfold is_child at 1.
  destruct (bool_decide (p_parent p = Some cur)); cbn [negb andb] in *.
  - rewrite Hzp. rewrite IH; [|lia|intros j q Hj; apply Hz; lia]. simpl. by rewrite orb_true_r.
  - rewrite IH; [done|lia|intros j q Hj; apply Hz; lia].
Qed.

Lemma wait_scan_reap cur s j : ∀ n k hk, (k ≤ j < k + n)%nat → (j < length (k_ptable s))%nat →
  (∃ p, k_ptable s !! j = Some p ∧ zombie_child cur p = true) →
  (∀ j' p, (k ≤ j' < j)%nat → k_ptable s !! j' = Some p → zombie_child cur p = false) →
  wait_scan (seq k n) cur hk s = (pid ← reap j; mret (inl pid)) s.
Proof.
  induction n as [|n IH]; intros k hk Hj Hlen (p & Hp & Hz) Hmin; [lia|]. cbn [seq wait_scan].
  destruct (decide (k = j)) as [->|Hne].
  - rewrite (bind_ok _ _ _ _ _ (get_proc_ok s j p Hp)). unfold zombie_child in Hz.
    apply andb_true_iff in Hz as [-> ->]. done.
  - destruct (lookup_lt_is_Some_2 (k_ptable s) k) as [q Hq]; [lia|].
    rewrite (bind_ok _ _ _ _ _ (get_proc_ok s k q Hq)).
    pose proof (Hmin k q ltac:(lia) Hq) as Hzq. unfold zombie_child in Hzq.
    destruct (bool_decide (p_parent q = Some cur)); cbn [negb andb] in *; [rewrite Hzq|];
      (apply IH; [lia|done|by exists p|intros j' p' Hj'; apply Hmin; lia]).
Qed.

(** An entry after [wait] freed it. *)
Definition reaped (p : proc) : proc :=
  set_p_state UNUSED (set_p_killed 0 (set_p_name (<[0%nat := 0]> (p_name p))
    (set_p_parent None (set_p_pid 0 (set_p_kstack 0 p))))).

(** The stack and the space of [p] are given back; other memory is as it was. *)
Definition memory_reaped (x x' : Xm) (p : proc) (U : gmap Z Z) (P : gset Z) : Prop :=
  mem_own x' (delete (p_pgdir p) U) (P ∖ {[p_kstack p]}) ∧ same_user mem_byte (delete (p_pgdir p) U) x x'.

Lemma reap_ok s m i c j p U P :
  k_mach s = acquired L_ptable i c m → mach_at m i c → ncli c < 2 ^ 31 - 17 →
  locks m !! L_ptable = None → locks m !! L_kmem = None →
  k_ptable s !! j = Some p → mem_own (fst (k_ext s)) U P → p_kstack p ∈ P → U !! p_pgdir p = Some (p_sz p) →
  ∃ x, reap j s = Ok (p_pid p) (set_k_mach (settled i c m)
    (set_k_ptable (alter reaped j (k_ptable s)) (set_k_ext (x, snd (k_ext s)) s)))
    ∧ memory_reaped (fst (k_ext s)) x p U P.
Proof.
  intros Hm Hat Hn Hl1 Hl2 Hp Hown Hpg Hsp. set (c1 := push_cpu (eflags_if m) c).
  assert (∀ s', k_mach s' = k_mach s → can_lock L_kmem s' i c1 ∧ at_rest s' i c1) as Hcl.
  { intros s' E. rewrite Hm in E. assert (mach_at (k_mach s') i c1) as H1 by (rewrite E; by apply mach_at_acquired).
    split; [split; [done| |]|].
    - unfold c1. rewrite ncli_push. lia.
    - by rewrite E, locks_acquired_ne.
    - unfold at_rest. rewrite settled_busy; [done|done|]. unfold c1. rewrite ncli_push. destruct Hat. lia. }
  unfold reap. rewrite (bind_ok _ _ _ _ _ (get_proc_ok s j p Hp)). destruct (Hcl s eq_refl) as [Hcl0 Hr0].
  destruct (e_kfree_ok s i c1 U P _ Hcl0 Hr0 Hown Hpg) as (x1 & Hf & Hsame1 & Hown1).
  rewrite (bind_ok _ _ _ _ _ Hf). unfold put_mem. rewrite bind_alter_proc.
  set (s1 := set_k_ptable _ _). destruct (Hcl s1 eq_refl) as [Hcl1 Hr1].
  destruct (e_freevm_ok s1 i c1 U _ (p_pgdir p) (p_sz p) Hcl1 Hr1 Hown1 Hsp) as (x2 & Hv & Hsame2 & Hown2).
  rewrite (bind_ok _ _ _ _ _ Hv). unfold put_mem. rewrite !bind_alter_proc. unfold s1. ksimpl.
  rewrite !list_alter_alter_eq.
  rewrite (bind_release L_ptable _ m i c) by (done || lia). exists x2. split; [unfold mret, K_ret; by ksimpl|].
  split; [exact Hown2|]. intros d va Hd Hva. etrans; [by apply Hsame2|]. apply Hsame1; [|done].
  destruct Hd as [sz Hd]. apply lookup_delete_Some in Hd as [_ Hd]. by exists sz.
Qed.

End reap_lemmas.

(** ** The table while a process sleeps *)

(** A change of an entry that concerns neither its state nor its channel. *)
Definition keeps_sleep (f : proc → proc) : Prop := ∀ q, p_state (f q) = p_state q ∧ p_chan (f q) = p_chan q.

(** What can happen to the process table while process [pi] is not running: a
    [wakeup] on any channel, a [kill] of it, a change of other fields of its entry
    (its parent, its scheduling parameters), and anything at all that is done to
    another entry, such as dispatching it, [fork], [exit], [wait] or [sleep]. *)
Inductive table_step (pi : nat) : list proc → list proc → Prop :=
| ts_wakeup ch tab : table_step pi tab (map (wake ch) tab)
| ts_kill tab : table_step pi tab (alter (λ p, if bool_decide (p_state p = SLEEPING) then set_p_state RUNNABLE p else p) pi tab)
| ts_fields f tab : keeps_sleep f → table_step pi tab (alter f pi tab)
| ts_other j f tab : j ≠ pi → table_step pi tab (alter f j tab).

(** Asleep on [ch], or already woken. *)
Definition waits (ch : channel) (q : proc) : Prop := p_state q = RUNNABLE ∨ p_state q = SLEEPING ∧ p_chan q = Some ch.

Lemma wake_waits ch ch' q : waits ch q → waits ch (wake ch' q).
Proof. intros [H|[H1 H2]]; unfold wake; (destruct (_ && _); [by left|]); [by left|by right]. Qed.

Lemma wake_own ch q : waits ch q → p_state (wake (Some ch) q) = RUNNABLE.
Proof.
  intros [H|[H1 H2]]; unfold wake; [by destruct (_ && _)|]. by rewrite !bool_decide_eq_true_2.
Qed.

(** What holds of the entry of [pi], for a property that all these changes keep. *)
Lemma table_step_keeps (Q : proc → Prop) pi tab tab' q :
  (∀ ch q, Q q → Q (wake ch q)) → (∀ q, Q q → Q (if bool_decide (p_state q = SLEEPING) then set_p_state RUNNABLE q else q)) →
  (∀ f q, keeps_sleep f → Q q → Q (f q)) →
  rtc (table_step pi) tab tab' → tab !! pi = Some q → Q q → ∃ q', tab' !! pi = Some q' ∧ Q q'.
Proof.
  intros H1 H2 H3 Hr. revert q. induction Hr as [tab|tab tab1 tab' Hst Hr IH]; intros q Hq HQ; [by exists q|].
  destruct Hst as [ch tab|tab|f tab Hf|j f tab Hj].
  - apply (IH (wake ch q)); [|by apply H1]. change (map ?f ?t) with (f <$> t). by rewrite list_lookup_fmap, Hq.
  - eapply IH; [rewrite list_lookup_alter_eq, Hq; done|by apply H2].
  - eapply IH; [rewrite list_lookup_alter_eq, Hq; done|by apply H3].
  - eapply IH; [by rewrite list_lookup_alter_ne|done].
Qed.

Lemma table_step_waits pi ch tab tab' q :
  rtc (table_step pi) tab tab' → tab !! pi = Some q → waits ch q → ∃ q', tab' !! pi = Some q' ∧ waits ch q'.
Proof.
  apply (table_step_keeps (waits ch)); [intros ch' q'; apply wake_waits| |].
  - intros q' [H|[H1 H2]]; [rewrite H; by left|rewrite H1; by left].
  - intros f q' Hf. unfold waits. destruct (Hf q') as [-> ->]. done.
Qed.

Lemma table_step_runnable pi tab tab' q :
  rtc (table_step pi) tab tab' → tab !! pi = Some q → p_state q = RUNNABLE → ∃ q', tab' !! pi = Some q' ∧ p_state q' = RUNNABLE.
Proof.
  apply (table_step_keeps (λ q, p_state q = RUNNABLE)).
  - intros ch q' H. unfold wake. by rewrite H.
  - intros q' H. by rewrite H.
  - intros f q' Hf H. by rewrite (proj1 (Hf q')).
Qed.

(** ** Properties *)


(** A CPU that holds only [tickslock] and runs process 0. *)
Definition sample_inside : kstate unit :=
  set_k_mach (Machine [Cpu 0 1 1 512 (Some 0%nat) 0] 0 false {[ L_ticks := Spinlock 1 (Some 0%nat) ]})
    (sample_kstate (Prioritylock 0 0 [] 0) (sample_table [sample_proc RUNNING 7 None])).


Section exit_table.
Context {X : Type}.
Implicit Types (s : kstate X).

(** What the end of [exit] of process [cur], whose parent is [pa], does to an
    entry other than its own; [b]: some child is a zombie. *)
Definition exit_entry (cur : nat) (pa ip : option nat) (b : bool) (q : proc) : proc :=
  wake_if b (Chan_proc <$> ip) (adopt cur ip (wake (Chan_proc <$> pa) q)).

Definition exit_table (cur : nat) (pa ip : option nat) (tab : list proc) : list proc :=
  map (exit_entry cur pa ip (existsb (zombie_child cur) tab)) tab.

Lemma zombie_child_wake cur ch p : zombie_child cur (wake ch p) = zombie_child cur p.
Proof. exact (zombie_child_wake_if cur true ch p). Qed.

Lemma existsb_map {A B} (f : A → B) (g : B → bool) l : existsb g (map f l) = existsb (λ x, g (f x)) l.
Proof. induction l as [|x l IH]; simpl; [done|]. by rewrite IH. Qed.

Lemma existsb_ext {A} (f g : A → bool) l : (∀ x, f x = g x) → existsb f l = existsb g l.
Proof. intros H. induction l as [|x l IH]; simpl; [done|]. by rewrite IH, H. Qed.

Lemma reparent_upto_exit cur pa ip tab :
  length tab = NPROC →
  reparent_upto cur ip NPROC (map (wake (Chan_proc <$> pa)) tab) = exit_table cur pa ip tab.
Proof.
  intros Hlen. unfold reparent_upto, exit_table. rewrite take_ge, drop_ge by (rewrite length_map; lia).
  rewrite app_nil_r, !map_map, existsb_map. rewrite (existsb_ext _ (zombie_child cur)); [done|].
  intros x. apply zombie_child_wake.
Qed.

Lemma wake_if_pid b ch p : p_pid (wake_if b ch p) = p_pid p.
Proof. destruct b; [apply wake_pid|done]. Qed.

Lemma wake_if_parent b ch p : p_parent (wake_if b ch p) = p_parent p.
Proof. destruct b; [apply wake_parent|done]. Qed.

Lemma exit_entry_pid cur pa ip b q : p_pid (exit_entry cur pa ip b q) = p_pid q.
Proof.
  unfold exit_entry. rewrite wake_if_pid. unfold adopt. destruct (bool_decide _); simpl; apply wake_pid.
Qed.

Lemma exit_entry_parent cur pa ip b q :
  p_parent (exit_entry cur pa ip b q) = if decide (p_parent q = Some cur) then ip else p_parent q.
Proof.
  unfold exit_entry. rewrite wake_if_parent. unfold adopt. rewrite wake_parent.
  destruct (decide _); [by rewrite bool_decide_eq_true_2|]. rewrite bool_decide_eq_false_2 by done.
  apply wake_parent.
Qed.

Lemma wake_unused ch p : p_state (wake ch p) ≠ UNUSED → p_state p ≠ UNUSED.
Proof.
  unfold wake. destruct (bool_decide (p_state p = SLEEPING)) eqn:E; simpl; [|done].
  apply bool_decide_eq_true in E. rewrite E. done.
Qed.

Lemma exit_entry_live cur pa ip b q :
  p_state (exit_entry cur pa ip b q) ≠ UNUSED → p_state q ≠ UNUSED.
Proof.
  unfold exit_entry. intros H. apply (wake_unused (Chan_proc <$> pa)).
  assert (p_state (adopt cur ip (wake (Chan_proc <$> pa) q)) ≠ UNUSED) as H'.
  { destruct b; [by eapply wake_unused|done]. }
  revert H'. unfold adopt. by destruct (bool_decide _).
Qed.

(** A sleeper on the channel of [pa], or of [ip] when there is a zombie child,
    comes out runnable. *)
Lemma exit_entry_wakes cur pa ip b q ch :
  p_state q = SLEEPING → p_chan q = Some ch →
  (Chan_proc <$> pa = Some ch ∨ b = true ∧ Chan_proc <$> ip = Some ch) →
  p_state (exit_entry cur pa ip b q) = RUNNABLE.
Proof.
  intros Hs Hc Hch. unfold exit_entry.
  assert (∀ r, p_state r = RUNNABLE → p_state (wake_if b (Chan_proc <$> ip) r) = RUNNABLE) as Hk.
  { intros r Hr. destruct b; [|done]. unfold wake_if, wake. rewrite Hr. done. }
  unfold wake at 1. rewrite Hs, Hc, (bool_decide_eq_true_2 (SLEEPING = SLEEPING)) by done. cbn [andb].
  destruct (bool_decide (Some ch = Chan_proc <$> pa)) eqn:E; bool_to_prop.
  - apply Hk. unfold adopt. by destruct (bool_decide _).
  - destruct Hch as [Hch|[-> Hch]]; [congruence|]. unfold wake_if. rewrite Hch. unfold wake, adopt.
    destruct (bool_decide (p_parent q = Some cur)); simpl; rewrite Hs, Hc, !bool_decide_eq_true_2 by done; done.
Qed.

Lemma exit_finish_run s i c cur p :
  can_lock L_ptable s i c → ncli c = 0 → cproc c = Some cur → k_ptable s !! cur = Some p →
  length (k_ptable s) = NPROC →
  ∃ s1 k c1, exit_finish cur s = Wait s1 k
    ∧ k_ptable s1 = alter (set_p_state ZOMBIE) cur (exit_table cur (p_parent p) (k_initproc s) (k_ptable s))
    ∧ k_nextpid s1 = k_nextpid s ∧ inside L_ptable s1 i c1 cur
    ∧ ∀ s2 c2, inside L_ptable s2 i c2 cur → k s2 = Panic "zombie exit".
Proof.
  intros [H1 H2 H3] Hc0 Hcur Hp Hlen. unfold exit_finish.
  rewrite (bind_acquire L_ptable _ i c s) by (done || lia). set (s0 := set_k_mach _ s).
  rewrite (bind_ok _ _ _ _ _ (get_proc_ok s0 cur p Hp)).
  rewrite (bind_ok _ _ _ _ _ (wakeup1_ok _ s0 Hlen)).
  rewrite (bind_ok _ _ _ _ _ (reparent_ok cur (set_k_ptable (map (wake (Chan_proc <$> p_parent p)) (k_ptable s0)) s0)
    ltac:(kproj; by rewrite length_map))).
  rewrite bind_alter_proc. unfold s0. ksimpl. rewrite reparent_upto_exit by done.
  set (s1 := set_k_mach _ _). set (c1 := push_cpu (eflags_if (k_mach s)) c).
  assert (inside L_ptable s1 i c1 cur) as Hin.
  { split.
    - by apply mach_at_acquired.
    - unfold c1. rewrite ncli_push. lia.
    - apply locks_acquired_eq.
    - unfold c1. by rewrite cproc_push. }
  destruct (sched_ok s1 i c1 cur (set_p_state ZOMBIE (exit_entry cur (p_parent p) (k_initproc s)
    (existsb (zombie_child cur) (k_ptable s)) p)) Hin) as (k & Hs & Hk); [|done|].
  { unfold s1. kproj. rewrite list_lookup_alter_eq. unfold exit_table. change (map ?f ?t) with (f <$> t).
    by rewrite list_lookup_fmap, Hp. }
  exists s1, (λ s', rbind (k s') (λ _, kpanic "zombie exit")), c1.
  split; [exact (bind_wait _ _ _ _ _ Hs)|]. split; [done|]. split; [done|]. split; [done|].
  intros s2 c2 [A1 A2 A3 A4]. rewrite Hk, rbind_run.
  rewrite (bind_ok _ _ _ _ _ (kmycpu_alter_ok _ s2 i c2 A1 ltac:(apply A1; lia))). done.
Qed.

End exit_table.

(** C26: the end of [exit].  The process becomes a zombie that never runs again
    (if it did, [exit] would panic); its children get init as parent, so no
    entry names it as parent any more; its own parent is woken if it sleeps in
    [wait], and so is init when one of the adopted children is already a
    zombie.  Pids are untouched. *)
Theorem exit_finish_correct {X : Type} (s : kstate X) (i : nat) (c : cpu) (cur ip : nat) (p : proc) :
  can_lock L_ptable s i c → ncli c = 0 → cproc c = Some cur → k_ptable s !! cur = Some p →
  k_initproc s = Some ip → ip ≠ cur → ptable_wf s → p_state p ≠ UNUSED →
  ∃ s1 k, exit_finish cur s = Wait s1 k ∧ ptable_wf s1
    ∧ (∃ q, k_ptable s1 !! cur = Some q ∧ p_state q = ZOMBIE)
    ∧ (∀ j q, k_ptable s !! j = Some q → ∃ q', k_ptable s1 !! j = Some q' ∧ p_pid q' = p_pid q
         ∧ p_parent q' = (if decide (p_parent q = Some cur) then Some ip else p_parent q)
         ∧ p_parent q' ≠ Some cur)
    ∧ (∀ j q, j ≠ cur → k_ptable s !! j = Some q → p_state q = SLEEPING → p_chan q = Some (Chan_proc j) →
         (p_parent p = Some j ∨ j = ip ∧ ∃ z, z ∈ k_ptable s ∧ p_parent z = Some cur ∧ p_state z = ZOMBIE) →
         ∃ q', k_ptable s1 !! j = Some q' ∧ p_state q' = RUNNABLE)
    ∧ ∀ s2 c2, inside L_ptable s2 i c2 cur → k s2 = Panic "zombie exit".
Proof.
  intros Hcl Hc0 Hcur Hp Hip Hne Hwf Hst.
  destruct (exit_finish_run s i c cur p Hcl Hc0 Hcur Hp (wf_len _ Hwf)) as (s1 & k & c1 & Hrun & Ht & Hn & _ & Hk).
  rewrite Hip in Ht. exists s1, k. split; [done|].
  set (f := exit_entry cur (p_parent p) (Some ip) (existsb (zombie_child cur) (k_ptable s))) in *.
  assert (∀ j q, k_ptable s !! j = Some q → k_ptable s1 !! j
    = Some (if decide (cur = j) then set_p_state ZOMBIE (f q) else f q)) as Hlk.
  { intros j q Hq. assert (exit_table cur (p_parent p) (Some ip) (k_ptable s) !! j = Some (f q)) as Hf.
    { unfold exit_table. fold f. change (map f (k_ptable s)) with (f <$> k_ptable s).
      by rewrite list_lookup_fmap, Hq. }
    rewrite Ht. destruct (decide (cur = j)) as [<-|].
    - by rewrite list_lookup_alter_eq, Hf.
    - by rewrite list_lookup_alter_ne, Hf. }
  split.
  { eapply ptable_wf_update; [done|done|rewrite Ht, length_alter; unfold exit_table; by rewrite length_map|].
    intros j q' Hq'. destruct (lookup_lt_is_Some_2 (k_ptable s) j) as [q Hq].
    { apply lookup_lt_Some in Hq'. revert Hq'. rewrite Ht, length_alter. unfold exit_table. by rewrite length_map. }
    rewrite (Hlk j q Hq) in Hq'. injection Hq' as <-. exists q. split; [done|].
    destruct (decide (cur = j)) as [->|]; simpl; (split; [apply exit_entry_pid|]).
    - intros _. congruence.
    - apply exit_entry_live. }
  split. { rewrite (Hlk cur p Hp), decide_True by done. eauto. }
  split.
  { intros j q Hq. eexists. split; [by apply Hlk|].
    assert (∀ b, p_pid (if decide (cur = j) then set_p_state ZOMBIE b else b) = p_pid b
      ∧ p_parent (if decide (cur = j) then set_p_state ZOMBIE b else b) = p_parent b) as Hb
      by (intros; by destruct (decide (cur = j))).
    destruct (Hb (f q)) as [-> ->]. unfold f. rewrite exit_entry_pid, exit_entry_parent.
    split; [done|]. split; [done|]. destruct (decide (p_parent q = Some cur)); [congruence|done]. }
  split; [|exact Hk]. intros j q Hj Hq Hsl Hch Hw. eexists. split; [by apply Hlk|].
  rewrite decide_False by done. apply (exit_entry_wakes _ _ _ _ _ (Chan_proc j)); [done|done|].
  destruct Hw as [->|(-> & z & Hz & Hz1 & Hz2)]; [by left|right]. split; [|done].
  apply existsb_exists. exists z. split; [by apply list_elem_of_In|]. unfold zombie_child.
  by rewrite !bool_decide_eq_true_2.
Qed.

Lemma exit_finish_correct_witness :
  ∃ s1 k, exit_finish 0 (set_k_initproc (Some 1%nat) (sample_kstate (Prioritylock 0 0 [] 0)
     (sample_table [sample_proc RUNNING 7 (Some 1%nat); sample_proc RUNNABLE 1 None;
                    sample_proc ZOMBIE 9 (Some 0%nat)]))) = Wait s1 k
   ∧ (p_parent <$> k_ptable s1 !! 2%nat) = Some (Some 1%nat).
Proof.
  destruct (exit_finish_correct (set_k_initproc (Some 1%nat) (sample_kstate (Prioritylock 0 0 [] 0)
     (sample_table [sample_proc RUNNING 7 (Some 1%nat); sample_proc RUNNABLE 1 None;
                    sample_proc ZOMBIE 9 (Some 0%nat)]))) 0 (Cpu 0 1 0 0 (Some 0%nat) 0) 0 1
     (sample_proc RUNNING 7 (Some 1%nat))) as (s1 & k & H & _ & _ & Hc & _).
  - split; [by split|simpl; lia|reflexivity].
  - reflexivity.
  - reflexivity.
  - reflexivity.
  - reflexivity.
  - lia.
  - apply (sample_wf [sample_proc RUNNING 7 (Some 1%nat); sample_proc RUNNABLE 1 None;
      sample_proc ZOMBIE 9 (Some 0%nat)]); [reflexivity|reflexivity|simpl; unfold NPROC; lia| |];
      apply (bool_decide_unpack _); reflexivity.
  - done.
  - exists s1, k. split; [exact H|]. destruct (Hc 2%nat _ eq_refl) as (q' & -> & _ & Hq & _).
    simpl. rewrite Hq. reflexivity.
Defined.

Section wait_run.
Context {Xm Xf : Type} `{!MemOps Xm Xf} `{!FsOps Xm Xf}.
Implicit Types (s : kstate (Xm * Xf)).

(** [sleep] on [ptable.lock] itself, as [wait] uses it. *)
Lemma sleep_ptable s i c cur p ch :
  inside L_ptable s i c cur → k_ptable s !! cur = Some p →
  ∃ k, sleep (Some ch) (Some L_ptable) s
    = Wait (set_k_ptable (<[cur := set_p_state SLEEPING (set_p_chan (Some ch) p)]> (k_ptable s)) s) k
  ∧ ∀ s2 c2, inside L_ptable s2 i c2 cur → ∃ c3, k s2
    = Ok tt (set_k_mach (set_cpus (<[i := c3]> (cpus (k_mach s2))) (k_mach s2))
        (set_k_ptable (alter (set_p_chan None) cur (k_ptable s2)) s2))
    ∧ c3 = cpu_set_intena (intena c) c2.
Proof.
  intros Hin Hp. unfold sleep. rewrite (bind_ok _ _ _ _ _ (inside_myproc _ _ _ _ _ Hin)).
  rewrite (bind_ok _ _ _ tt s) by (by rewrite decide_False by auto).
  rewrite !bind_alter_proc. ksimpl. rewrite list_alter_alter_eq.
  rewrite (list_alter_as_insert _ _ _ _ Hp). set (s1 := set_k_ptable _ _).
  destruct (sched_ok s1 i c cur (set_p_state SLEEPING (set_p_chan (Some ch) p))) as (k & Hs & Hk).
  - by eapply inside_mach.
  - unfold s1. kproj. rewrite list_lookup_insert_eq; [done|]. by eapply lookup_lt_Some.
  - done.
  - eexists. split; [exact (bind_wait _ _ _ _ _ Hs)|]. intros s2 c2 [A1 A2 A3 A4].
    exists (cpu_set_intena (intena c) c2). split; [|done]. rewrite Hk, rbind_run.
    rewrite (bind_ok _ _ _ _ _ (kmycpu_alter_ok _ s2 i c2 A1 ltac:(apply A1; lia))).
    rewrite bind_alter_proc, decide_False by auto. unfold mret, K_ret. by ksimpl.
Qed.

(** The loop of [wait] on entry, with [ptable.lock] just taken on machine [m]. *)
Lemma wait_loop_none n cur s i c m p :
  k_mach s = acquired L_ptable i c m → mach_at m i c → ncli c = 0 → cproc c = Some cur →
  locks m !! L_ptable = None → length (k_ptable s) = NPROC → k_ptable s !! cur = Some p →
  find_index (zombie_child cur) (k_ptable s) = None →
  if negb (existsb (is_child cur) (k_ptable s)) || negb (p_killed p =? 0) then
    wait_loop (S n) cur s = Ok (-1) (set_k_mach (settled i c m) s)
  else ∃ k, wait_loop (S n) cur s
      = Wait (set_k_ptable (<[cur := set_p_state SLEEPING (set_p_chan (Some (Chan_proc cur)) p)]> (k_ptable s)) s) k
    ∧ ∀ s2 c2, inside L_ptable s2 i c2 cur → ∃ s3, k s2 = wait_loop n cur s3
        ∧ k_ptable s3 = alter (set_p_chan None) cur (k_ptable s2).
Proof.
  intros Hm Hat Hn Hcur Hl Hlen Hp Hf. cbn [wait_loop].
  rewrite find_index_None in Hf.
  rewrite (bind_ok _ _ _ _ _ (wait_scan_none cur s NPROC 0 false ltac:(lia)
    ltac:(intros j q _ Hq; apply Hf; by eapply list_elem_of_lookup_2))).
  simpl (false || _). rewrite drop_0, take_ge by lia.
  rewrite (bind_ok _ _ _ _ _ (get_proc_ok s cur p Hp)).
  destruct (negb (existsb (is_child cur) (k_ptable s)) || negb (p_killed p =? 0)).
  - by rewrite (bind_release L_ptable _ m i c) by (done || lia).
  - assert (inside L_ptable s i (push_cpu (eflags_if m) c) cur) as Hin.
    { split; rewrite ?Hm; [by apply mach_at_acquired|rewrite ncli_push; lia|apply locks_acquired_eq|].
      by rewrite cproc_push. }
    destruct (sleep_ptable s i _ cur p (Chan_proc cur) Hin Hp) as (k & Hs & Hk).
    eexists. split; [exact (bind_wait _ _ _ _ _ Hs)|]. intros s2 c2 Hin2.
    destruct (Hk s2 c2 Hin2) as (c3 & -> & _). simpl. eexists. split; [done|]. done.
Qed.

Lemma wait_loop_reap n cur s i c m j U P :
  k_mach s = acquired L_ptable i c m → mach_at m i c → ncli c < 2 ^ 31 - 17 →
  locks m !! L_ptable = None → locks m !! L_kmem = None → length (k_ptable s) = NPROC →
  mem_own (fst (k_ext s)) U P →
  (∀ q, q ∈ k_ptable s → p_state q = ZOMBIE → p_kstack q ∈ P ∧ U !! p_pgdir q = Some (p_sz q)) →
  find_index (zombie_child cur) (k_ptable s) = Some j →
  ∃ q x, k_ptable s !! j = Some q ∧ wait_loop (S n) cur s
    = Ok (p_pid q) (set_k_mach (settled i c m)
        (set_k_ptable (alter reaped j (k_ptable s)) (set_k_ext (x, snd (k_ext s)) s)))
    ∧ memory_reaped (fst (k_ext s)) x q U P.
Proof.
  intros Hm Hat Hn Hl1 Hl2 Hlen Hown Hz Hf. pose proof (find_index_lt _ _ _ Hf) as Hlt.
  apply find_index_Some in Hf as (q & Hq & Hzq & Hmin).
  assert (p_state q = ZOMBIE) as Hzs by (unfold zombie_child in Hzq; by bool_to_prop).
  destruct (Hz q ltac:(by eapply list_elem_of_lookup_2) Hzs) as [Hpg Hsp].
  destruct (reap_ok s m i c j q U P) as (x & Hreap & Hmem); [done..|].
  exists q, x. split; [done|]. split; [|exact Hmem]. cbn [wait_loop]. erewrite (bind_ok _ _ _ (inl (p_pid q))); [done|].
  rewrite (wait_scan_reap cur s j NPROC 0 false); [|lia|done|by exists q|].
  - by rewrite (bind_ok _ _ _ _ _ Hreap).
  - intros j' q' Hj' Hq'. eapply Hmin; [|done]. lia.
Qed.

End wait_run.

(** Freeing an entry keeps pids unique. *)
Lemma ptable_wf_reap {X} (s s' : kstate X) j :
  ptable_wf s → k_nextpid s' = k_nextpid s → k_ptable s' = alter reaped j (k_ptable s) → ptable_wf s'.
Proof.
  intros [H1 H2 H3 H4 H5] Hn Ht.
  assert (∀ i p', k_ptable s' !! i = Some p' →
    (p_pid p' = 0 ∧ p_state p' = UNUSED) ∨ k_ptable s !! i = Some p') as Hc.
  { intros i p'. rewrite Ht. destruct (decide (j = i)) as [->|].
    - rewrite list_lookup_alter_eq. intros (p & _ & ->)%fmap_Some. by left.
    - rewrite list_lookup_alter_ne by done. by right. }
  split.
  - by rewrite Ht, length_alter.
  - by rewrite Hn.
  - intros i p [[-> _]|Hp]%Hc; [lia|]. rewrite Hn. by eapply H3.
  - intros i p [[_ Hu]|Hp]%Hc; [done|]. by eapply H4.
  - intros i k p q [[Hp _]|Hp]%Hc [[Hq _]|Hq]%Hc; [lia..|]. by eapply H5.
Qed.

(** C25: [wait].  A zombie child, the first in the table, is reaped: its pid is
    returned, its stack and address space are freed, no other memory is touched
    and its entry is unused again.  Without children, or when the caller was killed, [wait] returns -1
    and changes nothing.  Otherwise the caller sleeps on its own channel with
    [ptable.lock] held across the test, and tries again when woken. *)
Theorem wait_outcome {Xm Xf : Type} `{!MemOps Xm Xf} `{!FsOps Xm Xf}
    (s : kstate (Xm * Xf)) (i : nat) (c : cpu) (cur : nat) (p : proc) (n : nat) (U : gmap Z Z) (P : gset Z) :
  ready [L_ptable; L_kmem] s i c → ncli c = 0 → cproc c = Some cur → k_ptable s !! cur = Some p →
  ptable_wf s →
  mem_own (fst (k_ext s)) U P →
  (∀ q, q ∈ k_ptable s → p_state q = ZOMBIE → p_kstack q ∈ P ∧ U !! p_pgdir q = Some (p_sz q)) →
  match find_index (zombie_child cur) (k_ptable s) with
  | Some j => ∃ q s', k_ptable s !! j = Some q ∧ wait (S n) s = Ok (p_pid q) s'
      ∧ memory_reaped (fst (k_ext s)) (fst (k_ext s')) q U P ∧ k_ptable s' = <[j := reaped q]> (k_ptable s) ∧ k_mach s' = settled i c (k_mach s) ∧ ptable_wf s'
  | None =>
      if negb (existsb (is_child cur) (k_ptable s)) || negb (p_killed p =? 0) then
        wait (S n) s = Ok (-1) (set_k_mach (settled i c (k_mach s)) s)
      else ∃ s1 k, wait (S n) s = Wait s1 k
        ∧ k_ptable s1 = <[cur := set_p_state SLEEPING (set_p_chan (Some (Chan_proc cur)) p)]> (k_ptable s)
        ∧ locks (k_mach s1) !! L_ptable = Some (Spinlock 1 (Some i))
        ∧ ∀ s2 c2, inside L_ptable s2 i c2 cur → ∃ s3, k s2 = wait_loop n cur s3
            ∧ k_ptable s3 = alter (set_p_chan None) cur (k_ptable s2)
  end.
Proof.
  intros Hrd Hn0 Hcur Hp Hwf Hown Hz.
  destruct (ready_can_lock _ _ _ _ L_ptable Hrd ltac:(set_solver)) as [H1 H2 H3].
  unfold wait. rewrite (bind_ok _ _ _ _ _ (curproc_ok s i c cur H1 ltac:(lia) Hcur)).
  set (s0 := set_k_mach _ s). set (c0 := settle (eflags_if (k_mach s)) c).
  assert (ready [L_ptable; L_kmem] s0 i c0) as Hrd0 by (by eapply ready_settled).
  assert (settled i c0 (k_mach s0) = settled i c (k_mach s)) as Hset by apply settled_settled.
  assert (ncli c0 = 0 ∧ cproc c0 = Some cur) as [Hn1 Hcur1].
  { unfold c0. by rewrite ncli_settle, cproc_settle. }
  destruct Hrd0 as [R1 R2 R3]. assert (locks (k_mach s0) !! L_ptable = None) as Hl1 by (apply R3; set_solver).
  rewrite (bind_acquire L_ptable _ i c0 s0) by (done || lia). set (s1 := set_k_mach _ s0).
  destruct (find_index (zombie_child cur) (k_ptable s)) as [j|] eqn:Hf.
  - destruct (wait_loop_reap n cur s1 i c0 (k_mach s0) j U P) as (q & x & Hq & Hrun & Hmem);
      [done|done|lia|done|apply R3; set_solver|apply Hwf|done|done|done|].
    exists q. eexists. split; [exact Hq|]. split; [exact Hrun|]. split; [exact Hmem|]. kproj.
    split; [by apply list_alter_as_insert|]. split; [exact Hset|].
    eapply (ptable_wf_reap s); [exact Hwf|done|done].
  - pose proof (wait_loop_none n cur s1 i c0 (k_mach s0) p eq_refl R1 Hn1 Hcur1 Hl1 (wf_len _ Hwf) Hp Hf) as H.
    change (k_ptable s1) with (k_ptable s) in H.
    destruct (negb (existsb (is_child cur) (k_ptable s)) || negb (p_killed p =? 0)).
    + rewrite H, Hset. unfold s1, s0. by ksimpl.
    + destruct H as (k & H & Hk). eexists _, k. split; [exact H|]. split; [done|].
      split; [apply locks_acquired_eq|exact Hk].
Qed.

(** The process 0 waits for its zombie child 9. *)
Definition sample_zombie : proc := set_p_pgdir 12288 (set_p_kstack 8192 (sample_proc ZOMBIE 9 (Some 0%nat))).

Definition sample_family : list proc := [sample_proc RUNNING 7 None; sample_proc RUNNABLE 8 (Some 0%nat); sample_zombie].

Definition sample_wait : kstate (list Z * unit) :=
  Kstate (Machine [Cpu 0 1 0 0 (Some 0%nat) 0] 0 true ∅) (sample_table sample_family)
    20 None 0 0 (Prioritylock 0 0 [] 0) 0 [] ([4096], tt).

Lemma sample_wait_pool : pool_own [4096] {[12288 := p_sz sample_zombie]} {[8192]}.
Proof.
  split.
  - apply (bool_decide_unpack _). reflexivity.
  - split; [apply (bool_decide_unpack _); reflexivity|]. split; [by intros H%elem_of_singleton|reflexivity].
  - intros a ->%list_elem_of_singleton. split; [by intros H%elem_of_singleton|reflexivity].
  - intros a ->%elem_of_singleton. reflexivity.
Qed.

Lemma sample_wait_zombies q : q ∈ k_ptable sample_wait → p_state q = ZOMBIE →
  p_kstack q ∈@{gset Z} {[8192]} ∧ ({[12288 := p_sz sample_zombie]} : gmap Z Z) !! p_pgdir q = Some (p_sz q).
Proof.
  intros Hq Hz. change (k_ptable sample_wait) with (sample_table sample_family) in Hq. unfold sample_table, sample_family in Hq.
  apply elem_of_app in Hq as [Hq|[-> _]%elem_of_replicate]; [|done].
  rewrite !elem_of_cons, elem_of_nil in Hq. destruct Hq as [->|[->|[->|[]]]]; [discriminate Hz|discriminate Hz|].
  split; [by apply elem_of_singleton|reflexivity].
Qed.

Lemma wait_outcome_witness : ∃ s', wait 1 sample_wait = Ok 9 s' ∧ ptable_wf s'.
Proof.
  pose proof (wait_outcome sample_wait 0 (Cpu 0 1 0 0 (Some 0%nat) 0) 0 (sample_proc RUNNING 7 None) 0 {[12288 := p_sz sample_zombie]} {[8192]}) as H.
  destruct H as (q & s' & Hq & Hw & _ & _ & _ & Hwf).
  - split; [by split|simpl; lia|done].
  - reflexivity.
  - reflexivity.
  - reflexivity.
  - apply (sample_wf sample_family); [reflexivity|reflexivity|simpl; unfold NPROC; lia| |];
      apply (bool_decide_unpack _); reflexivity.
  - exact sample_wait_pool.
  - exact sample_wait_zombies.
  - exists s'. split; [|exact Hwf]. assert (Some q = Some sample_zombie) as Eq by (rewrite <- Hq; reflexivity).
    injection Eq as ->.
    exact Hw.
Defined.
