(* ===== verification/Syscall.v ===== *)
(** * System calls and traps

    Models [syscall.c] (fetching arguments, dispatch, the call counters),
    [sysproc.c] (the process system calls) and [trap.c].  The user memory a
    process sees is a parameter [load], the byte the MMU reads at a user address
    under a page directory; the file-system calls of [sysfile.c], the shared
    memory calls and the device interrupt handlers are parameters of the
    dispatchers. *)

From S2P Require Import Prelude Spinlock Printf CString CFloat State PrioLock Sched Proc Sleep.

Definition T_SYSCALL : Z := 64.
Definition T_IRQ0 : Z := 32.
Definition IRQ_TIMER : Z := 0.
Definition IRQ_KBD : Z := 1.
Definition IRQ_COM1 : Z := 4.
Definition IRQ_IDE : Z := 14.
Definition IRQ_SPURIOUS : Z := 31.

(** The number of entries of [syscalls[]]. *)
Definition NSYSCALLS : Z := 36.

(** ** Fetching arguments *)

Section fetch.
Context {X : Type} (load : X → Z → Z → Z).
Notation M := (K (kstate X)).

Definition mycur : M proc := i ← curproc; get_proc i.

(** The little-endian word at a user address. *)
Definition load_word (x : X) (d addr : Z) : Z :=
  load x d addr + 256 * load x d (addr + 1) + 65536 * load x d (addr + 2) + 16777216 * load x d (addr + 3).

(** [None] is the return value -1, with the result not written. *)
Definition fetchint (addr : Z) : M (option Z) :=
  p ← mycur;
  if (p_sz p <=? addr) || (p_sz p <? u32 (addr + 4)) then mret None
  else x ← kgets k_ext; mret (Some (s32 (load_word x (p_pgdir p) addr))).

Definition fetchfloat (addr : Z) : M (option spec_float) :=
  p ← mycur;
  if (p_sz p <=? addr) || (p_sz p <? u32 (addr + 4)) then mret None
  else x ← kgets k_ext; mret (Some (float_of_bits (load_word x (p_pgdir p) addr))).

(** [for (s = *pp; s < ep; s++) if ( *s == 0) return s - *pp;] over [n] bytes. *)
Fixpoint scan_nul (n : nat) (rd : Z → Z) (s : Z) (k : Z) : option Z :=
  match n with
  | 0%nat => None
  | S n' => if rd s =? 0 then Some k else scan_nul n' rd (s + 1) (k + 1)
  end.

(** The address and the length of the string. *)
Definition fetchstr (addr : Z) : M (option (Z * Z)) :=
  p ← mycur;
  if p_sz p <=? addr then mret None else
  x ← kgets k_ext;
  mret ((λ n, (addr, n)) <$> scan_nul (Z.to_nat (p_sz p - addr)) (load x (p_pgdir p)) addr 0).

Definition argint (n : Z) : M (option Z) :=
  p ← mycur;
  fetchint (u32 (tf_esp (p_tf p) + 4 + 4 * n)).

Definition argfloat (n : Z) : M (option spec_float) :=
  p ← mycur;
  fetchfloat (u32 (tf_esp (p_tf p) + 4 + 4 * n)).

Definition argptr (n size : Z) : M (option Z) :=
  p ← mycur;
  o ← argint n;
  match o with
  | None => mret None
  | Some i =>
      if (size <? 0) || (p_sz p <=? u32 i) || (p_sz p <? u32 (u32 i + size)) then mret None
      else mret (Some (u32 i))
  end.

Definition argstr (n : Z) : M (option (Z * Z)) :=
  o ← argint n;
  match o with
  | None => mret None
  | Some addr => fetchstr (u32 addr)
  end.

End fetch.

(** ** [sysproc.c] *)

Section sysproc.
Context {Xm Xf : Type} `{!MemOps Xm Xf} `{!FsOps Xm Xf}.
Context (load : Xm * Xf → Z → Z → Z) (ev : fpeval).
Notation M := (K (kstate (Xm * Xf))).

Definition sys_fork : M Z := fork.
Definition sys_exit : M Z := exit;; mret 0.
Definition sys_wait (fuel : nat) : M Z := wait fuel.

(** [if (argint(0, &v) < 0) return -1; return f(v);] *)
Definition with_int (n : Z) (f : Z → M Z) : M Z :=
  o ← argint load n;
  match o with None => mret (-1) | Some v => f v end.

Definition with_float (n : Z) (f : spec_float → M Z) : M Z :=
  o ← argfloat load n;
  match o with None => mret (-1) | Some v => f v end.

Definition sys_kill : M Z := with_int 0 kill.
Definition sys_getpid : M Z := p ← mycur; mret (p_pid p).

Definition sys_sbrk : M Z :=
  with_int 0 (λ n,
    p ← mycur;
    let addr := s32 (p_sz p) in
    r ← growproc n;
    if r <? 0 then mret (-1) else mret addr).

(** The loop of [sys_sleep]; the comparison is unsigned. *)
Fixpoint sys_sleep_loop (fuel : nat) (ticks0 n : Z) : M Z :=
  match fuel with
  | 0%nat => knofuel
  | S fuel' =>
      t ← kgets k_ticks;
      if u32 (t - ticks0) <? u32 n then
        p ← mycur;
        if negb (p_killed p =? 0) then release L_ticks;; mret (-1)
        else sleep (Some Chan_ticks) (Some L_ticks);; sys_sleep_loop fuel' ticks0 n
      else release L_ticks;; mret 0
  end.

Definition sys_sleep (fuel : nat) : M Z :=
  with_int 0 (λ n,
    acquire L_ticks;;
    t ← kgets k_ticks;
    sys_sleep_loop fuel t n).

Definition sys_uptime : M Z :=
  acquire L_ticks;;
  t ← kgets k_ticks;
  release L_ticks;;
  mret (s32 t).

Definition sys_nuncle : M Z := nuncle.
Definition sys_ptime : M Z := ptime.

Definition sys_droot : M Z :=
  p ← mycur;
  match droot (s32 (tf_ebx (p_tf p))) with
  | Some r => mret r
  | None => knofuel
  end.

Definition sys_chqueue : M Z := with_int 0 (λ pid, with_int 1 (λ q, change_queue pid q)).

Definition sys_bjsproc : M Z :=
  with_int 0 (λ pid, with_float 1 (λ pr, with_float 2 (λ ar, with_float 3 (λ er, with_float 4 (λ sr,
    set_bjs_proc pid pr ar er sr))))).

Definition sys_bjssys : M Z :=
  with_float 0 (λ pr, with_float 1 (λ ar, with_float 2 (λ er, with_float 3 (λ sr,
    set_bjs_sys pr ar er sr)))).

Definition sys_procinfo : M Z := print_processes_infos ev.
Definition sys_pacquire (fuel : nat) : M Z := pacquire fuel.
Definition sys_prelease : M Z := prelease.
Definition sys_pqueue : M Z := pqueue.

(** [getnsyscall] and [nsyscalls]: the counters of the CPUs, then the total. *)
Definition getnsyscall : M unit :=
  m ← kgets k_mach;
  let n (k : nat) := match cpus m !! k with Some c => nsyscall c | None => 0 end in
  cprintf "%d, %d, %d, %d, " [FInt (n 0%nat); FInt (n 1%nat); FInt (n 2%nat); FInt (n 3%nat)];;
  acquire L_nsys;;
  t ← kgets k_nsys;
  cprintf "%d" [FInt t];;
  put_text NL;;
  release L_nsys.

Definition nsyscalls : M Z := getnsyscall;; mret 0.
Definition sys_nsyscalls : M Z := nsyscalls.

(** ** Dispatch *)

(** [filecall]: the calls [sysfile.c] and the shared memory calls implement, by
    number. *)
Context (filecall : Z → M Z) (fuel : nat).

(** [syscalls[num]] *)
Definition syscalls (num : Z) : option (M Z) :=
  if num =? 1 then Some sys_fork else
  if num =? 2 then Some sys_exit else
  if num =? 3 then Some (sys_wait fuel) else
  if num =? 6 then Some sys_kill else
  if num =? 11 then Some sys_getpid else
  if num =? 12 then Some sys_sbrk else
  if num =? 13 then Some (sys_sleep fuel) else
  if num =? 14 then Some sys_uptime else
  if num =? 22 then Some sys_nuncle else
  if num =? 23 then Some sys_ptime else
  if num =? 25 then Some sys_droot else
  if num =? 26 then Some sys_chqueue else
  if num =? 27 then Some sys_bjsproc else
  if num =? 28 then Some sys_bjssys else
  if num =? 29 then Some sys_procinfo else
  if num =? 30 then Some (sys_pacquire fuel) else
  if num =? 31 then Some sys_prelease else
  if num =? 32 then Some sys_pqueue else
  if num =? 33 then Some sys_nsyscalls else
  if (1 <=? num) && (num <? NSYSCALLS) then Some (filecall num) else None.

(** The counters at the end of [syscall]. *)
Definition count_syscall : M unit :=
  cli;;
  id ← mycpu;
  sti;;
  modify_mach (λ m, set_cpus (alter (λ c, cpu_set_nsyscall (s32 (nsyscall c + 1)) c) id (cpus m)) m);;
  acquire L_nsys;;
  kmodify (λ s, set_k_nsys (s32 (k_nsys s + 1)) s);;
  release L_nsys.

Definition set_eax (v : Z) (p : proc) : proc := set_p_tf (set_tf_eax (u32 v) (p_tf p)) p.

Definition syscall : M unit :=
  cur ← curproc;
  p ← get_proc cur;
  let num := s32 (tf_eax (p_tf p)) in
  match (if (0 <? num) && (num <? NSYSCALLS) then syscalls num else None) with
  | Some f => r ← f; alter_proc cur (set_eax r)
  | None =>
      cprintf "%d %s: unknown sys call %d" [FInt (p_pid p); FStr (cstr (p_name p)); FInt num];;
      put_text NL;;
      alter_proc cur (set_eax (-1))
  end;;
  count_syscall.

(** ** [trap.c] *)

Context (ideintr kbdintr uartintr lapiceoi : M unit) (rcr2 : Z).

(** The clock interrupt on CPU 0. *)
Definition timer_tick : M unit :=
  acquire L_ticks;;
  kmodify (λ s, set_k_ticks (u32 (k_ticks s + 1)) s);;
  t ← kgets k_ticks;
  aging (s32 t);;
  wakeup (Some Chan_ticks);;
  release L_ticks.

(** [if (myproc() && cond( *myproc())) act] *)
Definition when_current (cond : proc → bool) (act : M unit) : M unit :=
  o ← myproc;
  match o with
  | None => mret tt
  | Some i => p ← get_proc i; if cond p then act else mret tt
  end.

Definition exit_if_killed (tf : trapframe) : M unit :=
  when_current (λ p, negb (p_killed p =? 0) && (Z.land (tf_cs tf) 3 =? DPL_USER)) exit.

(** A trap in the kernel. *)
Definition unexpected_trap (tf : trapframe) : M unit :=
  id ← cpuid;
  cprintf "unexpected trap %d from cpu %d eip %x (cr2=0x%x)"
    [FInt (tf_trapno tf); FInt id; FInt (tf_eip tf); FInt rcr2];;
  put_text NL;;
  kpanic "trap".

(** The [switch] of [trap]. *)
Definition trap_switch (tf : trapframe) : M unit :=
  let no := tf_trapno tf in
  if no =? T_IRQ0 + IRQ_TIMER then
    id ← cpuid;
    (if id =? 0 then timer_tick else mret tt);;
    lapiceoi
  else if no =? T_IRQ0 + IRQ_IDE then ideintr;; lapiceoi
  else if no =? T_IRQ0 + IRQ_IDE + 1 then mret tt
  else if no =? T_IRQ0 + IRQ_KBD then kbdintr;; lapiceoi
  else if no =? T_IRQ0 + IRQ_COM1 then uartintr;; lapiceoi
  else if (no =? T_IRQ0 + 7) || (no =? T_IRQ0 + IRQ_SPURIOUS) then
    id ← cpuid;
    cprintf "cpu%d: spurious interrupt at %x:%x" [FInt id; FInt (tf_cs tf); FInt (tf_eip tf)];;
    put_text NL;;
    lapiceoi
  else
    o ← myproc;
    match o with
    | Some i =>
        if Z.land (tf_cs tf) 3 =? 0 then unexpected_trap tf else
        p ← get_proc i;
        id ← cpuid;
        cprintf "pid %d %s: trap %d err %d on cpu %d eip 0x%x addr 0x%x--kill proc"
          [FInt (p_pid p); FStr (cstr (p_name p)); FInt no; FInt (tf_err tf); FInt id;
           FInt (tf_eip tf); FInt rcr2];;
        put_text NL;;
        alter_proc i (set_p_killed 1)
    | None => unexpected_trap tf
    end.

Definition trap (tf : trapframe) : M unit :=
  if tf_trapno tf =? T_SYSCALL then
    p ← mycur;
    (if negb (p_killed p =? 0) then exit else mret tt);;
    i ← curproc;
    alter_proc i (set_p_tf tf);;
    syscall;;
    p ← mycur;
    (if negb (p_killed p =? 0) then exit else mret tt)
  else
    trap_switch tf;;
    exit_if_killed tf;;
    when_current (λ p, bool_decide (p_state p = RUNNING) && (tf_trapno tf =? T_IRQ0 + IRQ_TIMER)) yield;;
    exit_if_killed tf.

End sysproc.

(** ** Lemmas *)

Section fetch_lemmas.
Context {X : Type} (load : X → Z → Z → Z).
Implicit Types (s : kstate X).

Lemma mycur_ok s i c cur p :
  running s i c cur p → mycur s = Ok p (set_k_mach (settled i c (k_mach s)) s).
Proof.
  intros [H1 H2 H3 H4]. unfold mycur.
  rewrite (bind_ok _ _ _ _ _ (curproc_ok s i c cur H1 ltac:(lia) H3)). by apply get_proc_ok.
Qed.

Lemma running_settled s i c cur p :
  running s i c cur p →
  running (set_k_mach (settled i c (k_mach s)) s) i (settle (eflags_if (k_mach s)) c) cur p.
Proof.
  intros [H1 H2 H3 H4]. split; kproj.
  - by apply mach_at_settled.
  - by rewrite ncli_settle.
  - by rewrite cproc_settle.
  - done.
Qed.

Lemma fetchint_ok addr s i c cur p :
  running s i c cur p → 0 ≤ p_sz p ≤ 2 ^ 31 → 0 ≤ addr < 2 ^ 32 →
  fetchint load addr s
  = Ok (if decide (addr + 4 ≤ p_sz p) then Some (s32 (load_word load (k_ext s) (p_pgdir p) addr)) else None)
       (set_k_mach (settled i c (k_mach s)) s).
Proof.
  intros Hrun Hsz Ha. unfold fetchint. rewrite (bind_ok _ _ _ _ _ (mycur_ok s i c cur p Hrun)).
  destruct (Z.leb_spec (p_sz p) addr) as [H|H]; simpl (_ || _).
  { by rewrite decide_False by lia. }
  rewrite u32_small by lia. destruct (Z.ltb_spec (p_sz p) (addr + 4)).
  - by rewrite decide_False by lia.
  - by rewrite decide_True by lia.
Qed.

Lemma scan_nul_spec rd n : ∀ a k, match scan_nul n rd a k with
  | Some r => k ≤ r < k + Z.of_nat n ∧ rd (a + (r - k)) = 0 ∧ ∀ j, k ≤ j < r → rd (a + (j - k)) ≠ 0
  | None => ∀ j, k ≤ j < k + Z.of_nat n → rd (a + (j - k)) ≠ 0
  end.
Proof.
  induction n as [|n IH]; intros a k; cbn [scan_nul]; [lia|].
  assert (∀ j, a + 1 + (j - (k + 1)) = a + (j - k)) as Hs by lia.
  destruct (Z.eqb_spec (rd a) 0) as [E|E].
  { split; [lia|]. rewrite Z.sub_diag, Z.add_0_r. split; [done|lia]. }
  specialize (IH (a + 1) (k + 1)). destruct (scan_nul n rd (a + 1) (k + 1)) as [r|].
  - destruct IH as (Hr & Hz & Hn). split; [lia|]. rewrite Hs in Hz. split; [done|]. intros j Hj.
    destruct (decide (j = k)) as [->|]; [by rewrite Z.sub_diag, Z.add_0_r|]. rewrite <- Hs. apply Hn. lia.
  - intros j Hj. destruct (decide (j = k)) as [->|]; [by rewrite Z.sub_diag, Z.add_0_r|].
    rewrite <- Hs. apply IH. lia.
Qed.

(** What [argint] gives: the word at the argument slot when it is inside the
    address space. *)
Lemma argint_ok n s i c cur p :
  running s i c cur p → 0 ≤ p_sz p ≤ 2 ^ 31 →
  ∃ o s', argint load n s = Ok o s' ∧ s' = set_k_mach (settled i c (k_mach s)) s
    ∧ (∀ v, o = Some v → ∃ a, 0 ≤ a ∧ a + 4 ≤ p_sz p ∧ v = s32 (load_word load (k_ext s) (p_pgdir p) a)).
Proof.
  intros Hrun Hsz. unfold argint. rewrite (bind_ok _ _ _ _ _ (mycur_ok s i c cur p Hrun)).
  pose proof (u32_range (tf_esp (p_tf p) + 4 + 4 * n)) as Ha.
  rewrite (fetchint_ok _ _ i _ cur p (running_settled _ _ _ _ _ Hrun) Hsz Ha).
  eexists _, _. split; [done|]. kproj. rewrite settled_settled. split; [by ksimpl|].
  intros v. destruct (decide _); [|done]. intros [= <-]. eexists. split; [|done]. lia.
Qed.

Lemma argptr_ok n size s i c cur p :
  running s i c cur p → 0 ≤ p_sz p ≤ 2 ^ 31 → - 2 ^ 31 ≤ size < 2 ^ 31 →
  ∃ o s', argptr load n size s = Ok o s' ∧
    match o with Some a => 0 ≤ a ∧ 0 ≤ size ∧ a < p_sz p ∧ a + size ≤ p_sz p | None => True end.
Proof.
  intros Hrun Hsz Hs. unfold argptr. rewrite (bind_ok _ _ _ _ _ (mycur_ok s i c cur p Hrun)).
  destruct (argint_ok n _ _ _ _ _ (running_settled _ _ _ _ _ Hrun) Hsz) as (o & s' & Ho & _ & _).
  rewrite (bind_ok _ _ _ _ _ Ho). destruct o as [v|]; [|by eexists _, _].
  pose proof (u32_range v). destruct (_ || _) eqn:E; [by eexists _, _|].
  eexists _, _. split; [done|]. bool_to_prop. rewrite (u32_small (u32 v + size)) in * by lia. lia.
Qed.

Lemma fetchstr_ok addr s i c cur p :
  running s i c cur p → 0 ≤ addr →
  ∃ o s', fetchstr load addr s = Ok o s' ∧
    match o with
    | Some (a, n) => a = addr ∧ 0 ≤ n ∧ a + n < p_sz p ∧ load (k_ext s) (p_pgdir p) (a + n) = 0
        ∧ ∀ k, 0 ≤ k < n → load (k_ext s) (p_pgdir p) (a + k) ≠ 0
    | None => ∀ k, addr ≤ k < p_sz p → load (k_ext s) (p_pgdir p) k ≠ 0
    end.
Proof.
  intros Hrun Ha. unfold fetchstr. rewrite (bind_ok _ _ _ _ _ (mycur_ok s i c cur p Hrun)).
  destruct (Z.leb_spec (p_sz p) addr) as [H|H]; [eexists _, _; split; [done|intros k Hk; lia]|].
  rewrite bind_kgets. eexists _, _. split; [done|]. kproj.
  pose proof (scan_nul_spec (load (k_ext s) (p_pgdir p)) (Z.to_nat (p_sz p - addr)) addr 0) as Hsc.
  destruct (scan_nul _ _ _ _) as [n|]; simpl.
  - destruct Hsc as (Hn & Hz & Hk). rewrite Z.sub_0_r in Hz. repeat split; try done; try lia.
    intros k Hk'. specialize (Hk k Hk'). by rewrite Z.sub_0_r in Hk.
  - intros k Hk. specialize (Hsc (k - addr) ltac:(lia)). by replace (addr + (k - addr - 0)) with k in Hsc by lia.
Qed.

End fetch_lemmas.

Section tick_lemmas.
Context {Xm Xf : Type} `{!MemOps Xm Xf} `{!FsOps Xm Xf}.
Implicit Types (s : kstate (Xm * Xf)).

(** The clock interrupt, as a function of the state. *)
Definition ticked (t : Z) (s : kstate (Xm * Xf)) : kstate (Xm * Xf) :=
  set_k_ticks t (set_k_ptable (map (wake (Some Chan_ticks)) (k_ptable s)) s).

Definition one_more_call (c : cpu) : cpu := cpu_set_nsyscall (s32 (nsyscall c + 1)) c.

Lemma mach_at_if m i c b : mach_at m i c → ncli c = 0 → mach_at (set_if b m) i c.
Proof. intros [H1 H2 H3 H4] Hn. split; [done|done|done|lia]. Qed.

Lemma count_syscall_ok s i c :
  mach_at (k_mach s) i c → ncli c = 0 → locks (k_mach s) !! L_nsys = None →
  ∃ s', count_syscall s = Ok tt s' ∧ s' = set_k_mach (k_mach s') (set_k_nsys (s32 (k_nsys s + 1)) s)
    ∧ eflags_if (k_mach s') = true ∧ locks (k_mach s') = locks (k_mach s)
    ∧ ∃ c', cpus (k_mach s') = <[i := c']> (cpus (k_mach s))
        ∧ nsyscall c' = s32 (nsyscall c + 1) ∧ ncli c' = 0 ∧ cproc c' = cproc c.
Proof.
  intros Hat Hn Hl. unfold count_syscall, cli, sti, modify_mach. rewrite bind_kmodify.
  set (s1 := set_mach (set_if false (k_mach s)) s : kstate (Xm * Xf)).
  rewrite (bind_ok _ _ _ i s1).
  2:{ apply (@mycpu_ok _ (kstate_has_machine _) s1 i c); [by apply mach_at_if|done]. }
  rewrite !bind_kmodify. set (s3 := set_mach _ (set_mach _ s1) : kstate (Xm * Xf)).
  set (c3 := one_more_call c).
  assert (k_mach s3 = Machine (<[i := c3]> (cpus (k_mach s))) (lapicid (k_mach s)) true (locks (k_mach s))) as E3.
  { unfold s3, s1; simpl. unfold set_cpus, set_if; simpl. f_equal.
    apply (list_alter_as_insert one_more_call). apply Hat. }
  assert (mach_at (k_mach s3) i c3) as Hat3.
  { rewrite E3. apply mach_at_insert with c; [done|done|simpl; lia|simpl; lia]. }
  assert (locks (k_mach s3) !! L_nsys = None) as Hl3 by (by rewrite E3).
  rewrite (bind_acquire L_nsys _ i c3 s3) by (done || (simpl; lia)). rewrite bind_kmodify.
  rewrite (krelease_acquired L_nsys (k_mach s3) _ i c3 Hat3 ltac:(simpl; lia) Hl3) by done.
  eexists. split; [done|]. split; [by destruct s|]. kproj. rewrite E3. split; [done|]. split; [done|].
  exists (settle true c3). split; [unfold settled, set_cpus; simpl; by rewrite list_insert_insert_eq|].
  unfold settle. destruct (ncli c3 =? 0); done.
Qed.

Lemma timer_tick_ok s i c :
  ready [L_ticks; L_ptable] s i c → ncli c = 0 → length (k_ptable s) = NPROC →
  timer_tick s = if existsb (starved (s32 (u32 (k_ticks s + 1)))) (k_ptable s) then Panic "acquire"
                 else Ok tt (set_k_mach (settled i c (k_mach s)) (ticked (u32 (k_ticks s + 1)) s)).
Proof.
  intros Hrd Hn0 Hlen. pose proof Hrd as [H1 H2 H3].
  assert (locks (k_mach s) !! L_ticks = None) as Hl1 by (apply H3; set_solver).
  assert (locks (k_mach s) !! L_ptable = None) as Hl2 by (apply H3; set_solver).
  unfold timer_tick. rewrite (bind_acquire L_ticks _ i c s) by (done || lia). rewrite bind_kmodify, bind_kgets.
  set (t := u32 (k_ticks s + 1)). set (s1 := set_k_ticks _ _). set (c1 := push_cpu (eflags_if (k_mach s)) c).
  assert (mach_at (k_mach s1) i c1) as C1 by (by apply mach_at_acquired).
  assert (ncli c1 = 1) as C2 by (unfold c1; rewrite ncli_push; lia).
  assert (locks (k_mach s1) !! L_ptable = None) as C3 by (unfold s1; kproj; by rewrite locks_acquired_ne).
  pose proof (aging_outcome s1 (s32 t) i c1 C1 ltac:(lia) C3 Hlen) as Hag.
  change (k_ptable s1) with (k_ptable s) in Hag. rewrite settled_busy, set_mach_id in Hag by (done || lia).
  destruct (existsb (starved (s32 t)) (k_ptable s)); [by apply bind_panic|].
  rewrite (bind_ok _ _ _ _ _ Hag).
  rewrite (bind_ok _ _ _ _ _ (wakeup_ok (Some Chan_ticks) s1 i c1 ltac:(split; [done|lia|done]) Hlen)).
  rewrite settled_busy by (done || lia).
  rewrite (krelease_acquired L_ticks (k_mach s) _ i c H1 ltac:(lia) Hl1) by done.
  unfold s1, ticked. by ksimpl.
Qed.

End tick_lemmas.

(** Every number of the table has a handler. *)
Lemma syscalls_some {Xm Xf : Type} `{!MemOps Xm Xf} `{!FsOps Xm Xf} (load : Xm * Xf → Z → Z → Z) ev filecall fuel num :
  0 < num < NSYSCALLS → is_Some (syscalls load ev filecall fuel num).
Proof.
  intros Hn. unfold syscalls. repeat (destruct (_ =? _); [by eexists|]).
  destruct (Z.leb_spec 1 num), (Z.ltb_spec num NSYSCALLS); try lia. by eexists.
Qed.

Lemma cprintf_ok {X} (s : kstate X) fmt args :
  fmt_args (str fmt) args = true → ∃ txt, cprintf fmt args s = Ok tt (set_k_out (k_out s ++ txt) s).
Proof. intros [txt H]%cprintf_total. exists txt. unfold cprintf. by rewrite H. Qed.

Lemma bind_assoc_kmodify {S B C} (g : S → S) (f : unit → K S B) (h : B → K S C) s :
  ((kmodify g ≫= f) ≫= h) s = (f tt ≫= h) (g s).
Proof. done. Qed.

(** ** Properties *)

(** C28: system call arguments never reach outside the caller's address space.
    Whatever the user stack holds and however the addresses wrap around:
    [fetchint] reads a word only when all four bytes are below [sz]; a pointer
    [argptr] accepts has its whole block below [sz]; and [fetchstr] accepts
    exactly the strings whose NUL is below [sz]. *)
Theorem syscall_arguments_in_bounds {X : Type} (load : X → Z → Z → Z) (s : kstate X)
    (i : nat) (c : cpu) (cur : nat) (p : proc) :
  running s i c cur p → 0 ≤ p_sz p ≤ 2 ^ 31 →
  (∀ addr, 0 ≤ addr < 2 ^ 32 → ∃ o s', fetchint load addr s = Ok o s' ∧ (is_Some o ↔ addr + 4 ≤ p_sz p))
  ∧ (∀ n size, - 2 ^ 31 ≤ size < 2 ^ 31 → ∃ o s', argptr load n size s = Ok o s' ∧
       match o with Some a => 0 ≤ a ∧ 0 ≤ size ∧ a < p_sz p ∧ a + size ≤ p_sz p | None => True end)
  ∧ (∀ addr, 0 ≤ addr → ∃ o s', fetchstr load addr s = Ok o s' ∧
       match o with
       | Some (a, n) => a = addr ∧ 0 ≤ n ∧ a + n < p_sz p ∧ load (k_ext s) (p_pgdir p) (a + n) = 0
           ∧ ∀ k, 0 ≤ k < n → load (k_ext s) (p_pgdir p) (a + k) ≠ 0
       | None => ∀ k, addr ≤ k < p_sz p → load (k_ext s) (p_pgdir p) k ≠ 0
       end).
Proof.
  intros Hrun Hsz. split; [|split].
  - intros addr Ha. eexists _, _. split; [by eapply fetchint_ok|].
    destruct (decide (addr + 4 ≤ p_sz p)); [by split|]. split; [by intros []|done].
  - intros n size Hs. by eapply argptr_ok.
  - intros addr Ha. by eapply fetchstr_ok.
Qed.

Lemma syscall_arguments_in_bounds_witness :
  ∃ o s', fetchint (λ _ _ a, u8 a) 8 (sample_kstate (Prioritylock 0 0 [] 0) [sample_proc RUNNING 7 None]) = Ok o s'
    ∧ is_Some o.
Proof.
  destruct (syscall_arguments_in_bounds (λ _ _ a, u8 a)
    (sample_kstate (Prioritylock 0 0 [] 0) [sample_proc RUNNING 7 None]) 0 _ 0 _ (sample_running _ _ _)) as [H _].
  - simpl; lia.
  - destruct (H 8 ltac:(lia)) as (o & s' & Hf & Ho). exists o, s'. split; [exact Hf|]. apply Ho. simpl; lia.
Defined.

(** the clock interrupt on CPU 0.  The tick count grows by one (modulo
    2^32) and exactly the processes sleeping on it become runnable -- unless some
    process has starved, in which case the interrupt handler panics because
    [aging] takes [ptable.lock] twice. *)
Theorem timer_tick_correct {Xm Xf : Type} (s : kstate (Xm * Xf)) (i : nat) (c : cpu) :
  ready [L_ticks; L_ptable] s i c → ncli c = 0 → length (k_ptable s) = NPROC →
  timer_tick s = if existsb (starved (s32 (u32 (k_ticks s + 1)))) (k_ptable s) then Panic "acquire"
                 else Ok tt (set_k_mach (settled i c (k_mach s)) (ticked (u32 (k_ticks s + 1)) s)).
Proof. apply timer_tick_ok. Qed.

Lemma timer_tick_correct_witness :
  ∃ s', timer_tick (set_k_ticks 41 sample_wait) = Ok tt s' ∧ k_ticks s' = 42.
Proof.
  eexists. split.
  - rewrite (timer_tick_correct (set_k_ticks 41 sample_wait) 0 (Cpu 0 1 0 0 (Some 0%nat) 0));
      [reflexivity|split; [by split|simpl; lia|done]|reflexivity|reflexivity].
  - reflexivity.
Defined.

(** system call dispatch.  A number outside the table, or zero, gives the
    caller -1; a valid number runs its handler, and when the handler returns [r]
    the caller gets [r] in [eax].  Either way one call is counted, on the CPU
    the call returned on and in the global total, and interrupts are on. *)
Theorem syscall_dispatch {Xm Xf : Type} `{!MemOps Xm Xf} `{!FsOps Xm Xf}
    (load : Xm * Xf → Z → Z → Z) (ev : fpeval) (filecall : Z → K (kstate (Xm * Xf)) Z) (fuel : nat)
    (s : kstate (Xm * Xf)) (i : nat) (c : cpu) (cur : nat) (p : proc) :
  running s i c cur p → ncli c = 0 → locks (k_mach s) !! L_nsys = None →
  let num := s32 (tf_eax (p_tf p)) in
  let s0 := set_k_mach (settled i c (k_mach s)) s in
  if decide (0 < num < NSYSCALLS) then
    ∃ f, syscalls load ev filecall fuel num = Some f
      ∧ ∀ r s1 i1 c1, f s0 = Ok r s1 → mach_at (k_mach s1) i1 c1 → ncli c1 = 0 → locks (k_mach s1) !! L_nsys = None →
          ∃ s2, syscall load ev filecall fuel s = Ok tt s2
            ∧ k_ptable s2 = alter (set_eax r) cur (k_ptable s1) ∧ k_nsys s2 = s32 (k_nsys s1 + 1)
            ∧ eflags_if (k_mach s2) = true
            ∧ ∃ c2, cpus (k_mach s2) = <[i1 := c2]> (cpus (k_mach s1)) ∧ nsyscall c2 = s32 (nsyscall c1 + 1)
  else ∃ s2, syscall load ev filecall fuel s = Ok tt s2
         ∧ k_ptable s2 = alter (set_eax (-1)) cur (k_ptable s) ∧ k_nsys s2 = s32 (k_nsys s + 1)
         ∧ eflags_if (k_mach s2) = true
         ∧ ∃ c2, cpus (k_mach s2) = <[i := c2]> (cpus (k_mach s)) ∧ nsyscall c2 = s32 (nsyscall c + 1).
Proof.
  intros Hrun Hn Hl num s0. pose proof Hrun as [H1 H2 H3 H4].
  unfold syscall. rewrite (bind_ok _ _ _ _ _ (curproc_ok s i c cur H1 ltac:(lia) H3)). fold s0.
  rewrite (bind_ok _ _ _ _ _ (get_proc_ok s0 cur p H4)). fold num.
  assert (∀ r (s1 : kstate (Xm * Xf)) i1 c1, mach_at (k_mach s1) i1 c1 → ncli c1 = 0 → locks (k_mach s1) !! L_nsys = None →
    ∃ s2, (alter_proc cur (set_eax r);; count_syscall) s1 = Ok tt s2
      ∧ k_ptable s2 = alter (set_eax r) cur (k_ptable s1) ∧ k_nsys s2 = s32 (k_nsys s1 + 1)
      ∧ eflags_if (k_mach s2) = true
      ∧ ∃ c2, cpus (k_mach s2) = <[i1 := c2]> (cpus (k_mach s1)) ∧ nsyscall c2 = s32 (nsyscall c1 + 1)) as Hend.
  { intros r s1 i1 c1 Hat Hn1 Hl1. rewrite bind_alter_proc.
    destruct (count_syscall_ok (set_k_ptable (alter (set_eax r) cur (k_ptable s1)) s1) i1 c1 Hat Hn1 Hl1)
      as (s2 & Hrun2 & E2 & Hif & _ & c2 & Hc2 & Hns & _).
    exists s2. split; [done|]. rewrite E2. kproj. repeat (split; [done|]). eauto. }
  destruct (decide (0 < num < NSYSCALLS)) as [Hnum|Hnum].
  - destruct (syscalls_some load ev filecall fuel num Hnum) as [f Hf]. exists f. split; [done|].
    intros r s1 i1 c1 Hrun1 Hat1 Hn1 Hl1. destruct (Hend r s1 i1 c1 Hat1 Hn1 Hl1) as (s2 & Hs2 & Hrest).
    exists s2. split; [|done]. rewrite <- Hs2. destruct (Z.ltb_spec 0 num), (Z.ltb_spec num NSYSCALLS); try lia.
    cbn [andb]. rewrite Hf. by rewrite (bind_assoc_ok _ _ _ _ _ _ Hrun1).
  - assert ((0 <? num) && (num <? NSYSCALLS) = false) as -> by
      (destruct (Z.ltb_spec 0 num), (Z.ltb_spec num NSYSCALLS); try done; lia).
    destruct (cprintf_ok s0 "%d %s: unknown sys call %d" [FInt (p_pid p); FStr (cstr (p_name p)); FInt num])
      as [txt Htxt]; [reflexivity|].
    rewrite (bind_assoc_ok _ _ _ _ _ _ Htxt). unfold put_text.
    rewrite bind_assoc_kmodify.
    set (s1 := set_k_out _ _).
    destruct (Hend (-1) s1 i (settle (eflags_if (k_mach s)) c)) as (s2 & Hs2 & Ht & Hk & Hif & c2 & Hc2 & Hns).
    + by apply mach_at_settled.
    + by rewrite ncli_settle.
    + done.
    + exists s2. split; [done|]. split; [done|]. split; [done|]. split; [done|]. exists c2. split.
      * rewrite Hc2. unfold s1, s0. kproj. unfold settled, set_cpus. simpl. by rewrite list_insert_insert_eq.
      * rewrite Hns. do 2 f_equal. unfold settle. by destruct (ncli c =? 0).
Qed.

Lemma syscall_dispatch_witness :
  ∃ s2, syscall (λ _ _ _, 0) x87 (λ _, mret 0) 1
    (set_k_ptable (sample_table [set_p_tf (set_tf_eax 77 zero_tf) (sample_proc RUNNING 7 None)]) sample_wait) = Ok tt s2
    ∧ (tf_eax ∘ p_tf <$> k_ptable s2 !! 0%nat) = Some (2 ^ 32 - 1) ∧ k_nsys s2 = 1.
Proof.
  destruct (syscall_dispatch (λ _ _ _, 0) x87 (λ _, mret 0) 1
    (set_k_ptable (sample_table [set_p_tf (set_tf_eax 77 zero_tf) (sample_proc RUNNING 7 None)]) sample_wait)
    0 (Cpu 0 1 0 0 (Some 0%nat) 0) 0 (set_p_tf (set_tf_eax 77 zero_tf) (sample_proc RUNNING 7 None)))
    as (s2 & H & Ht & Hn & _).
  - by split.
  - reflexivity.
  - reflexivity.
  - exists s2. split; [exact H|]. split; [rewrite Ht; reflexivity|rewrite Hn; reflexivity].
Defined.
