(* ===== verification/Kalloc.v ===== *)
(** * Physical memory

    Models [kalloc.c].  Memory is a map from the kernel addresses of pages to
    their 4096 bytes; the free list runs through the pages themselves, each
    holding the address of the next in its first word.  The linker's symbols
    [end] and [data] are the class [Linker]. *)

From S2P Require Import Prelude Spinlock State PrioLock Sched Proc Bytes.

Definition KERNBASE : Z := 2 ^ 31.
Definition EXTMEM : Z := 2 ^ 20.
Definition PHYSTOP : Z := 234881024.
Definition DEVSPACE : Z := 4261412864.
Definition KERNLINK : Z := KERNBASE + EXTMEM.

Definition V2P (a : Z) : Z := u32 (a - KERNBASE).
Definition P2V (a : Z) : Z := u32 (a + KERNBASE).

Definition PGMASK : Z := 2 ^ 32 - PGSIZE.
Definition PGROUNDUP (sz : Z) : Z := Z.land (u32 (sz + PGSIZE - 1)) PGMASK.
Definition PGROUNDDOWN (a : Z) : Z := Z.land a PGMASK.

(** The end of the loaded kernel and the start of its data: [kernel.ld]. *)
Class Linker := { kend : Z; kdata : Z }.

(** [struct shpage] of [vm.c]. *)
Record shpage := ShPage { sh_id : Z; sh_n_access : Z; sh_physicalAddr : Z }.
Definition set_sh_id (v : Z) (p : shpage) : shpage := ShPage v (sh_n_access p) (sh_physicalAddr p).
Definition set_sh_n_access (v : Z) (p : shpage) : shpage := ShPage (sh_id p) v (sh_physicalAddr p).
Definition set_sh_physicalAddr (v : Z) (p : shpage) : shpage := ShPage (sh_id p) (sh_n_access p) v.

(** Memory, [kmem] and [shmemtable.pages]. *)
Record mem := Mem {
  m_pages : gmap Z (list Z);
  m_use_lock : Z;
  m_freelist : Z;
  m_shmem : list shpage
}.
Definition set_m_pages (v : gmap Z (list Z)) (m : mem) : mem := Mem v (m_use_lock m) (m_freelist m) (m_shmem m).
Definition set_m_use_lock (v : Z) (m : mem) : mem := Mem (m_pages m) v (m_freelist m) (m_shmem m).
Definition set_m_freelist (v : Z) (m : mem) : mem := Mem (m_pages m) (m_use_lock m) v (m_shmem m).
Definition set_m_shmem (v : list shpage) (m : mem) : mem := Mem (m_pages m) (m_use_lock m) (m_freelist m) v.

Section kalloc_ops.
Context {Xf : Type} `{Linker}.
Notation M := (K (kstate (mem * Xf))).

Definition mm (s : kstate (mem * Xf)) : mem := fst (k_ext s).
Definition set_mm (m : mem) (s : kstate (mem * Xf)) : kstate (mem * Xf) := set_k_ext (m, snd (k_ext s)) s.
Definition mgets {A} (f : mem → A) : M A := kgets (λ s, f (mm s)).
Definition mmodify (f : mem → mem) : M unit := kmodify (λ s, set_mm (f (mm s)) s).

(** The page at a page-aligned kernel address. *)
Definition get_page (a : Z) : M (list Z) :=
  o ← mgets (λ m, m_pages m !! a);
  match o with Some d => mret d | None => kundef "page" end.

Definition set_page (a : Z) (d : list Z) : M unit :=
  get_page a;;
  mmodify (λ m, set_m_pages (<[a := d]> (m_pages m)) m).

(** Words in memory. *)
Definition load (a : Z) : M Z :=
  d ← get_page (PGROUNDDOWN a);
  mret (rd 4 d (Z.to_nat (a mod PGSIZE))).

Definition store (a v : Z) : M unit :=
  d ← get_page (PGROUNDDOWN a);
  set_page (PGROUNDDOWN a) (wr 4 v d (Z.to_nat (a mod PGSIZE))).

Definition memset_page (a v : Z) : M unit := set_page a (replicate (Z.to_nat PGSIZE) v).

(** [if (kmem.use_lock) ...] *)
Definition when_locking (m : M unit) : M unit :=
  u ← mgets m_use_lock;
  if u =? 0 then mret tt else m.

Definition kfree (v : Z) : M unit :=
  if negb (v mod PGSIZE =? 0) || (v <? kend) || (PHYSTOP <=? V2P v) then kpanic "kfree" else
  memset_page v 1;;
  when_locking (acquire L_kmem);;
  fl ← mgets m_freelist;
  store v fl;;
  mmodify (set_m_freelist v);;
  when_locking (release L_kmem).

Definition kalloc : M Z :=
  when_locking (acquire L_kmem);;
  r ← mgets m_freelist;
  (if r =? 0 then mret tt else
   next ← load r;
   mmodify (set_m_freelist next));;
  when_locking (release L_kmem);;
  mret r.

Fixpoint freerange_loop (fuel : nat) (p vend : Z) : M unit :=
  match fuel with
  | O => knofuel
  | S fuel' =>
      if negb (p + PGSIZE <=? vend) then mret tt else
      kfree p;;
      freerange_loop fuel' (p + PGSIZE) vend
  end.

Definition freerange (vstart vend : Z) : M unit :=
  freerange_loop (S (Z.to_nat ((vend - PGROUNDUP vstart) / PGSIZE))) (PGROUNDUP vstart) vend.

Definition kinit1 (vstart vend : Z) : M unit :=
  initlock L_kmem;;
  mmodify (set_m_use_lock 0);;
  freerange vstart vend.

Definition kinit2 (vstart vend : Z) : M unit :=
  freerange vstart vend;;
  mmodify (set_m_use_lock 1).

End kalloc_ops.

(** ** Addresses *)

(** Bits above the page offset. *)
Lemma land_pgmask a : 0 ≤ a < 2 ^ 32 → Z.land a PGMASK = a - a mod PGSIZE.
Proof.
  intros H. replace (Z.land a PGMASK) with (Z.ldiff a (Z.ones 12)).
  - rewrite Z.ldiff_ones_r, Z.shiftl_mul_pow2, Z.shiftr_div_pow2 by lia. change (2 ^ 12) with PGSIZE.
    pose proof (Z.div_mod a PGSIZE ltac:(done)). lia.
  - change PGMASK with (Z.ldiff (Z.ones 32) (Z.ones 12)). apply Z.bits_inj_iff'. intros n Hn.
    rewrite Z.land_spec, !Z.ldiff_spec. destruct (Z.ltb_spec n 32).
    + rewrite (Z.ones_spec_low 32) by lia. done.
    + replace (Z.testbit a n) with false; [done|]. symmetry. destruct (decide (a = 0)) as [->|]; [apply Z.bits_0|].
      apply Z.bits_above_log2; [lia|]. apply Z.log2_lt_pow2; [lia|]. eapply Z.lt_le_trans; [apply H|].
      apply Z.pow_le_mono_r; lia.
Qed.

Lemma pgrounddown_eq a : 0 ≤ a < 2 ^ 32 → PGROUNDDOWN a = a - a mod PGSIZE.
Proof. apply land_pgmask. Qed.

Lemma pgrounddown_page a o : 0 ≤ a → a + PGSIZE ≤ 2 ^ 32 → a mod PGSIZE = 0 → 0 ≤ o < PGSIZE → PGROUNDDOWN (a + o) = a ∧ (a + o) mod PGSIZE = o.
Proof.
  intros H1 H2 H3 H4. unfold PGSIZE in *. rewrite pgrounddown_eq by lia. unfold PGSIZE.
  assert ((a + o) mod 4096 = o) as E; [|by rewrite E; split; [lia|]].
  rewrite Z.add_mod, H3 by done. rewrite Z.add_0_l, Z.mod_mod by done. by apply Z.mod_small.
Qed.

Lemma pgroundup_eq sz : 0 ≤ sz → sz + PGSIZE ≤ 2 ^ 32 → PGROUNDUP sz = (sz + PGSIZE - 1) / PGSIZE * PGSIZE.
Proof.
  intros H1 H2. unfold PGROUNDUP, PGSIZE in *. rewrite u32_small by lia. rewrite land_pgmask by lia. unfold PGSIZE.
  pose proof (Z.div_mod (sz + 4096 - 1) 4096 ltac:(done)). lia.
Qed.

Lemma v2p_p2v a : 0 ≤ a < 2 ^ 32 → V2P (P2V a) = a.
Proof. intros H. unfold V2P, P2V. rewrite u32_sub_l. replace (a + KERNBASE - KERNBASE) with a by lia. by apply u32_small. Qed.

Lemma p2v_v2p a : 0 ≤ a < 2 ^ 32 → P2V (V2P a) = a.
Proof. intros H. unfold V2P, P2V. rewrite u32_add_l. replace (a - KERNBASE + KERNBASE) with a by lia. by apply u32_small. Qed.

(** ** The free list *)

Section free_list.
Context `{Linker}.

(** An address [kfree] accepts. *)
Definition good_page (a : Z) : Prop := a mod PGSIZE = 0 ∧ kend ≤ a ∧ KERNBASE ≤ a < KERNBASE + PHYSTOP.

Lemma good_page_test a : 0 ≤ a < 2 ^ 32 →
  negb (a mod PGSIZE =? 0) || (a <? kend) || (PHYSTOP <=? V2P a) = false ↔ good_page a.
Proof.
  intros Ha. unfold good_page, V2P, KERNBASE, PHYSTOP.
  assert (KERNBASE ≤ a < KERNBASE + PHYSTOP ↔ u32 (a - KERNBASE) < PHYSTOP) as E.
  { unfold KERNBASE, PHYSTOP. destruct (decide (2 ^ 31 ≤ a)).
    - rewrite u32_small by lia. lia.
    - replace (a - 2 ^ 31) with (a + 2 ^ 31 + (-1) * 2 ^ 32) by lia. unfold u32. rewrite Z.mod_add by lia.
      rewrite Z.mod_small by lia. lia. }
  unfold KERNBASE, PHYSTOP in E. rewrite E. destruct (Z.eqb_spec (a mod PGSIZE) 0), (Z.ltb_spec a kend),
    (Z.leb_spec 234881024 (u32 (a - 2 ^ 31))); simpl; split; try done; try (intros (? & ? & ?); lia).
Qed.

(** Following the first words of the pages from [a] gives [l]. *)
Fixpoint chain (pg : gmap Z (list Z)) (a : Z) (l : list Z) : Prop :=
  match l with
  | [] => a = 0
  | b :: l' => a = b ∧ ∃ d, pg !! b = Some d ∧ chain pg (rd 4 d 0) l'
  end.

(** [l] are the free pages. *)
Record kmem_wf (m : mem) (l : list Z) : Prop := KmemWf {
  kw_chain : chain (m_pages m) (m_freelist m) l;
  kw_nodup : NoDup l;
  kw_good : Forall good_page l;
  kw_len : ∀ a d, m_pages m !! a = Some d → length d = Z.to_nat PGSIZE
}.

(** Pages that are not free do not matter. *)
Lemma chain_ext pg pg' a l : (∀ b, b ∈ l → pg' !! b = pg !! b) → chain pg a l → chain pg' a l.
Proof.
  revert a. induction l as [|b l IH]; intros a Hb; simpl; [done|]. intros (-> & d & Hd & Hl). split; [done|].
  exists d. rewrite Hb by by left. split; [done|]. apply IH; [|done]. intros c Hc. apply Hb. by right.
Qed.

Lemma kmem_wf_page m l a d :
  kmem_wf m l → a ∉ l → length d = Z.to_nat PGSIZE → kmem_wf (set_m_pages (<[a := d]> (m_pages m)) m) l.
Proof.
  intros [H1 H2 H3 H4] Ha Hd. split; [|done|done|]; cbn.
  - eapply chain_ext; [|exact H1]. intros b Hb. rewrite lookup_insert_ne; [done|]. by intros ->.
  - intros b e. destruct (decide (a = b)) as [->|]; [rewrite lookup_insert_eq; by intros [= <-]|].
    rewrite lookup_insert_ne by done. apply H4.
Qed.

(** Taking the first page and giving one back. *)
Lemma kmem_wf_take m a l : kmem_wf m (a :: l) →
  ∃ d, m_pages m !! a = Some d ∧ m_freelist m = a ∧ a ≠ 0 ∧ kmem_wf (set_m_freelist (rd 4 d 0) m) l.
Proof.
  intros [(E & d & Hd & Hl) H2 H3 H4]. exists d. split; [done|]. split; [done|].
  apply list.NoDup_cons in H2 as [_ H2]. apply list.Forall_cons in H3 as [Ha H3]. split; [|by split].
  destruct Ha as (_ & _ & Ha). unfold KERNBASE in Ha. lia.
Qed.

Definition freed_page (fl : Z) : list Z := wr 4 fl (replicate (Z.to_nat PGSIZE) 1) 0.

Lemma kmem_wf_free m v l : kmem_wf m l → good_page v → v ∉ l →
  kmem_wf (set_m_freelist v (set_m_pages (<[v := freed_page (m_freelist m)]> (m_pages m)) m)) (v :: l).
Proof.
  intros Hw Hv Hn. pose proof Hw as [H1 H2 H3 H4]. assert (length (freed_page (m_freelist m)) = Z.to_nat PGSIZE) as Hlen.
  { unfold freed_page. by rewrite length_wr, length_replicate. }
  destruct (kmem_wf_page m l v (freed_page (m_freelist m)) Hw Hn Hlen) as [C _ _ L]. split.
  - split; [done|]. exists (freed_page (m_freelist m)). split; [by cbn; rewrite lookup_insert_eq|].
    unfold freed_page at 2. rewrite rd_wr_eq by (rewrite length_replicate; vm_compute; lia).
    change (2 ^ (8 * Z.of_nat 4)) with (2 ^ 32). assert (0 ≤ m_freelist m < 2 ^ 32) as Hfl.
    { destruct l as [|b l]; [cbn in H1; lia|]. destruct H1 as [-> _]. apply list.Forall_cons in H3 as [(_ & _ & Hb) _].
      unfold KERNBASE, PHYSTOP in Hb. lia. }
    rewrite Z.mod_small by done. exact C.
  - by apply list.NoDup_cons.
  - by apply list.Forall_cons.
  - exact L.
Qed.

End free_list.

(** ** Running the allocator *)

Section kalloc_laws.
Context {Xf : Type} `{Linker}.
Implicit Types (s : kstate (mem * Xf)).
Notation M := (K (kstate (mem * Xf))).

(** The allocator's lock can be taken and given back without a trace. *)
Definition kmem_free s (i : nat) (c : cpu) : Prop :=
  m_use_lock (mm s) ≠ 0 → can_lock L_kmem s i c ∧ settled i c (k_mach s) = k_mach s.

Lemma mm_set m s : mm (set_mm m s) = m.
Proof. done. Qed.
Lemma set_mm_set m m' s : set_mm m (set_mm m' s) = set_mm m s.
Proof. done. Qed.
Lemma set_mm_id s : set_mm (mm s) s = s.
Proof. destruct s as [?????????[]]. done. Qed.
Lemma set_mach_mm k m s : set_k_mach k (set_mm m s) = set_mm m (set_k_mach k s).
Proof. done. Qed.

Lemma kmem_free_set s i c m : kmem_free s i c → m_use_lock m = m_use_lock (mm s) → kmem_free (set_mm m s) i c.
Proof. unfold kmem_free. rewrite mm_set. intros Hf ->. intros Hu. destruct (Hf Hu) as [[H1 H2 H3] E]. split; [by split|done]. Qed.

Lemma bind_mgets {A B} (f : mem → A) (k : A → M B) s : (mgets f ≫= k) s = k (f (mm s)) s.
Proof. exact (bind_kgets (λ s, f (mm s)) k s). Qed.

Lemma bind_mmodify {B} f (k : unit → M B) s : (mmodify f ≫= k) s = k tt (set_mm (f (mm s)) s).
Proof. exact (bind_kmodify (λ s, set_mm (f (mm s)) s) k s). Qed.

Lemma get_page_ok a d s : m_pages (mm s) !! a = Some d → get_page a s = Ok d s.
Proof. intros E. unfold get_page. by rewrite bind_mgets, E. Qed.

Lemma set_page_ok a d d' s : m_pages (mm s) !! a = Some d →
  set_page a d' s = Ok tt (set_mm (set_m_pages (<[a := d']> (m_pages (mm s))) (mm s)) s).
Proof. intros E. unfold set_page. by rewrite (bind_ok _ _ _ _ _ (get_page_ok a d s E)). Qed.

(** A word of the page at [a]. *)
Lemma load_ok a o d s : m_pages (mm s) !! a = Some d → 0 ≤ a → a + PGSIZE ≤ 2 ^ 32 → a mod PGSIZE = 0 → 0 ≤ o < PGSIZE →
  load (a + o) s = Ok (rd 4 d (Z.to_nat o)) s.
Proof.
  intros E H1 H2 H3 H4. unfold load. destruct (pgrounddown_page a o H1 H2 H3 H4) as [-> ->].
  by rewrite (bind_ok _ _ _ _ _ (get_page_ok a d s E)).
Qed.

Lemma store_ok a o v d s : m_pages (mm s) !! a = Some d → 0 ≤ a → a + PGSIZE ≤ 2 ^ 32 → a mod PGSIZE = 0 → 0 ≤ o < PGSIZE →
  store (a + o) v s = Ok tt (set_mm (set_m_pages (<[a := wr 4 v d (Z.to_nat o)]> (m_pages (mm s))) (mm s)) s).
Proof.
  intros E H1 H2 H3 H4. unfold store. destruct (pgrounddown_page a o H1 H2 H3 H4) as [-> ->].
  rewrite (bind_ok _ _ _ _ _ (get_page_ok a d s E)). by apply set_page_ok with d.
Qed.

Lemma good_page_bounds a : good_page a → 0 ≤ a ∧ a + PGSIZE ≤ 2 ^ 32 ∧ a mod PGSIZE = 0.
Proof. unfold good_page, KERNBASE, PHYSTOP, PGSIZE. intros (H1 & _ & H2). split; [lia|]. split; [lia|done]. Qed.

(** The machine while the allocator works. *)
Definition locking_mach s (i : nat) (c : cpu) : machine :=
  if m_use_lock (mm s) =? 0 then k_mach s else acquired L_kmem i c (k_mach s).

Lemma lock_on {B} (k : unit → M B) s i c :
  kmem_free s i c → (when_locking (acquire L_kmem) ≫= k) s = k tt (set_k_mach (locking_mach s i c) s).
Proof.
  intros Hf. apply bind_ok. unfold when_locking, locking_mach. rewrite bind_mgets.
  destruct (Z.eqb_spec (m_use_lock (mm s)) 0) as [E|E]; [by rewrite set_mach_id|].
  destruct (Hf E) as [[H1 H2 H3] _]. apply kacquire_ok; [done|lia|done].
Qed.

Lemma lock_off s s1 i c :
  kmem_free s i c → k_mach s1 = locking_mach s i c → m_use_lock (mm s1) = m_use_lock (mm s) →
  when_locking (release L_kmem) s1 = Ok tt (set_k_mach (k_mach s) s1).
Proof.
  intros Hf Hm Hu. unfold when_locking, locking_mach in *. rewrite bind_mgets, Hu.
  destruct (Z.eqb_spec (m_use_lock (mm s)) 0) as [E|E]; [by rewrite <- Hm, set_mach_id|].
  destruct (Hf E) as [[H1 H2 H3] Hq]. rewrite (krelease_acquired L_kmem (k_mach s) _ i c) by (done || lia). by rewrite Hq.
Qed.

(** [kalloc] takes the first free page. *)
Lemma kalloc_ok s i c l :
  kmem_free s i c → kmem_wf (mm s) l →
  ∃ m', kalloc s = Ok (hd 0 l) (set_mm m' s) ∧ kmem_wf m' (tl l) ∧ m_pages m' = m_pages (mm s)
    ∧ m_use_lock m' = m_use_lock (mm s) ∧ m_shmem m' = m_shmem (mm s).
Proof.
  intros Hf Hw. unfold kalloc. rewrite (lock_on _ s i c Hf), bind_mgets. set (s1 := set_k_mach _ s).
  change (mm s1) with (mm s). destruct l as [|a l].
  - pose proof (kw_chain _ _ Hw) as E. cbn in E. rewrite E, Z.eqb_refl, bind_mret.
    rewrite (bind_ok _ _ _ _ _ (lock_off s s1 i c Hf eq_refl eq_refl)). exists (mm s). split; [|done].
    unfold s1. by rewrite set_mach_mach, set_mach_id, set_mm_id.
  - destruct (kmem_wf_take _ _ _ Hw) as (d & Hd & E & Hne & Hw'). rewrite E. apply Z.eqb_neq in Hne as Hne'. rewrite Hne'.
    pose proof (kw_good _ _ Hw) as Hg. apply list.Forall_cons in Hg as [Hg _]. destruct (good_page_bounds a Hg) as (B1 & B2 & B3).
    assert (load a s1 = Ok (rd 4 d 0) s1) as Hl.
    { pose proof (load_ok a 0 d s1 Hd B1 B2 B3 ltac:(done)) as Hl. by rewrite Z.add_0_r in Hl. }
    rewrite (bind_ok _ _ _ tt (set_mm (set_m_freelist (rd 4 d 0) (mm s)) s1)) by by rewrite (bind_ok _ _ _ _ _ Hl).
    rewrite (bind_ok _ _ _ _ _ (lock_off s (set_mm (set_m_freelist (rd 4 d 0) (mm s)) s1) i c Hf eq_refl eq_refl)).
    exists (set_m_freelist (rd 4 d 0) (mm s)). split; [|done]. unfold s1. by rewrite set_mach_mm, set_mach_mach, set_mach_id.
Qed.

(** [kfree] puts a page in front. *)
Definition freed (v : Z) (m : mem) : mem := set_m_freelist v (set_m_pages (<[v := freed_page (m_freelist m)]> (m_pages m)) m).

Lemma kfree_ok v s i c : kmem_free s i c → good_page v → is_Some (m_pages (mm s) !! v) → kfree v s = Ok tt (set_mm (freed v (mm s)) s).
Proof.
  intros Hf Hg [d Hd]. destruct (good_page_bounds v Hg) as (B1 & B2 & B3). unfold kfree.
  assert (0 ≤ v < 2 ^ 32) as Hv by (unfold PGSIZE in B2; lia). rewrite (proj2 (good_page_test v Hv) Hg).
  unfold memset_page. rewrite (bind_ok _ _ _ _ _ (set_page_ok v d _ s Hd)). set (s1 := set_mm _ s).
  rewrite (lock_on _ s1 i c) by by apply kmem_free_set. rewrite bind_mgets. set (s2 := set_k_mach _ s1).
  assert (m_pages (mm s2) !! v = Some (replicate (Z.to_nat PGSIZE) 1)) as E2 by (cbn; by rewrite lookup_insert_eq).
  pose proof (store_ok v 0 (m_freelist (mm s2)) _ s2 E2 B1 B2 B3 ltac:(done)) as Hst. rewrite Z.add_0_r in Hst.
  rewrite (bind_ok _ _ _ _ _ Hst), bind_mmodify.
  rewrite (lock_off s1 _ i c) by (done || by apply kmem_free_set). f_equal.
  unfold s2, s1, freed. rewrite !set_mach_mm, set_mach_mach, !set_mm_set. cbn.
  by rewrite insert_insert_eq.
Qed.

Lemma kfree_bad v s : 0 ≤ v < 2 ^ 32 → ¬ good_page v → kfree v s = Panic "kfree".
Proof.
  intros Hv Hg. unfold kfree. destruct (_ || _) eqn:E; [done|]. destruct Hg. by apply good_page_test.
Qed.

(** The pages from [p] on. *)
Definition page_range (p : Z) (n : nat) : list Z := map (λ k, p + Z.of_nat k * PGSIZE) (seq 0 n).

Lemma page_range_S p n : page_range p (S n) = p :: page_range (p + PGSIZE) n.
Proof.
  unfold page_range. simpl. f_equal; [lia|]. rewrite <- seq_shift, map_map. apply map_ext. intros k. lia.
Qed.

Lemma freerange_loop_ok i c vend : ∀ n p l fuel s,
  kmem_free s i c → kmem_wf (mm s) l → (n < fuel)%nat → p + Z.of_nat n * PGSIZE ≤ vend < p + Z.of_nat n * PGSIZE + PGSIZE →
  (∀ a, a ∈ page_range p n → good_page a ∧ is_Some (m_pages (mm s) !! a) ∧ a ∉ l) →
  ∃ m', freerange_loop fuel p vend s = Ok tt (set_mm m' s) ∧ kmem_wf m' (rev (page_range p n) ++ l)
    ∧ m_use_lock m' = m_use_lock (mm s).
Proof.
  unfold PGSIZE. induction n as [|n IH]; intros p l fuel s Hf Hw Hfu Hv Hp; (destruct fuel as [|fuel]; [lia|]); cbn [freerange_loop].
  - destruct (Z.leb_spec (p + PGSIZE) vend) as [H1|]; [unfold PGSIZE in H1; lia|]. exists (mm s). by rewrite set_mm_id.
  - destruct (Z.leb_spec (p + PGSIZE) vend) as [_|H1]; [|unfold PGSIZE in H1; lia]. cbn [negb].
    rewrite page_range_S in *. destruct (Hp p ltac:(by left)) as (Hg & Hs & Hn).
    rewrite (bind_ok _ _ _ _ _ (kfree_ok p s i c Hf Hg Hs)).
    destruct (IH (p + PGSIZE) (p :: l) fuel (set_mm (freed p (mm s)) s)) as (m' & R & W & U).
    + by apply kmem_free_set.
    + by apply kmem_wf_free.
    + lia.
    + unfold PGSIZE. lia.
    + intros a Ha. destruct (Hp a ltac:(by right)) as (A1 & A2 & A3). split; [done|].
      assert (a ≠ p) as Hne.
      { unfold page_range in Ha. apply list_elem_of_fmap in Ha as (k & -> & _). unfold PGSIZE. lia. }
      split; [by cbn; rewrite lookup_insert_ne|]. rewrite elem_of_cons. tauto.
    + exists m'. rewrite set_mm_set in R. split; [done|]. split; [|done]. simpl. by rewrite <- app_assoc.
Qed.

End kalloc_laws.

(** C19: The page allocator.  [l] are the free pages, chained through their first
    words.  [kalloc] returns the first of them, 0 when there is none, and leaves
    all memory as it is; [kfree] panics on an address that is unaligned, below
    the kernel's end or above physical memory, and else puts the page in front,
    so that the next [kalloc] returns it, touching no other page; [freerange]
    frees every whole page of the range.  No page is ever on the list twice. *)
Theorem allocator_correct {Xf : Type} `{Linker} (s : kstate (mem * Xf)) i c l :
  kmem_free s i c → kmem_wf (mm s) l →
  (∃ m', kalloc s = Ok (hd 0 l) (set_mm m' s) ∧ kmem_wf m' (tl l) ∧ m_pages m' = m_pages (mm s))
  ∧ (∀ v, 0 ≤ v < 2 ^ 32 → ¬ good_page v → kfree v s = Panic "kfree")
  ∧ (∀ v, good_page v → is_Some (m_pages (mm s) !! v) → v ∉ l →
      ∃ m', kfree v s = Ok tt (set_mm m' s) ∧ kmem_wf m' (v :: l)
        ∧ (∀ a, a ≠ v → m_pages m' !! a = m_pages (mm s) !! a)
        ∧ ∃ m'', kalloc (set_mm m' s) = Ok v (set_mm m'' s) ∧ kmem_wf m'' l)
  ∧ (∀ lo hi n, 0 ≤ lo → lo + PGSIZE ≤ 2 ^ 32 → n = Z.to_nat ((hi - PGROUNDUP lo) / PGSIZE) → PGROUNDUP lo ≤ hi →
      (∀ a, a ∈ page_range (PGROUNDUP lo) n → good_page a ∧ is_Some (m_pages (mm s) !! a) ∧ a ∉ l) →
      ∃ m', freerange lo hi s = Ok tt (set_mm m' s) ∧ kmem_wf m' (rev (page_range (PGROUNDUP lo) n) ++ l)).
Proof.
  intros Hf Hw. split; [destruct (kalloc_ok s i c l Hf Hw) as (m' & ? & ? & ? & _); by exists m'|].
  split; [intros v; apply kfree_bad|]. split.
  - intros v Hg Hs Hn. exists (freed v (mm s)). split; [by apply (kfree_ok v s i c)|].
    pose proof (kmem_wf_free _ _ _ Hw Hg Hn) as Hw'. split; [done|].
    split; [intros a Ha; cbn; by rewrite lookup_insert_ne|].
    destruct (kalloc_ok (set_mm (freed v (mm s)) s) i c (v :: l)) as (m' & R & W & _); [by apply kmem_free_set|done|].
    exists m'. by rewrite set_mm_set in R.
  - intros lo hi n H1 H2 Hn H3 Hp. unfold freerange. rewrite <- Hn.
    destruct (freerange_loop_ok i c hi n (PGROUNDUP lo) l (S n) s Hf Hw ltac:(lia)) as (m' & R & W & _); [|done|by exists m'].
    subst n. unfold PGSIZE in *. pose proof (Z.div_mod (hi - PGROUNDUP lo) 4096 ltac:(done)).
    pose proof (Z.mod_pos_bound (hi - PGROUNDUP lo) 4096 ltac:(done)). pose proof (Z.div_pos (hi - PGROUNDUP lo) 4096 ltac:(lia) ltac:(done)). lia.
Qed.

(** Membership in the sample lists of pages. *)
Ltac not_listed := rewrite ?not_elem_of_cons; repeat split; first [discriminate | apply not_elem_of_nil].

(** Two free pages of three. *)
Definition sample_linker : Linker := {| kend := 2148532224; kdata := 2148073472 |}.
Definition sample_page (v : Z) : list Z := replicate (Z.to_nat PGSIZE) v.
Definition page0 : Z := 2148532224.
Definition page1 : Z := 2148536320.
Definition page2 : Z := 2148540416.
Definition sample_mem : mem :=
  Mem (<[page0 := sample_page 5]> (<[page1 := wr 4 page2 (sample_page 1) 0]> (<[page2 := wr 4 0 (sample_page 1) 0]> ∅)))
    1 page1 [].
Definition sample_cpu : cpu := Cpu 0 1 0 512 (Some 0%nat) 0.
Definition sample_mem_state : kstate (mem * unit) :=
  Kstate (Machine [sample_cpu] 0 true ∅) [] 20 (Some 0%nat) 0 0 (Prioritylock 0 0 [] 0) 0 [] (sample_mem, tt).

Lemma sample_kmem_free (m : mem) : kmem_free (set_mm m sample_mem_state) 0 sample_cpu.
Proof. intros _. split; [|reflexivity]. split; [by split|vm_compute; reflexivity|reflexivity]. Qed.

Lemma sample_mem_wf : @kmem_wf sample_linker sample_mem [page1; page2].
Proof.
  split.
  - split; [reflexivity|]. eexists. split; [reflexivity|]. split; [vm_compute; reflexivity|]. eexists. split; [reflexivity|].
    vm_compute. reflexivity.
  - constructor; [not_listed|]. constructor; [apply not_elem_of_nil|constructor].
  - repeat constructor; vm_compute; congruence.
  - intros a d. unfold sample_mem, m_pages. rewrite !lookup_insert_Some, lookup_empty.
    intros [[_ <-]|[_ [[_ <-]|[_ [[_ <-]|[_ E]]]]]]; [reflexivity|reflexivity|reflexivity|discriminate].
Qed.

(** Freeing the third page and allocating it again. *)
Lemma allocator_correct_witness :
  ∃ m' m'', @kfree unit sample_linker page0 sample_mem_state = Ok tt (set_mm m' sample_mem_state)
    ∧ kalloc (set_mm m' sample_mem_state) = Ok page0 (set_mm m'' sample_mem_state).
Proof.
  destruct (@allocator_correct unit sample_linker sample_mem_state 0 sample_cpu [page1; page2]
    (sample_kmem_free sample_mem) sample_mem_wf) as (_ & _ & Hk & _).
  destruct (Hk page0) as (m' & R & _ & _ & m'' & R' & _).
  - vm_compute. repeat split; congruence.
  - eexists. reflexivity.
  - not_listed.
  - by exists m', m''.
Defined.
