(* ===== verification/Vm.v ===== *)
(** * Virtual memory

    Models [vm.c]: page tables as they lie in physical pages, user address spaces
    and the shared-memory table.  Page-table entries are named by their kernel
    address, 0 for null.  The segment and paging registers are left out. *)

From S2P Require Import Prelude Spinlock Printf State PrioLock Sched Proc Bytes Kalloc.

Definition PTE_P : Z := 1.
Definition PTE_W : Z := 2.
Definition PTE_U : Z := 4.
Definition NPDENTRIES : Z := 1024.
Definition NSHPAGE : nat := 64.

Definition PDX (va : Z) : Z := Z.land (Z.shiftr va 22) 1023.
Definition PTX (va : Z) : Z := Z.land (Z.shiftr va 12) 1023.
Definition PGADDR (d t o : Z) : Z := u32 (Z.lor (Z.shiftl d 22) (Z.lor (Z.shiftl t 12) o)).
Definition PTE_ADDR (pte : Z) : Z := Z.land pte (2 ^ 32 - 4096).
Definition PTE_FLAGS (pte : Z) : Z := Z.land pte 4095.

(** Is the entry's flag set? *)
Definition has (pte flag : Z) : bool := negb (Z.land pte flag =? 0).

Section vm_ops.
Context {Xf : Type} `{Linker}.
Notation M := (K (kstate (mem * Xf))).

Definition walkpgdir (pgdir va : Z) (alloc : bool) : M Z :=
  let pde := pgdir + 4 * PDX va in
  e ← load pde;
  if has e PTE_P then mret (P2V (PTE_ADDR e) + 4 * PTX va) else
  if negb alloc then mret 0 else
  pgtab ← kalloc;
  if pgtab =? 0 then mret 0 else
  memset_page pgtab 0;;
  store pde (Z.lor (Z.lor (Z.lor (V2P pgtab) PTE_P) PTE_W) PTE_U);;
  mret (pgtab + 4 * PTX va).

Fixpoint mappages_loop (fuel : nat) (pgdir a last pa perm : Z) : M Z :=
  match fuel with
  | O => knofuel
  | S fuel' =>
      pte ← walkpgdir pgdir a true;
      if pte =? 0 then mret (-1) else
      e ← load pte;
      if has e PTE_P then kpanic "remap" else
      store pte (Z.lor (Z.lor pa perm) PTE_P);;
      if a =? last then mret 0
      else mappages_loop fuel' pgdir (u32 (a + PGSIZE)) last (u32 (pa + PGSIZE)) perm
  end.

Definition mappages (pgdir va size pa perm : Z) : M Z :=
  let a := PGROUNDDOWN va in
  let last := PGROUNDDOWN (u32 (va + size - 1)) in
  mappages_loop (S (Z.to_nat (u32 (last - a) / PGSIZE))) pgdir a last pa perm.

Fixpoint deallocuvm_loop (fuel : nat) (pgdir a oldsz : Z) : M unit :=
  match fuel with
  | O => knofuel
  | S fuel' =>
      if negb (a <? oldsz) then mret tt else
      pte ← walkpgdir pgdir a false;
      if pte =? 0 then
        deallocuvm_loop fuel' pgdir (u32 (u32 (PGADDR (PDX a + 1) 0 0 - PGSIZE) + PGSIZE)) oldsz
      else
        e ← load pte;
        (if has e PTE_P then
           let pa := PTE_ADDR e in
           if pa =? 0 then kpanic "kfree" else
           kfree (P2V pa);;
           store pte 0
         else mret tt);;
        deallocuvm_loop fuel' pgdir (u32 (a + PGSIZE)) oldsz
  end.

Definition deallocuvm (pgdir oldsz newsz : Z) : M Z :=
  if oldsz <=? newsz then mret (s32 oldsz) else
  deallocuvm_loop (S (Z.to_nat (oldsz / PGSIZE + 1))) pgdir (PGROUNDUP newsz) oldsz;;
  mret (s32 newsz).

Definition freevm (pgdir : Z) : M unit :=
  if pgdir =? 0 then kpanic "freevm: no pgdir" else
  deallocuvm pgdir KERNBASE 0;;
  kfor_ (seq 0 (Z.to_nat NPDENTRIES)) (λ i,
    e ← load (pgdir + 4 * Z.of_nat i);
    if has e PTE_P then kfree (P2V (PTE_ADDR e)) else mret tt);;
  kfree pgdir.

(** [kmap]: the kernel's mappings, as address, first and last physical address
    and permissions. *)
Definition kmap : list (Z * Z * Z * Z) :=
  [(KERNBASE, 0, EXTMEM, PTE_W);
   (KERNLINK, V2P KERNLINK, V2P kdata, 0);
   (kdata, V2P kdata, PHYSTOP, PTE_W);
   (DEVSPACE, DEVSPACE, 0, PTE_W)].

Fixpoint setupkvm_loop (pgdir : Z) (ks : list (Z * Z * Z * Z)) : M Z :=
  match ks with
  | [] => mret pgdir
  | (virt, phys_start, phys_end, perm) :: ks' =>
      r ← mappages pgdir virt (u32 (phys_end - phys_start)) phys_start perm;
      if r <? 0 then freevm pgdir;; mret 0 else setupkvm_loop pgdir ks'
  end.

Definition setupkvm : M Z :=
  pgdir ← kalloc;
  if pgdir =? 0 then mret 0 else
  memset_page pgdir 0;;
  if DEVSPACE <? P2V PHYSTOP then kpanic "PHYSTOP too high" else
  setupkvm_loop pgdir kmap.

Definition inituvm (pgdir : Z) (init : list Z) : M unit :=
  if PGSIZE <=? Z.of_nat (length init) then kpanic "inituvm: more than a page" else
  mem ← kalloc;
  memset_page mem 0;;
  mappages pgdir 0 PGSIZE (V2P mem) (Z.lor PTE_W PTE_U);;
  d ← get_page mem;
  set_page mem (blit d 0 init).

Fixpoint allocuvm_loop (fuel : nat) (pgdir a oldsz newsz : Z) : M Z :=
  match fuel with
  | O => knofuel
  | S fuel' =>
      if negb (a <? newsz) then mret (s32 newsz) else
      mem ← kalloc;
      if mem =? 0 then
        message "allocuvm out of memory";;
        deallocuvm pgdir newsz oldsz;;
        mret 0
      else
      memset_page mem 0;;
      r ← mappages pgdir a PGSIZE (V2P mem) (Z.lor PTE_W PTE_U);
      if r <? 0 then
        message "allocuvm out of memory (2)";;
        deallocuvm pgdir newsz oldsz;;
        kfree mem;;
        mret 0
      else allocuvm_loop fuel' pgdir (u32 (a + PGSIZE)) oldsz newsz
  end.

Definition allocuvm (pgdir oldsz newsz : Z) : M Z :=
  if KERNBASE <=? newsz then mret 0 else
  if newsz <? oldsz then mret (s32 oldsz) else
  allocuvm_loop (S (Z.to_nat (newsz / PGSIZE + 1))) pgdir (PGROUNDUP oldsz) oldsz newsz.

Definition clearpteu (pgdir uva : Z) : M unit :=
  pte ← walkpgdir pgdir uva false;
  if pte =? 0 then kpanic "clearpteu" else
  e ← load pte;
  store pte (Z.land e (2 ^ 32 - 1 - PTE_U)).

Fixpoint copyuvm_loop (fuel : nat) (pgdir d i sz : Z) : M Z :=
  match fuel with
  | O => knofuel
  | S fuel' =>
      if negb (i <? sz) then mret d else
      pte ← walkpgdir pgdir i false;
      if pte =? 0 then kpanic "copyuvm: pte should exist" else
      e ← load pte;
      if negb (has e PTE_P) then kpanic "copyuvm: page not present" else
      let pa := PTE_ADDR e in
      let flags := PTE_FLAGS e in
      mem ← kalloc;
      if mem =? 0 then freevm d;; mret 0 else
      src ← get_page (P2V pa);
      set_page mem src;;
      r ← mappages d i PGSIZE (V2P mem) flags;
      if r <? 0 then kfree mem;; freevm d;; mret 0
      else copyuvm_loop fuel' pgdir d (u32 (i + PGSIZE)) sz
  end.

Definition copyuvm (pgdir sz : Z) : M Z :=
  d ← setupkvm;
  if d =? 0 then mret 0 else
  copyuvm_loop (S (Z.to_nat (sz / PGSIZE + 1))) pgdir d 0 sz.

Definition uva2ka (pgdir uva : Z) : M Z :=
  pte ← walkpgdir pgdir uva false;
  if pte =? 0 then kundef "*pte" else
  e ← load pte;
  if negb (has e PTE_P) then mret 0 else
  if negb (has e PTE_U) then mret 0 else
  mret (P2V (PTE_ADDR e)).

Fixpoint copyout_loop (fuel : nat) (pgdir va : Z) (buf : list Z) (len : Z) : M Z :=
  match fuel with
  | O => knofuel
  | S fuel' =>
      if negb (0 <? len) then mret 0 else
      let va0 := PGROUNDDOWN va in
      pa0 ← uva2ka pgdir va0;
      if pa0 =? 0 then mret (-1) else
      let n := PGSIZE - (va - va0) in
      let n := if len <? n then len else n in
      d ← get_page pa0;
      set_page pa0 (blit d (Z.to_nat (va - va0)) (take (Z.to_nat n) buf));;
      copyout_loop fuel' pgdir (u32 (va0 + PGSIZE)) (drop (Z.to_nat n) buf) (len - n)
  end.

(** [len] is the number of bytes [p] points to. *)
Definition copyout (pgdir va : Z) (p : list Z) : M Z :=
  let len := Z.of_nat (length p) in
  copyout_loop (S (Z.to_nat (len / PGSIZE + 2))) pgdir va p len.

(** ** Shared memory *)

Definition alter_shpage (i : nat) (f : shpage → shpage) : M unit :=
  mmodify (λ m, set_m_shmem (alter f i (m_shmem m)) m).

(** Map physical page [phys] behind the caller's memory. *)
Definition shmem_map (p : nat) (phys : Z) : M Z :=
  pr ← get_proc p;
  mappages (p_pgdir pr) (PGROUNDUP (p_sz pr)) PGSIZE phys (Z.lor PTE_W PTE_U).

(** [proc->shmemaddr = vaddr; proc->sz += size] and the return. *)
Definition shmem_done (p : nat) : M Z :=
  pr ← get_proc p;
  let vaddr := PGROUNDUP (p_sz pr) in
  alter_proc p (set_p_shmemaddr vaddr);;
  alter_proc p (λ q, set_p_sz (u32 (p_sz q + PGSIZE)) q);;
  release L_shmem;;
  mret vaddr.

Definition openshmem (id : Z) : M Z :=
  p ← curproc;
  acquire L_shmem;;
  tab ← mgets m_shmem;
  match find_index (λ e, sh_id e =? id) tab with
  | Some i =>
      alter_shpage i (λ e, set_sh_n_access (s32 (sh_n_access e + 1)) e);;
      e ← mgets (λ m, m_shmem m !! i);
      r ← shmem_map p (default 0 (sh_physicalAddr <$> e));
      if r <? 0 then mret (u32 (-1)) else shmem_done p
  | None =>
      match find_index (λ e, sh_id e =? 0) tab with
      | None =>
          message "shared memory: pages are full";;
          release L_shmem;;
          mret (u32 (-1))
      | Some pgidx =>
          alter_shpage pgidx (set_sh_id id);;
          paddr ← kalloc;
          if paddr =? 0 then
            message "shared memory: out of memory";;
            release L_shmem;;
            mret (u32 (-1))
          else
          memset_page paddr 0;;
          alter_shpage pgidx (set_sh_physicalAddr (V2P paddr));;
          r ← shmem_map p (V2P paddr);
          if r <? 0 then mret (u32 (-1)) else
          alter_shpage pgidx (λ e, set_sh_n_access (s32 (sh_n_access e + 1)) e);;
          shmem_done p
      end
  end.

Definition closeshmem (id : Z) : M Z :=
  p ← curproc;
  acquire L_shmem;;
  tab ← mgets m_shmem;
  match find_index (λ e, sh_id e =? id) tab with
  | Some i =>
      alter_shpage i (λ e, set_sh_n_access (s32 (sh_n_access e - 1)) e);;
      pr ← get_proc p;
      pte ← walkpgdir (p_pgdir pr) (PGROUNDUP (p_shmemaddr pr)) false;
      if pte =? 0 then kundef "*pte" else
      store pte 0;;
      e ← mgets (λ m, m_shmem m !! i);
      (if default 1 (sh_n_access <$> e) =? 0 then alter_shpage i (set_sh_id 0) else mret tt);;
      release L_shmem;;
      mret 0
  | None =>
      release L_shmem;;
      message "No shared memory with this ID.";;
      mret (-1)
  end.

End vm_ops.

(** ** Page-table entries *)

Lemma lor_flags x f : x mod 4096 = 0 → 0 ≤ f < 4096 → Z.lor x f = x + f.
Proof.
  intros Hx Hf. assert (Z.land x f = 0) as E.
  { apply Z.bits_inj_iff'. intros n Hn. rewrite Z.land_spec, Z.bits_0. destruct (Z.ltb_spec n 12).
    - rewrite <- (Z.mod_pow2_bits_low x 12 n) by lia. change (2 ^ 12) with 4096. by rewrite Hx, Z.bits_0.
    - replace (Z.testbit f n) with false by (symmetry; rewrite <- (Z.mod_small f (2 ^ 12)) by lia; apply Z.mod_pow2_bits_high; lia).
      by rewrite andb_false_r. }
  rewrite <- Z.lxor_lor by done. by rewrite Z.add_nocarry_lxor.
Qed.

Lemma land_flags a : Z.land a 4095 = a mod 4096.
Proof. change 4095 with (Z.ones 12). by rewrite Z.land_ones. Qed.

Lemma pte_addr_eq e : 0 ≤ e < 2 ^ 32 → PTE_ADDR e = e - e mod 4096.
Proof. apply land_pgmask. Qed.

(** An entry for the page at [x] with flags [f]. *)
Lemma pte_fields x f : 0 ≤ x < 2 ^ 32 → x mod 4096 = 0 → 0 ≤ f < 4096 →
  0 ≤ Z.lor x f < 2 ^ 32 ∧ PTE_ADDR (Z.lor x f) = x ∧ PTE_FLAGS (Z.lor x f) = f.
Proof.
  intros H1 H2 H3. rewrite lor_flags by done.
  assert ((x + f) mod 4096 = f) as E by (rewrite Z.add_mod, H2, Z.add_0_l, Z.mod_mod by done; by apply Z.mod_small).
  assert (x + f < 2 ^ 32).
  { pose proof (Z.div_mod x 4096 ltac:(done)) as Hd. rewrite H2 in Hd. assert (x / 4096 < 2 ^ 20) by (apply Z.div_lt_upper_bound; lia). lia. }
  split; [lia|]. unfold PTE_FLAGS. rewrite pte_addr_eq, land_flags by lia. rewrite E. lia.
Qed.

Lemma has_odd e : has e PTE_P = Z.odd e.
Proof.
  unfold has, PTE_P. change 1 with (Z.ones 1). rewrite Z.land_ones by done. change (2 ^ 1) with 2.
  rewrite Zmod_odd. by destruct (Z.odd e).
Qed.

Lemma lor_flag_bounds f g : 0 ≤ f < 4096 → 0 ≤ g < 4096 → 0 ≤ Z.lor f g < 4096.
Proof.
  intros Hf Hg. assert (0 ≤ Z.lor f g) as H0 by (apply Z.lor_nonneg; lia). split; [done|].
  apply Z.log2_lt_cancel.
  change (Z.log2 4096) with 12. rewrite Z.log2_lor by lia.
  assert (∀ y, 0 ≤ y < 4096 → Z.log2 y < 12) as Hl.
  { intros y Hy. destruct (decide (y = 0)) as [->|]; [done|]. apply Z.log2_lt_pow2; lia. }
  apply Z.max_lub_lt; by apply Hl.
Qed.

Lemma odd_lor_p e : Z.odd (Z.lor e PTE_P) = true.
Proof. rewrite <- Z.bit0_odd, Z.lor_spec. by rewrite orb_true_r. Qed.

Lemma pdx_eq va : 0 ≤ va < 2 ^ 32 → PDX va = va / 2 ^ 22.
Proof.
  intros H. unfold PDX. change 1023 with (Z.ones 10). rewrite Z.land_ones, Z.shiftr_div_pow2 by done.
  apply Z.mod_small. split; [apply Z.div_pos; lia|]. apply Z.div_lt_upper_bound; lia.
Qed.

Lemma ptx_eq va : PTX va = va / 2 ^ 12 mod 1024.
Proof. unfold PTX. change 1023 with (Z.ones 10). by rewrite Z.land_ones, Z.shiftr_div_pow2. Qed.

Lemma index_bounds va : 0 ≤ va < 2 ^ 32 → 0 ≤ PDX va < 1024 ∧ 0 ≤ PTX va < 1024.
Proof.
  intros H. rewrite pdx_eq, ptx_eq by done. split; [|by apply Z.mod_pos_bound].
  split; [apply Z.div_pos; lia|]. apply Z.div_lt_upper_bound; lia.
Qed.

(** The two indices name the page. *)
Lemma same_page va va' : 0 ≤ va < 2 ^ 32 → 0 ≤ va' < 2 ^ 32 →
  PDX va = PDX va' ∧ PTX va = PTX va' ↔ va / PGSIZE = va' / PGSIZE.
Proof.
  intros H1 H2. rewrite !pdx_eq, !ptx_eq by done. change PGSIZE with (2 ^ 12). change (2 ^ 22) with (2 ^ 12 * 1024).
  rewrite <- !Z.div_div by done. generalize (va / 2 ^ 12) (va' / 2 ^ 12). intros u v. split.
  - intros [E1 E2]. rewrite (Z.div_mod u 1024), (Z.div_mod v 1024) by done. by rewrite E1, E2.
  - by intros ->.
Qed.

(** ** Page tables *)

(** [a] is a page of memory. *)
Definition page_here (pg : gmap Z (list Z)) (a : Z) : Prop :=
  0 < a ∧ a + PGSIZE ≤ 2 ^ 32 ∧ a mod PGSIZE = 0 ∧ ∃ d, pg !! a = Some d ∧ length d = Z.to_nat PGSIZE.

Section page_tables.
Implicit Types (pg : gmap Z (list Z)).

Definition page pg (a : Z) : list Z := default [] (pg !! a).
Definition pde pg (pgdir i : Z) : Z := rd 4 (page pg pgdir) (Z.to_nat (4 * i)).
Definition table pg (pgdir i : Z) : Z := P2V (PTE_ADDR (pde pg pgdir i)).
Definition pte pg (pgdir va : Z) : Z := rd 4 (page pg (table pg pgdir (PDX va))) (Z.to_nat (4 * PTX va)).

(** What the hardware finds for address [va]: the entry that maps it. *)
Definition xlate pg (pgdir va : Z) : option Z :=
  if has (pde pg pgdir (PDX va)) PTE_P then
    if has (pte pg pgdir va) PTE_P then Some (pte pg pgdir va) else None
  else None.

(** The tables of [pgdir] are different pages, none of them among [l]. *)
Record pt_wf pg (pgdir : Z) (l : list Z) : Prop := PtWf {
  pt_dir : page_here pg pgdir ∧ pgdir ∉ l;
  pt_table : ∀ i, 0 ≤ i < NPDENTRIES → has (pde pg pgdir i) PTE_P = true →
    page_here pg (table pg pgdir i) ∧ table pg pgdir i ∉ l ∧ table pg pgdir i ≠ pgdir;
  pt_inj : ∀ i j, 0 ≤ i < NPDENTRIES → 0 ≤ j < NPDENTRIES → has (pde pg pgdir i) PTE_P = true →
    has (pde pg pgdir j) PTE_P = true → table pg pgdir i = table pg pgdir j → i = j
}.

(** Is [a] a page of the table? *)
Definition in_tables pg (pgdir a : Z) : Prop :=
  a = pgdir ∨ ∃ i, 0 ≤ i < NPDENTRIES ∧ has (pde pg pgdir i) PTE_P = true ∧ table pg pgdir i = a.

Lemma page_insert_eq pg a d : page (<[a := d]> pg) a = d.
Proof. unfold page. by rewrite lookup_insert_eq. Qed.

Lemma page_insert_ne pg a b d : a ≠ b → page (<[a := d]> pg) b = page pg b.
Proof. intros H. unfold page. by rewrite lookup_insert_ne. Qed.

Lemma page_here_lookup pg a : page_here pg a → pg !! a = Some (page pg a) ∧ length (page pg a) = Z.to_nat PGSIZE.
Proof. intros (_ & _ & _ & d & E & L). unfold page. by rewrite E. Qed.

Lemma page_here_insert pg a b d : page_here pg a → length d = Z.to_nat PGSIZE → page_here (<[b := d]> pg) a.
Proof.
  intros (H1 & H2 & H3 & e & E & L) Hd. do 3 (split; [done|]). destruct (decide (b = a)) as [->|].
  - exists d. by rewrite lookup_insert_eq.
  - exists e. by rewrite lookup_insert_ne.
Qed.

(** A different page of the directory's changes no entry of it. *)
Lemma pde_insert_ne pg pgdir a d i : a ≠ pgdir → pde (<[a := d]> pg) pgdir i = pde pg pgdir i.
Proof. intros H. unfold pde. by rewrite page_insert_ne. Qed.

Lemma table_insert_ne pg pgdir a d i : a ≠ pgdir → table (<[a := d]> pg) pgdir i = table pg pgdir i.
Proof. intros H. unfold table. by rewrite pde_insert_ne. Qed.

Lemma pt_wf_insert pg pgdir l a d :
  pt_wf pg pgdir l → a ≠ pgdir → length d = Z.to_nat PGSIZE → pt_wf (<[a := d]> pg) pgdir l.
Proof.
  intros [[D1 D2] T I] Ha Hd. split.
  - split; [by apply page_here_insert|done].
  - intros i Hi. rewrite pde_insert_ne, table_insert_ne by done. intros Hp. destruct (T i Hi Hp) as (T1 & T2 & T3).
    split; [by apply page_here_insert|done].
  - intros i j Hi Hj. rewrite !pde_insert_ne, !table_insert_ne by done. by apply I.
Qed.

(** Changing the entry of [va]. *)
Definition set_pte pg (pgdir va v : Z) : gmap Z (list Z) :=
  let t := table pg pgdir (PDX va) in <[t := wr 4 v (page pg t) (Z.to_nat (4 * PTX va))]> pg.

Lemma set_pte_wf pg pgdir l va v :
  pt_wf pg pgdir l → 0 ≤ va < 2 ^ 32 → has (pde pg pgdir (PDX va)) PTE_P = true → pt_wf (set_pte pg pgdir va v) pgdir l.
Proof.
  intros Hw Hva Hp. destruct (index_bounds va Hva) as [Hi _]. destruct (pt_table _ _ _ Hw _ Hi Hp) as (T1 & T2 & T3).
  apply pt_wf_insert; [done|done|]. rewrite length_wr. by apply page_here_lookup.
Qed.

Lemma set_pte_xlate pg pgdir l va v va' :
  pt_wf pg pgdir l → 0 ≤ va < 2 ^ 32 → 0 ≤ va' < 2 ^ 32 → 0 ≤ v < 2 ^ 32 → has (pde pg pgdir (PDX va)) PTE_P = true →
  xlate (set_pte pg pgdir va v) pgdir va'
  = if va' / PGSIZE =? va / PGSIZE then (if has v PTE_P then Some v else None) else xlate pg pgdir va'.
Proof.
  intros Hw H1 H2 Hv Hp. destruct (index_bounds va H1) as [Hi Hi'], (index_bounds va' H2) as [Hj Hj'].
  destruct (pt_table _ _ _ Hw _ Hi Hp) as (T1 & _ & T3). unfold xlate, pte, set_pte.
  rewrite pde_insert_ne, table_insert_ne by done. destruct (has (pde pg pgdir (PDX va')) PTE_P) eqn:Hp'.
  2:{ destruct (Z.eqb_spec (va' / PGSIZE) (va / PGSIZE)) as [E|]; [|done]. apply same_page in E as [E _]; [|done|done]. congruence. }
  destruct (Z.eqb_spec (PDX va') (PDX va)) as [E1|E1].
  - rewrite E1, page_insert_eq. destruct (Z.eqb_spec (PTX va') (PTX va)) as [E2|E2].
    + destruct (Z.eqb_spec (va' / PGSIZE) (va / PGSIZE)) as [_|E3]; [|destruct E3; by apply same_page].
      rewrite E2, rd_wr_eq; [|destruct (page_here_lookup _ _ T1) as [_ ->]; unfold PGSIZE; lia].
      change (2 ^ (8 * Z.of_nat 4)) with (2 ^ 32). by rewrite Z.mod_small.
    + destruct (Z.eqb_spec (va' / PGSIZE) (va / PGSIZE)) as [E3|_]; [apply same_page in E3 as [_ E3]; done|].
      by rewrite rd_wr_ne by lia.
  - destruct (Z.eqb_spec (va' / PGSIZE) (va / PGSIZE)) as [E3|_]; [apply same_page in E3 as [E3 _]; done|].
    rewrite page_insert_ne; [done|]. intros E. by apply (pt_inj _ _ _ Hw) in E.
Qed.

(** Adding a table for [va], in page [t]. *)
Definition add_table pg (pgdir va t : Z) : gmap Z (list Z) :=
  <[pgdir := wr 4 (Z.lor (Z.lor (Z.lor (V2P t) PTE_P) PTE_W) PTE_U) (page pg pgdir) (Z.to_nat (4 * PDX va))]>
    (<[t := replicate (Z.to_nat PGSIZE) 0]> pg).

Lemma table_entry t : 0 < t → t + PGSIZE ≤ 2 ^ 32 → t mod PGSIZE = 0 →
  let e := Z.lor (Z.lor (Z.lor (V2P t) PTE_P) PTE_W) PTE_U in
  0 ≤ e < 2 ^ 32 ∧ has e PTE_P = true ∧ P2V (PTE_ADDR e) = t.
Proof.
  intros H1 H2 H3. unfold PGSIZE in *. cbv zeta. rewrite <- !Z.lor_assoc. change (Z.lor PTE_P (Z.lor PTE_W PTE_U)) with 7.
  assert (V2P t mod 4096 = 0) as Hm.
  { unfold V2P, KERNBASE. change 4096 with (2 ^ 12). rewrite u32_mod_pow2 by lia.
    replace (t - 2 ^ 31) with (t + (-524288) * 2 ^ 12) by lia. by rewrite Z.mod_add. }
  pose proof (u32_range (t - KERNBASE)) as Hr. fold (V2P t) in Hr.
  destruct (pte_fields (V2P t) 7 ltac:(lia) Hm ltac:(lia)) as (R & E & _). split; [done|]. split.
  - rewrite has_odd. change 7 with (Z.lor 6 PTE_P). rewrite Z.lor_assoc. apply odd_lor_p.
  - rewrite E. apply p2v_v2p. lia.
Qed.

Lemma rd_zero_page k o : (o + k ≤ Z.to_nat PGSIZE)%nat → rd k (replicate (Z.to_nat PGSIZE) 0) o = 0.
Proof.
  revert o. induction k as [|k IH]; intros o Ho; [done|]. cbn [rd]. rewrite IH by lia.
  by rewrite list_lookup_total_alt, lookup_replicate_2 by lia.
Qed.

Section add_table.
Context pg pgdir l va t (Hw : pt_wf pg pgdir (t :: l)) (Hva : 0 ≤ va < 2 ^ 32)
  (Hp : has (pde pg pgdir (PDX va)) PTE_P = false) (Ht : page_here pg t) (Hnd : t ∉ l).

Lemma add_table_dir : t ≠ pgdir.
Proof. destruct (pt_dir _ _ _ Hw) as [_ D]. rewrite elem_of_cons in D. intros ->. tauto. Qed.

Lemma add_table_pde i : 0 ≤ i < NPDENTRIES →
  pde (add_table pg pgdir va t) pgdir i
  = if i =? PDX va then Z.lor (Z.lor (Z.lor (V2P t) PTE_P) PTE_W) PTE_U else pde pg pgdir i.
Proof.
  intros Hi. destruct (index_bounds va Hva) as [Hb _]. unfold pde, add_table. rewrite page_insert_eq.
  destruct (page_here_lookup _ _ (proj1 (pt_dir _ _ _ Hw))) as [_ Hlen].
  destruct (Z.eqb_spec i (PDX va)) as [->|Hne].
  - rewrite rd_wr_eq by (rewrite Hlen; unfold PGSIZE; lia). destruct Ht as (B1 & B2 & B3 & _).
    destruct (table_entry t B1 B2 B3) as (R & _). change (2 ^ (8 * Z.of_nat 4)) with (2 ^ 32). by rewrite Z.mod_small.
  - by rewrite rd_wr_ne by lia.
Qed.

Lemma add_table_table i : 0 ≤ i < NPDENTRIES →
  table (add_table pg pgdir va t) pgdir i = if i =? PDX va then t else table pg pgdir i.
Proof.
  intros Hi. unfold table. rewrite add_table_pde by done. destruct (i =? PDX va); [|done].
  destruct Ht as (B1 & B2 & B3 & _). apply (table_entry t B1 B2 B3).
Qed.

Lemma add_table_wf : pt_wf (add_table pg pgdir va t) pgdir l.
Proof.
  pose proof Hw as [[D1 D2] T I]. assert (∀ a, page_here pg a → page_here (add_table pg pgdir va t) a) as Hkeep.
  { intros a Ha. unfold add_table. apply page_here_insert; [apply page_here_insert; [done|apply length_replicate]|].
    rewrite length_wr. by apply page_here_lookup. }
  rewrite elem_of_cons in D2. split.
  - split; [by apply Hkeep|tauto].
  - intros i Hi. rewrite add_table_pde, add_table_table by done. destruct (Z.eqb_spec i (PDX va)) as [->|]; intros Hpi.
    + split; [by apply Hkeep|]. split; [done|]. apply add_table_dir.
    + destruct (T i Hi Hpi) as (T1 & T2 & T3). rewrite elem_of_cons in T2. split; [by apply Hkeep|tauto].
  - intros i j Hi Hj. rewrite !add_table_pde, !add_table_table by done.
    destruct (Z.eqb_spec i (PDX va)) as [->|], (Z.eqb_spec j (PDX va)) as [->|]; intros Hpi Hpj E; [done| | |by apply I].
    + destruct (T j Hj Hpj) as (_ & T2 & _). rewrite elem_of_cons in T2. naive_solver.
    + destruct (T i Hi Hpi) as (_ & T2 & _). rewrite elem_of_cons in T2. naive_solver.
Qed.

Lemma add_table_xlate va' : 0 ≤ va' < 2 ^ 32 → xlate (add_table pg pgdir va t) pgdir va' = xlate pg pgdir va'.
Proof.
  intros Hv'. destruct (index_bounds va' Hv') as [Hb _]. unfold xlate, pte.
  rewrite add_table_pde, add_table_table by done. destruct (Z.eqb_spec (PDX va') (PDX va)) as [E|E].
  - destruct Ht as (B1 & B2 & B3 & _). destruct (table_entry t B1 B2 B3) as (_ & -> & _). rewrite E, Hp.
    unfold add_table. rewrite page_insert_ne, page_insert_eq by (apply not_eq_sym, add_table_dir).
    destruct (index_bounds va' Hv') as [_ Hb']. by rewrite rd_zero_page by (unfold PGSIZE; lia).
  - destruct (has (pde pg pgdir (PDX va')) PTE_P) eqn:Hp'; [|done].
    destruct (pt_table _ _ _ Hw _ Hb Hp') as (_ & T2 & T3). rewrite elem_of_cons in T2.
    unfold add_table. rewrite !page_insert_ne by naive_solver. done.
Qed.

Lemma add_table_tables a : in_tables (add_table pg pgdir va t) pgdir a ↔ a = t ∨ in_tables pg pgdir a.
Proof.
  destruct (index_bounds va Hva) as [Hb _]. destruct Ht as (B1 & B2 & B3 & _). destruct (table_entry t B1 B2 B3) as (_ & He & _). split.
  - intros [->|(i & Hi & Hpi & Hti)]; [right; by left|]. rewrite add_table_pde in Hpi by done. rewrite add_table_table in Hti by done.
    destruct (Z.eqb_spec i (PDX va)); [by left|]. right. right. by exists i.
  - intros [->|[->|(i & Hi & Hpi & Hti)]]; [|by left|]; right.
    + exists (PDX va). by rewrite add_table_pde, add_table_table, Z.eqb_refl.
    + exists i. rewrite add_table_pde, add_table_table by done. destruct (Z.eqb_spec i (PDX va)) as [->|]; [congruence|done].
Qed.

End add_table.

End page_tables.

(** ** Mapping pages *)

Section mapping.
Context {Xf : Type} `{Linker}.
Implicit Types (s : kstate (mem * Xf)) (m : mem).

(** Work on the table [pgdir] that takes pages from the free list [l] and leaves
    [l']; pages that are neither free nor in the table stay as they are, and the
    pages taken are in the table. *)
Record vm_step m m' (pgdir : Z) (l l' : list Z) : Prop := VmStep {
  vs_kmem : kmem_wf m' l';
  vs_pt : pt_wf (m_pages m') pgdir l';
  vs_lock : m_use_lock m' = m_use_lock m;
  vs_shmem : m_shmem m' = m_shmem m;
  vs_suffix : l' `suffix_of` l;
  vs_frame : ∀ a, a ∉ l → ¬ in_tables (m_pages m) pgdir a →
    m_pages m' !! a = m_pages m !! a ∧ ¬ in_tables (m_pages m') pgdir a;
  vs_owned : ∀ a, a ∈ l' ∨ in_tables (m_pages m') pgdir a ↔ a ∈ l ∨ in_tables (m_pages m) pgdir a
}.

Lemma vm_step_refl m pgdir l : kmem_wf m l → pt_wf (m_pages m) pgdir l → vm_step m m pgdir l l.
Proof. intros. by split. Qed.

Lemma vm_step_trans m1 m2 m3 pgdir l1 l2 l3 :
  vm_step m1 m2 pgdir l1 l2 → vm_step m2 m3 pgdir l2 l3 → vm_step m1 m3 pgdir l1 l3.
Proof.
  intros [A1 A2 A3 A4 A5 A6 A7] [B1 B2 B3 B4 B5 B6 B7]. split; [done|done|congruence|congruence|by etrans| |intros a; by rewrite B7, A7].
  intros a Ha Hn. destruct (A6 a Ha Hn) as [E1 N1]. rewrite <- E1. apply B6; [|done].
  intros Hin. apply Ha. destruct A5 as [k ->]. apply elem_of_app. by right.
Qed.

Lemma load_pde pgdir l i s : pt_wf (m_pages (mm s)) pgdir l → 0 ≤ i < NPDENTRIES →
  load (pgdir + 4 * i) s = Ok (pde (m_pages (mm s)) pgdir i) s.
Proof.
  intros Hw Hi. destruct (pt_dir _ _ _ Hw) as [Hh _]. pose proof Hh as (B1 & B2 & B3 & _).
  destruct (page_here_lookup _ _ Hh) as [E _]. apply (load_ok _ _ _ _ E (Z.lt_le_incl _ _ B1) B2 B3). unfold NPDENTRIES, PGSIZE in *. lia.
Qed.

Lemma load_pte pgdir l va s : pt_wf (m_pages (mm s)) pgdir l → 0 ≤ va < 2 ^ 32 →
  has (pde (m_pages (mm s)) pgdir (PDX va)) PTE_P = true →
  load (table (m_pages (mm s)) pgdir (PDX va) + 4 * PTX va) s = Ok (pte (m_pages (mm s)) pgdir va) s.
Proof.
  intros Hw Hva Hp. destruct (index_bounds va Hva) as [Hi Hj]. destruct (pt_table _ _ _ Hw _ Hi Hp) as (Hh & _).
  pose proof Hh as (B1 & B2 & B3 & _). destruct (page_here_lookup _ _ Hh) as [E _].
  apply (load_ok _ _ _ _ E (Z.lt_le_incl _ _ B1) B2 B3). unfold PGSIZE in *. lia.
Qed.

Lemma store_pte pgdir l va v s : pt_wf (m_pages (mm s)) pgdir l → 0 ≤ va < 2 ^ 32 →
  has (pde (m_pages (mm s)) pgdir (PDX va)) PTE_P = true →
  store (table (m_pages (mm s)) pgdir (PDX va) + 4 * PTX va) v s
  = Ok tt (set_mm (set_m_pages (set_pte (m_pages (mm s)) pgdir va v) (mm s)) s).
Proof.
  intros Hw Hva Hp. destruct (index_bounds va Hva) as [Hi Hj]. destruct (pt_table _ _ _ Hw _ Hi Hp) as (Hh & _).
  pose proof Hh as (B1 & B2 & B3 & _). destruct (page_here_lookup _ _ Hh) as [E _].
  apply (store_ok _ _ _ _ _ E (Z.lt_le_incl _ _ B1) B2 B3). unfold PGSIZE in *. lia.
Qed.

(** The entry's address, as [walkpgdir] returns it. *)
Definition pte_addr pg (pgdir va : Z) : Z := table pg pgdir (PDX va) + 4 * PTX va.


Lemma walk_found pgdir l va b s :
  pt_wf (m_pages (mm s)) pgdir l → 0 ≤ va < 2 ^ 32 → has (pde (m_pages (mm s)) pgdir (PDX va)) PTE_P = true →
  walkpgdir pgdir va b s = Ok (pte_addr (m_pages (mm s)) pgdir va) s ∧ pte_addr (m_pages (mm s)) pgdir va ≠ 0.
Proof.
  intros Hw Hva Hp. destruct (index_bounds va Hva) as [Hi Hj]. unfold walkpgdir.
  rewrite (bind_ok _ _ _ _ _ (load_pde pgdir l _ s Hw Hi)), Hp. split; [done|].
  destruct (pt_table _ _ _ Hw _ Hi Hp) as ((B1 & _) & _). unfold pte_addr. lia.
Qed.

Lemma walk_missing pgdir l va s :
  pt_wf (m_pages (mm s)) pgdir l → 0 ≤ va < 2 ^ 32 → has (pde (m_pages (mm s)) pgdir (PDX va)) PTE_P = false →
  walkpgdir pgdir va false s = Ok 0 s.
Proof.
  intros Hw Hva Hp. destruct (index_bounds va Hva) as [Hi _]. unfold walkpgdir.
  by rewrite (bind_ok _ _ _ _ _ (load_pde pgdir l _ s Hw Hi)), Hp.
Qed.

Lemma free_page_here m a l : kmem_wf m (a :: l) → page_here (m_pages m) a.
Proof.
  intros Hw. destruct (kmem_wf_take _ _ _ Hw) as (d & Hd & _ & Hne & _). pose proof (kw_good _ _ Hw) as Hg.
  apply list.Forall_cons in Hg as [Hg _]. destruct (good_page_bounds a Hg) as (B1 & B2 & B3).
  split; [lia|]. do 2 (split; [done|]). exists d. split; [done|]. by apply (kw_len _ _ Hw a).
Qed.

(** With [alloc], a missing table is added, unless memory has run out. *)
Lemma walk_alloc pgdir l va s i c :
  kmem_free s i c → kmem_wf (mm s) l → pt_wf (m_pages (mm s)) pgdir l → 0 ≤ va < 2 ^ 32 →
  ∃ r m' l', walkpgdir pgdir va true s = Ok r (set_mm m' s) ∧ vm_step (mm s) m' pgdir l l'
    ∧ (∀ va', 0 ≤ va' < 2 ^ 32 → xlate (m_pages m') pgdir va' = xlate (m_pages (mm s)) pgdir va')
    ∧ (r = 0 ∧ l' = [] ∨ r ≠ 0 ∧ r = pte_addr (m_pages m') pgdir va ∧ has (pde (m_pages m') pgdir (PDX va)) PTE_P = true).
Proof.
  intros Hf Hk Hw Hva. destruct (index_bounds va Hva) as [Hi Hj].
  destruct (has (pde (m_pages (mm s)) pgdir (PDX va)) PTE_P) eqn:Hp.
  { destruct (walk_found pgdir l va true s Hw Hva Hp) as [R N]. exists (pte_addr (m_pages (mm s)) pgdir va), (mm s), l.
    rewrite set_mm_id. split; [done|]. split; [by apply vm_step_refl|]. split; [done|]. by right. }
  unfold walkpgdir. rewrite (bind_ok _ _ _ _ _ (load_pde pgdir l _ s Hw Hi)), Hp. cbn [negb].
  destruct (kalloc_ok s i c l Hf Hk) as (m1 & R1 & K1 & P1 & U1 & S1). rewrite (bind_ok _ _ _ _ _ R1).
  destruct l as [|t l]; cbn [hd tl] in *.
  { exists 0, m1, []. split; [done|]. rewrite P1. split; [split; try done; by rewrite P1|]. split; [done|]. by left. }
  pose proof (free_page_here _ _ _ Hk) as Ht. pose proof Ht as (T1 & T2 & T3 & d & Ed & Ld).
  destruct (Z.eqb_spec t 0) as [|_]; [lia|]. pose proof (kw_nodup _ _ Hk) as Hnd. apply list.NoDup_cons in Hnd as [Hnd _].
  assert (t ≠ pgdir) as Htd by by eapply (add_table_dir _ _ l va).
  unfold memset_page. rewrite (bind_ok _ _ _ _ _ (set_page_ok t d _ (set_mm m1 s) ltac:(cbn; by rewrite P1))).
  rewrite set_mm_set, mm_set, P1. set (pg1 := <[t := _]> _). set (m2 := set_m_pages pg1 m1).
  destruct (pt_dir _ _ _ Hw) as [Hd Hdl]. pose proof Hd as (D1 & D2 & D3 & _). destruct (page_here_lookup _ _ Hd) as [Ed' Ld'].
  assert (m_pages (mm (set_mm m2 s)) !! pgdir = Some (page (m_pages (mm s)) pgdir)) as Ed2
    by (cbn; unfold pg1; by rewrite lookup_insert_ne).
  rewrite (bind_ok _ _ _ _ _ (store_ok pgdir (4 * PDX va) _ _ (set_mm m2 s) Ed2 ltac:(lia) D2 D3 ltac:(unfold PGSIZE; lia))).
  rewrite set_mm_set, mm_set. change (m_pages m2) with pg1.
  fold (add_table (m_pages (mm s)) pgdir va t). set (m3 := set_m_pages _ m2).
  assert (m_pages m3 = add_table (m_pages (mm s)) pgdir va t) as E3 by done.
  exists (t + 4 * PTX va), m3, l. split; [done|]. rewrite E3. split.
  - split; [| |done|done|by exists [t]| |].
    + unfold m3. apply (kmem_wf_page m2); [unfold m2, pg1; rewrite <- P1; apply kmem_wf_page; [done|done|apply length_replicate]| |by rewrite length_wr].
      rewrite elem_of_cons in Hdl. tauto.
    + rewrite E3. by apply add_table_wf.
    + intros a Ha Hn. rewrite E3. apply not_elem_of_cons in Ha as [Ha _].
      assert (a ≠ pgdir) as Ha' by (intros ->; apply Hn; by left). unfold add_table at 1. rewrite !lookup_insert_ne by done.
      split; [done|]. intros [|(k & Hk1 & Hk2 & Hk3)]; [done|].
      rewrite (add_table_pde _ _ l) in Hk2 by done. rewrite (add_table_table _ _ l) in Hk3 by done.
      destruct (k =? PDX va); [done|]. apply Hn. right. by exists k.
    + intros a. rewrite E3, (add_table_tables _ _ l) by done. rewrite elem_of_cons. tauto.
  - split; [intros va' Hv'; by apply (add_table_xlate _ _ l)|]. right. split; [lia|]. unfold pte_addr.
    rewrite (add_table_table _ _ l) by done. rewrite (add_table_pde _ _ l), Z.eqb_refl by done. split; [done|]. by apply table_entry.
Qed.

Lemma in_tables_set_pte pg pgdir l va v a :
  pt_wf pg pgdir l → 0 ≤ va < 2 ^ 32 → has (pde pg pgdir (PDX va)) PTE_P = true →
  in_tables (set_pte pg pgdir va v) pgdir a ↔ in_tables pg pgdir a.
Proof.
  intros Hw Hva Hp. destruct (index_bounds va Hva) as [Hi _]. destruct (pt_table _ _ _ Hw _ Hi Hp) as (_ & _ & T3).
  unfold in_tables, set_pte. by setoid_rewrite pde_insert_ne; [setoid_rewrite table_insert_ne|].
Qed.

Lemma set_pte_step pgdir l va v m :
  kmem_wf m l → pt_wf (m_pages m) pgdir l → 0 ≤ va < 2 ^ 32 → has (pde (m_pages m) pgdir (PDX va)) PTE_P = true →
  vm_step m (set_m_pages (set_pte (m_pages m) pgdir va v) m) pgdir l l.
Proof.
  intros Hk Hw Hva Hp. destruct (index_bounds va Hva) as [Hi _]. destruct (pt_table _ _ _ Hw _ Hi Hp) as (T1 & T2 & T3).
  split; [|by apply set_pte_wf|done|done|done| |intros a; cbn; by rewrite (in_tables_set_pte _ _ l)].
  - apply kmem_wf_page; [done|done|]. rewrite length_wr. by apply page_here_lookup.
  - intros a Ha Hn. cbn. rewrite (in_tables_set_pte _ _ l) by done. split; [|done].
    apply lookup_insert_ne. intros <-. apply Hn. right. by exists (PDX va).
Qed.

(** The entry [mappages] writes for the page at [pa]. *)
Definition entry (pa perm : Z) : Z := Z.lor (Z.lor pa perm) PTE_P.

Lemma entry_fields pa perm : 0 ≤ pa < 2 ^ 32 → pa mod PGSIZE = 0 → 0 ≤ perm < 4096 →
  0 ≤ entry pa perm < 2 ^ 32 ∧ has (entry pa perm) PTE_P = true ∧ PTE_ADDR (entry pa perm) = pa
  ∧ PTE_FLAGS (entry pa perm) = Z.lor perm PTE_P.
Proof.
  intros H1 H2 H3. unfold entry. split; [|split; [rewrite has_odd; apply odd_lor_p|]]; rewrite <- Z.lor_assoc;
    by apply pte_fields; [| |apply lor_flag_bounds].
Qed.

(** The translations when [k] pages from [a] on are mapped to those from [pa] on. *)
Definition mapped (old : Z → option Z) (a pa perm : Z) (k : nat) (va : Z) : option Z :=
  let j := va / PGSIZE - a / PGSIZE in
  if (0 <=? j) && (j <? Z.of_nat k) then Some (entry (pa + j * PGSIZE) perm) else old va.

Lemma mapped_S old a pa perm k va :
  a mod PGSIZE = 0 → mapped (mapped old a pa perm 1) (a + PGSIZE) (pa + PGSIZE) perm k va = mapped old a pa perm (S k) va.
Proof.
  intros Ha. unfold mapped. replace ((a + PGSIZE) / PGSIZE) with (a / PGSIZE + 1).
  2:{ replace (a + PGSIZE) with (a + 1 * PGSIZE) by lia. by rewrite Z.div_add. }
  set (j := va / PGSIZE - a / PGSIZE). replace (va / PGSIZE - (a / PGSIZE + 1)) with (j - 1) by lia.
  replace (pa + PGSIZE + (j - 1) * PGSIZE) with (pa + j * PGSIZE) by (unfold PGSIZE; lia).
  destruct (Z.leb_spec 0 (j - 1)), (Z.ltb_spec (j - 1) (Z.of_nat k)), (Z.leb_spec 0 j), (Z.ltb_spec j (Z.of_nat (S k))),
    (Z.ltb_spec j (Z.of_nat 1)); simpl; (lia || done).
Qed.

Lemma mapped_0 old a pa perm va : mapped old a pa perm 0 va = old va.
Proof. unfold mapped. by destruct (Z.leb_spec 0 (va / PGSIZE - a / PGSIZE)), (Z.ltb_spec (va / PGSIZE - a / PGSIZE) (Z.of_nat 0)); try lia. Qed.

Lemma mapped_ext old old' a pa perm k va : old va = old' va → mapped old a pa perm k va = mapped old' a pa perm k va.
Proof. unfold mapped. by intros ->. Qed.

(** One turn of the loop of [mappages], before the rest [K]. *)
Lemma mappages_turn (K : Prelude.K (kstate (mem * Xf)) Z) pgdir perm i c a pa l s :
  kmem_free s i c → kmem_wf (mm s) l → pt_wf (m_pages (mm s)) pgdir l →
  0 ≤ a < 2 ^ 32 → 0 ≤ pa < 2 ^ 32 → pa mod PGSIZE = 0 → 0 ≤ perm < 4096 → xlate (m_pages (mm s)) pgdir a = None →
  ∃ m' l', vm_step (mm s) m' pgdir l l' ∧
    let run := (p ← walkpgdir pgdir a true; if p =? 0 then mret (-1) else
                e ← load p; if has e PTE_P then kpanic "remap" else store p (Z.lor (Z.lor pa perm) PTE_P);; K) s in
    (run = Ok (-1) (set_mm m' s) ∧ l' = []
       ∧ ∀ va, 0 ≤ va < 2 ^ 32 → xlate (m_pages m') pgdir va = xlate (m_pages (mm s)) pgdir va)
    ∨ (run = K (set_mm m' s)
       ∧ ∀ va, 0 ≤ va < 2 ^ 32 → xlate (m_pages m') pgdir va = mapped (xlate (m_pages (mm s)) pgdir) a pa perm 1 va).
Proof.
  intros Hf Hk Hw Ha Hpa Hal Hperm Hnone. cbv zeta.
  destruct (walk_alloc pgdir l a s i c Hf Hk Hw Ha) as (r & m1 & l1 & R1 & S1 & X1 & Hr). rewrite (bind_ok _ _ _ _ _ R1).
  destruct Hr as [(-> & ->)|(Hr0 & -> & Hp1)]; [exists m1, []; split; [done|]; by left|].
  apply Z.eqb_neq in Hr0 as ->. unfold pte_addr.
  rewrite (bind_ok _ _ _ _ _ (load_pte pgdir l1 a (set_mm m1 s) (vs_pt _ _ _ _ _ S1) Ha Hp1)), mm_set.
  assert (has (pte (m_pages m1) pgdir a) PTE_P = false) as ->.
  { rewrite <- X1 in Hnone by done. unfold xlate in Hnone. rewrite Hp1 in Hnone. by destruct (has (pte _ _ _) _). }
  rewrite (bind_ok _ _ _ _ _ (store_pte pgdir l1 a _ (set_mm m1 s) (vs_pt _ _ _ _ _ S1) Ha Hp1)), mm_set, set_mm_set.
  eexists _, l1. split; [eapply vm_step_trans; [exact S1|]; apply (set_pte_step pgdir l1 a (entry pa perm)); [apply S1|apply S1|done|done]|].
  right. split; [done|]. intros va Hv. destruct (entry_fields pa perm Hpa Hal Hperm) as (E1 & E2 & _).
  cbn [m_pages set_m_pages]. rewrite (set_pte_xlate _ _ l1), E2, X1 by (done || apply S1). unfold mapped.
  destruct (Z.eqb_spec (va / PGSIZE) (a / PGSIZE)) as [->|];
    [by rewrite Z.sub_diag, Z.mul_0_l, Z.add_0_r|].
  destruct (Z.leb_spec 0 (va / PGSIZE - a / PGSIZE)), (Z.ltb_spec (va / PGSIZE - a / PGSIZE) (Z.of_nat 1)); simpl; (done || lia).
Qed.

Lemma mappages_loop_ok pgdir perm i c : ∀ n fuel a pa l s,
  kmem_free s i c → kmem_wf (mm s) l → pt_wf (m_pages (mm s)) pgdir l → (n < fuel)%nat →
  0 ≤ a → a mod PGSIZE = 0 → a + (Z.of_nat n + 1) * PGSIZE ≤ 2 ^ 32 →
  0 ≤ pa → pa mod PGSIZE = 0 → pa + (Z.of_nat n + 1) * PGSIZE ≤ 2 ^ 32 → 0 ≤ perm < 4096 →
  (∀ j, 0 ≤ j ≤ Z.of_nat n → xlate (m_pages (mm s)) pgdir (a + j * PGSIZE) = None) →
  ∃ r m' l' k, mappages_loop fuel pgdir a (a + Z.of_nat n * PGSIZE) pa perm s = Ok r (set_mm m' s)
    ∧ vm_step (mm s) m' pgdir l l'
    ∧ (∀ va, 0 ≤ va < 2 ^ 32 → xlate (m_pages m') pgdir va = mapped (xlate (m_pages (mm s)) pgdir) a pa perm k va)
    ∧ (r = 0 ∧ k = S n ∨ r = -1 ∧ (k ≤ n)%nat ∧ l' = []).
Proof.
  unfold PGSIZE. induction n as [|n IH]; intros fuel a pa l s Hf Hk Hw Hfu A1 A2 A3 P1 P2 P3 Hperm Hnone;
    (destruct fuel as [|fuel]; [lia|]); cbn [mappages_loop];
    match goal with |- context [store _ _;; ?k] =>
      destruct (mappages_turn k pgdir perm i c a pa l s Hf Hk Hw ltac:(lia) ltac:(lia) P2 Hperm) as (m1 & l1 & S1 & [(R1 & -> & X1)|(R1 & X1)])
    end; try (rewrite <- (Hnone 0) by lia; f_equal; lia); rewrite R1; clear R1;
    try (exists (-1), m1, [], 0%nat; split; [done|]; split; [done|]; split; [intros va Hv; by rewrite X1, mapped_0|right; split; [done|]; split; [lia|done]]).
  - rewrite Z.add_0_r, Z.eqb_refl. exists 0, m1, l1, 1%nat. split; [done|]. split; [done|]. split; [done|]. by left.
  - destruct (Z.eqb_spec a (a + Z.of_nat (S n) * 4096)) as [|_]; [lia|]. unfold PGSIZE. rewrite !u32_small by lia.
    replace (a + Z.of_nat (S n) * 4096) with ((a + 4096) + Z.of_nat n * 4096) by lia.
    assert (∀ y, y mod 4096 = 0 → (y + 4096) mod 4096 = 0) as Hmod.
    { intros y Hy. replace (y + 4096) with (y + 1 * 4096) by lia. by rewrite Z.mod_add. }
    destruct (IH fuel (a + 4096) (pa + 4096) l1 (set_mm m1 s)) as (r & m2 & l2 & k & R2 & S2 & X2 & Hr);
      [apply kmem_free_set; [done|exact (vs_lock _ _ _ _ _ S1)]|exact (vs_kmem _ _ _ _ _ S1)|exact (vs_pt _ _ _ _ _ S1)|lia|lia|by apply Hmod|lia|lia|by apply Hmod|lia|done| |].
    + intros j Hj. rewrite mm_set, X1 by lia. unfold mapped, PGSIZE.
      replace (a + 4096 + j * 4096) with (a + (j + 1) * 4096) by lia. rewrite Z.div_add by done.
      destruct (Z.ltb_spec (a / 4096 + (j + 1) - a / 4096) (Z.of_nat 1)); [lia|]. rewrite andb_false_r. apply Hnone. lia.
    + rewrite mm_set in *. exists r, m2, l2, (S k). split; [done|]. split; [by eapply vm_step_trans|]. split.
      * intros va Hv. rewrite X2 by done. rewrite <- mapped_S by done. apply mapped_ext. by apply X1.
      * destruct Hr as [(-> & ->)|(-> & ? & ->)]; [by left|right]. split; [done|]. split; [lia|done].
Qed.

(** The pages an address range touches. *)
Definition last_page (va size : Z) : Z := (va + size - 1) / PGSIZE - va / PGSIZE.

Lemma mappages_ok pgdir perm va size pa l s i c :
  kmem_free s i c → kmem_wf (mm s) l → pt_wf (m_pages (mm s)) pgdir l →
  0 ≤ va → 0 < size → va + size ≤ 2 ^ 32 → 0 ≤ pa → pa mod PGSIZE = 0 →
  pa + (last_page va size + 1) * PGSIZE ≤ 2 ^ 32 → 0 ≤ perm < 4096 →
  (∀ j, 0 ≤ j ≤ last_page va size → xlate (m_pages (mm s)) pgdir (PGROUNDDOWN va + j * PGSIZE) = None) →
  ∃ r m' l' k, mappages pgdir va size pa perm s = Ok r (set_mm m' s) ∧ vm_step (mm s) m' pgdir l l'
    ∧ (∀ a, 0 ≤ a < 2 ^ 32 → xlate (m_pages m') pgdir a = mapped (xlate (m_pages (mm s)) pgdir) va pa perm k a)
    ∧ (r = 0 ∧ Z.of_nat k = last_page va size + 1 ∨ r = -1 ∧ Z.of_nat k ≤ last_page va size ∧ l' = []).
Proof.
  intros Hf Hk Hw V1 V2 V3 P1 P2 P3 Hperm Hnone. unfold mappages. rewrite (u32_small (va + size - 1)) by lia. cbv zeta.
  rewrite (pgrounddown_eq (va + size - 1)) by lia. rewrite pgrounddown_eq in * by lia.
  pose proof (Z.div_mod va PGSIZE ltac:(done)) as D1. pose proof (Z.div_mod (va + size - 1) PGSIZE ltac:(done)) as D2.
  pose proof (Z.mod_pos_bound va PGSIZE ltac:(done)) as B1. pose proof (Z.mod_pos_bound (va + size - 1) PGSIZE ltac:(done)) as B2.
  assert (va / PGSIZE ≤ (va + size - 1) / PGSIZE) as Hle by (apply Z.div_le_mono; [done|lia]).
  set (n := Z.to_nat (last_page va size)). assert (Z.of_nat n = last_page va size) as En by (unfold n, last_page in *; lia).
  set (a := va - va mod PGSIZE) in *.
  assert (va + size - 1 - (va + size - 1) mod PGSIZE = a + Z.of_nat n * PGSIZE) as ->.
  { rewrite En. unfold last_page, a. lia. }
  replace (a + Z.of_nat n * PGSIZE - a) with (Z.of_nat n * PGSIZE) by lia.
  assert (a mod PGSIZE = 0) as Ha by (replace a with (va / PGSIZE * PGSIZE) by (unfold a; lia); by apply Z.mod_mul).
  assert (0 ≤ a ∧ a + (Z.of_nat n + 1) * PGSIZE ≤ 2 ^ 32) as [A1 A2].
  { rewrite En. pose proof (Z.div_pos va PGSIZE V1 ltac:(done)).
    assert ((va + size - 1) / PGSIZE < 2 ^ 20) by (apply Z.div_lt_upper_bound; [done|unfold PGSIZE; lia]).
    unfold a, last_page, PGSIZE in *. lia. }
  rewrite u32_small by (unfold PGSIZE in *; lia). rewrite Z.div_mul, Nat2Z.id by done.
  destruct (mappages_loop_ok pgdir perm i c n (S n) a pa l s Hf Hk Hw ltac:(lia) A1 Ha A2 P1 P2 ltac:(by rewrite En) Hperm)
    as (r & m' & l' & k & R & S & X & Hr).
  - intros j Hj. apply Hnone. lia.
  - exists r, m', l', k. split; [done|]. split; [done|]. split; [|destruct Hr as [(-> & ->)|(-> & ? & ->)]; [left|right]; lia || (split; [done|]; split; [lia|done])].
    intros b Hb. rewrite X by done. unfold mapped. by replace (a / PGSIZE) with (va / PGSIZE)
      by (replace a with (va / PGSIZE * PGSIZE) by (unfold a; lia); by rewrite Z.div_mul).
Qed.

(** A page that is mapped already is not mapped again. *)
Lemma mappages_remap pgdir perm va size pa l s e :
  pt_wf (m_pages (mm s)) pgdir l → 0 ≤ va < 2 ^ 32 → xlate (m_pages (mm s)) pgdir va = Some e →
  mappages pgdir va size pa perm s = Panic "remap".
Proof.
  intros Hw Hva Hx. unfold mappages. cbn [mappages_loop]. pose proof (pgrounddown_eq va Hva) as Ea.
  pose proof (Z.mod_pos_bound va PGSIZE ltac:(done)) as B. pose proof (Z.div_mod va PGSIZE ltac:(done)) as D.
  pose proof (Z.div_pos va PGSIZE ltac:(lia) ltac:(done)) as Q.
  set (a := PGROUNDDOWN va) in *. assert (0 ≤ a < 2 ^ 32) as Ha by (unfold PGSIZE in *; lia).
  assert (a / PGSIZE = va / PGSIZE) as Ep by (replace a with (va / PGSIZE * PGSIZE) by lia; by rewrite Z.div_mul).
  apply same_page in Ep as [Ed Et]; [|done|done].
  unfold xlate, pte in Hx. rewrite <- Ed, <- Et in Hx. destruct (has (pde _ _ _) _) eqn:Hp; [|done].
  destruct (walk_found pgdir l a true s Hw Ha Hp) as [R N]. rewrite (bind_ok _ _ _ _ _ R). apply Z.eqb_neq in N as ->.
  unfold pte_addr. rewrite (bind_ok _ _ _ _ _ (load_pte pgdir l a s Hw Ha Hp)). unfold pte.
  by destruct (has (rd _ _ _) _).
Qed.

End mapping.

(** ** Shared memory *)

Section shared_memory.
Context {Xf : Type} `{Linker}.
Implicit Types (s : kstate (mem * Xf)) (m : mem).

(** Process [p] runs on CPU [i] and holds neither lock. *)
Record shm_caller s (i : nat) (c : cpu) (p : nat) (pr : proc) : Prop := ShmCaller {
  sc_at : mach_at (k_mach s) i c;
  sc_ncli : 0 ≤ ncli c < 2 ^ 31 - 17;
  sc_cur : cproc c = Some p;
  sc_shmem : locks (k_mach s) !! L_shmem = None;
  sc_kmem : locks (k_mach s) !! L_kmem = None;
  sc_rest : at_rest s i c;
  sc_proc : k_ptable s !! p = Some pr
}.

(** The state inside the critical section, with memory [m]. *)
Definition shm_inside s (i : nat) (c : cpu) m : kstate (mem * Xf) :=
  set_mm m (set_k_mach (acquired L_shmem i c (k_mach s)) s).

Lemma shm_enter {B} (k : nat → K (kstate (mem * Xf)) B) s i c p pr :
  shm_caller s i c p pr → (p ← curproc; acquire L_shmem;; k p) s = k p (shm_inside s i c (mm s)).
Proof.
  intros [H1 H2 H3 H4 H5 H6 H7]. rewrite (bind_ok _ _ _ _ _ (curproc_ok s i c p H1 ltac:(lia) H3)).
  rewrite <- H6, set_mach_id. rewrite (bind_acquire L_shmem _ i c s) by (done || lia). unfold shm_inside. f_equal.
  by destruct s as [?????????[]].
Qed.

Lemma shm_release s s1 i c p pr : shm_caller s i c p pr → k_mach s1 = acquired L_shmem i c (k_mach s) →
  release L_shmem s1 = Ok tt (set_k_mach (k_mach s) s1).
Proof.
  intros [H1 H2 H3 H4 H5 H6 H7] E. rewrite (krelease_acquired L_shmem (k_mach s) s1 i c) by (done || lia). by rewrite <- H6.
Qed.

(** A message was printed. *)
Definition said (txt : string) s : kstate (mem * Xf) := set_k_out (k_out s ++ str txt ++ NL) s.

Lemma message_ok txt s : cprintf_loop (str txt) [] = Some (str txt) → message txt s = Ok tt (said txt s).
Proof.
  intros E. unfold message, cprintf. rewrite E, bind_kmodify. unfold put_text, kmodify, said. cbn. by rewrite app_assoc.
Qed.

(** Failing inside the critical section, with a message. *)
Lemma shm_fail s i c p pr m txt (r : Z) :
  shm_caller s i c p pr → cprintf_loop (str txt) [] = Some (str txt) →
  (message txt;; release L_shmem;; mret r) (shm_inside s i c m) = Ok r (said txt (set_mm m s)).
Proof.
  intros Hs E. rewrite (bind_ok _ _ _ _ _ (message_ok _ _ E)), (bind_ok _ _ _ _ _ (shm_release s (said txt (shm_inside s i c m)) i c p pr Hs eq_refl)).
  by destruct s.
Qed.

(** The allocator can be called inside. *)
Lemma shm_kmem_free s i c p pr m : shm_caller s i c p pr → kmem_free (shm_inside s i c m) i (push_cpu (eflags_if (k_mach s)) c).
Proof.
  intros [H1 H2 H3 H4 H5 H6 H7] _. pose proof (mach_at_acquired _ _ _ L_shmem H1) as Hat. split.
  - split; [done|rewrite ncli_push; lia|]. 
    change (locks (acquired L_shmem i c (k_mach s)) !! L_kmem = None). by rewrite locks_acquired_ne.
  - apply settled_busy; [done|]. rewrite ncli_push. lia.
Qed.

Lemma one_page va : va mod PGSIZE = 0 → last_page va PGSIZE = 0.
Proof.
  intros E. unfold last_page. pose proof (Z.div_mod va PGSIZE ltac:(done)) as D. rewrite E in D.
  replace (va + PGSIZE - 1) with ((PGSIZE - 1) + va / PGSIZE * PGSIZE) by lia. rewrite Z.div_add by done.
  rewrite (Z.div_small (PGSIZE - 1)) by done. lia.
Qed.

Lemma pgroundup_aligned sz : 0 ≤ sz → sz + 2 * PGSIZE ≤ KERNBASE →
  0 ≤ PGROUNDUP sz ∧ sz ≤ PGROUNDUP sz ∧ PGROUNDUP sz + PGSIZE ≤ KERNBASE ∧ PGROUNDUP sz mod PGSIZE = 0.
Proof.
  intros H1 H2. unfold KERNBASE in *. rewrite pgroundup_eq by (unfold PGSIZE in *; lia).
  pose proof (Z.div_mod (sz + PGSIZE - 1) PGSIZE ltac:(done)) as D. pose proof (Z.mod_pos_bound (sz + PGSIZE - 1) PGSIZE ltac:(done)).
  rewrite Z.mod_mul by done. unfold PGSIZE in *. lia.
Qed.

(** The page of shared memory goes behind the caller's memory. *)
Definition can_attach m (pr : proc) (l : list Z) : Prop :=
  pt_wf (m_pages m) (p_pgdir pr) l ∧ 0 ≤ p_sz pr ∧ p_sz pr + 2 * PGSIZE ≤ KERNBASE
  ∧ xlate (m_pages m) (p_pgdir pr) (PGROUNDUP (p_sz pr)) = None.

Lemma shmem_map_ok s i c p pr m l phys :
  shm_caller s i c p pr → kmem_wf m l → can_attach m pr l → 0 ≤ phys → phys mod PGSIZE = 0 → phys + PGSIZE ≤ 2 ^ 32 →
  ∃ r m' l', shmem_map p phys (shm_inside s i c m) = Ok r (shm_inside s i c m') ∧ vm_step m m' (p_pgdir pr) l l'
    ∧ (r = 0 ∧ (∀ va, 0 ≤ va < 2 ^ 32 → xlate (m_pages m') (p_pgdir pr) va
                  = mapped (xlate (m_pages m) (p_pgdir pr)) (PGROUNDUP (p_sz pr)) phys (Z.lor PTE_W PTE_U) 1 va)
       ∨ r = -1 ∧ l' = []).
Proof.
  intros Hs Hk (Hw & Z1 & Z2 & Hn) P1 P2 P3. unfold shmem_map.
  rewrite (bind_ok _ _ _ _ _ (get_proc_ok (shm_inside s i c m) p pr (sc_proc _ _ _ _ _ Hs))).
  destruct (pgroundup_aligned _ Z1 Z2) as (A1 & _ & A2 & A3). unfold KERNBASE in A2. set (va := PGROUNDUP (p_sz pr)) in *.
  destruct (mappages_ok (p_pgdir pr) (Z.lor PTE_W PTE_U) va PGSIZE phys l (shm_inside s i c m) i _
    (shm_kmem_free s i c p pr m Hs) Hk Hw A1 ltac:(done) ltac:(lia) P1 P2) as (r & m' & l' & k & R & S & X & Hr).
  - rewrite one_page by done. lia.
  - done.
  - rewrite one_page by done. intros j Hj. replace j with 0 by lia. rewrite Z.mul_0_l, Z.add_0_r.
    rewrite pgrounddown_eq, A3, Z.sub_0_r by (unfold PGSIZE in *; lia). done.
  - exists r, m', l'. split; [done|]. split; [done|]. rewrite one_page in Hr by done.
    destruct Hr as [(-> & Hk1)|(-> & _ & ->)]; [left|by right]. split; [done|]. by replace k with 1%nat in X by lia.
Qed.

(** What a caller has when shared memory is attached at [va]. *)
Definition attached_proc (pr : proc) : proc :=
  set_p_sz (p_sz pr + PGSIZE) (set_p_shmemaddr (PGROUNDUP (p_sz pr)) pr).

Lemma shmem_done_ok s i c p pr m : shm_caller s i c p pr → 0 ≤ p_sz pr → p_sz pr + 2 * PGSIZE ≤ KERNBASE →
  shmem_done p (shm_inside s i c m)
  = Ok (PGROUNDUP (p_sz pr)) (set_k_ptable (<[p := attached_proc pr]> (k_ptable s)) (set_mm m s)).
Proof.
  intros Hs Z1 Z2. unfold shmem_done. pose proof (sc_proc _ _ _ _ _ Hs) as Hp.
  rewrite (bind_ok _ _ _ _ _ (get_proc_ok (shm_inside s i c m) p pr Hp)). cbv zeta. rewrite !bind_alter_proc.
  match goal with |- (release L_shmem ≫= _) ?s1 = _ => rewrite (bind_ok _ _ _ _ _ (shm_release s s1 i c p pr Hs eq_refl)) end.
  unfold mret, K_ret. f_equal. unfold shm_inside, set_mm.
  replace (alter _ p (k_ptable _)) with (<[p := attached_proc pr]> (k_ptable s)); [by destruct s|].
  cbn. rewrite (list_alter_as_insert _ (alter _ _ _) p (set_p_shmemaddr (PGROUNDUP (p_sz pr)) pr)).
  - rewrite (list_alter_as_insert _ _ p pr Hp), list_insert_insert_eq. unfold attached_proc. f_equal. cbn.
    rewrite u32_small by (unfold KERNBASE, PGSIZE in *; lia). done.
  - rewrite (list_alter_as_insert _ _ p pr Hp). apply list_lookup_insert_eq. by eapply lookup_lt_Some.
Qed.

Lemma kmem_wf_shmem m l v : kmem_wf m l → kmem_wf (set_m_shmem v m) l.
Proof. intros []. by split. Qed.

(** The outcomes of a call that got as far as mapping page [phys]: attached, with
    [e'] in entry [k] of the table, or failed, with [shmemtable.lock] still held. *)
Definition attached s (p : nat) (pr : proc) (k : nat) (e' : shpage) (r : res (kstate (mem * Xf)) Z) m' : Prop :=
  r = Ok (PGROUNDUP (p_sz pr)) (set_k_ptable (<[p := attached_proc pr]> (k_ptable s)) (set_mm m' s))
  ∧ m_shmem m' = <[k := e']> (m_shmem (mm s))
  ∧ ∀ va, 0 ≤ va < 2 ^ 32 → xlate (m_pages m') (p_pgdir pr) va
      = mapped (xlate (m_pages (mm s)) (p_pgdir pr)) (PGROUNDUP (p_sz pr)) (sh_physicalAddr e') (Z.lor PTE_W PTE_U) 1 va.

Definition stuck s (i : nat) (c : cpu) (r : res (kstate (mem * Xf)) Z) : Prop :=
  ∃ m', r = Ok (u32 (-1)) (set_mm m' (set_k_mach (acquired L_shmem i c (k_mach s)) s)) ∧ kmem_wf m' [].

Lemma open_known s i c p pr l id k e :
  shm_caller s i c p pr → kmem_wf (mm s) l → can_attach (mm s) pr l →
  find_index (λ e, sh_id e =? id) (m_shmem (mm s)) = Some k → m_shmem (mm s) !! k = Some e →
  0 ≤ sh_physicalAddr e → sh_physicalAddr e mod PGSIZE = 0 → sh_physicalAddr e + PGSIZE ≤ 2 ^ 32 →
  (∃ m' l', attached s p pr k (set_sh_n_access (s32 (sh_n_access e + 1)) e) (openshmem id s) m'
     ∧ vm_step (set_m_shmem (<[k := set_sh_n_access (s32 (sh_n_access e + 1)) e]> (m_shmem (mm s))) (mm s)) m' (p_pgdir pr) l l')
  ∨ stuck s i c (openshmem id s).
Proof.
  intros Hs Hk Hc Hf He P1 P2 P3. unfold openshmem. rewrite (shm_enter _ s i c p pr Hs), bind_mgets.
  change (mm (shm_inside s i c (mm s))) with (mm s). rewrite Hf. unfold alter_shpage. rewrite bind_mmodify, bind_mgets.
  set (e' := set_sh_n_access (s32 (sh_n_access e + 1)) e). set (m1 := set_m_shmem (<[k := e']> (m_shmem (mm s))) (mm s)).
  replace (set_mm _ (shm_inside s i c (mm s))) with (shm_inside s i c m1).
  2:{ unfold shm_inside, m1. rewrite set_mm_set, mm_set. by rewrite (list_alter_as_insert _ _ k e He). }
  change (mm (shm_inside s i c m1)) with m1. assert (m_shmem m1 !! k = Some e') as ->.
  { apply list_lookup_insert_eq. by eapply lookup_lt_Some. }
  cbn [fmap option_fmap option_map default].
  destruct (shmem_map_ok s i c p pr m1 l (sh_physicalAddr e') Hs (kmem_wf_shmem _ _ _ Hk) Hc P1 P2 P3)
    as (r & m' & l' & R & S & [(-> & X)|(-> & ->)]); rewrite (bind_ok _ _ _ _ _ R).
  - left. exists m', l'. split; [|done]. destruct Hc as (_ & Z1 & Z2 & _).
    split; [by apply shmem_done_ok|]. split; [apply S|done].
  - right. exists m'. split; [done|]. apply S.
Qed.

(** A fresh page. *)
Lemma vm_step_fresh m l a pgdir : kmem_wf m (a :: l) → pt_wf (m_pages m) pgdir (a :: l) → a ∉ l ∧ ¬ in_tables (m_pages m) pgdir a.
Proof.
  intros Hk [[_ D] T _]. pose proof (kw_nodup _ _ Hk) as Hn. apply list.NoDup_cons in Hn as [Hn _]. split; [done|].
  intros [->|(i & Hi & Hp & <-)]; [apply D; by left|]. destruct (T i Hi Hp) as (_ & T2 & _). apply T2. by left.
Qed.

Lemma pt_wf_tail pg pgdir a l : pt_wf pg pgdir (a :: l) → pt_wf pg pgdir l.
Proof.
  intros [[D1 D2] T I]. apply not_elem_of_cons in D2 as [_ D2]. split; [done| |done].
  intros i Hi Hp. destruct (T i Hi Hp) as (T1 & T2 & T3). by apply not_elem_of_cons in T2 as [_ T2].
Qed.

(** Contents of pages outside the table do not matter to it. *)
Lemma xlate_insert_ne pg pgdir a d va : ¬ in_tables pg pgdir a → 0 ≤ va < 2 ^ 32 → xlate (<[a := d]> pg) pgdir va = xlate pg pgdir va.
Proof.
  intros Hn Hv. assert (a ≠ pgdir) as Ha by (intros ->; apply Hn; by left). destruct (index_bounds va Hv) as [Hi _].
  unfold xlate, pte. rewrite pde_insert_ne, table_insert_ne by done. destruct (has (pde _ _ _) _) eqn:E; [|done].
  rewrite page_insert_ne; [done|]. intros ->. apply Hn. right. by exists (PDX va).
Qed.

Lemma v2p_good a : good_page a → 0 ≤ V2P a ∧ V2P a mod PGSIZE = 0 ∧ V2P a + PGSIZE ≤ 2 ^ 32.
Proof.
  intros (H1 & _ & H2). unfold V2P, KERNBASE, PHYSTOP, PGSIZE in *. rewrite u32_small by lia. split; [lia|]. split; [|lia].
  replace (a - 2 ^ 31) with (a + (-524288) * 4096) by lia. by rewrite Z.mod_add.
Qed.

Lemma open_new s i c p pr l id k e :
  shm_caller s i c p pr → kmem_wf (mm s) l → can_attach (mm s) pr l →
  find_index (λ e, sh_id e =? id) (m_shmem (mm s)) = None →
  find_index (λ e, sh_id e =? 0) (m_shmem (mm s)) = Some k → m_shmem (mm s) !! k = Some e →
  match l with
  | [] => ∃ m', openshmem id s = Ok (u32 (-1)) (said "shared memory: out of memory" (set_mm m' s)) ∧ m_shmem m' = <[k := set_sh_id id e]> (m_shmem (mm s))
  | a :: l1 =>
      (∃ m' l', attached s p pr k (ShPage id (s32 (sh_n_access e + 1)) (V2P a)) (openshmem id s) m'
         ∧ kmem_wf m' l' ∧ l' `suffix_of` l1 ∧ m_pages m' !! a = Some (replicate (Z.to_nat PGSIZE) 0))
      ∨ stuck s i c (openshmem id s)
  end.
Proof.
  intros Hs Hk Hc Hf Hfree He. unfold openshmem. rewrite (shm_enter _ s i c p pr Hs), bind_mgets.
  change (mm (shm_inside s i c (mm s))) with (mm s). rewrite Hf, Hfree. unfold alter_shpage. rewrite bind_mmodify.
  set (m1 := set_m_shmem (<[k := set_sh_id id e]> (m_shmem (mm s))) (mm s)).
  replace (set_mm _ (shm_inside s i c (mm s))) with (shm_inside s i c m1)
    by (unfold shm_inside, m1; rewrite set_mm_set, mm_set; by rewrite (list_alter_as_insert _ _ k e He)).
  destruct (kalloc_ok (shm_inside s i c m1) i _ l (shm_kmem_free s i c p pr m1 Hs) (kmem_wf_shmem _ _ _ Hk)) as (m2 & R2 & K2 & P2 & U2 & S2).
  rewrite (bind_ok _ _ _ _ _ R2). change (mm (shm_inside s i c m1)) with m1 in *. change (set_mm m2 (shm_inside s i c m1)) with (shm_inside s i c m2).
  assert (m_shmem m2 !! k = Some (set_sh_id id e)) as E2.
  { rewrite S2. apply list_lookup_insert_eq. by eapply lookup_lt_Some. }
  destruct l as [|a l1]; cbn [hd tl] in *.
  { rewrite Z.eqb_refl, (shm_fail s i c p pr m2) by done. by exists m2. }
  destruct (kmem_wf_take _ _ _ Hk) as (d & Hd & _ & Ha0 & _). apply Z.eqb_neq in Ha0 as ->.
  pose proof (kw_good _ _ Hk) as Hg. apply list.Forall_cons in Hg as [Hg _]. destruct (v2p_good a Hg) as (G1 & G2 & G3).
  destruct Hc as (Hw & Z1 & Z2 & Hn). destruct (vm_step_fresh _ _ _ _ Hk Hw) as [Fa Fb].
  unfold memset_page. rewrite (bind_ok _ _ _ _ _ (set_page_ok a d _ (shm_inside s i c m2) ltac:(cbn; by rewrite P2))).
  rewrite bind_mmodify. set (pg := <[a := replicate (Z.to_nat PGSIZE) 0]> (m_pages m2)).
  set (m4 := set_m_shmem (<[k := ShPage id (sh_n_access e) (V2P a)]> (m_shmem m2)) (set_m_pages pg m2)).
  replace (set_mm _ (set_mm _ (shm_inside s i c m2))) with (shm_inside s i c m4).
  2:{ unfold shm_inside, m4. rewrite !set_mm_set, !mm_set. cbn [m_shmem set_m_pages]. by rewrite (list_alter_as_insert _ _ k _ E2). }
  assert (m_pages m4 = <[a := replicate (Z.to_nat PGSIZE) 0]> (m_pages (mm s))) as P4 by (cbn; unfold pg; by rewrite P2).
  assert (kmem_wf m4 l1) as K4 by (apply kmem_wf_shmem, kmem_wf_page; [done|done|apply length_replicate]).
  assert (can_attach m4 pr l1) as C4.
  { split; [|split; [done|split; [done|]]]; rewrite P4.
    - apply pt_wf_insert; [by eapply pt_wf_tail| |apply length_replicate]. intros ->. apply Fb. by left.
    - destruct (pgroundup_aligned _ Z1 Z2) as (A1 & _ & A2 & _). unfold KERNBASE, PGSIZE in A2. rewrite xlate_insert_ne; [done|done|lia]. }
  destruct (shmem_map_ok s i c p pr m4 l1 (V2P a) Hs K4 C4 G1 G2 G3) as (r & m' & l' & R & S & [(-> & X)|(-> & ->)]);
    rewrite (bind_ok _ _ _ _ _ R); [left|right; exists m'; split; [done|apply S]].
  cbn [Z.ltb Z.compare]. rewrite bind_mmodify. set (m5 := set_m_shmem (<[k := ShPage id (s32 (sh_n_access e + 1)) (V2P a)]> (m_shmem (mm s))) m').
  assert (m_shmem m4 = <[k := ShPage id (sh_n_access e) (V2P a)]> (m_shmem (mm s))) as E4.
  { unfold m4. cbn. rewrite S2. unfold m1. cbn. by rewrite list_insert_insert_eq. }
  replace (set_mm _ (shm_inside s i c m')) with (shm_inside s i c m5).
  2:{ unfold shm_inside, m5. rewrite set_mm_set, mm_set, (vs_shmem _ _ _ _ _ S), E4.
      rewrite (list_alter_as_insert _ _ k (ShPage id (sh_n_access e) (V2P a))) by (apply list_lookup_insert_eq; by eapply lookup_lt_Some).
      by rewrite list_insert_insert_eq. }
  exists m5, l'. split; [split; [by apply shmem_done_ok|]|].
  - split; [done|]. intros va Hv. cbn [m_pages m5 set_m_shmem sh_physicalAddr]. rewrite X by done. apply mapped_ext.
    rewrite P4. by apply xlate_insert_ne.
  - split; [by apply kmem_wf_shmem, S|]. split; [apply S|]. cbn.
    assert (¬ in_tables (m_pages m4) (p_pgdir pr) a) as Fb'.
    { rewrite P4. assert (a ≠ p_pgdir pr) by (intros ->; apply Fb; by left). intros [->|(j & J1 & J2 & J3)]; [done|].
      rewrite pde_insert_ne in J2 by done. rewrite table_insert_ne in J3 by done. apply Fb. right. by exists j. }
    destruct (vs_frame _ _ _ _ _ S a Fa Fb') as [-> _]. rewrite P4. apply lookup_insert_eq.
Qed.

Lemma pgroundup_id a : 0 ≤ a → a + PGSIZE ≤ 2 ^ 32 → a mod PGSIZE = 0 → PGROUNDUP a = a.
Proof.
  intros H1 H2 H3. rewrite pgroundup_eq by done. pose proof (Z.div_mod a PGSIZE ltac:(done)) as D. rewrite H3 in D.
  replace (a + PGSIZE - 1) with ((PGSIZE - 1) + a / PGSIZE * PGSIZE) by lia. rewrite Z.div_add by done.
  rewrite (Z.div_small (PGSIZE - 1)) by done. lia.
Qed.

(** The table's entry after [closeshmem]. *)
Definition closed (e : shpage) : shpage :=
  let e' := set_sh_n_access (s32 (sh_n_access e - 1)) e in
  if sh_n_access e' =? 0 then set_sh_id 0 e' else e'.

Lemma close_known s i c p pr l id k e :
  shm_caller s i c p pr → pt_wf (m_pages (mm s)) (p_pgdir pr) l →
  find_index (λ e, sh_id e =? id) (m_shmem (mm s)) = Some k → m_shmem (mm s) !! k = Some e →
  0 ≤ p_shmemaddr pr → p_shmemaddr pr + PGSIZE ≤ 2 ^ 32 → p_shmemaddr pr mod PGSIZE = 0 →
  has (pde (m_pages (mm s)) (p_pgdir pr) (PDX (p_shmemaddr pr))) PTE_P = true →
  closeshmem id s = Ok 0 (set_mm (set_m_shmem (<[k := closed e]> (m_shmem (mm s)))
    (set_m_pages (set_pte (m_pages (mm s)) (p_pgdir pr) (p_shmemaddr pr) 0) (mm s))) s).
Proof.
  intros Hs Hw Hf He V1 V2 V3 Hp. unfold closeshmem. rewrite (shm_enter _ s i c p pr Hs), bind_mgets.
  change (mm (shm_inside s i c (mm s))) with (mm s). rewrite Hf. unfold alter_shpage. rewrite bind_mmodify.
  set (e' := set_sh_n_access (s32 (sh_n_access e - 1)) e). set (m1 := set_m_shmem (<[k := e']> (m_shmem (mm s))) (mm s)).
  replace (set_mm _ (shm_inside s i c (mm s))) with (shm_inside s i c m1)
    by (unfold shm_inside, m1; rewrite set_mm_set, mm_set; by rewrite (list_alter_as_insert _ _ k e He)).
  rewrite (bind_ok _ _ _ _ _ (get_proc_ok (shm_inside s i c m1) p pr (sc_proc _ _ _ _ _ Hs))), pgroundup_id by done.
  assert (0 ≤ p_shmemaddr pr < 2 ^ 32) as Hva by (unfold PGSIZE in *; lia).
  destruct (walk_found (p_pgdir pr) l (p_shmemaddr pr) false (shm_inside s i c m1) Hw Hva Hp) as [R N].
  rewrite (bind_ok _ _ _ _ _ R). apply Z.eqb_neq in N as ->.
  rewrite (bind_ok _ _ _ _ _ (store_pte (p_pgdir pr) l _ 0 (shm_inside s i c m1) Hw Hva Hp)), bind_mgets.
  change (mm (shm_inside s i c m1)) with m1. set (m2 := set_m_pages _ m1).
  change (set_mm m2 (shm_inside s i c m1)) with (shm_inside s i c m2). change (mm (shm_inside s i c m2)) with m2.
  assert (m_shmem m2 !! k = Some e') as E2 by (apply list_lookup_insert_eq; by eapply lookup_lt_Some).
  rewrite E2. change (default 1 (sh_n_access <$> Some e')) with (sh_n_access e').
  set (m3 := set_m_shmem (<[k := closed e]> (m_shmem (mm s))) m2).
  rewrite (bind_ok _ _ _ tt (shm_inside s i c m3)).
  - rewrite (bind_ok _ _ _ _ _ (shm_release s (shm_inside s i c m3) i c p pr Hs eq_refl)). unfold mret, K_ret. by destruct s.
  - unfold closed in m3. fold e' in m3. cbv zeta in m3. destruct (sh_n_access e' =? 0); unfold mret, K_ret.
    + change (Ok tt (shm_inside s i c (set_m_shmem (alter (set_sh_id 0) k (m_shmem m2)) m2)) = Ok tt (shm_inside s i c m3)).
      rewrite (list_alter_as_insert _ _ k e' E2). unfold m3. cbn. by rewrite list_insert_insert_eq.
    + done.
Qed.

Lemma close_unknown s i c p pr id :
  shm_caller s i c p pr → find_index (λ e, sh_id e =? id) (m_shmem (mm s)) = None → closeshmem id s = Ok (-1) (said "No shared memory with this ID." s).
Proof.
  intros Hs Hf. unfold closeshmem. rewrite (shm_enter _ s i c p pr Hs), bind_mgets.
  change (mm (shm_inside s i c (mm s))) with (mm s). rewrite Hf.
  rewrite (bind_ok _ _ _ _ _ (shm_release s (shm_inside s i c (mm s)) i c p pr Hs eq_refl)).
  rewrite (bind_ok _ _ _ _ _ (message_ok "No shared memory with this ID." _ eq_refl)). unfold mret, K_ret. f_equal. by destruct s as [?????????[]].
Qed.

(** A page below the size that is not mapped stops [copyuvm]. *)
Lemma copyuvm_hole pgdir d va sz l fuel s :
  pt_wf (m_pages (mm s)) pgdir l → 0 ≤ va < 2 ^ 32 → va < sz → has (pde (m_pages (mm s)) pgdir (PDX va)) PTE_P = true →
  xlate (m_pages (mm s)) pgdir va = None → copyuvm_loop (S fuel) pgdir d va sz s = Panic "copyuvm: page not present".
Proof.
  intros Hw Hva Hlt Hp Hx. cbn [copyuvm_loop]. apply Z.ltb_lt in Hlt as ->. cbn [negb].
  destruct (walk_found pgdir l va false s Hw Hva Hp) as [R N]. rewrite (bind_ok _ _ _ _ _ R). apply Z.eqb_neq in N as ->.
  unfold pte_addr. rewrite (bind_ok _ _ _ _ _ (load_pte pgdir l va s Hw Hva Hp)). unfold xlate in Hx. rewrite Hp in Hx.
  by destruct (has (pte _ _ _) _).
Qed.

End shared_memory.

(** ** Properties *)

(** C16: [mappages] maps every page of the range [va, va + size) to the physical
    pages from [pa] on with the given permissions and changes no other
    translation of the directory; when memory for page tables runs out it returns
    -1 with a prefix mapped.  The tables stay separate pages taken from the free
    list, and no other page of memory changes.  A range whose first page is
    mapped already panics. *)
Theorem mappages_correct {Xf : Type} `{Linker} (s : kstate (mem * Xf)) i c l pgdir va size pa perm :
  kmem_free s i c → kmem_wf (mm s) l → pt_wf (m_pages (mm s)) pgdir l →
  0 ≤ va → 0 < size → va + size ≤ 2 ^ 32 → 0 ≤ pa → pa mod PGSIZE = 0 →
  pa + (last_page va size + 1) * PGSIZE ≤ 2 ^ 32 → 0 ≤ perm < 4096 →
  ((∀ j, 0 ≤ j ≤ last_page va size → xlate (m_pages (mm s)) pgdir (PGROUNDDOWN va + j * PGSIZE) = None) →
   ∃ r m' l' k, mappages pgdir va size pa perm s = Ok r (set_mm m' s) ∧ vm_step (mm s) m' pgdir l l'
     ∧ (∀ a, 0 ≤ a < 2 ^ 32 → xlate (m_pages m') pgdir a = mapped (xlate (m_pages (mm s)) pgdir) va pa perm k a)
     ∧ (r = 0 ∧ Z.of_nat k = last_page va size + 1 ∨ r = -1 ∧ Z.of_nat k ≤ last_page va size ∧ l' = []))
  ∧ (∀ e, xlate (m_pages (mm s)) pgdir va = Some e → mappages pgdir va size pa perm s = Panic "remap").
Proof.
  intros Hf Hk Hw V1 V2 V3 P1 P2 P3 Hperm. split; [intros Hn; by apply (mappages_ok pgdir perm va size pa l s i c)|].
  intros e He. apply (mappages_remap pgdir perm va size pa l s e Hw); [lia|done].
Qed.

(** C32: [openshmem].  A known id maps the page recorded for it, user-writable,
    behind the caller's memory and counts the access, so that all processes that
    open an id see one physical page; a new id takes a free entry and a zeroed
    page of its own.  The caller's size grows by a page and no other translation
    changes.  A full table and exhausted memory give -1; when only the page table
    cannot be extended, the call returns -1 with the table's lock still held. *)
Theorem openshmem_correct {Xf : Type} `{Linker} (s : kstate (mem * Xf)) i c p pr l id :
  shm_caller s i c p pr → kmem_wf (mm s) l → can_attach (mm s) pr l →
  match find_index (λ e, sh_id e =? id) (m_shmem (mm s)) with
  | Some k => ∀ e, m_shmem (mm s) !! k = Some e → 0 ≤ sh_physicalAddr e → sh_physicalAddr e mod PGSIZE = 0 →
      sh_physicalAddr e + PGSIZE ≤ 2 ^ 32 →
      (∃ m', attached s p pr k (set_sh_n_access (s32 (sh_n_access e + 1)) e) (openshmem id s) m')
      ∨ stuck s i c (openshmem id s)
  | None => match find_index (λ e, sh_id e =? 0) (m_shmem (mm s)) with
      | None => openshmem id s = Ok (u32 (-1)) (said "shared memory: pages are full" s)
      | Some k => ∀ e, m_shmem (mm s) !! k = Some e → match l with
          | [] => ∃ m', openshmem id s = Ok (u32 (-1)) (said "shared memory: out of memory" (set_mm m' s)) ∧ m_shmem m' = <[k := set_sh_id id e]> (m_shmem (mm s))
          | a :: l1 =>
              (∃ m' l', attached s p pr k (ShPage id (s32 (sh_n_access e + 1)) (V2P a)) (openshmem id s) m'
                 ∧ kmem_wf m' l' ∧ l' `suffix_of` l1 ∧ m_pages m' !! a = Some (replicate (Z.to_nat PGSIZE) 0))
              ∨ stuck s i c (openshmem id s)
          end
      end
  end.
Proof.
  intros Hs Hk Hc. destruct (find_index (λ e, sh_id e =? id) _) as [k|] eqn:Hf.
  - intros e He P1 P2 P3. destruct (open_known s i c p pr l id k e Hs Hk Hc Hf He P1 P2 P3) as [(m' & l' & ? & _)|?]; [left; by exists m'|by right].
  - destruct (find_index (λ e, sh_id e =? 0) _) as [k|] eqn:Hfree; [intros e He; by apply (open_new s i c p pr l id k e)|].
    unfold openshmem. rewrite (shm_enter _ s i c p pr Hs), bind_mgets. change (mm (shm_inside s i c (mm s))) with (mm s).
    rewrite Hf, Hfree, (shm_fail s i c p pr (mm s)) by done. by rewrite set_mm_id.
Qed.

(** An empty page directory in [page0], two free pages, and one process. *)
Definition sample_vm (tab : list shpage) : mem :=
  Mem (<[page0 := sample_page 0]> (m_pages sample_mem)) 1 page1 tab.

Definition sample_user (addr : Z) : proc :=
  set_p_shmemaddr addr (set_p_sz (addr + PGSIZE) (set_p_pgdir page0 (sample_proc RUNNING 7 None))).

Definition sample_vm_state (m : mem) (pr : proc) : kstate (mem * unit) :=
  set_mm m (set_k_ptable [pr] sample_mem_state).

Lemma sample_vm_kmem tab : @kmem_wf sample_linker (sample_vm tab) [page1; page2].
Proof.
  apply (kmem_wf_shmem (set_m_pages (m_pages (sample_vm tab)) sample_mem) _ tab).
  apply (kmem_wf_page sample_mem); [apply sample_mem_wf|not_listed|apply length_replicate].
Qed.

Lemma sample_vm_pt tab : pt_wf (m_pages (sample_vm tab)) page0 [page1; page2].
Proof.
  assert (∀ i, 0 ≤ i < NPDENTRIES → pde (m_pages (sample_vm tab)) page0 i = 0) as E.
  { intros i Hi. unfold pde, sample_vm, m_pages at 1. rewrite page_insert_eq. unfold sample_page.
    apply rd_zero_page. unfold NPDENTRIES, PGSIZE in *. lia. }
  split.
  - split; [|not_listed]. do 3 (split; [vm_compute; congruence|]). eexists. split; [reflexivity|apply length_replicate].
  - intros i Hi. rewrite E by done. discriminate.
  - intros i j Hi Hj. rewrite E by done. discriminate.
Qed.

Lemma sample_shm_caller m pr : shm_caller (sample_vm_state m pr) 0 sample_cpu 0 pr.
Proof. split; [by split|vm_compute; split; congruence|reflexivity|reflexivity|reflexivity|reflexivity|reflexivity]. Qed.

(** Two pages from address 4096 on. *)
Lemma mappages_correct_witness :
  ∃ r m', @mappages unit page0 4096 8192 1048576 PTE_W (sample_vm_state (sample_vm []) (sample_user 0))
    = Ok r (set_mm m' (sample_vm_state (sample_vm []) (sample_user 0))).
Proof.
  destruct (proj1 (@mappages_correct unit sample_linker (sample_vm_state (sample_vm []) (sample_user 0)) 0 sample_cpu
    [page1; page2] page0 4096 8192 1048576 PTE_W ltac:(intros _; split; [split; [by split|vm_compute; reflexivity|reflexivity]|reflexivity])
    (sample_vm_kmem []) (sample_vm_pt []) ltac:(lia) ltac:(lia) ltac:(lia) ltac:(lia) ltac:(reflexivity)
    ltac:(vm_compute; congruence) ltac:(unfold PTE_W; lia))) as (r & m' & _ & _ & R & _); [|by exists r, m'].
  intros j Hj. assert (j = 0 ∨ j = 1) as [-> | ->] by (change (0 ≤ j ≤ 1) in Hj; lia); vm_compute; reflexivity.
Defined.

(** Id 0 names every free entry of the table: its physical address, 0 in a fresh
    table, is mapped. *)
Lemma openshmem_correct_witness :
  let s := sample_vm_state (sample_vm [ShPage 0 0 0]) (sample_user 0) in
  (∃ m', attached s 0 (sample_user 0) 0 (ShPage 0 1 0) (@openshmem unit 0 s) m')
  ∨ @stuck unit sample_linker s 0 sample_cpu (openshmem 0 s).
Proof.
  assert (can_attach (sample_vm [ShPage 0 0 0]) (sample_user 0) [page1; page2]) as Hc.
  { split; [apply sample_vm_pt|]. split; [vm_compute; congruence|]. split; [vm_compute; congruence|]. vm_compute. reflexivity. }
  refine (@openshmem_correct unit sample_linker (sample_vm_state (sample_vm [ShPage 0 0 0]) (sample_user 0)) 0 sample_cpu 0
    (sample_user 0) [page1; page2] 0 (sample_shm_caller _ _) (sample_vm_kmem _) Hc (ShPage 0 0 0) eq_refl _ eq_refl _);
    vm_compute; congruence.
Defined.
