(* ===== verification/Uvm.v ===== *)
(** * User address spaces

    The routines of [vm.c] that build, grow, shrink, copy and free the user part
    of an address space ([Vm.v] holds the definitions): what they do to the pages
    a space maps, to their contents and to the free list.  A space is the map
    from virtual pages to physical pages and flags that its page table encodes. *)

From S2P Require Import Prelude Spinlock Printf State PrioLock Sched Proc Bytes Kalloc Vm.

(** Virtual page ↦ kernel address of the physical page, flags. *)
Notation uspace := (gmap Z (Z * Z)).

(** The page-table entry of a mapped page. *)
Definition upte (e : Z * Z) : Z := Z.lor (V2P e.1) e.2.

(** The number of user pages. *)
Definition UPAGES : Z := KERNBASE / PGSIZE.

(** What [kernel.ld] promises of the symbols: the data segment begins at a page,
    and the kernel ends inside physical memory. *)
Class LinkerOk `{Linker} : Prop := {
  lk_text : KERNLINK < kdata;
  lk_page : kdata mod PGSIZE = 0;
  lk_data : kdata ≤ kend;
  lk_end : kend < KERNBASE + PHYSTOP
}.

(** What the kernel half of every table maps. *)
Definition kern_map `{Linker} : Z → option Z :=
  foldl (λ old '(virt, lo, hi, perm), mapped old virt lo perm (Z.to_nat (u32 (hi - lo) / PGSIZE))) (λ _, None) kmap.

Lemma upage va : 0 ≤ va < KERNBASE → 0 ≤ va / PGSIZE < UPAGES.
Proof.
  intros H. change UPAGES with 524288. split; [apply Z.div_pos; [lia|done]|]. apply Z.div_lt_upper_bound; [done|]. unfold KERNBASE, PGSIZE in *. lia.
Qed.

Lemma upage_va k : 0 ≤ k < UPAGES → 0 ≤ k * PGSIZE ∧ k * PGSIZE + PGSIZE ≤ KERNBASE ∧ k * PGSIZE / PGSIZE = k ∧ (k * PGSIZE) mod PGSIZE = 0.
Proof. change UPAGES with 524288. intros H. rewrite Z.div_mul, Z.mod_mul by done. unfold KERNBASE, PGSIZE. lia. Qed.

Section uvm.
Context {Xf : Type} {LK : Linker} (km : Z → option Z).
Implicit Types (s : kstate (mem * Xf)) (m : mem) (us : uspace).

(** The pages of a space: its tables and what they map. *)
Definition owned pg pgdir us (a : Z) : Prop := in_tables pg pgdir a ∨ ∃ k f, us !! k = Some (a, f).

(** Page table [pgdir] maps exactly [us] below [KERNBASE] and [km] above; [l] are
    the free pages. *)
Record aspace m (pgdir : Z) (l : list Z) us : Prop := Aspace {
  as_kmem : kmem_wf m l;
  as_pt : pt_wf (m_pages m) pgdir l;
  as_map : ∀ va, 0 ≤ va < KERNBASE → xlate (m_pages m) pgdir va = upte <$> us !! (va / PGSIZE);
  as_kern : ∀ va, KERNBASE ≤ va < 2 ^ 32 → xlate (m_pages m) pgdir va = km va;
  as_page : ∀ k a f, us !! k = Some (a, f) → 0 ≤ k < UPAGES ∧ good_page a ∧ is_Some (m_pages m !! a)
    ∧ a ∉ l ∧ ¬ in_tables (m_pages m) pgdir a ∧ 0 ≤ f < 4096 ∧ Z.odd f = true;
  as_inj : ∀ k k' a f f', us !! k = Some (a, f) → us !! k' = Some (a, f') → k = k';
  as_tables : ∀ a, in_tables (m_pages m) pgdir a → good_page a
}.

Lemma upte_fields a f : good_page a → 0 ≤ f < 4096 →
  0 ≤ upte (a, f) < 2 ^ 32 ∧ PTE_ADDR (upte (a, f)) = V2P a ∧ PTE_FLAGS (upte (a, f)) = f ∧ P2V (PTE_ADDR (upte (a, f))) = a.
Proof.
  intros Hg Hf. destruct (v2p_good a Hg) as (G1 & G2 & G3). unfold PGSIZE in *. unfold upte. cbn [fst snd].
  destruct (pte_fields (V2P a) f ltac:(lia) G2 Hf) as (R & E1 & E2). rewrite E1, E2. do 3 (split; [done|]). apply p2v_v2p.
  destruct Hg as (_ & _ & Hg). unfold KERNBASE, PHYSTOP in Hg. lia.
Qed.

Lemma upte_present a f : Z.odd f = true → has (upte (a, f)) PTE_P = true.
Proof. intros Ho. rewrite has_odd. unfold upte. cbn [fst snd]. rewrite <- !Z.bit0_odd in *. by rewrite Z.lor_spec, Ho, orb_true_r. Qed.

(** The table depends on its own pages only. *)
Lemma tables_agree pg pg' pgdir :
  (∀ a, in_tables pg pgdir a → pg' !! a = pg !! a) →
  (∀ a, in_tables pg' pgdir a ↔ in_tables pg pgdir a) ∧ (∀ i, pde pg' pgdir i = pde pg pgdir i) ∧
  (∀ va, 0 ≤ va < 2 ^ 32 → xlate pg' pgdir va = xlate pg pgdir va).
Proof.
  intros E. assert (E1 : ∀ i, pde pg' pgdir i = pde pg pgdir i) by (intros i; unfold pde, page; by rewrite (E pgdir) by by left).
  assert (E2 : ∀ i, table pg' pgdir i = table pg pgdir i) by (intros i; unfold table; by rewrite E1).
  split; [|split; [done|]].
  - intros a. unfold in_tables. by setoid_rewrite E1; setoid_rewrite E2.
  - intros va Hv. destruct (index_bounds va Hv) as [Hi _]. unfold xlate, pte. rewrite E1, E2.
    destruct (has (pde pg pgdir (PDX va)) PTE_P) eqn:Hp; [|done]. unfold page. rewrite E; [done|]. right. by exists (PDX va).
Qed.

Lemma owned_agree pg pg' pgdir us : (∀ a, in_tables pg pgdir a → pg' !! a = pg !! a) →
  ∀ a, owned pg' pgdir us a ↔ owned pg pgdir us a.
Proof. intros E a. unfold owned. by rewrite (proj1 (tables_agree pg pg' pgdir E) a). Qed.

(** Other pages do not matter to a space. *)
Lemma aspace_frame m m' pgdir l l' us :
  aspace m pgdir l us → kmem_wf m' l' → (∀ a, owned (m_pages m) pgdir us a → m_pages m' !! a = m_pages m !! a ∧ a ∉ l') →
  aspace m' pgdir l' us.
Proof.
  intros [A1 A2 A3 A4 A5 A6 A7] K O.
  destruct (tables_agree (m_pages m) (m_pages m') pgdir) as (E1 & E2 & E3); [intros a Ha; by apply O; left|].
  assert (Hh : ∀ a, in_tables (m_pages m) pgdir a → page_here (m_pages m) a → page_here (m_pages m') a).
  { intros a Ha (H1 & H2 & H3 & H4). split_and!; try done. by rewrite (proj1 (O a (or_introl Ha))). }
  assert (Et : ∀ i, table (m_pages m') pgdir i = table (m_pages m) pgdir i) by (intros i; unfold table; by rewrite E2).
  split; [done| | | | |done|].
  - destruct A2 as [[D1 D2] T I]. split.
    + split; [apply Hh; [by left|done]|]. apply (O pgdir). left. by left.
    + intros i Hi. rewrite E2, Et. intros Hp. destruct (T i Hi Hp) as (T1 & T2 & T3).
      assert (Hin : in_tables (m_pages m) pgdir (table (m_pages m) pgdir i)) by (right; by exists i).
      split; [by apply Hh|]. split; [|done]. apply (O _ (or_introl Hin)).
    + intros i j Hi Hj. rewrite !E2, !Et. by apply I.
  - intros va Hv. rewrite E3 by (unfold KERNBASE in *; lia). by apply A3.
  - intros va Hv. rewrite E3 by (unfold KERNBASE in *; lia). by apply A4.
  - intros k a f Hk. destruct (A5 k a f Hk) as (B1 & B2 & B3 & B4 & B5 & B6). destruct (O a) as [O1 O2]; [right; by exists k, f|].
    rewrite O1, E1. done.
  - intros a. rewrite E1. apply A7.
Qed.

(** Work on a space: from pages [us] and free list [l] to [us'] and [l'], with no
    page lost or gained, and nothing done to the pages of others. *)
Record uvm_step m m' (pgdir : Z) (l l' : list Z) us us' : Prop := UvmStep {
  ut_space : aspace m' pgdir l' us';
  ut_lock : m_use_lock m' = m_use_lock m;
  ut_shmem : m_shmem m' = m_shmem m;
  ut_frame : ∀ a, a ∉ l → ¬ owned (m_pages m) pgdir us a → m_pages m' !! a = m_pages m !! a;
  ut_keep : ∀ k e, us !! k = Some e → us' !! k = Some e → m_pages m' !! e.1 = m_pages m !! e.1;
  ut_owned : ∀ a, a ∈ l' ∨ owned (m_pages m') pgdir us' a ↔ a ∈ l ∨ owned (m_pages m) pgdir us a
}.

Lemma uvm_step_refl m pgdir l us : aspace m pgdir l us → uvm_step m m pgdir l l us us.
Proof. intros. by split. Qed.

Lemma uvm_step_trans m1 m2 m3 pgdir l1 l2 l3 us1 us2 us3 :
  uvm_step m1 m2 pgdir l1 l2 us1 us2 → uvm_step m2 m3 pgdir l2 l3 us2 us3 →
  (∀ k e, us1 !! k = Some e → us3 !! k = Some e → us2 !! k = Some e) → uvm_step m1 m3 pgdir l1 l3 us1 us3.
Proof.
  intros [A1 A2 A3 A4 A5 A6] [B1 B2 B3 B4 B5 B6] Hk. split; [done|congruence|congruence| | |intros a; by rewrite B6, A6].
  - intros a Ha Ho. rewrite <- A4 by done. apply B4; specialize (A6 a); tauto.
  - intros k e H1 H3. rewrite (B5 k) by eauto. eauto.
Qed.

(** ** One page *)

(** A page that is neither free nor part of the space. *)
Record spare m pgdir (l : list Z) us (a : Z) : Prop := Spare {
  sp_good : good_page a;
  sp_here : is_Some (m_pages m !! a);
  sp_free : a ∉ l;
  sp_owned : ¬ owned (m_pages m) pgdir us a
}.

(** [kalloc] and the filling of the page. *)
Lemma aspace_take m m1 pgdir a l us d :
  aspace m pgdir (a :: l) us → kmem_wf m1 l → m_pages m1 = m_pages m → length d = Z.to_nat PGSIZE →
  let m2 := set_m_pages (<[a := d]> (m_pages m1)) m1 in aspace m2 pgdir l us ∧ spare m2 pgdir l us a.
Proof.
  intros A K1 P1 Hd m2. pose proof A as [A1 A2 A3 A4 A5 A6 A7]. pose proof (kw_nodup _ _ A1) as Hnd. apply list.NoDup_cons in Hnd as [Hal _].
  pose proof (kw_good _ _ A1) as Hg. apply list.Forall_cons in Hg as [Hg _].
  assert (Ho : ¬ owned (m_pages m) pgdir us a).
  { intros [Ht|(k & f & Hk)]; [by apply (vm_step_fresh _ _ _ _ A1 A2)|]. destruct (A5 k a f Hk) as (_ & _ & _ & Hn & _). apply Hn. by left. }
  assert (E : ∀ b, b ≠ a → m_pages m2 !! b = m_pages m !! b) by (intros b Hb; cbn; by rewrite lookup_insert_ne, P1).
  assert (Hne : ∀ b, owned (m_pages m) pgdir us b → b ≠ a ∧ b ∉ l).
  { intros b Hb. split; [by intros ->|]. destruct Hb as [[->|(i & Hi & Hp & <-)]|(k & f & Hk)].
    - destruct (pt_dir _ _ _ A2) as [_ D]. by apply not_elem_of_cons in D as [_ D].
    - destruct (pt_table _ _ _ A2 i Hi Hp) as (_ & D & _). by apply not_elem_of_cons in D as [_ D].
    - destruct (A5 k b f Hk) as (_ & _ & _ & D & _). by apply not_elem_of_cons in D as [_ D]. }
  split.
  - eapply aspace_frame; [exact A|by apply kmem_wf_page|]. intros b Hb. split; [apply E|]; by apply Hne.
  - split; [done|cbn; by rewrite lookup_insert_eq|done|]. rewrite owned_agree; [done|].
    intros b Hb. apply E. intros ->. apply Ho. by left.
Qed.

(** [mappages] of one page. *)
Lemma map_one s i c pgdir l us a k perm :
  kmem_free s i c → aspace (mm s) pgdir l us → spare (mm s) pgdir l us a → 0 ≤ k < UPAGES → us !! k = None → 0 ≤ perm < 4096 →
  ∃ r m' l', mappages pgdir (k * PGSIZE) PGSIZE (V2P a) perm s = Ok r (set_mm m' s) ∧ vm_step (mm s) m' pgdir l l' ∧
    (r = 0 ∧ aspace m' pgdir l' (<[k := (a, Z.lor perm PTE_P)]> us) ∨ r = -1 ∧ l' = [] ∧ aspace m' pgdir l' us).
Proof.
  intros Hf A [S1 S2 S3 S4] Hk Hn Hperm. pose proof A as [A1 A2 A3 A4 A5 A6 A7]. destruct (upage_va k Hk) as (K1 & K2 & K3 & K4).
  destruct (v2p_good a S1) as (G1 & G2 & G3). unfold KERNBASE in K2.
  destruct (mappages_ok pgdir perm (k * PGSIZE) PGSIZE (V2P a) l s i c Hf A1 A2 K1 ltac:(done) ltac:(lia) G1 G2) as (r & m' & l' & n & R & V & X & Hr).
  { rewrite one_page by done. lia. }
  { done. }
  { rewrite one_page by done. intros j Hj. replace j with 0 by lia. rewrite Z.mul_0_l, Z.add_0_r.
    rewrite pgrounddown_eq, K4, Z.sub_0_r by (unfold PGSIZE in *; lia). by rewrite A3, K3, Hn by (unfold KERNBASE, PGSIZE in *; lia). }
  exists r, m', l'. split; [done|]. split; [done|]. rewrite one_page in Hr by done.
  assert (Hsub : ∀ x, x ∈ l' → x ∈ l) by (intros x Hx; destruct (vs_suffix _ _ _ _ _ V) as [q ->]; apply elem_of_app; by right).
  assert (Hold : ∀ k0 b f, us !! k0 = Some (b, f) → 0 ≤ k0 < UPAGES ∧ good_page b ∧ is_Some (m_pages m' !! b)
    ∧ b ∉ l' ∧ ¬ in_tables (m_pages m') pgdir b ∧ 0 ≤ f < 4096 ∧ Z.odd f = true).
  { intros k0 b f Hb. destruct (A5 k0 b f Hb) as (B1 & B2 & B3 & B4 & B5 & B6 & B7). destruct (vs_frame _ _ _ _ _ V b B4 B5) as [-> Hnt].
    split_and!; try done; try lia. intros Hx. by apply B4, Hsub. }
  assert (Htab : ∀ x, in_tables (m_pages m') pgdir x → good_page x).
  { intros x Hx. destruct (proj1 (vs_owned _ _ _ _ _ V x) (or_intror Hx)) as [Hl|]; [|by apply A7].
    pose proof (kw_good _ _ A1) as Hg. rewrite list.Forall_forall in Hg. by apply Hg. }
  destruct Hr as [[-> Hn1]|(-> & Hn0 & ->)]; [left|right]; (split; [done|]).
  - replace n with 1%nat in X by lia. destruct (vs_frame _ _ _ _ _ V a S3) as [Ea Hna]; [intros Ht; apply S4; by left|].
    split; [apply V|apply V| | | | |done].
    + intros va Hv. rewrite X by (unfold KERNBASE in *; lia). unfold mapped. rewrite K3.
      destruct (Z.eqb_spec (va / PGSIZE) k) as [->|Hne].
      * rewrite Z.sub_diag, lookup_insert_eq. cbn. unfold upte, entry. cbn [fst snd]. by rewrite Z.mul_0_l, Z.add_0_r, Z.lor_assoc.
      * rewrite lookup_insert_ne by done. replace ((0 <=? va / PGSIZE - k) && (va / PGSIZE - k <? Z.of_nat 1)) with false; [by apply A3|].
        symmetry. apply andb_false_iff. rewrite Z.leb_gt, Z.ltb_ge. lia.
    + intros va Hv. rewrite X by (unfold KERNBASE in *; lia). unfold mapped. rewrite K3.
      replace (va / PGSIZE - k <? Z.of_nat 1) with false; [rewrite andb_false_r; by apply A4|]. symmetry. apply Z.ltb_ge.
      assert (UPAGES ≤ va / PGSIZE) by (apply Z.div_le_lower_bound; [done|]; change UPAGES with 524288; unfold KERNBASE, PGSIZE in *; lia). lia.
    + intros k0 b f. destruct (decide (k = k0)) as [<-|Hne]; [rewrite lookup_insert_eq; intros [= <- <-]|rewrite lookup_insert_ne by done; apply Hold].
      split_and!; try done; try lia; [by rewrite Ea|intros Hx; by apply S3, Hsub|apply lor_flag_bounds; done..|apply odd_lor_p].
    + intros k1 k2 b f1 f2. destruct (decide (k = k1)) as [<-|N1], (decide (k = k2)) as [<-|N2]; rewrite ?lookup_insert_eq, ?lookup_insert_ne by done; [done| | |apply A6].
      * intros [= <- <-] Hb. destruct S4. right. by exists k2, f2.
      * intros Hb [= <- <-]. destruct S4. right. by exists k1, f1.
  - replace n with 0%nat in X by lia. split; [done|]. split; [apply V|apply V| | |done|done|done].
    + intros va Hv. rewrite X, mapped_0 by (unfold KERNBASE in *; lia). by apply A3.
    + intros va Hv. rewrite X, mapped_0 by (unfold KERNBASE in *; lia). by apply A4.
Qed.

(** ** Unmapping *)

Lemma xlate_some pg pgdir va e : xlate pg pgdir va = Some e →
  has (pde pg pgdir (PDX va)) PTE_P = true ∧ pte pg pgdir va = e ∧ has e PTE_P = true.
Proof. unfold xlate. intros E. destruct (has (pde _ _ _) _); [|done]. destruct (has (pte _ _ _) _) eqn:Ee; [|done]. by injection E as <-. Qed.

Lemma pt_wf_cons pg pgdir a l : pt_wf pg pgdir l → ¬ in_tables pg pgdir a → pt_wf pg pgdir (a :: l).
Proof.
  intros [[D1 D2] T I] Hn. split; [|intros i Hi Hp|done].
  - split; [done|]. apply not_elem_of_cons. split; [intros <-; apply Hn; by left|done].
  - destruct (T i Hi Hp) as (T1 & T2 & T3). split; [done|]. split; [|done]. apply not_elem_of_cons. split; [|done].
    intros <-. apply Hn. right. by exists i.
Qed.

Lemma in_tables_insert pg pgdir a d : ¬ in_tables pg pgdir a →
  (∀ b, in_tables (<[a := d]> pg) pgdir b ↔ in_tables pg pgdir b) ∧ (∀ i, pde (<[a := d]> pg) pgdir i = pde pg pgdir i) ∧
  (∀ va, 0 ≤ va < 2 ^ 32 → xlate (<[a := d]> pg) pgdir va = xlate pg pgdir va).
Proof. intros Hn. apply tables_agree. intros b Hb. rewrite lookup_insert_ne; [done|]. by intros ->. Qed.

(** [kfree] of a page outside the space. *)
Lemma free_spare s i c pgdir l us a :
  kmem_free s i c → aspace (mm s) pgdir l us → spare (mm s) pgdir l us a →
  kfree a s = Ok tt (set_mm (freed a (mm s)) s) ∧ aspace (freed a (mm s)) pgdir (a :: l) us.
Proof.
  intros Hf A [S1 S2 S3 S4]. split; [by apply (kfree_ok a s i c)|]. pose proof A as [A1 A2 A3 A4 A5 A6 A7].
  eapply aspace_frame; [exact A|by apply kmem_wf_free|]. intros b Hb. assert (b ≠ a) by (by intros ->).
  split; [cbn; by rewrite lookup_insert_ne|]. apply not_elem_of_cons. split; [done|].
  destruct Hb as [[->|(j & Hj & Hp & <-)]|(k & f & Hk)]; [apply (pt_dir _ _ _ A2)|apply (pt_table _ _ _ A2 j Hj Hp)|apply (A5 k b f Hk)].
Qed.

(** The memory after [kfree(P2V(pa)); *pte = 0]. *)
Definition unmapped m pgdir (va a : Z) : mem := set_m_pages (set_pte (m_pages (freed a m)) pgdir va 0) (freed a m).

Section unmap.
Context m pgdir l us (k a f : Z) (A : aspace m pgdir l us) (Hk : us !! k = Some (a, f)).
Notation va := (k * PGSIZE).

Lemma unmap_facts :
  0 ≤ va < 2 ^ 32 ∧ has (pde (m_pages m) pgdir (PDX va)) PTE_P = true ∧ pte (m_pages m) pgdir va = upte (a, f) ∧
  has (upte (a, f)) PTE_P = true ∧ P2V (PTE_ADDR (upte (a, f))) = a.
Proof.
  destruct (as_page _ _ _ _ A k a f Hk) as (B1 & B2 & B3 & B4 & B5 & B6 & B7). destruct (upage_va k B1) as (K1 & K2 & K3 & K4).
  pose proof (as_map _ _ _ _ A va) as Hx. rewrite K3, Hk in Hx. unfold KERNBASE, PGSIZE in *. cbn [fmap option_fmap option_map] in Hx.
  apply xlate_some in Hx as (X1 & X2 & X3); [|lia]. split; [lia|]. do 3 (split; [done|]). by apply upte_fields.
Qed.

Lemma unmapped_step : uvm_step m (unmapped m pgdir va a) pgdir l (a :: l) us (delete k us).
Proof.
  destruct unmap_facts as (V & P & _). pose proof A as [A1 A2 A3 A4 A5 A6 A7].
  destruct (A5 k a f Hk) as (B1 & B2 & B3 & B4 & B5 & B6 & B7). destruct (upage_va k B1) as (K1 & K2 & K3 & K4).
  set (pg1 := m_pages (freed a m)). destruct (in_tables_insert (m_pages m) pgdir a (freed_page (m_freelist m)) B5) as (T1 & T2 & T3).
  change (<[a := freed_page (m_freelist m)]> (m_pages m)) with pg1 in *.
  assert (Hlen : length (freed_page (m_freelist m)) = Z.to_nat PGSIZE) by (unfold freed_page; by rewrite length_wr, length_replicate).
  assert (Hw1 : pt_wf pg1 pgdir (a :: l)).
  { apply pt_wf_cons; [|by rewrite T1]. apply pt_wf_insert; [done| |done]. intros ->. apply B5. by left. }
  assert (Hp1 : has (pde pg1 pgdir (PDX va)) PTE_P = true) by (by rewrite T2).
  pose proof (set_pte_step pgdir (a :: l) va 0 (freed a m) (kmem_wf_free _ _ _ A1 B2 B4) Hw1 V Hp1) as ST. fold (unmapped m pgdir va a) in ST.
  assert (Ht : ∀ b, in_tables (m_pages (unmapped m pgdir va a)) pgdir b ↔ in_tables (m_pages m) pgdir b).
  { intros b. rewrite <- T1. apply (in_tables_set_pte _ _ (a :: l)); done. }
  assert (Hx : ∀ va', 0 ≤ va' < 2 ^ 32 → xlate (m_pages (unmapped m pgdir va a)) pgdir va'
    = if va' / PGSIZE =? k then None else xlate (m_pages m) pgdir va').
  { intros va' Hv. change (m_pages (unmapped m pgdir va a)) with (set_pte pg1 pgdir va 0).
    rewrite (set_pte_xlate _ _ (a :: l)), K3, T3 by done. done. }
  assert (Hpage : ∀ b, b ≠ a → ¬ in_tables (m_pages m) pgdir b → m_pages (unmapped m pgdir va a) !! b = m_pages m !! b).
  { intros b Hb Hn. cbn. unfold set_pte. rewrite lookup_insert_ne; [by apply lookup_insert_ne|]. intros <-. apply Hn. apply T1.
    destruct (index_bounds va V) as [Hi _]. right. by exists (PDX va). }
  assert (Hsep : ∀ k0 b f0, k0 ≠ k → us !! k0 = Some (b, f0) → b ≠ a) by (intros k0 b f0 Hne Hb ->; by apply Hne, (A6 k0 k a f0 f)).
  split; [split; [apply ST|apply ST| | | | |]|done|done| | |].
  - intros va' Hv. rewrite Hx by (unfold KERNBASE in *; lia). destruct (Z.eqb_spec (va' / PGSIZE) k) as [->|Hne]; [by rewrite lookup_delete_eq|].
    rewrite lookup_delete_ne by done. by apply A3.
  - intros va' Hv. rewrite Hx by (unfold KERNBASE in *; lia). destruct (Z.eqb_spec (va' / PGSIZE) k) as [E|Hne]; [|by apply A4].
    assert (UPAGES ≤ va' / PGSIZE) by (apply Z.div_le_lower_bound; [done|]; change UPAGES with 524288; unfold KERNBASE, PGSIZE in *; lia). lia.
  - intros k0 b f0 [Hne Hb]%lookup_delete_Some. destruct (A5 k0 b f0 Hb) as (C1 & C2 & C3 & C4 & C5 & C6 & C7).
    rewrite Ht, Hpage by eauto. split_and!; try done; try lia. apply not_elem_of_cons. eauto.
  - intros k1 k2 b f1 f2 [_ H1]%lookup_delete_Some [_ H2]%lookup_delete_Some. eauto.
  - intros b. rewrite Ht. apply A7.
  - intros b Hb Ho. apply Hpage; [intros ->; apply Ho; right; by exists k, f|intros Hn; apply Ho; by left].
  - intros k0 [b f0] H0 [Hne _]%lookup_delete_Some. cbn [fst]. destruct (A5 k0 b f0 H0) as (_ & _ & _ & _ & C5 & _). apply Hpage; eauto.
  - intros b. unfold owned. rewrite Ht, elem_of_cons. setoid_rewrite lookup_delete_Some. split.
    + intros [[->|]|[|(k0 & f0 & Hne & Hb)]]; [right; right; by exists k, f|by left|right; by left|right; right; by exists k0, f0].
    + intros [|[|(k0 & f0 & Hb)]]; [left; by right|right; by left|]. destruct (decide (k0 = k)) as [->|Hne]; [left; left; congruence|].
      right. right. exists k0, f0. done.
Qed.

End unmap.

Lemma unmap_run s i c pgdir l us k a f :
  kmem_free s i c → aspace (mm s) pgdir l us → us !! k = Some (a, f) →
  let va := k * PGSIZE in
  ∃ p, walkpgdir pgdir va false s = Ok p s ∧ p ≠ 0 ∧ load p s = Ok (upte (a, f)) s ∧
  (kfree a;; store p 0) s = Ok tt (set_mm (unmapped (mm s) pgdir va a) s).
Proof.
  intros Hf A Hk va. destruct (unmap_facts _ _ _ _ _ _ _ A Hk) as (V & P & E & E1 & E2). pose proof (as_pt _ _ _ _ A) as Hw.
  destruct (as_page _ _ _ _ A k a f Hk) as (B1 & B2 & B3 & B4 & B5 & B6 & B7).
  destruct (walk_found pgdir l va false s Hw V P) as [R N]. eexists. split; [exact R|]. split; [exact N|].
  split; [rewrite <- E; by apply (load_pte pgdir l)|]. rewrite (bind_ok _ _ _ _ _ (kfree_ok a s i c Hf B2 B3)).
  destruct (in_tables_insert (m_pages (mm s)) pgdir a (freed_page (m_freelist (mm s))) B5) as (T1 & T2 & T3).
  set (s1 := set_mm (freed a (mm s)) s). change (<[a := _]> _) with (m_pages (mm s1)) in T1, T2, T3. assert (Hw1 : pt_wf (m_pages (mm s1)) pgdir l).
  { apply pt_wf_insert; [done| |unfold freed_page; by rewrite length_wr, length_replicate]. intros ->. apply B5. by left. }
  assert (Ep : pte_addr (m_pages (mm s)) pgdir va = pte_addr (m_pages (mm s1)) pgdir va) by (unfold pte_addr, table; by rewrite T2).
  rewrite Ep. unfold pte_addr. rewrite (store_pte pgdir l va 0 s1 Hw1 V) by (by rewrite T2).
  unfold s1. by rewrite set_mm_set, mm_set.
Qed.

(** ** [deallocuvm] *)

Context {LKO : LinkerOk}.

Lemma v2p_nonzero a : good_page a → V2P a ≠ 0.
Proof.
  intros (_ & H1 & H2). pose proof lk_text. pose proof lk_data. unfold V2P, KERNLINK, KERNBASE, EXTMEM, PHYSTOP in *.
  rewrite u32_small by lia. lia.
Qed.

Lemma next_table j : 0 ≤ j < UPAGES → let d := PDX (j * PGSIZE) in
  d = j / 1024 ∧ u32 (u32 (PGADDR (d + 1) 0 0 - PGSIZE) + PGSIZE) = (d + 1) * 1024 * PGSIZE ∧ j < (d + 1) * 1024 ≤ UPAGES.
Proof.
  change UPAGES with 524288. intros Hj d. assert (Ed : d = j / 1024).
  { unfold d. rewrite pdx_eq by (unfold PGSIZE; lia). replace (2 ^ 22) with (PGSIZE * 1024) by done.
    rewrite <- Z.div_div by done. by rewrite Z.div_mul. }
  pose proof (Z.div_mod j 1024 ltac:(done)). pose proof (Z.mod_pos_bound j 1024 ltac:(done)). rewrite <- Ed in *.
  split; [done|]. unfold PGADDR. rewrite Z.shiftl_0_l, !Z.lor_0_r, Z.shiftl_mul_pow2 by lia. unfold PGSIZE. rewrite (u32_small ((d + 1) * 2 ^ 22)) by lia.
  rewrite (u32_small (_ - _)) by lia. rewrite u32_small by lia. lia.
Qed.

(** A page whose table is missing is not mapped. *)
Lemma missing_table m pgdir l us j k :
  aspace m pgdir l us → 0 ≤ j < UPAGES → 0 ≤ k < UPAGES → has (pde (m_pages m) pgdir (PDX (j * PGSIZE))) PTE_P = false →
  j ≤ k < (PDX (j * PGSIZE) + 1) * 1024 → us !! k = None.
Proof.
  intros A Hj Hk Hp Hr. destruct (upage_va k Hk) as (K1 & K2 & K3 & K4). destruct (next_table j Hj) as (Ej & _). destruct (next_table k Hk) as (Ek & _).
  assert (E : PDX (k * PGSIZE) = PDX (j * PGSIZE)).
  { rewrite Ej in Hr. rewrite Ek, Ej. apply Z.le_antisymm; [apply Zlt_succ_le, Z.div_lt_upper_bound; lia|apply Z.div_le_mono; lia]. }
  pose proof (as_map _ _ _ _ A (k * PGSIZE)) as Hx. rewrite K3 in Hx. unfold xlate in Hx. rewrite E, Hp in Hx. unfold KERNBASE, PGSIZE in *.
  destruct (us !! k); [|done]. specialize (Hx ltac:(lia)). done.
Qed.

(** [deallocuvm] frees what is mapped from page [j] up to [oldsz]. *)
Definition dropped us (j oldsz : Z) us' : Prop :=
  ∀ k, us' !! k = if (j <=? k) && (k * PGSIZE <? oldsz) then None else us !! k.

Lemma dropped_next us us1 us' j j' oldsz :
  j ≤ j' → dropped us1 j' oldsz us' → (∀ k, j ≤ k < j' → k * PGSIZE < oldsz → us1 !! k = None) → (∀ k, ¬ j ≤ k < j' → us1 !! k = us !! k) →
  (∀ k, oldsz ≤ k * PGSIZE → us1 !! k = us !! k) → dropped us j oldsz us'.
Proof.
  intros Hj Hd H1 H2 H3 k. rewrite (Hd k). destruct (Z.leb_spec j' k), (Z.leb_spec j k), (Z.ltb_spec (k * PGSIZE) oldsz); cbn [andb]; try lia; try done;
    first [apply H1; lia | apply H2; lia | apply H3; lia].
Qed.

Lemma deallocuvm_loop_ok i c pgdir oldsz : oldsz ≤ KERNBASE → ∀ fuel j l us s,
  kmem_free s i c → aspace (mm s) pgdir l us → 0 ≤ j → (0 < fuel)%nat → oldsz ≤ (j + Z.of_nat fuel - 1) * PGSIZE →
  ∃ m' l' us', deallocuvm_loop fuel pgdir (j * PGSIZE) oldsz s = Ok tt (set_mm m' s) ∧ uvm_step (mm s) m' pgdir l l' us us' ∧ dropped us j oldsz us'.
Proof.
  intros Ho. induction fuel as [|fuel IH]; intros j l us s Hf A Hj Hf0 Hfu; [lia|]. cbn [deallocuvm_loop].
  destruct (Z.ltb_spec (j * PGSIZE) oldsz) as [Hlt|Hge]; cbn [negb].
  2:{ exists (mm s), l, us. rewrite set_mm_id. split; [done|]. split; [by apply uvm_step_refl|]. intros k.
      destruct (Z.leb_spec j k), (Z.ltb_spec (k * PGSIZE) oldsz); try done. unfold PGSIZE in *. lia. }
  assert (Hju : 0 ≤ j < UPAGES) by (change UPAGES with 524288; unfold KERNBASE, PGSIZE in *; lia).
  destruct (upage_va j Hju) as (K1 & K2 & K3 & K4). pose proof (as_pt _ _ _ _ A) as Hw.
  assert (V : 0 ≤ j * PGSIZE < 2 ^ 32) by (unfold KERNBASE, PGSIZE in *; lia). destruct (next_table j Hju) as (_ & En & Hn).
  destruct (has (pde (m_pages (mm s)) pgdir (PDX (j * PGSIZE))) PTE_P) eqn:Hp.
  2:{ rewrite (bind_ok _ _ _ _ _ (walk_missing pgdir l _ s Hw V Hp)), Z.eqb_refl, En.
      destruct (IH ((PDX (j * PGSIZE) + 1) * 1024) l us s Hf A ltac:(lia) ltac:(unfold PGSIZE in *; lia) ltac:(unfold PGSIZE in *; lia)) as (m' & l' & us' & R & ST & D).
      exists m', l', us'. split; [done|]. split; [done|]. eapply dropped_next; [|exact D|..]; [lia| |done|done].
      intros k Hk _. eapply missing_table; [exact A|exact Hju|lia|done|lia]. }
  assert (Hnext : u32 (j * PGSIZE + PGSIZE) = (j + 1) * PGSIZE) by (rewrite u32_small; unfold KERNBASE, PGSIZE in *; lia).
  rewrite Hnext. pose proof (as_map _ _ _ _ A (j * PGSIZE) ltac:(unfold PGSIZE in *; lia)) as Hx. rewrite K3 in Hx.
  destruct (us !! j) as [[a f]|] eqn:Hus.
  - destruct (unmap_run s i c pgdir l us j a f Hf A Hus) as (p & R1 & Np & R2 & R3). rewrite (bind_ok _ _ _ _ _ R1).
    apply Z.eqb_neq in Np as ->. rewrite (bind_ok _ _ _ _ _ R2).
    destruct (unmap_facts _ _ _ _ _ _ _ A Hus) as (_ & _ & _ & E1 & E2). rewrite E1, E2.
    destruct (as_page _ _ _ _ A j a f Hus) as (B1 & B2 & B3 & B4 & B5 & B6 & B7). destruct (upte_fields a f B2 B6) as (_ & E3 & _).
    rewrite E3. pose proof (v2p_nonzero a B2) as Hz%Z.eqb_neq. rewrite Hz, (bind_ok _ _ _ _ _ R3).
    pose proof (unmapped_step _ _ _ _ _ _ _ A Hus) as S1. set (m1 := unmapped _ _ _ _) in *.
    destruct (IH (j + 1) (a :: l) (delete j us) (set_mm m1 s)) as (m' & l' & us' & R & ST & D);
      [apply kmem_free_set; [done|exact (ut_lock _ _ _ _ _ _ _ S1)]|exact (ut_space _ _ _ _ _ _ _ S1)|lia|unfold PGSIZE in *; lia|unfold PGSIZE in *; lia|]. rewrite set_mm_set in R. rewrite mm_set in ST.
    exists m', l', us'. split; [done|]. split.
    + eapply uvm_step_trans; [exact S1|exact ST|]. intros k e Hke Hke'. rewrite (D k) in Hke'. by destruct (_ && _).
    + eapply dropped_next; [|exact D|..]; [lia|intros k Hk _; replace k with j by lia; apply lookup_delete_eq| |];
        intros k Hk; apply lookup_delete_ne; [lia|intros <-; lia].
  - destruct (walk_found pgdir l _ false s Hw V Hp) as [R N]. rewrite (bind_ok _ _ _ _ _ R). apply Z.eqb_neq in N as ->.
    unfold pte_addr. rewrite (bind_ok _ _ _ _ _ (load_pte pgdir l _ s Hw V Hp)).
    unfold xlate in Hx. rewrite Hp in Hx. destruct (has (pte _ _ _) PTE_P); [done|]. rewrite bind_mret.
    destruct (IH (j + 1) l us s Hf A ltac:(lia) ltac:(unfold PGSIZE in *; lia) ltac:(unfold PGSIZE in *; lia)) as (m' & l' & us' & R' & ST & D).
    exists m', l', us'. split; [done|]. split; [done|]. eapply dropped_next; [|exact D|..]; [lia| |done|done].
    intros k Hk _. by replace k with j by lia.
Qed.

(** The pages [sz] bytes take. *)
Definition npages (sz : Z) : Z := (sz + PGSIZE - 1) / PGSIZE.

Lemma npages_spec sz : 0 ≤ sz → 0 ≤ npages sz ∧ npages sz * PGSIZE - PGSIZE < sz ≤ npages sz * PGSIZE.
Proof.
  intros H. unfold npages, PGSIZE in *. pose proof (Z.div_mod (sz + 4096 - 1) 4096 ltac:(done)).
  pose proof (Z.mod_pos_bound (sz + 4096 - 1) 4096 ltac:(done)). lia.
Qed.

Lemma deallocuvm_ok s i c pgdir l us oldsz newsz :
  kmem_free s i c → aspace (mm s) pgdir l us → 0 ≤ newsz < oldsz → oldsz ≤ KERNBASE →
  ∃ m' l' us', deallocuvm pgdir oldsz newsz s = Ok newsz (set_mm m' s) ∧ uvm_step (mm s) m' pgdir l l' us us' ∧
    dropped us (npages newsz) oldsz us'.
Proof.
  intros Hf A Hn Ho. pose proof (npages_spec newsz ltac:(lia)) as Hp. unfold deallocuvm. rewrite (proj2 (Z.leb_gt _ _)) by lia.
  rewrite pgroundup_eq by (unfold KERNBASE, PGSIZE in *; lia). fold (npages newsz).
  assert (0 ≤ oldsz / PGSIZE) by (apply Z.div_pos; [lia|done]). pose proof (Z.div_mod oldsz PGSIZE ltac:(done)).
  pose proof (Z.mod_pos_bound oldsz PGSIZE ltac:(done)).
  destruct (deallocuvm_loop_ok i c pgdir oldsz Ho (S (Z.to_nat (oldsz / PGSIZE + 1))) (npages newsz) l us s Hf A) as (m' & l' & us' & R & ST & D);
    [lia|lia|unfold PGSIZE in *; lia|].
  exists m', l', us'. rewrite (bind_ok _ _ _ _ _ R). split; [|done]. rewrite s32_small by (unfold KERNBASE in *; lia). done.
Qed.

(** ** [freevm] *)

Section free_tables.
Context m0 pgdir (l0 : list Z) (Hw : pt_wf (m_pages m0) pgdir l0) (Hg : ∀ a, in_tables (m_pages m0) pgdir a → good_page a).
Notation present k := (has (pde (m_pages m0) pgdir k) PTE_P = true).

(** The tables of the first [k] entries are free. *)
Record freeing (k : Z) m (l : list Z) : Prop := Freeing {
  fr_kmem : kmem_wf m l;
  fr_dir : m_pages m !! pgdir = m_pages m0 !! pgdir;
  fr_here : ∀ a, is_Some (m_pages m0 !! a) → is_Some (m_pages m !! a);
  fr_list : ∀ a, a ∈ l ↔ a ∈ l0 ∨ ∃ j, 0 ≤ j < k ∧ present j ∧ table (m_pages m0) pgdir j = a;
  fr_frame : ∀ a, a ∉ l → m_pages m !! a = m_pages m0 !! a;
  fr_lock : m_use_lock m = m_use_lock m0;
  fr_shmem : m_shmem m = m_shmem m0
}.

Lemma free_table_step s i c k l :
  0 ≤ k < NPDENTRIES → kmem_free s i c → freeing k (mm s) l →
  wp (e ← load (pgdir + 4 * k); if has e PTE_P then kfree (P2V (PTE_ADDR e)) else mret tt)
    (λ _ s', ∃ m' l', s' = set_mm m' s ∧ freeing (k + 1) m' l') s.
Proof.
  intros Hk Hf [F1 F2 F3 F4 F5 F6 F7]. destruct (pt_dir _ _ _ Hw) as [Hd Hdl]. pose proof Hd as (D1 & D2 & D3 & _).
  destruct (page_here_lookup _ _ Hd) as [Ed Ld]. rewrite <- F2 in Ed.
  eapply wp_run; [apply (load_ok pgdir (4 * k) _ s Ed); try done; [lia|unfold NPDENTRIES, PGSIZE in *; lia]|].
  change (rd 4 (page _ _) _) with (pde (m_pages m0) pgdir k). destruct (has (pde (m_pages m0) pgdir k) PTE_P) eqn:Hp.
  - fold (table (m_pages m0) pgdir k). set (t := table (m_pages m0) pgdir k).
    assert (Hin : in_tables (m_pages m0) pgdir t) by (right; by exists k). destruct (pt_table _ _ _ Hw k Hk Hp) as (T1 & T2 & T3).
    assert (Htl : t ∉ l).
    { rewrite F4. intros [|(j & Hj & Hpj & E)]; [done|]. assert (j = k) by (apply (pt_inj _ _ _ Hw); done || lia). lia. }
    assert (R : kfree t s = Ok tt (set_mm (freed t (mm s)) s)).
    { apply (kfree_ok t s i c Hf); [by apply Hg|]. apply F3. destruct (page_here_lookup _ _ T1) as [E _]. fold t in E. by rewrite E. }
    eexists tt, _. split; [exact R|]. exists (freed t (mm s)), (t :: l). split; [done|]. split; [by apply kmem_wf_free; [|apply Hg|]| | | | |done|done].
    + cbn. by rewrite lookup_insert_ne.
    + intros a Ha. cbn. destruct (decide (t = a)) as [<-|]; [by rewrite lookup_insert_eq|]. rewrite lookup_insert_ne by done. by apply F3.
    + intros a. rewrite elem_of_cons, F4. split.
      * intros [->|[|(j & Hj & E)]]; [right; exists k; split; [lia|done]|by left|right; exists j; split; [lia|done]].
      * intros [|(j & Hj & Hpj & E)]; [right; by left|]. destruct (decide (j = k)) as [->|]; [by left|]. right. right. exists j. split; [lia|done].
    + intros a [Hne Ha]%not_elem_of_cons. cbn. rewrite lookup_insert_ne by done. by apply F5.
  - apply wp_ret. exists (mm s), l. rewrite set_mm_id. split; [done|]. split; try done. intros a. rewrite F4. split.
    + intros [|(j & Hj & E)]; [by left|right; exists j; split; [lia|done]].
    + intros [|(j & Hj & Hpj & E)]; [by left|right]. exists j. split; [|done]. assert (j ≠ k) by congruence. lia.
Qed.

Lemma free_tables_ok i c : ∀ n k l s, kmem_free s i c → (k + n = Z.to_nat NPDENTRIES)%nat → freeing (Z.of_nat k) (mm s) l →
  wp (kfor_ (seq k n) (λ i, e ← load (pgdir + 4 * Z.of_nat i); if has e PTE_P then kfree (P2V (PTE_ADDR e)) else mret tt))
    (λ _ s', ∃ m' l', s' = set_mm m' s ∧ freeing NPDENTRIES m' l') s.
Proof.
  induction n as [|n IH]; intros k l s Hf Hk Hfr; cbn [seq kfor_].
  - apply wp_ret. exists (mm s), l. rewrite set_mm_id. split; [done|]. by replace NPDENTRIES with (Z.of_nat k) by (unfold NPDENTRIES in *; lia).
  - eapply wp_step; [eapply free_table_step; [unfold NPDENTRIES in *; lia|exact Hf|exact Hfr]|].
    cbv beta. intros [] s1 (m1 & l1 & -> & Hfr1). replace (Z.of_nat k + 1) with (Z.of_nat (S k)) in Hfr1 by lia.
    eapply wp_mono; [eapply IH; [|lia|exact Hfr1]|].
    + apply kmem_free_set; [done|]. by rewrite (fr_lock _ _ _ Hfr1), (fr_lock _ _ _ Hfr).
    + cbv beta. intros [] s2 (m2 & l2 & -> & Hfr2). exists m2, l2. by rewrite set_mm_set.
Qed.

End free_tables.

(** All pages of the space are on the free list. *)
Record given_back m m' (pgdir : Z) (l l' : list Z) us : Prop := GivenBack {
  gb_kmem : kmem_wf m' l';
  gb_list : ∀ a, a ∈ l' ↔ a ∈ l ∨ owned (m_pages m) pgdir us a;
  gb_frame : ∀ a, a ∉ l' → m_pages m' !! a = m_pages m !! a;
  gb_lock : m_use_lock m' = m_use_lock m;
  gb_shmem : m_shmem m' = m_shmem m
}.

Lemma freevm_ok s i c pgdir l us :
  kmem_free s i c → aspace (mm s) pgdir l us →
  ∃ m' l', freevm pgdir s = Ok tt (set_mm m' s) ∧ given_back (mm s) m' pgdir l l' us.
Proof.
  intros Hf A. destruct (deallocuvm_ok s i c pgdir l us KERNBASE 0 Hf A ltac:(done) ltac:(done)) as (m1 & l1 & us1 & R1 & ST & D).
  destruct (pt_dir _ _ _ (as_pt _ _ _ _ A)) as [(D1 & _) _]. pose proof ST as [A1 S2 S3 S4 S5 S6].
  assert (us1 = ∅) as ->.
  { apply map_eq. intros k. rewrite lookup_empty. destruct (us1 !! k) as [[a f]|] eqn:E; [|done].
    destruct (as_page _ _ _ _ A1 k a f E) as (K & _). change UPAGES with 524288 in K. rewrite (D k) in E.
    rewrite (proj2 (Z.leb_le (npages 0) k)), (proj2 (Z.ltb_lt _ _)) in E by (change (npages 0) with 0; unfold KERNBASE, PGSIZE; lia). done. }
  unfold freevm. rewrite (proj2 (Z.eqb_neq pgdir 0)) by lia. rewrite (bind_ok _ _ _ _ _ R1).
  pose proof A1 as [B1 B2 _ _ _ _ B7].
  assert (F0 : freeing m1 pgdir l1 (Z.of_nat 0) (mm (set_mm m1 s)) l1).
  { split; try done. intros a. split; [by left|]. intros [|(j & Hj & _)]; [done|lia]. }
  destruct (free_tables_ok m1 pgdir l1 B2 B7 i c 1024 0 l1 (set_mm m1 s)) as ([] & s2 & R2 & m2 & l2 & -> & [F1 F2 F3 F4 F5 F6 F7]);
    [by apply kmem_free_set|done|done|].
  rewrite set_mm_set in R2. change (Z.to_nat NPDENTRIES) with 1024%nat. rewrite (bind_ok _ _ _ _ _ R2).
  destruct (pt_dir _ _ _ B2) as [Hd Hdl]. assert (Hd2 : pgdir ∉ l2).
  { rewrite F4. intros [|(j & Hj & Hp & E)]; [done|]. by destruct (pt_table _ _ _ B2 j Hj Hp) as (_ & _ & T3). }
  assert (Hgd : good_page pgdir) by (apply B7; by left).
  exists (freed pgdir m2), (pgdir :: l2). split.
  { rewrite (kfree_ok pgdir (set_mm m2 s) i c); [by rewrite set_mm_set|by apply kmem_free_set; [|rewrite F6]|done|].
    cbn. rewrite F2. by destruct (page_here_lookup _ _ Hd) as [-> _]. }
  assert (Hin : ∀ a, a ∈ pgdir :: l2 ↔ a ∈ l ∨ owned (m_pages (mm s)) pgdir us a).
  { intros a. rewrite <- S6, elem_of_cons, F4. unfold owned, in_tables. setoid_rewrite lookup_empty. split.
    - intros [->|[|(j & Hj & Hp & E)]]; [right; left; by left|by left|right; left; right; by exists j].
    - intros [|[[|(j & Hj & Hp & E)]|(k & f & [=])]]; [right; by left|by left|right; right; by exists j]. }
  split; [by apply kmem_wf_free|done| |cbn; congruence|cbn; congruence].
  intros a Ha. assert (Ha' := Ha). rewrite Hin in Ha'. apply not_elem_of_cons in Ha as [Hne Ha]. cbn. rewrite lookup_insert_ne by done.
  rewrite F5 by done. apply S4; tauto.
Qed.

(** ** Between [kalloc] and [mappages] *)

(** Work on a space after which the caller holds page [a] in hand. *)
Record in_hand m m' (pgdir : Z) (l l' : list Z) us us' (a : Z) : Prop := Holding {
  ho_space : aspace m' pgdir l' us';
  ho_spare : spare m' pgdir l' us' a;
  ho_lock : m_use_lock m' = m_use_lock m;
  ho_shmem : m_shmem m' = m_shmem m;
  ho_frame : ∀ b, b ∉ l → ¬ owned (m_pages m) pgdir us b → m_pages m' !! b = m_pages m !! b;
  ho_keep : ∀ k e, us !! k = Some e → us' !! k = Some e → m_pages m' !! e.1 = m_pages m !! e.1;
  ho_owned : ∀ b, b = a ∨ b ∈ l' ∨ owned (m_pages m') pgdir us' b ↔ b ∈ l ∨ owned (m_pages m) pgdir us b
}.

Lemma in_hand_take m m1 pgdir a l us d :
  aspace m pgdir (a :: l) us → kmem_wf m1 l → m_pages m1 = m_pages m → m_use_lock m1 = m_use_lock m → m_shmem m1 = m_shmem m →
  length d = Z.to_nat PGSIZE → in_hand m (set_m_pages (<[a := d]> (m_pages m1)) m1) pgdir (a :: l) l us us a.
Proof.
  intros A K1 P1 U1 S1 Hd. destruct (aspace_take m m1 pgdir a l us d A K1 P1 Hd) as [A2 S2]. pose proof S2 as [G1 G2 G3 G4].
  assert (Hn : ¬ owned (m_pages m) pgdir us a).
  { intros [Ht|(k & f & Hk)]; [by apply (vm_step_fresh _ _ _ _ (as_kmem _ _ _ _ A) (as_pt _ _ _ _ A))|].
    apply G4. right. by exists k, f. }
  assert (E : ∀ b, b ≠ a → m_pages (set_m_pages (<[a := d]> (m_pages m1)) m1) !! b = m_pages m !! b)
    by (intros b Hb; cbn; by rewrite lookup_insert_ne, P1).
  split; try done.
  - intros b [Hb _]%not_elem_of_cons _. by apply E.
  - intros k [b f] Hk _. apply E. cbn. intros ->. apply Hn. right. by exists k, f.
  - intros b. rewrite (owned_agree (m_pages m)); [rewrite elem_of_cons; tauto|]. intros b' Hb'. apply E. intros ->. apply Hn. by left.
Qed.

Lemma in_hand_trans m m1 m2 pgdir l l1 l2 us us1 us2 a :
  in_hand m m1 pgdir l l1 us us1 a → uvm_step m1 m2 pgdir l1 l2 us1 us2 →
  (∀ k e, us !! k = Some e → us2 !! k = Some e → us1 !! k = Some e) → in_hand m m2 pgdir l l2 us us2 a.
Proof.
  intros [A1 [G1 G2 G3 G4] A3 A4 A5 A6 A7] [B1 B2 B3 B4 B5 B6] Hk.
  assert (Hn : ¬ (a ∈ l2 ∨ owned (m_pages m2) pgdir us2 a)) by (rewrite B6; tauto).
  split; [done| |congruence|congruence| | |].
  - split; [done|by rewrite B4|tauto|tauto].
  - intros b H1 H2. rewrite B4; [by apply A5|specialize (A7 b); tauto..].
  - intros k e H1 H2. rewrite (B5 k e), (A6 k e) by eauto. done.
  - intros b. rewrite B6. apply A7.
Qed.

Lemma in_hand_free m m1 pgdir l l1 us us1 a :
  in_hand m m1 pgdir l l1 us us1 a → uvm_step m (freed a m1) pgdir l (a :: l1) us us1.
Proof.
  intros [A1 [G1 G2 G3 G4] A3 A4 A5 A6 A7]. assert (E : ∀ b, b ≠ a → m_pages (freed a m1) !! b = m_pages m1 !! b)
    by (intros b Hb; cbn; by rewrite lookup_insert_ne).
  assert (Ho : ∀ b, owned (m_pages (freed a m1)) pgdir us1 b ↔ owned (m_pages m1) pgdir us1 b).
  { apply owned_agree. intros b Hb. apply E. intros ->. apply G4. by left. }
  assert (Hsub : ∀ b, owned (m_pages m1) pgdir us1 b → b ∉ l1).
  { intros b Hb. pose proof (as_pt _ _ _ _ A1) as A2. destruct Hb as [[->|(j & Hj & Hp & <-)]|(k & f & Hk)];
      [apply (pt_dir _ _ _ A2)|apply (pt_table _ _ _ A2 j Hj Hp)|apply (as_page _ _ _ _ A1 k b f Hk)]. }
  split; [|done|done| | |].
  - eapply aspace_frame; [exact A1|apply kmem_wf_free; [apply A1|done|done]|]. intros b Hb. assert (b ≠ a) by (by intros ->).
    split; [by apply E|]. apply not_elem_of_cons. auto.
  - intros b H1 H2. rewrite E; [by apply A5|]. intros ->. specialize (A7 a). tauto.
  - intros k e Hk Hk'. rewrite E; [by apply (A6 k)|]. intros <-. apply G4. destruct e as [b f]. right. by exists k, f.
  - intros b. rewrite Ho, elem_of_cons. specialize (A7 b). tauto.
Qed.

(** [mappages] fails or maps the page in hand. *)
Lemma in_hand_vm m m1 m2 pgdir l l1 l2 us a :
  in_hand m m1 pgdir l l1 us us a → vm_step m1 m2 pgdir l1 l2 → aspace m2 pgdir l2 us → in_hand m m2 pgdir l l2 us us a.
Proof.
  intros HO [V1 V2 V3 V4 V5 V6 V7] A. eapply in_hand_trans; [exact HO| |done].
  assert (Hus : ∀ k e, us !! k = Some e → e.1 ∉ l1 ∧ ¬ in_tables (m_pages m1) pgdir e.1).
  { intros k [b f] Hk. destruct (as_page _ _ _ _ (ho_space _ _ _ _ _ _ _ _ HO) k b f Hk) as (_ & _ & _ & B4 & B5 & _). done. }
  split; [done|done|done| | |].
  - intros b Hb Ho. apply V6; [done|]. intros Ht. apply Ho. by left.
  - intros k e Hk _. by apply V6; apply (Hus k).
  - intros b. unfold owned. specialize (V7 b). tauto.
Qed.

Lemma in_hand_map m m1 m2 pgdir l l1 l2 us k a f :
  in_hand m m1 pgdir l l1 us us a → vm_step m1 m2 pgdir l1 l2 → us !! k = None → aspace m2 pgdir l2 (<[k := (a, f)]> us) →
  uvm_step m m2 pgdir l l2 us (<[k := (a, f)]> us) ∧ m_pages m2 !! a = m_pages m1 !! a.
Proof.
  intros [A1 [G1 G2 G3 G4] A3 A4 A5 A6 A7] [V1 V2 V3 V4 V5 V6 V7] Hk A. split.
  2:{ apply V6; [done|]. intros Ht. apply G4. by left. }
  split; [done|congruence|congruence| | |].
  - intros b H1 H2. specialize (A7 b). rewrite <- A5 by done. apply V6; [tauto|]. intros Ht. assert (owned (m_pages m1) pgdir us b) by (by left). tauto.
  - intros k0 [b f0] H0 _. destruct (as_page _ _ _ _ A1 k0 b f0 H0) as (_ & _ & _ & B4 & B5 & _). rewrite <- (A6 k0 _ H0 H0). by apply V6.
  - intros b. rewrite <- A7. specialize (V7 b). unfold owned. split.
    + intros [|[|(k0 & f0 & H0)]]; [tauto|tauto|]. apply lookup_insert_Some in H0 as [(_ & [= -> _])|(_ & H0)]; [by left|]. right. right. right. eauto.
    + intros [->|[|[|(k0 & f0 & H0)]]]; [|tauto|tauto|].
      * right. right. exists k, f. by rewrite lookup_insert_eq.
      * right. right. exists k0, f0. rewrite lookup_insert_ne by (by intros <-; rewrite Hk in H0). done.
Qed.

(** ** Counting pages *)

(** A directory has at most [NPDENTRIES] tables. *)
Lemma pages_count pg pgdir (l X : list Z) : NoDup l → (∀ a, a ∈ l → in_tables pg pgdir a ∨ a ∈ X) → (length l ≤ 1025 + length X)%nat.
Proof.
  intros Hnd H. transitivity (length (pgdir :: map (λ i, table pg pgdir (Z.of_nat i)) (seq 0 1024) ++ X)).
  - apply submseteq_length, NoDup_submseteq; [done|]. intros a Ha. apply elem_of_cons. rewrite elem_of_app.
    destruct (H a Ha) as [[|(i & Hi & _ & <-)]|]; [by left|right; left|by right; right].
    apply list_elem_of_fmap. exists (Z.to_nat i). rewrite Z2Nat.id by lia. split; [done|]. apply elem_of_seq. unfold NPDENTRIES in *. lia.
  - cbn [length]. rewrite length_app, length_map, length_seq. lia.
Qed.

(** The pages a space maps below page [n]. *)
Definition upages (us : uspace) (n : Z) : list Z := map (λ k, default 0 (fst <$> us !! Z.of_nat k)) (seq 0 (Z.to_nat n)).

Lemma upages_elem us n k a f : 0 ≤ k < n → us !! k = Some (a, f) → a ∈ upages us n.
Proof.
  intros Hk E. apply list_elem_of_fmap. exists (Z.to_nat k). rewrite Z2Nat.id, E by lia. split; [done|]. apply elem_of_seq. lia.
Qed.

(** ** [allocuvm] *)

Definition zpage : list Z := replicate (Z.to_nat PGSIZE) 0.

(** Flags of a page of user memory. *)
Definition PTE_UWP : Z := Z.lor (Z.lor PTE_W PTE_U) PTE_P.

(** Pages [j], ... below [newsz] are new and zero. *)
Definition grown us m' (j newsz : Z) us' : Prop := ∀ k,
  if (j <=? k) && (k * PGSIZE <? newsz) then ∃ a, us' !! k = Some (a, PTE_UWP) ∧ m_pages m' !! a = Some zpage else us' !! k = us !! k.

(** [kalloc], filling the page and [mappages]. *)
Lemma add_page s i c pgdir a l us k perm d :
  kmem_free s i c → aspace (mm s) pgdir (a :: l) us → 0 ≤ k < UPAGES → us !! k = None → 0 ≤ perm < 4096 → length d = Z.to_nat PGSIZE →
  ∃ m1, kalloc s = Ok a (set_mm m1 s) ∧ a ≠ 0 ∧ m_pages m1 = m_pages (mm s) ∧
    (set_page a d (set_mm m1 s) = Ok tt (set_mm (set_m_pages (<[a := d]> (m_pages m1)) m1) s)) ∧
  ∃ r m3 l3, mappages pgdir (k * PGSIZE) PGSIZE (V2P a) perm (set_mm (set_m_pages (<[a := d]> (m_pages m1)) m1) s) = Ok r (set_mm m3 s) ∧
    (r = 0 ∧ uvm_step (mm s) m3 pgdir (a :: l) l3 us (<[k := (a, Z.lor perm PTE_P)]> us) ∧ m_pages m3 !! a = Some d
     ∨ r = -1 ∧ l3 = [] ∧ in_hand (mm s) m3 pgdir (a :: l) l3 us us a).
Proof.
  intros Hf A Hk Hn Hperm Hd. destruct (kalloc_ok s i c (a :: l) Hf (as_kmem _ _ _ _ A)) as (m1 & R1 & K1 & P1 & U1 & S1). cbn [hd tl] in *.
  pose proof (free_page_here _ _ _ (as_kmem _ _ _ _ A)) as (H1 & _ & _ & e & He & _).
  exists m1. split; [done|]. split; [lia|]. split; [done|].
  split; [rewrite (set_page_ok a e); [by rewrite set_mm_set, mm_set|by rewrite mm_set, P1]|].
  pose proof (in_hand_take _ m1 _ _ _ _ d A K1 P1 U1 S1 Hd) as HO. set (m2 := set_m_pages _ m1) in *.
  destruct (map_one (set_mm m2 s) i c pgdir l us a k perm) as (r & m3 & l3 & R & V & Hr);
    [apply kmem_free_set; [done|apply U1]|apply HO|apply HO|done|done|done|]. rewrite set_mm_set, ?mm_set in *.
  exists r, m3, l3. split; [done|]. destruct Hr as [[-> A3]|(-> & -> & A3)]; [left|right; split; [done|]; split; [done|by eapply in_hand_vm]].
  split; [done|]. destruct (in_hand_map _ _ _ _ _ _ _ _ _ _ _ HO V Hn A3) as [ST ->]. split; [done|]. cbn. by rewrite lookup_insert_eq.
Qed.

Lemma kmem_free_said s i c txt : kmem_free s i c → kmem_free (said txt s) i c.
Proof. intros Hf Hu. destruct (Hf Hu) as [[H1 H2 H3] H4]. split; [by split|done]. Qed.

(** All pages of [l] but [a] have become tables. *)
Definition used_up m pgdir (l : list Z) (a : Z) : Prop :=
  ∃ pg, ∀ b, b ∈ l ∨ in_tables (m_pages m) pgdir b → in_tables pg pgdir b ∨ b = a.

(** One page: it is added, or the loop is left. *)
Lemma alloc_turn (K : Prelude.K (kstate (mem * Xf)) Z) s i c pgdir l us j oldsz newsz :
  kmem_free s i c → aspace (mm s) pgdir l us → 0 ≤ j < UPAGES → us !! j = None → 0 ≤ oldsz < newsz → newsz < KERNBASE →
  let run := (mem ← kalloc;
    if mem =? 0 then message "allocuvm out of memory";; deallocuvm pgdir newsz oldsz;; mret 0 else
    memset_page mem 0;;
    r ← mappages pgdir (j * PGSIZE) PGSIZE (V2P mem) (Z.lor PTE_W PTE_U);
    if r <? 0 then message "allocuvm out of memory (2)";; deallocuvm pgdir newsz oldsz;; kfree mem;; mret 0 else K) s in
  (∃ txt m' l' us' a, run = Ok 0 (set_mm m' (said txt s)) ∧ uvm_step (mm s) m' pgdir l l' us us' ∧ dropped us (npages oldsz) newsz us'
     ∧ used_up (mm s) pgdir l a) ∨
  (∃ a m' l', run = K (set_mm m' s) ∧ uvm_step (mm s) m' pgdir l l' us (<[j := (a, PTE_UWP)]> us) ∧ m_pages m' !! a = Some zpage).
Proof.
  intros Hf A Hj Hn Ho Hk. cbv zeta. destruct l as [|a l].
  - destruct (kalloc_ok s i c [] Hf (as_kmem _ _ _ _ A)) as (m1 & R1 & K1 & P1 & U1 & S1). cbn [hd tl] in *.
    rewrite (bind_ok _ _ _ _ _ R1), Z.eqb_refl. set (txt := "allocuvm out of memory"%string).
    rewrite (bind_ok _ _ _ _ _ (message_ok txt _ eq_refl)).
    assert (ST1 : uvm_step (mm s) m1 pgdir [] [] us us).
    { split; [eapply aspace_frame; [exact A|done|]; intros b Hb; rewrite P1; split; [done|apply not_elem_of_nil]|..]; rewrite ?P1; done. }
    destruct (deallocuvm_ok (said txt (set_mm m1 s)) i c pgdir [] us newsz oldsz) as (m' & l' & us' & R & ST & D);
      [by apply kmem_free_said, kmem_free_set|apply ST1|lia|lia|].
    rewrite (bind_ok _ _ _ _ _ R). left. exists txt, m', l', us', 0. split; [done|]. split; [by eapply uvm_step_trans; [exact ST1|exact ST|]|].
    split; [done|]. exists (m_pages (mm s)). intros b [[]%elem_of_nil|]; by left.
  - destruct (add_page s i c pgdir a l us j (Z.lor PTE_W PTE_U) zpage Hf A Hj Hn) as (m1 & R1 & Ha & P1 & R2 & r & m3 & l3 & R3 & Hr);
      [done|apply length_replicate|].
    rewrite (bind_ok _ _ _ _ _ R1), (proj2 (Z.eqb_neq _ _) Ha). unfold memset_page. fold zpage. rewrite (bind_ok _ _ _ _ _ R2), (bind_ok _ _ _ _ _ R3).
    destruct Hr as [(-> & ST1 & Ez)|(-> & -> & HO)]; cbn [Z.ltb Z.compare]; [right; by exists a, m3, l3|left].
    set (txt := "allocuvm out of memory (2)"%string). rewrite (bind_ok _ _ _ _ _ (message_ok txt _ eq_refl)).
    destruct (deallocuvm_ok (said txt (set_mm m3 s)) i c pgdir [] us newsz oldsz) as (m4 & l4 & us4 & R4 & ST & D);
      [apply kmem_free_said, kmem_free_set; [done|exact (ho_lock _ _ _ _ _ _ _ _ HO)]|exact (ho_space _ _ _ _ _ _ _ _ HO)|lia|lia|].
    rewrite (bind_ok _ _ _ _ _ R4).
    assert (HO4 : in_hand (mm s) m4 pgdir (a :: l) l4 us us4 a) by (eapply in_hand_trans; [exact HO|exact ST|done]).
    destruct (free_spare (set_mm m4 (said txt s)) i c pgdir l4 us4 a) as [R5 _];
      [apply kmem_free_set; [by apply kmem_free_said|exact (ho_lock _ _ _ _ _ _ _ _ HO4)]|exact (ho_space _ _ _ _ _ _ _ _ HO4)|exact (ho_spare _ _ _ _ _ _ _ _ HO4)|].
    exists txt, (freed a m4), (a :: l4), us4, a. split; [|split; [by apply in_hand_free|split; [done|]]].
    + change (set_mm m4 (said txt (set_mm m3 s))) with (set_mm m4 (said txt s)). by rewrite (bind_ok _ _ _ _ _ R5).
    + exists (m_pages m3). intros b Hb. assert (Hnp : ∀ k f, us !! k ≠ Some (b, f)).
      { intros k f E. destruct (as_page _ _ _ _ A k b f E) as (_ & _ & _ & ? & ? & _). tauto. }
      destruct (proj2 (ho_owned _ _ _ _ _ _ _ _ HO b)) as [|[[]%elem_of_nil|[|(k & f & E)]]]; [|by right|by left|by destruct (Hnp k f)].
      destruct Hb; [by left|right; by left].
Qed.

(** The pages of [l0] are still free, are tables, or were mapped ([X]). *)
Definition spent m pgdir (l l0 X : list Z) : Prop := ∀ b, b ∈ l0 → b ∈ l ∨ in_tables (m_pages m) pgdir b ∨ b ∈ X.

Lemma spent_step m m' pgdir l l' us j a f l0 X :
  aspace m pgdir l us → uvm_step m m' pgdir l l' us (<[j := (a, f)]> us) → spent m pgdir l l0 X → spent m' pgdir l' l0 (a :: X).
Proof.
  intros A ST Hs b Hb. rewrite elem_of_cons. destruct (decide (b ∈ X)); [by right; right; right|].
  assert (Ho : b ∈ l ∨ in_tables (m_pages m) pgdir b) by (destruct (Hs b Hb) as [|[]]; tauto).
  destruct (proj2 (ut_owned _ _ _ _ _ _ _ ST b)) as [|[|(k & g & E)]]; [destruct Ho; [by left|right; by left]|by left|by right; left|].
  apply lookup_insert_Some in E as [(_ & [= -> _])|(_ & E)]; [by right; right; left|].
  destruct (as_page _ _ _ _ A k b g E) as (_ & _ & _ & ? & ? & _). tauto.
Qed.

Lemma spent_count m pgdir l l0 X a : NoDup l0 → spent m pgdir l l0 X → used_up m pgdir l a → (length l0 ≤ 1025 + S (length X))%nat.
Proof.
  intros Hnd Hs (pg & Hu). apply (pages_count pg pgdir l0 (a :: X) Hnd). intros b Hb. rewrite elem_of_cons.
  destruct (Hs b Hb) as [|[|]]; [destruct (Hu b); auto..|auto].
Qed.

Lemma grown_next us m m' pgdir l l' us' j a newsz :
  uvm_step m m' pgdir l l' (<[j := (a, PTE_UWP)]> us) us' → m_pages m !! a = Some zpage → j * PGSIZE < newsz →
  grown (<[j := (a, PTE_UWP)]> us) m' (j + 1) newsz us' → grown us m' j newsz us'.
Proof.
  intros ST Ez Hlt G k. specialize (G k). destruct (decide (k = j)) as [->|Hne].
  - rewrite (proj2 (Z.leb_gt (j + 1) j)) in G by lia. cbn [andb] in G. rewrite lookup_insert_eq in G.
    rewrite Z.leb_refl, (proj2 (Z.ltb_lt _ _) Hlt). exists a. split; [done|].
    rewrite <- Ez. apply (ut_keep _ _ _ _ _ _ _ ST j (a, PTE_UWP)); [by rewrite lookup_insert_eq|done].
  - replace (j <=? k) with (j + 1 <=? k) by (destruct (Z.leb_spec (j + 1) k), (Z.leb_spec j k); done || lia).
    destruct (_ && _); [done|]. rewrite G. by apply lookup_insert_ne.
Qed.

Lemma allocuvm_loop_ok i c pgdir oldsz newsz l0 : 0 ≤ oldsz → 0 ≤ newsz < KERNBASE → NoDup l0 → ∀ fuel j l us s X,
  kmem_free s i c → aspace (mm s) pgdir l us → npages oldsz ≤ j → (0 < fuel)%nat → newsz ≤ (j + Z.of_nat fuel - 1) * PGSIZE →
  (∀ k, j ≤ k → k * PGSIZE < newsz → us !! k = None) → spent (mm s) pgdir l l0 X → Z.of_nat (length X) = j - npages oldsz →
  ∃ r s' m' l' us', allocuvm_loop fuel pgdir (j * PGSIZE) oldsz newsz s = Ok r (set_mm m' s') ∧ uvm_step (mm s) m' pgdir l l' us us' ∧
    (r = newsz ∧ s' = s ∧ grown us m' j newsz us' ∨
     r = 0 ∧ (∃ txt, s' = said txt s) ∧ dropped us (npages oldsz) newsz us' ∧ Z.of_nat (length l0) ≤ 1025 + (npages newsz - npages oldsz)).
Proof.
  intros Ho Hnk Hnd. pose proof (npages_spec oldsz Ho) as Hnp. pose proof (npages_spec newsz ltac:(lia)) as Hnn.
  induction fuel as [|fuel IH]; intros j l us s X Hf A Hj Hf0 Hfu Hn Hs Hx; [lia|]. cbn [allocuvm_loop].
  destruct (Z.ltb_spec (j * PGSIZE) newsz) as [Hlt|Hge]; cbn [negb].
  2:{ exists newsz, s, (mm s), l, us. rewrite set_mm_id, s32_small by (unfold KERNBASE in *; lia). split; [done|].
      split; [by apply uvm_step_refl|]. left. split; [done|]. split; [done|]. intros k.
      destruct (Z.leb_spec j k), (Z.ltb_spec (k * PGSIZE) newsz); try done. unfold PGSIZE in *. lia. }
  assert (Hju : 0 ≤ j < UPAGES) by (change UPAGES with 524288; unfold KERNBASE, PGSIZE in *; lia).
  replace (u32 (j * PGSIZE + PGSIZE)) with ((j + 1) * PGSIZE) by (rewrite u32_small; unfold KERNBASE, PGSIZE in *; lia).
  destruct (alloc_turn (allocuvm_loop fuel pgdir ((j + 1) * PGSIZE) oldsz newsz) s i c pgdir l us j oldsz newsz Hf A Hju)
    as [(txt & m' & l' & us' & a & R & ST & D & Hu)|(a & m3 & l3 & R & ST1 & Ez)]; [apply Hn; lia|unfold PGSIZE in *; lia|lia|..];
    cbv zeta in R; rewrite R; clear R.
  { exists 0, (said txt s), m', l', us'. split; [done|]. split; [done|]. right. split; [done|]. split; [by exists txt|]. split; [done|].
    pose proof (spent_count _ _ _ _ _ _ Hnd Hs Hu). unfold PGSIZE in *. lia. }
  set (us1 := <[j := _]> us) in *.
  destruct (IH (j + 1) l3 us1 (set_mm m3 s) (a :: X)) as (r & s' & m' & l' & us' & R & ST & Hr);
    [apply kmem_free_set; [done|exact (ut_lock _ _ _ _ _ _ _ ST1)]|exact (ut_space _ _ _ _ _ _ _ ST1)|lia|unfold PGSIZE in *; lia|unfold PGSIZE in *; lia|..
    |by eapply spent_step|cbn [length]; lia|].
  { intros k H1 H2. unfold us1. rewrite lookup_insert_ne by lia. apply Hn; lia. }
  rewrite mm_set in ST. assert (Hin : ∀ k e, us !! k = Some e → us1 !! k = Some e).
  { intros k e Hk. unfold us1. rewrite lookup_insert_ne; [done|]. intros <-. rewrite Hn in Hk by lia. done. }
  pose proof (uvm_step_trans _ _ _ _ _ _ _ _ _ _ ST1 ST ltac:(eauto)) as ST'.
  destruct Hr as [(-> & -> & G)|(-> & (txt & ->) & D & Hc)].
  - exists newsz, s, m', l', us'. rewrite set_mm_set in R. split; [done|]. split; [done|]. left. split; [done|]. split; [done|]. by eapply grown_next.
  - exists 0, (said txt s), m', l', us'. split; [done|]. split; [done|]. right. split; [done|]. split; [by exists txt|]. split; [|done]. intros k. rewrite (D k).
    destruct (Z.leb_spec (npages oldsz) k), (Z.ltb_spec (k * PGSIZE) newsz); cbn [andb]; try done; unfold us1; apply lookup_insert_ne; lia.
Qed.

Lemma dropped_none us j sz us' : dropped us j sz us' → (∀ k, j ≤ k → k * PGSIZE < sz → us !! k = None) → us' = us.
Proof.
  intros D Hn. apply map_eq. intros k. rewrite (D k). destruct (Z.leb_spec j k), (Z.ltb_spec (k * PGSIZE) sz); try done. by rewrite Hn.
Qed.

(** [allocuvm] grows the space by zero pages, or leaves it and every page of it
    as it was; it does not fail with enough free pages. *)
Lemma allocuvm_ok s i c pgdir l us oldsz newsz :
  kmem_free s i c → aspace (mm s) pgdir l us → 0 ≤ oldsz ≤ newsz → newsz < KERNBASE →
  (∀ k, npages oldsz ≤ k → k * PGSIZE < newsz → us !! k = None) →
  ∃ r s' m' l' us', allocuvm pgdir oldsz newsz s = Ok r (set_mm m' s') ∧ uvm_step (mm s) m' pgdir l l' us us' ∧
    (r = newsz ∧ s' = s ∧ grown us m' (npages oldsz) newsz us' ∨
     r = 0 ∧ (∃ txt, s' = said txt s) ∧ us' = us ∧ Z.of_nat (length l) ≤ 1025 + (npages newsz - npages oldsz)).
Proof.
  intros Hf A Ho Hk Hn. pose proof (npages_spec oldsz ltac:(lia)). unfold allocuvm.
  rewrite (proj2 (Z.leb_gt _ _)), (proj2 (Z.ltb_ge _ _)) by lia. rewrite pgroundup_eq by (unfold KERNBASE, PGSIZE in *; lia). fold (npages oldsz).
  assert (0 ≤ newsz / PGSIZE) by (apply Z.div_pos; [lia|done]). pose proof (Z.div_mod newsz PGSIZE ltac:(done)).
  pose proof (Z.mod_pos_bound newsz PGSIZE ltac:(done)).
  destruct (allocuvm_loop_ok i c pgdir oldsz newsz l ltac:(lia) ltac:(lia) (kw_nodup _ _ (as_kmem _ _ _ _ A))
    (S (Z.to_nat (newsz / PGSIZE + 1))) (npages oldsz) l us s [] Hf A)
    as (r & s' & m' & l' & us' & R & ST & Hr); [lia|lia|unfold PGSIZE in *; lia|done|intros b Hb; by left|cbn [length]; lia|].
  exists r, s', m', l', us'. split; [done|]. split; [done|]. destruct Hr as [|(-> & Ht & D & Hc)]; [by left|right].
  split; [done|]. split; [done|]. split; [by eapply dropped_none|done].
Qed.

End uvm.

(** ** [setupkvm] *)

Section setup.
Context {Xf : Type} {LK : Linker} {LKO : LinkerOk}.
Implicit Types (s : kstate (mem * Xf)) (m : mem) (us : uspace) (km : Z → option Z).

(** A range of [kmap] and the ones after it, all above [top]. *)
Fixpoint kmap_ok (top : Z) (ks : list (Z * Z * Z * Z)) : Prop :=
  match ks with
  | [] => True
  | (virt, lo, hi, perm) :: ks' =>
      let size := u32 (hi - lo) in
      (top ≤ virt ∧ virt + size ≤ 2 ^ 32 ∧ 0 ≤ lo ∧ lo + size ≤ 2 ^ 32 ∧ 0 < size ∧ 0 ≤ perm < 4096) ∧
      (virt mod PGSIZE = 0 ∧ lo mod PGSIZE = 0 ∧ size mod PGSIZE = 0) ∧ kmap_ok (virt + size) ks'
  end.

Lemma kmap_fits : kmap_ok KERNBASE kmap.
Proof.
  pose proof lk_text as H1. pose proof lk_page as H2. pose proof lk_data as H3. pose proof lk_end as H4.
  unfold KERNLINK, KERNBASE, EXTMEM, PHYSTOP, PGSIZE in *. assert (E : V2P kdata = kdata - 2 ^ 31) by (unfold V2P, KERNBASE; rewrite u32_small; lia).
  assert (E2 : (kdata - 2 ^ 31) mod 4096 = 0) by (rewrite Zminus_mod, H2; done).
  assert (M : ∀ a b, a mod 4096 = 0 → b mod 4096 = 0 → (a - b) mod 4096 = 0) by (intros a b Ha Hb; by rewrite Zminus_mod, Ha, Hb).
  unfold kmap. cbn [kmap_ok]. unfold KERNLINK, KERNBASE, EXTMEM, PHYSTOP, DEVSPACE, PGSIZE, PTE_W. rewrite E.
  change (V2P (2 ^ 31 + 2 ^ 20)) with (2 ^ 20). change (u32 (2 ^ 20 - 0)) with (2 ^ 20). change (u32 (0 - 4261412864)) with 33554432.
  rewrite (u32_small (kdata - 2 ^ 31 - 2 ^ 20)), (u32_small (234881024 - (kdata - 2 ^ 31))) by lia.
  split_and!; try done; try lia; by apply M.
Qed.

Lemma aligned_last virt size : virt mod PGSIZE = 0 → size mod PGSIZE = 0 → 0 < size → last_page virt size + 1 = size / PGSIZE.
Proof.
  intros H1 H2 H3. unfold last_page, PGSIZE in *. pose proof (Z.div_mod virt 4096 ltac:(done)). pose proof (Z.div_mod size 4096 ltac:(done)).
  replace (virt + size - 1) with ((virt / 4096 + size / 4096 - 1) * 4096 + 4095) by lia. rewrite Z.div_add_l by done.
  change (4095 / 4096) with 0. lia.
Qed.

Lemma kmap_step s i c km pgdir l virt lo size perm :
  kmem_free s i c → aspace km (mm s) pgdir l ∅ → (∀ va, virt ≤ va < 2 ^ 32 → km va = None) →
  KERNBASE ≤ virt → virt + size ≤ 2 ^ 32 → 0 ≤ lo → lo + size ≤ 2 ^ 32 → 0 < size → 0 ≤ perm < 4096 →
  virt mod PGSIZE = 0 → lo mod PGSIZE = 0 → size mod PGSIZE = 0 →
  ∃ r m' l' km', mappages pgdir virt size lo perm s = Ok r (set_mm m' s) ∧ vm_step (mm s) m' pgdir l l' ∧ aspace km' m' pgdir l' ∅ ∧
    (r = 0 ∧ km' = mapped km virt lo perm (Z.to_nat (size / PGSIZE)) ∨ r = -1 ∧ l' = []).
Proof.
  intros Hf A Hn V1 V2 L1 L2 S1 Hp M1 M2 M3. pose proof A as [A1 A2 A3 A4 A5 A6 A7]. pose proof (aligned_last virt size M1 M3 S1) as El.
  pose proof (Z.div_mod size PGSIZE ltac:(done)) as Ds. unfold KERNBASE in V1.
  destruct (mappages_ok pgdir perm virt size lo l s i c Hf A1 A2 ltac:(lia) S1 V2 L1 M2) as (r & m' & l' & k & R & V & X & Hr).
  { rewrite El. lia. }
  { done. }
  { intros j Hj. rewrite pgrounddown_eq, M1, Z.sub_0_r by lia. assert (virt ≤ virt + j * PGSIZE < 2 ^ 32) by (unfold PGSIZE in *; lia).
    rewrite A4 by (unfold KERNBASE; lia). by apply Hn. }
  assert (Dv : virt / PGSIZE * PGSIZE = virt) by (pose proof (Z.div_mod virt PGSIZE ltac:(done)); lia).
  exists r, m', l', (mapped km virt lo perm k). split; [done|]. split; [done|]. split.
  2:{ destruct Hr as [(-> & E)|(-> & _ & ->)]; [left|by right]. split; [done|]. f_equal. lia. }
  split; [apply V|apply V| | |done|done|].
  - intros va Hv. rewrite X by (unfold KERNBASE in *; lia). unfold mapped. rewrite (proj2 (Z.leb_gt 0 _)); [by apply A3|].
    assert (va / PGSIZE < virt / PGSIZE); [|lia]. apply Z.div_lt_upper_bound; [done|]. unfold KERNBASE in *. lia.
  - intros va Hv. rewrite X by (unfold KERNBASE in *; lia). apply mapped_ext. by apply A4.
  - intros a Ha. destruct (proj1 (vs_owned _ _ _ _ _ V a) (or_intror Ha)) as [Hl|]; [|by apply A7].
    pose proof (kw_good _ _ A1) as Hg. rewrite list.Forall_forall in Hg. by apply Hg.
Qed.

(** A new space [us] made of pages of the free list. *)
Record new_space km m m' (pgdir : Z) (l l' : list Z) us : Prop := NewSpace {
  ns_space : aspace km m' pgdir l' us;
  ns_lock : m_use_lock m' = m_use_lock m;
  ns_shmem : m_shmem m' = m_shmem m;
  ns_frame : ∀ a, a ∉ l → m_pages m' !! a = m_pages m !! a;
  ns_owned : ∀ a, a ∈ l' ∨ owned (m_pages m') pgdir us a ↔ a ∈ l
}.

(** The free list has the same pages as before, and nothing else changed. *)
Record unchanged m m' (l l' : list Z) : Prop := Unchanged {
  un_kmem : kmem_wf m' l';
  un_lock : m_use_lock m' = m_use_lock m;
  un_shmem : m_shmem m' = m_shmem m;
  un_frame : ∀ a, a ∉ l → m_pages m' !! a = m_pages m !! a;
  un_list : ∀ a, a ∈ l' ↔ a ∈ l
}.

Lemma new_space_step km m m1 m2 pgdir l l1 l2 us us' :
  new_space km m m1 pgdir l l1 us → uvm_step km m1 m2 pgdir l1 l2 us us' → new_space km m m2 pgdir l l2 us'.
Proof.
  intros [N1 N2 N3 N4 N5] [U1 U2 U3 U4 U5 U6]. split; [done|congruence|congruence| |intros a; by rewrite U6].
  intros a Ha. specialize (N5 a). rewrite <- N4 by done. apply U4; tauto.
Qed.

Lemma new_space_vm km km' m m1 m2 pgdir l l1 l2 us :
  new_space km m m1 pgdir l l1 us → vm_step m1 m2 pgdir l1 l2 → aspace km' m2 pgdir l2 us → new_space km' m m2 pgdir l l2 us.
Proof.
  intros [N1 N2 N3 N4 N5] [V1 V2 V3 V4 V5 V6 V7] A. split; [done|congruence|congruence| |].
  - intros a Ha. specialize (N5 a). rewrite <- N4 by done. apply V6; [tauto|]. intros Ht. assert (owned (m_pages m1) pgdir us a) by (by left). tauto.
  - intros a. rewrite <- N5. specialize (V7 a). unfold owned. tauto.
Qed.

Lemma new_space_free km m m1 m2 pgdir l l1 l2 us :
  new_space km m m1 pgdir l l1 us → given_back m1 m2 pgdir l1 l2 us → unchanged m m2 l l2.
Proof.
  intros [N1 N2 N3 N4 N5] [G1 G2 G3 G4 G5]. split; [done|congruence|congruence| |intros a; by rewrite G2].
  intros a Ha. rewrite <- N4 by done. apply G3. by rewrite G2, N5.
Qed.

Lemma setupkvm_loop_ok i c m pgdir l : NoDup l → ∀ ks top km l1 s,
  kmem_free s i c → new_space km m (mm s) pgdir l l1 ∅ → KERNBASE ≤ top → (∀ va, top ≤ va < 2 ^ 32 → km va = None) → kmap_ok top ks →
  ∃ r m' l', setupkvm_loop pgdir ks s = Ok r (set_mm m' s) ∧
    (r = pgdir ∧ new_space (foldl (λ old '(virt, lo, hi, perm), mapped old virt lo perm (Z.to_nat (u32 (hi - lo) / PGSIZE))) km ks) m m' pgdir l l' ∅
     ∨ r = 0 ∧ unchanged m m' l l' ∧ (length l ≤ 1025)%nat).
Proof.
  intros Hnd. induction ks as [|[[[virt lo] hi] perm] ks IH]; intros top km l1 s Hf N Ht Hn Hk; cbn [setupkvm_loop foldl].
  { exists pgdir, (mm s), l1. rewrite set_mm_id. split; [done|]. by left. }
  destruct Hk as ((H1 & H2 & H3 & H4 & H5 & H6) & (M1 & M2 & M3) & Hk). set (size := u32 (hi - lo)) in *.
  destruct (kmap_step s i c km pgdir l1 virt lo size perm Hf (ns_space _ _ _ _ _ _ _ N)) as (r & m2 & l2 & km2 & R & V & A2 & Hr); try done; try lia.
  { intros va Hv. apply Hn. lia. }
  rewrite (bind_ok _ _ _ _ _ R). pose proof (new_space_vm _ _ _ _ _ _ _ _ _ _ N V A2) as N2.
  assert (Hf2 : kmem_free (set_mm m2 s) i c) by (apply kmem_free_set; [done|exact (vs_lock _ _ _ _ _ V)]).
  destruct Hr as [(-> & ->)|(-> & ->)]; cbn [Z.ltb Z.compare].
  - destruct (IH (virt + size) _ l2 (set_mm m2 s) Hf2 N2) as (r & m' & l' & R' & Hr); [lia| |done|exists r, m', l'; by rewrite set_mm_set in R'].
    intros va Hv. unfold mapped. rewrite (proj2 (Z.ltb_ge _ _)); [rewrite andb_false_r; apply Hn; lia|].
    rewrite Z2Nat.id by (apply Z.div_pos; [lia|done]). assert (virt / PGSIZE + size / PGSIZE ≤ va / PGSIZE); [|lia].
    apply Z.div_le_lower_bound; [done|]. pose proof (Z.div_mod virt PGSIZE ltac:(done)). pose proof (Z.div_mod size PGSIZE ltac:(done)). lia.
  - destruct (freevm_ok km2 (set_mm m2 s) i c pgdir [] ∅ Hf2 A2) as (m3 & l3 & R3 & G). rewrite (bind_ok _ _ _ _ _ R3).
    exists 0, m3, l3. split; [done|]. right. split; [done|]. split; [by eapply new_space_free|].
    apply (pages_count (m_pages m2) pgdir l [] Hnd). intros a Ha. apply (ns_owned _ _ _ _ _ _ _ N2) in Ha.
    destruct Ha as [[]%elem_of_nil|[|(k & f & [=])]]; by left.
Qed.

(** A directory of zeros maps nothing. *)
Lemma empty_space m m1 a l :
  kmem_wf m (a :: l) → kmem_wf m1 l → m_pages m1 = m_pages m → m_use_lock m1 = m_use_lock m → m_shmem m1 = m_shmem m →
  new_space (λ _, None) m (set_m_pages (<[a := zpage]> (m_pages m1)) m1) a (a :: l) l ∅.
Proof.
  intros K K1 P1 U1 S1. set (m2 := set_m_pages _ _). pose proof (kw_nodup _ _ K) as Hnd. apply list.NoDup_cons in Hnd as [Hal _].
  pose proof (free_page_here _ _ _ K) as Hh. pose proof (kw_good _ _ K) as Hg. apply list.Forall_cons in Hg as [Hg _].
  assert (Hz : ∀ i, 0 ≤ i < NPDENTRIES → has (pde (m_pages m2) a i) PTE_P = false).
  { intros i Hi. unfold pde, m2. cbn [m_pages set_m_pages]. rewrite page_insert_eq. unfold zpage, NPDENTRIES in *. rewrite rd_zero_page; [done|unfold PGSIZE; lia]. }
  assert (Ht : ∀ b, in_tables (m_pages m2) a b ↔ b = a).
  { intros b. split; [|by left]. intros [|(i & Hi & Hp & _)]; [done|]. by rewrite Hz in Hp. }
  assert (Hx : ∀ va, 0 ≤ va < 2 ^ 32 → xlate (m_pages m2) a va = None).
  { intros va Hv. destruct (index_bounds va Hv) as [Hi _]. unfold xlate. by rewrite Hz. }
  split; [split| | | |]; try done.
  - by apply kmem_wf_page; [|done|apply length_replicate].
  - split; [|intros i Hi; by rewrite Hz|intros i j Hi _; by rewrite Hz]. split; [|done].
    unfold m2. cbn [m_pages set_m_pages]. rewrite P1. apply page_here_insert; [done|apply length_replicate].
  - intros va Hv. rewrite Hx by (unfold KERNBASE in *; lia). by rewrite lookup_empty.
  - intros va Hv. apply Hx. unfold KERNBASE in *. lia.
  - intros b. rewrite Ht. by intros ->.
  - intros b [Hb _]%not_elem_of_cons. unfold m2. cbn. by rewrite lookup_insert_ne, P1.
  - intros b. unfold owned. rewrite Ht, elem_of_cons. setoid_rewrite lookup_empty. naive_solver.
Qed.

(** [setupkvm] makes a space with the kernel's mappings and no user page, or
    gives back what it took; it does not fail with 1026 free pages. *)
Lemma setupkvm_ok s i c l :
  kmem_free s i c → kmem_wf (mm s) l →
  ∃ r m' l', setupkvm s = Ok r (set_mm m' s) ∧
    (r ≠ 0 ∧ new_space kern_map (mm s) m' r l l' ∅ ∨ r = 0 ∧ unchanged (mm s) m' l l' ∧ (length l ≤ 1025)%nat).
Proof.
  intros Hf K. unfold setupkvm. destruct (kalloc_ok s i c l Hf K) as (m1 & R1 & K1 & P1 & U1 & S1). rewrite (bind_ok _ _ _ _ _ R1).
  destruct l as [|a l]; cbn [hd tl] in *.
  { exists 0, m1, []. split; [done|]. right. split; [done|]. split; [|simpl; lia]. split; try done. intros b _. by rewrite P1. }
  pose proof (free_page_here _ _ _ K) as (Ha & _ & _ & d & Hd & _). rewrite (proj2 (Z.eqb_neq a 0)) by lia.
  unfold memset_page. rewrite (bind_ok _ _ _ _ _ (set_page_ok a d _ (set_mm m1 s) ltac:(by rewrite mm_set, P1))). rewrite set_mm_set, mm_set.
  change (DEVSPACE <? P2V PHYSTOP) with false. cbn match. pose proof (empty_space _ m1 a l K K1 P1 U1 S1) as N. fold zpage. set (m2 := set_m_pages _ m1) in *.
  destruct (setupkvm_loop_ok i c (mm s) a (a :: l) (kw_nodup _ _ K) kmap KERNBASE (λ _, None) l (set_mm m2 s)) as (r & m' & l' & R & Hr);
    [by apply kmem_free_set|done|done|done|apply kmap_fits|]. rewrite set_mm_set in R. exists r, m', l'. split; [done|].
  destruct Hr as [(-> & N')|]; [left|by right]. split; [lia|done].
Qed.

End setup.

(** ** [copyuvm] *)

Lemma lor_odd f : Z.odd f = true → Z.lor f PTE_P = f.
Proof.
  intros Ho. apply Z.bits_inj_iff'. intros n Hn. rewrite Z.lor_spec. destruct (decide (n = 0)) as [->|].
  - by rewrite Z.bit0_odd, Ho.
  - unfold PTE_P. change 1 with (2 ^ 0). rewrite Z.pow2_bits_false by lia. apply orb_false_r.
Qed.

Section copy.
Context {Xf : Type} {LK : Linker} {LKO : LinkerOk}.
Implicit Types (s : kstate (mem * Xf)) (m : mem) (us : uspace) (km : Z → option Z).

(** A space keeps its pages when another one is made. *)
Lemma aspace_other km km' m m' p d l l' us usd :
  aspace km m p l us → new_space km' m m' d l l' usd →
  aspace km m' p l' us ∧ (∀ a, owned (m_pages m) p us a → m_pages m' !! a = m_pages m !! a ∧ a ∉ l' ∧ ¬ owned (m_pages m') d usd a).
Proof.
  intros A [N1 N2 N3 N4 N5].
  assert (Ho : ∀ a, owned (m_pages m) p us a → a ∉ l).
  { intros a. pose proof (as_pt _ _ _ _ _ A) as A2. intros [[->|(j & Hj & Hp & <-)]|(k & f & Hk)];
      [apply (pt_dir _ _ _ A2)|apply (pt_table _ _ _ A2 j Hj Hp)|apply (as_page _ _ _ _ _ A k a f Hk)]. }
  assert (H : ∀ a, owned (m_pages m) p us a → m_pages m' !! a = m_pages m !! a ∧ a ∉ l' ∧ ¬ owned (m_pages m') d usd a).
  { intros a Ha. specialize (Ho a Ha). specialize (N5 a). split; [by apply N4|]. tauto. }
  split; [|done]. eapply aspace_frame; [exact A|apply N1|]. intros a Ha. destruct (H a Ha) as (H1 & H2 & _). done.
Qed.

Context (m0 : mem) (p d : Z) (l0 : list Z) (us : uspace) (km : Z → option Z) (A0 : aspace km m0 p l0 us).

(** The first [j] pages are copied. *)
Record copying m (l : list Z) (usd : uspace) (j : Z) : Prop := Copying {
  cp_new : new_space kern_map m0 m d l0 l usd;
  cp_done : ∀ k, 0 ≤ k < j → ∃ a f b, us !! k = Some (a, f) ∧ usd !! k = Some (b, f) ∧ m_pages m !! b = m_pages m0 !! a;
  cp_rest : ∀ k, ¬ 0 ≤ k < j → usd !! k = None
}.

Lemma copy_give_up s i c m l usd :
  kmem_free s i c → m_use_lock m = m_use_lock (mm s) → new_space kern_map m0 m d l0 l usd →
  ∃ m' l', (freevm d;; mret 0) (set_mm m s) = Ok 0 (set_mm m' s) ∧ unchanged m0 m' l0 l'.
Proof.
  intros Hf Hu N. destruct (freevm_ok kern_map (set_mm m s) i c d l usd) as (m' & l' & R & G); [by apply kmem_free_set|apply N|].
  exists m', l'. rewrite (bind_ok _ _ _ _ _ R), set_mm_set. split; [done|]. by eapply new_space_free.
Qed.

Lemma copy_count m pg l usd j x :
  copying m l usd j → 0 ≤ j →
  (∀ a, a ∈ l ∨ owned (m_pages m) d usd a → in_tables pg d a ∨ a = x ∨ ∃ k f, usd !! k = Some (a, f)) → Z.of_nat (length l0) ≤ 1026 + j.
Proof.
  intros [N C1 C2] Hj H. assert ((length l0 ≤ 1025 + length (x :: upages usd j))%nat) as Hl.
  { apply (pages_count pg d l0); [exact (kw_nodup _ _ (as_kmem _ _ _ _ _ A0))|]. intros a Ha%(ns_owned _ _ _ _ _ _ _ N). rewrite elem_of_cons.
    destruct (H a Ha) as [|[|(k & f & E)]]; [tauto|tauto|right; right]. destruct (decide (0 ≤ k < j)); [by eapply upages_elem|by rewrite C2 in E]. }
  unfold upages in Hl. cbn [length] in Hl. rewrite length_map, length_seq in Hl. lia.
Qed.

(** One page. *)
Lemma copy_turn (K : Prelude.K (kstate (mem * Xf)) Z) s i c l usd j :
  kmem_free s i c → copying (mm s) l usd j → 0 ≤ j < UPAGES → is_Some (us !! j) →
  let run := (pte ← walkpgdir p (j * PGSIZE) false;
    if pte =? 0 then kpanic "copyuvm: pte should exist" else
    e ← load pte;
    if negb (has e PTE_P) then kpanic "copyuvm: page not present" else
    mem ← kalloc;
    if mem =? 0 then freevm d;; mret 0 else
    src ← get_page (P2V (PTE_ADDR e));
    set_page mem src;;
    r ← mappages d (j * PGSIZE) PGSIZE (V2P mem) (PTE_FLAGS e);
    if r <? 0 then kfree mem;; freevm d;; mret 0 else K) s in
  (∃ m' l', run = Ok 0 (set_mm m' s) ∧ unchanged m0 m' l0 l' ∧ Z.of_nat (length l0) ≤ 1026 + j) ∨
  (∃ m' l' usd', run = K (set_mm m' s) ∧ m_use_lock m' = m_use_lock (mm s) ∧ copying m' l' usd' (j + 1)).
Proof.
  intros Hf [N C1 C2] Hj [[a f] Hus]. cbv zeta. destruct (aspace_other _ _ _ _ _ _ _ _ _ _ A0 N) as [AP HP].
  destruct (unmap_facts _ _ _ _ _ _ _ _ AP Hus) as (V & P & E & E1 & E2). destruct (as_page _ _ _ _ _ A0 j a f Hus) as (B1 & B2 & [src Hsrc] & B4 & B5 & B6 & B7).
  destruct (walk_found p l _ false s (as_pt _ _ _ _ _ AP) V P) as [R1 Np]. rewrite (bind_ok _ _ _ _ _ R1). apply Z.eqb_neq in Np as ->. unfold pte_addr.
  rewrite (bind_ok _ _ _ _ _ (load_pte p l _ s (as_pt _ _ _ _ _ AP) V P)), E, E1, E2. cbn [negb].
  destruct (upte_fields a f B2 B6) as (_ & _ & -> & _). destruct (HP a) as (Ea & _); [right; by exists j, f|]. rewrite Hsrc in Ea.
  assert (Hl : length src = Z.to_nat PGSIZE) by (by apply (kw_len _ _ (as_kmem _ _ _ _ _ A0) a)).
  destruct l as [|b l].
  { destruct (kalloc_ok s i c [] Hf (as_kmem _ _ _ _ _ AP)) as (m1 & R2 & K1 & P1 & U1 & S1). rewrite (bind_ok _ _ _ _ _ R2). cbn [hd tl] in *.
    rewrite Z.eqb_refl. left. assert (Hc : Z.of_nat (length l0) ≤ 1026 + j) by (eapply (copy_count (mm s) (m_pages (mm s)) [] usd j d); [by split|lia|]; intros x [[]%elem_of_nil|[|]]; tauto).
    destruct (copy_give_up s i c m1 [] usd Hf U1) as (m' & l' & R & U); [|by exists m', l']. eapply new_space_step; [exact N|].
    split; rewrite ?P1; try done. eapply aspace_frame; [apply N|done|]. intros x Hx. rewrite P1. split; [done|apply not_elem_of_nil]. }
  destruct (add_page kern_map s i c d b l usd j f src Hf (ns_space _ _ _ _ _ _ _ N) Hj) as (m1 & R2 & Nb & P1 & R3 & r & m3 & l3 & R4 & Hr); [apply C2; lia|done|done|].
  rewrite (bind_ok _ _ _ _ _ R2). apply Z.eqb_neq in Nb as ->.
  assert (Rg : get_page a (set_mm m1 s) = Ok src (set_mm m1 s)) by (apply get_page_ok; by rewrite mm_set, P1).
  rewrite (bind_ok _ _ _ _ _ Rg), (bind_ok _ _ _ _ _ R3), (bind_ok _ _ _ _ _ R4).
  destruct Hr as [(-> & ST & Eb)|(-> & -> & HO)]; cbn [Z.ltb Z.compare]; [right|left].
  - rewrite (lor_odd f B7) in ST. exists m3, l3, (<[j := (b, f)]> usd). split; [done|]. split; [exact (ut_lock _ _ _ _ _ _ _ _ ST)|]. split; [by apply (new_space_step _ _ _ _ _ _ _ _ _ _ N ST)|..].
    + intros k Hk. destruct (decide (k = j)) as [->|]; [exists a, f, b; rewrite lookup_insert_eq, Hsrc; done|].
      destruct (C1 k ltac:(lia)) as (a' & f' & b' & H1 & H2 & H3). exists a', f', b'. rewrite lookup_insert_ne by done. split; [done|]. split; [done|].
      rewrite <- H3. apply (ut_keep _ _ _ _ _ _ _ _ ST k (b', f')); [done|]. by rewrite lookup_insert_ne.
    + intros k Hk. rewrite lookup_insert_ne by lia. apply C2. lia.
  - destruct (free_spare kern_map (set_mm m3 s) i c d [] usd b) as [R5 _];
      [apply kmem_free_set; [done|exact (ho_lock _ _ _ _ _ _ _ _ _ HO)]|exact (ho_space _ _ _ _ _ _ _ _ _ HO)|exact (ho_spare _ _ _ _ _ _ _ _ _ HO)|].
    rewrite (bind_ok _ _ _ _ _ R5), set_mm_set.
    assert (Hc : Z.of_nat (length l0) ≤ 1026 + j).
    { eapply (copy_count (mm s) (m_pages m3) (b :: l) usd j b); [by split|lia|]. intros x Hx. pose proof (ho_owned _ _ _ _ _ _ _ _ _ HO x) as Hox.
      unfold owned in Hox. rewrite elem_of_nil in Hox. tauto. }
    destruct (copy_give_up s i c (freed b m3) [b] usd Hf) as (m' & l' & R & U); [exact (ho_lock _ _ _ _ _ _ _ _ _ HO)| |by exists m', l'].
    eapply new_space_step; [exact N|]. by apply in_hand_free.
Qed.

Lemma copyuvm_loop_ok i c sz : 0 ≤ sz ≤ KERNBASE → (∀ k, 0 ≤ k < npages sz → is_Some (us !! k)) → ∀ fuel j l usd s,
  kmem_free s i c → copying (mm s) l usd j → 0 ≤ j ≤ npages sz → (0 < fuel)%nat → npages sz ≤ j + Z.of_nat fuel - 1 →
  (∃ m' l', copyuvm_loop fuel p d (j * PGSIZE) sz s = Ok 0 (set_mm m' s) ∧ unchanged m0 m' l0 l' ∧ Z.of_nat (length l0) ≤ 1025 + npages sz) ∨
  (∃ m' l' usd', copyuvm_loop fuel p d (j * PGSIZE) sz s = Ok d (set_mm m' s) ∧ copying m' l' usd' (npages sz)).
Proof.
  intros Hsz Hall. pose proof (npages_spec sz ltac:(lia)) as Hnp.
  induction fuel as [|fuel IH]; intros j l usd s Hf C Hj Hf0 Hfu; [lia|]. cbn [copyuvm_loop].
  destruct (Z.ltb_spec (j * PGSIZE) sz) as [Hlt|Hge]; cbn [negb].
  2:{ right. exists (mm s), l, usd. rewrite set_mm_id. split; [done|]. by replace (npages sz) with j by (unfold PGSIZE in *; lia). }
  assert (Hju : 0 ≤ j < UPAGES) by (change UPAGES with 524288; unfold KERNBASE, PGSIZE in *; lia).
  replace (u32 (j * PGSIZE + PGSIZE)) with ((j + 1) * PGSIZE) by (rewrite u32_small; unfold KERNBASE, PGSIZE in *; lia).
  destruct (copy_turn (copyuvm_loop fuel p d ((j + 1) * PGSIZE) sz) s i c l usd j Hf C Hju) as [(m' & l' & R & U & Hc)|(m' & l' & usd' & R & U & C')].
  { apply Hall. unfold PGSIZE in *. lia. }
  - left. exists m', l'. split; [exact R|]. split; [done|]. unfold PGSIZE in *. lia.
  - cbv zeta in R |- *. rewrite R. destruct (IH (j + 1) l' usd' (set_mm m' s)) as [(m2 & l2 & R2 & U2)|(m2 & l2 & usd2 & R2 & C2)];
      [by apply kmem_free_set|done|unfold PGSIZE in *; lia|unfold PGSIZE in *; lia|lia|left|right].
    + exists m2, l2. by rewrite set_mm_set in R2.
    + exists m2, l2, usd2. by rewrite set_mm_set in R2.
Qed.

(** A page missing below the size, when memory lasts that long. *)
Lemma copyuvm_loop_hole i c sz k0 : us !! k0 = None → 0 ≤ k0 → k0 * PGSIZE < sz → sz ≤ KERNBASE → (∀ k, 0 ≤ k < k0 → is_Some (us !! k)) →
  has (pde (m_pages m0) p (PDX (k0 * PGSIZE))) PTE_P = true → 1025 + k0 < Z.of_nat (length l0) →
  ∀ fuel j l usd s, kmem_free s i c → copying (mm s) l usd j → 0 ≤ j ≤ k0 → k0 < j + Z.of_nat fuel →
  copyuvm_loop fuel p d (j * PGSIZE) sz s = Panic "copyuvm: page not present".
Proof.
  intros Hn H0 Hlt Hsz Hall Hp Hlen. induction fuel as [|fuel IH]; intros j l usd s Hf C Hj Hfu; [lia|].
  destruct (aspace_other _ _ _ _ _ _ _ _ _ _ A0 (cp_new _ _ _ _ C)) as [AP HP].
  destruct (tables_agree (m_pages m0) (m_pages (mm s)) p) as (_ & Hpde & _); [intros a Ha; apply HP; by left|].
  destruct (decide (j = k0)) as [->|Hne].
  - apply (copyuvm_hole _ _ _ _ l); [apply AP|unfold KERNBASE, PGSIZE in *; lia|done|by rewrite Hpde|].
    rewrite (as_map _ _ _ _ _ AP) by (unfold KERNBASE, PGSIZE in *; lia). rewrite Z.div_mul by done. by rewrite Hn.
  - cbn [copyuvm_loop]. rewrite (proj2 (Z.ltb_lt _ _)) by (unfold PGSIZE in *; lia). cbn [negb].
    assert (Hju : 0 ≤ j < UPAGES) by (change UPAGES with 524288; unfold KERNBASE, PGSIZE in *; lia).
    replace (u32 (j * PGSIZE + PGSIZE)) with ((j + 1) * PGSIZE) by (rewrite u32_small; unfold KERNBASE, PGSIZE in *; lia).
    destruct (copy_turn (copyuvm_loop fuel p d ((j + 1) * PGSIZE) sz) s i c l usd j Hf C Hju) as [(m' & l' & R & U & Hc)|(m' & l' & usd' & R & U & C')].
    { apply Hall. lia. }
    + lia.
    + cbv zeta in R |- *. rewrite R. apply (IH _ l' usd'); [by apply kmem_free_set|done|lia|lia].
Qed.

End copy.

(** Unmapping a page that stays allocated. *)
Lemma unmap_pte {LK : Linker} km m pgdir l us k a f : aspace km m pgdir l us → us !! k = Some (a, f) →
  aspace km (set_m_pages (set_pte (m_pages m) pgdir (k * PGSIZE) 0) m) pgdir l (delete k us).
Proof.
  intros A Hk. destruct (unmap_facts _ _ _ _ _ _ _ _ A Hk) as (V & P & _). pose proof A as [A1 A2 A3 A4 A5 A6 A7].
  destruct (A5 k a f Hk) as (B1 & _). destruct (upage_va k B1) as (K1 & K2 & K3 & K4).
  pose proof (set_pte_step pgdir l (k * PGSIZE) 0 m A1 A2 V P) as ST. set (m' := set_m_pages _ m) in *.
  assert (Ht : ∀ b, in_tables (m_pages m') pgdir b ↔ in_tables (m_pages m) pgdir b) by (intros b; by apply (in_tables_set_pte _ _ l)).
  assert (Hx : ∀ va, 0 ≤ va < 2 ^ 32 → xlate (m_pages m') pgdir va = if va / PGSIZE =? k then None else xlate (m_pages m) pgdir va).
  { intros va Hv. change (m_pages m') with (set_pte (m_pages m) pgdir (k * PGSIZE) 0). by rewrite (set_pte_xlate _ _ l), K3 by done. }
  split; [apply ST|apply ST|..].
  - intros va Hv. rewrite Hx by (unfold KERNBASE in *; lia). destruct (Z.eqb_spec (va / PGSIZE) k) as [->|Hne]; [by rewrite lookup_delete_eq|].
    rewrite lookup_delete_ne by done. by apply A3.
  - intros va Hv. rewrite Hx by (unfold KERNBASE in *; lia). destruct (Z.eqb_spec (va / PGSIZE) k) as [E|Hne]; [|by apply A4].
    assert (UPAGES ≤ va / PGSIZE) by (apply Z.div_le_lower_bound; [done|]; change UPAGES with 524288; unfold KERNBASE, PGSIZE in *; lia). lia.
  - intros k0 b f0 [Hne Hb]%lookup_delete_Some. destruct (A5 k0 b f0 Hb) as (C1 & C2 & C3 & C4 & C5 & C6 & C7). rewrite Ht.
    destruct (vs_frame _ _ _ _ _ ST b C4 C5) as [-> _]. done.
  - intros k1 k2 b f1 f2 [_ H1]%lookup_delete_Some [_ H2]%lookup_delete_Some. eauto.
  - intros b. rewrite Ht. apply A7.
Qed.

(** [copyuvm] of a space without holes below [sz]: a new space whose pages have
    the same contents and flags, or nothing. *)
Lemma copyuvm_ok {Xf : Type} {LK : Linker} {LKO : LinkerOk} (s : kstate (mem * Xf)) i c km p l us sz :
  kmem_free s i c → aspace km (mm s) p l us → 0 ≤ sz ≤ KERNBASE → (∀ k, 0 ≤ k < npages sz → is_Some (us !! k)) →
  ∃ r m' l', copyuvm p sz s = Ok r (set_mm m' s) ∧
    (r = 0 ∧ unchanged (mm s) m' l l' ∧ Z.of_nat (length l) ≤ 1025 + npages sz ∨ r ≠ 0 ∧ ∃ usd, copying (mm s) r l us m' l' usd (npages sz)).
Proof.
  intros Hf A Hsz Hall. unfold copyuvm. destruct (setupkvm_ok s i c l Hf (as_kmem _ _ _ _ _ A)) as (d & m1 & l1 & R1 & Hr). rewrite (bind_ok _ _ _ _ _ R1).
  pose proof (npages_spec sz ltac:(lia)) as Hnp.
  destruct Hr as [(Hd & N)|(-> & U & Hl)]; [|exists 0, m1, l1; split; [done|]; left; split; [done|]; split; [done|lia]]. rewrite (proj2 (Z.eqb_neq _ _) Hd).
  pose proof (Z.div_mod sz PGSIZE ltac:(done)). pose proof (Z.mod_pos_bound sz PGSIZE ltac:(done)).
  assert (0 ≤ sz / PGSIZE) by (apply Z.div_pos; [lia|done]).
  assert (C : copying (mm s) d l us (mm (set_mm m1 s)) l1 ∅ 0) by (split; [done|lia|done]).
  destruct (copyuvm_loop_ok (mm s) p d l us km A i c sz Hsz Hall (S (Z.to_nat (sz / PGSIZE + 1))) 0 l1 ∅ (set_mm m1 s))
    as [(m' & l' & R & U)|(m' & l' & usd & R & C')]; [apply kmem_free_set; [done|exact (ns_lock _ _ _ _ _ _ _ N)]|done|lia|lia|unfold PGSIZE in *; lia|..];
    rewrite Z.mul_0_l, set_mm_set in R.
  - exists 0, m', l'. split; [done|]. by left.
  - exists d, m', l'. split; [done|]. right. split; [done|]. by exists usd.
Qed.

Lemma copyuvm_panics {Xf : Type} {LK : Linker} {LKO : LinkerOk} (s : kstate (mem * Xf)) i c km p l us sz k0 :
  kmem_free s i c → aspace km (mm s) p l us → us !! k0 = None → 0 ≤ k0 → k0 * PGSIZE < sz → sz ≤ KERNBASE → (∀ k, 0 ≤ k < k0 → is_Some (us !! k)) →
  has (pde (m_pages (mm s)) p (PDX (k0 * PGSIZE))) PTE_P = true → 1025 + k0 < Z.of_nat (length l) →
  copyuvm p sz s = Panic "copyuvm: page not present".
Proof.
  intros Hf A Hn H0 Hlt Hsz Hall Hp Hlen. unfold copyuvm. destruct (setupkvm_ok s i c l Hf (as_kmem _ _ _ _ _ A)) as (d & m1 & l1 & R1 & Hr).
  rewrite (bind_ok _ _ _ _ _ R1). destruct Hr as [(Hd & N)|(_ & _ & Hl)]; [|lia]. rewrite (proj2 (Z.eqb_neq _ _) Hd).
  pose proof (Z.div_mod sz PGSIZE ltac:(done)). pose proof (Z.mod_pos_bound sz PGSIZE ltac:(done)).
  assert (C : copying (mm s) d l us (mm (set_mm m1 s)) l1 ∅ 0) by (split; [done|lia|done]).
  apply (copyuvm_loop_hole (mm s) p d l us km A i c sz k0 Hn H0 Hlt Hsz Hall Hp Hlen _ 0 l1 ∅ (set_mm m1 s));
    [apply kmem_free_set; [done|exact (ns_lock _ _ _ _ _ _ _ N)]|done|lia|unfold PGSIZE in *; lia].
Qed.

(** ** [copyout] *)

(** The byte at user address [va]. *)
Definition ubyte (m : mem) (us : uspace) (va : Z) : option Z :=
  match us !! (va / PGSIZE) with
  | Some (a, _) => page (m_pages m) a !! Z.to_nat (va mod PGSIZE)
  | None => None
  end.

Section copyout.
Context {Xf : Type} {LK : Linker} {LKO : LinkerOk} (km : Z → option Z).
Implicit Types (s : kstate (mem * Xf)) (m : mem) (us : uspace).

(** Writing to the pages a space maps. *)
Record data_step m m' (pgdir : Z) (l : list Z) us : Prop := DataStep {
  da_space : aspace km m' pgdir l us;
  da_lock : m_use_lock m' = m_use_lock m;
  da_shmem : m_shmem m' = m_shmem m;
  da_frame : ∀ a, (∀ k f, us !! k ≠ Some (a, f)) → m_pages m' !! a = m_pages m !! a
}.

Lemma data_step_refl m pgdir l us : aspace km m pgdir l us → data_step m m pgdir l us.
Proof. intros. by split. Qed.

Lemma data_step_trans m1 m2 m3 pgdir l us :
  data_step m1 m2 pgdir l us → data_step m2 m3 pgdir l us → data_step m1 m3 pgdir l us.
Proof. intros [A1 A2 A3 A4] [B1 B2 B3 B4]. split; [done|congruence|congruence|]. intros a Ha. by rewrite B4, A4. Qed.

Lemma data_write m pgdir l us k a f d :
  aspace km m pgdir l us → us !! k = Some (a, f) → length d = Z.to_nat PGSIZE →
  data_step m (set_m_pages (<[a := d]> (m_pages m)) m) pgdir l us ∧
  ∀ va, ubyte (set_m_pages (<[a := d]> (m_pages m)) m) us va = if va / PGSIZE =? k then d !! Z.to_nat (va mod PGSIZE) else ubyte m us va.
Proof.
  intros A Hk Hd. pose proof A as [A1 A2 A3 A4 A5 A6 A7]. destruct (A5 k a f Hk) as (B1 & B2 & B3 & B4 & B5 & B6 & B7).
  destruct (in_tables_insert (m_pages m) pgdir a d B5) as (T1 & T2 & T3). split.
  - split; [split|done|done|]; cbn [m_pages set_m_pages].
    + by apply kmem_wf_page.
    + apply pt_wf_insert; [done| |done]. intros ->. apply B5. by left.
    + intros va Hv. rewrite T3 by (unfold KERNBASE in *; lia). by apply A3.
    + intros va Hv. rewrite T3 by (unfold KERNBASE in *; lia). by apply A4.
    + intros k0 b f0 H0. destruct (A5 k0 b f0 H0) as (C1 & C2 & C3 & C4 & C5 & C6 & C7). rewrite T1. split_and!; try done; try lia.
      destruct (decide (a = b)) as [->|]; [by rewrite lookup_insert_eq|by rewrite lookup_insert_ne].
    + done.
    + intros b. rewrite T1. apply A7.
    + intros b Hb. rewrite lookup_insert_ne; [done|]. intros ->. by apply (Hb k f).
  - intros va. unfold ubyte. destruct (us !! (va / PGSIZE)) as [[b f0]|] eqn:E; cbn [m_pages set_m_pages].
    + destruct (Z.eqb_spec (va / PGSIZE) k) as [Ek|Hne].
      * rewrite Ek, Hk in E. injection E as <- <-. by rewrite page_insert_eq.
      * rewrite page_insert_ne; [done|]. intros ->. by apply Hne, (A6 _ _ _ _ _ E Hk).
    + destruct (Z.eqb_spec (va / PGSIZE) k) as [Ek|]; [|done]. by rewrite Ek, Hk in E.
Qed.

Lemma uva2ka_ok s pgdir l us k a f :
  aspace km (mm s) pgdir l us → us !! k = Some (a, f) →
  uva2ka pgdir (k * PGSIZE) s = Ok (if has f PTE_U then a else 0) s.
Proof.
  intros A Hk. destruct (unmap_facts _ _ _ _ _ _ _ _ A Hk) as (V & P & E & E1 & E2). pose proof (as_pt _ _ _ _ _ A) as Hw.
  destruct (as_page _ _ _ _ _ A k a f Hk) as (B1 & B2 & B3 & B4 & B5 & B6 & B7).
  unfold uva2ka. destruct (walk_found pgdir l _ false s Hw V P) as [R N]. rewrite (bind_ok _ _ _ _ _ R). apply Z.eqb_neq in N as ->. unfold pte_addr.
  rewrite (bind_ok _ _ _ _ _ (load_pte pgdir l _ s Hw V P)), E, E1, E2. cbn [negb].
  replace (has (upte (a, f)) PTE_U) with (has f PTE_U); [by destruct (has f PTE_U)|]. unfold has. f_equal. f_equal.
  destruct (v2p_good a B2) as (_ & G2 & _). unfold upte. cbn [fst snd]. rewrite Z.land_lor_distr_l.
  replace (Z.land (V2P a) PTE_U) with 0; [done|]. symmetry. change PGSIZE with (2 ^ 12) in G2. rewrite <- (Z.land_ones (V2P a) 12) in G2 by lia. change PTE_U with (2 ^ 2).
  apply Z.bits_inj_iff'. intros n Hn. rewrite Z.land_spec, Z.bits_0. destruct (decide (n = 2)) as [->|].
  - assert (Z.testbit (Z.land (V2P a) (Z.ones 12)) 2 = false) as H by (by rewrite G2, Z.bits_0).
    rewrite Z.land_spec, Z.ones_spec_low, andb_true_r in H by lia. by rewrite H.
  - rewrite Z.pow2_bits_false by lia. apply andb_false_r.
Qed.

(** [bs] is written at [va]. *)
Definition uwritten m m' us (va : Z) (bs : list Z) : Prop := ∀ x, 0 ≤ x < KERNBASE →
  ubyte m' us x = if (va <=? x) && (x <? va + Z.of_nat (length bs)) then bs !! Z.to_nat (x - va) else ubyte m us x.

Lemma uwritten_nil m us va : uwritten m m us va [].
Proof. intros x Hx. destruct (Z.leb_spec va x), (Z.ltb_spec x (va + Z.of_nat (length (@nil Z)))); try done. simpl in *. lia. Qed.

Lemma uwritten_app m m1 m2 us va b1 b2 :
  uwritten m m1 us va b1 → uwritten m1 m2 us (va + Z.of_nat (length b1)) b2 → uwritten m m2 us va (b1 ++ b2).
Proof.
  intros H1 H2 x Hx. rewrite (H2 x Hx), length_app. specialize (H1 x Hx).
  destruct (Z.leb_spec (va + Z.of_nat (length b1)) x), (Z.ltb_spec x (va + Z.of_nat (length b1) + Z.of_nat (length b2))),
    (Z.leb_spec va x), (Z.ltb_spec x (va + Z.of_nat (length b1 + length b2))), (Z.ltb_spec x (va + Z.of_nat (length b1))); cbn [andb] in *; try lia; try done.
  - rewrite lookup_app_r by lia. f_equal. lia.
  - by rewrite lookup_app_l by lia.
Qed.

(** The part of the copy that lies in one page. *)
Lemma page_write m pgdir l us k a f va buf :
  aspace km m pgdir l us → us !! k = Some (a, f) → va / PGSIZE = k → 0 ≤ va → va mod PGSIZE + Z.of_nat (length buf) ≤ PGSIZE →
  let m' := set_m_pages (<[a := blit (page (m_pages m) a) (Z.to_nat (va mod PGSIZE)) buf]> (m_pages m)) m in
  data_step m m' pgdir l us ∧ uwritten m m' us va buf.
Proof.
  intros A Hk Hva Hv0 Hfit m'. destruct (as_page _ _ _ _ _ A k a f Hk) as (B1 & B2 & [d Hd] & _).
  pose proof (kw_len _ _ (as_kmem _ _ _ _ _ A) a d Hd) as Hl. assert (Ed : page (m_pages m) a = d) by (unfold page; by rewrite Hd).
  pose proof (Z.mod_pos_bound va PGSIZE ltac:(done)) as Hm. pose proof (Z.div_mod va PGSIZE ltac:(done)) as Dv.
  assert (Hb : (Z.to_nat (va mod PGSIZE) + length buf ≤ length d)%nat) by (rewrite Hl; unfold PGSIZE in *; lia).
  destruct (data_write m pgdir l us k a f (blit d (Z.to_nat (va mod PGSIZE)) buf) A Hk) as [ST U]; [by rewrite length_blit|].
  unfold m'. rewrite Ed. split; [done|]. intros x Hx. rewrite U. pose proof (Z.mod_pos_bound x PGSIZE ltac:(done)) as Hmx.
  pose proof (Z.div_mod x PGSIZE ltac:(done)) as Dx. destruct (Z.eqb_spec (x / PGSIZE) k) as [Ek|Hne].
  - rewrite lookup_blit by done. assert (Hu : ubyte m us x = d !! Z.to_nat (x mod PGSIZE)) by (unfold ubyte; by rewrite Ek, Hk, Ed).
    rewrite Hu. rewrite Ek in Dx. rewrite Hva in Dv.
    destruct (decide _) as [Hi|Hi], (Z.leb_spec va x), (Z.ltb_spec x (va + Z.of_nat (length buf))); cbn [andb]; try lia; try done. f_equal. lia.
  - replace ((va <=? x) && (x <? va + Z.of_nat (length buf))) with false; [done|]. symmetry. apply andb_false_iff. rewrite Z.leb_gt, Z.ltb_ge.
    destruct (decide (x / PGSIZE < k)); [left|right]; unfold PGSIZE in *; lia.
Qed.

Lemma uwritten_nil_at m m' us va va' : uwritten m m' us va [] → uwritten m m' us va' [].
Proof.
  intros H x Hx. rewrite (H x Hx). cbn [length Z.of_nat]. rewrite !Z.add_0_r.
  destruct (Z.leb_spec va x), (Z.ltb_spec x va), (Z.leb_spec va' x), (Z.ltb_spec x va'); done || lia.
Qed.

(** The bytes of the range at [va] that lie in its first page, and the rest. *)
Lemma first_chunk va (buf : list Z) : 0 ≤ va → va + Z.of_nat (length buf) ≤ KERNBASE → (0 < length buf)%nat →
  let len := Z.of_nat (length buf) in let room := PGSIZE - va mod PGSIZE in
  let n := if len <? room then len else room in let rest := drop (Z.to_nat n) buf in let next := (va / PGSIZE + 1) * PGSIZE in
  0 < n ≤ len ∧ va mod PGSIZE + n ≤ PGSIZE ∧ length (take (Z.to_nat n) buf) = Z.to_nat n ∧ len - n = Z.of_nat (length rest) ∧
  (rest = [] ∨ next = va + n) ∧ next + Z.of_nat (length rest) ≤ KERNBASE ∧
  next mod PGSIZE + Z.of_nat (length rest) ≤ (if len <? room then 0 else va mod PGSIZE + len - PGSIZE) ∧ 
  (∀ k, next / PGSIZE ≤ k → k * PGSIZE < next + Z.of_nat (length rest) → va / PGSIZE ≤ k ∧ k * PGSIZE < va + len).
Proof.
  intros Hv Hk Hpos len room n rest next. pose proof (Z.mod_pos_bound va PGSIZE ltac:(done)) as Hm. pose proof (Z.div_mod va PGSIZE ltac:(done)) as Dv.
  assert (Hn : 0 < n ≤ len ∧ va mod PGSIZE + n ≤ PGSIZE) by (unfold n, room, len; destruct (Z.ltb_spec (Z.of_nat (length buf)) (PGSIZE - va mod PGSIZE)); lia).
  assert (Hr : Z.of_nat (length rest) = len - n) by (unfold rest; rewrite length_drop; unfold len; lia).
  assert (Hnext : next / PGSIZE = va / PGSIZE + 1 ∧ next mod PGSIZE = 0) by (unfold next; by rewrite Z.div_mul, Z.mod_mul).
  destruct Hnext as [Q1 Q2]. rewrite Q1, Q2, Hr. split; [tauto|]. split; [tauto|]. split; [rewrite length_take; unfold len in *; lia|]. split; [done|].
  destruct (upage va ltac:(unfold KERNBASE in *; lia)) as [_ Hup]. change UPAGES with 524288 in Hup. unfold KERNBASE in *.
  unfold n, room, next, len in *. destruct (Z.ltb_spec (Z.of_nat (length buf)) (PGSIZE - va mod PGSIZE)) as [Hlt|Hge].
  - split; [left; apply nil_length_inv; lia|]. unfold PGSIZE in *. split; [lia|]. split; [lia|]. intros k H1 H2. lia.
  - split; [right; lia|]. split; [lia|]. split; [lia|]. intros k H1 H2. split; lia.
Qed.

Lemma copyout_loop_ok pgdir l us : ∀ fuel va buf s,
  aspace km (mm s) pgdir l us → 0 ≤ va → va + Z.of_nat (length buf) ≤ KERNBASE →
  (∀ k, va / PGSIZE ≤ k → k * PGSIZE < va + Z.of_nat (length buf) → is_Some (us !! k)) →
  (0 < fuel)%nat → va mod PGSIZE + Z.of_nat (length buf) ≤ (Z.of_nat fuel - 1) * PGSIZE →
  ∃ r m' n, copyout_loop fuel pgdir va buf (Z.of_nat (length buf)) s = Ok r (set_mm m' s) ∧ data_step (mm s) m' pgdir l us ∧
    uwritten (mm s) m' us va (take n buf) ∧
    (r = 0 ∧ take n buf = buf ∨ r = -1 ∧ ∃ k a f, va / PGSIZE ≤ k ∧ k * PGSIZE < va + Z.of_nat (length buf) ∧ us !! k = Some (a, f) ∧ has f PTE_U = false).
Proof.
  induction fuel as [|fuel IH]; intros va buf s A Hv Hk Hall Hf0 Hfu; [lia|]. cbn [copyout_loop].
  destruct (Z.ltb_spec 0 (Z.of_nat (length buf))) as [Hpos|Hnil]; cbn [negb].
  2:{ destruct buf; [|simpl in Hnil; lia]. exists 0, (mm s), 0%nat. rewrite set_mm_id. split; [done|]. split; [by apply data_step_refl|].
      split; [apply uwritten_nil|]. by left. }
  pose proof (Z.mod_pos_bound va PGSIZE ltac:(done)) as Hm. pose proof (Z.div_mod va PGSIZE ltac:(done)) as Dv.
  rewrite pgrounddown_eq by (unfold KERNBASE in *; lia). set (k := va / PGSIZE) in *. replace (va - va mod PGSIZE) with (k * PGSIZE) by lia.
  destruct (Hall k) as [[a f] Hus]; [done|lia|]. rewrite (bind_ok _ _ _ _ _ (uva2ka_ok s pgdir l us k a f A Hus)).
  destruct (as_page _ _ _ _ _ A k a f Hus) as (B1 & B2 & [d Hd] & _). destruct (has f PTE_U) eqn:Hu.
  2:{ exists (-1), (mm s), 0%nat. rewrite Z.eqb_refl, set_mm_id. split; [done|]. split; [by apply data_step_refl|]. split; [apply uwritten_nil|].
      right. split; [done|]. exists k, a, f. split_and!; [done|lia|done|done]. }
  assert (a ≠ 0) as Hz%Z.eqb_neq by (destruct B2 as (_ & _ & B2); unfold KERNBASE in B2; lia). rewrite Hz.
  replace (va - k * PGSIZE) with (va mod PGSIZE) by lia. rewrite (bind_ok _ _ _ _ _ (get_page_ok a d s Hd)).
  rewrite (bind_ok _ _ _ _ _ (set_page_ok a d _ s Hd)). assert (page (m_pages (mm s)) a = d) as Ed by (unfold page; by rewrite Hd).
  destruct (first_chunk va buf Hv Hk ltac:(lia)) as (N1 & N2 & N3 & N4 & N5 & N6 & N7 & N8). fold k in N5, N6, N7, N8. rewrite N4.
  set (n := if _ <? _ then _ else _) in *. set (rest := drop (Z.to_nat n) buf) in *.
  destruct (page_write (mm s) pgdir l us k a f va (take (Z.to_nat n) buf) A Hus eq_refl Hv) as [ST W]; [rewrite N3; lia|].
  rewrite Ed in ST, W. set (m1 := set_m_pages _ (mm s)) in *. replace (k * PGSIZE + PGSIZE) with ((k + 1) * PGSIZE) by lia.
  rewrite u32_small by (unfold KERNBASE, PGSIZE in *; lia).
  destruct (IH ((k + 1) * PGSIZE) rest (set_mm m1 s)) as (r & m' & n' & R & ST' & W' & Hr);
    [exact (da_space _ _ _ _ _ ST)|lia|done|intros k0 H1 H2; apply Hall; by apply N8|unfold PGSIZE in *; lia|..].
  { etrans; [exact N7|]. destruct (_ <? _); unfold PGSIZE in *; lia. }
  rewrite set_mm_set in R. rewrite mm_set in *. exists r, m', (Z.to_nat n + n')%nat. split; [done|]. split; [by eapply data_step_trans|].
  rewrite <- take_take_drop. fold rest. split.
  - eapply uwritten_app; [exact W|]. rewrite N3, Z2Nat.id by lia. destruct N5 as [->| <-]; [|done]. rewrite take_nil in *. by eapply uwritten_nil_at.
  - destruct Hr as [(-> & ->)|(-> & k0 & a0 & f0 & H1 & H2 & H3)]; [left|right].
    + split; [done|]. apply take_drop.
    + split; [done|]. exists k0, a0, f0. destruct (N8 k0 H1 H2). done.
Qed.

(** [copyout] writes all bytes, or stops at a page the user may not access. *)
Lemma copyout_ok s pgdir l us va buf :
  aspace km (mm s) pgdir l us → 0 ≤ va → va + Z.of_nat (length buf) ≤ KERNBASE →
  (∀ k, va / PGSIZE ≤ k → k * PGSIZE < va + Z.of_nat (length buf) → is_Some (us !! k)) →
  ∃ r m' n, copyout pgdir va buf s = Ok r (set_mm m' s) ∧ data_step (mm s) m' pgdir l us ∧ uwritten (mm s) m' us va (take n buf) ∧
    (r = 0 ∧ take n buf = buf ∨ r = -1 ∧ ∃ k a f, va / PGSIZE ≤ k ∧ k * PGSIZE < va + Z.of_nat (length buf) ∧ us !! k = Some (a, f) ∧ has f PTE_U = false).
Proof.
  intros A Hv Hk Hall. unfold copyout. set (len := Z.of_nat (length buf)) in *. pose proof (Z.mod_pos_bound va PGSIZE ltac:(done)).
  pose proof (Z.div_mod len PGSIZE ltac:(done)). pose proof (Z.mod_pos_bound len PGSIZE ltac:(done)).
  assert (0 ≤ len / PGSIZE) by (apply Z.div_pos; [lia|done]).
  eapply copyout_loop_ok; [done|done|done|done|lia|]. fold len. unfold PGSIZE in *. lia.
Qed.

End copyout.

(** ** What the hardware reads *)

(** The byte at address [va] through page table [d]. *)
Definition hw_byte (m : mem) (d va : Z) : option Z :=
  match xlate (m_pages m) d va with
  | Some e => page (m_pages m) (P2V (PTE_ADDR e)) !! Z.to_nat (va mod PGSIZE)
  | None => None
  end.

Section bytes.
Context {LK : Linker} {LKO : LinkerOk}.
Implicit Types (m : mem) (us : uspace).

Lemma aspace_byte km m d l us va : aspace km m d l us → 0 ≤ va < KERNBASE → hw_byte m d va = ubyte m us va.
Proof.
  intros A Hv. unfold hw_byte, ubyte. rewrite (as_map _ _ _ _ _ A va Hv). destruct (us !! (va / PGSIZE)) as [[a f]|] eqn:E; [|done].
  destruct (as_page _ _ _ _ _ A _ a f E) as (_ & B2 & _ & _ & _ & B6 & _). cbn [fmap option_fmap option_map].
  by destruct (upte_fields a f B2 B6) as (_ & _ & _ & ->).
Qed.

(** A byte depends on the pages of its space only. *)
Lemma ubyte_keep m m' us va : (∀ k e, us !! k = Some e → m_pages m' !! e.1 = m_pages m !! e.1) → ubyte m' us va = ubyte m us va.
Proof. intros H. unfold ubyte. destruct (us !! (va / PGSIZE)) as [[a f]|] eqn:E; [|done]. pose proof (H _ _ E) as Ea. cbn [fst] in Ea. unfold page. by rewrite Ea. Qed.

Lemma hw_byte_owned km m m' d l l' us va :
  aspace km m d l us → aspace km m' d l' us → (∀ a, owned (m_pages m) d us a → m_pages m' !! a = m_pages m !! a) → 0 ≤ va < KERNBASE →
  hw_byte m' d va = hw_byte m d va.
Proof.
  intros A A' H Hv. rewrite (aspace_byte _ _ _ _ _ _ A Hv), (aspace_byte _ _ _ _ _ _ A' Hv). apply ubyte_keep.
  intros k [a f] Hk. apply H. right. by exists k, f.
Qed.

End bytes.

(** ** The memory of all processes *)

Section ownership.
Context {Xf : Type} {LK : Linker} {LKO : LinkerOk}.
Implicit Types (s : kstate (mem * Xf)) (m : mem) (us : uspace) (S : gmap Z Z) (P : gset Z) (U : Z → uspace) (l : list Z).

(** The spaces [S], described by [U], and the kernel pages [P]; [l] are free. *)
Record owns m l U S P : Prop := Owns {
  ow_lock : m_use_lock m ≠ 0;
  ow_kmem : kmem_wf m l;
  ow_space : ∀ d sz, S !! d = Some sz → aspace kern_map m d l (U d) ∧ 0 ≤ sz ≤ KERNBASE ∧ ∀ k, is_Some (U d !! k) ↔ 0 ≤ k < npages sz;
  ow_apart : ∀ d d' a, is_Some (S !! d) → is_Some (S !! d') → owned (m_pages m) d (U d) a → owned (m_pages m) d' (U d') a → d = d';
  ow_page : ∀ a, a ∈ P → good_page a ∧ is_Some (m_pages m !! a) ∧ a ∉ l ∧ ∀ d, is_Some (S !! d) → ¬ owned (m_pages m) d (U d) a
}.

(** A page that is free, a kernel page or part of a space. *)
Definition used m l U S P (a : Z) : Prop := a ∈ l ∨ a ∈ P ∨ ∃ d, is_Some (S !! d) ∧ owned (m_pages m) d (U d) a.

(** No page is lost. *)
Definition complete m l U S P : Prop := ∀ a, good_page a → is_Some (m_pages m !! a) → used m l U S P a.

Definition vm_own m S P : Prop := ∃ l U, owns m l U S P ∧ complete m l U S P.

Lemma free_here m l a : kmem_wf m l → a ∈ l → is_Some (m_pages m !! a).
Proof.
  intros [C _ _ _] Ha. revert C. generalize (m_freelist m). induction l as [|b l IH]; intros p C; [by apply elem_of_nil in Ha|].
  destruct C as (_ & d & Hd & C). apply elem_of_cons in Ha as [->|Ha]; [by exists d|by apply (IH Ha _ C)].
Qed.

Lemma owned_here km m d l us a : aspace km m d l us → owned (m_pages m) d us a → is_Some (m_pages m !! a).
Proof.
  intros A. pose proof (as_pt _ _ _ _ _ A) as A2. intros [[->|(j & Hj & Hp & <-)]|(k & f & Hk)].
  - destruct (pt_dir _ _ _ A2) as [H _]. by destruct H as (_ & _ & _ & e & -> & _).
  - destruct (pt_table _ _ _ A2 j Hj Hp) as [H _]. by destruct H as (_ & _ & _ & e & -> & _).
  - apply (as_page _ _ _ _ _ A k a f Hk).
Qed.

(** Work after which the pages in use are in use, and no page has appeared. *)
Lemma complete_step m m' l l' U U' S S' P P' l0 :
  complete m l U S P → (∀ a, used m l U S P a → used m' l' U' S' P' a) →
  (∀ a, a ∈ l0 → is_Some (m_pages m !! a)) → (∀ a, a ∉ l0 → m_pages m' !! a = m_pages m !! a) → complete m' l' U' S' P'.
Proof.
  intros C Hu Hh Hf a Hg Ha. apply Hu, C; [done|]. destruct (decide (a ∈ l0)) as [|Hn]; [by apply Hh|]. by rewrite <- Hf.
Qed.

(** At most [n] pages are free. *)
Definition scarce m (n : Z) : Prop := ∃ l, kmem_wf m l ∧ Z.of_nat (length l) ≤ n.

Lemma space_not_free km m d l us a : aspace km m d l us → owned (m_pages m) d us a → a ∉ l.
Proof.
  intros A. pose proof (as_pt _ _ _ _ _ A) as A2. intros [[->|(j & Hj & Hp & <-)]|(k & f & Hk)];
    [apply (pt_dir _ _ _ A2)|apply (pt_table _ _ _ A2 j Hj Hp)|apply (as_page _ _ _ _ _ A k a f Hk)].
Qed.

Lemma owns_kmem_free s i c l U S P : can_lock L_kmem s i c → at_rest s i c → owns (mm s) l U S P → kmem_free s i c.
Proof. intros Hc Hr _ _. split; [done|]. by rewrite <- Hr. Qed.

(** Work that leaves the pages in use alone. *)
Lemma owns_frame m m' l l' U S P :
  owns m l U S P → m_use_lock m' = m_use_lock m → kmem_wf m' l' →
  (∀ d a, is_Some (S !! d) → owned (m_pages m) d (U d) a → m_pages m' !! a = m_pages m !! a ∧ a ∉ l') →
  (∀ a, a ∈ P → is_Some (m_pages m' !! a) ∧ a ∉ l') →
  owns m' l' U S P ∧ same_user hw_byte S m m'.
Proof.
  intros [O1 O2 O3 O4 O5] Hl K HO HP.
  assert (HS : ∀ d sz, S !! d = Some sz → aspace kern_map m' d l' (U d)).
  { intros d sz Hd. destruct (O3 d sz Hd) as (A & _). eapply aspace_frame; [exact A|exact K|]. intros a Ha. by apply (HO d). }
  assert (HE : ∀ d a, is_Some (S !! d) → owned (m_pages m') d (U d) a ↔ owned (m_pages m) d (U d) a).
  { intros d a Hd. apply owned_agree. intros b Hb. apply (HO d); [done|by left]. }
  split; [split|].
  - by rewrite Hl.
  - done.
  - intros d sz Hd. destruct (O3 d sz Hd) as (_ & Hsz & Hk). split; [by eapply HS|done].
  - intros d d' a Hd Hd'. rewrite !HE by done. by apply O4.
  - intros a Ha. destruct (O5 a Ha) as (G1 & _ & _ & G4). destruct (HP a Ha) as [G2 G3]. split_and!; [done..|].
    intros d Hd. rewrite HE by done. by apply G4.
  - intros d va [sz Hd] Hva. destruct (O3 d sz Hd) as (A & _). eapply hw_byte_owned; [exact A|by eapply HS| |done].
    intros a Ha. by apply (HO d).
Qed.

Lemma vm_kalloc s i c S P : can_lock L_kmem s i c → at_rest s i c → vm_own (mm s) S P →
  ∃ r m', kalloc s = Ok r (put_mem m' s) ∧ same_user hw_byte S (mm s) m'
    ∧ (r = 0 ∧ vm_own m' S P ∧ scarce (mm s) 0 ∨ r ≠ 0 ∧ r ∉ P ∧ vm_own m' S ({[r]} ∪ P)).
Proof.
  intros Hc Hr (l & U & O & C). destruct (kalloc_ok s i c l (owns_kmem_free _ _ _ _ _ _ _ Hc Hr O) (ow_kmem _ _ _ _ _ O)) as (m' & R & K & Pm & Ul & _).
  exists (hd 0 l), m'. split; [exact R|].
  destruct (owns_frame _ m' _ (tl l) _ _ _ O Ul K) as [O' HB].
  { intros d a [sz Hd] Ha. destruct (ow_space _ _ _ _ _ O d sz Hd) as (A & _). rewrite Pm. split; [done|].
    pose proof (space_not_free _ _ _ _ _ _ A Ha) as Hn. destruct l; [done|]. by apply not_elem_of_cons in Hn as [_ Hn]. }
  { intros a Ha. destruct (ow_page _ _ _ _ _ O a Ha) as (_ & G2 & G3 & _). rewrite Pm. split; [done|].
    destruct l; [done|]. by apply not_elem_of_cons in G3 as [_ G3]. }
  split; [done|]. destruct l as [|a l]; [left; split; [done|]; split; [|exists []; split; [apply O|done]]|right]; cbn [hd tl] in *.
  { exists [], U. split; [done|]. apply (complete_step _ m' _ [] _ U _ S _ P [] C); [unfold used; by rewrite Pm|by intros b []%elem_of_nil|by rewrite Pm]. }
  pose proof (ow_kmem _ _ _ _ _ O) as K0. pose proof (free_page_here _ _ _ K0) as (H1 & _ & _ & e & He & _).
  pose proof (kw_nodup _ _ K0) as [Hal _]%list.NoDup_cons. pose proof (kw_good _ _ K0) as [Hg _]%list.Forall_cons.
  split; [lia|]. split.
  { intros Ha. destruct (ow_page _ _ _ _ _ O a Ha) as (_ & _ & G3 & _). apply G3. by left. }
  exists l, U. split.
  2:{ apply (complete_step _ m' _ l _ U _ S _ ({[a]} ∪ P) [] C); [|by intros b []%elem_of_nil|by rewrite Pm]. intros b. unfold used. rewrite Pm. set_solver. }
  destruct O' as [Q1 Q2 Q3 Q4 Q5]. split; try done. intros b [->%elem_of_singleton|Hb]%elem_of_union; [|by apply Q5].
  split_and!; [done|by rewrite Pm, He|done|]. intros d [sz Hd] Hb. destruct (ow_space _ _ _ _ _ O d sz Hd) as (A & _).
  rewrite Pm in Hb. apply (space_not_free _ _ _ _ _ _ A Hb). by left.
Qed.

Lemma vm_kfree s i c S P a : can_lock L_kmem s i c → at_rest s i c → vm_own (mm s) S P → a ∈ P →
  ∃ m', kfree a s = Ok tt (put_mem m' s) ∧ same_user hw_byte S (mm s) m' ∧ vm_own m' S (P ∖ {[a]}).
Proof.
  intros Hc Hr (l & U & O & C) Ha. destruct (ow_page _ _ _ _ _ O a Ha) as (G1 & G2 & G3 & G4).
  exists (freed a (mm s)). split; [by apply (kfree_ok a s i c (owns_kmem_free _ _ _ _ _ _ _ Hc Hr O))|].
  assert (O0 : owns (mm s) l U S (P ∖ {[a]})) by (destruct O as [Q1 Q2 Q3 Q4 Q5]; split; try done; intros b Hb; apply Q5; set_solver).
  assert (E : ∀ b, b ≠ a → m_pages (freed a (mm s)) !! b = m_pages (mm s) !! b) by (intros b Hb; cbn; by rewrite lookup_insert_ne).
  destruct (owns_frame _ (freed a (mm s)) _ (a :: l) _ _ _ O0 eq_refl) as [O' HB].
  { apply kmem_wf_free; [apply O|done|done]. }
  { intros d b Hd Hb. assert (b ≠ a) by (intros ->; by apply (G4 d)). split; [by apply E|]. apply not_elem_of_cons. split; [done|].
    destruct Hd as [sz Hd]. destruct (ow_space _ _ _ _ _ O d sz Hd) as (A & _). by apply (space_not_free _ _ _ _ _ _ A). }
  { intros b Hb. destruct (ow_page _ _ _ _ _ O0 b Hb) as (_ & F2 & F3 & _). assert (b ≠ a) by set_solver. rewrite E by done.
    split; [done|]. by apply not_elem_of_cons. }
  split; [done|]. exists (a :: l), U. split; [done|]. apply (complete_step _ (freed a (mm s)) _ (a :: l) _ U _ S _ (P ∖ {[a]}) [a] C).
  - intros b. unfold used. rewrite elem_of_cons, elem_of_difference, elem_of_singleton. destruct (decide (b = a)) as [->|Hne]; [tauto|].
    intros [|[|(d & Hd & Hb)]]; [tauto|tauto|right; right]. exists d. split; [done|]. apply (owned_agree (m_pages (mm s))); [|done].
    intros x Hx. apply E. intros ->. apply (G4 d Hd). by left.
  - by intros b ->%list_elem_of_singleton.
  - intros b Hb. apply E. by rewrite list_elem_of_singleton in Hb.
Qed.

(** Nothing changed but the order of the free list. *)
Lemma owns_unchanged m m' l l' U S P :
  owns m l U S P → unchanged m m' l l' → owns m' l' U S P ∧ same_user hw_byte S m m' ∧ (complete m l U S P → complete m' l' U S P).
Proof.
  intros O [N1 N2 N3 N4 N5]. apply and_assoc. split.
  2:{ intros C. apply (complete_step _ m' _ l' _ U _ S _ P l C); [|intros a; apply free_here, O|done]. intros a. unfold used. rewrite N5.
      intros [|[|(d & [sz Hd] & Hb)]]; [tauto|tauto|right; right]. exists d. split; [by rewrite Hd|]. apply (owned_agree (m_pages m)); [|done].
      destruct (ow_space _ _ _ _ _ O d sz Hd) as (A & _). intros x Hx. apply N4, (space_not_free _ _ _ _ _ _ A). by left. }
  eapply owns_frame; [exact O|done|done|..].
  - intros d a [sz Hd] Ha. destruct (ow_space _ _ _ _ _ O d sz Hd) as (A & _). pose proof (space_not_free _ _ _ _ _ _ A Ha).
    rewrite N5. split; [by apply N4|done].
  - intros a Ha. destruct (ow_page _ _ _ _ _ O a Ha) as (_ & G2 & G3 & _). rewrite N5, N4 by done. done.
Qed.

(** A new space is added. *)
Lemma owns_new m m' l l' U S P d us sz :
  owns m l U S P → new_space kern_map m m' d l l' us → 0 ≤ sz ≤ KERNBASE → (∀ k, is_Some (us !! k) ↔ 0 ≤ k < npages sz) →
  S !! d = None ∧ owns m' l' (λ d', if d' =? d then us else U d') (<[d := sz]> S) P ∧ same_user hw_byte S m m'
  ∧ (complete m l U S P → complete m' l' (λ d', if d' =? d then us else U d') (<[d := sz]> S) P).
Proof.
  intros O [N1 N2 N3 N4 N5] Hsz Hus.
  assert (Hin : ∀ d' a, is_Some (S !! d') → owned (m_pages m) d' (U d') a → a ∉ l).
  { intros d' a [sz' Hd'] Ha. destruct (ow_space _ _ _ _ _ O d' sz' Hd') as (A & _). by apply (space_not_free _ _ _ _ _ _ A Ha). }
  assert (Hnew : ∀ a, owned (m_pages m') d us a → a ∈ l) by (intros a Ha; apply N5; by right).
  assert (Hsub : ∀ a, a ∉ l → a ∉ l') by (intros a Ha Hl'; apply Ha, N5; by left).
  assert (Hd : S !! d = None).
  { destruct (S !! d) eqn:E; [|done]. exfalso. apply (Hin d d); [by rewrite E|left; by left|]. apply Hnew. left. by left. }
  destruct (owns_frame m m' l l' U S P O N2 (as_kmem _ _ _ _ _ N1)) as [[Q1 Q2 Q3 Q4 Q5] HB].
  { intros d' a Hd' Ha. pose proof (Hin d' a Hd' Ha). split; [by apply N4|auto]. }
  { intros a Ha. destruct (ow_page _ _ _ _ _ O a Ha) as (_ & G2 & G3 & _). rewrite N4 by done. auto. }
  assert (Hne : ∀ d', is_Some (S !! d') → (d' =? d) = false) by (intros d' Hd'; apply Z.eqb_neq; intros ->; rewrite Hd in Hd'; by destruct Hd').
  assert (HE : ∀ d' a, is_Some (S !! d') → owned (m_pages m') d' (U d') a → a ∉ l).
  { intros d' a Hd' Ha. apply (Hin d' a Hd'), (owned_agree (m_pages m) (m_pages m')); [|done].
    intros b Hb. apply N4, (Hin d' b Hd'). by left. }
  assert (Hcase : ∀ d', is_Some ((<[d := sz]> S) !! d') → d' = d ∨ is_Some (S !! d')).
  { intros d' Hd'. destruct (decide (d = d')) as [<-|Hx]; [by left|]. rewrite lookup_insert_ne in Hd' by done. by right. }
  split; [done|]. split; [split|split]; try done.
  4:{ intros C. apply (complete_step _ m' _ l' _ (λ d', if d' =? d then us else U d') _ (<[d := sz]> S) _ P l C); [|intros a; apply free_here, O|done].
      intros a [Ha|[Ha|(d' & Hd' & Ha)]]; [|by right; left|right; right].
      - apply N5 in Ha as [Ha|Ha]; [by left|right; right]. exists d. by rewrite lookup_insert_eq, Z.eqb_refl.
      - exists d'. rewrite lookup_insert_ne, Hne by (done || intros ->; rewrite Hd in Hd'; by destruct Hd'). split; [done|].
        apply (owned_agree (m_pages m)); [|done]. intros b Hb. apply N4, (Hin d' b Hd'). by left. }
  - intros d' sz'. destruct (decide (d = d')) as [<-|Hx].
    + rewrite lookup_insert_eq, Z.eqb_refl. by intros [= <-].
    + rewrite lookup_insert_ne by done. intros Hd'. rewrite Hne by by rewrite Hd'. by apply Q3.
  - intros d1 d2 a [->|H1]%Hcase [->|H2]%Hcase; rewrite ?Z.eqb_refl, ?Hne by done; [done| | |by apply Q4].
    + intros Ha1 Ha2. destruct (HE d2 a H2 Ha2). by apply Hnew.
    + intros Ha1 Ha2. destruct (HE d1 a H1 Ha1). by apply Hnew.
  - intros a Ha. destruct (Q5 a Ha) as (G1 & G2 & G3 & G4). split_and!; [done..|]. intros d' [->|Hd']%Hcase; rewrite ?Z.eqb_refl, ?Hne by done; [|by apply G4].
    intros Hb. destruct (ow_page _ _ _ _ _ O a Ha) as (_ & _ & F3 & _). by apply F3, Hnew.
Qed.

Lemma vm_copyuvm s i c S P d sz : can_lock L_kmem s i c → at_rest s i c → vm_own (mm s) S P → S !! d = Some sz →
  ∃ r m', copyuvm d sz s = Ok r (put_mem m' s) ∧ same_user hw_byte S (mm s) m'
    ∧ (r = 0 ∧ vm_own m' S P ∧ scarce (mm s) (1025 + npages sz) ∨ r ≠ 0 ∧ S !! r = None ∧ vm_own m' (<[r := sz]> S) P
         ∧ ∀ va, 0 ≤ va < 2 ^ 31 → hw_byte m' r va = hw_byte (mm s) d va).
Proof.
  intros Hc Hr (l & U & O & C) Hd. destruct (ow_space _ _ _ _ _ O d sz Hd) as (A & Hsz & Hk).
  destruct (copyuvm_ok s i c kern_map d l (U d) sz (owns_kmem_free _ _ _ _ _ _ _ Hc Hr O) A Hsz) as (r & m' & l' & R & Hres); [intros k; by rewrite Hk|].
  exists r, m'. split; [exact R|]. destruct Hres as [(-> & Hun & Hl)|(Hr0 & usd & [N C1 C2])].
  - destruct (owns_unchanged _ _ _ _ _ _ _ O Hun) as (O' & HB & C'). split; [done|]. left. split; [done|]. split; [exists l', U; auto|]. exists l. split; [apply O|done].
  - destruct (owns_new _ _ _ _ _ _ _ _ usd sz O N Hsz) as (Hn & O' & HB & C').
    { intros k. split; [|intros Hk'; destruct (C1 k Hk') as (a & f & b & _ & -> & _); done].
      intros [e He]. destruct (decide (0 ≤ k < npages sz)); [done|]. by rewrite C2 in He. }
    split; [done|]. right. split; [done|]. split; [done|]. split; [exists l', (λ d', if d' =? r then usd else U d'); auto|].
    intros va Hva. rewrite (aspace_byte _ _ _ _ _ _ (ns_space _ _ _ _ _ _ _ N) Hva), (aspace_byte _ _ _ _ _ _ A Hva). unfold ubyte.
    destruct (decide (0 ≤ va / PGSIZE < npages sz)) as [Hp|Hp].
    + destruct (C1 _ Hp) as (a & f & b & -> & -> & E). unfold page. by rewrite E.
    + rewrite C2 by done. destruct (U d !! (va / PGSIZE)) eqn:E; [|done]. exfalso. apply Hp, Hk. by rewrite E.
Qed.

Lemma vm_freevm s i c S P d sz : can_lock L_kmem s i c → at_rest s i c → vm_own (mm s) S P → S !! d = Some sz →
  ∃ m', freevm d s = Ok tt (put_mem m' s) ∧ same_user hw_byte (delete d S) (mm s) m' ∧ vm_own m' (delete d S) P.
Proof.
  intros Hc Hr (l & U & O & C) Hd. destruct (ow_space _ _ _ _ _ O d sz Hd) as (A & _).
  destruct (freevm_ok kern_map s i c d l (U d) (owns_kmem_free _ _ _ _ _ _ _ Hc Hr O) A) as (m' & l' & R & [G1 G2 G3 G4 G5]).
  exists m'. split; [exact R|].
  assert (Hdel : ∀ d', is_Some (delete d S !! d') → d' ≠ d ∧ is_Some (S !! d')).
  { intros d' [sz' H']. apply lookup_delete_Some in H' as [H1 H2]. split; [done|by exists sz']. }
  assert (O0 : owns (mm s) l U (delete d S) P).
  { destruct O as [Q1 Q2 Q3 Q4 Q5]. split; [done|done|..].
    - intros d' sz' [_ H']%lookup_delete_Some. by apply Q3.
    - intros d1 d2 a [_ H1]%Hdel [_ H2]%Hdel. by apply Q4.
    - intros a Ha. destruct (Q5 a Ha) as (F1 & F2 & F3 & F4). split_and!; [done..|]. intros d' [_ H']%Hdel. by apply F4. }
  destruct (owns_frame _ m' _ l' _ _ _ O0 G4 G1) as [O' HB].
  - intros d' a [Hne [sz' Hd']]%Hdel Ha. destruct (ow_space _ _ _ _ _ O d' sz' Hd') as (A' & _).
    assert (Hn : a ∉ l').
    { rewrite G2. intros [Hl|Ho]; [by apply (space_not_free _ _ _ _ _ _ A' Ha)|]. apply Hne. symmetry. apply (ow_apart _ _ _ _ _ O d d' a); [by rewrite Hd|by rewrite Hd'|done|done]. }
    split; [by apply G3|done].
  - intros a Ha. destruct (ow_page _ _ _ _ _ O a Ha) as (_ & F2 & F3 & F4).
    assert (Hn : a ∉ l') by (rewrite G2; intros [|Ho]; [done|]; apply (F4 d); [by rewrite Hd|done]). by rewrite G3.
  - split; [done|]. exists l', U. split; [done|]. apply (complete_step _ m' _ l' _ U _ (delete d S) _ P l' C); [| |done].
    + intros a. unfold used. rewrite G2. intros [|[|(d' & Hd' & Ha)]]; [tauto|tauto|]. destruct (decide (d' = d)) as [->|Hne]; [tauto|right; right].
      exists d'. rewrite lookup_delete_ne by done. split; [done|]. apply (owned_agree (m_pages (mm s))); [|done].
      intros b Hb. apply G3. rewrite G2. intros [Hl|Hx].
      * destruct Hd' as [sz' Hd']. destruct (ow_space _ _ _ _ _ O d' sz' Hd') as (A' & _). apply (space_not_free _ _ _ _ _ b A'); [by left|done].
      * apply Hne. apply (ow_apart _ _ _ _ _ O d' d b); [done|by rewrite Hd|by left|done].
    + intros a [Ha|Ha]%G2; [by eapply free_here; [apply O|]|by eapply owned_here].
Qed.

(** The two laws without the reason for a failure. *)
Lemma vm_kalloc_law s i c S P : can_lock L_kmem s i c → at_rest s i c → vm_own (mm s) S P →
  ∃ r m', kalloc s = Ok r (put_mem m' s) ∧ same_user hw_byte S (mm s) m'
    ∧ (r = 0 ∧ vm_own m' S P ∨ r ≠ 0 ∧ r ∉ P ∧ vm_own m' S ({[r]} ∪ P)).
Proof. intros Hc Hr O. destruct (vm_kalloc s i c S P Hc Hr O) as (r & m' & R & HB & [(H1 & H2 & _)|H]); exists r, m'; auto. Qed.

Lemma vm_copyuvm_law s i c S P d sz : can_lock L_kmem s i c → at_rest s i c → vm_own (mm s) S P → S !! d = Some sz →
  ∃ r m', copyuvm d sz s = Ok r (put_mem m' s) ∧ same_user hw_byte S (mm s) m'
    ∧ (r = 0 ∧ vm_own m' S P ∨ r ≠ 0 ∧ S !! r = None ∧ vm_own m' (<[r := sz]> S) P
         ∧ ∀ va, 0 ≤ va < 2 ^ 31 → hw_byte m' r va = hw_byte (mm s) d va).
Proof. intros Hc Hr O Hd. destruct (vm_copyuvm s i c S P d sz Hc Hr O Hd) as (r & m' & R & HB & [(H1 & H2 & _)|H]); exists r, m'; auto. Qed.

End ownership.

(** [kalloc.c] and [vm.c] keep what [proc.c], [pipe.c] and the rest rely on. *)
#[export] Instance vm_mem {Xf : Type} {LK : Linker} {LKO : LinkerOk} : MemOps mem Xf :=
  {| e_kalloc := kalloc; e_kfree := kfree; e_setupkvm := setupkvm; e_inituvm := inituvm; e_allocuvm := allocuvm;
     e_deallocuvm := deallocuvm; e_copyuvm := copyuvm; e_freevm := freevm; mem_own := vm_own; mem_byte := hw_byte;
     e_kalloc_ok := vm_kalloc_law; e_kfree_ok := vm_kfree; e_copyuvm_ok := vm_copyuvm_law; e_freevm_ok := vm_freevm |}.

(** ** Properties *)

(** C7: The page allocator and the page tables implement the memory that
    processes rely on.  In a memory where spaces [S] and kernel pages [P] are in
    use and share no page, [kalloc] returns a page nobody uses, or null when
    none is free; [kfree]
    takes a kernel page back; [copyuvm] makes a new space whose user memory is,
    byte for byte as the hardware translates it, that of the old one, or, when
    memory is short, returns null and leaves the memory as it was; [freevm] gives back all pages of a
    space.  None of them changes the user memory of any other space, and after
    each of them the pages in use are again apart and every page of memory is in
    use or free, so no page is ever shared or lost. *)
Theorem vm_memory_refines {Xf : Type} {LK : Linker} {LKO : LinkerOk} (s : kstate (mem * Xf)) i c S P :
  can_lock L_kmem s i c → at_rest s i c → vm_own (mm s) S P →
  (∃ r m', kalloc s = Ok r (put_mem m' s) ∧ same_user hw_byte S (mm s) m'
     ∧ (r = 0 ∧ vm_own m' S P ∧ scarce (mm s) 0 ∨ r ≠ 0 ∧ r ∉ P ∧ vm_own m' S ({[r]} ∪ P)))
  ∧ (∀ a, a ∈ P → ∃ m', kfree a s = Ok tt (put_mem m' s) ∧ same_user hw_byte S (mm s) m' ∧ vm_own m' S (P ∖ {[a]}))
  ∧ (∀ d sz, S !! d = Some sz →
      (∃ r m', copyuvm d sz s = Ok r (put_mem m' s) ∧ same_user hw_byte S (mm s) m'
         ∧ (r = 0 ∧ vm_own m' S P ∧ scarce (mm s) (1025 + npages sz) ∨ r ≠ 0 ∧ S !! r = None ∧ vm_own m' (<[r := sz]> S) P
              ∧ ∀ va, 0 ≤ va < KERNBASE → hw_byte m' r va = hw_byte (mm s) d va))
      ∧ (∃ m', freevm d s = Ok tt (put_mem m' s) ∧ same_user hw_byte (delete d S) (mm s) m' ∧ vm_own m' (delete d S) P)).
Proof.
  intros Hc Hr Ho. split; [by eapply vm_kalloc|]. split; [intros a; by eapply vm_kfree|].
  intros d sz Hd. split; [by eapply vm_copyuvm|by eapply vm_freevm].
Qed.

(** [fork] of a process with a hole in its memory, with a free table entry and
    enough memory to get there. *)
Lemma fork_hole {Xf : Type} {LK : Linker} {LKO : LinkerOk} `{!FsOps mem Xf} (s : kstate (mem * Xf)) i c cur p np km l us k0 :
  ready [L_ptable; L_kmem] s i c → at_rest s i c → cproc c = Some cur → 0 ≤ ncli c → k_ptable s !! cur = Some p → p_state p ≠ UNUSED →
  length (k_ptable s) = NPROC → find_index is_unused (k_ptable s) = Some np →
  aspace km (mm s) (p_pgdir p) l us → us !! k0 = None → 0 ≤ k0 → k0 * PGSIZE < p_sz p → p_sz p ≤ KERNBASE →
  (∀ k, 0 ≤ k < k0 → is_Some (us !! k)) → has (pde (m_pages (mm s)) (p_pgdir p) (PDX (k0 * PGSIZE))) PTE_P = true →
  1026 + k0 < Z.of_nat (length l) → fork s = Panic "copyuvm: page not present".
Proof.
  intros Hrd Hrest Hc Hn0 Hp Hst Hlen Hf A Hn H0 Hlt Hsz Hall Hpd Hl. unfold fork.
  destruct (ready_can_lock _ _ _ _ L_ptable Hrd ltac:(set_solver)) as [H1 H2 H3].
  rewrite (bind_ok _ _ _ _ _ (curproc_ok s i c cur H1 ltac:(lia) Hc)), <- Hrest, set_mach_id.
  pose proof Hf as (q0 & Hq0 & Hun & _)%find_index_Some. unfold is_unused in Hun. bool_to_prop.
  assert (np ≠ cur) as Hne by (intros ->; congruence).
  set (c' := settle (eflags_if (k_mach s)) c).
  assert (Hfree : kmem_free (picked i c np s) i c').
  { intros _. split; [eapply ready_can_lock; [by eapply ready_settled|set_solver]|symmetry; by apply at_rest_settled]. }
  destruct (kalloc_ok (picked i c np s) i c' l Hfree (as_kmem _ _ _ _ _ A)) as (m1 & R1 & K1 & P1 & U1 & S1).
  destruct l as [|ks l]; [cbn [length] in Hl; lia|]. cbn [hd tl] in *.
  destruct (free_page_here _ _ _ (as_kmem _ _ _ _ _ A)) as (Hks & _).
  rewrite (bind_ok _ _ _ _ _ (allocproc_with s i c np ks m1 ltac:(by split) Hlen Hf R1)), (proj2 (Z.eqb_neq ks 0)) by lia.
  set (s2 := alloc_state i c np ks m1 s).
  assert (k_ptable s2 !! cur = Some p) as Hp2 by (unfold s2, alloc_state; simpl; by rewrite list_lookup_alter_ne).
  rewrite (bind_ok _ _ _ _ _ (get_proc_ok s2 cur p Hp2)). apply bind_panic.
  refine (copyuvm_panics s2 i c' km (p_pgdir p) l us (p_sz p) k0 _ _ Hn H0 Hlt Hsz Hall _ _).
  - intros _. split; [eapply ready_can_lock; [by eapply ready_settled|set_solver]|symmetry; by apply at_rest_settled].
  - change (mm s2) with m1. eapply aspace_frame; [exact A|exact K1|]. intros a Ha. rewrite P1. split; [done|].
    pose proof (space_not_free _ _ _ _ _ _ A Ha) as Hx. by apply not_elem_of_cons in Hx as [_ Hx].
  - change (mm s2) with m1. rewrite P1. exact Hpd.
  - cbn [length] in Hl. lia.
Qed.

(** C40: [closeshmem] counts the access down, frees the id with the last one and
    removes the caller's mapping; but the page is not given back and the caller's
    size still includes it.  So when the caller then calls [fork], with an unused
    entry in the process table and enough free pages to copy what lies below the
    page, the kernel panics.  An unknown id gives -1. *)
Theorem closeshmem_leaves_hole {Xf : Type} {LK : Linker} {LKO : LinkerOk} `{!FsOps mem Xf} (s : kstate (mem * Xf)) i c p pr km l us id :
  shm_caller s i c p pr → aspace km (mm s) (p_pgdir pr) l us → (∀ k, 0 ≤ k < npages (p_sz pr) → is_Some (us !! k)) →
  0 ≤ p_shmemaddr pr → p_shmemaddr pr + PGSIZE ≤ p_sz pr → p_sz pr ≤ KERNBASE → p_shmemaddr pr mod PGSIZE = 0 →
  let k0 := p_shmemaddr pr / PGSIZE in
  match find_index (λ e, sh_id e =? id) (m_shmem (mm s)) with
  | None => closeshmem id s = Ok (-1) (said "No shared memory with this ID." s)
  | Some k => ∀ e, m_shmem (mm s) !! k = Some e →
      ∃ m', closeshmem id s = Ok 0 (set_mm m' s) ∧ m_shmem m' = <[k := closed e]> (m_shmem (mm s))
        ∧ aspace km m' (p_pgdir pr) l (delete k0 us)
        ∧ (∀ np, locks (k_mach s) !! L_ptable = None → length (k_ptable s) = NPROC → p_state pr ≠ UNUSED →
             find_index is_unused (k_ptable s) = Some np → 1026 + k0 < Z.of_nat (length l) →
             fork (set_mm m' s) = Panic "copyuvm: page not present")
  end.
Proof.
  intros Hs A Hall V1 V2 V3 V4 k0. destruct (find_index _ _) as [k|] eqn:Hf; [|by apply (close_unknown s i c p pr)].
  intros e He. pose proof (npages_spec (p_sz pr) ltac:(unfold PGSIZE in *; lia)) as Hnp.
  assert (Ek : p_shmemaddr pr = k0 * PGSIZE) by (unfold k0; pose proof (Z.div_mod (p_shmemaddr pr) PGSIZE ltac:(done)); lia).
  assert (Hk0 : 0 ≤ k0 < npages (p_sz pr)) by (unfold PGSIZE in *; lia). destruct (Hall k0 Hk0) as [[a f] Hka].
  destruct (unmap_facts _ _ _ _ _ _ _ _ A Hka) as (V & P & _). rewrite <- Ek in V, P.
  eexists. split; [apply (close_known s i c p pr l id k e Hs (as_pt _ _ _ _ _ A) Hf He); (done || unfold KERNBASE, PGSIZE in *; lia)|]. split; [done|].
  pose proof (unmap_pte _ _ _ _ _ _ _ _ A Hka) as A1. rewrite <- Ek in A1. set (m1 := set_m_pages _ (mm s)) in *.
  assert (A2 : aspace km (set_m_shmem (<[k := closed e]> (m_shmem (mm s))) m1) (p_pgdir pr) l (delete k0 us)).
  { eapply aspace_frame; [exact A1|apply kmem_wf_shmem, A1|]. intros b Hb. split; [done|]. by apply (space_not_free _ _ _ _ _ _ A1). }
  split; [exact A2|]. intros np Hl Hlen Hst Hfu Hfree. destruct Hs as [S1 S2 S3 S4 S5 S6 S7].
  refine (fork_hole (set_mm (set_m_shmem (<[k := closed e]> (m_shmem (mm s))) m1) s) i c p pr np km l (delete k0 us) k0 _ S6 S3 (proj1 S2) S7 Hst Hlen Hfu A2 _ (proj1 Hk0) _ V3 _ _ Hfree).
  - split; [done|cbn; lia|]. intros x [->|[->|[]%elem_of_nil]%elem_of_cons]%elem_of_cons; done.
  - apply lookup_delete_eq.
  - unfold PGSIZE in *. lia.
  - intros j Hj. rewrite lookup_delete_ne by lia. apply Hall. lia.
  - destruct (index_bounds _ V) as [Hi _]. destruct (pt_table _ _ _ (as_pt _ _ _ _ _ A) _ Hi P) as (_ & _ & T3). rewrite <- Ek.
    change (has (pde (set_pte (m_pages (mm s)) (p_pgdir pr) (p_shmemaddr pr) 0) (p_pgdir pr) (PDX (p_shmemaddr pr))) PTE_P = true).
    unfold set_pte. by rewrite pde_insert_ne.
Qed.

Section growth.
Context {Xf : Type} {LK : Linker} {LKO : LinkerOk}.
Implicit Types (s : kstate (mem * Xf)) (m : mem) (us : uspace).

(** Addresses from page [j] up to page [n]. *)
Definition between (j n va : Z) : bool := (j * PGSIZE <=? va) && (va <? n * PGSIZE).

Lemma between_pages j sz va : 0 ≤ sz → (j <=? va / PGSIZE) && (va / PGSIZE * PGSIZE <? sz) = between j (npages sz) va.
Proof.
  intros Hsz. pose proof (npages_spec sz Hsz). pose proof (Z.div_mod va PGSIZE ltac:(done)). pose proof (Z.mod_pos_bound va PGSIZE ltac:(done)).
  unfold between, PGSIZE in *.
  destruct (Z.leb_spec j (va / 4096)), (Z.leb_spec (j * 4096) va), (Z.ltb_spec (va / 4096 * 4096) sz), (Z.ltb_spec va (npages sz * 4096)); done || lia.
Qed.

Lemma grown_bytes km m m' d l l' us us' j sz va :
  aspace km m d l us → uvm_step km m m' d l l' us us' → grown us m' j sz us' → 0 ≤ sz → 0 ≤ va < KERNBASE →
  (∀ k, j ≤ k → k * PGSIZE < sz → us !! k = None) →
  hw_byte m' d va = if between j (npages sz) va then Some 0 else hw_byte m d va.
Proof.
  intros A ST G Hsz Hva Hn. rewrite (aspace_byte _ _ _ _ _ _ A Hva), (aspace_byte _ _ _ _ _ _ (ut_space _ _ _ _ _ _ _ _ ST) Hva). unfold ubyte.
  specialize (G (va / PGSIZE)). rewrite <- between_pages by done. destruct (_ && _).
  - destruct G as (a & -> & Ha). unfold page. rewrite Ha. cbn [default]. apply lookup_replicate. split; [done|].
    pose proof (Z.mod_pos_bound va PGSIZE ltac:(done)). lia.
  - rewrite G. destruct (us !! (va / PGSIZE)) as [[a f]|] eqn:E; [|done]. unfold page.
    pose proof (ut_keep _ _ _ _ _ _ _ _ ST _ _ E G) as Ek. cbn [fst] in Ek. by rewrite Ek.
Qed.

Lemma dropped_bytes km m m' d l l' us us' j sz va :
  aspace km m d l us → uvm_step km m m' d l l' us us' → dropped us j sz us' → 0 ≤ sz → 0 ≤ va < KERNBASE →
  hw_byte m' d va = if between j (npages sz) va then None else hw_byte m d va.
Proof.
  intros A ST D Hsz Hva. rewrite (aspace_byte _ _ _ _ _ _ A Hva), (aspace_byte _ _ _ _ _ _ (ut_space _ _ _ _ _ _ _ _ ST) Hva). unfold ubyte.
  pose proof (D (va / PGSIZE)) as Dk. rewrite between_pages in Dk by done. destruct (between j (npages sz) va); rewrite Dk; [done|].
  destruct (us !! (va / PGSIZE)) as [[a f]|] eqn:E; [|done]. unfold page.
  pose proof (ut_keep _ _ _ _ _ _ _ _ ST _ _ E Dk) as Ek. cbn [fst] in Ek. by rewrite Ek.
Qed.

End growth.

(** C17: Growing, shrinking and writing user memory.  [allocuvm] returns 0 for a
    size above [KERNBASE]; otherwise it returns the new size and the new pages
    read as zero, or, when memory is short, it returns 0 and the memory reads as before.  [deallocuvm]
    unmaps exactly the pages above the new size.  [copyout] writes its bytes and
    nothing else and returns 0, or returns -1 because a page of the range is not
    accessible to the user.  Every page taken from the free list is in the space
    and every page dropped is on the free list ([uvm_step]). *)
Theorem user_memory_correct {Xf : Type} {LK : Linker} {LKO : LinkerOk} (s : kstate (mem * Xf)) i c d l us :
  kmem_free s i c → aspace kern_map (mm s) d l us →
  (∀ oldsz newsz, 0 ≤ oldsz ≤ newsz → (∀ k, npages oldsz ≤ k → k * PGSIZE < newsz → us !! k = None) →
     if KERNBASE <=? newsz then allocuvm d oldsz newsz s = Ok 0 s else
     ∃ r s' m' l' us', allocuvm d oldsz newsz s = Ok r (set_mm m' s') ∧ uvm_step kern_map (mm s) m' d l l' us us' ∧
       ((r = newsz ∧ s' = s ∧ ∀ va, 0 ≤ va < KERNBASE →
           hw_byte m' d va = if between (npages oldsz) (npages newsz) va then Some 0 else hw_byte (mm s) d va)
        ∨ (r = 0 ∧ us' = us ∧ Z.of_nat (length l) ≤ 1025 + (npages newsz - npages oldsz) ∧ ∀ va, 0 ≤ va < KERNBASE → hw_byte m' d va = hw_byte (mm s) d va)))
  ∧ (∀ oldsz newsz, 0 ≤ newsz < oldsz → oldsz ≤ KERNBASE →
     ∃ m' l' us', deallocuvm d oldsz newsz s = Ok newsz (set_mm m' s) ∧ uvm_step kern_map (mm s) m' d l l' us us' ∧
       ∀ va, 0 ≤ va < KERNBASE → hw_byte m' d va = if between (npages newsz) (npages oldsz) va then None else hw_byte (mm s) d va)
  ∧ (∀ va buf, 0 ≤ va → va + Z.of_nat (length buf) ≤ KERNBASE →
     (∀ k, va / PGSIZE ≤ k → k * PGSIZE < va + Z.of_nat (length buf) → is_Some (us !! k)) →
     ∃ r m' n, copyout d va buf s = Ok r (set_mm m' s) ∧ aspace kern_map m' d l us ∧
       (r = 0 ∧ take n buf = buf
        ∨ r = -1 ∧ ∃ k a f, va / PGSIZE ≤ k ∧ k * PGSIZE < va + Z.of_nat (length buf) ∧ us !! k = Some (a, f) ∧ has f PTE_U = false) ∧
       ∀ x, 0 ≤ x < KERNBASE → hw_byte m' d x
         = if (va <=? x) && (x <? va + Z.of_nat (length (take n buf))) then take n buf !! Z.to_nat (x - va) else hw_byte (mm s) d x).
Proof.
  intros Hf A. split; [|split].
  - intros oldsz newsz Ho Hn. destruct (Z.leb_spec KERNBASE newsz) as [Hk|Hk]; [unfold allocuvm; by rewrite (proj2 (Z.leb_le _ _) Hk)|].
    destruct (allocuvm_ok kern_map s i c d l us oldsz newsz Hf A Ho Hk Hn) as (r & s' & m' & l' & us' & R & ST & Hr).
    exists r, s', m', l', us'. split; [done|]. split; [done|]. destruct Hr as [(-> & -> & G)|(-> & _ & -> & Hc)]; [left|right].
    + split; [done|]. split; [done|]. intros va Hva. eapply grown_bytes; [done|done|done|lia|done|done].
    + split; [done|]. split; [done|]. split; [done|]. intros va Hva.
      rewrite (aspace_byte _ _ _ _ _ _ A Hva), (aspace_byte _ _ _ _ _ _ (ut_space _ _ _ _ _ _ _ _ ST) Hva). apply ubyte_keep.
      intros k e He. by apply (ut_keep _ _ _ _ _ _ _ _ ST k).
  - intros oldsz newsz Hn Ho. destruct (deallocuvm_ok kern_map s i c d l us oldsz newsz Hf A Hn Ho) as (m' & l' & us' & R & ST & D).
    exists m', l', us'. split; [done|]. split; [done|]. intros va Hva. eapply dropped_bytes; [done|done|done|lia|done].
  - intros va buf Hv Hk Hall. destruct (copyout_ok kern_map s d l us va buf A Hv Hk Hall) as (r & m' & n & R & [D1 D2 D3 D4] & W & Hr).
    exists r, m', n. split; [done|]. split; [done|]. split; [done|]. intros x Hx.
    rewrite (aspace_byte _ _ _ _ _ _ A Hx), (aspace_byte _ _ _ _ _ _ D1 Hx). by apply W.
Qed.

(** ** Samples *)

(** A kernel of 128 KB, and 4000 free pages behind it. *)
#[local] Instance small_linker : Linker := {| kend := 2148663296; kdata := 2148564992 |}.

#[local] Instance small_linker_ok : LinkerOk.
Proof. split; vm_compute; congruence. Qed.

Definition free_pages : list Z := page_range 2151677952 4000.
Definition free_mem : mem := foldr freed (Mem ∅ 1 0 []) free_pages.
Definition free_state (m : mem) : kstate (mem * unit) := set_mm m sample_mem_state.

Lemma free_mem_wf : kmem_wf free_mem free_pages ∧ m_use_lock free_mem = 1.
Proof.
  unfold free_mem. assert (Forall good_page free_pages) as Hg.
  { apply list.Forall_forall. intros a (k & -> & Hk%elem_of_seq)%list_elem_of_fmap. unfold good_page, PGSIZE, KERNBASE, PHYSTOP. cbn [kend small_linker].
    rewrite Z.mod_add by done. split; [done|lia]. }
  assert (NoDup free_pages) as Hn.
  { assert (Inj (=) (=) (λ k, 2151677952 + Z.of_nat k * PGSIZE)) by (intros x y E; unfold PGSIZE in E; lia).
    apply (NoDup_fmap_2 _), NoDup_seq. }
  generalize free_pages Hg Hn. clear Hg Hn. induction 1 as [|a l Ha Hl IH]; cbn [foldr].
  - intros _. split; [split; [done|constructor|constructor|by intros a d E]|done].
  - intros [H1 H2]%list.NoDup_cons. destruct (IH H2) as [K U]. split; [by apply kmem_wf_free|done].
Qed.

Lemma free_mem_pages a : is_Some (m_pages free_mem !! a) → a ∈ free_pages.
Proof.
  unfold free_mem. generalize free_pages. intros l. induction l as [|b l IH]; [by intros [? [=]]|]. cbn [foldr]. intros Ha. apply elem_of_cons.
  destruct (decide (a = b)) as [|Hne]; [by left|right]. apply IH. unfold freed in Ha. cbn [m_pages set_m_freelist set_m_pages] in Ha.
  by rewrite lookup_insert_ne in Ha.
Qed.

(** A process image of two zero pages, made by [setupkvm] and [allocuvm]. *)
Lemma sample_image : ∃ m d l us, new_space kern_map free_mem m d free_pages l us ∧ (2970 < length l)%nat
  ∧ (∀ k, is_Some (us !! k) ↔ 0 ≤ k < npages 8192) ∧ ∀ va, 0 ≤ va < 8192 → hw_byte m d va = Some 0.
Proof.
  destruct free_mem_wf as [K U]. pose proof (sample_kmem_free free_mem) as Hf. fold (free_state free_mem) in Hf.
  assert (Hlen : length free_pages = Z.to_nat 4000) by (unfold free_pages, page_range; by rewrite length_map, length_seq).
  destruct (setupkvm_ok (free_state free_mem) 0 sample_cpu free_pages Hf K) as (d & m1 & l1 & _ & [(_ & N)|(_ & _ & Hl)]); [|lia].
  assert (Hl1 : (length free_pages ≤ 1025 + length l1)%nat).
  { apply (pages_count (m_pages m1) d); [exact (kw_nodup _ _ K)|]. intros a [|[|(k & f & [=])]]%(ns_owned _ _ _ _ _ _ _ N); auto. }
  pose proof (ns_space _ _ _ _ _ _ _ N) as A.
  destruct (allocuvm_ok kern_map (free_state m1) 0 sample_cpu d l1 ∅ 0 8192 (sample_kmem_free m1) A) as (r & s' & m & l & us & _ & ST & Hr); [lia|done|done|].
  change (npages 8192 - npages 0) with 2 in Hr. destruct Hr as [(_ & _ & G)|(_ & _ & _ & Hl)]; [|lia].
  exists m, d, l, us. split; [by eapply new_space_step|]. pose proof (new_space_step _ _ _ _ _ _ _ _ _ _ N ST) as N'.
  assert (Hk : ∀ k, is_Some (us !! k) ↔ 0 ≤ k < npages 8192).
  { intros k. specialize (G k). change (npages 8192) with 2. change (npages 0) with 0 in G.
    destruct (Z.leb_spec 0 k), (Z.ltb_spec (k * PGSIZE) 8192); cbn [andb] in G; unfold PGSIZE in *; [destruct G as (a & -> & _); split; [lia|done]|..];
      rewrite G, lookup_empty; (split; [by intros [? [=]]|lia]). }
  split; [|split; [done|]].
  - assert ((length free_pages ≤ 1025 + length (l ++ upages us 2))%nat) as Hl.
    { apply (pages_count (m_pages m) d); [exact (kw_nodup _ _ K)|]. intros a Ha%(ns_owned _ _ _ _ _ _ _ N'). rewrite elem_of_app.
      destruct Ha as [|[|(k & f & E)]]; [auto|auto|right; right]. eapply upages_elem; [|exact E]. change 2 with (npages 8192). apply Hk. by rewrite E. }
    rewrite length_app in Hl. change (length (upages us 2)) with 2%nat in Hl. lia.
  - intros va Hva. rewrite (grown_bytes kern_map m1 m d l1 l ∅ us 0 8192 va A ST G); [|done|unfold KERNBASE; lia|done].
    unfold between. change (npages 8192 * PGSIZE) with 8192. rewrite (proj2 (Z.leb_le _ _)), (proj2 (Z.ltb_lt _ _)) by lia. done.
Qed.

Lemma free_list_unique m l l' : kmem_wf m l → kmem_wf m l' → l = l'.
Proof.
  intros [C _ G _] [C' _ G' _]. revert l' C' G'. revert C. generalize (m_freelist m). induction G as [|a l Ha Hl IH]; intros p C l' C' G'.
  - destruct G' as [|b l' Hb Hl']; [done|]. destruct C' as [-> _]. cbn in C. subst b. destruct Hb as (_ & _ & Hb). unfold KERNBASE in Hb. lia.
  - destruct C as (-> & d & Hd & C). destruct G' as [|b l' Hb Hl'].
    + cbn in C'. subst a. destruct Ha as (_ & _ & Ha). unfold KERNBASE in Ha. lia.
    + destruct C' as (-> & d' & Hd' & C'). f_equal. rewrite Hd in Hd'. injection Hd' as <-. by eapply IH.
Qed.

(** Copying the image: [copyuvm] succeeds and the copy reads the same. *)
Lemma vm_memory_refines_witness : ∃ m d r m', copyuvm d 8192 (free_state m) = Ok r (put_mem m' (free_state m))
  ∧ r ≠ d ∧ vm_own m' (<[r := 8192]> {[d := 8192]}) ∅ ∧ hw_byte m' d 5000 = Some 0 ∧ hw_byte m' r 5000 = Some 0.
Proof.
  destruct sample_image as (m & d & l & us & N & Hlen & Hk & Hz). destruct free_mem_wf as [K U].
  assert (O0 : owns free_mem free_pages (λ _, ∅) ∅ ∅) by (split; [by rewrite U|done|done|intros d1 d2 a [? [=]]|intros a []%not_elem_of_empty]).
  assert (C0 : complete free_mem free_pages (λ _, ∅) ∅ ∅) by (intros a _ Ha; left; by apply free_mem_pages).
  destruct (owns_new _ _ _ _ _ _ _ _ us 8192 O0 N ltac:(done) Hk) as (_ & O & _ & C).
  destruct (vm_memory_refines (free_state m) 0 sample_cpu {[d := 8192]} ∅) as (_ & _ & H).
  - apply (sample_kmem_free m). cbn. rewrite (ns_lock _ _ _ _ _ _ _ N), U. done.
  - reflexivity.
  - exists l, (λ d', if d' =? d then us else ∅). auto.
  - destruct (H d 8192 (lookup_singleton_eq d 8192)) as [(r & m' & R & HB & Hr) _]. exists m, d, r, m'.
    destruct Hr as [(_ & _ & l2 & K2 & Hl)|(Hr & Hn & O' & E)].
    + pose proof (free_list_unique _ _ _ K2 (ow_kmem _ _ _ _ _ O)) as ->. change (npages 8192) with 2 in Hl. lia.
    + apply lookup_singleton_None in Hn. split; [done|]. split; [done|].
      split; [exact O'|]. assert (Hd : hw_byte m d 5000 = Some 0) by (by apply Hz).
      split; [|by rewrite E]. rewrite <- Hd. apply HB; [by rewrite lookup_singleton_eq|done].
Defined.

(** Growing the image by a page and shrinking it to one. *)
Lemma user_memory_correct_witness : ∃ m d m1 m2, allocuvm d 8192 12288 (free_state m) = Ok 12288 (free_state m1)
  ∧ hw_byte m1 d 10000 = Some 0 ∧ hw_byte m1 d 12288 = None
  ∧ deallocuvm d 8192 4096 (free_state m) = Ok 4096 (free_state m2) ∧ hw_byte m2 d 5000 = None ∧ hw_byte m2 d 4095 = Some 0.
Proof.
  destruct sample_image as (m & d & l & us & N & Hlen & Hk & Hz).
  destruct (user_memory_correct (free_state m) 0 sample_cpu d l us (sample_kmem_free m) (ns_space _ _ _ _ _ _ _ N)) as (Ha & Hd & _).
  assert (Hno : ∀ k, npages 8192 ≤ k → us !! k = None).
  { intros k Hk2. destruct (us !! k) eqn:E; [|done]. assert (0 ≤ k < npages 8192) by (apply Hk; by rewrite E). lia. }
  specialize (Ha 8192 12288 ltac:(lia) ltac:(eauto)). change (KERNBASE <=? 12288) with false in Ha. cbv iota in Ha.
  destruct Ha as (r & s' & m1 & l1 & us1 & R1 & _ & [(-> & -> & E1)|(_ & _ & Hl & _)]); [|change (npages 12288 - npages 8192) with 1 in Hl; lia].
  destruct (Hd 8192 4096 ltac:(lia) ltac:(done)) as (m2 & l2 & us2 & R2 & _ & E2).
  exists m, d, m1, m2. split; [exact R1|]. split; [by rewrite E1|]. split.
  { rewrite E1 by done. change (between (npages 8192) (npages 12288) 12288) with false. cbv iota.
    rewrite (aspace_byte _ _ _ _ _ _ (ns_space _ _ _ _ _ _ _ N)) by done. unfold ubyte. by rewrite Hno. }
  split; [exact R2|]. split; [by rewrite E2|]. rewrite E2 by done. by apply Hz.
Defined.

(** A process with the image whose second page is shared memory with id 5. *)
Definition shm_user (d : Z) : proc := set_p_shmemaddr 4096 (set_p_sz 8192 (set_p_pgdir d (sample_proc RUNNING 7 None))).
Definition shm_state (m : mem) (d : Z) : kstate (mem * unit) :=
  set_k_ptable (sample_table [shm_user d]) (free_state (set_m_shmem [ShPage 5 1 4096] m)).

(** It closes the shared memory and forks. *)
Lemma closeshmem_leaves_hole_witness : ∃ m d m', closeshmem 5 (shm_state m d) = Ok 0 (set_mm m' (shm_state m d))
  ∧ m_shmem m' = [ShPage 0 0 4096] ∧ fork (set_mm m' (shm_state m d)) = Panic "copyuvm: page not present".
Proof.
  destruct sample_image as (m & d & l & us & N & Hlen & Hk & _). exists m, d.
  assert (A : aspace kern_map (set_m_shmem [ShPage 5 1 4096] m) d l us).
  { pose proof (ns_space _ _ _ _ _ _ _ N) as A. eapply aspace_frame; [exact A|apply kmem_wf_shmem, A|]. intros b Hb. split; [done|].
    by apply (space_not_free _ _ _ _ _ _ A). }
  destruct (closeshmem_leaves_hole (shm_state m d) 0 sample_cpu 0 (shm_user d) kern_map l us 5) with (e := ShPage 5 1 4096)
    as (m' & R & E & _ & Hfork).
  - split; [by split|vm_compute; split; congruence|reflexivity..].
  - exact A.
  - intros k. apply Hk.
  - done.
  - done.
  - done.
  - reflexivity.
  - reflexivity.
  - exists m'. split; [exact R|]. split; [exact E|]. apply (Hfork 1%nat); [reflexivity|reflexivity|done|reflexivity|].
    change (p_shmemaddr (shm_user d) / PGSIZE) with 1. lia.
Defined.
