(* ===== verification/Pipe.v ===== *)
(** * Pipes

    Models [pipe.c]: the ring buffer with its 32-bit counters, [pipewrite],
    [piperead] and [pipeclose].  A pipe is named by its page ([nat]); the part of
    the kernel state that holds the pipes is reached through [HasPipes].
    [pipealloc] is in [File], with the file table it fills. *)

From S2P Require Import Prelude Spinlock State PrioLock Sched Proc Sleep.

Definition PIPESIZE : Z := 512.

(** [struct pipe], without its spin lock, which is [L_pipe]. *)
Record pipe := Pipe {
  pp_data : list Z;
  pp_nread : Z;
  pp_nwrite : Z;
  pp_readopen : Z;
  pp_writeopen : Z
}.

Class HasPipes (X : Type) := {
  x_pipes : X → gmap nat pipe;
  x_set_pipes : gmap nat pipe → X → X;
  x_pipes_set m x : x_pipes (x_set_pipes m x) = m;
  x_set_pipes_set m m' x : x_set_pipes m (x_set_pipes m' x) = x_set_pipes m x;
  x_set_pipes_id x : x_set_pipes (x_pipes x) x = x
}.

#[export] Instance pipes_here : HasPipes (gmap nat pipe) :=
  {| x_pipes := id; x_set_pipes m _ := m; x_pipes_set _ _ := eq_refl;
     x_set_pipes_set _ _ _ := eq_refl; x_set_pipes_id _ := eq_refl |}.

#[export] Instance pipes_snd (Xm Xf : Type) `{!HasPipes Xf} : HasPipes (Xm * Xf).
Proof.
  refine {| x_pipes x := x_pipes x.2; x_set_pipes m x := (x.1, x_set_pipes m x.2) |}.
  - intros m x. apply x_pipes_set.
  - intros m m' x. simpl. by rewrite x_set_pipes_set.
  - intros [x y]. simpl. by rewrite x_set_pipes_id.
Defined.

(** [p->data[p->nwrite++ % PIPESIZE] = b] *)
Definition pipe_push (b : Z) (q : pipe) : pipe :=
  Pipe (<[Z.to_nat (pp_nwrite q mod PIPESIZE) := b]> (pp_data q)) (pp_nread q) (u32 (pp_nwrite q + 1))
    (pp_readopen q) (pp_writeopen q).

(** [p->data[p->nread % PIPESIZE]] and [p->nread++] *)
Definition pipe_head (q : pipe) : option Z := pp_data q !! Z.to_nat (pp_nread q mod PIPESIZE).
Definition pipe_pop (q : pipe) : pipe :=
  Pipe (pp_data q) (u32 (pp_nread q + 1)) (pp_nwrite q) (pp_readopen q) (pp_writeopen q).

Definition pipe_full (q : pipe) : bool := pp_nwrite q =? u32 (pp_nread q + PIPESIZE).
Definition pipe_empty (q : pipe) : bool := pp_nread q =? pp_nwrite q.

Definition pipe_close_end (writable : bool) (q : pipe) : pipe :=
  if writable then Pipe (pp_data q) (pp_nread q) (pp_nwrite q) (pp_readopen q) 0
  else Pipe (pp_data q) (pp_nread q) (pp_nwrite q) 0 (pp_writeopen q).

Section pipe_ops.
Context {X : Type} `{!HasPipes X}.
Notation M := (K (kstate X)).

(** [p->...]; a freed pipe may not be touched. *)
Definition get_pipe (p : nat) : M pipe :=
  s ← kget;
  match x_pipes (k_ext s) !! p with
  | Some q => mret q
  | None => kundef "freed pipe"
  end.

Definition set_pipe (p : nat) (q : pipe) : M unit :=
  kmodify (λ s, set_k_ext (x_set_pipes (<[p := q]> (x_pipes (k_ext s))) (k_ext s)) s).

(** [myproc()->killed] *)
Definition curkilled : M bool :=
  i ← curproc;
  pr ← get_proc i;
  mret (negb (p_killed pr =? 0)).

(** The loop of [pipewrite] from index [i] on; one unit of fuel per byte stored
    and per sleep. *)
Fixpoint pipewrite_loop (fuel : nat) (p : nat) (addr : list Z) (n i : Z) : M Z :=
  match fuel with
  | O => knofuel
  | S fuel' =>
      if i <? n then
        q ← get_pipe p;
        if pipe_full q then
          stop ← (if pp_readopen q =? 0 then mret true else curkilled);
          if (stop : bool) then
            release (L_pipe p);;
            mret (-1)
          else
            wakeup (Some (Chan_pipe_nread p));;
            sleep (Some (Chan_pipe_nwrite p)) (Some (L_pipe p));;
            pipewrite_loop fuel' p addr n i
        else
          match addr !! Z.to_nat i with
          | Some b => set_pipe p (pipe_push b q);; pipewrite_loop fuel' p addr n (i + 1)
          | None => kundef "user buffer"
          end
      else
        wakeup (Some (Chan_pipe_nread p));;
        release (L_pipe p);;
        mret n
  end.

Definition pipewrite (fuel : nat) (p : nat) (addr : list Z) (n : Z) : M Z :=
  acquire (L_pipe p);;
  pipewrite_loop fuel p addr n 0.

(** The copying loop of [piperead]: the bytes stored to [addr] so far. *)
Fixpoint piperead_copy (fuel : nat) (p : nat) (addr : list Z) (n : Z) : M (list Z) :=
  match fuel with
  | O => knofuel
  | S fuel' =>
      if Z.of_nat (length addr) <? n then
        q ← get_pipe p;
        if pipe_empty q then mret addr else
        match pipe_head q with
        | Some b => set_pipe p (pipe_pop q);; piperead_copy fuel' p (addr ++ [b]) n
        | None => kundef "pipe data"
        end
      else mret addr
  end.

(** The waiting loop, one unit of fuel per sleep: [true] when data (or the end
    of the data) is there, [false] when the process was killed. *)
Fixpoint piperead_wait (fuel : nat) (p : nat) : M bool :=
  match fuel with
  | O => knofuel
  | S fuel' =>
      q ← get_pipe p;
      if pipe_empty q && negb (pp_writeopen q =? 0) then
        k ← curkilled;
        if (k : bool) then mret false else
        sleep (Some (Chan_pipe_nread p)) (Some (L_pipe p));;
        piperead_wait fuel' p
      else mret true
  end.

(** Returns the count and the bytes stored to [addr]. *)
Definition piperead_finish (p : nat) (n : Z) (ready : bool) : M (Z * list Z) :=
  if ready then
    addr ← piperead_copy (S (Z.to_nat n)) p [] n;
    wakeup (Some (Chan_pipe_nwrite p));;
    release (L_pipe p);;
    mret (Z.of_nat (length addr), addr)
  else
    release (L_pipe p);;
    mret (-1, []).

Definition piperead (fuel : nat) (p : nat) (n : Z) : M (Z * list Z) :=
  acquire (L_pipe p);;
  ready ← piperead_wait fuel p;
  piperead_finish p n ready.

End pipe_ops.

Section pipe_close.
Context {Xm Xf : Type} `{!MemOps Xm Xf} `{!HasPipes Xf}.
Notation M := (K (kstate (Xm * Xf))).

Definition free_pipe (p : nat) : M unit :=
  kmodify (λ s, set_k_ext (x_set_pipes (delete p (x_pipes (k_ext s))) (k_ext s)) s).

(** [kfree((char* )p)] gives the page back: the pipe is gone. *)
Definition pipeclose (p : nat) (writable : bool) : M unit :=
  acquire (L_pipe p);;
  q ← get_pipe p;
  set_pipe p (pipe_close_end writable q);;
  wakeup (Some (if writable then Chan_pipe_nread p else Chan_pipe_nwrite p));;
  q ← get_pipe p;
  if (pp_readopen q =? 0) && (pp_writeopen q =? 0) then
    release (L_pipe p);;
    free_pipe p;;
    e_kfree (Z.of_nat p)
  else release (L_pipe p).

End pipe_close.

(** ** The bytes of a pipe *)

(** Unread bytes: [nwrite - nread] in 32-bit arithmetic. *)
Definition pipe_count (q : pipe) : Z := u32 (pp_nwrite q - pp_nread q).

Definition pipe_queue (q : pipe) : list Z :=
  map (λ j, pp_data q !!! Z.to_nat ((pp_nread q + Z.of_nat j) mod PIPESIZE)) (seq 0 (Z.to_nat (pipe_count q))).

Record pipe_wf (q : pipe) : Prop := PipeWf {
  pw_data : length (pp_data q) = Z.to_nat PIPESIZE;
  pw_nread : 0 ≤ pp_nread q < 2 ^ 32;
  pw_nwrite : 0 ≤ pp_nwrite q < 2 ^ 32;
  pw_count : pipe_count q ≤ PIPESIZE
}.

Lemma pipe_count_range q : 0 ≤ pipe_count q < 2 ^ 32.
Proof. apply u32_range. Qed.

Lemma length_pipe_queue q : Z.of_nat (length (pipe_queue q)) = pipe_count q.
Proof. unfold pipe_queue. rewrite length_map, length_seq. pose proof (pipe_count_range q). lia. Qed.

Lemma pipe_full_spec q : pipe_wf q → pipe_full q = (Z.of_nat (length (pipe_queue q)) =? PIPESIZE).
Proof.
  intros [_ Hr Hw _]. rewrite length_pipe_queue. unfold pipe_full, pipe_count, PIPESIZE. apply eq_true_iff_eq.
  rewrite !Z.eqb_eq. unfold u32. split; intros H; [rewrite H|].
  - rewrite Zminus_mod_idemp_l. replace (pp_nread q + 512 - pp_nread q) with 512 by lia. done.
  - rewrite <- H, Zplus_mod_idemp_r, Zplus_minus. by rewrite Z.mod_small.
Qed.

Lemma pipe_empty_spec q : pipe_wf q → pipe_empty q = bool_decide (pipe_queue q = []).
Proof.
  intros [_ Hr Hw _]. apply eq_true_iff_eq. rewrite bool_decide_eq_true, <- length_zero_iff_nil.
  pose proof (length_pipe_queue q) as Hl. unfold pipe_empty, pipe_count in *. rewrite Z.eqb_eq. split.
  - intros E. rewrite E, Z.sub_diag in Hl. unfold u32 in Hl. rewrite Z.mod_0_l in Hl by lia. lia.
  - intros E. rewrite E in Hl. symmetry in Hl. apply u32_sub_same_l in Hl; [|lia].
    rewrite Z.add_0_r, !u32_small in Hl by done. done.
Qed.

Lemma pipe_push_count q b : pipe_wf q → pipe_full q = false → pipe_count (pipe_push b q) = pipe_count q + 1.
Proof.
  intros Hq Hf. rewrite pipe_full_spec, length_pipe_queue in Hf by done. apply Z.eqb_neq in Hf.
  pose proof (pw_count _ Hq). pose proof (pipe_count_range q). unfold pipe_count in *. simpl.
  rewrite u32_sub_l. replace (pp_nwrite q + 1 - pp_nread q) with (pp_nwrite q - pp_nread q + 1) by lia.
  rewrite <- u32_add_l. apply u32_small. unfold PIPESIZE in *. lia.
Qed.

Lemma pipe_pop_count q : pipe_empty q = false → pipe_wf q → pipe_count (pipe_pop q) = pipe_count q - 1.
Proof.
  intros Hf Hq. rewrite pipe_empty_spec in Hf by done. apply bool_decide_eq_false in Hf.
  assert (0 < pipe_count q) as Hpos.
  { rewrite <- length_pipe_queue. destruct (pipe_queue q); [done|]. simpl. lia. }
  pose proof (pipe_count_range q). unfold pipe_count in *. simpl.
  rewrite u32_sub_r. replace (pp_nwrite q - (pp_nread q + 1)) with (pp_nwrite q - pp_nread q - 1) by lia.
  rewrite <- u32_sub_l. apply u32_small. lia.
Qed.

Lemma mod_window a b i : 0 ≤ i < PIPESIZE → a = u32 (b + i) → a mod PIPESIZE = (b + i) mod PIPESIZE.
Proof. intros Hi ->. unfold PIPESIZE. change 512 with (2 ^ 9). by rewrite u32_mod_pow2 by lia. Qed.

Lemma pipe_nwrite q : pipe_wf q → pp_nwrite q = u32 (pp_nread q + pipe_count q).
Proof.
  intros Hq. destruct Hq as [_ Hr Hw _]. unfold pipe_count. rewrite u32_add_r, Zplus_minus. by rewrite u32_small.
Qed.

Lemma mod_window_ne a i j : 0 ≤ i < PIPESIZE → 0 ≤ j < PIPESIZE → i ≠ j → (a + i) mod PIPESIZE ≠ (a + j) mod PIPESIZE.
Proof.
  unfold PIPESIZE. intros Hi Hj Hne E. apply Hne.
  assert (((a + i) - (a + j)) mod 512 = 0) as H0 by (rewrite Zminus_mod, E, Z.sub_diag; done).
  replace (a + i - (a + j)) with (i - j) in H0 by lia.
  apply Z.mod_divide in H0 as [k Hk]; [|done]. lia.
Qed.

Lemma mod_PIPESIZE a : 0 ≤ a mod PIPESIZE < PIPESIZE.
Proof. by apply Z.mod_pos_bound. Qed.

(** A stored byte is the last of the queue. *)
Lemma pipe_queue_push q b :
  pipe_wf q → pipe_full q = false → pipe_wf (pipe_push b q) ∧ pipe_queue (pipe_push b q) = pipe_queue q ++ [b].
Proof.
  intros Hq Hf. pose proof (pipe_push_count q b Hq Hf) as Hc. pose proof (pipe_nwrite q Hq) as Hw.
  pose proof (pipe_count_range q) as Hr. assert (pipe_count q < PIPESIZE) as Hlt.
  { rewrite pipe_full_spec, length_pipe_queue in Hf by done. apply Z.eqb_neq in Hf. pose proof (pw_count _ Hq). lia. }
  destruct Hq as [Hd Hnr Hnw Hle]. split.
  { split; [by simpl; rewrite length_insert|done|simpl; apply u32_range|lia]. }
  unfold pipe_queue. rewrite Hc. replace (Z.to_nat (pipe_count q + 1)) with (Z.to_nat (pipe_count q) + 1)%nat by lia.
  rewrite seq_app, map_app. f_equal.
  - apply map_ext_in. intros j Hj%in_seq. simpl. apply list_lookup_total_insert_ne.
    rewrite (mod_window _ _ _ (conj (proj1 Hr) Hlt) Hw). intros E.
    apply (mod_window_ne (pp_nread q) (pipe_count q) (Z.of_nat j)); [lia|lia|lia|].
    pose proof (mod_PIPESIZE (pp_nread q + pipe_count q)). pose proof (mod_PIPESIZE (pp_nread q + Z.of_nat j)). lia.
  - simpl. f_equal. rewrite (mod_window _ _ _ (conj (proj1 Hr) Hlt) Hw).
    rewrite Z2Nat.id by lia. apply list_lookup_total_insert_eq. rewrite Hd.
    pose proof (mod_PIPESIZE (pp_nread q + pipe_count q)). lia.
Qed.

(** The byte fetched is the first of the queue. *)
Lemma pipe_queue_pop q :
  pipe_wf q → pipe_empty q = false →
  ∃ b, pipe_head q = Some b ∧ pipe_queue q = b :: pipe_queue (pipe_pop q) ∧ pipe_wf (pipe_pop q).
Proof.
  intros Hq Hf. pose proof (pipe_pop_count q Hf Hq) as Hc. pose proof (pipe_count_range q).
  pose proof (pipe_count_range (pipe_pop q)).
  destruct Hq as [Hd Hnr Hnw Hle]. pose proof (mod_PIPESIZE (pp_nread q)) as Hm.
  destruct (lookup_lt_is_Some_2 (pp_data q) (Z.to_nat (pp_nread q mod PIPESIZE))) as [b Hb]; [lia|].
  exists b. split; [done|]. split.
  - unfold pipe_queue. rewrite Hc. replace (Z.to_nat (pipe_count q)) with (S (Z.to_nat (pipe_count q - 1))) by lia.
    simpl. rewrite Z.add_0_r, (list_lookup_total_correct _ _ _ Hb). f_equal.
    rewrite <- seq_shift, map_map. apply map_ext. intros j. do 2 f_equal.
    cbn [pipe_pop pp_nread]. unfold PIPESIZE. change 512 with (2 ^ 9).
    rewrite <- (Zplus_mod_idemp_l (u32 _)), u32_mod_pow2, Zplus_mod_idemp_l by lia. f_equal. lia.
  - split; [done|apply u32_range|done|lia].
Qed.

(** Pipes with the same bytes and ends. *)
Definition pipe_open (q : pipe) : Z * Z := (pp_readopen q, pp_writeopen q).

(** ** Running the loops *)

Section pipe_lemmas.
Context {X : Type} `{!HasPipes X}.
Implicit Types (s : kstate X).

(** The state with pipe [p] replaced. *)
Definition with_pipe (p : nat) (q : pipe) (s : kstate X) : kstate X :=
  set_k_ext (x_set_pipes (<[p := q]> (x_pipes (k_ext s))) (k_ext s)) s.

Definition the_pipe (p : nat) (s : kstate X) : option pipe := x_pipes (k_ext s) !! p.

Lemma with_pipe_with p q q' s : with_pipe p q (with_pipe p q' s) = with_pipe p q s.
Proof. unfold with_pipe. ksimpl. by rewrite x_set_pipes_set, x_pipes_set, insert_insert_eq. Qed.

Lemma with_pipe_id p q s : the_pipe p s = Some q → with_pipe p q s = s.
Proof. intros H. unfold with_pipe. rewrite insert_id, x_set_pipes_id by done. apply set_ext_id. Qed.

Lemma the_with_pipe p q s : the_pipe p (with_pipe p q s) = Some q.
Proof. unfold the_pipe, with_pipe. kproj. by rewrite x_pipes_set, lookup_insert_eq. Qed.

Lemma bind_get_pipe {B} p q (k : pipe → K (kstate X) B) s :
  the_pipe p s = Some q → (get_pipe p ≫= k) s = k q s.
Proof. intros H. apply bind_ok. unfold get_pipe, kget, mbind, K_bind. simpl. unfold the_pipe in H. by rewrite H. Qed.

Lemma bind_set_pipe {B} p q (k : unit → K (kstate X) B) s :
  (set_pipe p q ≫= k) s = k tt (with_pipe p q s).
Proof. apply bind_kmodify. Qed.

Lemma curkilled_ok l s i c cur pr :
  inside l s i c cur → k_ptable s !! cur = Some pr → curkilled s = Ok (negb (p_killed pr =? 0)) s.
Proof.
  intros Hin Hp. unfold curkilled. erewrite bind_ok; [|unfold curproc; by rewrite (bind_ok _ _ _ _ _ (inside_myproc _ _ _ _ _ Hin))].
  by rewrite (bind_ok _ _ _ _ _ (get_proc_ok s cur pr Hp)).
Qed.

(** Storing [bs], as long as there is room. *)
Lemma pipewrite_store p addr n : ∀ bs fuel i s q,
  0 ≤ i → i + Z.of_nat (length bs) ≤ n → take (length bs) (drop (Z.to_nat i) addr) = bs →
  the_pipe p s = Some q → pipe_wf q → (length (pipe_queue q) + length bs ≤ Z.to_nat PIPESIZE)%nat →
  ∃ q', pipewrite_loop (length bs + fuel) p addr n i s
      = pipewrite_loop fuel p addr n (i + Z.of_nat (length bs)) (with_pipe p q' s)
    ∧ pipe_wf q' ∧ pipe_queue q' = pipe_queue q ++ bs ∧ pipe_open q' = pipe_open q.
Proof.
  induction bs as [|b bs IH]; intros fuel i s q Hi Hn Hbs Hq Hwf Hroom.
  { exists q. rewrite Z.add_0_r, app_nil_r, with_pipe_id by done. done. }
  simpl in Hbs, Hn, Hroom. cbn [length Nat.add pipewrite_loop].
  destruct (drop (Z.to_nat i) addr) as [|b' rest] eqn:Hdrop; [done|]. injection Hbs as -> Hbs.
  assert (addr !! Z.to_nat i = Some b) as Hb.
  { replace (Z.to_nat i) with (Z.to_nat i + 0)%nat by lia. by rewrite <- lookup_drop, Hdrop. }
  destruct (Z.ltb_spec i n); [|lia]. rewrite (bind_get_pipe p q) by done.
  assert (pipe_full q = false) as Hf.
  { rewrite pipe_full_spec by done. apply Z.eqb_neq. unfold PIPESIZE in *. lia. }
  rewrite Hf, Hb, bind_set_pipe. destruct (pipe_queue_push q b Hwf Hf) as [Hwf' Hq'].
  destruct (IH fuel (i + 1) (with_pipe p (pipe_push b q) s) (pipe_push b q)) as (q2 & Hrun & Hwf2 & Hq2 & Ho).
  - lia.
  - lia.
  - replace (Z.to_nat (i + 1)) with (Z.to_nat i + 1)%nat by lia. rewrite <- drop_drop, Hdrop. done.
  - apply the_with_pipe.
  - done.
  - rewrite Hq', length_app. simpl. lia.
  - exists q2. rewrite with_pipe_with in Hrun. rewrite Hrun, Hq2, Hq', <- app_assoc. split; [f_equal; simpl; lia|].
    by rewrite Ho.
Qed.

(** Fetching until [n] bytes are there or the queue is empty. *)
Lemma piperead_fetch p n : ∀ fuel addr s q,
  (n < Z.of_nat fuel + Z.of_nat (length addr)) → (0 < fuel)%nat →
  the_pipe p s = Some q → pipe_wf q →
  ∃ q', let k := (Z.to_nat n - length addr)%nat in
      piperead_copy fuel p addr n s = Ok (addr ++ take k (pipe_queue q)) (with_pipe p q' s)
    ∧ pipe_wf q' ∧ pipe_queue q' = drop k (pipe_queue q) ∧ pipe_open q' = pipe_open q.
Proof.
  induction fuel as [|fuel IH]; intros addr s q Hfuel Hpos Hq Hwf; [lia|]. simpl. cbn [piperead_copy].
  destruct (Z.ltb_spec (Z.of_nat (length addr)) n) as [Hlt|Hge].
  2:{ exists q. replace (Z.to_nat n - length addr)%nat with 0%nat by lia. by rewrite app_nil_r, with_pipe_id. }
  rewrite (bind_get_pipe p q) by done. destruct (pipe_empty q) eqn:He.
  { exists q. pose proof He as He'. rewrite pipe_empty_spec in He' by done. bool_to_prop.
    by rewrite He', take_nil, drop_nil, app_nil_r, with_pipe_id. }
  destruct (pipe_queue_pop q Hwf He) as (b & Hb & Hq1 & Hwf1). rewrite Hb, bind_set_pipe.
  destruct (IH (addr ++ [b]) (with_pipe p (pipe_pop q) s) (pipe_pop q)) as (q2 & Hrun & Hwf2 & Hq2 & Ho).
  - rewrite length_app. simpl. lia.
  - lia.
  - apply the_with_pipe.
  - done.
  - exists q2. rewrite with_pipe_with in Hrun. rewrite Hrun, Hq2, Hq1. rewrite length_app. simpl.
    replace (Z.to_nat n - length addr)%nat with (S (Z.to_nat n - (length addr + 1))) by lia. simpl.
    by rewrite <- app_assoc.
Qed.

(** A full pipe: the writer gives up, or wakes the readers and goes to sleep,
    to go on in its loop when it runs again. *)
Lemma pipewrite_blocked p addr n idx fuel s i c cur pr q :
  inside (L_pipe p) s i c cur → locks (k_mach s) !! L_ptable = None → length (k_ptable s) = NPROC →
  k_ptable s !! cur = Some pr → the_pipe p s = Some q → pipe_full q = true → idx < n →
  if (pp_readopen q =? 0) || negb (p_killed pr =? 0) then
    pipewrite_loop (S fuel) p addr n idx s = Ok (-1) (set_k_mach (left_lock (L_pipe p) i c (k_mach s)) s)
  else ∃ k pr', pipewrite_loop (S fuel) p addr n idx s
      = Wait (set_k_mach (swap_lock (L_pipe p) i (k_mach s))
          (set_k_ptable (<[cur := set_p_state SLEEPING (set_p_chan (Some (Chan_pipe_nwrite p)) pr')]>
             (map (wake (Some (Chan_pipe_nread p))) (k_ptable s))) s)) k
    ∧ pr' = wake (Some (Chan_pipe_nread p)) pr
    ∧ ∀ s2 i2 c2, inside L_ptable s2 i2 c2 cur → locks (k_mach s2) !! L_pipe p = None →
        ∃ m3 c3, k s2 = pipewrite_loop fuel p addr n idx
            (set_k_mach m3 (set_k_ptable (alter (set_p_chan None) cur (k_ptable s2)) s2))
          ∧ inside (L_pipe p) (set_k_mach m3 s2) i2 c3 cur ∧ locks m3 !! L_ptable = None.
Proof.
  intros Hin Hpt Hlen Hp Hq Hf Hlt. cbn [pipewrite_loop]. destruct (Z.ltb_spec idx n); [|lia].
  rewrite (bind_get_pipe p q), Hf by done.
  rewrite (bind_ok _ _ _ ((pp_readopen q =? 0) || negb (p_killed pr =? 0)) s)
    by (destruct (pp_readopen q =? 0); [done|by eapply curkilled_ok]).
  destruct (_ || _); [by rewrite (bind_ok _ _ _ _ _ (release_inside _ _ _ _ _ Hin))|].
  rewrite (bind_ok _ _ _ _ _ (wakeup_inside _ (Some (Chan_pipe_nread p)) s i c cur Hin Hpt Hlen)).
  set (s1 := set_k_ptable _ s).
  assert (k_ptable s1 !! cur = Some (wake (Some (Chan_pipe_nread p)) pr)) as Hp1.
  { unfold s1. kproj. change (map ?f ?t) with (f <$> t). by rewrite list_lookup_fmap, Hp. }
  destruct (sleep_waits (L_pipe p) (Chan_pipe_nwrite p) s1 i c cur _ ltac:(by eapply inside_mach) ltac:(done)
    ltac:(done) Hp1) as (k & Hs & Hk).
  eexists _, _. split; [rewrite (bind_wait _ _ _ _ _ Hs); unfold s1; kproj; by autorewrite with kst|]. split; [done|].
  intros s2 i2 c2 Hin2 Hl2. destruct (Hk s2 i2 c2 Hin2 Hl2) as (m3 & c3 & Hrun & Hin3 & Hf3).
  exists m3, c3. by rewrite Hrun.
Qed.

(** The last part of the loop. *)
Lemma pipewrite_done p addr n fuel s i c cur :
  inside (L_pipe p) s i c cur → locks (k_mach s) !! L_ptable = None → length (k_ptable s) = NPROC →
  pipewrite_loop (S fuel) p addr n n s
  = Ok n (set_k_mach (left_lock (L_pipe p) i c (k_mach s))
      (set_k_ptable (map (wake (Some (Chan_pipe_nread p))) (k_ptable s)) s)).
Proof.
  intros Hin Hpt Hlen. cbn [pipewrite_loop]. rewrite Z.ltb_irrefl.
  rewrite (bind_ok _ _ _ _ _ (wakeup_inside _ _ s i c cur Hin Hpt Hlen)).
  erewrite bind_ok; [|eapply release_inside; by eapply inside_mach]. done.
Qed.

End pipe_lemmas.

Section pipe_segments.
Context {X : Type} `{!HasPipes X}.
Implicit Types (s : kstate X).

(** What the executing process finds in a critical section of pipe [p]. *)
Record at_pipe (p : nat) (s : kstate X) (i : nat) (c : cpu) (cur : nat) (pr : proc) (q : pipe) : Prop := AtPipe {
  ap_inside : inside (L_pipe p) s i c cur;
  ap_free : locks (k_mach s) !! L_ptable = None;
  ap_len : length (k_ptable s) = NPROC;
  ap_proc : k_ptable s !! cur = Some pr;
  ap_pipe : the_pipe p s = Some q;
  ap_wf : pipe_wf q
}.

(** The states in which the three ways to leave a critical section of the pipe
    end: returning, with the sleepers of [ch] woken; giving up; and going to
    sleep on [ch'], the sleepers of [ch] woken before. *)
Definition leave_waking (p : nat) (ch : channel) (i : nat) (c : cpu) (s : kstate X) : kstate X :=
  set_k_mach (left_lock (L_pipe p) i c (k_mach s)) (set_k_ptable (map (wake (Some ch)) (k_ptable s)) s).

Definition leave_quiet (p : nat) (i : nat) (c : cpu) (s : kstate X) : kstate X :=
  set_k_mach (left_lock (L_pipe p) i c (k_mach s)) s.

Definition asleep_on (p : nat) (ch : channel) (i cur : nat) (pr : proc) (tab : list proc) (s : kstate X) : kstate X :=
  set_k_mach (swap_lock (L_pipe p) i (k_mach s))
    (set_k_ptable (<[cur := set_p_state SLEEPING (set_p_chan (Some ch) pr)]> tab) s).

(** [k] resumes as [m], inside the critical section of the pipe again, on
    whatever CPU the scheduler chose and whatever happened to the pipe. *)
Definition resumes {A} (p cur : nat) (k : kstate X → res (kstate X) A) (m : K (kstate X) A) : Prop :=
  ∀ s2 i2 c2, inside L_ptable s2 i2 c2 cur → locks (k_mach s2) !! L_pipe p = None →
    ∃ m3 c3, k s2 = m (set_k_mach m3 (set_k_ptable (alter (set_p_chan None) cur (k_ptable s2)) s2))
      ∧ inside (L_pipe p) (set_k_mach m3 s2) i2 c3 cur ∧ locks m3 !! L_ptable = None.

Lemma inside_with_pipe l p q s i c cur : inside l s i c cur → inside l (with_pipe p q s) i c cur.
Proof. intros H. by eapply inside_mach. Qed.

(** One critical section of [pipewrite], from index [idx] on. *)
Lemma pipewrite_segment p addr n idx fuel s i c cur pr q :
  at_pipe p s i c cur pr q → 0 ≤ idx ≤ n → (Z.to_nat n ≤ length addr)%nat → (Z.to_nat (n - idx) < fuel)%nat →
  ∃ q', let bs := take (Z.to_nat (n - idx)) (drop (Z.to_nat idx) addr) in
    let room := (Z.to_nat PIPESIZE - length (pipe_queue q))%nat in
    pipe_wf q' ∧ pipe_open q' = pipe_open q ∧ pipe_queue q' = pipe_queue q ++ take room bs
    ∧ if (length bs <=? room)%nat then
        pipewrite_loop fuel p addr n idx s = Ok n (leave_waking p (Chan_pipe_nread p) i c (with_pipe p q' s))
      else if (pp_readopen q =? 0) || negb (p_killed pr =? 0) then
        pipewrite_loop fuel p addr n idx s = Ok (-1) (leave_quiet p i c (with_pipe p q' s))
      else ∃ k, pipewrite_loop fuel p addr n idx s
          = Wait (asleep_on p (Chan_pipe_nwrite p) i cur (wake (Some (Chan_pipe_nread p)) pr)
                   (map (wake (Some (Chan_pipe_nread p))) (k_ptable s)) (with_pipe p q' s)) k
        ∧ resumes p cur k (pipewrite_loop (fuel - room - 1) p addr n (idx + Z.of_nat room)).
Proof.
  intros [Hin Hpt Hlen Hp Hq Hwf] Hidx Haddr Hfuel. cbv zeta.
  set (bs := take (Z.to_nat (n - idx)) (drop (Z.to_nat idx) addr)).
  set (room := (Z.to_nat PIPESIZE - length (pipe_queue q))%nat).
  assert (length bs = Z.to_nat (n - idx)) as Hbs by (unfold bs; rewrite length_take, length_drop; lia).
  assert (length (pipe_queue q) ≤ Z.to_nat PIPESIZE)%nat as Hqlen.
  { pose proof (pw_count _ Hwf). rewrite <- length_pipe_queue in *. lia. }
  assert (length (take room bs) = min room (length bs)) as Htk by apply length_take.
  destruct (pipewrite_store p addr n (take room bs) (fuel - min room (length bs)) idx s q) as (q' & Hrun & Hwf' & Hq' & Ho).
  1: lia. 1: lia. 2, 3: done. 2: lia.
  { unfold bs at 2. rewrite Htk, Hbs. unfold bs. by rewrite take_take. }
  rewrite Htk in Hrun. replace (min room (length bs) + (fuel - min room (length bs)))%nat with fuel in Hrun by lia.
  exists q'. rewrite Hrun. split; [done|]. split; [done|]. split; [done|].
  pose proof (inside_with_pipe _ p q' _ _ _ _ Hin) as Hin'.
  destruct (Nat.leb_spec (length bs) room) as [Hle|Hgt].
  - replace (idx + Z.of_nat (min room (length bs))) with n by lia.
    replace (fuel - min room (length bs))%nat with (S (fuel - length bs - 1)) by lia.
    by eapply pipewrite_done.
  - rewrite (Nat.min_l room (length bs)) by lia. replace (fuel - room)%nat with (S (fuel - room - 1)) by lia.
    replace (S (fuel - room - 1) - 1)%nat with (fuel - room - 1)%nat by lia.
    pose proof (pipewrite_blocked p addr n (idx + Z.of_nat room) (fuel - room - 1) (with_pipe p q' s) i c cur pr q'
      Hin' Hpt Hlen Hp (the_with_pipe _ _ _)) as Hb.
    injection Ho as Ho1 Ho2. rewrite Ho1 in Hb. destruct (_ || _).
    + apply Hb; [|lia]. rewrite pipe_full_spec, Hq', length_app, Htk by done. apply Z.eqb_eq. unfold PIPESIZE in *. lia.
    + destruct Hb as (k & pr' & Hb & -> & Hk); [|lia|exists k; split; [exact Hb|exact Hk]].
      rewrite pipe_full_spec, Hq', length_app, Htk by done. apply Z.eqb_eq. unfold PIPESIZE in *. lia.
Qed.

(** One critical section of [piperead]. *)
Lemma piperead_segment p n fuel s i c cur pr q :
  at_pipe p s i c cur pr q →
  if bool_decide (pipe_queue q = []) && negb (pp_writeopen q =? 0) then
    if negb (p_killed pr =? 0) then
      (piperead_wait (S fuel) p ≫= piperead_finish p n) s = Ok (-1, []) (leave_quiet p i c s)
    else ∃ k, (piperead_wait (S fuel) p ≫= piperead_finish p n) s
        = Wait (asleep_on p (Chan_pipe_nread p) i cur pr (k_ptable s) s) k
      ∧ resumes p cur k (piperead_wait fuel p ≫= piperead_finish p n)
  else ∃ q', let bs := take (Z.to_nat n) (pipe_queue q) in
    pipe_wf q' ∧ pipe_open q' = pipe_open q ∧ pipe_queue q' = drop (Z.to_nat n) (pipe_queue q)
    ∧ (piperead_wait (S fuel) p ≫= piperead_finish p n) s
      = Ok (Z.of_nat (length bs), bs) (leave_waking p (Chan_pipe_nwrite p) i c (with_pipe p q' s)).
Proof.
  intros [Hin Hpt Hlen Hp Hq Hwf]. rewrite <- pipe_empty_spec by done.
  destruct (pipe_empty q && negb (pp_writeopen q =? 0)) eqn:He.
  - destruct (negb (p_killed pr =? 0)) eqn:Hk.
    + rewrite (bind_ok _ _ s false s).
      2:{ cbn [piperead_wait]. rewrite (bind_get_pipe p q), He by done.
          by rewrite (bind_ok _ _ _ _ _ (curkilled_ok _ _ _ _ _ _ Hin Hp)), Hk. }
      unfold piperead_finish. by rewrite (bind_ok _ _ _ _ _ (release_inside _ _ _ _ _ Hin)).
    + destruct (sleep_waits (L_pipe p) (Chan_pipe_nread p) s i c cur pr Hin ltac:(done) Hpt Hp) as (k & Hs & Hr).
      eexists. split.
      { erewrite bind_wait; [reflexivity|]. cbn [piperead_wait]. rewrite (bind_get_pipe p q), He by done.
        rewrite (bind_ok _ _ _ _ _ (curkilled_ok _ _ _ _ _ _ Hin Hp)), Hk.
        rewrite (bind_wait _ _ _ _ _ Hs). reflexivity. }
      intros s2 i2 c2 Hin2 Hl2. destruct (Hr s2 i2 c2 Hin2 Hl2) as (m3 & c3 & Hrun & H3). exists m3, c3.
      cbv beta. by rewrite Hrun.
  - rewrite (bind_ok _ _ s true s) by (cbn [piperead_wait]; by rewrite (bind_get_pipe p q), He).
    unfold piperead_finish. destruct (piperead_fetch p n (S (Z.to_nat n)) [] s q) as (q' & Hrun & Hwf' & Hq' & Ho);
      [simpl; lia|lia|done|done|]. cbn [length] in Hrun, Hq'. rewrite Nat.sub_0_r in Hrun, Hq'.
    exists q'. split; [done|]. split; [done|]. split; [done|]. rewrite (bind_ok _ _ _ _ _ Hrun).
    pose proof (inside_with_pipe _ p q' _ _ _ _ Hin) as Hin'.
    rewrite (bind_ok _ _ _ _ _ (wakeup_inside _ (Some (Chan_pipe_nwrite p)) _ i c cur Hin' Hpt Hlen)).
    erewrite bind_ok; [|eapply release_inside; by eapply inside_mach]. done.
Qed.

End pipe_segments.

(** ** Nobody sleeps on a pipe that has work *)

Section pipe_sleepers.
Context {X : Type} `{!HasPipes X}.
Implicit Types (s : kstate X).

(** A process asleep on the pipe has a reason: a reader finds no byte and an
    open write end, a writer finds no room and an open read end. *)
Definition has_reason (p : nat) (q : pipe) (pr : proc) : Prop :=
  p_state pr = SLEEPING →
  (p_chan pr = Some (Chan_pipe_nread p) → pipe_queue q = [] ∧ pp_writeopen q ≠ 0)
  ∧ (p_chan pr = Some (Chan_pipe_nwrite p) →
       length (pipe_queue q) = Z.to_nat PIPESIZE ∧ pp_readopen q ≠ 0).

Definition sleepers_ok (p : nat) (s : kstate X) : Prop :=
  ∀ q, the_pipe p s = Some q → Forall (has_reason p q) (k_ptable s).

(** After a [wakeup] nobody sleeps on the channel. *)
Lemma wake_no_sleeper ch pr : p_state (wake (Some ch) pr) = SLEEPING → p_chan (wake (Some ch) pr) ≠ Some ch.
Proof.
  unfold wake. destruct (bool_decide (p_state pr = SLEEPING)) eqn:E1; simpl; [|bool_to_prop; done].
  destruct (bool_decide (p_chan pr = Some ch)) eqn:E2; simpl; [done|]. by bool_to_prop.
Qed.

Lemma wake_sleeping ch pr : p_state (wake (Some ch) pr) = SLEEPING → wake (Some ch) pr = pr.
Proof. unfold wake. by destruct (_ && _). Qed.

Lemma chan_wake ch pr : p_chan (wake ch pr) = p_chan pr.
Proof. unfold wake. by destruct (_ && _). Qed.

(** Waking the readers is enough after bytes went in, waking the writers after
    bytes went out. *)
Lemma reason_readers_woken p q q' pr :
  has_reason p q pr → (length (pipe_queue q) = Z.to_nat PIPESIZE → length (pipe_queue q') = Z.to_nat PIPESIZE) →
  pp_readopen q' = pp_readopen q → has_reason p q' (wake (Some (Chan_pipe_nread p)) pr).
Proof.
  intros Hr Hq Ho Hs. split; intros Hc; [by apply wake_no_sleeper in Hs|].
  rewrite wake_sleeping in Hc by done. rewrite wake_sleeping in Hs by done. rewrite Ho. destruct (Hr Hs) as [_ H]. destruct (H Hc). auto.
Qed.

Lemma reason_writers_woken p q q' pr :
  has_reason p q pr → (pipe_queue q = [] → pipe_queue q' = []) →
  pp_writeopen q' = pp_writeopen q → has_reason p q' (wake (Some (Chan_pipe_nwrite p)) pr).
Proof.
  intros Hr Hq Ho Hs. split; intros Hc; [|by apply wake_no_sleeper in Hs].
  rewrite wake_sleeping in Hc by done. rewrite wake_sleeping in Hs by done. rewrite Ho. destruct (Hr Hs) as [H _]. destruct (H Hc). auto.
Qed.

Lemma sleepers_leave_waking p ch i c q s :
  Forall (has_reason p q) (map (wake (Some ch)) (k_ptable s)) →
  sleepers_ok p (leave_waking p ch i c (with_pipe p q s)).
Proof. intros H q1 Hq1. change (the_pipe p _) with (the_pipe p (with_pipe p q s)) in Hq1. rewrite the_with_pipe in Hq1. by simplify_eq. Qed.

Lemma sleepers_asleep p ch i cur pr tab q s :
  Forall (has_reason p q) tab → has_reason p q (set_p_state SLEEPING (set_p_chan (Some ch) pr)) →
  sleepers_ok p (asleep_on p ch i cur pr tab (with_pipe p q s)).
Proof.
  intros H Hr q1 Hq1. change (the_pipe p _) with (the_pipe p (with_pipe p q s)) in Hq1. rewrite the_with_pipe in Hq1.
  simplify_eq. unfold asleep_on. kproj. by apply Forall_insert.
Qed.

Lemma Forall_wake (P Q : proc → Prop) ch tab :
  Forall P tab → (∀ pr, P pr → Q (wake ch pr)) → Forall Q (map (wake ch) tab).
Proof. intros H HPQ. apply Forall_map. induction H; constructor; auto. Qed.

End pipe_sleepers.

(** ** Properties *)

(** C14: A pipe is a bounded FIFO queue, also when its 32-bit counters wrap.
    Holding the lock, a writer appends its bytes as long as there is room; when
    all fit it wakes the readers and returns [n]; otherwise, with the pipe full,
    it returns -1 if the read end is closed or it was killed, and else wakes the
    readers and sleeps, to go on with the next byte when it runs again.  A reader
    takes up to [n] bytes from the front, wakes the writers and returns them; on
    an empty pipe it returns 0 bytes when the write end is closed, -1 when it was
    killed, and else sleeps and tries again. *)
Theorem pipe_fifo {X : Type} `{!HasPipes X} (p : nat) (s : kstate X) i c cur pr q :
  at_pipe p s i c cur pr q →
  (∀ addr n idx fuel, 0 ≤ idx ≤ n → (Z.to_nat n ≤ length addr)%nat → (Z.to_nat (n - idx) < fuel)%nat →
    let bs := take (Z.to_nat (n - idx)) (drop (Z.to_nat idx) addr) in
    let room := (Z.to_nat PIPESIZE - length (pipe_queue q))%nat in
    ∃ q', pipe_wf q' ∧ pipe_open q' = pipe_open q ∧ pipe_queue q' = pipe_queue q ++ take room bs
    ∧ if (length bs <=? room)%nat then
        pipewrite_loop fuel p addr n idx s = Ok n (leave_waking p (Chan_pipe_nread p) i c (with_pipe p q' s))
      else if (pp_readopen q =? 0) || negb (p_killed pr =? 0) then
        pipewrite_loop fuel p addr n idx s = Ok (-1) (leave_quiet p i c (with_pipe p q' s))
      else ∃ k, pipewrite_loop fuel p addr n idx s
          = Wait (asleep_on p (Chan_pipe_nwrite p) i cur (wake (Some (Chan_pipe_nread p)) pr)
                   (map (wake (Some (Chan_pipe_nread p))) (k_ptable s)) (with_pipe p q' s)) k
        ∧ resumes p cur k (pipewrite_loop (fuel - room - 1) p addr n (idx + Z.of_nat room)))
  ∧ (∀ n fuel, let bs := take (Z.to_nat n) (pipe_queue q) in
    let run fuel := piperead_wait fuel p ≫= piperead_finish p n in
    if bool_decide (pipe_queue q = []) && negb (pp_writeopen q =? 0) then
      if negb (p_killed pr =? 0) then run (S fuel) s = Ok (-1, []) (leave_quiet p i c s)
      else ∃ k, run (S fuel) s = Wait (asleep_on p (Chan_pipe_nread p) i cur pr (k_ptable s) s) k
        ∧ resumes p cur k (run fuel)
    else ∃ q', pipe_wf q' ∧ pipe_open q' = pipe_open q ∧ pipe_queue q' = drop (Z.to_nat n) (pipe_queue q)
      ∧ run (S fuel) s = Ok (Z.of_nat (length bs), bs) (leave_waking p (Chan_pipe_nwrite p) i c (with_pipe p q' s))).
Proof.
  intros H. split.
  - intros addr n idx fuel H1 H2 H3. cbv zeta. by apply pipewrite_segment.
  - intros n fuel. cbv zeta. by apply piperead_segment.
Qed.

(** A CPU inside the critical section of pipe 3, running process 0; process 1 is
    a reader asleep on the pipe, whose counters are about to wrap. *)
Definition sample_pipe : pipe := Pipe (replicate 512 0) (2 ^ 32 - 2) (2 ^ 32 - 2) 1 1.

Definition sample_reader : proc :=
  set_p_chan (Some (Chan_pipe_nread 3)) (sample_proc SLEEPING 9 None).

Definition sample_at_pipe (pr : proc) : kstate (gmap nat pipe) :=
  Kstate (Machine [Cpu 0 1 1 512 (Some 0%nat) 0] 0 false {[ L_pipe 3 := Spinlock 1 (Some 0%nat) ]})
    (sample_table [pr; sample_reader]) 20 (Some 0%nat) 0 0 (Prioritylock 0 0 [] 0) 0 [] {[ 3%nat := sample_pipe ]}.

Lemma sample_pipe_wf : pipe_wf sample_pipe.
Proof. split; [reflexivity|done|done|done]. Qed.

Lemma sample_at_pipe_ok pr : at_pipe 3 (sample_at_pipe pr) 0 (Cpu 0 1 1 512 (Some 0%nat) 0) 0 pr sample_pipe.
Proof.
  split; [|reflexivity|reflexivity|reflexivity|reflexivity|apply sample_pipe_wf].
  split; [by split|reflexivity|reflexivity|reflexivity].
Qed.

(** Four bytes cross the wrap-around of the counters. *)
Lemma pipe_fifo_witness :
  ∃ q', pipe_queue q' = [1; 2; 3; 4] ∧ pipewrite_loop 5 3 [1; 2; 3; 4] 4 0 (sample_at_pipe (sample_proc RUNNING 7 None))
    = Ok 4 (leave_waking 3 (Chan_pipe_nread 3) 0 (Cpu 0 1 1 512 (Some 0%nat) 0)
        (with_pipe 3 q' (sample_at_pipe (sample_proc RUNNING 7 None)))).
Proof.
  destruct (proj1 (pipe_fifo 3 (sample_at_pipe (sample_proc RUNNING 7 None)) _ _ _ _ _
    (sample_at_pipe_ok (sample_proc RUNNING 7 None))) [1; 2; 3; 4] 4 0 5%nat
    ltac:(lia) ltac:(simpl; lia) ltac:(simpl; lia)) as (q' & _ & _ & Hq & H).
  exists q'. split; [rewrite Hq; reflexivity|]. exact H.
Defined.

(** The state in which a run returned or gave up the CPU. *)
Definition res_state {S A : Type} (r : res S A) : option S :=
  match r with Ok _ s | Wait s _ => Some s | _ => None end.

Section sleepers.
Context {X : Type} `{!HasPipes X}.
Implicit Types (s : kstate X).

Lemma write_sleepers p s i c cur pr q addr n idx fuel :
  at_pipe p s i c cur pr q → sleepers_ok p s →
  0 ≤ idx ≤ n → (Z.to_nat n ≤ length addr)%nat → (Z.to_nat (n - idx) < fuel)%nat →
  ∃ s', res_state (pipewrite_loop fuel p addr n idx s) = Some s'
    ∧ (pipewrite_loop fuel p addr n idx s ≠ Ok (-1) s' → sleepers_ok p s').
Proof.
  intros Hat Hok H1 H2 H3. pose proof (Hok q (ap_pipe _ _ _ _ _ _ _ Hat)) as Hall.
  destruct (pipewrite_segment p addr n idx fuel s i c cur pr q Hat H1 H2 H3) as (q' & Hwf & Ho & Hq & Hrun).
  injection Ho as Ho1 Ho2.
  assert (length (pipe_queue q) = Z.to_nat PIPESIZE → length (pipe_queue q') = Z.to_nat PIPESIZE) as Hfull.
  { intros E. rewrite Hq, E, Nat.sub_diag, app_nil_r. done. }
  assert (∀ pr', has_reason p q pr' → has_reason p q' (wake (Some (Chan_pipe_nread p)) pr')) as Hwk.
  { intros pr' Hr. by apply (reason_readers_woken p q). }
  destruct (_ <=? _)%nat eqn:Hle; [|destruct (_ || _) eqn:Hk].
  - rewrite Hrun. eexists. split; [done|]. intros _. apply sleepers_leave_waking. by eapply Forall_wake.
  - rewrite Hrun. eexists. split; [done|]. by intros [].
  - destruct Hrun as (k & Hrun & _). rewrite Hrun. eexists. split; [done|]. intros _. apply sleepers_asleep.
    + by eapply Forall_wake.
    + intros _. split; [done|]. intros _. apply orb_false_iff in Hk as [Hk _]. apply Z.eqb_neq in Hk.
      rewrite Ho1. split; [|done]. apply Nat.leb_gt in Hle. rewrite Hq, length_app, length_take.
      pose proof (pw_count _ (ap_wf _ _ _ _ _ _ _ Hat)). rewrite <- length_pipe_queue in *. lia.
Qed.

Lemma read_sleepers p s i c cur pr q n fuel :
  at_pipe p s i c cur pr q → sleepers_ok p s →
  ∃ s', res_state ((piperead_wait (S fuel) p ≫= piperead_finish p n) s) = Some s' ∧ sleepers_ok p s'.
Proof.
  intros Hat Hok. pose proof (Hok q (ap_pipe _ _ _ _ _ _ _ Hat)) as Hall.
  pose proof (piperead_segment p n fuel s i c cur pr q Hat) as Hrun.
  destruct (_ && _) eqn:He; [destruct (negb (p_killed pr =? 0))|].
  - rewrite Hrun. by eexists.
  - destruct Hrun as (k & Hrun & _). rewrite Hrun. eexists. split; [done|].
    rewrite <- (with_pipe_id p q s) at 2 by apply Hat. apply sleepers_asleep; [done|].
    intros _. split; [|done]. intros _. bool_to_prop. done.
  - destruct Hrun as (q' & Hwf & Ho & Hq & Hrun). rewrite Hrun. eexists. split; [done|].
    apply sleepers_leave_waking. injection Ho as Ho1 Ho2. eapply Forall_wake; [done|]. intros pr' Hr.
    apply (reason_writers_woken p q); [done| |done]. intros E. by rewrite Hq, E, drop_nil.
Qed.

End sleepers.

Section close.
Context {Xm Xf : Type} `{!MemOps Xm Xf} `{!HasPipes Xf}.
Implicit Types (s : kstate (Xm * Xf)).

Definition close_chan (p : nat) (writable : bool) : channel :=
  if writable then Chan_pipe_nread p else Chan_pipe_nwrite p.

(** What [pipeclose] does: the end is closed and the other side woken; with both
    ends closed the pipe and its page are gone. *)
Lemma pipeclose_ok p w s i c cur q U P :
  can_lock (L_pipe p) s i c → ncli c = 0 → cproc c = Some cur → locks (k_mach s) !! L_ptable = None →
  locks (k_mach s) !! L_kmem = None → length (k_ptable s) = NPROC →
  the_pipe p s = Some q → mem_own (fst (k_ext s)) U P → Z.of_nat p ∈ P →
  ∃ s', pipeclose p w s = Ok tt s' ∧ k_ptable s' = map (wake (Some (close_chan p w))) (k_ptable s)
    ∧ locks (k_mach s') = locks (k_mach s)
    ∧ let q' := pipe_close_end w q in
      mem_own (fst (k_ext s')) U (if (pp_readopen q' =? 0) && (pp_writeopen q' =? 0) then P ∖ {[Z.of_nat p]} else P) ∧
      x_pipes (k_ext s') = if (pp_readopen q' =? 0) && (pp_writeopen q' =? 0) then delete p (x_pipes (k_ext s))
                           else <[p := q']> (x_pipes (k_ext s)).
Proof.
  intros Hcl Hn Hc Hpt Hkm Hlen Hq Hown Hpg. cbv zeta. destruct (acquire_inside _ s i c cur Hcl Hn Hc) as [Ha Hin].
  unfold pipeclose. rewrite (bind_ok _ _ _ _ _ Ha). set (m1 := acquired (L_pipe p) i c (k_mach s)) in *.
  rewrite (bind_get_pipe p q) by done. rewrite bind_set_pipe. set (q' := pipe_close_end w q).
  assert (inside (L_pipe p) (with_pipe p q' (set_k_mach m1 s)) i (push_cpu (eflags_if (k_mach s)) c) cur) as Hin1
    by (by eapply inside_mach).
  rewrite (bind_ok _ _ _ _ _ (wakeup_inside _ _ _ _ _ _ Hin1
    ltac:(unfold m1; change (locks _ !! _) with (locks (acquired (L_pipe p) i c (k_mach s)) !! L_ptable);
      by rewrite locks_acquired_ne) Hlen)).
  set (s2 := set_k_ptable _ _). assert (the_pipe p s2 = Some q') as Hq2.
  { change (the_pipe p (with_pipe p q' (set_k_mach m1 s)) = Some q'). apply the_with_pipe. }
  rewrite (bind_get_pipe p q') by done.
  assert (release (L_pipe p) s2 = Ok tt (set_k_mach (settled i c (k_mach s)) s2)) as Hrel
    by (destruct Hcl; by apply krelease_acquired; [|lia| |]).
  destruct ((pp_readopen q' =? 0) && (pp_writeopen q' =? 0)).
  - rewrite (bind_ok _ _ _ _ _ Hrel). unfold free_pipe. rewrite bind_kmodify. set (s3 := set_k_ext _ _).
    destruct (e_kfree_ok s3 i (settle (eflags_if (k_mach s)) c) U P (Z.of_nat p)) as (x & Hx & _ & Hown').
    + destruct Hcl as [H1 H2 H3]. split; [by apply mach_at_settled| |done]. rewrite ncli_settle. lia.
    + by apply at_rest_settled.
    + done.
    + done.
    + rewrite Hx. eexists. split; [done|]. split; [done|]. split; [done|]. split; [exact Hown'|].
      unfold put_mem, s3, s2, with_pipe. cbn. by rewrite !x_pipes_set, delete_insert_eq.
  - rewrite Hrel. eexists. split; [done|]. split; [done|]. split; [done|]. split; [exact Hown|].
    unfold s2, with_pipe. cbn. by rewrite x_pipes_set.
Qed.

Lemma close_reason p w q pr :
  has_reason p q pr → has_reason p (pipe_close_end w q) (wake (Some (close_chan p w)) pr).
Proof. intros Hr. destruct w; [by apply (reason_readers_woken p q)|by apply (reason_writers_woken p q)]. Qed.

End close.

(** C30: unless a writer was killed or found the read end closed, no process sleeps on a
    pipe that has something for it to do.  The invariant - a sleeping reader finds the
    pipe empty and the write end open, a sleeping writer finds it full and the read end
    open - holds again whenever an operation on the pipe returns or sleeps:
    [piperead] and [pipeclose] always keep it, and [pipewrite] does in every case but
    that of returning -1, in which it wakes nobody and a reader can be left asleep beside
    data.  When the second end is closed the pipe is gone and its page is free. *)
Theorem pipe_sleepers_invariant {Xm Xf : Type} `{!MemOps Xm Xf} `{!HasPipes Xf}
    (p : nat) (s : kstate (Xm * Xf)) i c cur :
  sleepers_ok p s →
  (∀ pr q addr n idx fuel, at_pipe p s i c cur pr q →
     0 ≤ idx ≤ n → (Z.to_nat n ≤ length addr)%nat → (Z.to_nat (n - idx) < fuel)%nat →
     ∃ s', res_state (pipewrite_loop fuel p addr n idx s) = Some s'
       ∧ (pipewrite_loop fuel p addr n idx s ≠ Ok (-1) s' → sleepers_ok p s'))
  ∧ (∀ pr q n fuel, at_pipe p s i c cur pr q →
     ∃ s', res_state ((piperead_wait (S fuel) p ≫= piperead_finish p n) s) = Some s' ∧ sleepers_ok p s')
  ∧ (∀ w q, can_lock (L_pipe p) s i c → ncli c = 0 → cproc c = Some cur → locks (k_mach s) !! L_ptable = None →
     locks (k_mach s) !! L_kmem = None → length (k_ptable s) = NPROC →
     ∀ U P, the_pipe p s = Some q → mem_own (fst (k_ext s)) U P → Z.of_nat p ∈ P →
     ∃ s', pipeclose p w s = Ok tt s' ∧ sleepers_ok p s'
       ∧ (the_pipe p s' = None ↔ pp_readopen (pipe_close_end w q) = 0 ∧ pp_writeopen (pipe_close_end w q) = 0)
       ∧ (the_pipe p s' = None → mem_own (fst (k_ext s')) U (P ∖ {[Z.of_nat p]}))).
Proof.
  intros Hok. split; [|split].
  - intros pr q addr n idx fuel Hat. by eapply write_sleepers.
  - intros pr q n fuel Hat. by eapply read_sleepers.
  - intros w q Hcl Hn Hc H1 H2 Hlen U P Hq Hown Hpg.
    destruct (pipeclose_ok p w s i c cur q U P Hcl Hn Hc H1 H2 Hlen Hq Hown Hpg) as (s' & Hrun & Ht & _ & Hm & Hp). exists s'.
    split; [done|]. unfold sleepers_ok, the_pipe. rewrite Hp, Ht. destruct (_ && _) eqn:E.
    + rewrite lookup_delete_eq. apply andb_true_iff in E as [E1%Z.eqb_eq E2%Z.eqb_eq]. by split_and!.
    + rewrite lookup_insert_eq. split.
      * intros q1 [= <-]. eapply Forall_wake; [by apply Hok|]. intros pr. apply close_reason.
      * apply andb_false_iff in E. rewrite !Z.eqb_neq in E. split; [|done]. split; [done|]. intros []. tauto.
Qed.

(** A pipe whose write end is closed while a reader sleeps. *)
Definition sample_close : kstate (list Z * gmap nat pipe) :=
  Kstate (Machine [Cpu 0 1 0 0 (Some 0%nat) 0] 0 true ∅)
    (sample_table [sample_proc RUNNING 7 None; sample_reader]) 20 (Some 0%nat) 0 0 (Prioritylock 0 0 [] 0) 0 []
    ([], {[ 3%nat := sample_pipe ]}).

Lemma sample_close_sleepers : sleepers_ok 3 sample_close.
Proof.
  intros q Hq. injection Hq as <-. repeat constructor; intros; try done; simpl in *; congruence.
Qed.

Lemma sample_close_pool : pool_own [] ∅ {[3]}.
Proof.
  split; [constructor| |intros a []%elem_of_nil|done].
  split; [apply not_elem_of_nil|]. split; [by intros H%elem_of_singleton|done].
Qed.

Lemma pipe_sleepers_invariant_witness : ∃ s', pipeclose 3 true sample_close = Ok tt s' ∧ sleepers_ok 3 s'.
Proof.
  destruct (proj2 (proj2 (pipe_sleepers_invariant 3 sample_close 0 (Cpu 0 1 0 0 (Some 0%nat) 0) 0 sample_close_sleepers))
    true sample_pipe) with (U := (∅ : gmap Z Z)) (P := ({[3]} : gset Z)) as (s' & H1 & H2 & _);
    [|reflexivity|reflexivity|reflexivity|reflexivity|reflexivity|reflexivity|exact sample_close_pool|by apply elem_of_singleton|].
  - split; [by split|simpl; lia|reflexivity].
  - exists s'. by split.
Defined.

(** C39: A killed writer leaves readers asleep on a full pipe.  When more bytes
    are to be written than fit and the writer was killed, [pipewrite] fills the
    pipe and returns -1 without a [wakeup]: every process that slept waiting for
    bytes still does, with [PIPESIZE] bytes to read and the write end open. *)
Theorem pipewrite_killed_strands_reader {X : Type} `{!HasPipes X} (p : nat) (s : kstate X) i c cur pr q addr n fuel j rd :
  at_pipe p s i c cur pr q → p_killed pr ≠ 0 → 0 ≤ n → (Z.to_nat n ≤ length addr)%nat → (Z.to_nat n < fuel)%nat →
  PIPESIZE < Z.of_nat (length (pipe_queue q)) + n →
  k_ptable s !! j = Some rd → p_state rd = SLEEPING → p_chan rd = Some (Chan_pipe_nread p) →
  ∃ s' q', pipewrite_loop fuel p addr n 0 s = Ok (-1) s' ∧ k_ptable s' !! j = Some rd
    ∧ the_pipe p s' = Some q' ∧ Z.of_nat (length (pipe_queue q')) = PIPESIZE ∧ pp_writeopen q' = pp_writeopen q.
Proof.
  intros Hat Hk Hn Haddr Hfuel Hmore Hrd Hs Hc.
  destruct (pipewrite_segment p addr n 0 fuel s i c cur pr q Hat ltac:(lia) Haddr ltac:(by rewrite Z.sub_0_r))
    as (q' & Hwf & Ho & Hq & Hrun).
  pose proof (pw_count _ (ap_wf _ _ _ _ _ _ _ Hat)) as Hle. rewrite <- length_pipe_queue in Hle.
  rewrite Z.sub_0_r in Hrun, Hq.
  assert (length (take (Z.to_nat n) (drop (Z.to_nat 0) addr)) = Z.to_nat n) as Hl
    by (rewrite length_take, length_drop; lia).
  rewrite Hl in Hrun. destruct (Nat.leb_spec (Z.to_nat n) (Z.to_nat PIPESIZE - length (pipe_queue q))); [unfold PIPESIZE in *; lia|].
  assert ((pp_readopen q =? 0) || negb (p_killed pr =? 0) = true) as E.
  { apply orb_true_iff. right. by apply negb_true_iff, Z.eqb_neq. }
  rewrite E in Hrun. exists (leave_quiet p i c (with_pipe p q' s)), q'. split; [done|]. split; [done|].
  split; [apply the_with_pipe|]. injection Ho as _ Ho. split; [|done].
  rewrite Hq, length_app, length_take, Hl. unfold PIPESIZE in *. lia.
Qed.

Lemma pipewrite_killed_strands_reader_witness :
  ∃ s', pipewrite_loop 601 3 (replicate 600 65) 600 0 (sample_at_pipe (set_p_killed 1 (sample_proc RUNNING 7 None)))
      = Ok (-1) s' ∧ k_ptable s' !! 1%nat = Some sample_reader.
Proof.
  destruct (pipewrite_killed_strands_reader 3 _ _ _ _ _ _ (replicate 600 65) 600 601 1 sample_reader
    (sample_at_pipe_ok (set_p_killed 1 (sample_proc RUNNING 7 None)))) as (s' & q' & H & Ht & _);
    [done|lia|vm_compute; lia|lia|vm_compute; reflexivity|reflexivity|reflexivity|reflexivity|].
  exists s'. by split.
Defined.
