(* ===== verification/Sleeplock.v ===== *)
(** * Sleeping locks

    Models [sleeplock.c].  A sleep lock is named by a number; its spin lock is
    [L_sleep], its channel [Chan_sleeplock].  The part of the kernel state that
    holds the locks is reached through [HasSleeplocks]. *)

From S2P Require Import Prelude Spinlock State PrioLock Sched Proc Sleep.

(** [struct sleeplock], without its spin lock and its name. *)
Record sleeplock := Sleeplock { sl_locked : Z; sl_pid : Z }.

Class HasSleeplocks (X : Type) := {
  x_sleeplock : nat → X → sleeplock;
  x_set_sleeplock : nat → sleeplock → X → X;
  x_sleeplock_set n v x : x_sleeplock n (x_set_sleeplock n v x) = v;
  x_set_sleeplock_set n v w x : x_set_sleeplock n v (x_set_sleeplock n w x) = x_set_sleeplock n v x
}.

#[export] Instance sleeplocks_here : HasSleeplocks (gmap nat sleeplock).
Proof.
  refine {| x_sleeplock n x := default (Sleeplock 0 0) (x !! n); x_set_sleeplock n v x := <[n := v]> x |}.
  - intros n v x. by rewrite lookup_insert_eq.
  - intros n v w x. apply insert_insert_eq.
Defined.

Section sleeplock_ops.
Context {X : Type} `{!HasSleeplocks X}.
Notation M := (K (kstate X)).

Definition get_sleeplock (n : nat) : M sleeplock := kgets (λ s, x_sleeplock n (k_ext s)).

Definition put_sleeplock (n : nat) (v : sleeplock) : M unit :=
  kmodify (λ s, set_k_ext (x_set_sleeplock n v (k_ext s)) s).

(** [myproc()->pid] *)
Definition curpid : M Z :=
  i ← curproc;
  p ← get_proc i;
  mret (p_pid p).

Definition initsleeplock (n : nat) : M unit :=
  initlock (L_sleep n);;
  put_sleeplock n (Sleeplock 0 0).

(** The waiting loop and the rest of [acquiresleep]; one unit of fuel per
    sleep. *)
Fixpoint acquiresleep_loop (fuel : nat) (n : nat) : M unit :=
  match fuel with
  | O => knofuel
  | S fuel' =>
      v ← get_sleeplock n;
      if negb (sl_locked v =? 0) then
        sleep (Some (Chan_sleeplock n)) (Some (L_sleep n));;
        acquiresleep_loop fuel' n
      else
        v ← get_sleeplock n;
        put_sleeplock n (Sleeplock 1 (sl_pid v));;
        pid ← curpid;
        put_sleeplock n (Sleeplock 1 pid);;
        release (L_sleep n)
  end.

Definition acquiresleep (fuel : nat) (n : nat) : M unit :=
  acquire (L_sleep n);;
  acquiresleep_loop fuel n.

Definition releasesleep (n : nat) : M unit :=
  acquire (L_sleep n);;
  v ← get_sleeplock n;
  other ← (if sl_locked v =? 0 then mret true else pid ← curpid; mret (negb (sl_pid v =? pid)));
  if (other : bool) then mret tt else
  put_sleeplock n (Sleeplock 0 0);;
  wakeup (Some (Chan_sleeplock n));;
  release (L_sleep n).

Definition holdingsleep (n : nat) : M bool :=
  acquire (L_sleep n);;
  v ← get_sleeplock n;
  r ← (if sl_locked v =? 0 then mret false else pid ← curpid; mret (sl_pid v =? pid));
  release (L_sleep n);;
  mret r.

End sleeplock_ops.

(** ** Lemmas *)

Section sleeplock_lemmas.
Context {X : Type} `{!HasSleeplocks X}.
Implicit Types (s : kstate X).

(** The state with sleep lock [n] replaced. *)
Definition with_sleeplock (n : nat) (v : sleeplock) (s : kstate X) : kstate X :=
  set_k_ext (x_set_sleeplock n v (k_ext s)) s.

Definition the_sleeplock (n : nat) (s : kstate X) : sleeplock := x_sleeplock n (k_ext s).

Lemma curpid_ok l s i c cur pr :
  inside l s i c cur → k_ptable s !! cur = Some pr → curpid s = Ok (p_pid pr) s.
Proof.
  intros Hin Hp. unfold curpid.
  erewrite bind_ok; [|unfold curproc; by rewrite (bind_ok _ _ _ _ _ (inside_myproc _ _ _ _ _ Hin))].
  by rewrite (bind_ok _ _ _ _ _ (get_proc_ok s cur pr Hp)).
Qed.

(** The process [cur] with contents [pr] calls, with interrupts on. *)
Record calling (n : nat) (s : kstate X) (i : nat) (c : cpu) (cur : nat) (pr : proc) : Prop := Calling {
  ca_lock : can_lock (L_sleep n) s i c;
  ca_ncli : ncli c = 0;
  ca_cur : cproc c = Some cur;
  ca_proc : k_ptable s !! cur = Some pr;
  ca_free : locks (k_mach s) !! L_ptable = None;
  ca_len : length (k_ptable s) = NPROC
}.

Lemma releasing n s s' i c cur pr :
  calling n s i c cur pr → k_mach s' = acquired (L_sleep n) i c (k_mach s) →
  release (L_sleep n) s' = Ok tt (set_k_mach (settled i c (k_mach s)) s').
Proof. intros [[H1 H2 H3] ?????] E. by apply krelease_acquired; [|lia| |]. Qed.

Lemma calling_enter n s i c cur pr :
  calling n s i c cur pr →
  acquire (L_sleep n) s = Ok tt (set_k_mach (acquired (L_sleep n) i c (k_mach s)) s)
  ∧ inside (L_sleep n) (set_k_mach (acquired (L_sleep n) i c (k_mach s)) s) i (push_cpu (eflags_if (k_mach s)) c) cur
  ∧ locks (acquired (L_sleep n) i c (k_mach s)) !! L_ptable = None.
Proof.
  intros [H1 H2 H3 H4 H5 H6]. destruct (acquire_inside _ s i c cur H1 H2 H3). split; [done|]. split; [done|].
  by rewrite locks_acquired_ne.
Qed.

Lemma bind_get_sleeplock {B} n (k : sleeplock → K (kstate X) B) s :
  (get_sleeplock n ≫= k) s = k (the_sleeplock n s) s.
Proof. apply bind_kgets. Qed.

Lemma bind_put_sleeplock {B} n v (k : unit → K (kstate X) B) s :
  (put_sleeplock n v ≫= k) s = k tt (with_sleeplock n v s).
Proof. apply bind_kmodify. Qed.

Lemma with_sleeplock_with n v w s : with_sleeplock n v (with_sleeplock n w s) = with_sleeplock n v s.
Proof. unfold with_sleeplock. kproj. by rewrite x_set_sleeplock_set. Qed.

(** The loop of [acquiresleep] on a free lock. *)
Lemma acquiresleep_take n fuel s s1 i c cur pr :
  calling n s i c cur pr → s1 = set_k_mach (acquired (L_sleep n) i c (k_mach s)) s →
  sl_locked (the_sleeplock n s) = 0 →
  acquiresleep_loop (S fuel) n s1
  = Ok tt (set_k_mach (settled i c (k_mach s)) (with_sleeplock n (Sleeplock 1 (p_pid pr)) s)).
Proof.
  intros Hca -> Hv. destruct (calling_enter n s i c cur pr Hca) as (_ & Hin & _). cbn [acquiresleep_loop].
  rewrite bind_get_sleeplock. change (the_sleeplock n (set_k_mach _ s)) with (the_sleeplock n s).
  rewrite Hv. cbn [Z.eqb negb]. rewrite bind_get_sleeplock, bind_put_sleeplock.
  erewrite bind_ok; [|eapply curpid_ok; [by eapply inside_mach|by apply Hca]].
  rewrite bind_put_sleeplock, with_sleeplock_with. by rewrite (releasing n s _ i c cur pr).
Qed.

(** On a held lock the process sleeps and tries again. *)
Lemma acquiresleep_wait n fuel s s1 i c cur pr :
  calling n s i c cur pr → s1 = set_k_mach (acquired (L_sleep n) i c (k_mach s)) s →
  sl_locked (the_sleeplock n s) ≠ 0 →
  ∃ k, acquiresleep_loop (S fuel) n s1
      = Wait (set_k_mach (swap_lock (L_sleep n) i (k_mach s1))
          (set_k_ptable (<[cur := set_p_state SLEEPING (set_p_chan (Some (Chan_sleeplock n)) pr)]> (k_ptable s)) s)) k
    ∧ ∀ s2 i2 c2, inside L_ptable s2 i2 c2 cur → locks (k_mach s2) !! L_sleep n = None →
        ∃ m3 c3, k s2 = acquiresleep_loop fuel n
            (set_k_mach m3 (set_k_ptable (alter (set_p_chan None) cur (k_ptable s2)) s2))
          ∧ inside (L_sleep n) (set_k_mach m3 s2) i2 c3 cur ∧ locks m3 !! L_ptable = None.
Proof.
  intros Hca -> Hv. destruct (calling_enter n s i c cur pr Hca) as (_ & Hin & Hf). cbn [acquiresleep_loop].
  rewrite bind_get_sleeplock. change (the_sleeplock n (set_k_mach _ s)) with (the_sleeplock n s).
  apply Z.eqb_neq in Hv. rewrite Hv. cbn [negb].
  destruct (sleep_waits (L_sleep n) (Chan_sleeplock n) _ _ _ _ _ Hin ltac:(done) Hf (ca_proc _ _ _ _ _ _ Hca)) as (k & Hs & Hk).
  eexists. split; [rewrite (bind_wait _ _ _ _ _ Hs); reflexivity|].
  intros s2 i2 c2 Hin2 Hl2. destruct (Hk s2 i2 c2 Hin2 Hl2) as (m3 & c3 & Hrun & H3). exists m3, c3. cbv beta. by rewrite Hrun.
Qed.

(** Does the caller hold the lock? *)
Definition holder (v : sleeplock) (pr : proc) : bool := negb (sl_locked v =? 0) && (sl_pid v =? p_pid pr).

Lemma releasesleep_run n s i c cur pr :
  calling n s i c cur pr →
  releasesleep n s =
    if holder (the_sleeplock n s) pr then
      Ok tt (set_k_mach (settled i c (k_mach s))
        (set_k_ptable (map (wake (Some (Chan_sleeplock n))) (k_ptable s)) (with_sleeplock n (Sleeplock 0 0) s)))
    else Ok tt (set_k_mach (acquired (L_sleep n) i c (k_mach s)) s).
Proof.
  intros Hca. destruct (calling_enter n s i c cur pr Hca) as (Ha & Hin & Hf). unfold releasesleep.
  rewrite (bind_ok _ _ _ _ _ Ha). rewrite bind_get_sleeplock.
  change (the_sleeplock n (set_k_mach _ s)) with (the_sleeplock n s).
  rewrite (bind_ok _ _ _ (negb (holder (the_sleeplock n s) pr)) (set_k_mach (acquired (L_sleep n) i c (k_mach s)) s)).
  2:{ unfold holder. destruct (sl_locked _ =? 0); [done|].
      by rewrite (bind_ok _ _ _ _ _ (curpid_ok _ _ _ _ _ _ Hin (ca_proc _ _ _ _ _ _ Hca))). }
  destruct (holder _ _); [|done]. cbn [negb]. rewrite bind_put_sleeplock.
  erewrite bind_ok; [|eapply wakeup_inside; [by eapply inside_mach|done|by apply Hca]].
  by rewrite (releasing n s _ i c cur pr).
Qed.

Lemma holdingsleep_run n s i c cur pr :
  calling n s i c cur pr →
  holdingsleep n s = Ok (holder (the_sleeplock n s) pr) (set_k_mach (settled i c (k_mach s)) s).
Proof.
  intros Hca. destruct (calling_enter n s i c cur pr Hca) as (Ha & Hin & Hf). unfold holdingsleep.
  rewrite (bind_ok _ _ _ _ _ Ha). rewrite bind_get_sleeplock.
  change (the_sleeplock n (set_k_mach _ s)) with (the_sleeplock n s).
  rewrite (bind_ok _ _ _ (holder (the_sleeplock n s) pr) (set_k_mach (acquired (L_sleep n) i c (k_mach s)) s)).
  2:{ unfold holder. destruct (sl_locked _ =? 0); [done|].
      by rewrite (bind_ok _ _ _ _ _ (curpid_ok _ _ _ _ _ _ Hin (ca_proc _ _ _ _ _ _ Hca))). }
  by erewrite bind_ok; [|by apply (releasing n s _ i c cur pr)].
Qed.

End sleeplock_lemmas.

(** ** Properties *)

(** C33: Sleep locks on every path.  [acquiresleep] takes a free lock for the
    caller and returns with interrupts and locks as it found them; on a held
    lock the caller sleeps, with the lock's spin lock released only under
    [ptable.lock], and tests again when it runs.  [releasesleep] by the holder
    frees the lock and wakes every waiter.  By anyone else it leaves the lock
    alone but returns with the lock's spin lock still held, so that the CPU's
    next operation on the lock panics.  [holdingsleep] answers whether the
    caller is the holder and changes nothing. *)
Theorem sleeplock_outcome {X : Type} `{!HasSleeplocks X} (n : nat) (s : kstate X) i c cur pr fuel :
  calling n s i c cur pr →
  let v := the_sleeplock n s in
  let back := set_k_mach (settled i c (k_mach s)) in
  (if sl_locked v =? 0 then
     acquiresleep (S fuel) n s = Ok tt (back (with_sleeplock n (Sleeplock 1 (p_pid pr)) s))
   else ∃ s1 k, acquiresleep (S fuel) n s = Wait s1 k
     ∧ k_ptable s1 = <[cur := set_p_state SLEEPING (set_p_chan (Some (Chan_sleeplock n)) pr)]> (k_ptable s)
     ∧ locks (k_mach s1) !! L_sleep n = None ∧ locks (k_mach s1) !! L_ptable = Some (Spinlock 1 (Some i))
     ∧ the_sleeplock n s1 = v
     ∧ ∀ s2 i2 c2, inside L_ptable s2 i2 c2 cur → locks (k_mach s2) !! L_sleep n = None →
         ∃ m3 c3, k s2 = acquiresleep_loop fuel n
             (set_k_mach m3 (set_k_ptable (alter (set_p_chan None) cur (k_ptable s2)) s2))
           ∧ inside (L_sleep n) (set_k_mach m3 s2) i2 c3 cur ∧ locks m3 !! L_ptable = None)
  ∧ (if holder v pr then
       releasesleep n s = Ok tt (back (set_k_ptable (map (wake (Some (Chan_sleeplock n))) (k_ptable s))
         (with_sleeplock n (Sleeplock 0 0) s)))
     else ∃ s1, releasesleep n s = Ok tt s1 ∧ the_sleeplock n s1 = v ∧ k_ptable s1 = k_ptable s
       ∧ locks (k_mach s1) !! L_sleep n = Some (Spinlock 1 (Some i))
       ∧ acquiresleep fuel n s1 = Panic "acquire" ∧ releasesleep n s1 = Panic "acquire")
  ∧ holdingsleep n s = Ok (holder v pr) (back s).
Proof.
  intros Hca. cbv zeta. destruct (calling_enter n s i c cur pr Hca) as (Ha & Hin & Hf).
  split; [|split; [|by eapply holdingsleep_run]].
  - unfold acquiresleep. rewrite (bind_ok _ _ _ _ _ Ha). destruct (Z.eqb_spec (sl_locked (the_sleeplock n s)) 0) as [Hv|Hv].
    + by eapply acquiresleep_take.
    + destruct (acquiresleep_wait n fuel s _ i c cur pr Hca eq_refl Hv) as (k & Hs & Hk).
      eexists _, k. split; [exact Hs|]. split; [done|]. kproj. unfold swap_lock, set_lock; simpl.
      rewrite lookup_delete_eq, lookup_delete_ne, lookup_insert_eq by done. done.
  - rewrite (releasesleep_run n s i c cur pr Hca). destruct (holder _ _); [done|].
    eexists. split; [done|]. split; [done|]. split; [done|]. kproj. rewrite locks_acquired_eq. split; [done|].
    destruct Hin as [I1 I2 I3 I4]. unfold acquiresleep, releasesleep.
    by rewrite !(bind_panic _ _ _ _ (kacquire_held _ _ _ _ I1 ltac:(lia) I3)).
Qed.

(** Process 0 calls, the lock 5 is held by pid 9. *)
Definition sample_sleeplock : kstate (gmap nat sleeplock) :=
  Kstate (Machine [Cpu 0 1 0 0 (Some 0%nat) 0] 0 true ∅) (sample_table [sample_proc RUNNING 7 None]) 20 (Some 0%nat) 0 0
    (Prioritylock 0 0 [] 0) 0 [] {[ 5%nat := Sleeplock 1 9 ]}.

Lemma sleeplock_outcome_witness :
  ∃ s1, releasesleep 5 sample_sleeplock = Ok tt s1 ∧ acquiresleep 3 5 s1 = Panic "acquire".
Proof.
  destruct (sleeplock_outcome 5 sample_sleeplock 0 (Cpu 0 1 0 0 (Some 0%nat) 0) 0 (sample_proc RUNNING 7 None) 3)
    as (_ & (s1 & H1 & _ & _ & _ & H2 & _) & _).
  - split; [|reflexivity|reflexivity|reflexivity|reflexivity|reflexivity]. split; [by split|simpl; lia|reflexivity].
  - exists s1. by split.
Defined.
