(* ===== verification/FsState.v ===== *)
(** * The file system's part of the kernel state

    The buffer cache, the disk, the log, the super block, the inode cache, the
    file table and the pipes, as one record; [Bio], [Log], [Fs] and [File] are
    the code on it.  [bcache.buf] has [bcache.head] as its last entry, so the
    links of the list of buffers are indices.  Sleep locks are numbered: buffer
    [n] has lock [n], entry [n] of the inode cache lock [NBUF + 1 + n]. *)

From S2P Require Import Prelude Spinlock State PrioLock Sched Proc Sleep Sleeplock Pipe.

Definition BSIZE : Z := 512.
Definition MAXOPBLOCKS : Z := 10.
Definition LOGSIZE : Z := MAXOPBLOCKS * 3.
Definition NBUF : nat := 30.
Definition NINODE : nat := 50.
Definition NFILE : nat := 100.
Definition NDEV : Z := 10.
Definition ROOTINO : Z := 1.
Definition NDIRECT : Z := 12.
Definition NINDIRECT : Z := BSIZE / 4.
Definition MAXFILE : Z := NDIRECT + NINDIRECT.
Definition DIRSIZ : Z := 14.

Definition T_DIR : Z := 1.
Definition T_FILE : Z := 2.
Definition T_DEV : Z := 3.

Definition B_VALID : Z := 2.
Definition B_DIRTY : Z := 4.

(** [struct buf], without its sleep lock and the disk queue. *)
Record buf := Buf {
  b_flags : Z;
  b_dev : Z;
  b_blockno : Z;
  b_refcnt : Z;
  b_prev : nat;
  b_next : nat;
  b_data : list Z
}.

Definition set_b_flags (v : Z) (s : buf) : buf :=
  Buf v (b_dev s) (b_blockno s) (b_refcnt s) (b_prev s) (b_next s) (b_data s).
Definition set_b_dev (v : Z) (s : buf) : buf :=
  Buf (b_flags s) v (b_blockno s) (b_refcnt s) (b_prev s) (b_next s) (b_data s).
Definition set_b_blockno (v : Z) (s : buf) : buf :=
  Buf (b_flags s) (b_dev s) v (b_refcnt s) (b_prev s) (b_next s) (b_data s).
Definition set_b_refcnt (v : Z) (s : buf) : buf :=
  Buf (b_flags s) (b_dev s) (b_blockno s) v (b_prev s) (b_next s) (b_data s).
Definition set_b_prev (v : nat) (s : buf) : buf :=
  Buf (b_flags s) (b_dev s) (b_blockno s) (b_refcnt s) v (b_next s) (b_data s).
Definition set_b_next (v : nat) (s : buf) : buf :=
  Buf (b_flags s) (b_dev s) (b_blockno s) (b_refcnt s) (b_prev s) v (b_data s).
Definition set_b_data (v : list Z) (s : buf) : buf :=
  Buf (b_flags s) (b_dev s) (b_blockno s) (b_refcnt s) (b_prev s) (b_next s) v.

(** [struct log] with its header, without the spin lock, which is [L_log]. *)
Record log := Log {
  lg_start : Z;
  lg_size : Z;
  lg_outstanding : Z;
  lg_committing : Z;
  lg_dev : Z;
  lg_n : Z;
  lg_block : list Z
}.

Definition set_lg_start (v : Z) (s : log) : log :=
  Log v (lg_size s) (lg_outstanding s) (lg_committing s) (lg_dev s) (lg_n s) (lg_block s).
Definition set_lg_size (v : Z) (s : log) : log :=
  Log (lg_start s) v (lg_outstanding s) (lg_committing s) (lg_dev s) (lg_n s) (lg_block s).
Definition set_lg_outstanding (v : Z) (s : log) : log :=
  Log (lg_start s) (lg_size s) v (lg_committing s) (lg_dev s) (lg_n s) (lg_block s).
Definition set_lg_committing (v : Z) (s : log) : log :=
  Log (lg_start s) (lg_size s) (lg_outstanding s) v (lg_dev s) (lg_n s) (lg_block s).
Definition set_lg_dev (v : Z) (s : log) : log :=
  Log (lg_start s) (lg_size s) (lg_outstanding s) (lg_committing s) v (lg_n s) (lg_block s).
Definition set_lg_n (v : Z) (s : log) : log :=
  Log (lg_start s) (lg_size s) (lg_outstanding s) (lg_committing s) (lg_dev s) v (lg_block s).
Definition set_lg_block (v : list Z) (s : log) : log :=
  Log (lg_start s) (lg_size s) (lg_outstanding s) (lg_committing s) (lg_dev s) (lg_n s) v.

(** [struct superblock]. *)
Record superblock := Superblock {
  sb_size : Z;
  sb_nblocks : Z;
  sb_ninodes : Z;
  sb_nlog : Z;
  sb_logstart : Z;
  sb_inodestart : Z;
  sb_bmapstart : Z
}.

Definition set_sb_size (v : Z) (s : superblock) : superblock :=
  Superblock v (sb_nblocks s) (sb_ninodes s) (sb_nlog s) (sb_logstart s) (sb_inodestart s) (sb_bmapstart s).
Definition set_sb_nblocks (v : Z) (s : superblock) : superblock :=
  Superblock (sb_size s) v (sb_ninodes s) (sb_nlog s) (sb_logstart s) (sb_inodestart s) (sb_bmapstart s).
Definition set_sb_ninodes (v : Z) (s : superblock) : superblock :=
  Superblock (sb_size s) (sb_nblocks s) v (sb_nlog s) (sb_logstart s) (sb_inodestart s) (sb_bmapstart s).
Definition set_sb_nlog (v : Z) (s : superblock) : superblock :=
  Superblock (sb_size s) (sb_nblocks s) (sb_ninodes s) v (sb_logstart s) (sb_inodestart s) (sb_bmapstart s).
Definition set_sb_logstart (v : Z) (s : superblock) : superblock :=
  Superblock (sb_size s) (sb_nblocks s) (sb_ninodes s) (sb_nlog s) v (sb_inodestart s) (sb_bmapstart s).
Definition set_sb_inodestart (v : Z) (s : superblock) : superblock :=
  Superblock (sb_size s) (sb_nblocks s) (sb_ninodes s) (sb_nlog s) (sb_logstart s) v (sb_bmapstart s).
Definition set_sb_bmapstart (v : Z) (s : superblock) : superblock :=
  Superblock (sb_size s) (sb_nblocks s) (sb_ninodes s) (sb_nlog s) (sb_logstart s) (sb_inodestart s) v.

(** [struct inode], without its sleep lock. *)
Record inode := Inode {
  i_dev : Z;
  i_inum : Z;
  i_ref : Z;
  i_valid : Z;
  i_type : Z;
  i_major : Z;
  i_minor : Z;
  i_nlink : Z;
  i_size : Z;
  i_addrs : list Z
}.

Definition set_i_dev (v : Z) (s : inode) : inode :=
  Inode v (i_inum s) (i_ref s) (i_valid s) (i_type s) (i_major s) (i_minor s) (i_nlink s) (i_size s) (i_addrs s).
Definition set_i_inum (v : Z) (s : inode) : inode :=
  Inode (i_dev s) v (i_ref s) (i_valid s) (i_type s) (i_major s) (i_minor s) (i_nlink s) (i_size s) (i_addrs s).
Definition set_i_ref (v : Z) (s : inode) : inode :=
  Inode (i_dev s) (i_inum s) v (i_valid s) (i_type s) (i_major s) (i_minor s) (i_nlink s) (i_size s) (i_addrs s).
Definition set_i_valid (v : Z) (s : inode) : inode :=
  Inode (i_dev s) (i_inum s) (i_ref s) v (i_type s) (i_major s) (i_minor s) (i_nlink s) (i_size s) (i_addrs s).
Definition set_i_type (v : Z) (s : inode) : inode :=
  Inode (i_dev s) (i_inum s) (i_ref s) (i_valid s) v (i_major s) (i_minor s) (i_nlink s) (i_size s) (i_addrs s).
Definition set_i_major (v : Z) (s : inode) : inode :=
  Inode (i_dev s) (i_inum s) (i_ref s) (i_valid s) (i_type s) v (i_minor s) (i_nlink s) (i_size s) (i_addrs s).
Definition set_i_minor (v : Z) (s : inode) : inode :=
  Inode (i_dev s) (i_inum s) (i_ref s) (i_valid s) (i_type s) (i_major s) v (i_nlink s) (i_size s) (i_addrs s).
Definition set_i_nlink (v : Z) (s : inode) : inode :=
  Inode (i_dev s) (i_inum s) (i_ref s) (i_valid s) (i_type s) (i_major s) (i_minor s) v (i_size s) (i_addrs s).
Definition set_i_size (v : Z) (s : inode) : inode :=
  Inode (i_dev s) (i_inum s) (i_ref s) (i_valid s) (i_type s) (i_major s) (i_minor s) (i_nlink s) v (i_addrs s).
Definition set_i_addrs (v : list Z) (s : inode) : inode :=
  Inode (i_dev s) (i_inum s) (i_ref s) (i_valid s) (i_type s) (i_major s) (i_minor s) (i_nlink s) (i_size s) v.

Inductive filetype := FD_NONE | FD_PIPE | FD_INODE.

(** [struct file]; pipes and inodes are named by their index. *)
Record file := File {
  f_type : filetype;
  f_ref : Z;
  f_readable : Z;
  f_writable : Z;
  f_pipe : nat;
  f_ip : nat;
  f_off : Z
}.

Definition set_f_type (v : filetype) (s : file) : file :=
  File v (f_ref s) (f_readable s) (f_writable s) (f_pipe s) (f_ip s) (f_off s).
Definition set_f_ref (v : Z) (s : file) : file :=
  File (f_type s) v (f_readable s) (f_writable s) (f_pipe s) (f_ip s) (f_off s).
Definition set_f_readable (v : Z) (s : file) : file :=
  File (f_type s) (f_ref s) v (f_writable s) (f_pipe s) (f_ip s) (f_off s).
Definition set_f_writable (v : Z) (s : file) : file :=
  File (f_type s) (f_ref s) (f_readable s) v (f_pipe s) (f_ip s) (f_off s).
Definition set_f_pipe (v : nat) (s : file) : file :=
  File (f_type s) (f_ref s) (f_readable s) (f_writable s) v (f_ip s) (f_off s).
Definition set_f_ip (v : nat) (s : file) : file :=
  File (f_type s) (f_ref s) (f_readable s) (f_writable s) (f_pipe s) v (f_off s).
Definition set_f_off (v : Z) (s : file) : file :=
  File (f_type s) (f_ref s) (f_readable s) (f_writable s) (f_pipe s) (f_ip s) v.

(** The state. [fx_trace] records the blocks written to disk, the last one first; no
    operation reads it. *)
Record fsx := Fsx {
  fx_bufs : list buf;
  fx_sleep : gmap nat sleeplock;
  fx_disk : list (list Z);
  fx_trace : list (Z * list Z);
  fx_log : log;
  fx_sb : superblock;
  fx_inodes : list inode;
  fx_files : list file;
  fx_pipes : gmap nat pipe
}.

Definition set_fx_bufs (v : list buf) (s : fsx) : fsx :=
  Fsx v (fx_sleep s) (fx_disk s) (fx_trace s) (fx_log s) (fx_sb s) (fx_inodes s) (fx_files s) (fx_pipes s).
Definition set_fx_sleep (v : gmap nat sleeplock) (s : fsx) : fsx :=
  Fsx (fx_bufs s) v (fx_disk s) (fx_trace s) (fx_log s) (fx_sb s) (fx_inodes s) (fx_files s) (fx_pipes s).
Definition set_fx_disk (v : list (list Z)) (s : fsx) : fsx :=
  Fsx (fx_bufs s) (fx_sleep s) v (fx_trace s) (fx_log s) (fx_sb s) (fx_inodes s) (fx_files s) (fx_pipes s).
Definition set_fx_trace (v : list (Z * list Z)) (s : fsx) : fsx :=
  Fsx (fx_bufs s) (fx_sleep s) (fx_disk s) v (fx_log s) (fx_sb s) (fx_inodes s) (fx_files s) (fx_pipes s).
Definition set_fx_log (v : log) (s : fsx) : fsx :=
  Fsx (fx_bufs s) (fx_sleep s) (fx_disk s) (fx_trace s) v (fx_sb s) (fx_inodes s) (fx_files s) (fx_pipes s).
Definition set_fx_sb (v : superblock) (s : fsx) : fsx :=
  Fsx (fx_bufs s) (fx_sleep s) (fx_disk s) (fx_trace s) (fx_log s) v (fx_inodes s) (fx_files s) (fx_pipes s).
Definition set_fx_inodes (v : list inode) (s : fsx) : fsx :=
  Fsx (fx_bufs s) (fx_sleep s) (fx_disk s) (fx_trace s) (fx_log s) (fx_sb s) v (fx_files s) (fx_pipes s).
Definition set_fx_files (v : list file) (s : fsx) : fsx :=
  Fsx (fx_bufs s) (fx_sleep s) (fx_disk s) (fx_trace s) (fx_log s) (fx_sb s) (fx_inodes s) v (fx_pipes s).
Definition set_fx_pipes (v : gmap nat pipe) (s : fsx) : fsx :=
  Fsx (fx_bufs s) (fx_sleep s) (fx_disk s) (fx_trace s) (fx_log s) (fx_sb s) (fx_inodes s) (fx_files s) v.


#[global] Instance fsx_sleeplocks Xm : HasSleeplocks (Xm * fsx).
Proof.
  refine {| x_sleeplock n x := default (Sleeplock 0 0) (fx_sleep x.2 !! n);
            x_set_sleeplock n v x := (x.1, set_fx_sleep (<[n := v]> (fx_sleep x.2)) x.2) |}.
  - intros n v x. simpl. by rewrite lookup_insert_eq.
  - intros n v w x. unfold set_fx_sleep; simpl. by rewrite insert_insert_eq.
Defined.

#[global] Instance fsx_pipes : HasPipes fsx.
Proof. refine {| x_pipes := fx_pipes; x_set_pipes := set_fx_pipes |}; [done|done|by intros []]. Defined.

Section fs_access.
Context {Xm : Type}.
Notation M := (K (kstate (Xm * fsx))).

Definition fx (s : kstate (Xm * fsx)) : fsx := snd (k_ext s).
Definition set_fx (x : fsx) (s : kstate (Xm * fsx)) : kstate (Xm * fsx) := set_k_ext (fst (k_ext s), x) s.

Definition fgets {A} (f : fsx → A) : M A := kgets (λ s, f (fx s)).
Definition fmodify (f : fsx → fsx) : M unit := kmodify (λ s, set_fx (f (fx s)) s).

Definition get_buf (n : nat) : M buf :=
  o ← fgets (λ x, fx_bufs x !! n);
  match o with Some b => mret b | None => kundef "buffer pointer" end.

Definition alter_buf (n : nat) (f : buf → buf) : M unit :=
  fmodify (λ x, set_fx_bufs (alter f n (fx_bufs x)) x).

Definition get_inode (n : nat) : M inode :=
  o ← fgets (λ x, fx_inodes x !! n);
  match o with Some ip => mret ip | None => kundef "inode pointer" end.

Definition alter_inode (n : nat) (f : inode → inode) : M unit :=
  fmodify (λ x, set_fx_inodes (alter f n (fx_inodes x)) x).

Definition get_log : M log := fgets fx_log.
Definition alter_log (f : log → log) : M unit := fmodify (λ x, set_fx_log (f (fx_log x)) x).

End fs_access.

(** ** Calls without contention *)

Section calm.
Context {Xm : Type}.
Implicit Types (s : kstate (Xm * fsx)).

(** Process [cur] runs on CPU [i] with interrupts on and no spin lock held. *)
Record calm s (i : nat) (c : cpu) (cur : nat) (pr : proc) : Prop := Calm {
  cm_at : mach_at (k_mach s) i c;
  cm_ncli : ncli c = 0;
  cm_cur : cproc c = Some cur;
  cm_locks : locks (k_mach s) = ∅;
  cm_rest : at_rest s i c;
  cm_proc : k_ptable s !! cur = Some pr;
  cm_run : p_state pr = RUNNING;
  cm_len : length (k_ptable s) = NPROC
}.

(** [s'] is [s] with [x] for the file system's state and some sleepers woken. *)
Definition becomes s (x : fsx) s' : Prop :=
  ∃ tab, s' = set_k_ptable tab (set_fx x s) ∧ length tab = length (k_ptable s)
    ∧ ∀ j p, k_ptable s !! j = Some p → p_state p ≠ SLEEPING → tab !! j = Some p.

Lemma becomes_intro s x : becomes s x (set_fx x s).
Proof. exists (k_ptable s). split; [|by split]. by destruct s. Qed.

Lemma set_fx_id s : set_fx (fx s) s = s.
Proof. destruct s as [?????????[]]. done. Qed.

Lemma set_fx_set x y s : set_fx x (set_fx y s) = set_fx x s.
Proof. done. Qed.

Lemma fx_set x s : fx (set_fx x s) = x.
Proof. done. Qed.

Lemma becomes_refl s : becomes s (fx s) s.
Proof. pose proof (becomes_intro s (fx s)) as H. by rewrite set_fx_id in H. Qed.

Lemma becomes_trans s x s1 y s2 : becomes s x s1 → becomes s1 y s2 → becomes s y s2.
Proof.
  intros (t1 & -> & L1 & H1) (t2 & -> & L2 & H2). exists t2. split; [done|]. kproj. split.
  - rewrite L2. by kproj.
  - intros j p Hp Hs. by apply H2, Hs; apply H1.
Qed.

Lemma becomes_fx s x s' : becomes s x s' → fx s' = x.
Proof. by intros (t & -> & _). Qed.

Lemma becomes_mach s x s' : becomes s x s' → k_mach s' = k_mach s.
Proof. by intros (t & -> & _). Qed.

Lemma becomes_calm s x s' i c cur pr : becomes s x s' → calm s i c cur pr → calm s' i c cur pr.
Proof.
  intros Hb [H1 H2 H3 H4 H5 H6 H7 H8]. pose proof (becomes_mach _ _ _ Hb) as E.
  destruct Hb as (t & -> & L & Ht). split; rewrite ?E; try done.
  - apply Ht; [done|]. by rewrite H7.
  - by rewrite <- H8.
Qed.

Lemma becomes_modify s x s' y : becomes s x s' → becomes s y (set_fx y s').
Proof. intros H. eapply becomes_trans; [done|]. apply becomes_intro. Qed.

Lemma bind_fgets {A B} (f : fsx → A) (k : A → K (kstate (Xm * fsx)) B) s : (fgets f ≫= k) s = k (f (fx s)) s.
Proof. exact (bind_kgets (λ s, f (fx s)) k s). Qed.

Lemma bind_fmodify {B} f (k : unit → K (kstate (Xm * fsx)) B) s :
  (fmodify f ≫= k) s = k tt (set_fx (f (fx s)) s).
Proof. exact (bind_kmodify (λ s, set_fx (f (fx s)) s) k s). Qed.

Lemma bind_initlock {B} l (k : unit → K (kstate (Xm * fsx)) B) s :
  (initlock l ≫= k) s = k tt (set_k_mach (set_lock l unlocked (k_mach s)) s).
Proof. done. Qed.

Lemma bind_alter_buf {B} n f (k : unit → K (kstate (Xm * fsx)) B) s :
  (alter_buf n f ≫= k) s = k tt (set_fx (set_fx_bufs (alter f n (fx_bufs (fx s))) (fx s)) s).
Proof. exact (bind_fmodify _ k s). Qed.

Lemma get_buf_ok n b s : fx_bufs (fx s) !! n = Some b → get_buf n s = Ok b s.
Proof. intros H. unfold get_buf. by rewrite bind_fgets, H. Qed.

Lemma bind_get_buf {B} n b (k : buf → K (kstate (Xm * fsx)) B) s :
  fx_bufs (fx s) !! n = Some b → (get_buf n ≫= k) s = k b s.
Proof. intros H. by rewrite (bind_ok _ _ _ _ _ (get_buf_ok n b s H)). Qed.

Lemma get_inode_ok n ip s : fx_inodes (fx s) !! n = Some ip → get_inode n s = Ok ip s.
Proof. intros H. unfold get_inode. by rewrite bind_fgets, H. Qed.

Lemma bind_get_inode {B} n ip (k : inode → K (kstate (Xm * fsx)) B) s :
  fx_inodes (fx s) !! n = Some ip → (get_inode n ≫= k) s = k ip s.
Proof. intros H. by rewrite (bind_ok _ _ _ _ _ (get_inode_ok n ip s H)). Qed.

(** Entering and leaving a critical section. *)
Lemma calm_lock l s i c cur pr : calm s i c cur pr → can_lock l s i c.
Proof. intros []. split; [done|lia|]. by rewrite cm_locks0. Qed.

Lemma calm_acquire {B} l (k : unit → K (kstate (Xm * fsx)) B) s i c cur pr :
  calm s i c cur pr → (acquire l ≫= k) s = k tt (set_k_mach (acquired l i c (k_mach s)) s).
Proof. intros H. destruct (calm_lock l _ _ _ _ _ H). by apply bind_acquire; [|lia|]. Qed.

Lemma calm_release {B} l (k : unit → K (kstate (Xm * fsx)) B) s s1 i c cur pr :
  calm s i c cur pr → k_mach s1 = acquired l i c (k_mach s) →
  (release l ≫= k) s1 = k tt (set_k_mach (k_mach s) s1).
Proof.
  intros H E. destruct (calm_lock l _ _ _ _ _ H). rewrite (bind_release l k (k_mach s) i c) by (done || lia).
  by rewrite <- (cm_rest _ _ _ _ _ H).
Qed.

Lemma calm_release_end l s s1 i c cur pr :
  calm s i c cur pr → k_mach s1 = acquired l i c (k_mach s) → release l s1 = Ok tt (set_k_mach (k_mach s) s1).
Proof.
  intros H E. destruct (calm_lock l _ _ _ _ _ H). rewrite (krelease_acquired l (k_mach s) s1 i c) by (done || lia).
  by rewrite <- (cm_rest _ _ _ _ _ H).
Qed.

(** Sleep locks. *)
Lemma calm_calling n s i c cur pr : calm s i c cur pr → calling n s i c cur pr.
Proof. intros H. pose proof (calm_lock (L_sleep n) _ _ _ _ _ H). destruct H. split; try done. by rewrite cm_locks0. Qed.

Definition sleeping (x : fsx) (n : nat) : sleeplock := default (Sleeplock 0 0) (fx_sleep x !! n).
Definition put_sleep (n : nat) (v : sleeplock) (x : fsx) : fsx := set_fx_sleep (<[n := v]> (fx_sleep x)) x.

Lemma calm_acquiresleep fuel n s i c cur pr :
  calm s i c cur pr → sl_locked (sleeping (fx s) n) = 0 →
  acquiresleep (S fuel) n s = Ok tt (set_fx (put_sleep n (Sleeplock 1 (p_pid pr)) (fx s)) s).
Proof.
  intros H Hl. destruct (calling_enter n s i c cur pr (calm_calling _ _ _ _ _ _ H)) as (Ha & _).
  unfold acquiresleep. rewrite (bind_ok _ _ _ _ _ Ha). change (sl_locked (the_sleeplock n s) = 0) in Hl.
  rewrite (acquiresleep_take n fuel s _ i c cur pr (calm_calling _ _ _ _ _ _ H) eq_refl Hl).
  by rewrite <- (cm_rest _ _ _ _ _ H).
Qed.

Lemma calm_holdingsleep n s i c cur pr :
  calm s i c cur pr → holdingsleep n s = Ok (holder (sleeping (fx s) n) pr) s.
Proof.
  intros H. rewrite (holdingsleep_run n s i c cur pr) by by apply calm_calling.
  by rewrite <- (cm_rest _ _ _ _ _ H), set_mach_id.
Qed.

Lemma wake_running ch p : p_state p ≠ SLEEPING → wake ch p = p.
Proof. intros H. unfold wake. by rewrite bool_decide_eq_false_2. Qed.

Lemma becomes_wake ch s x : becomes s x (set_k_ptable (map (wake ch) (k_ptable s)) (set_fx x s)).
Proof.
  eexists. split; [done|]. split; [apply length_map|]. intros j p Hp Hs.
  change (map ?f ?l) with (f <$> l). rewrite list_lookup_fmap, Hp. simpl. by rewrite wake_running.
Qed.

Lemma calm_releasesleep n s i c cur pr :
  calm s i c cur pr → holder (sleeping (fx s) n) pr = true →
  ∃ s', releasesleep n s = Ok tt s' ∧ becomes s (put_sleep n (Sleeplock 0 0) (fx s)) s'.
Proof.
  intros H Hh. rewrite (releasesleep_run n s i c cur pr) by by apply calm_calling.
  change (the_sleeplock n s) with (sleeping (fx s) n). rewrite Hh. eexists. split; [done|].
  rewrite <- (cm_rest _ _ _ _ _ H). kproj.
  replace (set_k_mach (k_mach s) _) with (set_k_ptable (map (wake (Some (Chan_sleeplock n))) (k_ptable s))
    (set_fx (put_sleep n (Sleeplock 0 0) (fx s)) s)) by by destruct s.
  apply becomes_wake.
Qed.

End calm.
