(* ===== verification/Bio.v ===== *)
(** * The buffer cache

    Models [bio.c] and the memory disk of [memide.c].  The list of buffers in
    order of use is the doubly linked list the code keeps, with [head] for
    [bcache.head]; [slp] bounds how often [acquiresleep] may sleep. *)

From S2P Require Import Prelude Spinlock State PrioLock Sched Proc Sleep Sleeplock Pipe FsState.

Definition head : nat := NBUF.

Section bio_ops.
Context {Xm : Type} (slp : nat).
Notation M := (K (kstate (Xm * fsx))).

Definition binit : M unit :=
  initlock L_bcache;;
  alter_buf head (set_b_prev head);;
  alter_buf head (set_b_next head);;
  kfor_ (seq 0 NBUF) (λ b,
    h ← get_buf head;
    alter_buf b (set_b_next (b_next h));;
    alter_buf b (set_b_prev head);;
    initsleeplock b;;
    h ← get_buf head;
    alter_buf (b_next h) (set_b_prev b);;
    alter_buf head (set_b_next b)).

(** The two loops of [bget], from buffer [b] on. *)
Fixpoint bget_find (fuel : nat) (b : nat) (dev blockno : Z) : M (option nat) :=
  match fuel with
  | O => knofuel
  | S fuel' =>
      if (b =? head)%nat then mret None else
      bf ← get_buf b;
      if (b_dev bf =? dev) && (b_blockno bf =? blockno) then mret (Some b)
      else bget_find fuel' (b_next bf) dev blockno
  end.

Fixpoint bget_recycle (fuel : nat) (b : nat) : M (option nat) :=
  match fuel with
  | O => knofuel
  | S fuel' =>
      if (b =? head)%nat then mret None else
      bf ← get_buf b;
      if (b_refcnt bf =? 0) && (Z.land (b_flags bf) B_DIRTY =? 0) then mret (Some b)
      else bget_recycle fuel' (b_prev bf)
  end.

Definition bget (dev blockno : Z) : M nat :=
  acquire L_bcache;;
  h ← get_buf head;
  o ← bget_find (S NBUF) (b_next h) dev blockno;
  match o with
  | Some b =>
      alter_buf b (λ bf, set_b_refcnt (u32 (b_refcnt bf + 1)) bf);;
      release L_bcache;;
      acquiresleep slp b;;
      mret b
  | None =>
      h ← get_buf head;
      o ← bget_recycle (S NBUF) (b_prev h);
      match o with
      | Some b =>
          alter_buf b (λ bf, set_b_refcnt 1 (set_b_flags 0 (set_b_blockno blockno (set_b_dev dev bf))));;
          release L_bcache;;
          acquiresleep slp b;;
          mret b
      | None => kpanic "bget: no buffers"
      end
  end.

(** [memide.c]: the disk is memory, the transfer is a copy. *)
Definition iderw (b : nat) : M unit :=
  held ← holdingsleep b;
  if negb held then kpanic "iderw: buf not locked" else
  bf ← get_buf b;
  if Z.land (b_flags bf) (Z.lor B_VALID B_DIRTY) =? B_VALID then kpanic "iderw: nothing to do" else
  if negb (b_dev bf =? 1) then kpanic "iderw: request not for disk 1" else
  disk ← fgets fx_disk;
  if Z.of_nat (length disk) <=? b_blockno bf then kpanic "iderw: block out of range" else
  (if negb (Z.land (b_flags bf) B_DIRTY =? 0) then
     alter_buf b (λ bf, set_b_flags (Z.land (b_flags bf) (Z.lnot B_DIRTY)) bf);;
     fmodify (λ x, set_fx_trace ((b_blockno bf, b_data bf) :: fx_trace x)
                     (set_fx_disk (<[Z.to_nat (b_blockno bf) := b_data bf]> (fx_disk x)) x))
   else
     match disk !! Z.to_nat (b_blockno bf) with
     | Some p => alter_buf b (set_b_data p)
     | None => kundef "memdisk"
     end);;
  alter_buf b (λ bf, set_b_flags (Z.lor (b_flags bf) B_VALID) bf).

Definition bread (dev blockno : Z) : M nat :=
  b ← bget dev blockno;
  bf ← get_buf b;
  (if Z.land (b_flags bf) B_VALID =? 0 then iderw b else mret tt);;
  mret b.

Definition bwrite (b : nat) : M unit :=
  held ← holdingsleep b;
  if negb held then kpanic "bwrite" else
  alter_buf b (λ bf, set_b_flags (Z.lor (b_flags bf) B_DIRTY) bf);;
  iderw b.

(** The end of [brelse]: move [b] to the front of the list. *)
Definition relink (b : nat) : M unit :=
  bf ← get_buf b;
  alter_buf (b_next bf) (set_b_prev (b_prev bf));;
  bf ← get_buf b;
  alter_buf (b_prev bf) (set_b_next (b_next bf));;
  h ← get_buf head;
  alter_buf b (set_b_next (b_next h));;
  alter_buf b (set_b_prev head);;
  h ← get_buf head;
  alter_buf (b_next h) (set_b_prev b);;
  alter_buf head (set_b_next b).

Definition brelse (b : nat) : M unit :=
  held ← holdingsleep b;
  if negb held then kpanic "brelse" else
  releasesleep b;;
  acquire L_bcache;;
  alter_buf b (λ bf, set_b_refcnt (u32 (b_refcnt bf - 1)) bf);;
  bf ← get_buf b;
  (if b_refcnt bf =? 0 then relink b else mret tt);;
  release L_bcache.

End bio_ops.

(** ** The list of buffers *)

Section lru.
Implicit Types (bs : list buf).

Definition nextf bs (n : nat) : option nat := b_next <$> bs !! n.
Definition prevf bs (n : nat) : option nat := b_prev <$> bs !! n.

(** Following [next] from [a] gives [l] and then [z], and [prev] leads back. *)
Fixpoint seg bs (a : nat) (l : list nat) (z : nat) : Prop :=
  match l with
  | [] => nextf bs a = Some z ∧ prevf bs z = Some a
  | n :: l' => nextf bs a = Some n ∧ prevf bs n = Some a ∧ seg bs n l' z
  end.

Lemma seg_app bs a l1 n l2 z : seg bs a (l1 ++ n :: l2) z ↔ seg bs a l1 n ∧ seg bs n l2 z.
Proof. revert a. induction l1 as [|m l1 IH]; intros a; simpl; [tauto|]. rewrite IH. tauto. Qed.

(** Only the links in between matter. *)
Lemma seg_ext bs bs' a l z :
  (∀ n, n ∈ a :: l → nextf bs' n = nextf bs n) → (∀ n, n ∈ l ++ [z] → prevf bs' n = prevf bs n) →
  seg bs a l z → seg bs' a l z.
Proof.
  revert a. induction l as [|n l IH]; intros a Hn Hp; simpl.
  - intros [H1 H2]. rewrite Hn, Hp by (by constructor). done.
  - intros (H1 & H2 & H3). rewrite Hn, Hp by (by left). split; [done|]. split; [done|].
    apply IH; [|intros m Hm; apply Hp; by right|done]. intros m Hm. apply Hn. by right.
Qed.

Lemma nextf_set_next bs k v n :
  nextf (alter (set_b_next v) k bs) n = if decide (n = k) then (λ _, v) <$> bs !! n else nextf bs n.
Proof.
  unfold nextf. destruct (decide (n = k)) as [->|Hne].
  - rewrite list_lookup_alter_eq. by destruct (bs !! k).
  - by rewrite list_lookup_alter_ne.
Qed.

Lemma prevf_set_prev bs k v n :
  prevf (alter (set_b_prev v) k bs) n = if decide (n = k) then (λ _, v) <$> bs !! n else prevf bs n.
Proof.
  unfold prevf. destruct (decide (n = k)) as [->|Hne].
  - rewrite list_lookup_alter_eq. by destruct (bs !! k).
  - by rewrite list_lookup_alter_ne.
Qed.

(** Updates of other fields leave the links alone. *)
Lemma nextf_alter bs f k n : (∀ b, b_next (f b) = b_next b) → nextf (alter f k bs) n = nextf bs n.
Proof.
  intros H. unfold nextf. destruct (decide (n = k)) as [->|Hne].
  - rewrite list_lookup_alter_eq. destruct (bs !! k); simpl; by rewrite ?H.
  - by rewrite list_lookup_alter_ne.
Qed.

Lemma prevf_alter bs f k n : (∀ b, b_prev (f b) = b_prev b) → prevf (alter f k bs) n = prevf bs n.
Proof.
  intros H. unfold prevf. destruct (decide (n = k)) as [->|Hne].
  - rewrite list_lookup_alter_eq. destruct (bs !! k); simpl; by rewrite ?H.
  - by rewrite list_lookup_alter_ne.
Qed.

Lemma nextf_set_prev bs k v n : nextf (alter (set_b_prev v) k bs) n = nextf bs n.
Proof. by apply nextf_alter. Qed.

Lemma prevf_set_next bs k v n : prevf (alter (set_b_next v) k bs) n = prevf bs n.
Proof. by apply prevf_alter. Qed.

Lemma seg_alter bs f k a l z :
  (∀ b, b_next (f b) = b_next b) → (∀ b, b_prev (f b) = b_prev b) → seg bs a l z → seg (alter f k bs) a l z.
Proof. intros H1 H2. apply seg_ext; intros n _; [by apply nextf_alter|by apply prevf_alter]. Qed.

(** Taking [b] out of the list, and putting it at the front. *)
Definition unlink bs (p n : nat) : list buf := alter (set_b_next n) p (alter (set_b_prev p) n bs).
Definition push_front bs (b n : nat) : list buf :=
  alter (set_b_next b) head (alter (set_b_prev b) n (alter (set_b_prev head) b (alter (set_b_next n) b bs))).

Lemma nextf_unlink bs p n m :
  is_Some (bs !! p) → nextf (unlink bs p n) m = if decide (m = p) then Some n else nextf bs m.
Proof.
  intros [b Hb]. unfold unlink. rewrite nextf_set_next. destruct (decide (m = p)) as [->|]; [|apply nextf_set_prev].
  destruct (decide (n = p)) as [->|]; [rewrite list_lookup_alter_eq|rewrite list_lookup_alter_ne by done]; by rewrite Hb.
Qed.

Lemma prevf_unlink bs p n m :
  is_Some (bs !! n) → prevf (unlink bs p n) m = if decide (m = n) then Some p else prevf bs m.
Proof.
  intros [b Hb]. unfold unlink. rewrite prevf_set_next, prevf_set_prev.
  destruct (decide (m = n)) as [->|]; [by rewrite Hb|done].
Qed.

Lemma nextf_push bs b n m :
  is_Some (bs !! head) → is_Some (bs !! b) → b ≠ head →
  nextf (push_front bs b n) m = if decide (m = head) then Some b else if decide (m = b) then Some n else nextf bs m.
Proof.
  intros [h Hh] [x Hb] Hne. unfold push_front. rewrite nextf_set_next. destruct (decide (m = head)) as [->|].
  - destruct (decide (n = head)) as [->|]; [rewrite list_lookup_alter_eq|rewrite list_lookup_alter_ne by done];
      rewrite !list_lookup_alter_ne, Hh by done; done.
  - rewrite !nextf_set_prev, nextf_set_next. destruct (decide (m = b)) as [->|]; [by rewrite Hb|done].
Qed.

Lemma prevf_push bs b n m :
  is_Some (bs !! n) → is_Some (bs !! b) → b ≠ n →
  prevf (push_front bs b n) m = if decide (m = n) then Some b else if decide (m = b) then Some head else prevf bs m.
Proof.
  intros [h Hh] [x Hb] Hne. unfold push_front. rewrite prevf_set_next, prevf_set_prev. destruct (decide (m = n)) as [->|].
  - rewrite !list_lookup_alter_ne, Hh by done. done.
  - rewrite prevf_set_prev. destruct (decide (m = b)) as [->|].
    + rewrite list_lookup_alter_eq, Hb. done.
    + apply prevf_set_next.
Qed.

Lemma seg_first bs a l z : seg bs a l z → nextf bs a = Some (default z (hd_error l)).
Proof. destruct l; simpl; tauto. Qed.

Lemma seg_last bs a l z : seg bs a l z → prevf bs z = Some (default a (list.last l)).
Proof.
  revert a. induction l as [|n l IH]; intros a; simpl; [tauto|]. intros (_ & _ & H). rewrite (IH _ H).
  destruct l; [done|]. f_equal. by destruct (list.last (_ :: _)) eqn:E; [|rewrite last_None in E].
Qed.

Lemma seg_is_Some bs a l z n : seg bs a l z → n ∈ a :: l ++ [z] → is_Some (bs !! n).
Proof.
  revert a. induction l as [|m l IH]; intros a; simpl.
  - intros [H1 H2] Hn. assert (n = a ∨ n = z) as [-> | ->] by set_solver.
    + unfold nextf in H1. destruct (bs !! a); [done|discriminate].
    + unfold prevf in H2. destruct (bs !! z); [done|discriminate].
  - intros (H1 & H2 & H3) Hn. apply elem_of_cons in Hn as [->|Hn]; [|by eapply IH].
    unfold nextf in H1. destruct (bs !! a); [done|discriminate].
Qed.

(** The segments on either side of the link that replaces [b]. *)
Lemma seg_unlink_left bs p n a l :
  is_Some (bs !! p) → is_Some (bs !! n) → seg bs a l p → p ∉ a :: l → n ∉ l ++ [p] → seg (unlink bs p n) a l p.
Proof.
  intros Sp Sn Hseg Ha Hl. eapply seg_ext; [| |exact Hseg]; intros y Hy.
  - rewrite nextf_unlink by done. by rewrite decide_False by congruence.
  - rewrite prevf_unlink by done. by rewrite decide_False by congruence.
Qed.

Lemma seg_unlink_right bs p n l z :
  is_Some (bs !! p) → is_Some (bs !! n) → seg bs n l z → p ∉ n :: l → n ∉ l ++ [z] → seg (unlink bs p n) n l z.
Proof.
  intros Sp Sn Hseg Ha Hl. eapply seg_ext; [| |exact Hseg]; intros y Hy.
  - rewrite nextf_unlink by done. by rewrite decide_False by congruence.
  - rewrite prevf_unlink by done. by rewrite decide_False by congruence.
Qed.

(** The neighbours of [b]. *)
Lemma seg_neighbours bs l1 b l2 :
  seg bs head (l1 ++ b :: l2) head → NoDup (head :: l1 ++ b :: l2) →
  let p := default head (list.last l1) in let n := default head (hd_error l2) in
  prevf bs b = Some p ∧ nextf bs b = Some n ∧ p ≠ b ∧ n ≠ b ∧ is_Some (bs !! p) ∧ is_Some (bs !! n)
  ∧ p ∉ l2 ∧ n ∉ l1.
Proof.
  intros Hs Hnd. cbv zeta. pose proof Hs as Hs0. apply seg_app in Hs as [H1 H2].
  rewrite (seg_last _ _ _ _ H1), (seg_first _ _ _ _ H2).
  assert (default head (list.last l1) ∈ head :: l1) as Hp.
  { destruct (list.last l1) eqn:E; [|by left]. right. by apply last_Some_elem_of. }
  assert (default head (hd_error l2) ∈ head :: l2) as Hn by (destruct l2; simpl; [by left|by right; left]).
  revert Hp Hn. generalize (default head (list.last l1)) as p. generalize (default head (hd_error l2)) as n. intros n p Hp Hn.
  apply list.NoDup_cons in Hnd as [Hh Hnd]. apply list.NoDup_app in Hnd as (_ & Nd & Nd2).
  apply list.NoDup_cons in Nd2 as [Hb _]. rewrite elem_of_app, elem_of_cons in Hh.
  rewrite elem_of_cons in Hp, Hn. setoid_rewrite elem_of_cons in Nd. split; [done|]. split; [done|].
  split; [naive_solver|]. split; [naive_solver|].
  split; [apply (seg_is_Some _ _ _ _ _ Hs0); rewrite !elem_of_cons, !elem_of_app; tauto|].
  split; [apply (seg_is_Some _ _ _ _ _ Hs0); rewrite !elem_of_cons, !elem_of_app, !elem_of_cons; tauto|].
  naive_solver.
Qed.

Lemma seg_unlink bs l1 b l2 :
  seg bs head (l1 ++ b :: l2) head → NoDup (head :: l1 ++ b :: l2) →
  seg (unlink bs (default head (list.last l1)) (default head (hd_error l2))) head (l1 ++ l2) head.
Proof.
  intros Hs Hnd. destruct (seg_neighbours bs l1 b l2 Hs Hnd) as (Hp & Hn & _ & _ & Sp & Sn & Hp2 & Hn1).
  apply seg_app in Hs as [H1 H2]. apply list.NoDup_cons in Hnd as [Hh Hnd]. rewrite elem_of_app, elem_of_cons in Hh.
  apply list.NoDup_app in Hnd as (Nd1 & _ & Nd2). apply list.NoDup_cons in Nd2 as [_ Nd2].
  set (p := default head (list.last l1)) in *. set (n := default head (hd_error l2)) in *.
  assert (nextf (unlink bs p n) p = Some n) as Fp by (rewrite nextf_unlink by done; by rewrite decide_True).
  assert (prevf (unlink bs p n) n = Some p) as Fn by (rewrite prevf_unlink by done; by rewrite decide_True).
  assert (seg (unlink bs p n) p l2 head) as Hright.
  { destruct l2 as [|m l2]; simpl in n; [done|]. change n with m in *. simpl. split; [done|]. split; [done|].
    apply list.NoDup_cons in Nd2 as [Hm Nd2]. apply seg_unlink_right; [done|done|apply H2|done|].
    rewrite elem_of_app, list_elem_of_singleton. rewrite elem_of_cons in Hh. naive_solver. }
  destruct (decide (l1 = [])) as [->|Hne]; [exact Hright|].
  destruct (exists_last Hne) as (l1' & q & ->). unfold p in *. rewrite last_snoc in *. cbn [default] in *.
  rewrite <- app_assoc. simpl. apply seg_app. apply list.NoDup_app in Nd1 as (Nd1 & Ndq & _).
  apply seg_app in H1 as [H1 _]. split; [|exact Hright]. apply seg_unlink_left; [done|done|done| |done].
  rewrite elem_of_cons. rewrite elem_of_app, list_elem_of_singleton in Hh. intros [->|Hq]; [tauto|].
  by apply (Ndq q Hq), list_elem_of_singleton.
Qed.

Lemma seg_push bs b l :
  seg bs head l head → b ∉ head :: l → is_Some (bs !! b) → NoDup (head :: l) →
  seg (push_front bs b (default head (hd_error l))) head (b :: l) head.
Proof.
  intros Hs Hb Sb Hnd. pose proof (seg_first _ _ _ _ Hs) as Hn. set (n := default head (hd_error l)) in *.
  assert (is_Some (bs !! head)) as Sh by (apply (seg_is_Some _ _ _ _ _ Hs); by left).
  assert (n ∈ head :: l) as Hnin by (unfold n; destruct l; simpl; [by left|by right; left]).
  assert (is_Some (bs !! n)) as Sn.
  { apply (seg_is_Some _ _ _ _ _ Hs). rewrite elem_of_cons in *. rewrite elem_of_app. tauto. }
  assert (b ≠ n) as Hbn by congruence. assert (b ≠ head) as Hbh by (intros ->; by apply Hb; left).
  assert (head ≠ b) as Hhb by done. simpl. rewrite nextf_push, prevf_push by done. rewrite decide_True by done.
  rewrite (decide_False (P := b = n)), decide_True by done. split; [done|]. split; [done|].
  assert (∀ m, m ≠ head → m ≠ b → nextf (push_front bs b n) m = nextf bs m) as Fn.
  { intros m H1 H2. rewrite nextf_push by done. by rewrite !decide_False by done. }
  assert (∀ m, m ≠ n → m ≠ b → prevf (push_front bs b n) m = prevf bs m) as Fp.
  { intros m H1 H2. rewrite prevf_push by done. by rewrite !decide_False by done. }
  assert (nextf (push_front bs b n) b = Some n) as Gb
    by (rewrite nextf_push by done; rewrite decide_False, decide_True by done; done).
  assert (prevf (push_front bs b n) n = Some b) as Gn by (rewrite prevf_push by done; by rewrite decide_True).
  destruct l as [|m l]; simpl in n; [done|]. change n with m in *. simpl. split; [done|]. split; [done|].
  destruct Hs as (_ & _ & Hs). apply list.NoDup_cons in Hnd as [Hh Hnd]. apply list.NoDup_cons in Hnd as [Hm _].
  rewrite !elem_of_cons in Hb. rewrite elem_of_cons in Hh. eapply seg_ext; [| |exact Hs]; intros y Hy.
  - apply Fn; rewrite elem_of_cons in Hy; naive_solver.
  - apply Fp; rewrite elem_of_app, list_elem_of_singleton in Hy; naive_solver.
Qed.

End lru.

(** ** The invariant of the cache *)

Definition is_block (b : Z) (bf : buf) : bool := (b_dev bf =? 1) && (b_blockno bf =? b).

Definition is_locked (x : fsx) (n : nat) : bool := negb (sl_locked (sleeping x n) =? 0).

(** One buffer: unused since the start, or holding block [b_blockno] of the disk;
    unlocked and clean it is a copy of the disk. *)
Record buf_ok (x : fsx) (n : nat) (bf : buf) : Prop := BufOk {
  bo_data : length (b_data bf) = Z.to_nat BSIZE;
  bo_ref : b_refcnt bf = if is_locked x n then 1 else 0;
  bo_state : (b_flags bf = 0 ∧ b_dev bf ≠ 1 ∧ is_locked x n = false)
    ∨ (b_dev bf = 1 ∧ 0 ≤ b_blockno bf < Z.of_nat (length (fx_disk x)) ∧ (b_flags bf = B_VALID ∨ b_flags bf = Z.lor B_VALID B_DIRTY));
  bo_clean : is_locked x n = false → b_flags bf = B_VALID → fx_disk x !! Z.to_nat (b_blockno bf) = Some (b_data bf)
}.

Record bio_wf (x : fsx) : Prop := BioWf {
  bw_len : length (fx_bufs x) = S NBUF;
  bw_lru : ∃ l, seg (fx_bufs x) head l head ∧ l ≡ₚ seq 0 NBUF;
  bw_buf : ∀ n bf, (n < NBUF)%nat → fx_bufs x !! n = Some bf → buf_ok x n bf;
  bw_uniq : ∀ n m b bf bf', (n < NBUF)%nat → (m < NBUF)%nat → fx_bufs x !! n = Some bf → fx_bufs x !! m = Some bf' →
    is_block b bf = true → is_block b bf' = true → n = m;
  bw_disk : ∀ n blk, fx_disk x !! n = Some blk → length blk = Z.to_nat BSIZE
}.

(** Where block [b] is cached, and what reading it gives. *)
Definition cached (x : fsx) (b : Z) : option nat := find_index (is_block b) (take NBUF (fx_bufs x)).

Definition view (x : fsx) (b : Z) : option (list Z) :=
  match cached x b with
  | Some n => b_data <$> fx_bufs x !! n
  | None => fx_disk x !! Z.to_nat b
  end.

(** Buffers that cannot be recycled. *)
Definition busy (bf : buf) : bool := negb ((b_refcnt bf =? 0) && (Z.land (b_flags bf) B_DIRTY =? 0)).

(** Process [pid] has block [b] locked in buffer [n]. *)
Definition holds (x : fsx) (pid : Z) (n : nat) (b : Z) : Prop :=
  (n < NBUF)%nat ∧ sleeping x n = Sleeplock 1 pid ∧ ∃ bf, fx_bufs x !! n = Some bf ∧ is_block b bf = true.

Lemma is_block_spec b bf : is_block b bf = true ↔ b_dev bf = 1 ∧ b_blockno bf = b.
Proof. unfold is_block. by rewrite andb_true_iff, !Z.eqb_eq. Qed.

Lemma cached_Some x b n :
  bio_wf x → (n < NBUF)%nat → (∃ bf, fx_bufs x !! n = Some bf ∧ is_block b bf = true) ↔ cached x b = Some n.
Proof.
  intros Hw Hn. unfold cached. split.
  - intros (bf & Hbf & Hb). apply find_index_intro with bf; [by rewrite lookup_take_lt|done|].
    intros m bf' Hm Hbf'. rewrite lookup_take_lt in Hbf' by lia. destruct (is_block b bf') eqn:E; [|done].
    pose proof (bw_uniq x Hw m n b bf' bf ltac:(lia) Hn Hbf' Hbf E Hb). lia.
  - intros (bf & Hbf & Hb & _)%find_index_Some. rewrite lookup_take_lt in Hbf by lia. by exists bf.
Qed.

Lemma cached_lt x b n : cached x b = Some n → (n < NBUF)%nat.
Proof. intros H%find_index_lt. rewrite length_take in H. lia. Qed.

Lemma cached_None x b :
  cached x b = None → ∀ n bf, (n < NBUF)%nat → fx_bufs x !! n = Some bf → is_block b bf = false.
Proof.
  intros H n bf Hn Hbf. unfold cached in H. rewrite find_index_None in H. apply H.
  apply list_elem_of_lookup_2 with n. by rewrite lookup_take_lt.
Qed.

(** ** Walking the list *)

Section walk.
Context {Xm : Type}.
Implicit Types (s : kstate (Xm * fsx)).

(** The first buffer of [l] that satisfies [P]. *)
Fixpoint walk (bs : list buf) (P : buf → bool) (l : list nat) : option nat :=
  match l with
  | [] => None
  | n :: l' => if default false (P <$> bs !! n) then Some n else walk bs P l'
  end.

Lemma walk_Some bs P l n : walk bs P l = Some n → n ∈ l ∧ ∃ bf, bs !! n = Some bf ∧ P bf = true.
Proof.
  induction l as [|m l IH]; simpl; [done|]. destruct (default false (P <$> bs !! m)) eqn:E.
  - intros [= ->]. split; [by left|]. destruct (bs !! n); simpl in E; [eauto|done].
  - intros H. destruct (IH H). split; [by right|done].
Qed.

Lemma walk_None bs P l : walk bs P l = None → ∀ n bf, n ∈ l → bs !! n = Some bf → P bf = false.
Proof.
  induction l as [|m l IH]; simpl; [by intros _ n bf ?%elem_of_nil|]. destruct (default false (P <$> bs !! m)) eqn:E; [done|].
  intros H n bf [->|Hn]%elem_of_cons Hbf; [|by eapply IH]. by rewrite Hbf in E.
Qed.

Lemma bget_find_ok b s l : ∀ fuel a,
  seg (fx_bufs (fx s)) a l head → head ∉ l → (length l < fuel)%nat →
  bget_find fuel (default head (hd_error l)) 1 b s = Ok (walk (fx_bufs (fx s)) (is_block b) l) s.
Proof.
  induction l as [|n l IH]; intros fuel a Hs Hh Hf; (destruct fuel as [|fuel]; [simpl in Hf; lia|]); cbn [bget_find].
  - done.
  - simpl. rewrite elem_of_cons in Hh. destruct (Nat.eqb_spec n head) as [->|Hne]; [tauto|].
    simpl in Hs. destruct Hs as (_ & Hp & Hs). unfold prevf in Hp. destruct (fx_bufs (fx s) !! n) as [bf|] eqn:Hbf; [|done].
    rewrite (bind_get_buf n bf) by done. simpl. change ((b_dev bf =? 1) && (b_blockno bf =? b)) with (is_block b bf).
    destruct (is_block b bf); [done|].
    pose proof (seg_first _ _ _ _ Hs) as Hn. unfold nextf in Hn. rewrite Hbf in Hn. injection Hn as Hn. rewrite Hn.
    apply IH with n; [done|tauto|simpl in Hf; lia].
Qed.

Lemma bget_recycle_ok s l : ∀ fuel z,
  seg (fx_bufs (fx s)) head l z → head ∉ l → (length l < fuel)%nat →
  bget_recycle fuel (default head (list.last l)) s = Ok (walk (fx_bufs (fx s)) (λ bf, negb (busy bf)) (rev l)) s.
Proof.
  induction l as [|n l IH] using rev_ind; intros fuel z Hs Hh Hf; (destruct fuel as [|fuel]; [simpl in Hf; lia|]); cbn [bget_recycle].
  - done.
  - rewrite last_snoc. simpl. rewrite elem_of_app, list_elem_of_singleton in Hh. destruct (Nat.eqb_spec n head) as [->|Hne]; [tauto|].
    apply seg_app in Hs as [Hs1 Hs2]. pose proof (seg_last _ _ _ _ Hs1) as Hl. unfold prevf in Hl.
    destruct (fx_bufs (fx s) !! n) as [bf|] eqn:Hbf; [|done]. injection Hl as Hl.
    rewrite (bind_get_buf n bf) by done. rewrite rev_app_distr. simpl. rewrite Hbf. simpl. unfold busy at 1. rewrite negb_involutive.
    destruct (_ && _); [done|]. rewrite Hl. apply IH with n; [done|tauto|rewrite length_app in Hf; simpl in Hf; lia].
Qed.

End walk.

(** ** Getting a buffer *)

Section bget.
Context {Xm : Type}.
Implicit Types (s : kstate (Xm * fsx)).

Lemma lru_facts l : l ≡ₚ seq 0 NBUF → NoDup (head :: l) ∧ length l = NBUF ∧ ∀ n, n ∈ l ↔ (n < NBUF)%nat.
Proof.
  intros Hl. assert (∀ n, n ∈ l ↔ (n < NBUF)%nat) as Hin by (intros n; rewrite Hl, elem_of_seq; lia).
  split; [|split; [by rewrite Hl, length_seq|done]].
  apply list.NoDup_cons. rewrite Hin. split; [unfold head; lia|]. rewrite Hl. apply NoDup_ListNoDup, seq_NoDup.
Qed.

Lemma walk_cached x l b : bio_wf x → l ≡ₚ seq 0 NBUF → walk (fx_bufs x) (is_block b) l = cached x b.
Proof.
  intros Hw Hl. destruct (lru_facts l Hl) as (_ & _ & Hin). destruct (walk _ _ _) as [n|] eqn:E.
  - apply walk_Some in E as [Hn Hb]. symmetry. apply cached_Some; [done|by apply Hin|done].
  - destruct (cached x b) as [n|] eqn:C; [|done]. exfalso. pose proof (cached_lt _ _ _ C) as Hn.
    apply cached_Some in C as (bf & Hbf & Hb); [|done|done].
    rewrite (walk_None _ _ _ E n bf) in Hb; [done|by apply Hin|done].
Qed.

(** A buffer for block [b] is to be had. *)
Definition available (x : fsx) (b : Z) : Prop :=
  match cached x b with
  | Some n => is_locked x n = false
  | None => ∃ n bf, (n < NBUF)%nat ∧ fx_bufs x !! n = Some bf ∧ busy bf = false
  end.

Definition recycled (b : Z) (bf : buf) : buf := set_b_refcnt 1 (set_b_flags 0 (set_b_blockno b (set_b_dev 1 bf))).

Definition put_buf (n : nat) (bf : buf) (x : fsx) : fsx := set_fx_bufs (<[n := bf]> (fx_bufs x)) x.

Lemma idle_unlocked x n bf : buf_ok x n bf → busy bf = false → is_locked x n = false.
Proof.
  intros Hok Hb. unfold busy in Hb. rewrite negb_false_iff, andb_true_iff, Z.eqb_eq in Hb. destruct Hb as [Hb _].
  rewrite (bo_ref _ _ _ Hok) in Hb. by destruct (is_locked x n).
Qed.

Lemma alter_buf_run {B} n f bf (k : unit → K (kstate (Xm * fsx)) B) s :
  fx_bufs (fx s) !! n = Some bf → (alter_buf n f ≫= k) s = k tt (set_fx (put_buf n (f bf) (fx s)) s).
Proof. intros H. unfold alter_buf. rewrite bind_fmodify. by rewrite (list_alter_as_insert f _ _ _ H). Qed.

Lemma alter_buf_ok n f bf s :
  fx_bufs (fx s) !! n = Some bf → alter_buf n f s = Ok tt (set_fx (put_buf n (f bf) (fx s)) s).
Proof. intros H. unfold alter_buf, fmodify, kmodify. by rewrite (list_alter_as_insert f _ _ _ H). Qed.

Lemma bget_ok slp b s i c cur pr :
  calm s i c cur pr → bio_wf (fx s) → available (fx s) b →
  ∃ n bf bf', (n < NBUF)%nat ∧ fx_bufs (fx s) !! n = Some bf ∧ is_locked (fx s) n = false
    ∧ ((cached (fx s) b = Some n ∧ bf' = set_b_refcnt 1 bf)
       ∨ (cached (fx s) b = None ∧ busy bf = false ∧ bf' = recycled b bf))
    ∧ bget (S slp) 1 b s = Ok n (set_fx (put_sleep n (Sleeplock 1 (p_pid pr)) (put_buf n bf' (fx s))) s).
Proof.
  intros Hc Hw Hav. destruct (bw_lru _ Hw) as (l & Hs & Hl). destruct (lru_facts l Hl) as (Hnd & Hlen & Hin).
  apply list.NoDup_cons in Hnd as [Hh _].
  unfold bget. rewrite (calm_acquire _ _ s i c cur pr Hc). set (s1 := set_k_mach _ s).
  pose proof (seg_first _ _ _ _ Hs) as Hf. pose proof (seg_last _ _ _ _ Hs) as Hla. unfold nextf, prevf in Hf, Hla.
  destruct (fx_bufs (fx s) !! head) as [h|] eqn:Hhd; [|done]. injection Hf as Hf. injection Hla as Hla.
  rewrite (bind_get_buf head h) by done. rewrite Hf.
  rewrite (bind_ok _ _ _ _ _ (bget_find_ok b s1 l (S NBUF) head Hs Hh ltac:(lia))).
  change (fx_bufs (fx s1)) with (fx_bufs (fx s)). rewrite walk_cached by done.
  assert (∀ n bf', is_locked (fx s) n = false →
    (release L_bcache;; acquiresleep (S slp) n;; mret n) (set_fx (put_buf n bf' (fx s)) s1)
    = Ok n (set_fx (put_sleep n (Sleeplock 1 (p_pid pr)) (put_buf n bf' (fx s))) s)) as Hfin.
  { intros n bf' Hlk. rewrite (calm_release L_bcache _ s _ i c cur pr Hc) by done.
    replace (set_k_mach (k_mach s) (set_fx (put_buf n bf' (fx s)) s1)) with (set_fx (put_buf n bf' (fx s)) s) by by destruct s.
    erewrite bind_ok; [|eapply (calm_acquiresleep slp n _ i c cur pr)]; [done| |].
    - eapply becomes_calm; [apply becomes_intro|done].
    - unfold is_locked in Hlk. change (sleeping (fx (set_fx _ s)) n) with (sleeping (fx s) n).
      destruct (Z.eqb_spec (sl_locked (sleeping (fx s) n)) 0); done. }
  unfold available in Hav. destruct (cached (fx s) b) as [n|] eqn:C.
  - pose proof (cached_lt _ _ _ C) as Hn. destruct (proj2 (cached_Some _ b n Hw Hn) C) as (bf & Hbf & Hb).
    exists n, bf, (set_b_refcnt 1 bf). do 3 (split; [done|]). split; [by left|].
    rewrite (alter_buf_run n _ bf) by done. rewrite (bo_ref _ _ _ (bw_buf _ Hw n bf Hn Hbf)), Hav. by apply Hfin.
  - rewrite (bind_get_buf head h) by done. rewrite Hla.
    rewrite (bind_ok _ _ _ _ _ (bget_recycle_ok s1 l (S NBUF) head Hs Hh ltac:(lia))).
    change (fx_bufs (fx s1)) with (fx_bufs (fx s)). destruct (walk _ _ (rev l)) as [n|] eqn:E.
    + apply walk_Some in E as [Hn (bf & Hbf & Hb)]. apply negb_true_iff in Hb. 
      rewrite list_elem_of_In, <- in_rev, <- list_elem_of_In in Hn. apply Hin in Hn.
      pose proof (idle_unlocked _ _ _ (bw_buf _ Hw n bf Hn Hbf) Hb) as Hlk.
      exists n, bf, (recycled b bf). do 3 (split; [done|]). split; [by right|].
      rewrite (alter_buf_run n _ bf) by done. by apply Hfin.
    + destruct Hav as (n & bf & Hn & Hbf & Hb). pose proof (walk_None _ _ _ E n bf) as H.
      simpl in H. rewrite Hb in H. discriminate H; [|done]. rewrite list_elem_of_In, <- in_rev, <- list_elem_of_In. by apply Hin.
Qed.

End bget.

(** ** Changing one buffer *)

Lemma seg_links bs n bf bf' a l z :
  bs !! n = Some bf → b_prev bf' = b_prev bf → b_next bf' = b_next bf →
  seg bs a l z → seg (<[n := bf']> bs) a l z.
Proof.
  intros Hbf Hp Hn. pose proof (lookup_lt_Some _ _ _ Hbf) as Hlt.
  apply seg_ext; intros m _; unfold nextf, prevf; (destruct (decide (m = n)) as [->|Hne];
    [by rewrite list_lookup_insert_eq, Hbf; simpl; congruence|by rewrite list_lookup_insert_ne]).
Qed.

(** [x'] is [x] with buffer [n] changed from [bf] to [bf'], and possibly its lock
    and the block of the disk it is for. *)
Record buf_step (x x' : fsx) (n : nat) (bf bf' : buf) : Prop := BufStep {
  bs_lt : (n < NBUF)%nat;
  bs_old : fx_bufs x !! n = Some bf;
  bs_new : fx_bufs x' = <[n := bf']> (fx_bufs x);
  bs_prev : b_prev bf' = b_prev bf;
  bs_next : b_next bf' = b_next bf;
  bs_lock : ∀ m, m ≠ n → sleeping x' m = sleeping x m;
  bs_dlen : length (fx_disk x') = length (fx_disk x);
  bs_disk : ∀ k, fx_disk x' !! k = fx_disk x !! k ∨ (fx_disk x' !! k = Some (b_data bf') ∧ is_block (Z.of_nat k) bf = true)
}.

Lemma bs_other x x' n bf bf' m : buf_step x x' n bf bf' → m ≠ n → fx_bufs x' !! m = fx_bufs x !! m.
Proof. intros H Hm. by rewrite (bs_new _ _ _ _ _ H), list_lookup_insert_ne. Qed.

Lemma bs_this x x' n bf bf' : buf_step x x' n bf bf' → fx_bufs x' !! n = Some bf'.
Proof. intros H. rewrite (bs_new _ _ _ _ _ H), list_lookup_insert_eq; [done|]. eapply lookup_lt_Some, H. Qed.

Lemma is_locked_ext x x' m : sleeping x' m = sleeping x m → is_locked x' m = is_locked x m.
Proof. unfold is_locked. by intros ->. Qed.

Lemma bio_wf_step x x' n bf bf' :
  bio_wf x → buf_step x x' n bf bf' → buf_ok x' n bf' →
  (∀ b, is_block b bf' = true → is_block b bf = true ∨ cached x b = None) → bio_wf x'.
Proof.
  intros Hw Hs Hok Hu. pose proof (bs_this _ _ _ _ _ Hs) as Ht. pose proof (λ m, bs_other x x' n bf bf' m Hs) as Ho.
  split.
  - by rewrite (bs_new _ _ _ _ _ Hs), length_insert, (bw_len _ Hw).
  - destruct (bw_lru _ Hw) as (l & Hseg & Hl). exists l. split; [|done]. rewrite (bs_new _ _ _ _ _ Hs).
    eapply seg_links; [apply Hs|apply Hs|apply Hs|done].
  - intros m bm Hm Hbm. destruct (decide (m = n)) as [->|Hne]; [by rewrite Ht in Hbm; simplify_eq|].
    rewrite (Ho _ Hne) in Hbm. destruct (bw_buf _ Hw m bm Hm Hbm) as [H1 H2 H3 H4].
    pose proof (is_locked_ext _ _ _ (bs_lock _ _ _ _ _ Hs m Hne)) as El. split; rewrite ?El; [done|done| |].
    + by rewrite (bs_dlen _ _ _ _ _ Hs).
    + intros Hl Hf. specialize (H4 Hl Hf). destruct (bs_disk _ _ _ _ _ Hs (Z.to_nat (b_blockno bm))) as [->|[_ Hb]]; [done|].
      exfalso. apply Hne. destruct H3 as [(E & _)|(Hd & Hr & _)]; [by rewrite E in Hf|].
      eapply (bw_uniq _ Hw m n (b_blockno bm)); [done|apply Hs|done|apply Hs|by apply is_block_spec|].
      by rewrite Z2Nat.id in Hb by lia.
  - intros m1 m2 b b1 b2 H1 H2 L1 L2 E1 E2. destruct (decide (m1 = n)) as [->|N1], (decide (m2 = n)) as [->|N2]; [done| | |].
    + rewrite (Ho _ N2) in L2. rewrite Ht in L1. simplify_eq. destruct (Hu _ E1) as [Hb|Hc].
      * eapply (bw_uniq _ Hw); [apply Hs|exact H2|apply Hs|done|done|done].
      * by rewrite (cached_None _ _ Hc m2 b2) in E2.
    + rewrite (Ho _ N1) in L1. rewrite Ht in L2. simplify_eq. destruct (Hu _ E2) as [Hb|Hc].
      * eapply (bw_uniq _ Hw); [exact H1|apply Hs|done|apply Hs|done|done].
      * by rewrite (cached_None _ _ Hc m1 b1) in E1.
    + rewrite (Ho _ N1) in L1. rewrite (Ho _ N2) in L2. by eapply (bw_uniq _ Hw).
  - intros k blk Hk. destruct (bs_disk _ _ _ _ _ Hs k) as [E|[E _]]; rewrite E in Hk; [by eapply (bw_disk _ Hw)|].
    simplify_eq. apply Hok.
Qed.

Lemma view_step_this x x' n bf bf' b :
  bio_wf x' → buf_step x x' n bf bf' → is_block b bf' = true → cached x' b = Some n ∧ view x' b = Some (b_data bf').
Proof.
  intros Hw Hs Hb. pose proof (bs_this _ _ _ _ _ Hs) as Ht.
  assert (cached x' b = Some n) as Hc by (apply cached_Some; [done|apply Hs|by exists bf']).
  split; [done|]. unfold view. by rewrite Hc, Ht.
Qed.

Lemma view_step_other x x' n bf bf' b :
  bio_wf x → bio_wf x' → buf_step x x' n bf bf' → 0 ≤ b → is_block b bf' = false → is_block b bf = false →
  cached x' b = cached x b ∧ view x' b = view x b.
Proof.
  intros Hw Hw' Hs Hb0 Hb' Hb. pose proof (bs_this _ _ _ _ _ Hs) as Ht. pose proof (λ m, bs_other x x' n bf bf' m Hs) as Ho.
  assert (cached x' b = cached x b) as Hc.
  { destruct (cached x b) as [m|] eqn:C.
    - pose proof (cached_lt _ _ _ C) as Hm. apply cached_Some in C as (bm & Hbm & E); [|done|done].
      assert (m ≠ n) as Hne by (intros ->; rewrite (bs_old _ _ _ _ _ Hs) in Hbm; congruence).
      apply cached_Some; [done|done|]. exists bm. by rewrite (Ho _ Hne).
    - destruct (cached x' b) as [m|] eqn:C'; [|done]. exfalso. pose proof (cached_lt _ _ _ C') as Hm.
      apply cached_Some in C' as (bm & Hbm & E); [|done|done].
      destruct (decide (m = n)) as [->|Hne]; [congruence|]. rewrite (Ho _ Hne) in Hbm.
      by rewrite (cached_None _ _ C m bm) in E. }
  split; [done|]. unfold view. rewrite Hc. destruct (cached x b) as [m|] eqn:C.
  - pose proof (cached_lt _ _ _ C) as Hm. apply cached_Some in C as (bm & Hbm & E); [|done|done].
    assert (m ≠ n) as Hne by (intros ->; rewrite (bs_old _ _ _ _ _ Hs) in Hbm; congruence).
    by rewrite (Ho _ Hne).
  - destruct (bs_disk _ _ _ _ _ Hs (Z.to_nat b)) as [E|[_ E]]; [done|]. rewrite Z2Nat.id in E by done. congruence.
Qed.

(** ** Counting the buffers in use *)

Definition busy_in (bs : list buf) : nat := length (filter (λ bf, busy bf = true) bs).
Definition busy_count (x : fsx) : nat := busy_in (take NBUF (fx_bufs x)).

Lemma busy_in_insert bs n bf bf' :
  bs !! n = Some bf →
  (busy_in (<[n := bf']> bs) + (if busy bf then 1 else 0) = busy_in bs + (if busy bf' then 1 else 0))%nat.
Proof.
  revert n. induction bs as [|a bs IH]; intros [|n] H; simpl in *; try done.
  - simplify_eq. unfold busy_in. rewrite !filter_cons.
    destruct (busy bf), (busy bf'); repeat (destruct (decide _); try done); simpl; lia.
  - specialize (IH n H). unfold busy_in in *. rewrite !filter_cons. destruct (decide _); simpl; lia.
Qed.

Lemma busy_count_step x x' n bf bf' :
  buf_step x x' n bf bf' →
  (busy_count x' + (if busy bf then 1 else 0) = busy_count x + (if busy bf' then 1 else 0))%nat.
Proof.
  intros Hs. unfold busy_count. rewrite (bs_new _ _ _ _ _ Hs), take_insert_lt by apply Hs.
  apply busy_in_insert. rewrite lookup_take_lt by apply Hs. apply Hs.
Qed.

Lemma idle_exists x :
  bio_wf x → (busy_count x < NBUF)%nat → ∃ n bf, (n < NBUF)%nat ∧ fx_bufs x !! n = Some bf ∧ busy bf = false.
Proof.
  intros Hw Hc. unfold busy_count in Hc.
  assert (length (take NBUF (fx_bufs x)) = NBUF) as Hl by (rewrite length_take, (bw_len _ Hw); lia).
  destruct (decide (Forall (λ bf, busy bf = true) (take NBUF (fx_bufs x)))) as [Hall|Hn].
  - unfold busy_in in Hc. exfalso. revert Hc. rewrite <- Hl at 2. clear Hl. induction Hall as [|bf bs Hb _ IH]; simpl; [lia|].
    rewrite filter_cons, decide_True by done. simpl. lia.
  - apply not_Forall_Exists in Hn; [|apply _]. apply Exists_exists in Hn as (bf & Hin & Hb).
    apply list_elem_of_In, list_elem_of_lookup_1 in Hin as [n Hn]. pose proof (lookup_lt_Some _ _ _ Hn) as Hlt.
    exists n, bf. rewrite lookup_take_lt in Hn by lia. split; [lia|]. split; [done|].
    destruct (busy bf) eqn:E; [by destruct Hb|done].
Qed.

(** Is the cached copy of block [b] newer than the disk? *)
Definition is_dirty (bf : buf) : bool := negb (Z.land (b_flags bf) B_DIRTY =? 0).
Definition dirty (x : fsx) (b : Z) : bool :=
  match cached x b with
  | Some n => match fx_bufs x !! n with Some bf => is_dirty bf | None => false end
  | None => false
  end.

Lemma dirty_this x n bf b :
  bio_wf x → (n < NBUF)%nat → fx_bufs x !! n = Some bf → is_block b bf = true → dirty x b = is_dirty bf.
Proof.
  intros Hw Hn Hbf Hb. unfold dirty. rewrite (proj1 (cached_Some x b n Hw Hn)) by eauto. by rewrite Hbf.
Qed.

Lemma dirty_other x x' n bf bf' b :
  bio_wf x → bio_wf x' → buf_step x x' n bf bf' → 0 ≤ b → is_block b bf' = false → is_block b bf = false →
  dirty x' b = dirty x b.
Proof.
  intros Hw Hw' Hs H0 Hb' Hb. unfold dirty.
  destruct (view_step_other x x' n bf bf' b Hw Hw' Hs H0 Hb' Hb) as [-> _].
  destruct (cached x b) as [m|] eqn:C; [|done]. pose proof (cached_lt _ _ _ C) as Hm.
  apply cached_Some in C as (bm & Hbm & E); [|done|done].
  assert (m ≠ n) as Hne by (intros ->; rewrite (bs_old _ _ _ _ _ Hs) in Hbm; congruence).
  by rewrite (bs_other _ _ _ _ _ _ Hs Hne).
Qed.

(** ** The disk *)

Section iderw.
Context {Xm : Type}.
Implicit Types (s : kstate (Xm * fsx)).

Definition write_disk (b : Z) (blk : list Z) (x : fsx) : fsx :=
  set_fx_trace ((b, blk) :: fx_trace x) (set_fx_disk (<[Z.to_nat b := blk]> (fx_disk x)) x).

Lemma put_buf_put n bf bf' x : put_buf n bf' (put_buf n bf x) = put_buf n bf' x.
Proof. unfold put_buf, set_fx_bufs; simpl. by rewrite list_insert_insert_eq. Qed.

Lemma lookup_put_buf n bf bf' x : fx_bufs x !! n = Some bf → fx_bufs (put_buf n bf' x) !! n = Some bf'.
Proof. intros H. simpl. rewrite list_lookup_insert_eq; [done|]. by eapply lookup_lt_Some. Qed.

Lemma iderw_read n bf p s i c cur pr :
  calm s i c cur pr → holder (sleeping (fx s) n) pr = true → fx_bufs (fx s) !! n = Some bf →
  b_flags bf = 0 → b_dev bf = 1 → 0 ≤ b_blockno bf → fx_disk (fx s) !! Z.to_nat (b_blockno bf) = Some p →
  iderw n s = Ok tt (set_fx (put_buf n (set_b_flags B_VALID (set_b_data p bf)) (fx s)) s).
Proof.
  intros Hc Hh Hbf Hf Hd Hn Hp. unfold iderw. rewrite (bind_ok _ _ _ _ _ (calm_holdingsleep n s i c cur pr Hc)), Hh.
  cbn [negb]. rewrite (bind_get_buf n bf) by done. rewrite Hf, Hd.
  change (Z.land _ (Z.lor _ _) =? _) with false. change (negb (1 =? 1)) with false. cbv iota. rewrite bind_fgets.
  pose proof (lookup_lt_Some _ _ _ Hp). destruct (Z.leb_spec (Z.of_nat (length (fx_disk (fx s)))) (b_blockno bf)); [lia|].
  change (negb (Z.land _ B_DIRTY =? 0)) with false. cbv iota.
  rewrite Hp, (bind_ok _ _ _ _ _ (alter_buf_ok n (set_b_data p) bf s Hbf)).
  rewrite (alter_buf_ok n _ (set_b_data p bf)) by by apply (lookup_put_buf n bf).
  rewrite set_fx_set, fx_set, put_buf_put. change (b_flags (set_b_data p bf)) with (b_flags bf). by rewrite Hf.
Qed.

Lemma iderw_write n bf s i c cur pr :
  calm s i c cur pr → holder (sleeping (fx s) n) pr = true → fx_bufs (fx s) !! n = Some bf →
  b_flags bf = Z.lor B_VALID B_DIRTY → b_dev bf = 1 → b_blockno bf < Z.of_nat (length (fx_disk (fx s))) →
  iderw n s = Ok tt (set_fx (put_buf n (set_b_flags B_VALID bf) (write_disk (b_blockno bf) (b_data bf) (fx s))) s).
Proof.
  intros Hc Hh Hbf Hf Hd Hn. unfold iderw. rewrite (bind_ok _ _ _ _ _ (calm_holdingsleep n s i c cur pr Hc)), Hh.
  cbn [negb]. rewrite (bind_get_buf n bf) by done. rewrite Hf, Hd.
  change (Z.land _ (Z.lor _ _) =? _) with false. change (negb (1 =? 1)) with false. cbv iota. rewrite bind_fgets.
  destruct (Z.leb_spec (Z.of_nat (length (fx_disk (fx s)))) (b_blockno bf)); [lia|].
  change (negb (Z.land _ B_DIRTY =? 0)) with true. cbv iota.
  erewrite bind_ok; [|by rewrite (alter_buf_run n _ bf) by done].
  rewrite (alter_buf_ok n _ (set_b_flags B_VALID bf)).
  - rewrite !set_fx_set, !fx_set, Hf. do 2 f_equal. unfold put_buf, write_disk, set_fx_bufs, set_fx_disk, set_fx_trace. simpl.
    by rewrite list_insert_insert_eq.
  - rewrite Hf. cbn. rewrite list_lookup_insert_eq; [done|]. by eapply lookup_lt_Some.
Qed.

End iderw.

(** The block a recycled buffer was for is no longer cached. *)
Lemma view_step_gone x x' n bf bf' b :
  bio_wf x → bio_wf x' → buf_step x x' n bf bf' → is_block b bf = true → is_block b bf' = false →
  cached x' b = None ∧ view x' b = fx_disk x' !! Z.to_nat b.
Proof.
  intros Hw Hw' Hs Hb Hb'. assert (cached x' b = None) as Hc; [|split; [done|unfold view; by rewrite Hc]].
  destruct (cached x' b) as [m|] eqn:C; [|done]. exfalso. pose proof (cached_lt _ _ _ C) as Hm.
  apply cached_Some in C as (bm & Hbm & E); [|done|done].
  destruct (decide (m = n)) as [->|Hne]; [rewrite (bs_this _ _ _ _ _ Hs) in Hbm; congruence|].
  rewrite (bs_other _ _ _ _ _ _ Hs Hne) in Hbm. apply Hne.
  eapply (bw_uniq _ Hw m n b); [done|apply Hs|done|apply Hs|done|done].
Qed.

(** What a process that locked block [b] in buffer [n] has changed. *)
Record got (x x' : fsx) (pid : Z) (n : nat) (b : Z) : Prop := Got {
  gt_wf : bio_wf x';
  gt_rest : x' = set_fx_sleep (fx_sleep x') (set_fx_bufs (fx_bufs x') x);
  gt_free : is_locked x n = false;
  gt_holds : holds x' pid n b;
  gt_other : ∀ m, m ≠ n → sleeping x' m = sleeping x m ∧ fx_bufs x' !! m = fx_bufs x !! m;
  gt_view : ∀ b', 0 ≤ b' → view x' b' = view x b';
  gt_dirty : ∀ b', 0 ≤ b' → dirty x' b' = dirty x b';
  gt_busy : busy_count x' = (busy_count x + if dirty x b then 0 else 1)%nat
}.

Lemma sleeping_put_eq x n v : sleeping (put_sleep n v x) n = v.
Proof. unfold sleeping. simpl. by rewrite lookup_insert_eq. Qed.

Lemma sleeping_put_ne x n m v : m ≠ n → sleeping (put_sleep n v x) m = sleeping x m.
Proof. intros H. unfold sleeping. simpl. by rewrite lookup_insert_ne. Qed.

(** A buffer locked and possibly renamed: what remains to be checked. *)
Lemma got_intro x n bf bf' pid b :
  let x' := put_sleep n (Sleeplock 1 pid) (put_buf n bf' x) in
  bio_wf x → (n < NBUF)%nat → fx_bufs x !! n = Some bf → is_locked x n = false →
  b_prev bf' = b_prev bf → b_next bf' = b_next bf → length (b_data bf') = Z.to_nat BSIZE → b_refcnt bf' = 1 →
  is_block b bf' = true → 0 ≤ b < Z.of_nat (length (fx_disk x)) → view x b = Some (b_data bf') → dirty x b = is_dirty bf' →
  ((cached x b = Some n ∧ b_flags bf' = b_flags bf)
   ∨ (cached x b = None ∧ busy bf = false ∧ b_flags bf' = B_VALID)) →
  got x x' pid n b.
Proof.
  intros x' Hw Hn Hbf Hlk Hp Hx Hd Hr Hb Hb0 Hv Hdi Hcase.
  pose proof (bw_buf _ Hw n bf Hn Hbf) as Hok.
  assert (buf_step x x' n bf bf') as Hs.
  { split; try done; [|by left]. intros m Hm. exact (sleeping_put_ne (put_buf n bf' x) n m _ Hm). }
  assert (is_locked x' n = true) as Hlk' by (unfold is_locked, x'; by rewrite sleeping_put_eq).
  apply is_block_spec in Hb as [Hdev Hno].
  assert (b_flags bf' = B_VALID ∨ b_flags bf' = Z.lor B_VALID B_DIRTY) as Hfl.
  { destruct Hcase as [[C E]|(_ & _ & E)]; [|by left]. rewrite E.
    apply cached_Some in C as (bm & Hbm & Em); [|done|done]. rewrite Hbf in Hbm. simplify_eq.
    apply is_block_spec in Em as [Em _]. destruct (bo_state _ _ _ Hok) as [(_ & Hne & _)|(_ & _ & H)]; [congruence|done]. }
  assert (∀ b', is_block b' bf' = true → b' = b) as Hsame.
  { intros b' [_ E]%is_block_spec. congruence. }
  assert (bio_wf x') as Hw'.
  { apply (bio_wf_step x x' n bf bf'); [done|done| |].
    - split; [done|by rewrite Hlk'| |by rewrite Hlk'].
      right. split; [done|]. split; [|done]. rewrite Hno. done.
    - intros b' E. rewrite (Hsame b' E). destruct Hcase as [[C _]|[C _]]; [left|by right].
      apply cached_Some in C as (bm & Hbm & Em); [|done|done]. congruence. }
  assert (∀ b', 0 ≤ b' → view x' b' = view x b' ∧ dirty x' b' = dirty x b') as Hvd.
  { intros b' Hb'0. destruct (is_block b' bf') eqn:E'.
    - pose proof (Hsame b' E') as ->. destruct (view_step_this x x' n bf bf' b Hw' Hs E') as [_ ->].
      rewrite (dirty_this x' n bf' b Hw' Hn (bs_this _ _ _ _ _ Hs) E'). by split.
    - destruct (is_block b' bf) eqn:E.
      + assert (b' ≠ b) as Hne.
        { intros ->. unfold is_block in E'. by rewrite Hdev, Hno, !Z.eqb_refl in E'. }
        destruct Hcase as [[C _]|(C & Hbusy & _)].
        { apply cached_Some in C as (bm & Hbm & Em); [|done|done]. rewrite Hbf in Hbm. simplify_eq.
          apply is_block_spec in Em as [_ Em], E as [_ E]. congruence. }
        destruct (view_step_gone x x' n bf bf' b' Hw Hw' Hs E E') as [C' ->].
        assert (is_dirty bf = false) as Hcl.
        { unfold busy in Hbusy. apply negb_false_iff, andb_true_iff in Hbusy as [_ Hbusy]. unfold is_dirty. by rewrite Hbusy. }
        rewrite (dirty_this x n bf b' Hw Hn Hbf E), Hcl. unfold dirty. rewrite C'. split; [|done].
        unfold view. rewrite (proj1 (cached_Some x b' n Hw Hn)) by eauto. rewrite Hbf. simpl.
        apply is_block_spec in E as [Ed En]. rewrite <- En. apply (bo_clean _ _ _ Hok Hlk).
        destruct (bo_state _ _ _ Hok) as [(_ & ? & _)|(_ & _ & [H|H])]; [congruence|done|].
        unfold is_dirty in Hcl. by rewrite H in Hcl.
      + split; [by apply (view_step_other x x' n bf bf')|by apply (dirty_other x x' n bf bf')]. }
  split; [done|by destruct x|done| | |intros b' H; by apply Hvd|intros b' H; by apply Hvd|].
  - split; [done|]. split; [apply sleeping_put_eq|]. exists bf'. split; [by apply (bs_this _ _ _ _ _ Hs)|by apply is_block_spec].
  - intros m Hm. split; [exact (sleeping_put_ne (put_buf n bf' x) n m _ Hm)|by apply (bs_other _ _ _ _ _ _ Hs)].
  - pose proof (busy_count_step _ _ _ _ _ Hs) as Hc. rewrite Hdi.
    assert (busy bf' = true) as Hb1 by (unfold busy; by rewrite Hr). rewrite Hb1 in Hc.
    assert (busy bf = is_dirty bf') as Hb2; [|rewrite Hb2 in Hc; destruct (is_dirty bf'); lia].
    destruct Hcase as [[_ E]|(_ & -> & E)].
    + unfold busy, is_dirty. rewrite E, (bo_ref _ _ _ Hok), Hlk. done.
    + unfold is_dirty. by rewrite E.
Qed.

(** ** Reordering the list *)

(** Everything but the links. *)
Definition core (bf : buf) : Z * Z * Z * Z * list Z :=
  (b_flags bf, b_dev bf, b_blockno bf, b_refcnt bf, b_data bf).

Lemma core_alter f n (bs : list buf) : (∀ bf, core (f bf) = core bf) → core <$> alter f n bs = core <$> bs.
Proof.
  intros Hf. apply list_eq. intros m. rewrite !list_lookup_fmap. destruct (decide (m = n)) as [->|Hne].
  - rewrite list_lookup_alter_eq. destruct (bs !! n); simpl; [by rewrite Hf|done].
  - by rewrite list_lookup_alter_ne.
Qed.

Lemma core_relink (bs : list buf) p n b n2 : core <$> push_front (unlink bs p n) b n2 = core <$> bs.
Proof. unfold push_front, unlink. by rewrite !core_alter. Qed.

Lemma is_block_core b bf bf' : core bf = core bf' → is_block b bf = is_block b bf'.
Proof. intros [= _ H1 H2 _ _]. unfold is_block. congruence. Qed.

Lemma busy_core bf bf' : core bf = core bf' → busy bf = busy bf'.
Proof. intros [= H1 _ _ H2 _]. unfold busy. congruence. Qed.

Lemma find_from_core b (l l' : list buf) i : core <$> l = core <$> l' → find_from (is_block b) i l = find_from (is_block b) i l'.
Proof.
  revert l' i. induction l as [|a l IH]; intros [|a' l'] i; [done|done|done|]. intros [= H1 H2 H3 H4 H5 Hl].
  simpl. rewrite (is_block_core b a a') by (unfold core; congruence). destruct (is_block b a'); [done|]. by apply IH.
Qed.

Lemma busy_in_core (l l' : list buf) : core <$> l = core <$> l' → busy_in l = busy_in l'.
Proof.
  revert l'. induction l as [|a l IH]; intros [|a' l']; [done|done|done|]. intros [= H1 H2 H3 H4 H5 Hl].
  unfold busy_in in *. rewrite !filter_cons. rewrite (busy_core a a') by (unfold core; congruence).
  destruct (decide _); simpl; by rewrite (IH l').
Qed.

(** [x'] is [x] with the buffers linked in another order. *)
Record relinked (x x' : fsx) : Prop := Relinked {
  rl_rest : x' = set_fx_bufs (fx_bufs x') x;
  rl_core : core <$> fx_bufs x' = core <$> fx_bufs x;
  rl_lru : ∃ l, seg (fx_bufs x') head l head ∧ l ≡ₚ seq 0 NBUF
}.

Lemma relinked_lookup x x' n bf' :
  relinked x x' → fx_bufs x' !! n = Some bf' → ∃ bf, fx_bufs x !! n = Some bf ∧ core bf = core bf'.
Proof.
  intros [_ H _] Hb. assert ((core <$> fx_bufs x) !! n = Some (core bf')) as E by (by rewrite <- H, list_lookup_fmap, Hb).
  rewrite list_lookup_fmap, fmap_Some in E. destruct E as (bf & Hbf & E). eauto.
Qed.

Lemma relinked_lookup' x x' n bf :
  relinked x x' → fx_bufs x !! n = Some bf → ∃ bf', fx_bufs x' !! n = Some bf' ∧ core bf = core bf'.
Proof.
  intros [_ H _] Hb. assert ((core <$> fx_bufs x') !! n = Some (core bf)) as E by (by rewrite H, list_lookup_fmap, Hb).
  rewrite list_lookup_fmap, fmap_Some in E. destruct E as (bf' & Hbf & E). eauto.
Qed.

Lemma bio_wf_relinked x x' : bio_wf x → relinked x x' → bio_wf x'.
Proof.
  intros Hw Hr. split.
  - rewrite <- (bw_len _ Hw), <- !(length_fmap core). by rewrite (rl_core _ _ Hr).
  - apply Hr.
  - intros n bf' Hn Hbf'. destruct (relinked_lookup _ _ _ _ Hr Hbf') as (bf & Hbf & E).
    destruct (bw_buf _ Hw n bf Hn Hbf) as [H1 H2 H3 H4]. injection E as E1 E2 E3 E4 E5.
    rewrite (rl_rest _ _ Hr). split; [congruence| | |].
    + rewrite <- E4, H2. done.
    + rewrite <- E1, <- E2, <- E3. exact H3.
    + rewrite <- E1, <- E3, <- E5. exact H4.
  - intros n m b b1 b2 Hn Hm L1 L2 E1 E2.
    destruct (relinked_lookup _ _ _ _ Hr L1) as (c1 & M1 & C1). destruct (relinked_lookup _ _ _ _ Hr L2) as (c2 & M2 & C2).
    eapply (bw_uniq _ Hw n m b); [done|done|done|done|by rewrite (is_block_core _ _ _ C1)|by rewrite (is_block_core _ _ _ C2)].
  - rewrite (rl_rest _ _ Hr). apply Hw.
Qed.

Lemma cached_relinked x x' b : relinked x x' → cached x' b = cached x b.
Proof. intros Hr. unfold cached, find_index. apply find_from_core. by rewrite !fmap_take, (rl_core _ _ Hr). Qed.

Lemma view_relinked x x' b : relinked x x' → view x' b = view x b.
Proof.
  intros Hr. unfold view. rewrite (cached_relinked _ _ _ Hr). destruct (cached x b) as [n|].
  - assert ((λ t, t.2) <$> (core <$> fx_bufs x' !! n) = (λ t, t.2) <$> (core <$> fx_bufs x !! n)) as E
      by (by rewrite <- !list_lookup_fmap, (rl_core _ _ Hr)). by rewrite <- !option_fmap_compose in E.
  - by rewrite (rl_rest _ _ Hr).
Qed.

Lemma dirty_relinked x x' b : relinked x x' → dirty x' b = dirty x b.
Proof.
  intros Hr. unfold dirty. rewrite (cached_relinked _ _ _ Hr). destruct (cached x b) as [n|]; [|done].
  destruct (fx_bufs x !! n) as [bf|] eqn:E.
  - destruct (relinked_lookup' _ _ _ _ Hr E) as (bf' & -> & C). injection C as C _ _ _ _. unfold is_dirty. by rewrite C.
  - destruct (fx_bufs x' !! n) as [bf'|] eqn:E'; [|done].
    destruct (relinked_lookup _ _ _ _ Hr E') as (bf & ? & _). congruence.
Qed.

Lemma busy_relinked x x' : relinked x x' → busy_count x' = busy_count x.
Proof. intros Hr. apply busy_in_core. by rewrite !fmap_take, (rl_core _ _ Hr). Qed.

Lemma holds_relinked x x' pid n b : relinked x x' → holds x pid n b → holds x' pid n b.
Proof.
  intros Hr (Hn & Hs & bf & Hbf & Hb). split; [done|]. split; [by rewrite (rl_rest _ _ Hr)|].
  destruct (relinked_lookup' _ _ _ _ Hr Hbf) as (bf' & Hbf' & E). exists bf'. split; [done|].
  by rewrite <- (is_block_core _ _ _ E).
Qed.

(** ** The operations *)

Section bio_laws.
Context {Xm : Type}.
Implicit Types (s : kstate (Xm * fsx)).

(** [bread] gives the block's contents, cached or from disk, in a buffer locked
    by the caller. *)
Lemma bread_ok slp b s i c cur pr :
  calm s i c cur pr → bio_wf (fx s) → 0 ≤ b < Z.of_nat (length (fx_disk (fx s))) → available (fx s) b →
  ∃ n x', bread (S slp) 1 b s = Ok n (set_fx x' s) ∧ got (fx s) x' (p_pid pr) n b.
Proof.
  intros Hc Hw Hb Hav. destruct (bget_ok slp b s i c cur pr Hc Hw Hav) as (n & bf & bf' & Hn & Hbf & Hlk & Hcase & Hrun).
  pose proof (bw_buf _ Hw n bf Hn Hbf) as Hok. unfold bread. rewrite (bind_ok _ _ _ _ _ Hrun). set (s1 := set_fx _ s).
  assert (fx_bufs (fx s1) !! n = Some bf') as Hbf1 by (by apply (lookup_put_buf n bf)).
  rewrite (bind_get_buf n bf') by done. destruct Hcase as [[C ->]|(C & Hi & ->)].
  - pose proof C as C'. apply cached_Some in C as (bm & Hbm & Hblk); [|done|done]. rewrite Hbf in Hbm. injection Hbm as <-.
    pose proof Hblk as [Hdev Hno]%is_block_spec.
    assert (b_flags bf = B_VALID ∨ b_flags bf = Z.lor B_VALID B_DIRTY) as Hfl
      by (destruct (bo_state _ _ _ Hok) as [(_ & ? & _)|(_ & _ & H)]; [congruence|done]).
    assert (Z.land (b_flags (set_b_refcnt 1 bf)) B_VALID =? 0 = false) as Hval
      by (change (b_flags (set_b_refcnt 1 bf)) with (b_flags bf); by destruct Hfl as [-> | ->]).
    rewrite Hval, bind_mret. exists n, (put_sleep n (Sleeplock 1 (p_pid pr)) (put_buf n (set_b_refcnt 1 bf) (fx s))).
    split; [done|]. apply (got_intro (fx s) n bf); try done; [apply Hok| | |by left].
    + unfold view. by rewrite C', Hbf.
    + by rewrite (dirty_this _ n bf b Hw Hn Hbf Hblk).
  - destruct (lookup_lt_is_Some_2 (fx_disk (fx s)) (Z.to_nat b)) as [p Hp]; [lia|].
    rewrite (bind_ok _ _ _ _ _ (iderw_read n (recycled b bf) p s1 i c cur pr
      ltac:(eapply becomes_calm; [apply becomes_intro|done])
      ltac:(unfold s1; rewrite fx_set, sleeping_put_eq; unfold holder; by rewrite Z.eqb_refl) Hbf1 eq_refl eq_refl ltac:(simpl; lia) Hp)).
    exists n, (put_sleep n (Sleeplock 1 (p_pid pr)) (put_buf n (set_b_flags B_VALID (set_b_data p (recycled b bf))) (fx s))).
    split. { unfold s1. rewrite set_fx_set, fx_set. do 2 f_equal. unfold put_buf, put_sleep, set_fx_bufs, set_fx_sleep. simpl.
      by rewrite list_insert_insert_eq. }
    apply (got_intro (fx s) n bf); try done.
    + by eapply (bw_disk _ Hw).
    + unfold is_block. simpl. by rewrite Z.eqb_refl.
    + unfold view. by rewrite C.
    + unfold dirty. by rewrite C.
    + by right.
Qed.

Lemma relink_ok b s :
  (b < NBUF)%nat → (∃ l, seg (fx_bufs (fx s)) head l head ∧ l ≡ₚ seq 0 NBUF) →
  ∃ x', relink b s = Ok tt (set_fx x' s) ∧ relinked (fx s) x'.
Proof.
  intros Hb (l & Hs & Hl). destruct (lru_facts l Hl) as (Hnd & Hlen & Hin).
  destruct (list_elem_of_split l b) as (l1 & l2 & ->); [by apply Hin|].
  destruct (seg_neighbours _ _ _ _ Hs Hnd) as (Hp & Hn & Hpb & Hnb & Sp & Sn & _).
  pose proof (seg_unlink _ _ _ _ Hs Hnd) as Hs1. set (p := default head (list.last l1)) in *. set (n := default head (hd_error l2)) in *.
  assert (b ≠ head) as Hbh by (unfold head; lia). set (bs := fx_bufs (fx s)) in *.
  destruct (bs !! b) as [bf|] eqn:Hbf; [|by unfold prevf in Hp; rewrite Hbf in Hp]. unfold prevf, nextf in Hp, Hn. rewrite Hbf in Hp, Hn.
  injection Hp as Hp. injection Hn as Hn.
  assert (NoDup (head :: l1 ++ l2)) as Hnd'.
  { apply list.NoDup_cons in Hnd as [Hh Hnd]. apply list.NoDup_cons. split; [set_solver|].
    apply list.NoDup_app in Hnd as (N1 & N2 & N3). apply list.NoDup_cons in N3 as [_ N3]. apply list.NoDup_app. set_solver. }
  assert (b ∉ head :: l1 ++ l2) as Hbn.
  { apply list.NoDup_cons in Hnd as [_ Hnd]. apply list.NoDup_app in Hnd as (_ & N2 & N3).
    apply list.NoDup_cons in N3 as [N3 _]. rewrite elem_of_cons, elem_of_app. set_solver. }
  set (n2 := default head (hd_error (l1 ++ l2))) in *.
  pose proof (seg_first _ _ _ _ Hs1) as Hfirst. fold n2 in Hfirst.
  exists (set_fx_bufs (push_front (unlink bs p n) b n2) (fx s)). split.
  - unfold relink. rewrite (bind_get_buf b bf), Hp, Hn by done. unfold alter_buf. rewrite bind_fmodify.
    rewrite (bind_get_buf b bf) by (rewrite fx_set; cbn; rewrite list_lookup_alter_ne by done; done).
    rewrite Hp, Hn, bind_fmodify, set_fx_set, fx_set.
    assert (∃ h, unlink bs p n !! head = Some h ∧ b_next h = n2) as (h & Hh & Hhn).
    { unfold nextf in Hfirst. destruct (unlink bs p n !! head) as [h|]; [|done]. exists h. by injection Hfirst. }
    rewrite (bind_get_buf head h) by exact Hh. rewrite Hhn, !bind_fmodify, !set_fx_set, !fx_set.
    rewrite (bind_get_buf head h) by (rewrite fx_set; cbn; rewrite !list_lookup_alter_ne by done; exact Hh).
    rewrite Hhn, bind_fmodify. unfold fmodify, kmodify. done.
  - split; [done|apply core_relink|]. exists (b :: l1 ++ l2). split.
    + apply seg_push; [done|done| |done]. destruct (unlink bs p n !! b) eqn:E; [done|].
      assert ((core <$> unlink bs p n) !! b = Some (core bf)) as E2.
      { unfold unlink. rewrite !core_alter by done. by rewrite list_lookup_fmap, Hbf. }
      by rewrite list_lookup_fmap, E in E2.
    + rewrite <- Hl. by rewrite Permutation_middle.
Qed.

(** What giving back buffer [n] with block [b] changed. *)
Record dropped (x x' : fsx) (n : nat) (b : Z) : Prop := Dropped {
  dp_wf : bio_wf x';
  dp_rest : x' = set_fx_sleep (fx_sleep x') (set_fx_bufs (fx_bufs x') x);
  dp_free : is_locked x' n = false;
  dp_sleep : ∀ m, m ≠ n → sleeping x' m = sleeping x m;
  dp_holds : ∀ pid m b', m ≠ n → holds x pid m b' → holds x' pid m b';
  dp_view : ∀ b', 0 ≤ b' → view x' b' = view x b';
  dp_dirty : ∀ b', 0 ≤ b' → dirty x' b' = dirty x b';
  dp_cached : ∀ b', 0 ≤ b' → cached x' b' = cached x b';
  dp_busy : (busy_count x' + if dirty x b then 0 else 1)%nat = busy_count x
}.

Lemma holder_sleep pr x n : sleeping x n = Sleeplock 1 (p_pid pr) → holder (sleeping x n) pr = true.
Proof. intros ->. unfold holder. simpl. apply Z.eqb_refl. Qed.

(** The state between the two halves of [brelse]: unlocked, not yet relinked. *)
Lemma drop_step x n bf b :
  let x' := put_buf n (set_b_refcnt 0 bf) (put_sleep n (Sleeplock 0 0) x) in
  bio_wf x → (n < NBUF)%nat → fx_bufs x !! n = Some bf → is_locked x n = true → is_block b bf = true →
  (is_dirty bf = false → fx_disk x !! Z.to_nat b = Some (b_data bf)) →
  buf_step x x' n bf (set_b_refcnt 0 bf) ∧ bio_wf x' ∧ is_locked x' n = false
  ∧ (∀ b', 0 ≤ b' → view x' b' = view x b') ∧ (∀ b', 0 ≤ b' → dirty x' b' = dirty x b')
  ∧ (∀ b', 0 ≤ b' → cached x' b' = cached x b')
  ∧ (busy_count x' + if dirty x b then 0 else 1)%nat = busy_count x.
Proof.
  intros x' Hw Hn Hbf Hlk Hb Hcl. pose proof (bw_buf _ Hw n bf Hn Hbf) as Hok.
  pose proof Hb as [Hdev Hno]%is_block_spec.
  assert (is_locked x' n = false) as Hlk'.
  { unfold is_locked. change (sleeping x' n) with (sleeping (put_sleep n (Sleeplock 0 0) x) n). by rewrite sleeping_put_eq. }
  assert (buf_step x x' n bf (set_b_refcnt 0 bf)) as Hs.
  { split; try done; [|by left]. intros m Hm. exact (sleeping_put_ne x n m _ Hm). }
  assert (bio_wf x') as Hw'.
  { apply (bio_wf_step x x' n bf (set_b_refcnt 0 bf)); [done|done| |by left].
    destruct Hok as [H1 H2 H3 H4]. split; [done|by rewrite Hlk'| |].
    - right. destruct H3 as [(_ & ? & _)|H3]; [congruence|exact H3].
    - intros _ Hf. cbn. rewrite Hno. apply Hcl. unfold is_dirty. cbn in Hf. by rewrite Hf. }
  split; [done|]. split; [done|]. split; [done|].
  assert (∀ b', is_block b' (set_b_refcnt 0 bf) = is_block b' bf) as Eb by done.
  split; [|split; [|split]].
  - intros b' H0. destruct (is_block b' bf) eqn:E; [|by apply (view_step_other x x' n bf (set_b_refcnt 0 bf))].
    destruct (view_step_this x x' n bf (set_b_refcnt 0 bf) b' Hw' Hs E) as [_ ->].
    unfold view. rewrite (proj1 (cached_Some x b' n Hw Hn)) by eauto. by rewrite Hbf.
  - intros b' H0. destruct (is_block b' bf) eqn:E; [|by apply (dirty_other x x' n bf (set_b_refcnt 0 bf))].
    rewrite (dirty_this x n bf b' Hw Hn Hbf E). apply (dirty_this x' n (set_b_refcnt 0 bf) b' Hw' Hn); [|done].
    apply (bs_this _ _ _ _ _ Hs).
  - intros b' H0. destruct (is_block b' bf) eqn:E; [|by apply (view_step_other x x' n bf (set_b_refcnt 0 bf))].
    destruct (view_step_this x x' n bf (set_b_refcnt 0 bf) b' Hw' Hs E) as [-> _].
    symmetry. apply cached_Some; [done|done|]. eauto.
  - pose proof (busy_count_step _ _ _ _ _ Hs) as Hc. rewrite (dirty_this x n bf b Hw Hn Hbf Hb).
    assert (busy bf = true) as Hb1 by (unfold busy; by rewrite (bo_ref _ _ _ Hok), Hlk).
    assert (busy (set_b_refcnt 0 bf) = is_dirty bf) as Hb2 by done. rewrite Hb1, Hb2 in Hc. destruct (is_dirty bf); lia.
Qed.

Lemma brelse_ok n b bf s i c cur pr :
  calm s i c cur pr → bio_wf (fx s) → holds (fx s) (p_pid pr) n b → fx_bufs (fx s) !! n = Some bf →
  (is_dirty bf = false → fx_disk (fx s) !! Z.to_nat b = Some (b_data bf)) →
  ∃ s' x', brelse n s = Ok tt s' ∧ becomes s x' s' ∧ dropped (fx s) x' n b.
Proof.
  intros Hc Hw (Hn & Hsl & bf0 & Hbf0 & Hb) Hbf Hcl. rewrite Hbf in Hbf0. injection Hbf0 as <-.
  assert (is_locked (fx s) n = true) as Hlk by (unfold is_locked; by rewrite Hsl).
  pose proof (bo_ref _ _ _ (bw_buf _ Hw n bf Hn Hbf)) as Href. rewrite Hlk in Href.
  destruct (drop_step (fx s) n bf b Hw Hn Hbf Hlk Hb Hcl) as (Hs1 & Hw1 & Hf1 & Hv1 & Hd1 & Hca1 & Hc1).
  set (x1 := put_buf n (set_b_refcnt 0 bf) (put_sleep n (Sleeplock 0 0) (fx s))) in *.
  unfold brelse. rewrite (bind_ok _ _ _ _ _ (calm_holdingsleep n s i c cur pr Hc)).
  rewrite (holder_sleep pr) by done. cbn [negb].
  destruct (calm_releasesleep n s i c cur pr Hc (holder_sleep pr _ _ Hsl)) as (s1 & Hrel & Hbec).
  rewrite (bind_ok _ _ _ _ _ Hrel). pose proof (becomes_calm _ _ _ _ _ _ _ Hbec Hc) as Hcalm1.
  pose proof (becomes_fx _ _ _ Hbec) as Hfx1.
  rewrite (calm_acquire _ _ s1 i c cur pr Hcalm1). set (s2 := set_k_mach _ s1).
  assert (fx_bufs (fx s2) !! n = Some bf) as Hbf2 by (change (fx s2) with (fx s1); by rewrite Hfx1).
  rewrite (alter_buf_run n _ bf) by done. rewrite Href. change (u32 (1 - 1)) with 0.
  change (fx s2) with (fx s1). rewrite Hfx1. fold x1. set (s3 := set_fx x1 s2).
  rewrite (bind_get_buf n (set_b_refcnt 0 bf)) by (apply (bs_this _ _ _ _ _ Hs1)). cbn [b_refcnt set_b_refcnt Z.eqb].
  destruct (relink_ok n s3 Hn (bw_lru _ Hw1)) as (x' & Hrl & Hx'). rewrite (bind_ok _ _ _ _ _ Hrl).
  change (fx s3) with x1 in Hx'.
  rewrite (calm_release_end L_bcache s1 _ i c cur pr Hcalm1) by done.
  eexists _, x'. split; [done|]. split.
  { replace (set_k_mach (k_mach s1) (set_fx x' s3)) with (set_fx x' s1) by by destruct s1. by eapply becomes_modify. }
  split.
  - by apply (bio_wf_relinked x1).
  - rewrite (rl_rest _ _ Hx'). done.
  - rewrite (is_locked_ext x1); [done|]. by rewrite (rl_rest _ _ Hx').
  - intros m Hm. rewrite <- (bs_lock _ _ _ _ _ Hs1 m Hm). by rewrite (rl_rest _ _ Hx').
  - intros pid m b' Hm (Hm1 & Hm2 & bm & Hbm & Hblk). apply (holds_relinked x1); [done|]. split; [done|].
    split; [by rewrite (bs_lock _ _ _ _ _ Hs1 m Hm)|]. exists bm. by rewrite (bs_other _ _ _ _ _ _ Hs1 Hm).
  - intros b' H0. rewrite (view_relinked _ _ _ Hx'). by apply Hv1.
  - intros b' H0. rewrite (dirty_relinked _ _ _ Hx'). by apply Hd1.
  - intros b' H0. rewrite (cached_relinked _ _ _ Hx'). by apply Hca1.
  - by rewrite (busy_relinked _ _ Hx').
Qed.

(** What a change of the locked buffer [n] with block [b] to [bf'] does. *)
Record changed (x x' : fsx) (n : nat) (b : Z) (bf' : buf) : Prop := Changed {
  ch_wf : bio_wf x';
  ch_buf : fx_bufs x' !! n = Some bf';
  ch_other : ∀ m, m ≠ n → fx_bufs x' !! m = fx_bufs x !! m;
  ch_sleep : ∀ m, sleeping x' m = sleeping x m;
  ch_holds : ∀ pid m b', holds x pid m b' → holds x' pid m b';
  ch_view : view x' b = Some (b_data bf');
  ch_dirty : dirty x' b = is_dirty bf';
  ch_others : ∀ b', 0 ≤ b' → b' ≠ b → view x' b' = view x b' ∧ dirty x' b' = dirty x b';
  ch_cached : ∀ b', 0 ≤ b' → cached x' b' = cached x b';
  ch_busy : busy_count x' = busy_count x
}.

Lemma held_changed x x' n b bf bf' pid :
  bio_wf x → holds x pid n b → buf_step x x' n bf bf' → sleeping x' n = sleeping x n →
  b_dev bf' = b_dev bf → b_blockno bf' = b_blockno bf → b_refcnt bf' = b_refcnt bf →
  (b_flags bf' = B_VALID ∨ b_flags bf' = Z.lor B_VALID B_DIRTY) → length (b_data bf') = Z.to_nat BSIZE →
  changed x x' n b bf'.
Proof.
  intros Hw (Hn & Hsl & bf0 & Hbf0 & Hb) Hs Hsn Hd Hno Hr Hfl Hlen.
  pose proof (bs_old _ _ _ _ _ Hs) as Hbf. rewrite Hbf in Hbf0. injection Hbf0 as <-.
  pose proof (bw_buf _ Hw n bf Hn Hbf) as Hok. pose proof Hb as [Hdev Hb1]%is_block_spec.
  assert (is_locked x n = true) as Hlk by (unfold is_locked; by rewrite Hsl).
  pose proof (is_locked_ext _ _ _ Hsn) as El.
  assert (∀ b', is_block b' bf' = is_block b' bf) as Eb by (intros b'; unfold is_block; by rewrite Hd, Hno).
  assert (∀ m, sleeping x' m = sleeping x m) as Esl.
  { intros m. destruct (decide (m = n)) as [->|Hne]; [done|]. by apply (bs_lock _ _ _ _ _ Hs). }
  assert (bio_wf x') as Hw'.
  { apply (bio_wf_step x x' n bf bf'); [done|done| |intros b'; rewrite Eb; by left].
    destruct Hok as [H1 H2 H3 H4]. split; [done|by rewrite Hr, El| |by rewrite El, Hlk].
    right. rewrite Hd, Hno, (bs_dlen _ _ _ _ _ Hs). destruct H3 as [(_ & ? & _)|(? & ? & _)]; [congruence|done]. }
  split; [done|by apply (bs_this _ _ _ _ _ Hs)|intros m; by apply (bs_other _ _ _ _ _ _ Hs)|done| | | | | |].
  - intros pid' m b' (Hm1 & Hm2 & bm & Hbm & Hblk). split; [done|]. split; [by rewrite Esl|].
    destruct (decide (m = n)) as [->|Hne].
    + exists bf'. rewrite (bs_this _ _ _ _ _ Hs), Eb. split; [done|]. rewrite Hbf in Hbm. by injection Hbm as <-.
    + exists bm. by rewrite (bs_other _ _ _ _ _ _ Hs Hne).
  - by apply (view_step_this x x' n bf bf'); [| |rewrite Eb].
  - apply (dirty_this x' n bf' b Hw' Hn (bs_this _ _ _ _ _ Hs)). by rewrite Eb.
  - intros b' H0 Hne. assert (is_block b' bf = false) as E.
    { destruct (is_block b' bf) eqn:E; [|done]. apply is_block_spec in E as [_ E]. congruence. }
    split; [apply (view_step_other x x' n bf bf')|apply (dirty_other x x' n bf bf')]; by rewrite ?Eb.
  - intros b' H0. destruct (is_block b' bf) eqn:E.
    + rewrite (proj1 (cached_Some x b' n Hw Hn)) by eauto. by apply (view_step_this x x' n bf bf'); [| |rewrite Eb].
    + apply (view_step_other x x' n bf bf'); by rewrite ?Eb.
  - pose proof (busy_count_step _ _ _ _ _ Hs) as Hc.
    assert (busy bf = true ∧ busy bf' = true) as [E1 E2]; [|rewrite E1, E2 in Hc; lia].
    unfold busy. by rewrite Hr, (bo_ref _ _ _ Hok), Hlk.
Qed.

(** Storing into a locked buffer. *)
Lemma put_held x n b bf bf' pid :
  bio_wf x → holds x pid n b → fx_bufs x !! n = Some bf →
  b_dev bf' = b_dev bf → b_blockno bf' = b_blockno bf → b_refcnt bf' = b_refcnt bf → b_prev bf' = b_prev bf → b_next bf' = b_next bf →
  (b_flags bf' = B_VALID ∨ b_flags bf' = Z.lor B_VALID B_DIRTY) → length (b_data bf') = Z.to_nat BSIZE →
  changed x (put_buf n bf' x) n b bf'.
Proof. intros Hw Hh Hbf. intros. apply (held_changed x _ n b bf bf' pid); try done. split; try done; [apply Hh|by left]. Qed.

(** A locked buffer holds a valid copy. *)
Lemma held_flags x pid n b bf :
  bio_wf x → holds x pid n b → fx_bufs x !! n = Some bf →
  (b_flags bf = B_VALID ∨ b_flags bf = Z.lor B_VALID B_DIRTY) ∧ b_dev bf = 1 ∧ b_blockno bf = b
  ∧ 0 ≤ b < Z.of_nat (length (fx_disk x)) ∧ length (b_data bf) = Z.to_nat BSIZE ∧ view x b = Some (b_data bf)
  ∧ dirty x b = is_dirty bf.
Proof.
  intros Hw (Hn & Hsl & bf0 & Hbf0 & Hb) Hbf. rewrite Hbf in Hbf0. injection Hbf0 as <-.
  pose proof (bw_buf _ Hw n bf Hn Hbf) as Hok. pose proof Hb as [Hdev Hno]%is_block_spec.
  rewrite (dirty_this x n bf b Hw Hn Hbf Hb). unfold view. rewrite (proj1 (cached_Some x b n Hw Hn)) by eauto. rewrite Hbf.
  destruct Hok as [H1 H2 H3 H4]. destruct H3 as [(_ & ? & _)|(_ & H3 & H5)]; [congruence|]. rewrite Hno in H3. done.
Qed.

(** [bwrite] puts the block on disk and makes the copy clean. *)
Lemma bwrite_ok n b bf s i c cur pr :
  calm s i c cur pr → bio_wf (fx s) → holds (fx s) (p_pid pr) n b → fx_bufs (fx s) !! n = Some bf →
  let x' := put_buf n (set_b_flags B_VALID bf) (write_disk b (b_data bf) (fx s)) in
  bwrite n s = Ok tt (set_fx x' s) ∧ changed (fx s) x' n b (set_b_flags B_VALID bf).
Proof.
  intros Hc Hw Hh Hbf. cbv zeta. pose proof Hh as (Hn & Hsl & _).
  destruct (held_flags _ _ _ _ _ Hw Hh Hbf) as (Hfl & Hdev & Hno & Hr & Hlen & Hv & _).
  split.
  - unfold bwrite. rewrite (bind_ok _ _ _ _ _ (calm_holdingsleep n s i c cur pr Hc)).
    rewrite (holder_sleep pr) by done. cbn [negb]. rewrite (alter_buf_run n _ bf) by done.
    replace (Z.lor (b_flags bf) B_DIRTY) with (Z.lor B_VALID B_DIRTY) by (by destruct Hfl as [-> | ->]).
    set (s1 := set_fx _ s).
    rewrite (iderw_write n (set_b_flags (Z.lor B_VALID B_DIRTY) bf) s1 i c cur pr).
    + unfold s1. rewrite set_fx_set, fx_set. cbn [b_blockno b_data set_b_flags]. rewrite Hno. do 2 f_equal.
      unfold put_buf, write_disk, set_fx_bufs, set_fx_disk, set_fx_trace. simpl. by rewrite list_insert_insert_eq.
    + eapply becomes_calm; [apply becomes_intro|done].
    + by apply holder_sleep.
    + by apply (lookup_put_buf n bf).
    + done.
    + done.
    + cbn. rewrite Hno. apply Hr.
  - apply (held_changed (fx s) _ n b bf (set_b_flags B_VALID bf) (p_pid pr)); try done; [|by left].
    split; try done; simpl.
    + by rewrite length_insert.
    + intros k. destruct (decide (k = Z.to_nat b)) as [->|Hk]; [|left; by rewrite list_lookup_insert_ne].
      right. rewrite list_lookup_insert_eq by lia. split; [done|]. apply is_block_spec. rewrite Z2Nat.id by lia. done.
Qed.

End bio_laws.

(** ** Initialisation *)

Section binit.
Context {Xm : Type}.
Implicit Types (s : kstate (Xm * fsx)).

Definition binit_body (b : nat) : K (kstate (Xm * fsx)) unit :=
  h ← get_buf head;
  alter_buf b (set_b_next (b_next h));;
  alter_buf b (set_b_prev head);;
  initsleeplock b;;
  h ← get_buf head;
  alter_buf (b_next h) (set_b_prev b);;
  alter_buf head (set_b_next b).

Lemma binit_body_ok b l s :
  seg (fx_bufs (fx s)) head l head → b ∉ head :: l → NoDup (head :: l) → is_Some (fx_bufs (fx s) !! b) →
  ∃ m, binit_body b s = Ok tt (set_k_mach m (set_fx (put_sleep b (Sleeplock 0 0)
      (set_fx_bufs (push_front (fx_bufs (fx s)) b (default head (hd_error l))) (fx s))) s)).
Proof.
  intros Hs Hb Hnd Sb. pose proof (seg_first _ _ _ _ Hs) as Hf. unfold nextf in Hf.
  destruct (fx_bufs (fx s) !! head) as [h|] eqn:Hh; [|done]. injection Hf as Hf.
  assert (b ≠ head) as Hbh by (intros ->; by apply Hb; left).
  unfold binit_body. rewrite (bind_get_buf head h), Hf by done. unfold alter_buf. rewrite !bind_fmodify, set_fx_set, fx_set.
  eexists. erewrite bind_ok; [|reflexivity].
  rewrite (bind_get_buf head h) by (cbn; rewrite !list_lookup_alter_ne by done; exact Hh).
  rewrite Hf, bind_fmodify. reflexivity.
Qed.

Lemma core_push bs b n : core <$> push_front bs b n = core <$> bs.
Proof. unfold push_front. by rewrite !core_alter. Qed.

Lemma binit_loop_ok l d s :
  seg (fx_bufs (fx s)) head d head → NoDup (head :: l ++ d) → (∀ b, b ∈ l → is_Some (fx_bufs (fx s) !! b)) →
  ∃ s', kfor_ l binit_body s = Ok tt s' ∧ seg (fx_bufs (fx s')) head (rev l ++ d) head
    ∧ core <$> fx_bufs (fx s') = core <$> fx_bufs (fx s) ∧ fx_disk (fx s') = fx_disk (fx s)
    ∧ ∀ b, b ∈ l ∨ sleeping (fx s) b = Sleeplock 0 0 → sleeping (fx s') b = Sleeplock 0 0.
Proof.
  revert d s. induction l as [|b l IH]; intros d s Hs Hnd Hin.
  - exists s. do 4 (split; [done|]). intros b [Hb|Hb]; [by apply elem_of_nil in Hb|done].
  - simpl in Hnd. pose proof Hnd as Hnd0. apply list.NoDup_cons in Hnd as [Hh Hnd]. apply list.NoDup_cons in Hnd as [Hb Hnd].
    rewrite elem_of_cons, elem_of_app in Hh. rewrite elem_of_app in Hb. apply list.NoDup_app in Hnd as (N1 & N2 & N3).
    destruct (binit_body_ok b d s Hs) as (m & Hrun); [rewrite elem_of_cons; naive_solver| |apply Hin; by left|].
    { apply list.NoDup_cons. tauto. }
    cbn [kfor_]. rewrite (bind_ok _ _ _ _ _ Hrun). set (s1 := set_k_mach _ _).
    assert (core <$> fx_bufs (fx s1) = core <$> fx_bufs (fx s)) as Hcore by apply core_push.
    destruct (IH (b :: d) s1) as (s' & Hr & Hseg & Hc & Hd & Hsl).
    + apply seg_push; [done|rewrite elem_of_cons; naive_solver|apply Hin; by left|apply list.NoDup_cons; tauto].
    + rewrite <- Permutation_middle. exact Hnd0.
    + intros b' Hb'. specialize (Hin b' ltac:(by right)).
      assert (is_Some ((core <$> fx_bufs (fx s)) !! b')) as [y Hy] by (rewrite list_lookup_fmap; by apply fmap_is_Some).
      rewrite <- Hcore, list_lookup_fmap, fmap_Some in Hy. destruct Hy as (y' & Hy & _). by exists y'.
    + exists s'. split; [done|]. simpl. rewrite <- app_assoc. split; [done|]. split; [by rewrite Hc|]. split; [done|].
      intros b' Hb'. apply Hsl. destruct (decide (b' = b)) as [->|Hne].
      * right. exact (sleeping_put_eq _ b _).
      * destruct Hb' as [Hb'|Hb']; [left|right]; [by apply elem_of_cons in Hb' as [?|?]|].
        rewrite <- Hb'. exact (sleeping_put_ne _ b b' _ Hne).
Qed.

(** The cache as the loader leaves it: zeroed. *)
Definition zero_buf : buf := Buf 0 0 0 0 0 0 (replicate (Z.to_nat BSIZE) 0).

Lemma binit_ok s :
  fx_bufs (fx s) = replicate (S NBUF) zero_buf → (∀ n blk, fx_disk (fx s) !! n = Some blk → length blk = Z.to_nat BSIZE) →
  ∃ s', binit s = Ok tt s' ∧ bio_wf (fx s') ∧ busy_count (fx s') = 0%nat ∧ fx_disk (fx s') = fx_disk (fx s)
    ∧ ∀ b, cached (fx s') b = None.
Proof.
  intros Hz Hdisk. unfold binit. rewrite bind_initlock, !bind_alter_buf.
  set (s1 := set_fx _ _).
  assert (core <$> fx_bufs (fx s1) = replicate (S NBUF) (core zero_buf)) as Hcore.
  { unfold s1. rewrite !fx_set. cbn [fx_bufs set_fx_bufs]. rewrite !core_alter by done.
    change (fx (set_k_mach _ s)) with (fx s). rewrite Hz. apply fmap_replicate. }
  assert (seg (fx_bufs (fx s1)) head [] head) as Hs1.
  { unfold s1. rewrite !fx_set. cbn [fx_bufs set_fx_bufs]. change (fx (set_k_mach _ s)) with (fx s). rewrite Hz. vm_compute. done. }
  destruct (binit_loop_ok (seq 0 NBUF) [] s1 Hs1) as (s' & Hrun & Hseg & Hc & Hd & Hsl).
  { rewrite app_nil_r. by apply (lru_facts (seq 0 NBUF)). }
  { intros b Hb%elem_of_seq. apply lookup_lt_is_Some_2. rewrite <- (length_fmap core), Hcore, length_replicate. lia. }
  exists s'. split; [exact Hrun|]. rewrite Hcore in Hc. rewrite app_nil_r in Hseg.
  assert (∀ n bf, fx_bufs (fx s') !! n = Some bf → core bf = core zero_buf) as Hall.
  { intros n bf Hbf. assert ((core <$> fx_bufs (fx s')) !! n = Some (core bf)) as E by (by rewrite list_lookup_fmap, Hbf).
    rewrite Hc in E. by apply lookup_replicate_1 in E as [-> _]. }
  assert (∀ n bf b, fx_bufs (fx s') !! n = Some bf → is_block b bf = false) as Hnb.
  { intros n bf b Hbf. by rewrite (is_block_core b bf zero_buf (Hall n bf Hbf)). }
  split; [split|].
  - rewrite <- (length_fmap core), Hc. apply length_replicate.
  - exists (rev (seq 0 NBUF)). split; [done|]. symmetry. apply Permutation_rev.
  - intros n bf Hn Hbf. pose proof (Hall n bf Hbf) as E. injection E as E1 E2 E3 E4 E5.
    assert (is_locked (fx s') n = false) as Hl by (unfold is_locked; rewrite Hsl; [done|left; apply elem_of_seq; lia]).
    split; [by rewrite E5|by rewrite E4, Hl| |].
    + left. rewrite E1, E2. done.
    + intros _. by rewrite E1.
  - intros n m b bf bf' _ _ Hbf _ Hb. by rewrite (Hnb n bf b) in Hb.
  - rewrite Hd. exact Hdisk.
  - split; [|split; [exact Hd|]].
    + unfold busy_count. rewrite (busy_in_core _ (take NBUF (replicate (S NBUF) zero_buf))); [reflexivity|].
      rewrite !fmap_take, Hc. by rewrite fmap_replicate.
    + intros b. apply find_index_None. intros bf Hin. apply list_elem_of_lookup_1 in Hin as [n Hn].
      apply (Hnb n). pose proof (lookup_lt_Some _ _ _ Hn) as Hlt. rewrite length_take in Hlt.
      by rewrite lookup_take_lt in Hn by lia.
Qed.

End binit.

(** ** Properties *)

Section full.
Context {Xm : Type}.
Implicit Types (s : kstate (Xm * fsx)).

Lemma no_idle x : bio_wf x → busy_count x = NBUF → ∀ n bf, (n < NBUF)%nat → fx_bufs x !! n = Some bf → busy bf = true.
Proof.
  intros Hw Hc n bf Hn Hbf. destruct (busy bf) eqn:E; [done|].
  assert (length (take NBUF (fx_bufs x)) = NBUF) as Hl by (rewrite length_take, (bw_len _ Hw); lia).
  pose proof (busy_in_insert (take NBUF (fx_bufs x)) n bf (set_b_refcnt 1 bf)) as H.
  rewrite lookup_take_lt in H by done. specialize (H Hbf). rewrite E in H. change (busy (set_b_refcnt 1 bf)) with true in H.
  unfold busy_count in Hc. rewrite Hc in H. unfold busy_in in H.
  pose proof (length_filter (λ bf, busy bf = true) (<[n := set_b_refcnt 1 bf]> (take NBUF (fx_bufs x)))) as Hle.
  rewrite length_insert, Hl in Hle. lia.
Qed.

(** Without an idle buffer a block that is not cached cannot be read. *)
Lemma bread_full slp b s i c cur pr :
  calm s i c cur pr → bio_wf (fx s) → cached (fx s) b = None → busy_count (fx s) = NBUF →
  bread slp 1 b s = Panic "bget: no buffers".
Proof.
  intros Hc Hw C Hfull. destruct (bw_lru _ Hw) as (l & Hs & Hl). destruct (lru_facts l Hl) as (Hnd & Hlen & Hin).
  apply list.NoDup_cons in Hnd as [Hh _]. unfold bread. apply bind_panic.
  unfold bget. rewrite (calm_acquire _ _ s i c cur pr Hc). set (s1 := set_k_mach _ s).
  pose proof (seg_first _ _ _ _ Hs) as Hf. pose proof (seg_last _ _ _ _ Hs) as Hla. unfold nextf, prevf in Hf, Hla.
  destruct (fx_bufs (fx s) !! head) as [h|] eqn:Hhd; [|done]. injection Hf as Hf. injection Hla as Hla.
  rewrite (bind_get_buf head h) by done. rewrite Hf.
  rewrite (bind_ok _ _ _ _ _ (bget_find_ok b s1 l (S NBUF) head Hs Hh ltac:(lia))).
  change (fx_bufs (fx s1)) with (fx_bufs (fx s)). rewrite walk_cached, C by done.
  rewrite (bind_get_buf head h) by done. rewrite Hla.
  rewrite (bind_ok _ _ _ _ _ (bget_recycle_ok s1 l (S NBUF) head Hs Hh ltac:(lia))).
  change (fx_bufs (fx s1)) with (fx_bufs (fx s)). destruct (walk _ _ (rev l)) as [n|] eqn:E; [|done].
  apply walk_Some in E as [Hn (bf & Hbf & Hb)]. rewrite list_elem_of_In, <- in_rev, <- list_elem_of_In in Hn.
  by rewrite (no_idle _ Hw Hfull n bf (proj1 (Hin n) Hn) Hbf) in Hb.
Qed.

End full.

(** C8: The buffer cache is a transparent, exclusive copy of the disk.  With the
    invariant of the cache (one buffer per block, clean unlocked buffers equal the
    disk, the list of buffers in order of use intact), [bread] returns the latest
    contents of any block it can find a buffer for, locked for the caller, and
    changes no block; with every buffer locked or dirty it panics.  [bwrite]
    stores exactly the buffer's block on disk.  [brelse] unlocks the buffer and
    changes no block.  Each keeps the invariant, the locks and contents of all other buffers. *)
Theorem buffer_cache_refines {Xm : Type} slp (s : kstate (Xm * fsx)) i c cur pr :
  calm s i c cur pr → bio_wf (fx s) →
  (∀ b, 0 ≤ b < Z.of_nat (length (fx_disk (fx s))) → available (fx s) b →
     ∃ n x', bread (S slp) 1 b s = Ok n (set_fx x' s) ∧ got (fx s) x' (p_pid pr) n b)
  ∧ (∀ b, cached (fx s) b = None → busy_count (fx s) = NBUF → bread (S slp) 1 b s = Panic "bget: no buffers")
  ∧ (∀ n b bf, holds (fx s) (p_pid pr) n b → fx_bufs (fx s) !! n = Some bf →
       let x' := put_buf n (set_b_flags B_VALID bf) (write_disk b (b_data bf) (fx s)) in
       bwrite n s = Ok tt (set_fx x' s) ∧ changed (fx s) x' n b (set_b_flags B_VALID bf))
  ∧ (∀ n b bf, holds (fx s) (p_pid pr) n b → fx_bufs (fx s) !! n = Some bf →
       (is_dirty bf = false → fx_disk (fx s) !! Z.to_nat b = Some (b_data bf)) →
       ∃ s' x', brelse n s = Ok tt s' ∧ becomes s x' s' ∧ dropped (fx s) x' n b).
Proof.
  intros Hc Hw. split; [|split; [|split]].
  - intros b Hb Hav. by eapply bread_ok.
  - intros b C Hf. by eapply bread_full.
  - intros n b bf Hh Hbf. by eapply bwrite_ok.
  - intros n b bf Hh Hbf Hcl. by eapply brelse_ok.
Qed.

(** A cache after [binit], with the buffers linked in order, and a disk of 40 blocks. *)
Definition sample_bufs : list buf :=
  map (λ n, Buf 0 0 0 0 (if n =? 0 then head else n - 1)%nat (if n =? head then 0 else n + 1)%nat
    (replicate (Z.to_nat BSIZE) 0)) (seq 0 (S NBUF)).

Definition sample_fsx : fsx :=
  Fsx sample_bufs ∅ (replicate 40 (replicate (Z.to_nat BSIZE) 0)) [] (Log 2 10 0 0 1 0 (replicate 30 0))
    (Superblock 40 20 16 10 2 12 14) [] [] ∅.

Definition sample_fs : kstate (unit * fsx) :=
  Kstate (Machine [Cpu 0 1 0 512 (Some 0%nat) 0] 0 true ∅) (sample_table [sample_proc RUNNING 7 None]) 20 (Some 0%nat) 0 0
    (Prioritylock 0 0 [] 0) 0 [] (tt, sample_fsx).

Lemma sample_calm x : calm (set_fx x sample_fs) 0 (Cpu 0 1 0 512 (Some 0%nat) 0) 0 (sample_proc RUNNING 7 None).
Proof. split; try reflexivity. by split. Qed.

Lemma sample_buf n bf : sample_bufs !! n = Some bf → core bf = core zero_buf.
Proof.
  unfold sample_bufs. change (map ?f ?l) with (f <$> l). rewrite list_lookup_fmap, fmap_Some. by intros (m & _ & ->).
Qed.

Lemma sample_bio_wf : bio_wf sample_fsx.
Proof.
  split.
  - reflexivity.
  - exists (seq 0 NBUF). split; [vm_compute; tauto|done].
  - intros n bf Hn Hbf. apply sample_buf in Hbf. injection Hbf as E1 E2 E3 E4 E5.
    assert (is_locked sample_fsx n = false) as Hl by done. split; [by rewrite E5|by rewrite E4, Hl| |].
    + left. by rewrite E1, E2.
    + intros _. by rewrite E1.
  - intros n m b bf bf' _ _ Hbf _ Hb. apply sample_buf in Hbf. by rewrite (is_block_core b bf zero_buf Hbf) in Hb.
  - intros n blk [-> _]%lookup_replicate_1. reflexivity.
Qed.

Lemma buffer_cache_refines_witness : ∃ n x', bread 1 1 33 sample_fs = Ok n (set_fx x' sample_fs) ∧ holds x' 7 n 33.
Proof.
  destruct (proj1 (buffer_cache_refines 0 sample_fs 0 (Cpu 0 1 0 512 (Some 0%nat) 0) 0 (sample_proc RUNNING 7 None)
    (sample_calm sample_fsx) sample_bio_wf) 33) as (n & x' & H & Hg); [vm_compute; split; congruence| |].
  - exists 0%nat. eexists. split; [vm_compute; lia|]. split; [reflexivity|reflexivity].
  - exists n, x'. split; [exact H|]. apply Hg.
Defined.
