(* ===== verification/Log.v ===== *)
(** * The log

    Models [log.c]: the write-ahead log with its on-disk header, transactions,
    commit and recovery.  Blocks are read and written through the buffer cache of
    [Bio]; the header lies in its block as 32-bit little-endian integers. *)

From S2P Require Import Prelude Spinlock State PrioLock Sched Proc Sleep Sleeplock Pipe FsState Bio Bytes.

Section log_ops.
Context {Xm : Type} (slp : nat).
Notation M := (K (kstate (Xm * fsx))).

Definition get_data (b : nat) : M (list Z) := bf ← get_buf b; mret (b_data bf).
Definition set_data (b : nat) (d : list Z) : M unit := alter_buf b (set_b_data d).

(** [log.lh.block[i]] *)
Definition get_lh_block (i : nat) : M Z :=
  lg ← get_log;
  match lg_block lg !! i with Some v => mret v | None => kundef "log.lh.block" end.

Definition set_lh_block (i : nat) (v : Z) : M unit :=
  lg ← get_log;
  if (i <? length (lg_block lg))%nat then alter_log (λ lg, set_lg_block (<[i := v]> (lg_block lg)) lg)
  else kundef "log.lh.block".

(** The indices of [for (i = 0; i < log.lh.n; i++)]. *)
Definition upto (n : Z) : list nat := seq 0 (Z.to_nat n).

(** [readsb] of [fs.c]. *)
Definition readsb (dev : Z) : M superblock :=
  bp ← bread slp dev 1;
  d ← get_data bp;
  brelse bp;;
  mret (Superblock (rd 4 d 0) (rd 4 d 4) (rd 4 d 8) (rd 4 d 12) (rd 4 d 16) (rd 4 d 20) (rd 4 d 24)).

Definition install_one (tail : nat) : M unit :=
  lg ← get_log;
  lbuf ← bread slp (u32 (lg_dev lg)) (u32 (lg_start lg + Z.of_nat tail + 1));
  blk ← get_lh_block tail;
  dbuf ← bread slp (u32 (lg_dev lg)) (u32 blk);
  d ← get_data lbuf;
  set_data dbuf d;;
  bwrite dbuf;;
  brelse lbuf;;
  brelse dbuf.

Definition install_trans : M unit :=
  lg ← get_log;
  kfor_ (upto (lg_n lg)) install_one.

Definition read_head : M unit :=
  lg ← get_log;
  buf ← bread slp (u32 (lg_dev lg)) (u32 (lg_start lg));
  d ← get_data buf;
  alter_log (set_lg_n (s32 (rd 4 d 0)));;
  lg ← get_log;
  kfor_ (upto (lg_n lg)) (λ i, set_lh_block i (s32 (rd 4 d (4 + 4 * i))));;
  brelse buf.

Definition write_head : M unit :=
  lg ← get_log;
  buf ← bread slp (u32 (lg_dev lg)) (u32 (lg_start lg));
  d ← get_data buf;
  set_data buf (wr 4 (lg_n lg) d 0);;
  kfor_ (upto (lg_n lg)) (λ i,
    blk ← get_lh_block i;
    d ← get_data buf;
    set_data buf (wr 4 blk d (4 + 4 * i)));;
  bwrite buf;;
  brelse buf.

Definition recover_from_log : M unit :=
  read_head;;
  install_trans;;
  alter_log (set_lg_n 0);;
  write_head.

(** [sizeof(struct logheader)]: the count and the block numbers. *)
Definition sizeof_logheader : Z := 4 * (1 + LOGSIZE).

Definition initlog (dev : Z) : M unit :=
  (if BSIZE <=? sizeof_logheader then kpanic "initlog: too big logheader" else mret tt);;
  initlock L_log;;
  sb ← readsb dev;
  alter_log (set_lg_start (s32 (sb_logstart sb)));;
  alter_log (set_lg_size (s32 (sb_nlog sb)));;
  alter_log (set_lg_dev dev);;
  recover_from_log.

(** The loop of [begin_op]; one unit of fuel per sleep.  The sum is not reduced to 32
    bits: [outstanding] is at most the number of processes. *)
Fixpoint begin_op_loop (fuel : nat) : M unit :=
  match fuel with
  | O => knofuel
  | S fuel' =>
      lg ← get_log;
      if negb (lg_committing lg =? 0) then
        sleep (Some Chan_log) (Some L_log);;
        begin_op_loop fuel'
      else if LOGSIZE <? lg_n lg + (lg_outstanding lg + 1) * MAXOPBLOCKS then
        sleep (Some Chan_log) (Some L_log);;
        begin_op_loop fuel'
      else
        alter_log (λ lg, set_lg_outstanding (s32 (lg_outstanding lg + 1)) lg);;
        release L_log
  end.

Definition begin_op : M unit :=
  acquire L_log;;
  begin_op_loop slp.

Definition write_log_one (tail : nat) : M unit :=
  lg ← get_log;
  to ← bread slp (u32 (lg_dev lg)) (u32 (lg_start lg + Z.of_nat tail + 1));
  blk ← get_lh_block tail;
  from ← bread slp (u32 (lg_dev lg)) (u32 blk);
  d ← get_data from;
  set_data to d;;
  bwrite to;;
  brelse from;;
  brelse to.

Definition write_log : M unit :=
  lg ← get_log;
  kfor_ (upto (lg_n lg)) write_log_one.

Definition commit : M unit :=
  lg ← get_log;
  if 0 <? lg_n lg then
    write_log;;
    write_head;;
    install_trans;;
    alter_log (set_lg_n 0);;
    write_head
  else mret tt.

Definition end_op : M unit :=
  acquire L_log;;
  alter_log (λ lg, set_lg_outstanding (s32 (lg_outstanding lg - 1)) lg);;
  lg ← get_log;
  if negb (lg_committing lg =? 0) then kpanic "log.committing" else
  do_commit ← (if lg_outstanding lg =? 0 then alter_log (set_lg_committing 1);; mret true
               else wakeup (Some Chan_log);; mret false);
  release L_log;;
  if (do_commit : bool) then
    commit;;
    acquire L_log;;
    alter_log (set_lg_committing 0);;
    wakeup (Some Chan_log);;
    release L_log
  else mret tt.

(** The search of [log_write]: the first index with the block, or [log.lh.n]. *)
Definition log_index (lg : log) (blockno : Z) : nat :=
  default (Z.to_nat (lg_n lg)) (find_index (λ v, u32 v =? blockno) (take (Z.to_nat (lg_n lg)) (lg_block lg))).

Definition log_write (b : nat) : M unit :=
  lg ← get_log;
  if (LOGSIZE <=? lg_n lg) || (lg_size lg - 1 <=? lg_n lg) then kpanic "too big a transaction" else
  if lg_outstanding lg <? 1 then kpanic "log_write outside of trans" else
  acquire L_log;;
  lg ← get_log;
  bf ← get_buf b;
  let i := log_index lg (b_blockno bf) in
  set_lh_block i (s32 (b_blockno bf));;
  lg ← get_log;
  (if Z.of_nat i =? lg_n lg then alter_log (λ lg, set_lg_n (lg_n lg + 1) lg) else mret tt);;
  alter_buf b (λ bf, set_b_flags (Z.lor (b_flags bf) B_DIRTY) bf);;
  release L_log.

End log_ops.

(** ** Working on blocks *)

(** No process has block [b] locked. *)
Definition unlocked (x : fsx) (b : Z) : Prop := ∀ n, cached x b = Some n → is_locked x n = false.

Lemma available_intro x b : bio_wf x → unlocked x b → (busy_count x < NBUF)%nat → available x b.
Proof. intros Hw Hu Hc. unfold available. destruct (cached x b) as [n|] eqn:E; [by apply Hu|by apply idle_exists]. Qed.

(** The copy of a block that is neither locked nor dirty is the disk's. *)
Lemma clean_view x b : bio_wf x → unlocked x b → 0 ≤ b → dirty x b = false → view x b = fx_disk x !! Z.to_nat b.
Proof.
  intros Hw Hu H0 Hd. unfold view. destruct (cached x b) as [n|] eqn:C; [|done].
  pose proof (cached_lt _ _ _ C) as Hn. pose proof (Hu n C) as Hl.
  destruct (proj2 (cached_Some x b n Hw Hn) C) as (bf & Hbf & Hb). rewrite (dirty_this x n bf b Hw Hn Hbf Hb) in Hd.
  rewrite Hbf. simpl. apply is_block_spec in Hb as [Hdev <-].
  destruct (bw_buf _ Hw n bf Hn Hbf) as [H1 H2 H3 H4]. symmetry. apply H4; [done|].
  destruct H3 as [(_ & ? & _)|(_ & _ & [H|H])]; [congruence|done|]. unfold is_dirty in Hd. by rewrite H in Hd.
Qed.

Lemma unlocked_got x x' pid n b b' : bio_wf x → got x x' pid n b → unlocked x b' → b' ≠ b → unlocked x' b'.
Proof.
  intros Hw [Hw' _ _ (_ & _ & bf & Hbf & Hb) Ho _ _ _] Hu Hne m Hm. pose proof (cached_lt _ _ _ Hm) as Hlt.
  destruct (proj2 (cached_Some x' b' m Hw' Hlt) Hm) as (bm & Hbm & Hblk).
  assert (m ≠ n) as Hmn.
  { intros ->. rewrite Hbf in Hbm. injection Hbm as <-. apply is_block_spec in Hb as [_ ?], Hblk as [_ ?]. congruence. }
  destruct (Ho m Hmn) as [Hs Hbufs]. rewrite (is_locked_ext x) by done. apply Hu. apply cached_Some; [done|done|].
  rewrite Hbufs in Hbm. eauto.
Qed.

Lemma unlocked_dropped x x' n b b' : dropped x x' n b → 0 ≤ b' → unlocked x b' ∨ cached x b' = Some n → unlocked x' b'.
Proof.
  intros Hd H0 Hu m Hm. destruct (decide (m = n)) as [->|Hne]; [apply Hd|].
  rewrite (dp_cached _ _ _ _ Hd) in Hm by done. rewrite (is_locked_ext x) by by apply (dp_sleep _ _ _ _ Hd).
  destruct Hu as [Hu|Hu]; [by apply Hu|congruence].
Qed.

Lemma unlocked_changed x x' n b bf b' : changed x x' n b bf → 0 ≤ b' → unlocked x b' → unlocked x' b'.
Proof.
  intros Hc H0 Hu m Hm. rewrite (ch_cached _ _ _ _ _ Hc) in Hm by done.
  rewrite (is_locked_ext x) by apply (ch_sleep _ _ _ _ _ Hc). by apply Hu.
Qed.

Lemma holds_got x x' pid n b m b' : got x x' pid n b → holds x pid m b' → holds x' pid m b' ∧ m ≠ n.
Proof.
  intros [_ _ Hf _ Ho _ _ _] (H1 & H2 & bf & H3 & H4). assert (m ≠ n) as Hne.
  { intros ->. unfold is_locked in Hf. by rewrite H2 in Hf. }
  split; [|done]. destruct (Ho m Hne) as [E1 E2]. split; [done|]. rewrite E1, E2. split; [done|]. eauto.
Qed.

Lemma holds_cached x pid n b : bio_wf x → holds x pid n b → cached x b = Some n.
Proof. intros Hw (H1 & _ & H). by apply cached_Some. Qed.

Lemma got_fields x x' pid n b :
  got x x' pid n b → fx_disk x' = fx_disk x ∧ fx_trace x' = fx_trace x ∧ fx_log x' = fx_log x
    ∧ fx_sb x' = fx_sb x ∧ fx_inodes x' = fx_inodes x ∧ fx_files x' = fx_files x ∧ fx_pipes x' = fx_pipes x.
Proof. intros H. by rewrite (gt_rest _ _ _ _ _ H). Qed.

Lemma dropped_fields x x' n b :
  dropped x x' n b → fx_disk x' = fx_disk x ∧ fx_trace x' = fx_trace x ∧ fx_log x' = fx_log x
    ∧ fx_sb x' = fx_sb x ∧ fx_inodes x' = fx_inodes x ∧ fx_files x' = fx_files x ∧ fx_pipes x' = fx_pipes x.
Proof. intros H. by rewrite (dp_rest _ _ _ _ H). Qed.

(** Parts of the state other than cache and disk. *)
Definition same_rest (x x' : fsx) : Prop :=
  fx_log x' = fx_log x ∧ fx_sb x' = fx_sb x ∧ fx_inodes x' = fx_inodes x ∧ fx_files x' = fx_files x ∧ fx_pipes x' = fx_pipes x
  ∧ ∀ m, (NBUF ≤ m)%nat → sleeping x' m = sleeping x m.

(** Block [b] was stored on disk with contents [v], nothing else changed. *)
Record stored (x x' : fsx) (b : Z) (v : list Z) : Prop := Stored {
  st_wf : bio_wf x';
  st_rest : same_rest x x';
  st_disk : fx_disk x' = <[Z.to_nat b := v]> (fx_disk x);
  st_trace : fx_trace x' = (b, v) :: fx_trace x;
  st_view : ∀ b', 0 ≤ b' → view x' b' = if b' =? b then Some v else view x b';
  st_dirty : ∀ b', 0 ≤ b' → dirty x' b' = if b' =? b then false else dirty x b';
  st_busy : (busy_count x' ≤ busy_count x)%nat;
  st_unlocked : ∀ b', 0 ≤ b' → unlocked x b' → unlocked x' b'
}.

Section blocks.
Context {Xm : Type} (slp : nat).
Implicit Types (s : kstate (Xm * fsx)).

Lemma bind_get_log {B} (k : log → K (kstate (Xm * fsx)) B) s : (get_log ≫= k) s = k (fx_log (fx s)) s.
Proof. exact (bind_fgets fx_log k s). Qed.

Lemma bind_alter_log {B} f (k : unit → K (kstate (Xm * fsx)) B) s :
  (alter_log f ≫= k) s = k tt (set_fx (set_fx_log (f (fx_log (fx s))) (fx s)) s).
Proof. exact (bind_fmodify _ k s). Qed.

Lemma bind_get_data {B} n bf (k : list Z → K (kstate (Xm * fsx)) B) s :
  fx_bufs (fx s) !! n = Some bf → (get_data n ≫= k) s = k (b_data bf) s.
Proof. intros H. apply bind_ok. unfold get_data. by rewrite (bind_get_buf n bf). Qed.

Lemma bind_set_data {B} n bf d (k : unit → K (kstate (Xm * fsx)) B) s :
  fx_bufs (fx s) !! n = Some bf → (set_data n d ≫= k) s = k tt (set_fx (put_buf n (set_b_data d bf) (fx s)) s).
Proof. apply (alter_buf_run n (set_b_data d) bf k s). Qed.

(** Two different blocks locked one after the other. *)
Lemma two_gets b1 b2 s i c cur pr :
  calm s i c cur pr → bio_wf (fx s) → 0 ≤ b1 < Z.of_nat (length (fx_disk (fx s))) →
  0 ≤ b2 < Z.of_nat (length (fx_disk (fx s))) → b1 ≠ b2 → unlocked (fx s) b1 → unlocked (fx s) b2 →
  (busy_count (fx s) + 2 ≤ NBUF)%nat →
  ∃ n1 x1 n2 x2, bread (S slp) 1 b1 s = Ok n1 (set_fx x1 s) ∧ got (fx s) x1 (p_pid pr) n1 b1
    ∧ bread (S slp) 1 b2 (set_fx x1 s) = Ok n2 (set_fx x2 s) ∧ got x1 x2 (p_pid pr) n2 b2
    ∧ n1 ≠ n2 ∧ holds x2 (p_pid pr) n1 b1.
Proof.
  intros Hc Hw H1 H2 Hne U1 U2 Hbusy.
  destruct (bread_ok slp b1 s i c cur pr Hc Hw H1) as (n1 & x1 & R1 & G1); [by apply available_intro; [| |lia]|].
  destruct (got_fields _ _ _ _ _ G1) as (Hd1 & _).
  destruct (bread_ok slp b2 (set_fx x1 s) i c cur pr) as (n2 & x2 & R2 & G2).
  - by eapply becomes_calm; [apply becomes_intro|].
  - apply G1.
  - rewrite fx_set, Hd1. done.
  - apply available_intro; [apply G1|by eapply unlocked_got|].
    rewrite fx_set, (gt_busy _ _ _ _ _ G1). destruct (dirty _ _); lia.
  - rewrite fx_set in G2. destruct (holds_got _ _ _ _ _ _ _ G2 (gt_holds _ _ _ _ _ G1)) as [Hh Hn].
    exists n1, x1, n2, x2. by rewrite set_fx_set in R2.
Qed.

End blocks.

(** Blocks [b1] and [b2] are locked in [n1] and [n2]; nothing else changed. *)
Record both (x x' : fsx) (pid : Z) (n1 n2 : nat) (b1 b2 : Z) : Prop := Both {
  bt_wf : bio_wf x';
  bt_one : holds x' pid n1 b1;
  bt_two : holds x' pid n2 b2;
  bt_disk : fx_disk x' = fx_disk x;
  bt_trace : fx_trace x' = fx_trace x;
  bt_rest : same_rest x x';
  bt_view : ∀ b', 0 ≤ b' → view x' b' = view x b';
  bt_dirty : ∀ b', 0 ≤ b' → dirty x' b' = dirty x b';
  bt_busy : busy_count x' = (busy_count x + (if dirty x b1 then 0 else 1) + if dirty x b2 then 0 else 1)%nat;
  bt_unlocked : ∀ b', unlocked x b' → b' ≠ b1 → b' ≠ b2 → unlocked x' b'
}.

Lemma both_sym x x' pid n1 n2 b1 b2 : both x x' pid n1 n2 b1 b2 → both x x' pid n2 n1 b2 b1.
Proof. intros []. split; try done; [lia|auto]. Qed.

Lemma same_rest_got x x' pid n b : got x x' pid n b → same_rest x x'.
Proof.
  intros Hg. destruct (got_fields _ _ _ _ _ Hg) as (_ & _ & H). unfold same_rest. destruct H as (? & ? & ? & ? & ?).
  do 5 (split; [done|]). intros m Hm. apply (gt_other _ _ _ _ _ Hg). pose proof (gt_holds _ _ _ _ _ Hg) as [? _]. lia.
Qed.

Lemma same_rest_dropped x x' n b : (n < NBUF)%nat → dropped x x' n b → same_rest x x'.
Proof.
  intros Hn Hg. destruct (dropped_fields _ _ _ _ Hg) as (_ & _ & H). unfold same_rest. destruct H as (? & ? & ? & ? & ?).
  do 5 (split; [done|]). intros m Hm. apply (dp_sleep _ _ _ _ Hg). lia.
Qed.

Lemma same_rest_trans x y z : same_rest x y → same_rest y z → same_rest x z.
Proof.
  intros (?&?&?&?&?&E1) (?&?&?&?&?&E2). unfold same_rest. repeat (split; [congruence|]). intros m Hm. by rewrite E2, E1.
Qed.

Lemma both_of_gets x x1 x2 pid n1 n2 b1 b2 :
  bio_wf x → got x x1 pid n1 b1 → got x1 x2 pid n2 b2 → 0 ≤ b1 → 0 ≤ b2 → both x x2 pid n1 n2 b1 b2.
Proof.
  intros Hw G1 G2 H1 H2. destruct (got_fields _ _ _ _ _ G1) as (D1 & T1 & _), (got_fields _ _ _ _ _ G2) as (D2 & T2 & _).
  destruct (holds_got _ _ _ _ _ _ _ G2 (gt_holds _ _ _ _ _ G1)) as [Hh Hn].
  split; [apply G2|done|apply G2|congruence|congruence| | | | |].
  - eapply same_rest_trans; by eapply same_rest_got.
  - intros b' H0. by rewrite (gt_view _ _ _ _ _ G2), (gt_view _ _ _ _ _ G1).
  - intros b' H0. by rewrite (gt_dirty _ _ _ _ _ G2), (gt_dirty _ _ _ _ _ G1).
  - rewrite (gt_busy _ _ _ _ _ G2), (gt_busy _ _ _ _ _ G1), (gt_dirty _ _ _ _ _ G1) by done. done.
  - intros b' Hu Hb1 Hb2. eapply unlocked_got; [apply G1|done| |done]. by eapply unlocked_got.
Qed.

Section copy.
Context {Xm : Type} (slp : nat).
Implicit Types (s : kstate (Xm * fsx)).

(** Storing [v] in a locked buffer and writing it to disk. *)
Record wrote (x x' : fsx) (n : nat) (b : Z) (v : list Z) : Prop := Wrote {
  wo_wf : bio_wf x';
  wo_holds : ∀ pid m b', holds x pid m b' → holds x' pid m b';
  wo_other : ∀ m, m ≠ n → fx_bufs x' !! m = fx_bufs x !! m;
  wo_sleep : ∀ m, sleeping x' m = sleeping x m;
  wo_disk : fx_disk x' = <[Z.to_nat b := v]> (fx_disk x);
  wo_trace : fx_trace x' = (b, v) :: fx_trace x;
  wo_rest : same_rest x x';
  wo_view : ∀ b', 0 ≤ b' → view x' b' = if b' =? b then Some v else view x b';
  wo_dirty : ∀ b', 0 ≤ b' → dirty x' b' = if b' =? b then false else dirty x b';
  wo_cached : ∀ b', 0 ≤ b' → cached x' b' = cached x b';
  wo_busy : busy_count x' = busy_count x
}.

Lemma bwrite_held {B} x n b v bf (k : unit → K (kstate (Xm * fsx)) B) s i c cur pr :
  calm s i c cur pr → fx s = put_buf n (set_b_data v bf) x → bio_wf x → holds x (p_pid pr) n b →
  fx_bufs x !! n = Some bf → length v = Z.to_nat BSIZE →
  ∃ x', (bwrite n ≫= k) s = k tt (set_fx x' s) ∧ wrote x x' n b v.
Proof.
  intros Hc Hx Hw Hh Hbf Hv. destruct (held_flags _ _ _ _ _ Hw Hh Hbf) as (Fl & Dd & Bd & Rd & Ld & _ & _).
  pose proof (put_held x n b bf (set_b_data v bf) (p_pid pr) Hw Hh Hbf eq_refl eq_refl eq_refl eq_refl eq_refl Fl Hv) as C3.
  rewrite <- Hx in C3.
  destruct (bwrite_ok n b (set_b_data v bf) s i c cur pr Hc (ch_wf _ _ _ _ _ C3)
    (ch_holds _ _ _ _ _ C3 _ _ _ Hh) (ch_buf _ _ _ _ _ C3)) as [R4 C4].
  rewrite (bind_ok _ _ _ _ _ R4). cbn [b_data set_b_data] in C4 |- *. rewrite Hx in *.
  set (x4 := put_buf n _ (write_disk b v _)) in *. exists x4. split; [done|].
  split; try done.
  - apply C4.
  - intros pid m b' H. by apply C4, C3.
  - intros m Hm. by rewrite (ch_other _ _ _ _ _ C4), (ch_other _ _ _ _ _ C3).
  - intros b' H0. destruct (Z.eqb_spec b' b) as [->|Hne]; [by rewrite (ch_view _ _ _ _ _ C4)|].
    destruct (ch_others _ _ _ _ _ C4 b' H0 Hne) as [-> _]. by apply C3.
  - intros b' H0. destruct (Z.eqb_spec b' b) as [->|Hne]; [by rewrite (ch_dirty _ _ _ _ _ C4)|].
    destruct (ch_others _ _ _ _ _ C4 b' H0 Hne) as [_ ->]. by apply C3.
  - intros b' H0. by rewrite (ch_cached _ _ _ _ _ C4), (ch_cached _ _ _ _ _ C3).
  - by rewrite (ch_busy _ _ _ _ _ C4), (ch_busy _ _ _ _ _ C3).
Qed.

Lemma write_held {B} n b v (k : unit → K (kstate (Xm * fsx)) B) s i c cur pr :
  calm s i c cur pr → bio_wf (fx s) → holds (fx s) (p_pid pr) n b → length v = Z.to_nat BSIZE →
  ∃ x', (set_data n v;; bwrite n ≫= k) s = k tt (set_fx x' s) ∧ wrote (fx s) x' n b v.
Proof.
  intros Hc Hw Hh Hv. pose proof Hh as (_ & _ & bf & Hbf & _).
  rewrite (bind_set_data n bf) by done.
  destruct (bwrite_held (fx s) n b v bf k (set_fx (put_buf n (set_b_data v bf) (fx s)) s) i c cur pr) as (x' & R & W); try done.
  - by eapply becomes_calm; [apply becomes_intro|].
  - exists x'. by rewrite R, set_fx_set.
Qed.

(** [brelse] of a buffer that is dirty or equal to the disk. *)
Lemma brelse_held n b s i c cur pr :
  calm s i c cur pr → bio_wf (fx s) → holds (fx s) (p_pid pr) n b →
  (dirty (fx s) b = false → view (fx s) b = fx_disk (fx s) !! Z.to_nat b) →
  ∃ s' x', brelse n s = Ok tt s' ∧ becomes s x' s' ∧ dropped (fx s) x' n b.
Proof.
  intros Hc Hw Hh Hcl. pose proof Hh as (_ & _ & bf & Hbf & _).
  destruct (held_flags _ _ _ _ _ Hw Hh Hbf) as (_ & _ & _ & _ & _ & Hv & Hd).
  apply (brelse_ok n b bf s i c cur pr); try done. intros Hf. by rewrite <- Hcl, Hv by congruence.
Qed.

(** The end of an iteration of [write_log] and of [install_trans]. *)
Definition copy_tail (ns nd : nat) : K (kstate (Xm * fsx)) unit :=
  d ← get_data ns;
  set_data nd d;;
  bwrite nd;;
  brelse ns;;
  brelse nd.

Lemma copy_tail_ok x ns nd src dst v s i c cur pr :
  calm s i c cur pr → both x (fx s) (p_pid pr) ns nd src dst → bio_wf x → src ≠ dst → 0 ≤ src → 0 ≤ dst →
  unlocked x src → view x src = Some v → dst < Z.of_nat (length (fx_disk x)) →
  ∃ s' x', copy_tail ns nd s = Ok tt s' ∧ becomes s x' s' ∧ stored x x' dst v.
Proof.
  intros Hc Hb Hwx Hne Hs0 Hd0 Hus Hv Hdlt. pose proof (bt_wf _ _ _ _ _ _ _ Hb) as Hw.
  pose proof (bt_one _ _ _ _ _ _ _ Hb) as Hhs. pose proof (bt_two _ _ _ _ _ _ _ Hb) as Hhd.
  pose proof Hhs as (Hns & _ & bfs & Hbfs & Hblks). pose proof Hhd as (Hnd & _ & bfd & Hbfd & Hblkd).
  assert (nd ≠ ns) as Hnn.
  { intros ->. rewrite Hbfs in Hbfd. injection Hbfd as <-. apply is_block_spec in Hblks as [_ ?], Hblkd as [_ ?]. congruence. }
  destruct (held_flags _ _ _ _ _ Hw Hhs Hbfs) as (_ & _ & _ & _ & Ls & Vs & _).
  rewrite (bt_view _ _ _ _ _ _ _ Hb), Hv in Vs by done. injection Vs as Hdv.
  unfold copy_tail. rewrite (bind_get_data ns bfs), <- Hdv by done.
  destruct (write_held nd dst v (λ _, brelse ns;; brelse nd) s i c cur pr Hc Hw Hhd ltac:(congruence)) as (x4 & R4 & W).
  rewrite R4. assert (calm (set_fx x4 s) i c cur pr) as Hc4 by (eapply becomes_calm; [apply becomes_intro|done]).
  destruct (brelse_held ns src (set_fx x4 s) i c cur pr Hc4 (wo_wf _ _ _ _ _ W) (wo_holds _ _ _ _ _ W _ _ _ Hhs))
    as (s5 & x5 & R5 & B5 & D5).
  { rewrite fx_set, (wo_dirty _ _ _ _ _ W), (wo_view _ _ _ _ _ W), (wo_disk _ _ _ _ _ W) by done.
    destruct (Z.eqb_spec src dst); [done|]. rewrite list_lookup_insert_ne by lia.
    rewrite (bt_dirty _ _ _ _ _ _ _ Hb), (bt_view _ _ _ _ _ _ _ Hb), (bt_disk _ _ _ _ _ _ _ Hb) by done. by apply clean_view. }
  rewrite (bind_ok _ _ _ _ _ R5). rewrite fx_set in D5. pose proof (becomes_fx _ _ _ B5) as F5.
  destruct (dropped_fields _ _ _ _ D5) as (Dd5 & Dt5 & _).
  destruct (brelse_held nd dst s5 i c cur pr) as (s6 & x6 & R6 & B6 & D6); rewrite ?F5.
  { by eapply becomes_calm. }
  { apply D5. }
  { apply (dp_holds _ _ _ _ D5); [done|]. by apply (wo_holds _ _ _ _ _ W). }
  { intros _. rewrite (dp_view _ _ _ _ D5), (wo_view _ _ _ _ _ W), Z.eqb_refl, Dd5, (wo_disk _ _ _ _ _ W) by done.
    rewrite list_lookup_insert_eq; [done|]. rewrite (bt_disk _ _ _ _ _ _ _ Hb). lia. }
  rewrite F5 in D6. destruct (dropped_fields _ _ _ _ D6) as (Dd6 & Dt6 & _).
  exists s6, x6. split; [done|]. split.
  { eapply becomes_trans; [|done]. eapply becomes_trans; [apply becomes_intro|done]. }
  split; [apply D6| |..].
  - eapply same_rest_trans; [apply Hb|]. eapply same_rest_trans; [apply W|].
    eapply same_rest_trans; [exact (same_rest_dropped _ _ _ _ Hns D5)|exact (same_rest_dropped _ _ _ _ Hnd D6)].
  - by rewrite Dd6, Dd5, (wo_disk _ _ _ _ _ W), (bt_disk _ _ _ _ _ _ _ Hb).
  - by rewrite Dt6, Dt5, (wo_trace _ _ _ _ _ W), (bt_trace _ _ _ _ _ _ _ Hb).
  - intros b' H0. by rewrite (dp_view _ _ _ _ D6), (dp_view _ _ _ _ D5), (wo_view _ _ _ _ _ W), (bt_view _ _ _ _ _ _ _ Hb).
  - intros b' H0. by rewrite (dp_dirty _ _ _ _ D6), (dp_dirty _ _ _ _ D5), (wo_dirty _ _ _ _ _ W), (bt_dirty _ _ _ _ _ _ _ Hb).
  - pose proof (dp_busy _ _ _ _ D6) as B1. pose proof (dp_busy _ _ _ _ D5) as B2.
    rewrite (dp_dirty _ _ _ _ D5), (wo_dirty _ _ _ _ _ W), Z.eqb_refl in B1 by done.
    rewrite (wo_dirty _ _ _ _ _ W), (wo_busy _ _ _ _ _ W), (bt_busy _ _ _ _ _ _ _ Hb) in B2 by done.
    destruct (Z.eqb_spec src dst); [done|]. rewrite (bt_dirty _ _ _ _ _ _ _ Hb) in B2 by done.
    destruct (dirty x src), (dirty x dst); lia.
  - intros b' H0 Hu.
    assert (unlocked x5 b' ∨ cached x5 b' = Some nd) as H5; [|by apply (unlocked_dropped _ _ _ _ _ D6)].
    rewrite (dp_cached _ _ _ _ D5), (wo_cached _ _ _ _ _ W) by done.
    destruct (decide (b' = dst)) as [->|H1]; [right; by eapply holds_cached|]. left.
    apply (unlocked_dropped _ _ _ _ _ D5); [done|]. rewrite (wo_cached _ _ _ _ _ W) by done.
    destruct (decide (b' = src)) as [->|H2]; [right; by eapply holds_cached|]. left.
    intros m Hm. rewrite (wo_cached _ _ _ _ _ W) in Hm by done.
    rewrite (is_locked_ext (fx s)) by apply W. by apply (bt_unlocked _ _ _ _ _ _ _ Hb b').
Qed.

End copy.

(** ** Sequences of disk writes *)

Definition apply_writes (ws : list (Z * list Z)) (d : list (list Z)) : list (list Z) :=
  foldl (λ d w, <[Z.to_nat w.1 := w.2]> d) d ws.

(** The disk was written with [ws], in this order, and nothing else changed. *)
Inductive writes : fsx → fsx → list (Z * list Z) → Prop :=
| writes_nil x : bio_wf x → writes x x []
| writes_cons x x1 x2 b v ws : stored x x1 b v → writes x1 x2 ws → writes x x2 ((b, v) :: ws).

Lemma writes_app x x1 x2 ws1 ws2 : writes x x1 ws1 → writes x1 x2 ws2 → writes x x2 (ws1 ++ ws2).
Proof. induction 1; simpl; [done|]. intros. econstructor; eauto. Qed.

Lemma writes_one x x' b v : stored x x' b v → writes x x' [(b, v)].
Proof. intros H. econstructor; [done|]. constructor. apply H. Qed.

Lemma writes_disk x x' ws : writes x x' ws → fx_disk x' = apply_writes ws (fx_disk x).
Proof. induction 1 as [|x x1 x2 b v ws Hs _ IH]; [done|]. simpl. by rewrite IH, (st_disk _ _ _ _ Hs). Qed.

Lemma writes_trace x x' ws : writes x x' ws → fx_trace x' = rev ws ++ fx_trace x.
Proof.
  induction 1 as [|x x1 x2 b v ws Hs _ IH]; [done|]. simpl. by rewrite IH, (st_trace _ _ _ _ Hs), <- app_assoc.
Qed.

Lemma writes_rest x x' ws : writes x x' ws → same_rest x x'.
Proof.
  induction 1 as [|x x1 x2 b v ws Hs _ IH]; [by unfold same_rest|]. eapply same_rest_trans; [apply Hs|done].
Qed.

Lemma length_apply_writes ws d : length (apply_writes ws d) = length d.
Proof. revert d. induction ws as [|w ws IH]; intros d; simpl; [done|]. by rewrite IH, length_insert. Qed.

Lemma apply_writes_app ws1 ws2 d : apply_writes (ws1 ++ ws2) d = apply_writes ws2 (apply_writes ws1 d).
Proof. apply foldl_app. Qed.

(** A block that is not written keeps its contents. *)
Lemma apply_writes_other ws d b :
  0 ≤ b → Forall (λ w, 0 ≤ w.1 ∧ w.1 ≠ b) ws → apply_writes ws d !! Z.to_nat b = d !! Z.to_nat b.
Proof.
  intros H0. revert d. induction ws as [|w ws IH]; intros d Hw; simpl; [done|].
  apply list.Forall_cons in Hw as [[H1 H2] Hw]. rewrite IH by done. by rewrite list_lookup_insert_ne by lia.
Qed.

Section loops.
Context {Xm : Type} (slp : nat).
Implicit Types (s : kstate (Xm * fsx)).

(** A loop each of whose iterations stores one block. *)
Lemma copy_loop (body : nat → K (kstate (Xm * fsx)) unit) (dst : nat → Z) (v : nat → list Z) (Inv : fsx → Prop) i c cur pr l :
  (∀ x, Inv x → bio_wf x) →
  (∀ k s, k ∈ l → calm s i c cur pr → Inv (fx s) →
     ∃ s' x', body k s = Ok tt s' ∧ becomes s x' s' ∧ stored (fx s) x' (dst k) (v k) ∧ Inv x') →
  ∀ s, calm s i c cur pr → Inv (fx s) →
  ∃ s' x', kfor_ l body s = Ok tt s' ∧ becomes s x' s' ∧ writes (fx s) x' (map (λ k, (dst k, v k)) l) ∧ Inv x'.
Proof.
  intros Hwf Hbody. induction l as [|k l IH]; intros s Hc Hi.
  - exists s, (fx s). split; [done|]. split; [apply becomes_refl|]. split; [constructor; by apply Hwf|done].
  - destruct (Hbody k s ltac:(by left) Hc Hi) as (s1 & x1 & R1 & B1 & S1 & I1).
    pose proof (becomes_fx _ _ _ B1) as F1.
    destruct (IH ltac:(intros k' s' Hk; apply Hbody; by right) s1 ltac:(by eapply becomes_calm) ltac:(by rewrite F1))
      as (s2 & x2 & R2 & B2 & W2 & I2).
    exists s2, x2. cbn [kfor_]. rewrite (bind_ok _ _ _ _ _ R1). split; [done|].
    split; [by eapply becomes_trans|]. split; [|done]. simpl. rewrite F1 in W2. by econstructor.
Qed.

(** ** Geometry *)

(** The log of [size] blocks from [start] on lies on the disk; [blks] are the
    home locations of the logged blocks, outside the log. *)
Record log_geom (lg : log) (dlen : nat) (blks : list Z) : Prop := LogGeom {
  lo_dev : lg_dev lg = 1;
  lo_start : 0 < lg_start lg;
  lo_size : lg_start lg + lg_size lg ≤ Z.of_nat dlen < 2 ^ 31;
  lo_n : lg_n lg = Z.of_nat (length blks);
  lo_len : length (lg_block lg) = Z.to_nat LOGSIZE;
  lo_blks : take (length blks) (lg_block lg) = blks;
  lo_room : Z.of_nat (length blks) < lg_size lg;
  lo_fits : Z.of_nat (length blks) ≤ LOGSIZE;
  lo_nodup : NoDup blks;
  lo_home : Forall (λ b, 0 ≤ b < Z.of_nat dlen ∧ ¬ (lg_start lg ≤ b < lg_start lg + lg_size lg)) blks
}.

(** The log is in use by nobody else, and there are two buffers to work with. *)
Record log_calm (x : fsx) (blks : list Z) : Prop := LogCalm {
  lc_wf : bio_wf x;
  lc_geom : log_geom (fx_log x) (length (fx_disk x)) blks;
  lc_unlocked : ∀ b, 0 ≤ b → unlocked x b;
  lc_busy : (busy_count x + 2 ≤ NBUF)%nat
}.

Lemma log_calm_stored x x' b v blks : log_calm x blks → stored x x' b v → log_calm x' blks.
Proof.
  intros [H1 H2 H3 H4] Hs. destruct (st_rest _ _ _ _ Hs) as (E & _). split; [apply Hs| | |].
  - by rewrite E, (st_disk _ _ _ _ Hs), length_insert.
  - intros b' H0. by apply Hs, H3.
  - pose proof (st_busy _ _ _ _ Hs). lia.
Qed.

Lemma lh_block_at lg dlen blks k b : log_geom lg dlen blks → blks !! k = Some b → lg_block lg !! k = Some b.
Proof.
  intros Hg Hk. rewrite <- (lo_blks _ _ _ Hg) in Hk. pose proof (lookup_lt_Some _ _ _ Hk) as Hlt. rewrite length_take in Hlt.
  by rewrite lookup_take_lt in Hk by lia.
Qed.

Lemma home_range lg dlen blks k b :
  log_geom lg dlen blks → blks !! k = Some b →
  0 ≤ b < Z.of_nat dlen ∧ ¬ (lg_start lg ≤ b < lg_start lg + lg_size lg) ∧ u32 b = b
  ∧ u32 (lg_start lg + Z.of_nat k + 1) = lg_start lg + Z.of_nat k + 1
  ∧ lg_start lg < lg_start lg + Z.of_nat k + 1 < lg_start lg + lg_size lg.
Proof.
  intros Hg Hk. pose proof (lookup_lt_Some _ _ _ Hk) as Hlt.
  pose proof (lo_home _ _ _ Hg) as Hh. rewrite Forall_lookup in Hh. destruct (Hh k b Hk) as [H1 H2].
  pose proof (lo_size _ _ _ Hg). pose proof (lo_start _ _ _ Hg). pose proof (lo_room _ _ _ Hg).
  split; [done|]. split; [done|]. rewrite !u32_small by lia. lia.
Qed.

Lemma get_lh_block_ok k b s : lg_block (fx_log (fx s)) !! k = Some b → get_lh_block k s = Ok b s.
Proof. intros H. unfold get_lh_block. by rewrite bind_get_log, H. Qed.

Lemma write_log_one_ok blks k b v s i c cur pr :
  calm s i c cur pr → log_calm (fx s) blks → blks !! k = Some b → view (fx s) b = Some v →
  ∃ s' x', write_log_one (S slp) k s = Ok tt s' ∧ becomes s x' s'
    ∧ stored (fx s) x' (lg_start (fx_log (fx s)) + Z.of_nat k + 1) v.
Proof.
  intros Hc [Hw Hg Hu Hb] Hk Hv. destruct (home_range _ _ _ _ _ Hg Hk) as (R1 & R2 & U1 & U2 & R3).
  pose proof (lo_size _ _ _ Hg) as Hsz. pose proof (lo_start _ _ _ Hg) as Hst.
  unfold write_log_one. rewrite bind_get_log, U2, (lo_dev _ _ _ Hg). change (u32 1) with 1.
  set (dst := lg_start _ + _ + 1) in *.
  destruct (two_gets slp dst b s i c cur pr) as (n1 & x1 & n2 & x2 & B1 & G1 & B2 & G2 & Hne & _); try done; [lia|lia|apply Hu; lia|apply Hu; lia|].
  rewrite (bind_ok _ _ _ _ _ B1).
  destruct (got_fields _ _ _ _ _ G1) as (_ & _ & El & _).
  rewrite (bind_ok _ _ _ _ _ (get_lh_block_ok k b (set_fx x1 s) ltac:(rewrite fx_set, El; by eapply lh_block_at))).
  rewrite U1, (bind_ok _ _ _ _ _ B2).
  destruct (copy_tail_ok (fx s) n2 n1 b dst v (set_fx x2 s) i c cur pr) as (s' & x' & R & Bec & St); try done; [| |lia|lia|lia|apply Hu; lia|lia|].
  - by eapply becomes_calm; [apply becomes_intro|].
  - apply both_sym. by eapply both_of_gets; [| | |lia|lia].
  - exists s', x'. split; [exact R|]. split; [by eapply becomes_trans; [apply becomes_intro|]|done].
Qed.

Lemma install_one_ok blks k b v s i c cur pr :
  calm s i c cur pr → log_calm (fx s) blks → blks !! k = Some b →
  view (fx s) (lg_start (fx_log (fx s)) + Z.of_nat k + 1) = Some v →
  ∃ s' x', install_one (S slp) k s = Ok tt s' ∧ becomes s x' s' ∧ stored (fx s) x' b v.
Proof.
  intros Hc [Hw Hg Hu Hb] Hk Hv. destruct (home_range _ _ _ _ _ Hg Hk) as (R1 & R2 & U1 & U2 & R3).
  pose proof (lo_size _ _ _ Hg) as Hsz. pose proof (lo_start _ _ _ Hg) as Hst.
  unfold install_one. rewrite bind_get_log, U2, (lo_dev _ _ _ Hg). change (u32 1) with 1.
  set (src := lg_start _ + _ + 1) in *.
  destruct (two_gets slp src b s i c cur pr) as (n1 & x1 & n2 & x2 & B1 & G1 & B2 & G2 & Hne & _); try done; [lia|lia|apply Hu; lia|apply Hu; lia|].
  rewrite (bind_ok _ _ _ _ _ B1).
  destruct (got_fields _ _ _ _ _ G1) as (_ & _ & El & _).
  rewrite (bind_ok _ _ _ _ _ (get_lh_block_ok k b (set_fx x1 s) ltac:(rewrite fx_set, El; by eapply lh_block_at))).
  rewrite U1, (bind_ok _ _ _ _ _ B2).
  destruct (copy_tail_ok (fx s) n1 n2 src b v (set_fx x2 s) i c cur pr) as (s' & x' & R & Bec & St); try done; [| |lia|lia|lia|apply Hu; lia|lia|].
  - by eapply becomes_calm; [apply becomes_intro|].
  - by eapply both_of_gets; [| | |lia|lia].
  - exists s', x'. split; [exact R|]. split; [by eapply becomes_trans; [apply becomes_intro|]|done].
Qed.

(** ** The header block *)

Fixpoint put_blocks (i : nat) (blks : list Z) (d : list Z) : list Z :=
  match blks with
  | [] => d
  | b :: bl => put_blocks (S i) bl (wr 4 b d (4 + 4 * i))
  end.

(** The block [write_head] writes over [d]. *)
Definition encode_head (blks : list Z) (d : list Z) : list Z :=
  put_blocks 0 blks (wr 4 (Z.of_nat (length blks)) d 0).

(** What [read_head] finds in it. *)
Definition decode_head (d : list Z) : list Z :=
  map (λ i, s32 (rd 4 d (4 + 4 * i))) (upto (s32 (rd 4 d 0))).

Lemma length_put_blocks i blks d : length (put_blocks i blks d) = length d.
Proof. revert i d. induction blks as [|b bl IH]; intros i d; cbn [put_blocks]; [done|]. by rewrite IH, length_wr. Qed.

Lemma put_blocks_before i blks d k off : (off + k ≤ 4 + 4 * i)%nat → rd k (put_blocks i blks d) off = rd k d off.
Proof.
  revert i d. induction blks as [|b bl IH]; intros i d H; cbn [put_blocks]; [done|].
  rewrite IH by lia. apply rd_wr_ne. lia.
Qed.

Lemma put_blocks_at blks : ∀ i d k b, (4 + 4 * (i + length blks) ≤ length d)%nat → blks !! k = Some b →
  rd 4 (put_blocks i blks d) (4 + 4 * (i + k)) = u32 b.
Proof.
  induction blks as [|a bl IH]; intros i d k b Hlen Hk; [done|]. simpl in Hlen. cbn [put_blocks].
  destruct k as [|k]; simpl in Hk.
  - injection Hk as <-. rewrite put_blocks_before by lia.
    replace (4 + 4 * (i + 0))%nat with (4 + 4 * i)%nat by lia. rewrite rd_wr_eq by lia. done.
  - replace (i + S k)%nat with (S i + k)%nat by lia. apply IH; [|done]. rewrite length_wr. lia.
Qed.

Lemma decode_encode blks d :
  length d = Z.to_nat BSIZE → Z.of_nat (length blks) ≤ LOGSIZE → Forall (λ b, 0 ≤ b < 2 ^ 31) blks →
  decode_head (encode_head blks d) = blks.
Proof.
  intros Hd Hn Hb. unfold LOGSIZE, MAXOPBLOCKS, BSIZE in *. unfold decode_head, encode_head.
  rewrite (put_blocks_before 0) by lia. rewrite rd_wr_eq by lia. change (2 ^ (8 * Z.of_nat 4)) with (2 ^ 32).
  rewrite Z.mod_small, s32_small by lia. unfold upto. rewrite Nat2Z.id. apply list_eq. intros k.
  change (map ?f ?l) with (f <$> l). rewrite list_lookup_fmap. destruct (decide (k < length blks)%nat) as [Hk|Hk].
  - rewrite lookup_seq_lt by done. cbn [fmap option_fmap option_map].
    destruct (lookup_lt_is_Some_2 blks k Hk) as [b Hbk]. rewrite Hbk. f_equal.
    rewrite (put_blocks_at blks 0 _ k b) by (rewrite ?length_wr; done || lia).
    rewrite Forall_lookup in Hb. specialize (Hb k b Hbk). rewrite u32_small by lia. by apply s32_small; lia.
  - rewrite lookup_seq_ge by lia. rewrite lookup_ge_None_2 by lia. done.
Qed.

Lemma head_fill n x bf bl : ∀ k d s,
  fx s = put_buf n (set_b_data d bf) x → fx_bufs x !! n = Some bf →
  (∀ j b, bl !! j = Some b → lg_block (fx_log x) !! (k + j)%nat = Some b) →
  kfor_ (seq k (length bl)) (λ i, blk ← get_lh_block i; d ← get_data n; set_data n (wr 4 blk d (4 + 4 * i))) s
  = Ok tt (set_fx (put_buf n (set_b_data (put_blocks k bl d) bf) x) s).
Proof.
  induction bl as [|b bl IH]; intros k d s Hx Hbf Hbl; cbn [kfor_ seq length put_blocks].
  - unfold mret, K_ret. by rewrite <- Hx, set_fx_id.
  - assert (fx_bufs (fx s) !! n = Some (set_b_data d bf)) as Hn by (rewrite Hx; by apply (lookup_put_buf n bf)).
    erewrite bind_ok.
    2:{ rewrite (bind_ok _ _ _ _ _ (get_lh_block_ok k b s ltac:(rewrite Hx; rewrite <- (Nat.add_0_r k); by apply Hbl))).
        rewrite (bind_get_data n (set_b_data d bf)) by done. unfold set_data. by rewrite (alter_buf_ok n _ (set_b_data d bf)). }
    rewrite Hx, put_buf_put. etransitivity; [apply (IH (S k) (wr 4 b d (4 + 4 * k))); [done|done|]|done].
    intros j b' Hj. replace (S k + j)%nat with (k + S j)%nat by lia. by apply Hbl.
Qed.

Lemma write_head_ok blks d s i c cur pr :
  calm s i c cur pr → log_calm (fx s) blks → view (fx s) (lg_start (fx_log (fx s))) = Some d →
  ∃ s' x', write_head (S slp) s = Ok tt s' ∧ becomes s x' s'
    ∧ stored (fx s) x' (lg_start (fx_log (fx s))) (encode_head blks d) ∧ length d = Z.to_nat BSIZE.
Proof.
  intros Hc [Hw Hg Hu Hb] Hv. pose proof (lo_size _ _ _ Hg) as Hsz. pose proof (lo_start _ _ _ Hg) as Hst.
  pose proof (lo_room _ _ _ Hg) as Hroom. set (st := lg_start (fx_log (fx s))) in *.
  unfold write_head. rewrite bind_get_log, (lo_dev _ _ _ Hg). fold st. change (u32 1) with 1. rewrite u32_small by lia.
  destruct (bread_ok slp st s i c cur pr Hc Hw ltac:(lia)) as (n & x1 & R1 & G1);
    [by apply available_intro; [|apply Hu; lia|lia]|].
  rewrite (bind_ok _ _ _ _ _ R1). pose proof (gt_holds _ _ _ _ _ G1) as Hh. pose proof Hh as (Hn & _ & bf & Hbf & _).
  destruct (got_fields _ _ _ _ _ G1) as (Hd1 & Ht1 & Hl1 & _).
  destruct (held_flags _ _ _ _ _ (gt_wf _ _ _ _ _ G1) Hh Hbf) as (_ & _ & _ & _ & Hlen & Hv1 & _).
  rewrite (gt_view _ _ _ _ _ G1), Hv in Hv1 by lia. injection Hv1 as ->.
  rewrite (bind_get_data n bf) by done. rewrite (bind_set_data n bf) by done.
  rewrite set_fx_set, fx_set, (lo_n _ _ _ Hg). unfold upto. rewrite Nat2Z.id. set (s1 := set_fx _ s).
  rewrite (bind_ok _ _ _ _ _ (head_fill n x1 bf blks 0 (wr 4 (Z.of_nat (length blks)) (b_data bf) 0) s1 eq_refl Hbf
    ltac:(intros j b Hj; rewrite Hl1; by eapply lh_block_at))).
  fold (encode_head blks (b_data bf)). unfold s1. rewrite set_fx_set. set (v := encode_head _ _).
  destruct (bwrite_held x1 n st v bf (λ _, brelse n) (set_fx (put_buf n (set_b_data v bf) x1) s) i c cur pr) as (x2 & R2 & W); try done.
  { by eapply becomes_calm; [apply becomes_intro|]. }
  { apply G1. }
  { unfold v, encode_head. by rewrite length_put_blocks, length_wr. }
  rewrite R2, set_fx_set.
  destruct (brelse_held n st (set_fx x2 s) i c cur pr) as (s3 & x3 & R3 & B3 & D3).
  { by eapply becomes_calm; [apply becomes_intro|]. }
  { apply W. }
  { by apply (wo_holds _ _ _ _ _ W). }
  { intros _. rewrite fx_set, (wo_view _ _ _ _ _ W), Z.eqb_refl, (wo_disk _ _ _ _ _ W) by lia.
    rewrite list_lookup_insert_eq; [done|]. rewrite Hd1. lia. }
  rewrite fx_set in D3. destruct (dropped_fields _ _ _ _ D3) as (Dd & Dt & _).
  exists s3, x3. split; [done|]. split; [by eapply becomes_trans; [apply becomes_intro|]|]. split; [|done]. split.
  - apply D3.
  - eapply same_rest_trans; [by eapply same_rest_got|]. eapply same_rest_trans; [apply W|by eapply same_rest_dropped].
  - by rewrite Dd, (wo_disk _ _ _ _ _ W), Hd1.
  - by rewrite Dt, (wo_trace _ _ _ _ _ W), Ht1.
  - intros b' H0. by rewrite (dp_view _ _ _ _ D3), (wo_view _ _ _ _ _ W), (gt_view _ _ _ _ _ G1).
  - intros b' H0. by rewrite (dp_dirty _ _ _ _ D3), (wo_dirty _ _ _ _ _ W), (gt_dirty _ _ _ _ _ G1).
  - pose proof (dp_busy _ _ _ _ D3) as B1. rewrite (wo_dirty _ _ _ _ _ W), Z.eqb_refl, (wo_busy _ _ _ _ _ W) in B1 by lia.
    rewrite (gt_busy _ _ _ _ _ G1) in B1. destruct (dirty (fx s) st); lia.
  - intros b' H0 Hub. apply (unlocked_dropped _ _ _ _ _ D3); [done|]. rewrite (wo_cached _ _ _ _ _ W) by done.
    destruct (decide (b' = st)) as [->|Hne]; [right; eapply holds_cached; [apply G1|done]|]. left.
    intros m Hm. rewrite (wo_cached _ _ _ _ _ W) in Hm by done.
    rewrite (is_locked_ext x1) by apply W. by eapply (unlocked_got (fx s) x1).
Qed.

End loops.

(** ** Committing *)

(** The writes of the four steps of [commit], for blocks [blks] with contents
    [vs], the log at [st] with the header block [d]. *)
Definition log_writes (st : Z) (vs : list (list Z)) : list (Z * list Z) :=
  map (λ k, (st + Z.of_nat k + 1, vs !!! k)) (seq 0 (length vs)).
Definition home_writes (blks : list Z) (vs : list (list Z)) : list (Z * list Z) :=
  map (λ k, (blks !!! k, vs !!! k)) (seq 0 (length vs)).
Definition commit_writes (st : Z) (blks : list Z) (vs : list (list Z)) (d : list Z) : list (Z * list Z) :=
  log_writes st vs ++ [(st, encode_head blks d)] ++ home_writes blks vs
  ++ [(st, encode_head [] (encode_head blks d))].

(** The cache holds contents [vs] for blocks [blks]. *)
Definition contents (x : fsx) (blks : list Z) (vs : list (list Z)) : Prop :=
  length vs = length blks ∧ ∀ k b, blks !! k = Some b → view x b = Some (vs !!! k).

Lemma bio_wf_log x lg : bio_wf x → bio_wf (set_fx_log lg x).
Proof.
  intros [H1 H2 H3 H4 H5]. split; [done|done| |done|done]. intros n bf Hn Hbf. destruct (H3 n bf Hn Hbf). by split.
Qed.

Lemma writes_view_other x x' ws b :
  writes x x' ws → 0 ≤ b → Forall (λ w, w.1 ≠ b) ws → view x' b = view x b ∧ dirty x' b = dirty x b.
Proof.
  induction 1 as [|x x1 x2 b1 v ws Hs _ IH]; intros H0 Hw; [done|]. apply list.Forall_cons in Hw as [Hw1 Hw].
  destruct (IH H0 Hw) as [-> ->]. rewrite (st_view _ _ _ _ Hs), (st_dirty _ _ _ _ Hs) by done.
  simpl in Hw1. by destruct (Z.eqb_spec b b1).
Qed.

Lemma writes_view_at x x' ws b v :
  writes x x' ws → 0 ≤ b → NoDup ws.*1 → (b, v) ∈ ws → view x' b = Some v ∧ dirty x' b = false.
Proof.
  induction 1 as [|x x1 x2 b1 v1 ws Hs Hws IH]; intros H0 Hnd Hin; [by apply elem_of_nil in Hin|].
  apply list.NoDup_cons in Hnd as [Hn Hnd]. apply elem_of_cons in Hin as [[= -> ->]|Hin]; [|by apply IH].
  assert (Forall (λ w, w.1 ≠ b1) ws) as Hoth.
  { apply list.Forall_forall. intros w Hw <-. apply Hn. apply list_elem_of_fmap. by exists w. }
  destruct (writes_view_other _ _ _ _ Hws H0 Hoth) as [-> ->].
  by rewrite (st_view _ _ _ _ Hs), (st_dirty _ _ _ _ Hs), Z.eqb_refl by done.
Qed.

Lemma log_calm_writes x x' ws blks : log_calm x blks → writes x x' ws → log_calm x' blks.
Proof. intros H Hw. induction Hw; [done|]. apply IHHw. by eapply log_calm_stored. Qed.

Lemma fst_log_writes st vs : (log_writes st vs).*1 = map (λ k, st + Z.of_nat k + 1) (seq 0 (length vs)).
Proof. unfold log_writes. change (fmap fst) with (map (@fst Z (list Z))). by rewrite map_map. Qed.

Lemma NoDup_log_writes st vs : NoDup (log_writes st vs).*1.
Proof. rewrite fst_log_writes. apply NoDup_fmap; [intros k k' H; lia|]. apply NoDup_ListNoDup, seq_NoDup. Qed.

Lemma log_writes_at st vs k v : vs !! k = Some v → (st + Z.of_nat k + 1, v) ∈ log_writes st vs.
Proof.
  intros Hk. unfold log_writes. apply list_elem_of_fmap. exists k. rewrite (list_lookup_total_correct _ _ _ Hk). split; [done|].
  apply elem_of_seq. apply lookup_lt_Some in Hk. lia.
Qed.

Lemma log_writes_area st vs w : w ∈ log_writes st vs → st < w.1 ≤ st + Z.of_nat (length vs).
Proof. unfold log_writes. intros (k & -> & Hk%elem_of_seq)%list_elem_of_fmap. simpl. lia. Qed.

Lemma home_writes_zip blks vs : length vs = length blks → home_writes blks vs = zip blks vs.
Proof.
  intros Hl. apply list_eq. intros k. unfold home_writes. change (map ?f ?l) with (f <$> l). rewrite list_lookup_fmap.
  destruct (decide (k < length vs)%nat) as [Hk|Hk].
  - rewrite lookup_seq_lt by done. destruct (lookup_lt_is_Some_2 blks k) as [b Hb]; [lia|].
    destruct (lookup_lt_is_Some_2 vs k) as [v Hv]; [lia|]. simpl. symmetry. apply lookup_zip_Some. 
    by rewrite (list_lookup_total_correct _ _ _ Hb), (list_lookup_total_correct _ _ _ Hv).
  - rewrite lookup_seq_ge by lia. simpl. symmetry. apply lookup_ge_None_2. rewrite length_zip. lia.
Qed.

Section commit.
Context {Xm : Type} (slp : nat).
Implicit Types (s : kstate (Xm * fsx)).

Lemma write_log_ok blks vs s i c cur pr :
  calm s i c cur pr → log_calm (fx s) blks → contents (fx s) blks vs →
  ∃ s' x', write_log (S slp) s = Ok tt s' ∧ becomes s x' s'
    ∧ writes (fx s) x' (log_writes (lg_start (fx_log (fx s))) vs).
Proof.
  intros Hc Hlc [Hl Hv]. pose proof (lc_geom _ _ Hlc) as Hg. set (lg := fx_log (fx s)) in *. set (st := lg_start lg) in *.
  unfold write_log. rewrite bind_get_log. fold lg. rewrite (lo_n _ _ _ Hg). unfold upto. rewrite Nat2Z.id, <- Hl.
  destruct (copy_loop (Xm:=Xm) (write_log_one (S slp)) (λ k, st + Z.of_nat k + 1) (λ k, vs !!! k)
    (λ x, log_calm x blks ∧ fx_log x = lg ∧ ∀ k b, blks !! k = Some b → view x b = Some (vs !!! k)) i c cur pr
    (seq 0 (length vs))) with (s := s) as (s' & x' & R & B & W & _); [by intros x [[] _]| |done|done|by exists s', x'].
  intros k s0 Hk%elem_of_seq Hc0 (I1 & I2 & I3). destruct (lookup_lt_is_Some_2 blks k) as [b Hb]; [lia|].
  destruct (write_log_one_ok slp blks k b (vs !!! k) s0 i c cur pr Hc0 I1 Hb (I3 k b Hb)) as (s1 & x1 & R1 & B1 & S1).
  rewrite I2 in S1. fold st in S1. exists s1, x1. split; [done|]. split; [done|]. split; [done|].
  split; [by eapply log_calm_stored|]. split; [by destruct (st_rest _ _ _ _ S1) as [-> _]|].
  intros k' b' Hb'. pose proof (home_range _ _ _ _ _ Hg Hb') as Q1. pose proof (home_range _ _ _ _ _ Hg Hb) as Q2. fold st in Q1, Q2.
  rewrite (st_view _ _ _ _ S1) by lia. destruct (Z.eqb_spec b' (st + Z.of_nat k + 1)); [lia|by apply I3].
Qed.

Lemma install_trans_ok blks vs s i c cur pr :
  calm s i c cur pr → log_calm (fx s) blks → length vs = length blks →
  (∀ k v, vs !! k = Some v → view (fx s) (lg_start (fx_log (fx s)) + Z.of_nat k + 1) = Some v) →
  ∃ s' x', install_trans (S slp) s = Ok tt s' ∧ becomes s x' s' ∧ writes (fx s) x' (home_writes blks vs).
Proof.
  intros Hc Hlc Hl Hv. pose proof (lc_geom _ _ Hlc) as Hg. set (lg := fx_log (fx s)) in *. set (st := lg_start lg) in *.
  unfold install_trans. rewrite bind_get_log. fold lg. rewrite (lo_n _ _ _ Hg). unfold upto. rewrite Nat2Z.id, <- Hl.
  destruct (copy_loop (Xm:=Xm) (install_one (S slp)) (λ k, blks !!! k) (λ k, vs !!! k)
    (λ x, log_calm x blks ∧ fx_log x = lg ∧ ∀ k v, vs !! k = Some v → view x (st + Z.of_nat k + 1) = Some v) i c cur pr
    (seq 0 (length vs))) with (s := s) as (s' & x' & R & B & W & _); [by intros x [[] _]| |done|done|by exists s', x'].
  intros k s0 Hk%elem_of_seq Hc0 (I1 & I2 & I3). destruct (lookup_lt_is_Some_2 blks k) as [b Hb]; [lia|].
  destruct (lookup_lt_is_Some_2 vs k) as [v Hvk]; [lia|].
  destruct (install_one_ok slp blks k b v s0 i c cur pr Hc0 I1 Hb) as (s1 & x1 & R1 & B1 & S1); [rewrite I2; by apply I3|].
  rewrite (list_lookup_total_correct _ _ _ Hb), (list_lookup_total_correct _ _ _ Hvk).
  exists s1, x1. split; [done|]. split; [done|]. split; [done|].
  split; [by eapply log_calm_stored|]. split; [by destruct (st_rest _ _ _ _ S1) as [-> _]|].
  intros k' v' Hk'. pose proof (lookup_lt_Some _ _ _ Hk'). destruct (lookup_lt_is_Some_2 blks k') as [b' Hb']; [lia|].
  pose proof (home_range _ _ _ _ _ Hg Hb') as Q1. pose proof (home_range _ _ _ _ _ Hg Hb) as Q2.
  pose proof (lo_start _ _ _ Hg) as Q3. fold st in Q1, Q2, Q3.
  rewrite (st_view _ _ _ _ S1) by lia. destruct (Z.eqb_spec (st + Z.of_nat k' + 1) b); [lia|by apply I3].
Qed.

Lemma log_calm_reset x blks : log_calm x blks → log_calm (set_fx_log (set_lg_n 0 (fx_log x)) x) [].
Proof.
  intros [Hw Hg Hu Hb]. split; [by apply bio_wf_log| |exact Hu|exact Hb].
  destruct Hg. split; try done; simpl; try lia; constructor.
Qed.

Lemma home_writes_in lg dlen blks vs w :
  log_geom lg dlen blks → length vs = length blks → w ∈ home_writes blks vs →
  0 ≤ w.1 ∧ w.1 ≠ lg_start lg ∧ ∃ k, blks !! k = Some w.1 ∧ vs !! k = Some w.2.
Proof.
  intros Hg Hl Hw. unfold home_writes in Hw. apply list_elem_of_fmap in Hw as (k & -> & Hk%elem_of_seq).
  destruct (lookup_lt_is_Some_2 blks k) as [b Hb]; [lia|]. destruct (lookup_lt_is_Some_2 vs k) as [v Hvk]; [lia|].
  simpl. rewrite (list_lookup_total_correct _ _ _ Hb), (list_lookup_total_correct _ _ _ Hvk).
  pose proof (home_range _ _ _ _ _ Hg Hb). split; [lia|]. split; [lia|]. by exists k.
Qed.

(** The first three steps: copy to the log, write the header, install. *)
Lemma commit_install_ok {B} (k : unit → K (kstate (Xm * fsx)) B) blks vs d s i c cur pr :
  let st := lg_start (fx_log (fx s)) in
  calm s i c cur pr → log_calm (fx s) blks → contents (fx s) blks vs → view (fx s) st = Some d →
  ∃ s' x', (write_log (S slp);; write_head (S slp);; install_trans (S slp) ≫= k) s = k tt s' ∧ becomes s x' s'
    ∧ writes (fx s) x' (log_writes st vs ++ [(st, encode_head blks d)] ++ home_writes blks vs)
    ∧ view x' st = Some (encode_head blks d).
Proof.
  intros st Hc Hlc [Hl Hv] Hd. pose proof (lc_geom _ _ Hlc) as Hg. set (lg := fx_log (fx s)) in *.
  pose proof (lo_start _ _ _ Hg) as Q0.
  destruct (write_log_ok blks vs s i c cur pr Hc Hlc (conj Hl Hv)) as (s1 & x1 & R1 & B1 & W1). fold lg st in W1.
  pose proof (becomes_fx _ _ _ B1) as F1. pose proof (becomes_calm _ _ _ _ _ _ _ B1 Hc) as Hc1.
  pose proof (log_calm_writes _ _ _ _ Hlc W1) as L1. destruct (writes_rest _ _ _ W1) as (G1 & _). fold lg in G1.
  destruct (write_head_ok slp blks d s1 i c cur pr) as (s2 & x2 & R2 & B2 & S2 & Hdl); [done|by rewrite F1| |].
  { rewrite F1, G1. fold st. destruct (writes_view_other _ _ _ st W1 ltac:(unfold st; lia)) as [-> _]; [|done].
    apply list.Forall_forall. intros w Hw%log_writes_area. lia. }
  rewrite F1, G1 in S2. fold st in S2. pose proof (becomes_fx _ _ _ B2) as F2.
  pose proof (becomes_calm _ _ _ _ _ _ _ B2 Hc1) as Hc2. pose proof (log_calm_stored _ _ _ _ _ L1 S2) as L2.
  destruct (st_rest _ _ _ _ S2) as (G2 & _). rewrite G1 in G2.
  destruct (install_trans_ok blks vs s2 i c cur pr Hc2) as (s3 & x3 & R3 & B3 & W3); [by rewrite F2|done| |].
  { intros j v Hj. rewrite F2, G2. fold st. rewrite (st_view _ _ _ _ S2) by (unfold st; lia).
    destruct (Z.eqb_spec (st + Z.of_nat j + 1) st); [lia|].
    by apply (writes_view_at _ _ _ _ _ W1); [unfold st; lia|apply NoDup_log_writes|apply log_writes_at]. }
  rewrite F2 in W3. exists s3, x3. rewrite (bind_ok _ _ _ _ _ R1), (bind_ok _ _ _ _ _ R2), (bind_ok _ _ _ _ _ R3).
  split; [done|]. split; [by eapply becomes_trans; [|eapply becomes_trans]|]. split.
  - eapply writes_app; [done|]. by econstructor.
  - destruct (writes_view_other _ _ _ st W3 ltac:(unfold st; lia)) as [-> _].
    + apply list.Forall_forall. intros w Hw. by apply (home_writes_in lg _ blks vs w Hg Hl) in Hw as (_ & ? & _).
    + by rewrite (st_view _ _ _ _ S2), Z.eqb_refl by (unfold st; lia).
Qed.

(** The effect of [commit] on the disk, write by write. *)
Lemma commit_ok blks vs d s i c cur pr :
  let st := lg_start (fx_log (fx s)) in
  calm s i c cur pr → log_calm (fx s) blks → blks ≠ [] → contents (fx s) blks vs → view (fx s) st = Some d →
  ∃ s' x', commit (S slp) s = Ok tt s' ∧ becomes s x' s' ∧ log_calm x' []
    ∧ fx_log x' = set_lg_n 0 (fx_log (fx s))
    ∧ fx_disk x' = apply_writes (commit_writes st blks vs d) (fx_disk (fx s))
    ∧ fx_trace x' = rev (commit_writes st blks vs d) ++ fx_trace (fx s).
Proof.
  intros st Hc Hlc Hne Hct Hd. pose proof (lc_geom _ _ Hlc) as Hg. set (lg := fx_log (fx s)) in *.
  unfold commit. rewrite bind_get_log. fold lg. rewrite (lo_n _ _ _ Hg).
  destruct (Z.ltb_spec 0 (Z.of_nat (length blks))) as [_|Hbad]; [|destruct blks; simpl in Hbad; [done|lia]].
  destruct (commit_install_ok (λ _, alter_log (set_lg_n 0);; write_head (S slp)) blks vs d s i c cur pr Hc Hlc Hct Hd)
    as (s3 & x3 & R3 & B3 & W3 & V3). fold lg st in W3, V3. rewrite R3, bind_alter_log. 
  pose proof (becomes_fx _ _ _ B3) as F3. pose proof (becomes_calm _ _ _ _ _ _ _ B3 Hc) as Hc3.
  pose proof (log_calm_writes _ _ _ _ Hlc W3) as L3. destruct (writes_rest _ _ _ W3) as (G3 & _). fold lg in G3.
  rewrite F3. set (x4 := set_fx_log (set_lg_n 0 (fx_log x3)) x3).
  assert (becomes s x4 (set_fx x4 s3)) as B4 by (by eapply becomes_modify).
  destruct (write_head_ok slp [] (encode_head blks d) (set_fx x4 s3) i c cur pr) as (s5 & x5 & R5 & B5 & S5 & _).
  { by eapply becomes_calm. }
  { by eapply log_calm_reset. }
  { rewrite fx_set. cbn [fx_log x4 set_fx_log set_lg_n lg_start]. rewrite G3. exact V3. }
  rewrite fx_set in S5. assert (lg_start (fx_log x4) = st) as E4 by (unfold x4; cbn; by rewrite G3). rewrite E4 in S5.
  exists s5, x5. split; [done|]. split; [by eapply becomes_trans|].
  split; [eapply log_calm_stored; [by eapply log_calm_reset|done]|].
  split. { destruct (st_rest _ _ _ _ S5) as (-> & _). unfold x4. cbn. by rewrite G3. }
  unfold commit_writes. rewrite (st_disk _ _ _ _ S5), (st_trace _ _ _ _ S5). cbn [fx_disk fx_trace x4 set_fx_log].
  change (fx_disk x4) with (fx_disk x3). change (fx_trace x4) with (fx_trace x3).
  rewrite (writes_disk _ _ _ W3), (writes_trace _ _ _ W3).
  rewrite !apply_writes_app, !rev_app_distr. simpl. by rewrite <- !app_assoc.
Qed.

End commit.

(** ** Recovery *)

Section recovery.
Context {Xm : Type} (slp : nat).
Implicit Types (s : kstate (Xm * fsx)).

(** The in-memory header after [read_head] found [bl]. *)
Definition load_head (bl : list Z) (lg : log) : log :=
  set_lg_block (bl ++ drop (length bl) (lg_block lg)) (set_lg_n (Z.of_nat (length bl)) lg).

Lemma set_lh_block_ok j v s :
  (j < length (lg_block (fx_log (fx s))))%nat →
  set_lh_block j v s = Ok tt (set_fx (set_fx_log (set_lg_block (<[j := v]> (lg_block (fx_log (fx s)))) (fx_log (fx s))) (fx s)) s).
Proof. intros H. unfold set_lh_block. rewrite bind_get_log. by destruct (Nat.ltb_spec j (length (lg_block (fx_log (fx s))))); [|lia]. Qed.

Lemma load_loop (f : nat → Z) m : ∀ k s,
  (k + m ≤ length (lg_block (fx_log (fx s))))%nat →
  kfor_ (seq k m) (λ i, set_lh_block i (f i)) s
  = Ok tt (set_fx (set_fx_log (set_lg_block (take k (lg_block (fx_log (fx s))) ++ map f (seq k m)
      ++ drop (k + m) (lg_block (fx_log (fx s)))) (fx_log (fx s))) (fx s)) s).
Proof.
  induction m as [|m IH]; intros k s Hlen; cbn [kfor_ seq map].
  - rewrite Nat.add_0_r. simpl. rewrite take_drop. unfold mret, K_ret. f_equal. symmetry. etransitivity; [|apply set_fx_id].
    f_equal. destruct (fx s) as [?? ? ? [] ? ? ? ?]. done.
  - rewrite (bind_ok _ _ _ _ _ (set_lh_block_ok k (f k) s ltac:(lia))).
    rewrite IH; [|cbn; rewrite length_insert; lia]. rewrite set_fx_set, fx_set. cbn [fx_log set_fx_log lg_block set_lg_block].
    do 2 f_equal. unfold set_fx_log, set_lg_block. cbn. do 2 f_equal. set (bl := lg_block (fx_log (fx s))) in *.
    assert (take (S k) (<[k := f k]> bl) = take k bl ++ [f k]) as ->.
    { rewrite (take_S_r _ _ (f k)) by (rewrite list_lookup_insert_eq by lia; done). by rewrite take_insert_ge by lia. }
    rewrite drop_insert_lt by lia. rewrite <- app_assoc. simpl. repeat f_equal. lia.
Qed.

(** [x'] differs from [x] only in how blocks are cached, and in the log. *)
Record kept (x x' : fsx) : Prop := Kept {
  kp_wf : bio_wf x';
  kp_disk : fx_disk x' = fx_disk x;
  kp_trace : fx_trace x' = fx_trace x;
  kp_view : ∀ b, 0 ≤ b → view x' b = view x b;
  kp_dirty : ∀ b, 0 ≤ b → dirty x' b = dirty x b;
  kp_busy : busy_count x' = busy_count x;
  kp_unlocked : ∀ b, 0 ≤ b → unlocked x b → unlocked x' b
}.

(** Locking a block, possibly changing the log's record, and giving the block
    back. *)
Lemma kept_read x x1 x2 pid n b lg :
  bio_wf x → 0 ≤ b → got x x1 pid n b → dropped (set_fx_log lg x1) x2 n b → kept x x2.
Proof.
  intros Hw H0 G D. destruct (got_fields _ _ _ _ _ G) as (D1 & T1 & _), (dropped_fields _ _ _ _ D) as (D2 & T2 & _).
  split; [apply D|by rewrite D2|by rewrite T2| | | |].
  - intros b' Hb'. rewrite (dp_view _ _ _ _ D) by done. by apply (gt_view _ _ _ _ _ G).
  - intros b' Hb'. rewrite (dp_dirty _ _ _ _ D) by done. by apply (gt_dirty _ _ _ _ _ G).
  - pose proof (dp_busy _ _ _ _ D) as B. change (busy_count (set_fx_log lg x1)) with (busy_count x1) in B.
    change (dirty (set_fx_log lg x1) b) with (dirty x1 b) in B.
    rewrite (gt_busy _ _ _ _ _ G), (gt_dirty _ _ _ _ _ G) in B by done. destruct (dirty x b); lia.
  - intros b' Hb' Hu. apply (unlocked_dropped _ _ _ _ _ D); [done|].
    destruct (decide (b' = b)) as [->|Hne]; [right; eapply (holds_cached x1); apply G|left].
    apply (unlocked_got _ _ _ _ _ _ Hw G Hu Hne).
Qed.

Lemma read_head_ok d bl s i c cur pr :
  let lg := fx_log (fx s) in
  calm s i c cur pr → bio_wf (fx s) → lg_dev lg = 1 → 0 < lg_start lg < Z.of_nat (length (fx_disk (fx s))) →
  Z.of_nat (length (fx_disk (fx s))) < 2 ^ 31 → length (lg_block lg) = Z.to_nat LOGSIZE →
  (∀ b, 0 ≤ b → unlocked (fx s) b) → (busy_count (fx s) < NBUF)%nat → view (fx s) (lg_start lg) = Some d →
  decode_head d = bl → Z.of_nat (length bl) ≤ LOGSIZE → 0 ≤ s32 (rd 4 d 0) →
  ∃ s' x', read_head (S slp) s = Ok tt s' ∧ becomes s x' s' ∧ kept (fx s) x' ∧ fx_log x' = load_head bl lg
    ∧ fx_sb x' = fx_sb (fx s) ∧ fx_inodes x' = fx_inodes (fx s) ∧ fx_files x' = fx_files (fx s) ∧ fx_pipes x' = fx_pipes (fx s).
Proof.
  intros lg Hc Hw Hdev Hst Hlen Hbl Hu Hbusy Hv Hdec Hn Hpos.
  assert (s32 (rd 4 d 0) = Z.of_nat (length bl)) as Hcount.
  { rewrite <- Hdec. unfold decode_head, upto. rewrite length_map, length_seq. lia. }
  unfold read_head. rewrite bind_get_log. fold lg. rewrite Hdev. change (u32 1) with 1. rewrite u32_small by lia.
  destruct (bread_ok slp (lg_start lg) s i c cur pr Hc Hw ltac:(lia)) as (n & x1 & R1 & G1);
    [by apply available_intro; [|apply Hu; lia|]|].
  rewrite (bind_ok _ _ _ _ _ R1). pose proof (gt_holds _ _ _ _ _ G1) as Hh. pose proof Hh as (Hn1 & _ & bf & Hbf & _).
  destruct (got_fields _ _ _ _ _ G1) as (Hd1 & Ht1 & Hl1 & Hrest). fold lg in Hl1.
  destruct (held_flags _ _ _ _ _ (gt_wf _ _ _ _ _ G1) Hh Hbf) as (_ & _ & _ & _ & _ & Hv1 & _).
  rewrite (gt_view _ _ _ _ _ G1), Hv in Hv1 by lia. injection Hv1 as Hdat.
  rewrite (bind_get_data n bf), <- Hdat by done. rewrite bind_alter_log, bind_get_log, !set_fx_set, !fx_set, Hl1, Hcount.
  cbn [fx_log set_fx_log lg_n set_lg_n]. unfold upto. rewrite Nat2Z.id.
  rewrite (bind_ok _ _ _ _ _ (load_loop (λ j, s32 (rd 4 d (4 + 4 * j))) (length bl) 0
    (set_fx (set_fx_log (set_lg_n (Z.of_nat (length bl)) lg) x1) s) ltac:(cbn; unfold LOGSIZE, MAXOPBLOCKS in *; lia))).
  unfold decode_head, upto in Hdec. rewrite Hcount, Nat2Z.id in Hdec. rewrite Hdec, !fx_set.
  set (x2 := set_fx_log _ _). set (s2 := set_fx x2 _).
  assert (x2 = set_fx_log (load_head bl lg) x1) as Hx2 by done. assert (0 ≤ lg_start lg) as H0 by lia.
  destruct (brelse_held n (lg_start lg) s2 i c cur pr) as (s3 & x3 & R3 & B3 & D3).
  { unfold s2. rewrite set_fx_set. by eapply becomes_calm; [apply becomes_intro|]. }
  { change (fx s2) with x2. rewrite Hx2. apply bio_wf_log, G1. }
  { change (fx s2) with x2. rewrite Hx2. exact Hh. }
  { change (fx s2) with x2. rewrite Hx2. intros Hd0. cbn [fx_disk set_fx_log]. rewrite Hd1.
    change (view x1 (lg_start lg) = fx_disk (fx s) !! Z.to_nat (lg_start lg)).
    change (dirty x1 (lg_start lg) = false) in Hd0. rewrite (gt_dirty _ _ _ _ _ G1) in Hd0 by exact H0.
    rewrite (gt_view _ _ _ _ _ G1) by exact H0. apply clean_view; [done|by apply Hu|done|done]. }
  change (fx s2) with x2 in D3. rewrite Hx2 in D3. destruct (dropped_fields _ _ _ _ D3) as (_ & _ & E1 & E2 & E3 & E4 & E5).
  exists s3, x3. split; [done|]. split; [eapply becomes_trans; [|done]; unfold s2; rewrite set_fx_set; apply becomes_intro|].
  split; [exact (kept_read _ _ _ _ _ _ _ Hw H0 G1 D3)|]. rewrite E1, E2, E3, E4, E5. by destruct Hrest as (? & ? & ? & ?).
Qed.

(** A machine just booted: nothing is cached that differs from the disk. *)
Record booted (x : fsx) : Prop := Booted {
  bt0_wf : bio_wf x;
  bt0_unlocked : ∀ b, 0 ≤ b → unlocked x b;
  bt0_clean : ∀ b, 0 ≤ b → dirty x b = false;
  bt0_busy : (busy_count x + 2 ≤ NBUF)%nat
}.

Lemma booted_view x b : booted x → 0 ≤ b → view x b = fx_disk x !! Z.to_nat b.
Proof. intros [H1 H2 H3 _] H0. by apply clean_view; [|apply H2| |apply H3]. Qed.

Lemma recover_ok d bl vs s i c cur pr :
  let lg := fx_log (fx s) in
  calm s i c cur pr → booted (fx s) → fx_disk (fx s) !! Z.to_nat (lg_start lg) = Some d →
  decode_head d = bl → 0 ≤ s32 (rd 4 d 0) → length (lg_block lg) = Z.to_nat LOGSIZE →
  log_geom (load_head bl lg) (length (fx_disk (fx s))) bl → length vs = length bl →
  (∀ k v, vs !! k = Some v → fx_disk (fx s) !! Z.to_nat (lg_start lg + Z.of_nat k + 1) = Some v) →
  ∃ s' x', recover_from_log (S slp) s = Ok tt s' ∧ becomes s x' s' ∧ log_calm x' []
    ∧ fx_disk x' = apply_writes (home_writes bl vs ++ [(lg_start lg, encode_head [] d)]) (fx_disk (fx s)).
Proof.
  intros lg Hc Hbt Hd Hdec Hpos Hbl Hg Hl Hv. pose proof (lo_start _ _ _ Hg) as Q0. pose proof (lo_size _ _ _ Hg) as Q1.
  pose proof (lo_room _ _ _ Hg) as Q2. cbn in Q0, Q1, Q2. set (st := lg_start lg) in *.
  destruct Hbt as [Hw Hu Hcl Hbusy]. assert (Hbt : booted (fx s)) by by split.
  unfold recover_from_log.
  destruct (read_head_ok d bl s i c cur pr Hc Hw (lo_dev _ _ _ Hg)) as (s1 & x1 & R1 & B1 & K1 & G1 & _); fold lg st; try done; try lia.
  { rewrite booted_view by (done || lia). done. }
  { apply (lo_fits _ _ _ Hg). }
  fold lg in G1. rewrite (bind_ok _ _ _ _ _ R1). pose proof (becomes_fx _ _ _ B1) as F1.
  pose proof (becomes_calm _ _ _ _ _ _ _ B1 Hc) as Hc1. destruct K1 as [Kw Kd Kt Kv Kdi Kb Ku].
  assert (log_calm x1 bl) as L1.
  { split; [done|by rewrite G1, Kd|intros b H0; apply Ku; [done|by apply Hu]|lia]. }
  destruct (install_trans_ok slp bl vs s1 i c cur pr Hc1) as (s2 & x2 & R2 & B2 & W2); [by rewrite F1|done| |].
  { intros k v Hk. rewrite F1, G1. cbn. fold st. rewrite Kv, booted_view by (done || lia). by apply Hv. }
  rewrite F1 in W2. rewrite (bind_ok _ _ _ _ _ R2), bind_alter_log. pose proof (becomes_fx _ _ _ B2) as F2. rewrite F2.
  pose proof (log_calm_writes _ _ _ _ L1 W2) as L2. destruct (writes_rest _ _ _ W2) as (G2 & _). rewrite G1 in G2.
  set (x3 := set_fx_log (set_lg_n 0 (fx_log x2)) x2).
  assert (becomes s x3 (set_fx x3 s2)) as B3 by (eapply becomes_modify, becomes_trans; done).
  assert (lg_start (fx_log x3) = st) as E3 by (unfold x3; cbn; by rewrite G2).
  destruct (write_head_ok slp [] d (set_fx x3 s2) i c cur pr) as (s4 & x4 & R4 & B4 & S4 & _).
  { by eapply becomes_calm. }
  { by eapply log_calm_reset. }
  { rewrite fx_set, E3. change (view x3 st) with (view x2 st).
    destruct (writes_view_other _ _ _ st W2 ltac:(lia)) as [-> _].
    - apply list.Forall_forall. intros w Hw2. by apply (home_writes_in _ _ bl vs w Hg Hl) in Hw2 as (_ & ? & _).
    - rewrite Kv, booted_view by (done || lia). done. }
  rewrite fx_set, E3 in S4. exists s4, x4. split; [done|]. split; [by eapply becomes_trans|].
  split; [eapply log_calm_stored; [by eapply log_calm_reset|done]|].
  rewrite (st_disk _ _ _ _ S4). change (fx_disk x3) with (fx_disk x2).
  by rewrite (writes_disk _ _ _ W2), Kd, apply_writes_app.
Qed.

End recovery.

(** ** Crashes *)

(** Blocks outside the log. *)
Definition home (lg : log) (dlen : nat) (b : Z) : Prop :=
  0 ≤ b < Z.of_nat dlen ∧ ¬ (lg_start lg ≤ b < lg_start lg + lg_size lg).

Lemma apply_writes_at ws d b v :
  NoDup ws.*1 → Forall (λ w, 0 ≤ w.1) ws → (b, v) ∈ ws → (Z.to_nat b < length d)%nat → apply_writes ws d !! Z.to_nat b = Some v.
Proof.
  revert d. induction ws as [|w ws IH]; intros d Hnd Hpos Hin Hlt; [by apply elem_of_nil in Hin|].
  apply list.NoDup_cons in Hnd as [Hn Hnd]. apply list.Forall_cons in Hpos as [Hp Hpos]. simpl.
  apply elem_of_cons in Hin as [<-|Hin]; [|by apply IH; [| | |rewrite length_insert]].
  simpl in Hp. rewrite apply_writes_other; [by rewrite list_lookup_insert_eq|done|].
  rewrite list.Forall_forall in Hpos |- *. intros w Hw. split; [by apply Hpos|]. intros E. apply Hn.
  apply list_elem_of_fmap. exists w. by rewrite E.
Qed.

(** Installing again after a partial installation. *)
Lemma apply_writes_again ws p d b :
  NoDup ws.*1 → Forall (λ w, 0 ≤ w.1) ws → (∀ w, w ∈ p → w ∈ ws) → 0 ≤ b → (Z.to_nat b < length d)%nat →
  apply_writes ws (apply_writes p d) !! Z.to_nat b = apply_writes ws d !! Z.to_nat b.
Proof.
  intros Hnd Hpos Hp H0 Hlt. destruct (decide (b ∈ ws.*1)) as [Hin|Hout].
  - apply list_elem_of_fmap in Hin as ([b' v] & -> & Hin). simpl in *.
    by rewrite !(apply_writes_at ws _ b' v) by (rewrite ?length_apply_writes; done).
  - assert (∀ q, (∀ w, w ∈ q → w ∈ ws) → Forall (λ w, 0 ≤ w.1 ∧ w.1 ≠ b) q) as Hq.
    { intros q Hq. rewrite list.Forall_forall in Hpos |- *. intros w Hw%Hq. split; [by apply Hpos|].
      intros E. apply Hout, list_elem_of_fmap. by exists w. }
    by rewrite !apply_writes_other by (done || by apply Hq).
Qed.

Lemma prefix_app_inv {A} (p l1 l2 : list A) : p `prefix_of` l1 ++ l2 → p `prefix_of` l1 ∨ ∃ q, p = l1 ++ q ∧ q `prefix_of` l2.
Proof.
  revert p. induction l1 as [|a l1 IH]; intros p Hp; [right; by exists p|]. destruct p as [|a' p]; [left; apply prefix_nil|].
  simpl in Hp. pose proof (prefix_cons_inv_1 _ _ _ _ Hp) as ->. apply prefix_cons_inv_2, IH in Hp as [Hp|(q & -> & Hq)].
  - left. by apply prefix_cons.
  - right. by exists q.
Qed.

Section crash.
Context (lg : log) (D : list (list Z)) (blks : list Z) (vs : list (list Z)) (d : list Z).
Context (Hg : log_geom lg (length D) blks) (Hl : length vs = length blks) (Hdl : length d = Z.to_nat BSIZE).
Let st := lg_start lg.

Lemma st_range : 0 < st < Z.of_nat (length D).
Proof. pose proof (lo_start _ _ _ Hg). pose proof (lo_size _ _ _ Hg). pose proof (lo_room _ _ _ Hg). unfold st. lia. Qed.

Lemma home_not_logged b : home lg (length D) b → Forall (λ w, 0 ≤ w.1 ∧ w.1 ≠ b) (log_writes st vs) ∧ b ≠ st.
Proof.
  intros [H0 Hb]. pose proof st_range. pose proof (lo_room _ _ _ Hg). split; [|fold st in Hb; lia].
  apply list.Forall_forall. intros w Hw%log_writes_area. fold st in Hb. lia.
Qed.

Lemma home_writes_pos : Forall (λ w, 0 ≤ w.1) (home_writes blks vs).
Proof. apply list.Forall_forall. intros w Hw. by apply (home_writes_in _ _ _ _ _ Hg Hl) in Hw as [? _]. Qed.

Lemma home_writes_nodup : NoDup (home_writes blks vs).*1.
Proof. rewrite home_writes_zip by done. rewrite fst_zip by lia. apply (lo_nodup _ _ _ Hg). Qed.

Lemma decode_logged : decode_head (encode_head blks d) = blks ∧ 0 ≤ s32 (rd 4 (encode_head blks d) 0).
Proof.
  pose proof (lo_fits _ _ _ Hg) as Hf. split.
  - apply decode_encode; [done|done|]. pose proof (lo_home _ _ _ Hg) as Hh. pose proof (lo_size _ _ _ Hg).
    rewrite list.Forall_forall in Hh |- *. intros b Hb. destruct (Hh b Hb). lia.
  - unfold encode_head, LOGSIZE, MAXOPBLOCKS, BSIZE in *. rewrite put_blocks_before by lia. rewrite rd_wr_eq by lia.
    change (2 ^ (8 * Z.of_nat 4)) with (2 ^ 32). rewrite Z.mod_small, s32_small by lia. lia.
Qed.

Lemma decode_cleared d' : length d' = Z.to_nat BSIZE → decode_head (encode_head [] d') = [] ∧ s32 (rd 4 (encode_head [] d') 0) = 0.
Proof.
  intros Hd'. assert (s32 (rd 4 (encode_head [] d') 0) = 0) as E.
  { unfold encode_head, put_blocks, BSIZE in *. rewrite rd_wr_eq by lia. reflexivity. }
  split; [|done]. unfold decode_head. by rewrite E.
Qed.

(** The disk after a crash while the blocks are copied to the log. *)
Lemma crash_early p b : p `prefix_of` log_writes st vs → home lg (length D) b ∨ b = st → apply_writes p D !! Z.to_nat b = D !! Z.to_nat b.
Proof.
  intros [r Hr] Hb. pose proof st_range. destruct Hb as [Hb|Hb].
  - destruct (home_not_logged b Hb) as [Hb1 _]. destruct Hb as [Hb0 _]. apply apply_writes_other; [lia|].
    rewrite Hr in Hb1. by apply Forall_app in Hb1 as [? _].
  - subst b. apply apply_writes_other; [lia|]. apply list.Forall_forall. intros w Hw.
    assert (w ∈ log_writes st vs) as Hw'%log_writes_area by (rewrite Hr; apply elem_of_app; by left). lia.
Qed.

Let D2 := apply_writes (log_writes st vs ++ [(st, encode_head blks d)]) D.

Lemma home_prefix_pos q : q `prefix_of` home_writes blks vs → ∀ w, w ∈ q → w ∈ home_writes blks vs.
Proof. intros [r ->] w Hw. apply elem_of_app. by left. Qed.

(** After the header is written: the header and the log stay while installing. *)
Lemma crash_late q : q `prefix_of` home_writes blks vs →
  apply_writes q D2 !! Z.to_nat st = Some (encode_head blks d)
  ∧ ∀ k v, vs !! k = Some v → apply_writes q D2 !! Z.to_nat (st + Z.of_nat k + 1) = Some v.
Proof.
  intros Hq. pose proof st_range as Hst. pose proof (lo_room _ _ _ Hg) as Hroom. pose proof (lo_size _ _ _ Hg) as Hsz.
  assert (∀ b, st ≤ b < st + lg_size lg → apply_writes q D2 !! Z.to_nat b = D2 !! Z.to_nat b) as Hsame.
  { intros b Hb. apply apply_writes_other; [lia|]. apply list.Forall_forall. intros w Hw%(home_prefix_pos q Hq).
    apply (home_writes_in _ _ _ _ _ Hg Hl) in Hw as (Hw & _ & k & Hk & _). split; [done|].
    pose proof (home_range _ _ _ _ _ Hg Hk) as Q. fold st in Q. lia. }
  unfold D2 in *. split.
  - rewrite Hsame by lia. rewrite apply_writes_app. simpl. rewrite list_lookup_insert_eq; [done|]. rewrite length_apply_writes. lia.
  - intros k v Hk. pose proof (lookup_lt_Some _ _ _ Hk). rewrite Hsame by lia. rewrite apply_writes_app. simpl.
    rewrite list_lookup_insert_ne by lia. apply apply_writes_at; [apply NoDup_log_writes| |by apply log_writes_at|lia].
    apply list.Forall_forall. intros w Hw%log_writes_area. lia.
Qed.

Lemma crash_home q b : q `prefix_of` home_writes blks vs → home lg (length D) b →
  apply_writes (home_writes blks vs) (apply_writes q D2) !! Z.to_nat b = apply_writes (home_writes blks vs) D !! Z.to_nat b
  ∧ apply_writes (home_writes blks vs) D2 !! Z.to_nat b = apply_writes (home_writes blks vs) D !! Z.to_nat b.
Proof.
  intros Hq Hb. destruct (home_not_logged b Hb) as [Hb1 Hb2]. destruct Hb as [Hb0 _]. pose proof st_range as Hst.
  assert (apply_writes (home_writes blks vs) D2 !! Z.to_nat b = apply_writes (home_writes blks vs) D !! Z.to_nat b) as E.
  { destruct (decide (b ∈ (home_writes blks vs).*1)) as [Hin|Hout].
    - apply list_elem_of_fmap in Hin as ([b' v] & -> & Hin). simpl in *.
      rewrite !(apply_writes_at _ _ b' v); try done; [apply home_writes_nodup|apply home_writes_pos|lia|apply home_writes_nodup|apply home_writes_pos|].
      unfold D2. rewrite length_apply_writes. lia.
    - assert (Forall (λ w, 0 ≤ w.1 ∧ w.1 ≠ b) (home_writes blks vs)) as Ho.
      { pose proof home_writes_pos as Hp. rewrite list.Forall_forall in Hp |- *. intros w Hw. split; [by apply Hp|].
        intros E. apply Hout, list_elem_of_fmap. by exists w. }
      rewrite !(apply_writes_other (home_writes blks vs)) by (done || lia). unfold D2. rewrite apply_writes_other; [done|lia|].
      apply Forall_app. split; [done|]. constructor; [|constructor]. simpl. lia. }
  split; [|done]. rewrite <- E. apply apply_writes_again; [apply home_writes_nodup|apply home_writes_pos|by apply home_prefix_pos|lia|].
  unfold D2. rewrite length_apply_writes. lia.
Qed.

(** What a crash after the writes [ws1] of [commit] leaves: a clear header, with
    all home blocks old or all new, or a header with the whole transaction in
    the log and some blocks installed. *)
Lemma crash_disk ws1 :
  D !! Z.to_nat st = Some d → decode_head d = [] → s32 (rd 4 d 0) = 0 →
  ws1 `prefix_of` commit_writes st blks vs d →
  let D1 := apply_writes ws1 D in
  ∃ hd, D1 !! Z.to_nat st = Some hd ∧
   ((decode_head hd = [] ∧ s32 (rd 4 hd 0) = 0
     ∧ ((ws1 `prefix_of` log_writes st vs ∧ ∀ b, home lg (length D) b → D1 !! Z.to_nat b = D !! Z.to_nat b)
        ∨ (∀ b, home lg (length D) b → D1 !! Z.to_nat b = apply_writes (home_writes blks vs) D !! Z.to_nat b)))
    ∨ (decode_head hd = blks ∧ 0 ≤ s32 (rd 4 hd 0)
       ∧ (∀ k v, vs !! k = Some v → D1 !! Z.to_nat (st + Z.of_nat k + 1) = Some v)
       ∧ ∀ b, home lg (length D) b →
           apply_writes (home_writes blks vs) D1 !! Z.to_nat b = apply_writes (home_writes blks vs) D !! Z.to_nat b)).
Proof.
  intros Hd Hdec Hz Hpre. cbv zeta. pose proof st_range as Hst.
  assert (∀ p, p `prefix_of` log_writes st vs → ∃ hd, apply_writes p D !! Z.to_nat st = Some hd ∧
    decode_head hd = [] ∧ s32 (rd 4 hd 0) = 0 ∧ ∀ b, home lg (length D) b → apply_writes p D !! Z.to_nat b = D !! Z.to_nat b) as Hearly.
  { intros p Hp. exists d. rewrite (crash_early p st Hp) by by right. do 3 (split; [done|]). intros b Hb. apply crash_early; auto. }
  assert (∀ q, q `prefix_of` home_writes blks vs → ∃ hd, apply_writes q D2 !! Z.to_nat st = Some hd ∧
    decode_head hd = blks ∧ 0 ≤ s32 (rd 4 hd 0)
    ∧ (∀ k v, vs !! k = Some v → apply_writes q D2 !! Z.to_nat (st + Z.of_nat k + 1) = Some v)
    ∧ ∀ b, home lg (length D) b → apply_writes (home_writes blks vs) (apply_writes q D2) !! Z.to_nat b
        = apply_writes (home_writes blks vs) D !! Z.to_nat b) as Hlate.
  { intros q Hq. destruct (crash_late q Hq) as [H1 H2]. exists (encode_head blks d). split; [done|].
    destruct decode_logged. do 3 (split; [done|]). intros b Hb. by apply crash_home. }
  unfold commit_writes in Hpre. apply prefix_app_inv in Hpre as [Hpre|(q & -> & Hq)].
  { destruct (Hearly _ Hpre) as (hd & ? & ? & ? & ?). exists hd. split; [done|]. left. split; [done|]. split; [done|]. by left. }
  destruct q as [|h1 q].
  { rewrite app_nil_r. destruct (Hearly (log_writes st vs)) as (hd & ? & ? & ? & ?); [done|].
    exists hd. split; [done|]. left. split; [done|]. split; [done|]. by left. }
  simpl in Hq. pose proof (prefix_cons_inv_1 _ _ _ _ Hq) as ->. apply prefix_cons_inv_2 in Hq.
  assert (∀ r, apply_writes (log_writes st vs ++ (st, encode_head blks d) :: r) D = apply_writes r D2) as E.
  { intros r. unfold D2. by rewrite <- apply_writes_app, <- app_assoc. }
  rewrite E. apply prefix_app_inv in Hq as [Hq|(r & -> & Hr)].
  { destruct (Hlate q Hq) as (hd & ? & ? & ? & ? & ?). exists hd. split; [done|]. by right. }
  destruct r as [|h2 r].
  { rewrite app_nil_r. destruct (Hlate (home_writes blks vs)) as (hd & ? & ? & ? & ? & ?); [done|]. exists hd. split; [done|]. by right. }
  pose proof (prefix_cons_inv_1 _ _ _ _ Hr) as ->. apply prefix_cons_inv_2, prefix_nil_inv in Hr as ->.
  rewrite apply_writes_app. change (apply_writes [(st, ?v)] ?l) with (<[Z.to_nat st := v]> l).
  exists (encode_head [] (encode_head blks d)).
  rewrite list_lookup_insert_eq by (unfold D2; rewrite !length_apply_writes; lia). split; [done|]. left.
  destruct (decode_cleared (encode_head blks d)) as [-> ->]; [unfold encode_head; by rewrite length_put_blocks, length_wr|].
  split; [done|]. split; [done|]. right. intros b Hb. destruct (home_not_logged b Hb) as [_ Hne].
  rewrite list_lookup_insert_ne by (destruct Hb; lia). by apply (crash_home []), Hb; apply prefix_nil.
Qed.

(** Without a crash the home blocks are new. *)
Lemma no_crash_home b :
  home lg (length D) b →
  apply_writes (commit_writes st blks vs d) D !! Z.to_nat b = apply_writes (home_writes blks vs) D !! Z.to_nat b.
Proof.
  intros Hb. destruct (home_not_logged b Hb) as [_ Hne]. unfold commit_writes. rewrite !app_assoc, apply_writes_app.
  change (apply_writes [(st, ?v)] ?l) with (<[Z.to_nat st := v]> l). pose proof st_range.
  rewrite list_lookup_insert_ne by (destruct Hb; lia). rewrite apply_writes_app. fold D2. by apply (crash_home []), Hb; apply prefix_nil.
Qed.

End crash.

(** The log of a rebooted machine: same place, nothing known of its contents. *)
Definition rebooted_log (lg lg' : log) : Prop :=
  lg_dev lg' = 1 ∧ lg_start lg' = lg_start lg ∧ lg_size lg' = lg_size lg ∧ length (lg_block lg') = Z.to_nat LOGSIZE.

Lemma log_geom_reboot lg lg' dlen blks bl :
  log_geom lg dlen blks → rebooted_log lg lg' → bl = [] ∨ bl = blks → log_geom (load_head bl lg') dlen bl.
Proof.
  intros [] (E1 & E2 & E3 & E4) Hbl.
  assert (∀ l : list Z, (length l ≤ Z.to_nat LOGSIZE)%nat → length (l ++ drop (length l) (lg_block lg')) = Z.to_nat LOGSIZE) as Hlen.
  { intros l Hle. rewrite length_app, length_drop. lia. }
  destruct Hbl as [-> | ->]; split; cbn -[LOGSIZE drop]; rewrite ?E2, ?E3; try done; try lia; try constructor.
  - apply Hlen. lia.
  - by rewrite take_app_length.
Qed.

Lemma recovered_home lg D bl vs d b :
  log_geom lg (length D) bl → home lg (length D) b →
  apply_writes (home_writes bl vs ++ [(lg_start lg, d)]) D !! Z.to_nat b = apply_writes (home_writes bl vs) D !! Z.to_nat b.
Proof.
  intros Hg [H0 Hb]. pose proof (lo_start _ _ _ Hg). pose proof (lo_room _ _ _ Hg). rewrite apply_writes_app. simpl.
  by rewrite list_lookup_insert_ne by lia.
Qed.

(** C1: Transactions are atomic across crashes.  [commit] of the logged blocks
    [blks], with contents [vs] in the cache, writes the disk in the order
    [commit_writes] and ends with every home block new.  If the machine stops
    after any number of these writes, [recover_from_log] on the disk it finds
    succeeds and leaves the home blocks either all as they were before (only
    possible while the blocks were being copied to the log) or all new. *)
Theorem commit_crash_atomic {Xm Xm' : Type} slp (s : kstate (Xm * fsx)) i c cur pr blks vs d :
  let lg := fx_log (fx s) in let D := fx_disk (fx s) in
  let ws := commit_writes (lg_start lg) blks vs d in
  let D' := apply_writes (home_writes blks vs) D in
  calm s i c cur pr → log_calm (fx s) blks → blks ≠ [] → contents (fx s) blks vs →
  view (fx s) (lg_start lg) = Some d → D !! Z.to_nat (lg_start lg) = Some d → decode_head d = [] → s32 (rd 4 d 0) = 0 →
  (∃ s' x', commit (S slp) s = Ok tt s' ∧ becomes s x' s' ∧ log_calm x' [] ∧ fx_trace x' = rev ws ++ fx_trace (fx s)
     ∧ ∀ b, home lg (length D) b → fx_disk x' !! Z.to_nat b = D' !! Z.to_nat b)
  ∧ (∀ ws1 (s2 : kstate (Xm' * fsx)) i2 c2 cur2 pr2, ws1 `prefix_of` ws → calm s2 i2 c2 cur2 pr2 → booted (fx s2) →
       fx_disk (fx s2) = apply_writes ws1 D → rebooted_log lg (fx_log (fx s2)) →
       ∃ s3 x3, recover_from_log (S slp) s2 = Ok tt s3 ∧ becomes s2 x3 s3 ∧ log_calm x3 []
         ∧ ((ws1 `prefix_of` log_writes (lg_start lg) vs ∧ ∀ b, home lg (length D) b → fx_disk x3 !! Z.to_nat b = D !! Z.to_nat b)
            ∨ ∀ b, home lg (length D) b → fx_disk x3 !! Z.to_nat b = D' !! Z.to_nat b)).
Proof.
  intros lg D ws D' Hc Hlc Hne Hct Hv Hd Hdec Hz. pose proof (lc_geom _ _ Hlc) as Hg. fold lg D in Hg.
  pose proof (bw_disk _ (lc_wf _ _ Hlc) _ _ Hd) as Hdl. pose proof Hct as [Hl _].
  assert (∀ ws1, ws1 `prefix_of` ws → length (apply_writes ws1 D) = length D) as Hlen by (intros; apply length_apply_writes).
  split.
  - destruct (commit_ok slp blks vs d s i c cur pr Hc Hlc Hne Hct Hv) as (s' & x' & R & B & L & _ & Hdisk & Htr).
    exists s', x'. do 4 (split; [done|]). intros b Hb. rewrite Hdisk. by apply (no_crash_home lg).
  - intros ws1 s2 i2 c2 cur2 pr2 Hp Hc2 Hb2 Hdisk2 Hlg2. pose proof Hlg2 as (_ & Est & Esz & Ebl).
    destruct (crash_disk lg D blks vs d Hg Hl Hdl ws1 Hd Hdec Hz Hp) as (hd & Hhd & Hcase).
    destruct Hcase as [(Hdec2 & Hz2 & Hhome)|(Hdec2 & Hz2 & Hlog & Hhome)].
    + destruct (recover_ok slp hd [] [] s2 i2 c2 cur2 pr2 Hc2 Hb2) as (s3 & x3 & R & B & L & Hd3); try done.
      { by rewrite Est, Hdisk2. }
      { lia. }
      { rewrite Hdisk2, Hlen by done. eapply log_geom_reboot; eauto. }
      exists s3, x3. do 3 (split; [done|]). rewrite Hd3, Hdisk2, Est.
      pose proof (λ b, recovered_home lg (apply_writes ws1 D) blks [] (encode_head [] hd) b) as Hr. rewrite Hlen in Hr by done.
      change (home_writes blks []) with (home_writes [] []) in Hr.
      destruct Hhome as [[Hp1 Hold]|Hnew]; [left|right]; [split; [done|]|]; intros b Hb; rewrite Hr by done; auto.
    + destruct (recover_ok slp hd blks vs s2 i2 c2 cur2 pr2 Hc2 Hb2) as (s3 & x3 & R & B & L & Hd3); try done.
      { by rewrite Est, Hdisk2. }
      { rewrite Hdisk2, Hlen by done. eapply log_geom_reboot; eauto. }
      { intros k v Hk. rewrite Hdisk2, Est. by apply Hlog. }
      exists s3, x3. do 3 (split; [done|]). right. intros b Hb. rewrite Hd3, Hdisk2, Est.
      rewrite recovered_home by (rewrite Hlen by done; done). by apply Hhome.
Qed.

(** One logged block: block 30, dirty in buffer 5. *)
Definition sample_dirty_buf : buf := Buf (Z.lor B_VALID B_DIRTY) 1 30 0 4 6 (replicate (Z.to_nat BSIZE) 1).

Definition sample_logged : fsx :=
  set_fx_log (Log 2 10 0 0 1 1 (30 :: replicate 29 0)) (put_buf 5 sample_dirty_buf sample_fsx).

Lemma sample_logged_step : buf_step sample_fsx (put_buf 5 sample_dirty_buf sample_fsx) 5
  (Buf 0 0 0 0 4 6 (replicate (Z.to_nat BSIZE) 0)) sample_dirty_buf.
Proof. split; try reflexivity; [unfold NBUF; lia|by left]. Qed.

Lemma sample_logged_calm : log_calm sample_logged [30].
Proof.
  assert (bio_wf (put_buf 5 sample_dirty_buf sample_fsx)) as Hw.
  { eapply bio_wf_step; [apply sample_bio_wf|apply sample_logged_step| |].
    - split; [reflexivity|reflexivity| |done]. right. split; [done|]. split; [vm_compute; split; congruence|by right].
    - intros b [_ <-]%is_block_spec. right. reflexivity. }
  split; [by apply bio_wf_log| |done|vm_compute; lia].
  split; try reflexivity; try (cbn; lia).
  - vm_compute. congruence.
  - constructor; [apply not_elem_of_nil|constructor].
  - constructor; [vm_compute; split; [split; congruence|intros [_ H]; discriminate H]|constructor].
Qed.

Lemma commit_crash_atomic_witness :
  ∃ s' x', commit 1 (set_fx sample_logged sample_fs) = Ok tt s' ∧ becomes (set_fx sample_logged sample_fs) x' s'
    ∧ fx_disk x' !! 30%nat = Some (replicate (Z.to_nat BSIZE) 1).
Proof.
  destruct (commit_crash_atomic (Xm' := unit) 0 (set_fx sample_logged sample_fs) 0 (Cpu 0 1 0 512 (Some 0%nat) 0) 0
    (sample_proc RUNNING 7 None) [30] [replicate (Z.to_nat BSIZE) 1] (replicate (Z.to_nat BSIZE) 0)) as [(s' & x' & R & B & _ & _ & H) _].
  - apply sample_calm.
  - apply sample_logged_calm.
  - done.
  - split; [reflexivity|]. intros [|k] b Hk; [injection Hk as <-; reflexivity|done].
  - reflexivity.
  - reflexivity.
  - reflexivity.
  - reflexivity.
  - exists s', x'. split; [exact R|]. split; [exact B|]. etransitivity; [apply (H 30)|reflexivity].
    split; [vm_compute; split; congruence|]. vm_compute. intros [_ H']. discriminate H'.
Defined.

(** ** Transactions *)

Section transactions.
Context {Xm : Type} (slp : nat).
Implicit Types (s : kstate (Xm * fsx)).

Definition add_block (b : Z) (blks : list Z) : list Z := if bool_decide (b ∈ blks) then blks else blks ++ [b].

Lemma log_index_spec lg dlen blks b :
  log_geom lg dlen blks → 0 ≤ b < 2 ^ 31 →
  if bool_decide (b ∈ blks) then blks !! log_index lg b = Some b else log_index lg b = length blks.
Proof.
  intros Hg Hb. unfold log_index. rewrite (lo_n _ _ _ Hg), Nat2Z.id, (lo_blks _ _ _ Hg).
  assert (∀ v, v ∈ blks → u32 v = v) as Hu.
  { intros v Hv. pose proof (lo_home _ _ _ Hg) as Hh. rewrite list.Forall_forall in Hh. pose proof (lo_size _ _ _ Hg).
    destruct (Hh v Hv). apply u32_small. lia. }
  destruct (find_index _ _) as [k|] eqn:E.
  - apply find_index_Some in E as (v & Hk & Hv & _). apply Z.eqb_eq in Hv.
    rewrite Hu in Hv by by eapply list_elem_of_lookup_2. subst v.
    rewrite bool_decide_eq_true_2 by by eapply list_elem_of_lookup_2. done.
  - rewrite find_index_None in E. case_bool_decide as Hin; [|done].
    specialize (E b Hin). by rewrite Hu, Z.eqb_refl in E.
Qed.

(** The log's record after [log_write] of block [b]. *)
Definition log_added (b : Z) (lg : log) (blks : list Z) : log :=
  if bool_decide (b ∈ blks) then lg
  else set_lg_n (lg_n lg + 1) (set_lg_block (<[length blks := b]> (lg_block lg)) lg).

Lemma log_added_geom b lg dlen blks :
  log_geom lg dlen blks → home lg dlen b → lg_n lg < LOGSIZE → lg_n lg < lg_size lg - 1 →
  log_geom (log_added b lg blks) dlen (add_block b blks).
Proof.
  intros Hg Hb Hn Hs. unfold log_added, add_block. case_bool_decide as Hin; [done|].
  pose proof (lo_n _ _ _ Hg) as Hn0. destruct Hg. rewrite Hn0 in *. unfold LOGSIZE, MAXOPBLOCKS in *.
  split; cbn; try done; rewrite ?length_app, ?length_insert; unfold LOGSIZE, MAXOPBLOCKS in *; simpl in *; try lia.
  - replace (length blks + 1)%nat with (S (length blks)) by lia.
    rewrite (take_S_r _ _ b) by (rewrite list_lookup_insert_eq by lia; done). by rewrite take_insert_ge, lo_blks0 by lia.
  - apply list.NoDup_app. split; [done|]. split; [|repeat constructor; apply not_elem_of_nil].
    intros x Hx ->%list_elem_of_singleton. done.
  - apply Forall_app. split; [done|]. constructor; [done|constructor].
Qed.

(** [log_write] records the block once and pins its buffer. *)
Lemma log_write_ok n b bf blks s i c cur pr :
  let x := fx s in let lg := fx_log x in
  calm s i c cur pr → bio_wf x → log_geom lg (length (fx_disk x)) blks → holds x (p_pid pr) n b → fx_bufs x !! n = Some bf →
  lg_n lg < LOGSIZE → lg_n lg < lg_size lg - 1 → 1 ≤ lg_outstanding lg →
  log_write n s = Ok tt (set_fx (put_buf n (set_b_flags (Z.lor B_VALID B_DIRTY) bf) (set_fx_log (log_added b lg blks) x)) s).
Proof.
  intros x lg Hc Hw Hg Hh Hbf Hn Hsz Ho. destruct (held_flags _ _ _ _ _ Hw Hh Hbf) as (Hfl & _ & Hno & Hr & _).
  pose proof (lo_size _ _ _ Hg) as Hdl. pose proof (lo_n _ _ _ Hg) as Hn0. pose proof (lo_len _ _ _ Hg) as Hlen.
  unfold log_write. rewrite bind_get_log. fold x lg.
  destruct (Z.leb_spec LOGSIZE (lg_n lg)); [lia|]. destruct (Z.leb_spec (lg_size lg - 1) (lg_n lg)); [lia|]. cbn [orb].
  destruct (Z.ltb_spec (lg_outstanding lg) 1); [lia|].
  rewrite (calm_acquire _ _ s i c cur pr Hc), bind_get_log. set (s1 := set_k_mach _ s). change (fx_log (fx s1)) with lg.
  rewrite (bind_get_buf n bf) by exact Hbf. rewrite Hno, s32_small by lia. cbv zeta.
  pose proof (log_index_spec lg _ blks b Hg ltac:(lia)) as Hi. set (k := log_index lg b) in *.
  assert (k < length (lg_block lg))%nat as Hk.
  { rewrite Hlen. unfold LOGSIZE, MAXOPBLOCKS in *. case_bool_decide; [|lia]. apply lookup_lt_Some in Hi. lia. }
  rewrite (bind_ok _ _ _ _ _ (set_lh_block_ok k b s1 Hk)). rewrite bind_get_log, fx_set.
  change (fx s1) with x. fold lg. cbn [fx_log set_fx_log lg_n set_lg_block lg_block].
  assert (Hadd : ∀ s2, fx s2 = set_fx_log (set_lg_block (<[k := b]> (lg_block lg)) lg) x →
    (if Z.of_nat k =? lg_n lg then alter_log (λ lg, set_lg_n (lg_n lg + 1) lg) else mret tt) s2
    = Ok tt (set_fx (set_fx_log (log_added b lg blks) x) s2)).
  { intros s2 Hs2. unfold log_added. case_bool_decide as Hin.
    - pose proof (lookup_lt_Some _ _ _ Hi). destruct (Z.eqb_spec (Z.of_nat k) (lg_n lg)); [lia|].
      unfold mret, K_ret. f_equal. rewrite <- (set_fx_id s2) at 1. f_equal. rewrite Hs2. f_equal.
      rewrite list_insert_id by by eapply lh_block_at. by destruct lg.
    - destruct (Z.eqb_spec (Z.of_nat k) (lg_n lg)); [|lia]. unfold alter_log, fmodify, kmodify. rewrite Hs2. by rewrite Hi. }
  rewrite (bind_ok _ _ _ _ _ (Hadd (set_fx (set_fx_log (set_lg_block (<[k := b]> (lg_block lg)) lg) x) s1) eq_refl)), set_fx_set.
  rewrite (alter_buf_run n _ bf) by exact Hbf. rewrite (calm_release_end L_log s _ i c cur pr Hc) by done.
  rewrite set_fx_set, fx_set. replace (Z.lor (b_flags bf) B_DIRTY) with (Z.lor B_VALID B_DIRTY) by (by destruct Hfl as [-> | ->]).
  by destruct s.
Qed.

Lemma log_write_panics n s :
  let lg := fx_log (fx s) in
  (LOGSIZE ≤ lg_n lg ∨ lg_size lg - 1 ≤ lg_n lg → log_write n s = Panic "too big a transaction")
  ∧ (lg_n lg < LOGSIZE → lg_n lg < lg_size lg - 1 → lg_outstanding lg < 1 → log_write n s = Panic "log_write outside of trans").
Proof.
  intros lg. unfold log_write. rewrite bind_get_log. fold lg. split.
  - intros H. destruct (Z.leb_spec LOGSIZE (lg_n lg)), (Z.leb_spec (lg_size lg - 1) (lg_n lg)); (done || lia).
  - intros H1 H2 H3. destruct (Z.leb_spec LOGSIZE (lg_n lg)); [lia|]. destruct (Z.leb_spec (lg_size lg - 1) (lg_n lg)); [lia|].
    cbn [orb]. destruct (Z.ltb_spec (lg_outstanding lg) 1); [done|lia].
Qed.

(** Must a new operation wait? *)
Definition log_full (lg : log) : bool :=
  negb (lg_committing lg =? 0) || (LOGSIZE <? lg_n lg + (lg_outstanding lg + 1) * MAXOPBLOCKS).

Lemma begin_op_go s i c cur pr :
  let lg := fx_log (fx s) in
  calm s i c cur pr → log_full lg = false → - 2 ^ 31 ≤ lg_outstanding lg < 2 ^ 31 - 1 →
  begin_op (S slp) s = Ok tt (set_fx (set_fx_log (set_lg_outstanding (lg_outstanding lg + 1) lg) (fx s)) s).
Proof.
  intros lg Hc Hf Hr. unfold begin_op. rewrite (calm_acquire _ _ s i c cur pr Hc). cbn [begin_op_loop].
  rewrite bind_get_log. change (fx_log (fx (set_k_mach _ s))) with lg. unfold log_full in Hf. apply orb_false_iff in Hf as [-> ->].
  rewrite bind_alter_log. change (fx (set_k_mach _ s)) with (fx s). fold lg. rewrite s32_small by lia.
  rewrite (calm_release_end L_log s _ i c cur pr Hc) by done. by destruct s.
Qed.

Lemma begin_op_wait s i c cur pr :
  let lg := fx_log (fx s) in
  calm s i c cur pr → log_full lg = true →
  ∃ s1 k, begin_op (S slp) s = Wait s1 k ∧ fx s1 = fx s
    ∧ k_ptable s1 = <[cur := set_p_state SLEEPING (set_p_chan (Some Chan_log) pr)]> (k_ptable s)
    ∧ ∀ s2 i2 c2, inside L_ptable s2 i2 c2 cur → locks (k_mach s2) !! L_log = None →
        ∃ m3 c3, k s2 = begin_op_loop slp (set_k_mach m3 (set_k_ptable (alter (set_p_chan None) cur (k_ptable s2)) s2))
          ∧ inside L_log (set_k_mach m3 s2) i2 c3 cur ∧ locks m3 !! L_ptable = None.
Proof.
  intros lg Hc Hf. pose proof Hc as [C1 C2 C3 C4 C5 C6 C7 C8].
  destruct (acquire_inside L_log s i c cur (calm_lock _ _ _ _ _ _ Hc) C2 C3) as [Ha Hin].
  unfold begin_op. rewrite (bind_ok _ _ _ _ _ Ha). set (s0 := set_k_mach _ s) in *. cbn [begin_op_loop]. rewrite bind_get_log.
  change (fx_log (fx s0)) with lg. unfold log_full in Hf.
  destruct (sleep_waits L_log Chan_log s0 i _ cur pr Hin ltac:(done)
    ltac:(unfold s0; kproj; by rewrite locks_acquired_ne, C4 by done) C6) as (k & Hs & Hk).
  assert (∀ s2 i2 c2, inside L_ptable s2 i2 c2 cur → locks (k_mach s2) !! L_log = None →
    ∃ m3 c3, rbind (k s2) (λ _, begin_op_loop slp) = begin_op_loop slp (set_k_mach m3 (set_k_ptable (alter (set_p_chan None) cur (k_ptable s2)) s2))
      ∧ inside L_log (set_k_mach m3 s2) i2 c3 cur ∧ locks m3 !! L_ptable = None) as Hres.
  { intros s2 i2 c2 H1 H2. destruct (Hk s2 i2 c2 H1 H2) as (m3 & c3 & -> & H). by exists m3, c3. }
  eexists _, _. split.
  { destruct (negb (lg_committing lg =? 0)); [|cbn [orb] in Hf; rewrite Hf]; rewrite (bind_wait _ _ _ _ _ Hs); reflexivity. }
  split; [done|]. split; [done|]. exact Hres.
Qed.

End transactions.

(** C21: Transactions on every path.  [begin_op] starts an operation exactly when
    no commit runs and [MAXOPBLOCKS] blocks are left for it beside those of the
    operations in progress, and otherwise sleeps and tests again.  [log_write]
    panics outside a transaction and when the log is full; else it records the
    block's number exactly once, however often it is written, pins the buffer,
    and keeps the log's record well formed and every block's contents. *)
Theorem log_operations_correct {Xm : Type} slp (s : kstate (Xm * fsx)) i c cur pr blks :
  let x := fx s in let lg := fx_log x in
  calm s i c cur pr → bio_wf x → log_geom lg (length (fx_disk x)) blks → 0 ≤ lg_outstanding lg < 2 ^ 31 - 1 →
  (if log_full lg then ∃ s1 k, begin_op (S slp) s = Wait s1 k ∧ fx s1 = x
       ∧ k_ptable s1 = <[cur := set_p_state SLEEPING (set_p_chan (Some Chan_log) pr)]> (k_ptable s)
       ∧ ∀ s2 i2 c2, inside L_ptable s2 i2 c2 cur → locks (k_mach s2) !! L_log = None →
           ∃ m3 c3, k s2 = begin_op_loop slp (set_k_mach m3 (set_k_ptable (alter (set_p_chan None) cur (k_ptable s2)) s2))
             ∧ inside L_log (set_k_mach m3 s2) i2 c3 cur ∧ locks m3 !! L_ptable = None
   else begin_op (S slp) s = Ok tt (set_fx (set_fx_log (set_lg_outstanding (lg_outstanding lg + 1) lg) x) s))
  ∧ (∀ n b, holds x (p_pid pr) n b → home lg (length (fx_disk x)) b →
      (LOGSIZE ≤ lg_n lg ∨ lg_size lg - 1 ≤ lg_n lg → log_write n s = Panic "too big a transaction")
      ∧ (lg_n lg < LOGSIZE → lg_n lg < lg_size lg - 1 →
         if lg_outstanding lg <? 1 then log_write n s = Panic "log_write outside of trans"
         else ∃ x' bf', log_write n s = Ok tt (set_fx x' s)
           ∧ changed x x' n b bf' ∧ view x' b = view x b ∧ dirty x' b = true
           ∧ fx_log x' = log_added b lg blks ∧ log_geom (fx_log x') (length (fx_disk x')) (add_block b blks))).
Proof.
  intros x lg Hc Hw Hg Ho. split.
  - destruct (log_full lg) eqn:Hf; [by apply (begin_op_wait slp s i c)|].
    apply (begin_op_go slp s i c cur pr Hc Hf). fold x lg. lia.
  - intros n b Hh Hhome. split; [apply (log_write_panics n s)|]. intros Hn Hsz.
    destruct (Z.ltb_spec (lg_outstanding lg) 1) as [Ho1|Ho1]; [by apply (log_write_panics n s)|].
    pose proof Hh as (_ & _ & bf & Hbf & _). destruct (held_flags _ _ _ _ _ Hw Hh Hbf) as (Hfl & _ & _ & _ & Hlen & Hv & _).
    eexists _, (set_b_flags (Z.lor B_VALID B_DIRTY) bf).
    split; [by apply (log_write_ok n b bf blks s i c cur pr)|].
    pose proof (put_held x n b bf (set_b_flags (Z.lor B_VALID B_DIRTY) bf) (p_pid pr) Hw Hh Hbf eq_refl eq_refl eq_refl eq_refl eq_refl
      ltac:(by right) Hlen) as [A1 A2 A3 A4 A5 A6 A7 A8 A9 A10].
    split; [split; try done; by apply (bio_wf_log _ (log_added b lg blks)) in A1|].
    split; [rewrite Hv; exact A6|]. split; [exact A7|]. split; [done|]. by apply log_added_geom.
Qed.

(** Within a transaction with block 30 logged, block 31 is locked and logged. *)
Definition sample_trans : fsx := set_fx_log (set_lg_outstanding 1 (fx_log sample_logged)) sample_logged.

Lemma sample_trans_geom : log_geom (fx_log sample_trans) (length (fx_disk sample_trans)) [30].
Proof. destruct (lc_geom _ _ sample_logged_calm). by split. Qed.

Lemma log_operations_correct_witness :
  begin_op 1 (set_fx sample_trans sample_fs)
  = Ok tt (set_fx (set_fx_log (set_lg_outstanding 2 (fx_log sample_trans)) sample_trans) sample_fs).
Proof.
  destruct (log_operations_correct 0 (set_fx sample_trans sample_fs) 0 (Cpu 0 1 0 512 (Some 0%nat) 0) 0
    (sample_proc RUNNING 7 None) [30]) as [H _].
  - apply sample_calm.
  - apply (bio_wf_log sample_logged). apply sample_logged_calm.
  - apply sample_trans_geom.
  - vm_compute. split; congruence.
  - exact H.
Defined.
