(* ===== verification/Fs.v ===== *)
(** * The file system

    Models [fs.c]: the block allocator, inodes and the inode cache, the contents
    of files, directories and path names.  Inodes of the cache are named by their
    index; a null pointer is [None].  The on-disk structures lie in their blocks
    byte by byte.  [slp] bounds how often a sleep lock may be waited for. *)

From S2P Require Import Prelude Spinlock Printf CString State PrioLock Sched Proc Sleep Sleeplock Pipe FsState Bio Bytes Log.

Definition BPB : Z := BSIZE * 8.
Definition IPB : Z := BSIZE / 64.
Definition BBLOCK (b : Z) (sb : superblock) : Z := u32 (b / BPB + sb_bmapstart sb).
Definition IBLOCK (i : Z) (sb : superblock) : Z := u32 (i / IPB + sb_inodestart sb).

(** [struct dinode] at offset [o] of a block: 64 bytes. *)
Definition read_dinode (d : list Z) (o : nat) (ip : inode) : inode :=
  set_i_addrs (map (λ k, rd 4 d (o + 12 + 4 * k)) (seq 0 (Z.to_nat NDIRECT + 1)))
    (set_i_size (rd 4 d (o + 8)) (set_i_nlink (s16 (rd 2 d (o + 6))) (set_i_minor (s16 (rd 2 d (o + 4)))
    (set_i_major (s16 (rd 2 d (o + 2))) (set_i_type (s16 (rd 2 d o)) ip))))).

Fixpoint wr_words (l : list Z) (d : list Z) (o : nat) : list Z :=
  match l with
  | [] => d
  | v :: l' => wr_words l' (wr 4 v d o) (o + 4)
  end.

Definition write_dinode (ip : inode) (d : list Z) (o : nat) : list Z :=
  wr_words (i_addrs ip)
    (wr 4 (i_size ip) (wr 2 (i_nlink ip) (wr 2 (i_minor ip) (wr 2 (i_major ip) (wr 2 (i_type ip) d o)
      (o + 2)) (o + 4)) (o + 6)) (o + 8)) (o + 12).

(** The offset of inode [i] in its block. *)
Definition dinode_off (i : Z) : nat := Z.to_nat (64 * (i mod IPB)).

(** [struct stat]. *)
Record stat := Stat { st_type : Z; st_dev : Z; st_ino : Z; st_nlink : Z; st_size : Z }.

(** The sleep lock of entry [n] of the inode cache. *)
Definition ilk (n : nat) : nat := (NBUF + 1 + n)%nat.

(** [devsw]: what the drivers promise to [readi] and [writei]. *)
Class DevOps (Xm : Type) := {
  devsw_read : Z → option (nat → Z → K (kstate (Xm * fsx)) (Z * list Z));
  devsw_write : Z → option (nat → list Z → Z → K (kstate (Xm * fsx)) Z)
}.

(** ** Path elements *)

Fixpoint skip_slashes (p : list Z) : list Z :=
  match p with
  | c :: p' => if c =? 47 then skip_slashes p' else p
  | [] => []
  end.

Fixpoint take_elem (p : list Z) : list Z * list Z :=
  match p with
  | c :: p' => if (c =? 47) || (c =? 0) then ([], p) else let '(s, r) := take_elem p' in (c :: s, r)
  | [] => ([], [])
  end.

(** The outer [None] is a path without end. *)
Definition skipelem (path name : list Z) : option (option (list Z * list Z)) :=
  match skip_slashes path with
  | [] => None
  | c :: path' =>
      if c =? 0 then Some None else
      let '(s, rest) := take_elem (c :: path') in
      let name' := if DIRSIZ <=? Z.of_nat (length s) then blit name 0 (take (Z.to_nat DIRSIZ) s)
                   else blit name 0 (s ++ [0]) in
      match skip_slashes rest with
      | [] => None
      | rest' => Some (Some (rest', name'))
      end
  end.

Definition namecmp (s t : list Z) : option Z := strncmp (Z.to_nat DIRSIZ) s t.

Section fs_ops.
Context {Xm : Type} `{DevOps Xm} (slp : nat).
Notation M := (K (kstate (Xm * fsx))).

(** ** Blocks *)

Definition get_byte (bp : nat) (k : nat) : M Z :=
  d ← get_data bp;
  match d !! k with Some v => mret v | None => kundef "bp->data" end.

Definition set_byte (bp : nat) (k : nat) (v : Z) : M unit :=
  d ← get_data bp;
  set_data bp (<[k := u8 v]> d).

Definition bzero (dev bno : Z) : M unit :=
  bp ← bread slp dev bno;
  set_data bp (replicate (Z.to_nat BSIZE) 0);;
  log_write bp;;
  brelse bp.

(** The inner loop of [balloc] over the bitmap block [bp] of blocks [b], ... *)
Definition balloc_scan (bp : nat) (b size : Z) : M (option Z) :=
  d ← get_data bp;
  mret (Z.of_nat <$> find_index (λ bi, (b + Z.of_nat bi <? size)
                       && (Z.land (d !!! (bi / 8)%nat) (Z.shiftl 1 (Z.of_nat bi mod 8)) =? 0))
                     (seq 0 (Z.to_nat (Z.min BPB (size - b))))).

Fixpoint balloc_loop (fuel : nat) (dev b : Z) : M Z :=
  match fuel with
  | O => knofuel
  | S fuel' =>
      sb ← fgets fx_sb;
      if negb (b <? sb_size sb) then kpanic "balloc: out of blocks" else
      bp ← bread slp dev (BBLOCK b sb);
      o ← balloc_scan bp b (sb_size sb);
      match o with
      | Some bi =>
          v ← get_byte bp (Z.to_nat (bi / 8));
          set_byte bp (Z.to_nat (bi / 8)) (Z.lor v (Z.shiftl 1 (bi mod 8)));;
          log_write bp;;
          brelse bp;;
          bzero dev (b + bi);;
          mret (b + bi)
      | None =>
          brelse bp;;
          balloc_loop fuel' dev (b + BPB)
      end
  end.

Definition balloc (dev : Z) : M Z :=
  sb ← fgets fx_sb;
  balloc_loop (S (Z.to_nat (sb_size sb / BPB + 1))) dev 0.

Definition bfree (dev b : Z) : M unit :=
  sb ← fgets fx_sb;
  bp ← bread slp dev (BBLOCK b sb);
  let bi := b mod BPB in
  let m := Z.shiftl 1 (bi mod 8) in
  v ← get_byte bp (Z.to_nat (bi / 8));
  if Z.land v m =? 0 then kpanic "freeing free block" else
  set_byte bp (Z.to_nat (bi / 8)) (Z.land v (Z.lnot m));;
  log_write bp;;
  brelse bp.

(** ** Inodes *)

(** [iget]: the entry that has the inode, and the first free one. *)
Definition iget (dev inum : Z) : M nat :=
  acquire L_icache;;
  tab ← fgets fx_inodes;
  match find_index (λ ip, (0 <? i_ref ip) && (i_dev ip =? dev) && (i_inum ip =? inum)) tab with
  | Some ip =>
      alter_inode ip (λ i, set_i_ref (s32 (i_ref i + 1)) i);;
      release L_icache;;
      mret ip
  | None =>
      match find_index (λ ip, i_ref ip =? 0) tab with
      | None => kpanic "iget: no inodes"
      | Some ip =>
          alter_inode ip (λ i, set_i_valid 0 (set_i_ref 1 (set_i_inum inum (set_i_dev dev i))));;
          release L_icache;;
          mret ip
      end
  end.

Definition iinit (dev : Z) : M unit :=
  initlock L_icache;;
  kfor_ (seq 0 NINODE) (λ i, initsleeplock (ilk i));;
  sb ← readsb slp dev;
  fmodify (set_fx_sb sb);;
  cprintf "sb: size %d nblocks %d ninodes %d nlog %d logstart %d inodestart %d bmap start %d"
    [FInt (sb_size sb); FInt (sb_nblocks sb); FInt (sb_ninodes sb); FInt (sb_nlog sb); FInt (sb_logstart sb);
     FInt (sb_inodestart sb); FInt (sb_bmapstart sb)];;
  put_text NL.

Definition ialloc (dev type : Z) : M nat :=
  sb ← fgets fx_sb;
  o ← kfor (seq 1 (Z.to_nat (sb_ninodes sb) - 1)) (λ inum,
    bp ← bread slp dev (IBLOCK (Z.of_nat inum) sb);
    d ← get_data bp;
    let o := dinode_off (Z.of_nat inum) in
    if s16 (rd 2 d o) =? 0 then
      set_data bp (wr 2 type (blit d o (replicate 64 0)) o);;
      log_write bp;;
      brelse bp;;
      ip ← iget dev (Z.of_nat inum);
      mret (Some ip)
    else
      brelse bp;;
      mret None);
  match o with Some ip => mret ip | None => kpanic "ialloc: no inodes" end.

Definition iupdate (ip : nat) : M unit :=
  i ← get_inode ip;
  sb ← fgets fx_sb;
  bp ← bread slp (i_dev i) (IBLOCK (i_inum i) sb);
  d ← get_data bp;
  set_data bp (write_dinode i d (dinode_off (i_inum i)));;
  log_write bp;;
  brelse bp.

Definition idup (ip : nat) : M nat :=
  acquire L_icache;;
  alter_inode ip (λ i, set_i_ref (s32 (i_ref i + 1)) i);;
  release L_icache;;
  mret ip.

Definition ilock (ip : nat) : M unit :=
  i ← get_inode ip;
  if i_ref i <? 1 then kpanic "ilock" else
  acquiresleep slp (ilk ip);;
  i ← get_inode ip;
  if i_valid i =? 0 then
    sb ← fgets fx_sb;
    bp ← bread slp (i_dev i) (IBLOCK (i_inum i) sb);
    d ← get_data bp;
    alter_inode ip (read_dinode d (dinode_off (i_inum i)));;
    brelse bp;;
    alter_inode ip (set_i_valid 1);;
    i ← get_inode ip;
    if i_type i =? 0 then kpanic "ilock: no type" else mret tt
  else mret tt.

Definition iunlock (ip : nat) : M unit :=
  h ← holdingsleep (ilk ip);
  if negb h then kpanic "iunlock" else
  i ← get_inode ip;
  if i_ref i <? 1 then kpanic "iunlock" else
  releasesleep (ilk ip).

(** [ip->addrs[k]] *)
Definition get_addr (ip : nat) (k : Z) : M Z :=
  i ← get_inode ip;
  match i_addrs i !! Z.to_nat k with Some a => mret a | None => kundef "ip->addrs" end.

Definition set_addr (ip : nat) (k v : Z) : M unit :=
  alter_inode ip (λ i, set_i_addrs (<[Z.to_nat k := v]> (i_addrs i)) i).

Definition itrunc (ip : nat) : M unit :=
  i ← get_inode ip;
  kfor_ (seq 0 (Z.to_nat NDIRECT)) (λ k,
    a ← get_addr ip (Z.of_nat k);
    if a =? 0 then mret tt else
    bfree (i_dev i) a;;
    set_addr ip (Z.of_nat k) 0);;
  a ← get_addr ip NDIRECT;
  (if a =? 0 then mret tt else
   bp ← bread slp (i_dev i) a;
   kfor_ (seq 0 (Z.to_nat NINDIRECT)) (λ j,
     d ← get_data bp;
     if rd 4 d (4 * j) =? 0 then mret tt else bfree (i_dev i) (rd 4 d (4 * j)));;
   brelse bp;;
   a ← get_addr ip NDIRECT;
   bfree (i_dev i) a;;
   set_addr ip NDIRECT 0);;
  alter_inode ip (set_i_size 0);;
  iupdate ip.

Definition iput (ip : nat) : M unit :=
  acquiresleep slp (ilk ip);;
  i ← get_inode ip;
  (if negb (i_valid i =? 0) && (i_nlink i =? 0) then
     acquire L_icache;;
     i ← get_inode ip;
     let r := i_ref i in
     release L_icache;;
     if r =? 1 then
       itrunc ip;;
       alter_inode ip (set_i_type 0);;
       iupdate ip;;
       alter_inode ip (set_i_valid 0)
     else mret tt
   else mret tt);;
  releasesleep (ilk ip);;
  acquire L_icache;;
  alter_inode ip (λ i, set_i_ref (s32 (i_ref i - 1)) i);;
  release L_icache.

Definition iunlockput (ip : nat) : M unit :=
  iunlock ip;;
  iput ip.

(** ** Contents *)

Definition bmap (ip : nat) (bn : Z) : M Z :=
  i ← get_inode ip;
  if bn <? NDIRECT then
    addr ← get_addr ip bn;
    if addr =? 0 then
      addr ← balloc (i_dev i);
      set_addr ip bn addr;;
      mret addr
    else mret addr
  else
    let bn := bn - NDIRECT in
    if bn <? NINDIRECT then
      addr ← get_addr ip NDIRECT;
      addr ← (if addr =? 0 then
                addr ← balloc (i_dev i);
                set_addr ip NDIRECT addr;;
                mret addr
              else mret addr);
      bp ← bread slp (i_dev i) addr;
      d ← get_data bp;
      let addr := rd 4 d (Z.to_nat (4 * bn)) in
      addr ← (if addr =? 0 then
                addr ← balloc (i_dev i);
                d ← get_data bp;
                set_data bp (wr 4 addr d (Z.to_nat (4 * bn)));;
                log_write bp;;
                mret addr
              else mret addr);
      brelse bp;;
      mret addr
    else kpanic "bmap: out of range".

Definition stati (ip : nat) : M stat :=
  i ← get_inode ip;
  mret (Stat (i_type i) (s32 (i_dev i)) (i_inum i) (i_nlink i) (i_size i)).

(** The loop of [readi]; the bytes copied to [dst] are returned. *)
Fixpoint readi_loop (fuel : nat) (ip : nat) (off n tot : Z) : M (list Z) :=
  match fuel with
  | O => knofuel
  | S fuel' =>
      if negb (tot <? n) then mret [] else
      i ← get_inode ip;
      blk ← bmap ip (off / BSIZE);
      bp ← bread slp (i_dev i) blk;
      let m := Z.min (u32 (n - tot)) (BSIZE - off mod BSIZE) in
      d ← get_data bp;
      let chunk := sub_range d (Z.to_nat (off mod BSIZE)) (Z.to_nat m) in
      brelse bp;;
      rest ← readi_loop fuel' ip (u32 (off + m)) n (u32 (tot + m));
      mret (chunk ++ rest)
  end.

Definition blocks_fuel (n : Z) : nat := Z.to_nat (n / BSIZE + 3).

(** The result is the return value and the bytes stored at [dst]. *)
Definition readi (ip : nat) (off n : Z) : M (Z * list Z) :=
  i ← get_inode ip;
  if i_type i =? T_DEV then
    if (i_major i <? 0) || (NDEV <=? i_major i) then mret (-1, []) else
    match devsw_read (i_major i) with
    | None => mret (-1, [])
    | Some f => f ip (s32 n)
    end
  else if (i_size i <? off) || (u32 (off + n) <? off) then mret (-1, []) else
  let n := if i_size i <? u32 (off + n) then u32 (i_size i - off) else n in
  dst ← readi_loop (blocks_fuel n) ip off n 0;
  mret (s32 n, dst).

(** The loop of [writei], returning the final offset. *)
Fixpoint writei_loop (fuel : nat) (ip : nat) (src : list Z) (off n tot : Z) : M Z :=
  match fuel with
  | O => knofuel
  | S fuel' =>
      if negb (tot <? n) then mret off else
      i ← get_inode ip;
      blk ← bmap ip (off / BSIZE);
      bp ← bread slp (i_dev i) blk;
      let m := Z.min (u32 (n - tot)) (BSIZE - off mod BSIZE) in
      d ← get_data bp;
      if Z.of_nat (length src) <? tot + m then kundef "src" else
      set_data bp (blit d (Z.to_nat (off mod BSIZE)) (sub_range src (Z.to_nat tot) (Z.to_nat m)));;
      log_write bp;;
      brelse bp;;
      writei_loop fuel' ip src (u32 (off + m)) n (u32 (tot + m))
  end.

Definition writei (ip : nat) (src : list Z) (off n : Z) : M Z :=
  i ← get_inode ip;
  if i_type i =? T_DEV then
    if (i_major i <? 0) || (NDEV <=? i_major i) then mret (-1) else
    match devsw_write (i_major i) with
    | None => mret (-1)
    | Some f => f ip src (s32 n)
    end
  else if (i_size i <? off) || (u32 (off + n) <? off) then mret (-1) else
  if MAXFILE * BSIZE <? u32 (off + n) then mret (-1) else
  off ← writei_loop (blocks_fuel n) ip src off n 0;
  i ← get_inode ip;
  (if (0 <? n) && (i_size i <? off) then
     alter_inode ip (set_i_size off);;
     iupdate ip
   else mret tt);;
  mret (s32 n).

(** ** Directories *)

(** [struct dirent]: 16 bytes. *)
Definition DIRENT : Z := 16.
Definition de_inum (de : list Z) : Z := rd 2 de 0.
Definition de_name (de : list Z) : list Z := sub_range de 2 (Z.to_nat DIRSIZ).
Definition dirent (inum : Z) (name : list Z) : list Z := wr 2 inum (replicate 2 0) 0 ++ name.

Fixpoint dirlookup_loop (fuel : nat) (dp : nat) (name : list Z) (off : Z) : M (option (nat * Z)) :=
  match fuel with
  | O => knofuel
  | S fuel' =>
      i ← get_inode dp;
      if negb (off <? i_size i) then mret None else
      r ← readi dp off DIRENT;
      let '(n, de) := r in
      if negb (n =? DIRENT) then kpanic "dirlookup read" else
      if de_inum de =? 0 then dirlookup_loop fuel' dp name (u32 (off + DIRENT)) else
      match namecmp name (de_name de) with
      | None => kundef "name"
      | Some v =>
          if v =? 0 then ip ← iget (i_dev i) (de_inum de); mret (Some (ip, off))
          else dirlookup_loop fuel' dp name (u32 (off + DIRENT))
      end
  end.

Definition entries_fuel (size : Z) : nat := S (Z.to_nat (size / DIRENT + 1)).

(** The inode of the entry, with its offset for [poff]. *)
Definition dirlookup (dp : nat) (name : list Z) : M (option (nat * Z)) :=
  i ← get_inode dp;
  if negb (i_type i =? T_DIR) then kpanic "dirlookup not DIR" else
  dirlookup_loop (entries_fuel (i_size i)) dp name 0.

(** The offset of the first empty entry, or the end of the directory. *)
Fixpoint dirlink_loop (fuel : nat) (dp : nat) (off : Z) : M Z :=
  match fuel with
  | O => knofuel
  | S fuel' =>
      i ← get_inode dp;
      if negb (off <? i_size i) then mret off else
      r ← readi dp off DIRENT;
      let '(n, de) := r in
      if negb (n =? DIRENT) then kpanic "dirlink read" else
      if de_inum de =? 0 then mret off else dirlink_loop fuel' dp (u32 (off + DIRENT))
  end.

Definition dirlink (dp : nat) (name : list Z) (inum : Z) : M Z :=
  o ← dirlookup dp name;
  match o with
  | Some (ip, _) => iput ip;; mret (-1)
  | None =>
      i ← get_inode dp;
      off ← dirlink_loop (entries_fuel (i_size i)) dp 0;
      match strncpy_bytes (Z.to_nat DIRSIZ) name with
      | None => kundef "name"
      | Some nm =>
          n ← writei dp (dirent inum nm) off DIRENT;
          if negb (n =? DIRENT) then kpanic "dirlink" else mret 0
      end
  end.

(** ** Paths *)

Fixpoint namex_loop (fuel : nat) (ip : nat) (path : list Z) (nameiparent : bool) (name : list Z)
    : M (option nat * list Z) :=
  match fuel with
  | O => knofuel
  | S fuel' =>
      match skipelem path name with
      | None => kundef "path"
      | Some None => if nameiparent then iput ip;; mret (None, name) else mret (Some ip, name)
      | Some (Some (path', name')) =>
          ilock ip;;
          i ← get_inode ip;
          if negb (i_type i =? T_DIR) then iunlockput ip;; mret (None, name') else
          if nameiparent && (hd 0 path' =? 0) then iunlock ip;; mret (Some ip, name') else
          o ← dirlookup ip name';
          match o with
          | None => iunlockput ip;; mret (None, name')
          | Some (next, _) => iunlockput ip;; namex_loop fuel' next path' nameiparent name'
          end
      end
  end.

(** [namex]: the inode and the final contents of [name]. *)
Definition namex (path : list Z) (nameiparent : bool) (name : list Z) : M (option nat * list Z) :=
  match path with
  | [] => kundef "path"
  | c :: _ =>
      ip ← (if c =? 47 then iget ROOTDEV ROOTINO
            else
              o ← myproc;
              match o with
              | None => kundef "myproc()->cwd"
              | Some p =>
                  tab ← kgets k_ptable;
                  match tab !! p with
                  | Some pr => match p_cwd pr with Some ip => idup ip | None => kundef "cwd" end
                  | None => kundef "myproc()->cwd"
                  end
              end);
      namex_loop (S (length path)) ip path nameiparent name
  end.

Definition namei (path : list Z) : M (option nat) :=
  r ← namex path false (replicate (Z.to_nat DIRSIZ) 0);
  mret (fst r).

Definition nameiparent (path : list Z) (name : list Z) : M (option nat * list Z) :=
  namex path true name.

End fs_ops.
