(* ===== verification/FsTx.v ===== *)
(** * File-system code inside a transaction

    How the routines of [fs.c] act on the disk as the kernel sees it: a function
    from block numbers to contents, [D], through the buffer cache and the log of
    [Bio] and [Log].  [tx] relates a state to [D], to the buffers the caller
    holds and to the blocks of the transaction; the lemmas say how reading,
    changing and giving back a block move it, and are then used for the block
    allocator. *)

From S2P Require Import Prelude Spinlock CString State PrioLock Sched Proc Sleep Sleeplock Pipe FsState Bio Bytes Log Fs.

(** ** The disk as seen *)

Definition upd (D : Z → list Z) (b : Z) (d : list Z) : Z → list Z := λ b', if b' =? b then d else D b'.

Lemma upd_eq D b d : upd D b d b = d.
Proof. unfold upd. by rewrite Z.eqb_refl. Qed.

Lemma upd_ne D b d b' : b' ≠ b → upd D b d b' = D b'.
Proof. intros H. unfold upd. by apply Z.eqb_neq in H as ->. Qed.

(** Held buffers that the transaction has not pinned. *)
Definition extra (blks : list Z) (hs : list (nat * Z)) : nat := length (filter (λ h : nat * Z, h.2 ∉ blks) hs).

Section transaction.
Context {Xm : Type} (slp : nat) (i : nat) (c : cpu) (cur : nat) (pr : proc).
Implicit Types (s : kstate (Xm * fsx)) (hs : list (nat * Z)) (blks : list Z) (D : Z → list Z).

(** The caller holds the buffers [hs]; [blks] are the blocks of the transaction;
    every other block equals the disk's. *)
Record tx s hs blks D : Prop := Tx {
  tx_calm : calm s i c cur pr;
  tx_wf : bio_wf (fx s);
  tx_geom : log_geom (fx_log (fx s)) (length (fx_disk (fx s))) blks;
  tx_out : 1 ≤ lg_outstanding (fx_log (fx s));
  tx_held : ∀ n b, (n, b) ∈ hs → holds (fx s) (p_pid pr) n b;
  tx_nodup : NoDup hs.*2;
  tx_free : ∀ b, 0 ≤ b → b ∉ hs.*2 → unlocked (fx s) b;
  tx_view : ∀ b, 0 ≤ b < Z.of_nat (length (fx_disk (fx s))) → view (fx s) b = Some (D b);
  tx_dirty : ∀ b, 0 ≤ b → dirty (fx s) b = bool_decide (b ∈ blks);
  tx_clean : ∀ b, 0 ≤ b < Z.of_nat (length (fx_disk (fx s))) → b ∉ blks → fx_disk (fx s) !! Z.to_nat b = Some (D b);
  tx_busy : (busy_count (fx s) ≤ length blks + extra blks hs)%nat
}.

(** What the file system's routines leave alone: everything but the cache, the
    log's list of blocks and the inodes. *)
Record frame s s' : Prop := Frame {
  fr_becomes : becomes s (fx s') s';
  fr_disk : fx_disk (fx s') = fx_disk (fx s);
  fr_trace : fx_trace (fx s') = fx_trace (fx s);
  fr_sb : fx_sb (fx s') = fx_sb (fx s);
  fr_files : fx_files (fx s') = fx_files (fx s);
  fr_pipes : fx_pipes (fx s') = fx_pipes (fx s);
  fr_sleep : ∀ m, (NBUF ≤ m)%nat → sleeping (fx s') m = sleeping (fx s) m;
  fr_start : lg_start (fx_log (fx s')) = lg_start (fx_log (fx s));
  fr_size : lg_size (fx_log (fx s')) = lg_size (fx_log (fx s));
  fr_out : lg_outstanding (fx_log (fx s')) = lg_outstanding (fx_log (fx s));
  fr_committing : lg_committing (fx_log (fx s')) = lg_committing (fx_log (fx s))
}.

Lemma frame_refl s : frame s s.
Proof. split; try done. apply becomes_refl. Qed.

Lemma frame_trans s1 s2 s3 : frame s1 s2 → frame s2 s3 → frame s1 s3.
Proof.
  intros [] []. split; try congruence; [by eapply becomes_trans|].
  intros m Hm. rewrite fr_sleep1 by done. by apply fr_sleep0.
Qed.

(** Room for [k] more blocks in the log. *)
Definition room s blks (k : Z) : Prop :=
  Z.of_nat (length blks) + k ≤ LOGSIZE ∧ Z.of_nat (length blks) + k ≤ lg_size (fx_log (fx s)) - 1.

(** A block the transaction may write. *)
Definition home_block s (b : Z) : Prop := home (fx_log (fx s)) (length (fx_disk (fx s))) b.

Lemma home_block_frame s s' b : frame s s' → home_block s b → home_block s' b.
Proof. intros F. unfold home_block, home. by rewrite (fr_disk _ _ F), (fr_start _ _ F), (fr_size _ _ F). Qed.

Lemma home_block_range s b : home_block s b → 0 ≤ b < Z.of_nat (length (fx_disk (fx s))).
Proof. by intros [H _]. Qed.

(** *** Locking a block *)

Lemma frame_got s x n b : got (fx s) x (p_pid pr) n b → frame s (set_fx x s) ∧ fx_inodes x = fx_inodes (fx s).
Proof.
  intros G. destruct (same_rest_got _ _ _ _ _ G) as (R1 & R2 & R3 & R4 & R5 & R6).
  destruct (got_fields _ _ _ _ _ G) as (E1 & E2 & _). split; [|done].
  split; rewrite ?fx_set; try done; try by rewrite R1. apply becomes_intro.
Qed.

Lemma extra_cons blks n b hs :
  extra blks ((n, b) :: hs) = ((if bool_decide (b ∈ blks) then 0 else 1) + extra blks hs)%nat.
Proof. unfold extra. rewrite filter_cons. simpl. by destruct (decide (b ∉ blks)), (bool_decide_reflect (b ∈ blks)). Qed.

Lemma extra_le blks hs : (extra blks hs ≤ length hs)%nat.
Proof. unfold extra. apply length_filter. Qed.

Lemma tx_bread s hs blks D b :
  tx s hs blks D → 0 ≤ b < Z.of_nat (length (fx_disk (fx s))) → b ∉ hs.*2 →
  (length blks + length hs < NBUF)%nat →
  wp (bread (S slp) 1 b) (λ n s', frame s s' ∧ fx_inodes (fx s') = fx_inodes (fx s) ∧ tx s' ((n, b) :: hs) blks D) s.
Proof.
  intros T Hb Hn Hroom. pose proof T as [C W G O H Nd F V Dy Cl B]. pose proof (extra_le blks hs) as He.
  destruct (bread_ok slp b s i c cur pr C W Hb) as (n & x & R & Hg).
  { apply available_intro; [done|apply F; [lia|done]|lia]. }
  exists n, (set_fx x s). split; [done|]. destruct (frame_got s x n b Hg) as [Fr Ei]. split; [done|]. split; [done|].
  destruct (got_fields _ _ _ _ _ Hg) as (E1 & _ & E3 & _). split; rewrite ?fx_set, ?E1, ?E3; try done.
  - by eapply becomes_calm; [apply becomes_intro|].
  - apply Hg.
  - intros m b' [[= -> ->]|Hin]%elem_of_cons; [apply Hg|]. by apply (holds_got _ _ _ _ _ _ _ Hg), H.
  - rewrite fmap_cons. by apply list.NoDup_cons.
  - intros b' H0 Hb'. rewrite fmap_cons, elem_of_cons in Hb'. apply (unlocked_got _ _ _ _ _ _ W Hg); [|tauto].
    apply F; [done|tauto].
  - intros b' Hb'. rewrite (gt_view _ _ _ _ _ Hg) by lia. by apply V.
  - intros b' Hb'. rewrite (gt_dirty _ _ _ _ _ Hg) by done. by apply Dy.
  - rewrite (gt_busy _ _ _ _ _ Hg), extra_cons, Dy by lia. case_bool_decide; lia.
Qed.

(** The contents of a held buffer. *)
Lemma held_data s hs blks D n b :
  tx s hs blks D → (n, b) ∈ hs →
  ∃ bf, fx_bufs (fx s) !! n = Some bf ∧ b_data bf = D b ∧ 0 ≤ b < Z.of_nat (length (fx_disk (fx s))) ∧ length (D b) = Z.to_nat BSIZE.
Proof.
  intros T Hin. pose proof (tx_held _ _ _ _ T n b Hin) as Hh. pose proof Hh as (Hn & Hs & bf & Hbf & Hblk).
  destruct (held_flags _ _ _ _ _ (tx_wf _ _ _ _ T) Hh Hbf) as (_ & _ & Hno & _ & Hlen & Hv & _).
  exists bf. destruct (bo_state _ _ _ (bw_buf _ (tx_wf _ _ _ _ T) n bf Hn Hbf)) as [(_ & _ & Hl)|(_ & Hr & _)].
  { unfold is_locked in Hl. by rewrite Hs in Hl. }
  rewrite Hno in Hr. rewrite (tx_view _ _ _ _ T b Hr) in Hv. injection Hv as ->. by rewrite Hlen.
Qed.

Lemma tx_get_data {B} s hs blks D n b (k : list Z → K (kstate (Xm * fsx)) B) :
  tx s hs blks D → (n, b) ∈ hs → (get_data n ≫= k) s = k (D b) s.
Proof.
  intros T Hin. destruct (held_data s hs blks D n b T Hin) as (bf & Hbf & <- & _). by apply bind_get_data.
Qed.

(** *** Changing a block *)

Lemma extra_other blks b hs : b ∉ hs.*2 → extra (blks ++ [b]) hs = extra blks hs.
Proof.
  unfold extra. induction hs as [|[n b'] hs IH]; intros Hn; [done|]. rewrite fmap_cons, not_elem_of_cons in Hn.
  destruct Hn as [Hn1 Hn2]. simpl in Hn1. rewrite !filter_cons. cbn [snd].
  destruct (decide (b' ∉ blks ++ [b])) as [H1|H1], (decide (b' ∉ blks)) as [H2|H2];
    rewrite elem_of_app, list_elem_of_singleton in H1; simpl; rewrite ?IH by done; (done || naive_solver).
Qed.

Lemma extra_added blks b hs : NoDup hs.*2 → (extra blks hs ≤ extra (blks ++ [b]) hs + 1)%nat.
Proof.
  induction hs as [|[n b'] hs IH]; [unfold extra; simpl; lia|]. rewrite fmap_cons. simpl.
  intros [Hn Hnd]%list.NoDup_cons. rewrite !extra_cons. destruct (decide (b' = b)) as [->|Hne].
  - rewrite extra_other by done. case_bool_decide; case_bool_decide; lia.
  - specialize (IH Hnd). replace (bool_decide (b' ∈ blks ++ [b])) with (bool_decide (b' ∈ blks)); [lia|].
    apply bool_decide_ext. rewrite elem_of_app, list_elem_of_singleton. naive_solver.
Qed.

Lemma length_add_block b blks : length (add_block b blks) = (length blks + if bool_decide (b ∈ blks) then 0 else 1)%nat.
Proof. unfold add_block. case_bool_decide; [lia|]. rewrite length_app. simpl. lia. Qed.

Lemma elem_of_add_block b b' blks : b' ∈ add_block b blks ↔ b' = b ∨ b' ∈ blks.
Proof.
  unfold add_block. case_bool_decide; [naive_solver|]. rewrite elem_of_app, list_elem_of_singleton. tauto.
Qed.

Lemma log_added_fields b lg blks :
  lg_start (log_added b lg blks) = lg_start lg ∧ lg_size (log_added b lg blks) = lg_size lg
  ∧ lg_outstanding (log_added b lg blks) = lg_outstanding lg ∧ lg_committing (log_added b lg blks) = lg_committing lg.
Proof. unfold log_added. by case_bool_decide. Qed.

Lemma tx_write_run s hs blks D n b d :
  tx s hs blks D → (n, b) ∈ hs → length d = Z.to_nat BSIZE → home_block s b → room s blks 1 →
  ∃ s1 s2, set_data n d s = Ok tt s1 ∧ log_write n s1 = Ok tt s2 ∧ frame s s2 ∧ fx_inodes (fx s2) = fx_inodes (fx s)
    ∧ tx s2 hs (add_block b blks) (upd D b d).
Proof.
  intros T Hin Hd Hh [Hr1 Hr2]. pose proof T as [C W G O H Nd F V Dy Cl B]. pose proof (H n b Hin) as Hold.
  pose proof Hold as (_ & _ & bf & Hbf & _). pose proof (lo_n _ _ _ G) as Hn.
  destruct (held_flags _ _ _ _ _ W Hold Hbf) as (Hfl & _ & _ & Hrange & _ & _ & _).
  set (bf1 := set_b_data d bf). set (x1 := put_buf n bf1 (fx s)).
  pose proof (put_held (fx s) n b bf bf1 (p_pid pr) W Hold Hbf eq_refl eq_refl eq_refl eq_refl eq_refl Hfl Hd) as C1. fold x1 in C1.
  pose proof (ch_holds _ _ _ _ _ C1 _ _ _ Hold) as Hold1. set (s1 := set_fx x1 s).
  exists s1, (set_fx (put_buf n (set_b_flags (Z.lor B_VALID B_DIRTY) bf1) (set_fx_log (log_added b (fx_log (fx s)) blks) x1)) s).
  split; [apply (alter_buf_ok n (set_b_data d) bf s Hbf)|].
  split; [apply (log_write_ok n b bf1 blks s1 i c cur pr); try done; try (change (fx_log (fx s1)) with (fx_log (fx s)); lia)|].
  { by eapply becomes_calm; [apply becomes_intro|]. }
  { apply C1. }
  { apply (ch_buf _ _ _ _ _ C1). }
  set (bf2 := set_b_flags _ bf1). set (lg2 := log_added b (fx_log (fx s)) blks).
  pose proof (put_held x1 n b bf1 bf2 (p_pid pr) (ch_wf _ _ _ _ _ C1) Hold1 (ch_buf _ _ _ _ _ C1) eq_refl eq_refl eq_refl eq_refl eq_refl
    ltac:(by right) Hd) as C2. set (x2 := put_buf n bf2 x1) in *.
  change (put_buf n bf2 (set_fx_log lg2 x1)) with (set_fx_log lg2 x2).
  destruct (log_added_fields b (fx_log (fx s)) blks) as (L1 & L2 & L3 & L4). fold lg2 in L1, L2, L3, L4.
  assert (∀ m, sleeping (set_fx_log lg2 x2) m = sleeping (fx s) m) as Esl.
  { intros m. change (sleeping x2 m = sleeping (fx s) m). by rewrite (ch_sleep _ _ _ _ _ C2), (ch_sleep _ _ _ _ _ C1). }
  split; [split; [apply becomes_intro|done|done|done|done|done|intros m _; apply Esl|exact L1|exact L2|exact L3|exact L4]|]. split; [done|].
  split; rewrite ?fx_set; try done.
  - by eapply becomes_calm; [apply becomes_intro|].
  - apply bio_wf_log, C2.
  - apply log_added_geom; [done|done|lia|lia].
  - cbn. lia.
  - intros m b' Hm. apply (ch_holds _ _ _ _ _ C2), (ch_holds _ _ _ _ _ C1). by apply H.
  - intros b' H0 Hb'. change (unlocked x2 b'). eapply unlocked_changed; [exact C2|done|].
    eapply unlocked_changed; [exact C1|done|by apply F].
  - intros b' Hb'. change (view x2 b' = Some (upd D b d b')). destruct (decide (b' = b)) as [->|Hne].
    + rewrite upd_eq. apply (ch_view _ _ _ _ _ C2).
    + rewrite upd_ne by done. destruct (ch_others _ _ _ _ _ C2 b' ltac:(lia) Hne) as [-> _].
      destruct (ch_others _ _ _ _ _ C1 b' ltac:(lia) Hne) as [-> _]. by apply V.
  - intros b' Hb'. change (dirty x2 b' = bool_decide (b' ∈ add_block b blks)). destruct (decide (b' = b)) as [->|Hne].
    + rewrite (ch_dirty _ _ _ _ _ C2). rewrite bool_decide_eq_true_2 by (apply elem_of_add_block; by left). done.
    + destruct (ch_others _ _ _ _ _ C2 b' ltac:(lia) Hne) as [_ ->]. destruct (ch_others _ _ _ _ _ C1 b' ltac:(lia) Hne) as [_ ->].
      rewrite Dy by done. apply bool_decide_ext. rewrite elem_of_add_block. naive_solver.
  - intros b' Hb' Hn'. rewrite elem_of_add_block in Hn'. rewrite upd_ne by tauto. apply Cl; [done|tauto].
  - change (busy_count x2 ≤ length (add_block b blks) + extra (add_block b blks) hs)%nat.
    rewrite (ch_busy _ _ _ _ _ C2), (ch_busy _ _ _ _ _ C1), length_add_block. unfold add_block.
    destruct (bool_decide_reflect (b ∈ blks)) as [Hb|Hb]; [lia|].
    pose proof (extra_added blks b hs Nd). lia.
Qed.

(** *** Giving a block back *)

Lemma tx_brelse s hs blks D n b :
  tx s ((n, b) :: hs) blks D →
  wp (brelse n) (λ _ s', frame s s' ∧ fx_inodes (fx s') = fx_inodes (fx s) ∧ tx s' hs blks D) s.
Proof.
  intros T. pose proof T as [C W G O H Nd F V Dy Cl B]. pose proof (H n b ltac:(by left)) as Hold.
  destruct (held_data s _ _ _ n b T ltac:(by left)) as (_ & _ & _ & Hr & _). rewrite fmap_cons in Nd. apply list.NoDup_cons in Nd as [Nb Nd].
  destruct (brelse_held n b s i c cur pr C W Hold) as (s' & x' & R & Bc & Dp).
  { rewrite Dy by lia. intros Hb%bool_decide_eq_false. rewrite V by done. by rewrite Cl. }
  pose proof (becomes_fx _ _ _ Bc) as Efx. exists tt, s'. split; [done|].
  destruct (same_rest_dropped _ _ _ _ (proj1 Hold) Dp) as (R1 & R2 & R3 & R4 & R5 & R6).
  destruct (dropped_fields _ _ _ _ Dp) as (E1 & E2 & _). rewrite <- Efx in *.
  split; [split; try done; by rewrite R1|]. split; [done|].
  assert (bool_decide (b ∈ blks) = dirty (fx s) b) as Eb by (by rewrite Dy by lia).
  split; rewrite ?E1, ?R1; try done.
  - by eapply becomes_calm.
  - apply Dp.
  - intros m b' Hm. apply (dp_holds _ _ _ _ Dp); [|apply H; by right].
    intros ->. destruct (H n b' ltac:(by right)) as (_ & _ & bf' & E1' & E2'), Hold as (_ & _ & bf & E1'' & E2'').
    rewrite E1'' in E1'. injection E1' as <-. apply is_block_spec in E2' as [_ <-], E2'' as [_ <-].
    apply Nb. apply list_elem_of_fmap. by exists (n, b_blockno bf).
  - intros b' H0 Hb'. apply (unlocked_dropped _ _ _ _ _ Dp H0). destruct (decide (b' = b)) as [->|Hne].
    + right. by eapply holds_cached.
    + left. apply F; [done|]. rewrite fmap_cons, elem_of_cons. simpl. tauto.
  - intros b' Hb'. rewrite (dp_view _ _ _ _ Dp) by lia. by apply V.
  - intros b' Hb'. rewrite (dp_dirty _ _ _ _ Dp) by done. by apply Dy.
  - pose proof (dp_busy _ _ _ _ Dp) as Hb. rewrite extra_cons, Eb in B. destruct (dirty (fx s) b); lia.
Qed.

(** *** Steps in continuation form *)

Lemma tx_write {B} (k : K (kstate (Xm * fsx)) B) Q s hs blks D n b d :
  tx s hs blks D → (n, b) ∈ hs → length d = Z.to_nat BSIZE → home_block s b → room s blks 1 →
  (∀ s', frame s s' → fx_inodes (fx s') = fx_inodes (fx s) → tx s' hs (add_block b blks) (upd D b d) → wp k Q s') →
  wp (set_data n d;; log_write n;; k) Q s.
Proof.
  intros T Hin Hd Hh Hr Hk. destruct (tx_write_run s hs blks D n b d T Hin Hd Hh Hr) as (s1 & s2 & R1 & R2 & F & E & T').
  eapply wp_run; [exact R1|]. eapply wp_run; [exact R2|]. by apply Hk.
Qed.

Lemma tx_write_byte {B} (k : K (kstate (Xm * fsx)) B) Q s hs blks D n b j v :
  tx s hs blks D → (n, b) ∈ hs → home_block s b → room s blks 1 →
  (∀ s', frame s s' → fx_inodes (fx s') = fx_inodes (fx s) →
     tx s' hs (add_block b blks) (upd D b (<[j := u8 v]> (D b))) → wp k Q s') →
  wp (set_byte n j v;; log_write n;; k) Q s.
Proof.
  intros T Hin Hh Hr Hk. destruct (held_data s hs blks D n b T Hin) as (_ & _ & _ & _ & Hlen).
  destruct (tx_write_run s hs blks D n b (<[j := u8 v]> (D b)) T Hin ltac:(by rewrite length_insert) Hh Hr) as (s1 & s2 & R1 & R2 & F & E & T').
  eapply wp_run; [unfold set_byte; rewrite (tx_get_data s hs blks D n b) by done; exact R1|].
  eapply wp_run; [exact R2|]. by apply Hk.
Qed.

Lemma tx_get_byte {B} s hs blks D n b j (k : Z → K (kstate (Xm * fsx)) B) :
  tx s hs blks D → (n, b) ∈ hs → (j < Z.to_nat BSIZE)%nat → (get_byte n j ≫= k) s = k (D b !!! j) s.
Proof.
  intros T Hin Hj. destruct (held_data s hs blks D n b T Hin) as (_ & _ & _ & _ & Hlen).
  apply bind_ok. unfold get_byte. rewrite (tx_get_data s hs blks D n b) by done.
  destruct (lookup_lt_is_Some_2 (D b) j ltac:(lia)) as [v Hv]. by rewrite list_lookup_total_alt, Hv.
Qed.

Lemma room_frame s s' blks k : frame s s' → room s blks k → room s' blks k.
Proof. intros F. unfold room. by rewrite (fr_size _ _ F). Qed.

Lemma room_add s blks b k : room s blks (k + 1) → room s (add_block b blks) k.
Proof. unfold room. rewrite length_add_block. intros []. destruct (bool_decide _); lia. Qed.

Lemma room_le s blks k k' : room s blks k → k' ≤ k → room s blks k'.
Proof. unfold room. lia. Qed.

(** With room in the log there are buffers. *)
Lemma room_bufs s blks k hs : room s blks k → Z.of_nat (length hs) < k → (length blks + length hs < NBUF)%nat.
Proof. unfold room, LOGSIZE, MAXOPBLOCKS, NBUF. lia. Qed.

End transaction.

(** ** The block allocator *)

(** The bit of block [b] in the bitmap, and the bitmap with it changed. *)
Definition bit (D : Z → list Z) (sb : superblock) (b : Z) : bool :=
  negb (Z.land (D (BBLOCK b sb) !!! Z.to_nat (b mod BPB / 8)) (Z.shiftl 1 (b mod BPB mod 8)) =? 0).

Definition mark (D : Z → list Z) (sb : superblock) (b : Z) : Z → list Z :=
  upd D (BBLOCK b sb) (<[Z.to_nat (b mod BPB / 8) :=
    u8 (Z.lor (D (BBLOCK b sb) !!! Z.to_nat (b mod BPB / 8)) (Z.shiftl 1 (b mod BPB mod 8)))]> (D (BBLOCK b sb))).

Definition unmark (D : Z → list Z) (sb : superblock) (b : Z) : Z → list Z :=
  upd D (BBLOCK b sb) (<[Z.to_nat (b mod BPB / 8) :=
    u8 (Z.land (D (BBLOCK b sb) !!! Z.to_nat (b mod BPB / 8)) (Z.lnot (Z.shiftl 1 (b mod BPB mod 8))))]> (D (BBLOCK b sb))).

Section balloc.
Context {Xm : Type} (slp : nat) (i : nat) (c : cpu) (cur : nat) (pr : proc).
Implicit Types (s : kstate (Xm * fsx)) (hs : list (nat * Z)) (blks : list Z) (D : Z → list Z).
Notation tx := (tx i c cur pr).

(** The bitmap is on the disk, outside the log, and the caller holds none of it. *)
Record bitmap_ok s hs : Prop := BitmapOk {
  bm_home : ∀ b, 0 ≤ b < sb_size (fx_sb (fx s)) → home_block s (BBLOCK b (fx_sb (fx s)));
  bm_free : ∀ b, 0 ≤ b < sb_size (fx_sb (fx s)) → BBLOCK b (fx_sb (fx s)) ∉ hs.*2
}.

Lemma bitmap_ok_frame s s' hs : frame s s' → bitmap_ok s hs → bitmap_ok s' hs.
Proof.
  intros F [H1 H2]. split; rewrite (fr_sb _ _ F); [|done]. intros b Hb. by eapply home_block_frame; [|apply H1].
Qed.

Lemma block_div q bi : 0 ≤ bi < BPB → (q * BPB + bi) / BPB = q ∧ (q * BPB + bi) mod BPB = bi.
Proof.
  intros Hb. assert (BPB = 4096) as E by done. rewrite E in *. split.
  - rewrite Z.add_comm, Z.div_add, Z.div_small by lia. lia.
  - rewrite Z.add_comm, Z.mod_add by lia. by apply Z.mod_small.
Qed.

Lemma BBLOCK_same q bi sb : 0 ≤ bi < BPB → BBLOCK (q * BPB + bi) sb = BBLOCK (q * BPB) sb.
Proof.
  intros Hb. unfold BBLOCK. destruct (block_div q bi Hb) as [-> _]. destruct (block_div q 0 ltac:(done)) as [E _].
  by rewrite Z.add_0_r in E; rewrite E.
Qed.

(** The inner loop looks at the bits of one bitmap block. *)
Lemma balloc_scan_ok s hs blks D n q size sb :
  tx s hs blks D → (n, BBLOCK (q * BPB) sb) ∈ hs →
  balloc_scan n (q * BPB) size s
  = Ok (Z.of_nat <$> find_index (λ bi, (q * BPB + Z.of_nat bi <? size) && negb (bit D sb (q * BPB + Z.of_nat bi)))
          (seq 0 (Z.to_nat (Z.min BPB (size - q * BPB))))) s.
Proof.
  intros T Hin. unfold balloc_scan. rewrite (tx_get_data i c cur pr s hs blks D n _ _ T Hin). unfold mret, K_ret. do 2 f_equal.
  apply find_index_ext. intros bi Hbi%list_elem_of_In%in_seq.
  assert (0 ≤ Z.of_nat bi < BPB) as Hb by lia. f_equal. unfold bit.
  rewrite BBLOCK_same by done. destruct (block_div q (Z.of_nat bi) Hb) as [_ ->]. rewrite negb_involutive.
  by replace (Z.to_nat (Z.of_nat bi / 8)) with (bi / 8)%nat by (change 8 with (Z.of_nat 8); by rewrite <- Nat2Z.inj_div, Nat2Z.id).
Qed.

Definition zeros : list Z := replicate (Z.to_nat BSIZE) 0.

(** The state after a routine that left the inodes alone. *)
Definition done s s' hs blks D : Prop := frame s s' ∧ fx_inodes (fx s') = fx_inodes (fx s) ∧ tx s' hs blks D.

Lemma done_trans s1 s2 s3 hs hs' blks blks' D D' : done s1 s2 hs blks D → done s2 s3 hs' blks' D' → done s1 s3 hs' blks' D'.
Proof. intros (F1 & E1 & _) (F2 & E2 & T2). split; [by eapply frame_trans|]. split; [congruence|done]. Qed.

(** Locking a block, changing it and giving it back. *)
Lemma bzero_ok s hs blks D b :
  tx s hs blks D → home_block s b → b ∉ hs.*2 → room s blks (Z.of_nat (length hs) + 1) →
  wp (bzero (S slp) 1 b) (λ _ s', done s s' hs (add_block b blks) (upd D b zeros)) s.
Proof.
  intros T Hh Hb Hr. unfold bzero. eapply wp_step.
  { apply (tx_bread slp i c cur pr); [done|by apply home_block_range|done|eapply room_bufs; [exact Hr|lia]]. }
  intros n s1 D1. cbn beta in D1. destruct D1 as (F1 & E1 & T1).
  eapply (tx_write i c cur pr); [exact T1|by left|apply length_replicate|by eapply home_block_frame|
    eapply room_frame; [done|]; eapply room_le; [done|lia]|]. intros s2 F2 E2 T2.
  eapply wp_mono; [by eapply (tx_brelse i c cur pr)|]. intros _ s3 (F3 & E3 & T3). split; [|split; [congruence|done]].
  eapply frame_trans; [done|]. by eapply frame_trans.
Qed.

(** Bitmap blocks without a free bit are passed over. *)
Lemma balloc_skip fuel hs blks D : ∀ n q s,
  tx s hs blks D → bitmap_ok s hs → (length blks + length hs < NBUF)%nat → 0 ≤ q →
  (∀ j, (j < n)%nat → (q + Z.of_nat j) * BPB < sb_size (fx_sb (fx s))) →
  (∀ b, q * BPB ≤ b < (q + Z.of_nat n) * BPB → b < sb_size (fx_sb (fx s)) → bit D (fx_sb (fx s)) b = true) →
  ∃ s', balloc_loop (S slp) (n + fuel) 1 (q * BPB) s = balloc_loop (S slp) fuel 1 ((q + Z.of_nat n) * BPB) s' ∧ done s s' hs blks D.
Proof.
  induction n as [|n IH]; intros q s T Bm Hroom Hq Hin Hset.
  { exists s. rewrite Z.add_0_r. split; [done|]. split; [apply frame_refl|done]. }
  cbn [balloc_loop Nat.add]. rewrite bind_fgets. set (sb := fx_sb (fx s)) in *.
  assert (q * BPB < sb_size sb) as Hlt by (specialize (Hin 0%nat); rewrite Z.add_0_r in Hin; apply Hin; lia).
  assert (BPB = 4096) as E by done. apply Z.ltb_lt in Hlt as Hlt'. rewrite Hlt'. cbn [negb].
  destruct (tx_bread slp i c cur pr s hs blks D (BBLOCK (q * BPB) sb) T) as (m & s1 & R1 & F1 & E1 & T1).
  { apply home_block_range, Bm. fold sb. lia. }
  { apply Bm. fold sb. lia. }
  { done. }
  rewrite (bind_ok _ _ _ _ _ R1). rewrite (bind_ok _ _ _ _ _ (balloc_scan_ok s1 _ _ _ m q (sb_size sb) sb T1 ltac:(by left))).
  replace (find_index _ _) with (@None nat).
  2:{ symmetry. apply find_index_None. intros bi Hbi%list_elem_of_In%in_seq.
      destruct (Z.ltb_spec (q * BPB + Z.of_nat bi) (sb_size sb)); [|done]. rewrite Hset by lia. done. }
  cbn [fmap option_fmap option_map]. destruct (tx_brelse i c cur pr s1 hs blks D m (BBLOCK (q * BPB) sb) T1) as ([] & s2 & R2 & F2 & E2 & T2).
  rewrite (bind_ok _ _ _ _ _ R2). pose proof (frame_trans _ _ _ F1 F2) as F12.
  assert (fx_sb (fx s2) = sb) as Esb by apply (fr_sb _ _ F12).
  destruct (IH (q + 1) s2 T2 (bitmap_ok_frame _ _ _ F12 Bm) Hroom ltac:(lia)) as (s3 & R3 & D3).
  - intros j Hj. rewrite Esb. specialize (Hin (S j)). lia.
  - intros b Hb1 Hb2. rewrite Esb in *. apply Hset; [lia|done].
  - exists s3. replace (q * BPB + BPB) with ((q + 1) * BPB) by lia. rewrite R3. split; [f_equal; lia|].
    eapply done_trans; [|exact D3]. split; [done|]. split; [congruence|done].
Qed.

(** [balloc] takes the first free block, marks and zeroes it. *)
Lemma balloc_ok s hs blks D b :
  let sb := fx_sb (fx s) in
  tx s hs blks D → bitmap_ok s hs → 0 ≤ b < sb_size sb → bit D sb b = false → (∀ b', 0 ≤ b' < b → bit D sb b' = true) →
  home_block s b → b ∉ hs.*2 → room s blks (Z.of_nat (length hs) + 2) →
  wp (balloc (S slp) 1) (λ r s', r = b ∧ done s s' hs (add_block b (add_block (BBLOCK b sb) blks)) (upd (mark D sb b) b zeros)) s.
Proof.
  intros sb T Bm Hb Hfree Hmin Hh Hnb Hr. assert (BPB = 4096) as E by done.
  set (q := b / BPB). set (bi := b mod BPB). assert (b = q * BPB + bi) as Eb by (unfold q, bi; pose proof (Z.div_mod b BPB); lia).
  assert (0 ≤ bi < BPB) as Hbi by (apply Z.mod_pos_bound; lia). assert (0 ≤ q) as Hq by (apply Z.div_pos; lia).
  unfold balloc. eapply wp_same; [apply bind_fgets|]. fold sb.
  assert (q ≤ sb_size sb / BPB) as Hqs by (apply Z.div_le_mono; lia).
  replace (S (Z.to_nat (sb_size sb / BPB + 1))) with (Z.to_nat q + S (Z.to_nat (sb_size sb / BPB + 1 - q)))%nat by lia.
  destruct (balloc_skip (S (Z.to_nat (sb_size sb / BPB + 1 - q))) hs blks D (Z.to_nat q) 0 s T Bm) as (s1 & R1 & F1 & E1 & T1).
  { eapply room_bufs; [exact Hr|lia]. }
  { lia. }
  { intros j Hj. fold sb. lia. }
  { intros b' Hb' _. apply Hmin. lia. }
  rewrite Z.mul_0_l, Z.add_0_l, Z2Nat.id in R1 by done. eapply wp_same; [exact R1|]. cbn [balloc_loop].
  pose proof (fr_sb _ _ F1) as Esb. fold sb in Esb.
  assert (BBLOCK (q * BPB) sb = BBLOCK b sb) as Ebb by (rewrite Eb; symmetry; by apply BBLOCK_same).
  eapply wp_same; [apply bind_fgets|]. rewrite Esb. destruct (Z.ltb_spec (q * BPB) (sb_size sb)); [|lia]. cbn [negb].
  apply (wp_step _ _ (λ n s', done s1 s' ((n, BBLOCK b sb) :: hs) blks D)).
  { rewrite Ebb. apply (tx_bread slp i c cur pr); [done| | |].
    - apply home_block_range. eapply home_block_frame; [exact F1|]. by apply Bm.
    - by apply Bm.
    - eapply room_bufs; [exact Hr|lia]. }
  intros n s2 (F2 & E2 & T2). eapply wp_run; [apply (balloc_scan_ok s2 ((n, BBLOCK b sb) :: hs) blks D n q (sb_size sb) sb T2); rewrite Ebb; by left|].
  replace (find_index _ _) with (Some (Z.to_nat bi)).
  2:{ symmetry. apply find_index_intro with (Z.to_nat bi).
      - rewrite lookup_seq_lt by lia. done.
      - rewrite Z2Nat.id by lia. rewrite <- Eb, Hfree. destruct (Z.ltb_spec b (sb_size sb)); [done|lia].
      - intros j y Hj Hy. apply lookup_seq in Hy as [-> Hy]. rewrite Hmin by lia. by rewrite andb_false_r. }
  cbn [fmap option_fmap option_map]. rewrite Z2Nat.id by lia.
  assert (Z.to_nat (bi / 8) < Z.to_nat BSIZE)%nat as Hbyte.
  { assert (bi / 8 < 512) by (apply Z.div_lt_upper_bound; lia). pose proof (Z.div_pos bi 8 ltac:(lia) ltac:(lia)). unfold BSIZE. lia. }
  eapply wp_same; [apply (tx_get_byte i c cur pr s2 _ _ _ n _ _ _ T2 ltac:(by left) Hbyte)|].
  assert (home_block s2 (BBLOCK b sb)) as Hbb by (eapply home_block_frame; [exact F2|]; eapply home_block_frame; [exact F1|]; by apply Bm).
  eapply (tx_write_byte i c cur pr); [exact T2|by left|done|eapply room_frame; [exact F2|]; eapply room_frame; [exact F1|]; eapply room_le; [done|lia]|].
  intros s3 F3 E3 T3. fold (mark D sb b) in T3.
  eapply wp_step; [by eapply (tx_brelse i c cur pr)|]. intros _ s4 (F4 & E4 & T4).
  rewrite <- Eb. assert (frame s s4) as F by (repeat (eapply frame_trans; [eassumption|]); apply frame_refl).
  eapply wp_step; [apply bzero_ok; [exact T4|by eapply home_block_frame|done|]|].
  { apply room_add. eapply room_frame; [done|]. eapply room_le; [done|lia]. }
  intros _ s5 (F5 & E5 & T5). apply wp_ret. split; [done|]. split; [by eapply frame_trans|]. split; [congruence|done].
Qed.

(** Without a free block it panics. *)
Lemma balloc_full s hs blks D :
  let sb := fx_sb (fx s) in
  tx s hs blks D → bitmap_ok s hs → 0 ≤ sb_size sb → (∀ b, 0 ≤ b < sb_size sb → bit D sb b = true) →
  (length blks + length hs < NBUF)%nat → balloc (S slp) 1 s = Panic "balloc: out of blocks".
Proof.
  intros sb T Bm H0 Hset Hroom. assert (BPB = 4096) as E by done. unfold balloc. rewrite bind_fgets. fold sb.
  set (q := (sb_size sb + BPB - 1) / BPB).
  assert (sb_size sb + BPB - 1 = BPB * q + (sb_size sb + BPB - 1) mod BPB) as Dq by (apply Z.div_mod; lia).
  pose proof (Z.mod_pos_bound (sb_size sb + BPB - 1) BPB ltac:(lia)) as Dm.
  pose proof (Z.div_mod (sb_size sb) BPB ltac:(lia)) as Ds. pose proof (Z.mod_pos_bound (sb_size sb) BPB ltac:(lia)) as Dm2.
  pose proof (Z.div_pos (sb_size sb) BPB H0 ltac:(lia)) as Dp.
  replace (S (Z.to_nat (sb_size sb / BPB + 1))) with (Z.to_nat q + S (Z.to_nat (sb_size sb / BPB + 1 - q)))%nat by lia.
  destruct (balloc_skip (S (Z.to_nat (sb_size sb / BPB + 1 - q))) hs blks D (Z.to_nat q) 0 s T Bm Hroom ltac:(lia)) as (s1 & R1 & F1 & E1 & T1).
  { intros j Hj. fold sb. lia. }
  { intros b' Hb' Hlt. apply Hset. fold sb in Hlt. lia. }
  rewrite Z.mul_0_l, Z.add_0_l, Z2Nat.id in R1 by lia. rewrite R1. cbn [balloc_loop].
  rewrite bind_fgets, (fr_sb _ _ F1). fold sb. by destruct (Z.ltb_spec (q * BPB) (sb_size sb)); [lia|].
Qed.

Lemma byte_index b : (Z.to_nat (b mod BPB / 8) < Z.to_nat BSIZE)%nat.
Proof.
  pose proof (Z.mod_pos_bound b BPB ltac:(done)) as Hm. assert (BPB = 4096) as E by done.
  assert (b mod BPB / 8 < 512) by (apply Z.div_lt_upper_bound; lia). pose proof (Z.div_pos (b mod BPB) 8 ltac:(lia) ltac:(lia)).
  unfold BSIZE. lia.
Qed.

(** [bfree] clears the block's bit and panics when it is clear already. *)
Lemma bfree_ok s hs blks D b :
  let sb := fx_sb (fx s) in
  tx s hs blks D → bitmap_ok s hs → 0 ≤ b < sb_size sb → room s blks (Z.of_nat (length hs) + 1) →
  if bit D sb b then wp (bfree (S slp) 1 b) (λ _ s', done s s' hs (add_block (BBLOCK b sb) blks) (unmark D sb b)) s
  else bfree (S slp) 1 b s = Panic "freeing free block".
Proof.
  intros sb T Bm Hb Hr. unfold bfree.
  destruct (tx_bread slp i c cur pr s hs blks D (BBLOCK b sb) T) as (n & s1 & R1 & F1 & E1 & T1).
  { apply home_block_range, Bm. done. }
  { by apply Bm. }
  { eapply room_bufs; [exact Hr|lia]. }
  pose proof (byte_index b) as Hbyte. destruct (bit D sb b) eqn:Hbit; unfold bit in Hbit.
  - eapply wp_same; [apply bind_fgets|]. fold sb. eapply wp_run; [exact R1|].
    eapply wp_same; [apply (tx_get_byte i c cur pr s1 _ _ _ n _ _ _ T1 ltac:(by left) Hbyte)|].
    apply negb_true_iff in Hbit. rewrite Hbit.
    eapply (tx_write_byte i c cur pr); [exact T1|by left|eapply home_block_frame; [exact F1|by apply Bm]|
      eapply room_frame; [exact F1|]; eapply room_le; [exact Hr|lia]|].
    intros s2 F2 E2 T2. fold (unmark D sb b) in T2. eapply wp_mono; [by eapply (tx_brelse i c cur pr)|].
    intros _ s3 (F3 & E3 & T3). split; [|split; [congruence|done]]. eapply frame_trans; [done|]. by eapply frame_trans.
  - rewrite bind_fgets. fold sb. rewrite (bind_ok _ _ _ _ _ R1).
    rewrite (tx_get_byte i c cur pr s1 _ _ _ n _ _ _ T1 ltac:(by left) Hbyte). apply negb_false_iff in Hbit. by rewrite Hbit.
Qed.

End balloc.

(** *** Bits *)

Lemma land_bit v k : 0 ≤ k → negb (Z.land v (Z.shiftl 1 k) =? 0) = Z.testbit v k.
Proof.
  intros Hk. rewrite Z.shiftl_1_l. destruct (Z.testbit v k) eqn:E.
  - apply negb_true_iff, Z.eqb_neq. intros H. apply (f_equal (λ x, Z.testbit x k)) in H.
    rewrite Z.land_spec, E, Z.pow2_bits_true, Z.bits_0 in H by done. done.
  - apply negb_false_iff, Z.eqb_eq. apply Z.bits_inj_iff'. intros n Hn. rewrite Z.land_spec, Z.bits_0.
    destruct (decide (n = k)) as [->|Hne]; [by rewrite E|]. by rewrite Z.pow2_bits_false, andb_false_r by done.
Qed.

Lemma u8_bit v k : 0 ≤ k < 8 → Z.testbit (u8 v) k = Z.testbit v k.
Proof. intros Hk. unfold u8. by rewrite Z.mod_pow2_bits_low by lia. Qed.

Lemma bit_testbit D sb b : bit D sb b = Z.testbit (D (BBLOCK b sb) !!! Z.to_nat (b mod BPB / 8)) (b mod BPB mod 8).
Proof. unfold bit. apply land_bit. apply Z.mod_pos_bound. done. Qed.

(** The bitmap's blocks have different numbers. *)
Definition sb_ok (sb : superblock) : Prop := 0 ≤ sb_bmapstart sb ∧ sb_size sb / BPB + sb_bmapstart sb < 2 ^ 32.

Lemma BBLOCK_inj sb b b' : sb_ok sb → 0 ≤ b < sb_size sb → 0 ≤ b' < sb_size sb → BBLOCK b sb = BBLOCK b' sb → b / BPB = b' / BPB.
Proof.
  intros [H1 H2] Hb Hb'. assert (BPB = 4096) as E by done. unfold BBLOCK.
  assert (∀ y, 0 ≤ y < sb_size sb → 0 ≤ y / BPB + sb_bmapstart sb < 2 ^ 32) as Hr.
  { intros y Hy. pose proof (Z.div_pos y BPB ltac:(lia) ltac:(lia)). assert (y / BPB ≤ sb_size sb / BPB) by (apply Z.div_le_mono; lia). lia. }
  rewrite !u32_small by by apply Hr. lia.
Qed.

(** A change of one bit. *)
Lemma bit_change D sb b b' (f : Z → Z) (v : bool) :
  sb_ok sb → 0 ≤ b < sb_size sb → 0 ≤ b' < sb_size sb → length (D (BBLOCK b sb)) = Z.to_nat BSIZE →
  (∀ w k, 0 ≤ k < 8 → Z.testbit (f w) k = if k =? b mod BPB mod 8 then v else Z.testbit w k) →
  bit (upd D (BBLOCK b sb) (<[Z.to_nat (b mod BPB / 8) := u8 (f (D (BBLOCK b sb) !!! Z.to_nat (b mod BPB / 8)))]> (D (BBLOCK b sb)))) sb b'
  = if b' =? b then v else bit D sb b'.
Proof.
  intros Hsb Hb Hb' Hlen Hf. rewrite !bit_testbit. pose proof (byte_index b) as Hi.
  assert (0 ≤ b' mod BPB mod 8 < 8) as Hk by (by apply Z.mod_pos_bound).
  pose proof (Z.mod_pos_bound b BPB ltac:(done)) as M1. pose proof (Z.mod_pos_bound b' BPB ltac:(done)) as M2.
  destruct (decide (BBLOCK b' sb = BBLOCK b sb)) as [E|E].
  2:{ rewrite upd_ne by done. destruct (Z.eqb_spec b' b) as [->|]; [done|done]. }
  rewrite E, upd_eq. apply BBLOCK_inj in E as E'; [|done|done|done].
  destruct (decide (Z.to_nat (b' mod BPB / 8) = Z.to_nat (b mod BPB / 8))) as [Ei|Ei].
  - rewrite Ei, list_lookup_total_insert_eq by lia. rewrite u8_bit, Hf by done.
    destruct (Z.eqb_spec (b' mod BPB mod 8) (b mod BPB mod 8)) as [Em|Em], (Z.eqb_spec b' b) as [Eb|Eb]; try done; [|by subst].
    destruct Eb. apply Z2Nat.inj in Ei; [|apply Z.div_pos; lia..].
    pose proof (Z.div_mod (b' mod BPB) 8 ltac:(done)). pose proof (Z.div_mod (b mod BPB) 8 ltac:(done)).
    pose proof (Z.div_mod b' BPB ltac:(done)). pose proof (Z.div_mod b BPB ltac:(done)). congruence || lia.
  - rewrite list_lookup_total_insert_ne by done. destruct (Z.eqb_spec b' b) as [->|]; [done|done].
Qed.

Lemma bit_mark D sb b b' :
  sb_ok sb → 0 ≤ b < sb_size sb → 0 ≤ b' < sb_size sb → length (D (BBLOCK b sb)) = Z.to_nat BSIZE →
  bit (mark D sb b) sb b' = if b' =? b then true else bit D sb b'.
Proof.
  intros H1 H2 H3 H4. unfold mark. apply (bit_change D sb b b' (λ w, Z.lor w (Z.shiftl 1 (b mod BPB mod 8))) true); try done.
  intros w k Hk. rewrite Z.lor_spec, Z.shiftl_1_l. pose proof (Z.mod_pos_bound (b mod BPB) 8 ltac:(done)).
  destruct (Z.eqb_spec k (b mod BPB mod 8)) as [->|]; [by rewrite Z.pow2_bits_true, orb_true_r by lia|].
  by rewrite Z.pow2_bits_false, orb_false_r by lia.
Qed.

Lemma bit_unmark D sb b b' :
  sb_ok sb → 0 ≤ b < sb_size sb → 0 ≤ b' < sb_size sb → length (D (BBLOCK b sb)) = Z.to_nat BSIZE →
  bit (unmark D sb b) sb b' = if b' =? b then false else bit D sb b'.
Proof.
  intros H1 H2 H3 H4. unfold unmark. apply (bit_change D sb b b' (λ w, Z.land w (Z.lnot (Z.shiftl 1 (b mod BPB mod 8)))) false); try done.
  intros w k Hk. rewrite Z.land_spec, Z.lnot_spec, Z.shiftl_1_l by lia. pose proof (Z.mod_pos_bound (b mod BPB) 8 ltac:(done)).
  destruct (Z.eqb_spec k (b mod BPB mod 8)) as [->|]; [by rewrite Z.pow2_bits_true, andb_false_r by lia|].
  by rewrite Z.pow2_bits_false, andb_true_r by lia.
Qed.

(** ** Property *)

(** C22: The block allocator, inside a transaction.  [balloc] panics when every bit
    is set; otherwise it returns the first block whose bit is clear, sets that
    bit and no other, zeroes the block, and logs exactly the two blocks it wrote;
    [bfree] clears the block's bit and no other, and panics when it is clear
    already.  The disk as seen changes nowhere else, and the buffers the caller
    holds stay held. *)
Theorem balloc_bfree_correct {Xm : Type} slp (s : kstate (Xm * fsx)) i c cur pr hs blks D :
  let sb := fx_sb (fx s) in
  tx i c cur pr s hs blks D → bitmap_ok s hs → sb_ok sb → 0 ≤ sb_size sb → room s blks (Z.of_nat (length hs) + 2) →
  ((∀ b, 0 ≤ b < sb_size sb → bit D sb b = true) → balloc (S slp) 1 s = Panic "balloc: out of blocks")
  ∧ (∀ b, 0 ≤ b < sb_size sb → bit D sb b = false → (∀ b', 0 ≤ b' < b → bit D sb b' = true) →
       home_block s b → b ∉ hs.*2 → (∀ b', 0 ≤ b' < sb_size sb → BBLOCK b' sb ≠ b) →
       ∃ s' D', balloc (S slp) 1 s = Ok b s' ∧ frame s s' ∧ fx_inodes (fx s') = fx_inodes (fx s)
         ∧ tx i c cur pr s' hs (add_block b (add_block (BBLOCK b sb) blks)) D'
         ∧ D' b = zeros ∧ (∀ b', 0 ≤ b' < sb_size sb → bit D' sb b' = if b' =? b then true else bit D sb b')
         ∧ (∀ b', b' ≠ b → b' ≠ BBLOCK b sb → D' b' = D b'))
  ∧ (∀ b, 0 ≤ b < sb_size sb →
       if bit D sb b then ∃ s' D', bfree (S slp) 1 b s = Ok tt s' ∧ frame s s' ∧ fx_inodes (fx s') = fx_inodes (fx s)
         ∧ tx i c cur pr s' hs (add_block (BBLOCK b sb) blks) D'
         ∧ (∀ b', 0 ≤ b' < sb_size sb → bit D' sb b' = if b' =? b then false else bit D sb b')
         ∧ (∀ b', b' ≠ BBLOCK b sb → D' b' = D b')
       else bfree (S slp) 1 b s = Panic "freeing free block").
Proof.
  intros sb T Bm Hsb H0 Hr.
  assert (∀ b, 0 ≤ b < sb_size sb → length (D (BBLOCK b sb)) = Z.to_nat BSIZE) as Hlen.
  { intros b Hb. destruct (tx_bread slp i c cur pr s hs blks D (BBLOCK b sb) T) as (n & s1 & _ & _ & _ & T1);
      [by apply home_block_range, Bm|by apply Bm|eapply room_bufs; [exact Hr|lia]|].
    by destruct (held_data i c cur pr s1 _ _ _ n _ T1 ltac:(by left)) as (_ & _ & _ & _ & ?). }
  split; [intros Hset; apply (balloc_full slp i c cur pr s hs blks D T Bm H0 Hset); eapply room_bufs; [exact Hr|lia]|]. split.
  - intros b Hb Hf Hmin Hh Hnb Hdata.
    destruct (balloc_ok slp i c cur pr s hs blks D b T Bm Hb Hf Hmin Hh Hnb Hr) as (r & s' & R & -> & F & E & T').
    exists s', (upd (mark D sb b) b zeros). split; [done|]. split; [done|]. split; [done|]. split; [done|].
    split; [apply upd_eq|]. split.
    + intros b' Hb'. rewrite <- (bit_mark D sb b b') by auto. rewrite !bit_testbit. rewrite upd_ne; [done|by apply Hdata].
    + intros b' H1 H2. rewrite upd_ne by done. unfold mark. by rewrite upd_ne.
  - intros b Hb. pose proof (bfree_ok slp i c cur pr s hs blks D b T Bm Hb ltac:(eapply room_le; [exact Hr|lia])) as Hbf. fold sb in Hbf.
    destruct (bit D sb b); [|done]. destruct Hbf as ([] & s' & R & F & E & T'). exists s', (unmark D sb b).
    split; [done|]. split; [done|]. split; [done|]. split; [done|]. split.
    + intros b' Hb'. apply bit_unmark; auto.
    + intros b' H1. unfold unmark. by rewrite upd_ne.
Qed.

(** A transaction that has just begun, over a disk of 40 blocks, none of them
    cached. *)
Definition sample_tx_fsx (disk : list (list Z)) (inodes : list inode) : fsx :=
  Fsx sample_bufs ∅ disk [] (Log 2 12 1 0 1 0 (replicate 30 0)) (Superblock 40 20 16 12 2 14 16) inodes [] ∅.

Definition sample_tx_state disk inodes : kstate (unit * fsx) := set_fx (sample_tx_fsx disk inodes) sample_fs.

Lemma sample_uncached disk inodes b : cached (sample_tx_fsx disk inodes) b = None.
Proof.
  unfold cached. apply find_index_None. intros bf Hbf. apply list_elem_of_lookup in Hbf as [n Hn].
  apply lookup_take_Some in Hn as [Hn _]. apply (is_block_core b bf zero_buf). by eapply sample_buf.
Qed.

Lemma sample_tx disk inodes : length disk = 40%nat → Forall (λ d, length d = Z.to_nat BSIZE) disk →
  tx 0 (Cpu 0 1 0 512 (Some 0%nat) 0) 0 (sample_proc RUNNING 7 None) (sample_tx_state disk inodes) [] []
    (λ b, default [] (disk !! Z.to_nat b)).
Proof.
  intros Hl Hd. set (x := sample_tx_fsx disk inodes).
  assert (∀ b, dirty x b = false) as Hdirty.
  { intros b. unfold dirty, x. by rewrite sample_uncached. }
  assert (∀ b, cached x b = None) as Hun by (intros b; apply sample_uncached).
  split; change (fx (sample_tx_state disk inodes)) with x.
  - apply sample_calm.
  - split.
    + reflexivity.
    + exists (seq 0 NBUF). split; [vm_compute; tauto|done].
    + intros n bf Hn Hbf. apply sample_buf in Hbf. injection Hbf as E1 E2 E3 E4 E5.
      assert (is_locked x n = false) as Hlk by done. split; [by rewrite E5|by rewrite E4, Hlk| |].
      * left. by rewrite E1, E2.
      * intros _. by rewrite E1.
    + intros n m b bf bf' _ _ Hbf _ Hb. apply sample_buf in Hbf. by rewrite (is_block_core b bf zero_buf Hbf) in Hb.
    + intros n blk Hn. by apply (Forall_lookup_1 _ _ _ _ Hd Hn).
  - change (fx_disk x) with disk. rewrite Hl. split; try reflexivity; try (vm_compute; congruence); try constructor; vm_compute; congruence.
  - cbn. lia.
  - intros n b Hn. by apply elem_of_nil in Hn.
  - constructor.
  - intros b _ _ n Hn. by rewrite Hun in Hn.
  - intros b Hb. unfold view. rewrite Hun. cbn [fx_disk x sample_tx_fsx] in *.
    destruct (lookup_lt_is_Some_2 disk (Z.to_nat b)) as [d E]; [lia|]. by rewrite E.
  - intros b _. by rewrite Hdirty.
  - intros b Hb _. cbn [fx_disk x sample_tx_fsx] in *. destruct (lookup_lt_is_Some_2 disk (Z.to_nat b)) as [d E]; [lia|]. by rewrite E.
  - vm_compute. lia.
Qed.

(** Blocks 0 to 16 are in use. *)
Definition sample_bitmap_disk : list (list Z) :=
  <[16%nat := 255 :: 255 :: 1 :: replicate 509 0]> (replicate 40 zeros).

Lemma balloc_bfree_correct_witness :
  let s := sample_tx_state sample_bitmap_disk [] in ∃ s', balloc 1 1 s = Ok 17 s'.
Proof.
  assert (∀ b, 0 ≤ b < 40 → BBLOCK b (Superblock 40 20 16 12 2 14 16) = 16) as E.
  { intros b Hb. unfold BBLOCK. by rewrite Z.div_small by (change BPB with 4096; lia). }
  assert (∀ b, home_block (sample_tx_state sample_bitmap_disk []) b ↔ (0 ≤ b < 40) ∧ ¬ (2 ≤ b < 14)) as Hh.
  { intros b. unfold home_block, home. reflexivity. }
  destruct (balloc_bfree_correct 0 (sample_tx_state sample_bitmap_disk []) 0 (Cpu 0 1 0 512 (Some 0%nat) 0) 0
    (sample_proc RUNNING 7 None) [] [] _ (sample_tx sample_bitmap_disk [] eq_refl ltac:(vm_compute; repeat constructor)))
    as (_ & H & _).
  - split; cbn [fx_sb fx sample_tx_state set_fx sample_tx_fsx]; intros b Hb; rewrite E by exact Hb; [|apply not_elem_of_nil].
    apply Hh. lia.
  - vm_compute. split; congruence.
  - vm_compute. congruence.
  - vm_compute. split; congruence.
  - destruct (H 17) as (s' & D' & R & _); [vm_compute; split; congruence|vm_compute; reflexivity| |apply Hh; lia|apply not_elem_of_nil| |by exists s'].
    + intros b' Hb'. set (P := λ b, bit (λ b0, default [] (sample_bitmap_disk !! Z.to_nat b0)) (Superblock 40 20 16 12 2 14 16) b).
      assert (forallb P (seqZ 0 17) = true) as Hall by (vm_compute; reflexivity).
      rewrite forallb_forall in Hall. apply Hall, list_elem_of_In, elem_of_seqZ. lia.
    + intros b' Hb'. rewrite E by exact Hb'. lia.
Defined.
