(* ===== verification/File.v ===== *)
(** * Open files

    Models [file.c] and [pipealloc] of [pipe.c]: the table of open files, whose
    entries name a pipe or an inode.  Reading returns the bytes it stores at the
    caller's buffer.  [slp] bounds the waiting for sleep locks and log space,
    [pfuel] the turns of the pipe loops. *)

From S2P Require Import Prelude Spinlock CString State PrioLock Sched Proc Sleep Sleeplock Pipe FsState Bio Bytes Log Fs.

Section file_ops.
Context {Xm : Type} `{!MemOps Xm fsx} `{!DevOps Xm} (slp pfuel : nat).
Notation M := (K (kstate (Xm * fsx))).

Definition get_file (f : nat) : M file :=
  o ← fgets (λ x, fx_files x !! f);
  match o with Some v => mret v | None => kundef "file pointer" end.

Definition alter_file (f : nat) (g : file → file) : M unit :=
  fmodify (λ x, set_fx_files (alter g f (fx_files x)) x).

Definition fileinit : M unit := initlock L_ftable.

Definition filealloc : M (option nat) :=
  acquire L_ftable;;
  tab ← fgets fx_files;
  match find_index (λ f, f_ref f =? 0) tab with
  | Some f =>
      alter_file f (set_f_ref 1);;
      release L_ftable;;
      mret (Some f)
  | None =>
      release L_ftable;;
      mret None
  end.

Definition filedup (f : nat) : M nat :=
  acquire L_ftable;;
  v ← get_file f;
  if f_ref v <? 1 then kpanic "filedup" else
  alter_file f (λ v, set_f_ref (s32 (f_ref v + 1)) v);;
  release L_ftable;;
  mret f.

Definition fileclose (f : nat) : M unit :=
  acquire L_ftable;;
  v ← get_file f;
  if f_ref v <? 1 then kpanic "fileclose" else
  alter_file f (λ v, set_f_ref (f_ref v - 1) v);;
  ff ← get_file f;
  if 0 <? f_ref ff then release L_ftable else
  alter_file f (set_f_ref 0);;
  alter_file f (set_f_type FD_NONE);;
  release L_ftable;;
  match f_type ff with
  | FD_PIPE => pipeclose (f_pipe ff) (negb (f_writable ff =? 0))
  | FD_INODE =>
      begin_op slp;;
      iput slp (f_ip ff);;
      end_op slp
  | FD_NONE => mret tt
  end.

Definition filestat (f : nat) : M (option stat) :=
  v ← get_file f;
  match f_type v with
  | FD_INODE =>
      ilock slp (f_ip v);;
      st ← stati (f_ip v);
      iunlock (f_ip v);;
      mret (Some st)
  | _ => mret None
  end.

Definition fileread (f : nat) (n : Z) : M (Z * list Z) :=
  v ← get_file f;
  if f_readable v =? 0 then mret (-1, []) else
  match f_type v with
  | FD_PIPE => piperead pfuel (f_pipe v) n
  | FD_INODE =>
      ilock slp (f_ip v);;
      v ← get_file f;
      r ← readi slp (f_ip v) (f_off v) (u32 n);
      (if 0 <? fst r then alter_file f (λ v, set_f_off (u32 (f_off v + fst r)) v) else mret tt);;
      iunlock (f_ip v);;
      mret r
  | FD_NONE => kpanic "fileread"
  end.

(** [((MAXOPBLOCKS - 1 - 1 - 2) / 2) * 512] *)
Definition write_max : Z := (MAXOPBLOCKS - 1 - 1 - 2) / 2 * 512.

(** The loop of [filewrite] with [i] bytes written. *)
Fixpoint filewrite_loop (fuel : nat) (f ip : nat) (addr : list Z) (n i : Z) : M Z :=
  match fuel with
  | O => knofuel
  | S fuel' =>
      if negb (i <? n) then mret (if i =? n then n else -1) else
      let n1 := if write_max <? n - i then write_max else n - i in
      begin_op slp;;
      ilock slp ip;;
      v ← get_file f;
      r ← writei slp ip (drop (Z.to_nat i) addr) (f_off v) n1;
      (if 0 <? r then alter_file f (λ v, set_f_off (u32 (f_off v + r)) v) else mret tt);;
      iunlock ip;;
      end_op slp;;
      if r <? 0 then mret (if i =? n then n else -1) else
      if negb (r =? n1) then kpanic "short filewrite" else
      filewrite_loop fuel' f ip addr n (i + r)
  end.

Definition filewrite (f : nat) (addr : list Z) (n : Z) : M Z :=
  v ← get_file f;
  if f_writable v =? 0 then mret (-1) else
  match f_type v with
  | FD_PIPE => pipewrite pfuel (f_pipe v) addr n
  | FD_INODE => filewrite_loop (S (Z.to_nat (n / write_max + 1))) f (f_ip v) addr n 0
  | FD_NONE => kpanic "filewrite"
  end.

Definition COPY_BUF : Z := 50.

(** The loop of [filecopy]; nothing bounds it when [readi] fails. *)
Fixpoint filecopy_loop (fuel : nat) (src dest : nat) (offset : Z) : M unit :=
  match fuel with
  | O => knofuel
  | S fuel' =>
      r ← readi slp src offset COPY_BUF;
      let '(bytes_read, bytes) := r in
      if bytes_read =? 0 then mret tt else
      alter_inode dest (λ i, set_i_size (u32 (i_size i + bytes_read)) i);;
      writei slp dest (blit (replicate (Z.to_nat COPY_BUF) 0) 0 bytes) offset (u32 bytes_read);;
      iupdate slp dest;;
      filecopy_loop fuel' src dest (u32 (offset + bytes_read))
  end.

Definition filecopy (fuel : nat) (src dest : nat) : M Z :=
  begin_op slp;;
  ilock slp src;;
  ilock slp dest;;
  alter_inode dest (set_i_size 0);;
  filecopy_loop fuel src dest 0;;
  end_op slp;;
  iunlockput slp src;;
  iunlockput slp dest;;
  mret 0.

(** The error exit of [pipealloc]. *)
Definition pipealloc_bad (p : Z) (f0 f1 : option nat) : M (option (nat * nat)) :=
  (if p =? 0 then mret tt else e_kfree p);;
  (match f0 with Some f => fileclose f | None => mret tt end);;
  (match f1 with Some f => fileclose f | None => mret tt end);;
  mret None.

Definition new_pipe : pipe := Pipe (replicate (Z.to_nat PIPESIZE) 0) 0 0 1 1.

(** [pipealloc]: the two files, [None] for -1.  The old contents of the page stay
    in the pipe's buffer, where no reader can see them. *)
Definition pipealloc : M (option (nat * nat)) :=
  f0 ← filealloc;
  match f0 with
  | None => pipealloc_bad 0 None None
  | Some a =>
      f1 ← filealloc;
      match f1 with
      | None => pipealloc_bad 0 (Some a) None
      | Some b =>
          p ← e_kalloc;
          if p =? 0 then pipealloc_bad 0 (Some a) (Some b) else
          fmodify (λ x, set_fx_pipes (<[Z.to_nat p := new_pipe]> (fx_pipes x)) x);;
          initlock (L_pipe (Z.to_nat p));;
          alter_file a (set_f_type FD_PIPE);;
          alter_file a (set_f_readable 1);;
          alter_file a (set_f_writable 0);;
          alter_file a (set_f_pipe (Z.to_nat p));;
          alter_file b (set_f_type FD_PIPE);;
          alter_file b (set_f_readable 0);;
          alter_file b (set_f_writable 1);;
          alter_file b (set_f_pipe (Z.to_nat p));;
          mret (Some (a, b))
      end
  end.

End file_ops.
