(* ===== verification/Inode.v ===== *)
(** * The contents of files

    What [bmap], [readi], [writei] and [iupdate] of [fs.c] do to the bytes of a
    file, inside a transaction in the sense of [FsTx].  The blocks of a file are
    found through its inode and its indirect block; a block that is not there
    counts as zeros, which is what [bmap] makes it when it allocates it. *)

From S2P Require Import Prelude Spinlock CString State PrioLock Sched Proc Sleep Sleeplock Pipe FsState Bio Bytes Log Fs FsTx File.

(** ** Blocks of a file *)

Lemma MAXFILE_eq : MAXFILE = 140.
Proof. done. Qed.

(** The indirect block, and the block of the disk that holds block [bn] of the
    file; 0 when there is none. *)
Definition iblk (ino : inode) : Z := i_addrs ino !!! 12%nat.

Definition addr_of (D : Z → list Z) (ino : inode) (bn : Z) : Z :=
  if bn <? NDIRECT then i_addrs ino !!! Z.to_nat bn
  else if iblk ino =? 0 then 0 else rd 4 (D (iblk ino)) (Z.to_nat (4 * (bn - NDIRECT))).

Definition fblock (D : Z → list Z) (ino : inode) (bn : Z) : list Z :=
  if addr_of D ino bn =? 0 then zeros else D (addr_of D ino bn).

(** The byte at offset [k] of the file. *)
Definition byte_at (D : Z → list Z) (ino : inode) (k : Z) : Z :=
  fblock D ino (k / BSIZE) !!! Z.to_nat (k mod BSIZE).

Definition file_bytes (D : Z → list Z) (ino : inode) (off : Z) (n : nat) : list Z :=
  map (λ j, byte_at D ino (off + Z.of_nat j)) (seq 0 n).

Lemma rd_zeros k off : (off + k ≤ Z.to_nat BSIZE)%nat → rd k zeros off = 0.
Proof.
  revert off. induction k as [|k IH]; intros off Hk; [done|]. cbn [rd]. rewrite IH, Z.mul_0_r, Z.add_0_r by lia.
  rewrite (list_lookup_total_correct zeros off 0); [done|]. apply lookup_replicate. split; [done|lia].
Qed.

(** ** The inode on the disk *)

Lemma length_wr_words l d o : length (wr_words l d o) = length d.
Proof. revert d o. induction l as [|v l IH]; intros d o; cbn [wr_words]; [done|]. by rewrite IH, length_wr. Qed.

Lemma lookup_wr_words_ne l d o j : (j < o ∨ o + 4 * length l ≤ j)%nat → wr_words l d o !! j = d !! j.
Proof.
  revert d o. induction l as [|v l IH]; intros d o Hj; cbn [wr_words]; [done|]. simpl in Hj.
  rewrite IH by lia. apply lookup_wr_ne. lia.
Qed.

Lemma rd_wr_words l d o k v :
  (o + 4 * length l ≤ length d)%nat → l !! k = Some v → 0 ≤ v < 2 ^ 32 → rd 4 (wr_words l d o) (o + 4 * k) = v.
Proof.
  revert d o k. induction l as [|w l IH]; intros d o k Hlen Hk Hv; [done|]. simpl in Hlen. cbn [wr_words]. destruct k as [|k].
  - injection Hk as ->. rewrite (rd_ext 4 (wr 4 v d o)) by (intros j Hj; apply lookup_wr_words_ne; lia).
    rewrite Nat.add_0_r, rd_wr_eq by lia. by apply Z.mod_small.
  - replace (o + 4 * S k)%nat with (o + 4 + 4 * k)%nat by lia. apply IH; [rewrite length_wr; lia|done|done].
Qed.

Lemma rd_wr_words_ne l d o k off : (off + k ≤ o)%nat → rd k (wr_words l d o) off = rd k d off.
Proof. intros H. apply rd_ext. intros j Hj. apply lookup_wr_words_ne. lia. Qed.

(** The fields fit the types of [struct dinode]. *)
Definition short (v : Z) : Prop := - 2 ^ 15 ≤ v < 2 ^ 15.

Record dinode_ok (ino : inode) : Prop := DinodeOk {
  di_type : short (i_type ino);
  di_major : short (i_major ino);
  di_minor : short (i_minor ino);
  di_nlink : short (i_nlink ino);
  di_size : 0 ≤ i_size ino < 2 ^ 32;
  di_addrs : ∀ k, (k < 13)%nat → 0 ≤ i_addrs ino !!! k < 2 ^ 32;
  di_len : length (i_addrs ino) = 13%nat
}.

Lemma s16_mod v : short v → s16 (v mod 2 ^ 16) = v.
Proof.
  unfold short, s16, u16. intros Hv. rewrite Z.mod_mod by done. destruct (Z.ltb_spec v 0).
  - rewrite <- (Z_mod_plus_full v 1), Z.mod_small by lia. destruct (Z.ltb_spec (v + 1 * 2 ^ 16) (2 ^ 15)); lia.
  - rewrite Z.mod_small by lia. destruct (Z.ltb_spec v (2 ^ 15)); lia.
Qed.

Lemma length_write_dinode ino d o : length (write_dinode ino d o) = length d.
Proof. unfold write_dinode. by rewrite length_wr_words, !length_wr. Qed.

Lemma lookup_write_dinode_ne ino d o j :
  length (i_addrs ino) = 13%nat → (j < o ∨ o + 64 ≤ j)%nat → write_dinode ino d o !! j = d !! j.
Proof. intros Hl Hj. unfold write_dinode. rewrite lookup_wr_words_ne by lia. by rewrite !lookup_wr_ne by lia. Qed.

(** What [iupdate] writes is what [ilock] reads. *)
Lemma read_write_dinode ino d o :
  dinode_ok ino → (o + 64 ≤ length d)%nat → read_dinode (write_dinode ino d o) o ino = ino.
Proof.
  intros [H1 H2 H3 H4 H5 H6 H7] Hlen. unfold read_dinode, write_dinode.
  rewrite !(rd_wr_words_ne _ _ (o + 12)) by lia.
  repeat match goal with
  | |- context [rd ?k (wr ?k' ?v ?dd ?o1) ?o2] =>
      first [rewrite (rd_wr_ne k' k v dd o1 o2) by lia | rewrite (rd_wr_eq k v dd o1) by (rewrite ?length_wr; lia)]
  end.
  replace (map _ _) with (i_addrs ino).
  - change (2 ^ (8 * Z.of_nat 2)) with (2 ^ 16). change (2 ^ (8 * Z.of_nat 4)) with (2 ^ 32).
    rewrite !s16_mod, Z.mod_small by done. by destruct ino.
  - apply list_eq. intros k. rewrite list_lookup_fmap. destruct (decide (k < 13)%nat) as [Hk|Hk].
    + rewrite lookup_seq_lt by done. cbn [fmap option_fmap option_map]. rewrite Nat.add_0_l, (rd_wr_words _ _ _ k (i_addrs ino !!! k));
        [by apply list_lookup_lookup_total_lt; lia|rewrite !length_wr; lia|by apply list_lookup_lookup_total_lt; lia|by apply H6].
    + rewrite lookup_seq_ge by (change (Z.to_nat NDIRECT) with 12%nat; lia). apply lookup_ge_None. lia.
Qed.

Section inode.
Context {Xm : Type}.
Implicit Types (s : kstate (Xm * fsx)) (hs : list (nat * Z)) (blks : list Z) (D : Z → list Z) (ino : inode).

(** A block that may belong to a file: on the disk, outside the log, the bitmap
    and the inodes. *)
Record data_block s (b : Z) : Prop := DataBlock {
  db_range : 0 < b < sb_size (fx_sb (fx s));
  db_home : home_block s b;
  db_bitmap : ∀ b', 0 ≤ b' < sb_size (fx_sb (fx s)) → BBLOCK b' (fx_sb (fx s)) ≠ b;
  db_inode : ∀ n, 0 ≤ n < sb_ninodes (fx_sb (fx s)) → IBLOCK n (fx_sb (fx s)) ≠ b
}.

(** The allocator's part of the disk: what is free is a data block. *)
Record fs_ok s D : Prop := FsOk {
  fo_bitmap : bitmap_ok s [];
  fo_sb : sb_ok (fx_sb (fx s));
  fo_size : 0 ≤ sb_size (fx_sb (fx s)) ≤ 2 ^ 32;
  fo_free : ∀ b, 0 ≤ b < sb_size (fx_sb (fx s)) → bit D (fx_sb (fx s)) b = false → data_block s b;
  fo_len : ∀ b, 0 ≤ b < Z.of_nat (length (fx_disk (fx s))) → length (D b) = Z.to_nat BSIZE;
  fo_inodes : ∀ n, 0 ≤ n < sb_ninodes (fx_sb (fx s)) →
      home_block s (IBLOCK n (fx_sb (fx s))) ∧ ∀ b, 0 ≤ b < sb_size (fx_sb (fx s)) → BBLOCK b (fx_sb (fx s)) ≠ IBLOCK n (fx_sb (fx s))
}.

(** At least [n] blocks are free. *)
Definition avail s D (n : nat) : Prop :=
  ∃ l, NoDup l ∧ length l = n ∧ ∀ b, b ∈ l → 0 ≤ b < sb_size (fx_sb (fx s)) ∧ bit D (fx_sb (fx s)) b = false.

(** A file: its blocks are different data blocks, marked in the bitmap, and
    there are no holes below its size. *)
Record inode_ok s D ino : Prop := InodeOk {
  io_dev : i_dev ino = 1;
  io_len : length (i_addrs ino) = 13%nat;
  io_addr : ∀ bn, 0 ≤ bn < MAXFILE → addr_of D ino bn ≠ 0 →
      data_block s (addr_of D ino bn) ∧ bit D (fx_sb (fx s)) (addr_of D ino bn) = true ∧ addr_of D ino bn ≠ iblk ino;
  io_iblk : iblk ino ≠ 0 → data_block s (iblk ino) ∧ bit D (fx_sb (fx s)) (iblk ino) = true;
  io_inj : ∀ bn bn', 0 ≤ bn < MAXFILE → 0 ≤ bn' < MAXFILE → addr_of D ino bn = addr_of D ino bn' → addr_of D ino bn ≠ 0 → bn = bn';
  io_size : 0 ≤ i_size ino ≤ MAXFILE * BSIZE;
  io_holes : ∀ bn, 0 ≤ bn → bn * BSIZE < i_size ino → addr_of D ino bn ≠ 0
}.

(** A block in use that belongs neither to the file nor to the bitmap. *)
Record foreign s D ino (b : Z) : Prop := Foreign {
  fg_used : 0 ≤ b < sb_size (fx_sb (fx s)) → bit D (fx_sb (fx s)) b = true;
  fg_bitmap : ∀ b', 0 ≤ b' < sb_size (fx_sb (fx s)) → BBLOCK b' (fx_sb (fx s)) ≠ b;
  fg_iblk : iblk ino ≠ 0 → iblk ino ≠ b;
  fg_addr : ∀ bn, 0 ≤ bn < MAXFILE → addr_of D ino bn ≠ 0 → addr_of D ino bn ≠ b
}.

(** The file may have grown; nothing else changed. *)
Record evolves s D ino D' ino' : Prop := Evolves {
  ev_fs : fs_ok s D';
  ev_ok : inode_ok s D' ino';
  ev_foreign : ∀ b, foreign s D ino b → foreign s D' ino' b ∧ D' b = D b;
  ev_addr : ∀ bn, 0 ≤ bn < MAXFILE → addr_of D ino bn ≠ 0 → addr_of D' ino' bn = addr_of D ino bn;
  ev_iblk : iblk ino ≠ 0 → iblk ino' = iblk ino
}.

(** The bytes of the file are the same. *)
Definition same_bytes D ino D' ino' : Prop := ∀ bn, 0 ≤ bn < MAXFILE → fblock D' ino' bn = fblock D ino bn.

Lemma same_bytes_trans D1 i1 D2 i2 D3 i3 : same_bytes D1 i1 D2 i2 → same_bytes D2 i2 D3 i3 → same_bytes D1 i1 D3 i3.
Proof. intros H1 H2 bn Hbn. by rewrite H2, H1. Qed.

(** All of this depends only on the layout of the disk. *)
Definition layout s := (fx_sb (fx s), length (fx_disk (fx s)), lg_start (fx_log (fx s)), lg_size (fx_log (fx s))).

Lemma layout_frame s s' : frame s s' → layout s = layout s'.
Proof. intros F. unfold layout. by rewrite (fr_sb _ _ F), (fr_disk _ _ F), (fr_start _ _ F), (fr_size _ _ F). Qed.

Lemma layout_home s s' b : layout s = layout s' → home_block s b → home_block s' b.
Proof. intros [= _ E2 E3 E4]. unfold home_block, home. by rewrite E2, E3, E4. Qed.

Lemma layout_sb s s' : layout s = layout s' → fx_sb (fx s) = fx_sb (fx s').
Proof. by intros [= ?]. Qed.

Lemma data_block_layout s s' b : layout s = layout s' → data_block s b → data_block s' b.
Proof.
  intros L [H1 H2 H3 H4]. split; rewrite <- ?(layout_sb _ _ L); try done. by eapply layout_home.
Qed.

Lemma fs_ok_layout s s' D : layout s = layout s' → fs_ok s D → fs_ok s' D.
Proof.
  intros L [[B1 B2] H2 H3 H4 H5 H6]. split; rewrite <- ?(layout_sb _ _ L); try done.
  - split; rewrite <- ?(layout_sb _ _ L); [|done]. intros b Hb. eapply layout_home; [done|]. by apply B1.
  - intros b Hb Hf. eapply data_block_layout; [done|]. by apply H4.
  - by injection L as _ <- _ _.
  - intros n Hn. destruct (H6 n Hn). split; [by eapply layout_home|done].
Qed.

Lemma inode_ok_layout s s' D ino : layout s = layout s' → inode_ok s D ino → inode_ok s' D ino.
Proof.
  intros L [H1 H2 H3 H4 H5 H6 H7]. split; rewrite <- ?(layout_sb _ _ L); try done.
  - intros bn Hbn Ha. destruct (H3 bn Hbn Ha) as (Q1 & Q2 & Q3). split; [by eapply data_block_layout|done].
  - intros Ha. destruct (H4 Ha) as (Q1 & Q2). split; [by eapply data_block_layout|done].
Qed.

(** Changing a block that is neither of the bitmap nor the indirect block. *)
Lemma fs_ok_same s D D' :
  (∀ x, 0 ≤ x < sb_size (fx_sb (fx s)) → bit D' (fx_sb (fx s)) x = bit D (fx_sb (fx s)) x) →
  (∀ x, length (D' x) = length (D x) ∨ length (D' x) = Z.to_nat BSIZE) → fs_ok s D → fs_ok s D'.
Proof.
  intros Hbits Hlen [F1 F2 F3 F4 F5 F6]. split; try done; [intros x Hx; rewrite Hbits by done; by apply F4|].
  intros x Hx. destruct (Hlen x) as [->|]; [by apply F5|done].
Qed.

Lemma inode_ok_same s D D' ino :
  (∀ x, 0 ≤ x < sb_size (fx_sb (fx s)) → bit D' (fx_sb (fx s)) x = bit D (fx_sb (fx s)) x) →
  (∀ bn, addr_of D' ino bn = addr_of D ino bn) → inode_ok s D ino → inode_ok s D' ino.
Proof.
  intros Hbits Hmap [I1 I2 I3 I4 I5 I6 I7]. split; try done.
  - intros bn Hbn. rewrite Hmap. intros Ha. destruct (I3 bn Hbn Ha) as (R1 & R2 & R3). split; [done|]. split; [|done].
    rewrite Hbits by (pose proof (db_range _ _ R1); lia). done.
  - intros Hi. destruct (I4 Hi) as (R1 & R2). split; [done|]. rewrite Hbits by (pose proof (db_range _ _ R1); lia). done.
  - intros b1 b2. rewrite !Hmap. apply I5.
  - intros b1. rewrite Hmap. apply I7.
Qed.

Lemma upd_length D b d x : length d = Z.to_nat BSIZE → length (upd D b d x) = length (D x) ∨ length (upd D b d x) = Z.to_nat BSIZE.
Proof. intros Hd. unfold upd. case_match; [by right|by left]. Qed.

Lemma avail_layout s s' D n : layout s = layout s' → avail s D n → avail s' D n.
Proof. intros L. unfold avail. by rewrite (layout_sb _ _ L). Qed.

Lemma foreign_layout s s' D ino b : layout s = layout s' → foreign s D ino b → foreign s' D ino b.
Proof. intros L [H1 H2 H3 H4]. by split; rewrite <- ?(layout_sb _ _ L). Qed.

Lemma evolves_layout s s' D ino D' ino' : layout s = layout s' → evolves s D ino D' ino' → evolves s' D ino D' ino'.
Proof.
  intros L [H1 H2 H3 H4 H5]. split; [by eapply fs_ok_layout|by eapply inode_ok_layout| |done|done].
  intros b Hb. destruct (H3 b) as [Hb' E]; [by eapply foreign_layout|]. split; [by eapply foreign_layout|done].
Qed.

Lemma avail_le s D n m : avail s D n → (m ≤ n)%nat → avail s D m.
Proof.
  intros (l & Hnd & Hl & Hall) Hm. exists (take m l). split; [|split].
  - eapply sublist_NoDup; [exact Hnd|]. apply sublist_take.
  - rewrite length_take. lia.
  - intros b Hb%elem_of_take. destruct Hb as (j & Hj & _). eapply Hall, list_elem_of_lookup_2. exact Hj.
Qed.

Lemma avail_bits s D D' n :
  (∀ b, 0 ≤ b < sb_size (fx_sb (fx s)) → bit D' (fx_sb (fx s)) b = bit D (fx_sb (fx s)) b) → avail s D n → avail s D' n.
Proof. intros H (l & L1 & L2 & L3). exists l. split; [done|]. split; [done|]. intros x Hx. destruct (L3 x Hx). by rewrite H. Qed.

(** The first free block. *)
Lemma first_free s D n :
  fs_ok s D → avail s D (S n) →
  ∃ b, 0 ≤ b < sb_size (fx_sb (fx s)) ∧ bit D (fx_sb (fx s)) b = false ∧ ∀ b', 0 ≤ b' < b → bit D (fx_sb (fx s)) b' = true.
Proof.
  intros Hfs (l & _ & Hl & Hall). destruct l as [|b0 l]; [done|]. destruct (Hall b0 ltac:(by left)) as [Hr Hb0].
  set (sb := fx_sb (fx s)) in *. clear Hl Hall.
  assert (∀ m : nat, (∀ b', 0 ≤ b' < Z.of_nat m → bit D sb b' = true)
    ∨ ∃ b, 0 ≤ b < Z.of_nat m ∧ bit D sb b = false ∧ ∀ b', 0 ≤ b' < b → bit D sb b' = true) as H.
  { induction m as [|m [IH|IH]]; [left; lia| |right; destruct IH as (b & ? & ?); exists b; split; [lia|done]].
    destruct (bit D sb (Z.of_nat m)) eqn:E.
    - left. intros b' Hb'. destruct (decide (b' = Z.of_nat m)) as [->|]; [done|]. apply IH. lia.
    - right. exists (Z.of_nat m). split; [lia|done]. }
  destruct (H (Z.to_nat (b0 + 1))) as [H0|(b & Hb & Hf & Hm)].
  - rewrite H0 in Hb0 by lia. done.
  - exists b. split; [lia|done].
Qed.

Lemma avail_mark s D D' n b :
  (∀ b', 0 ≤ b' < sb_size (fx_sb (fx s)) → bit D' (fx_sb (fx s)) b' = if b' =? b then true else bit D (fx_sb (fx s)) b') →
  avail s D (S n) → avail s D' n.
Proof.
  intros Hbit (l & Hnd & Hl & Hall).
  assert (∃ l', NoDup l' ∧ length l' = n ∧ b ∉ l' ∧ ∀ x, x ∈ l' → x ∈ l) as (l' & Hnd' & Hl' & Hb & Hsub).
  { destruct (decide (b ∈ l)) as [Hin|Hni].
    - apply elem_of_Permutation in Hin as [l' E]. exists l'. rewrite E in Hnd. apply list.NoDup_cons in Hnd as [Hb Hnd].
      split; [done|]. split; [rewrite E in Hl; simpl in Hl; lia|]. split; [done|]. intros x Hx. rewrite E. by right.
    - destruct l as [|x l]; [done|]. apply list.NoDup_cons in Hnd as [Hx Hnd]. exists l. split; [done|].
      split; [simpl in Hl; lia|]. split; [set_solver|]. intros y Hy. by right. }
  exists l'. split; [done|]. split; [done|]. intros b' Hb'. destruct (Hall b' (Hsub b' Hb')) as [Hr Hf]. split; [done|].
  rewrite Hbit by done. rewrite (proj2 (Z.eqb_neq b' b)); [done|]. by intros ->.
Qed.


(** ** Allocating a block *)

Section alloc.
Context (slp : nat) (i : nat) (c : cpu) (cur : nat) (pr : proc).
Notation tx := (tx i c cur pr).

(** [b] was free and is now the caller's; nothing else changed. *)
Record allocated s D b D' : Prop := Allocated {
  al_block : data_block s b;
  al_free : bit D (fx_sb (fx s)) b = false;
  al_zero : D' b = zeros;
  al_bits : ∀ b', 0 ≤ b' < sb_size (fx_sb (fx s)) → bit D' (fx_sb (fx s)) b' = if b' =? b then true else bit D (fx_sb (fx s)) b';
  al_rest : ∀ b', b' ≠ b → (∀ x, 0 ≤ x < sb_size (fx_sb (fx s)) → BBLOCK x (fx_sb (fx s)) ≠ b') → D' b' = D b';
  al_ok : fs_ok s D'
}.

(** The caller's buffers hold blocks in use. *)
Definition holds_used s hs D : Prop := ∀ b, b ∈ hs.*2 → data_block s b ∧ bit D (fx_sb (fx s)) b = true.

Lemma alloc_ok s hs blks D n :
  tx s hs blks D → fs_ok s D → holds_used s hs D → avail s D (S n) → room s blks (Z.of_nat (length hs) + 2) →
  wp (balloc (S slp) 1) (λ b s', ∃ D', allocated s D b D' ∧ avail s D' n
    ∧ done i c cur pr s s' hs (add_block b (add_block (BBLOCK b (fx_sb (fx s))) blks)) D') s.
Proof.
  intros T Hfs Hhs Hav Hr. set (sb := fx_sb (fx s)). destruct (first_free s D n Hfs Hav) as (b & Hb & Hf & Hmin). fold sb in Hb, Hf, Hmin.
  pose proof Hfs as [Hbm Hsb Hsz Hfree Hlen Hinodes]. pose proof (Hfree b Hb Hf) as Hdb. pose proof Hdb as [Hr1 Hhome Hnb Hni].
  assert (bitmap_ok s hs) as Hbm'.
  { destruct Hbm as [B1 B2]. split; [done|]. intros x Hx Hin. destruct (Hhs _ Hin) as [[_ _ Hd _] _]. by apply (Hd x Hx). }
  assert (b ∉ hs.*2) as Hbh by (intros [_ Hu]%Hhs; fold sb in Hu; congruence).
  destruct (balloc_ok slp i c cur pr s hs blks D b T Hbm' Hb Hf Hmin Hhome Hbh Hr) as (r & s' & R & -> & Dn). fold sb in Dn.
  exists b, s'. split; [done|]. exists (upd (mark D sb b) b zeros).
  assert (∀ x, 0 ≤ x < sb_size sb → length (D (BBLOCK x sb)) = Z.to_nat BSIZE) as HlenB.
  { intros x Hx. apply Hlen, home_block_range. by apply Hbm. }
  assert (∀ b', 0 ≤ b' < sb_size sb → bit (upd (mark D sb b) b zeros) sb b' = if b' =? b then true else bit D sb b') as Hbits.
  { intros b' Hb'. rewrite <- (bit_mark D sb b b') by auto. rewrite !bit_testbit. rewrite upd_ne; [done|by apply Hnb]. }
  split; [|split; [by eapply avail_mark|done]]. split; try done.
  - by rewrite upd_eq.
  - intros b' H1 H2. rewrite upd_ne by done. unfold mark. rewrite upd_ne; [done|]. intros ->. by apply (H2 b).
  - split; try done.
    + intros b' Hb'. fold sb. rewrite Hbits by done. destruct (b' =? b); [done|]. by apply Hfree.
    + intros b' Hb'. unfold mark, upd. destruct (b' =? b); [apply length_replicate|].
      destruct (b' =? BBLOCK b sb); [rewrite length_insert; by apply HlenB|by apply Hlen].
Qed.

End alloc.

(** *** Adding a block to a file *)

Lemma evolves_refl s D ino : fs_ok s D → inode_ok s D ino → evolves s D ino D ino.
Proof. intros. by split. Qed.

Lemma evolves_trans s D1 i1 D2 i2 D3 i3 : evolves s D1 i1 D2 i2 → evolves s D2 i2 D3 i3 → evolves s D1 i1 D3 i3.
Proof.
  intros [F1 O1 G1 A1 B1] [F2 O2 G2 A2 B2]. split; [done|done| | |].
  - intros b Hb. destruct (G1 b Hb) as [Hb' E]. destruct (G2 b Hb') as [? E']. split; [done|congruence].
  - intros bn Hbn Ha. rewrite A2; [by apply A1|done|]. by rewrite A1.
  - intros Ha. rewrite B2; [by apply B1|]. by rewrite B1.
Qed.

(** The fresh block [b] becomes block [bn] of the file.  [D2] is the disk once the
    address has been stored: only the indirect block may differ from [D1]. *)
Section extend.
Context s D ino D1 D2 ino' (bn b : Z).
Hypothesis Hio : inode_ok s D ino.
Hypothesis Hal : allocated s D b D1.
Hypothesis Hbn : 0 ≤ bn < MAXFILE.
Hypothesis H0 : addr_of D ino bn = 0.
Hypothesis Hfs : fs_ok s D2.
Hypothesis HD : ∀ b', b' ≠ iblk ino ∨ iblk ino = 0 → D2 b' = D1 b'.
Hypothesis Hmap : ∀ bn', 0 ≤ bn' < MAXFILE → addr_of D2 ino' bn' = if bn' =? bn then b else addr_of D ino bn'.
Hypothesis Hib : iblk ino' = iblk ino.
Hypothesis Hdev : i_dev ino' = 1.
Hypothesis Hsize : i_size ino' = i_size ino.
Hypothesis Hlen : length (i_addrs ino') = 13%nat.

Lemma extend_range : 0 < b < sb_size (fx_sb (fx s)).
Proof. apply (al_block _ _ _ _ Hal). Qed.

Lemma extend_bits b' : 0 ≤ b' < sb_size (fx_sb (fx s)) → bit D2 (fx_sb (fx s)) b' = if b' =? b then true else bit D (fx_sb (fx s)) b'.
Proof.
  intros Hb'. rewrite <- (al_bits _ _ _ _ Hal) by done. rewrite !bit_testbit. rewrite HD; [done|].
  destruct (decide (iblk ino = 0)) as [|Hi]; [by right|left]. intros E.
  destruct (io_iblk _ _ _ Hio Hi) as [[_ _ Hd _] _]. by apply (Hd b' Hb').
Qed.

(** The file's blocks are not [b]. *)
Lemma extend_used x : data_block s x → bit D (fx_sb (fx s)) x = true → x ≠ b ∧ bit D2 (fx_sb (fx s)) x = true.
Proof.
  intros [Hx _ _ _] Hu. assert (x ≠ b) as Hne by (intros ->; pose proof (al_free _ _ _ _ Hal); congruence).
  split; [done|]. rewrite extend_bits by lia. by rewrite (proj2 (Z.eqb_neq _ _)).
Qed.

Lemma extend_iblk : iblk ino ≠ 0 → iblk ino ≠ b.
Proof. intros Hi. destruct (io_iblk _ _ _ Hio Hi) as [Q1 Q2]. by apply extend_used. Qed.

Lemma extend_rest b' : b' ≠ iblk ino ∨ iblk ino = 0 → b' ≠ b →
  (∀ x, 0 ≤ x < sb_size (fx_sb (fx s)) → BBLOCK x (fx_sb (fx s)) ≠ b') → D2 b' = D b'.
Proof. intros H1 H2 H3. rewrite HD by done. by apply (al_rest _ _ _ _ Hal). Qed.

Lemma extend_inode : inode_ok s D2 ino'.
Proof.
  pose proof Hio as [I1 I2 I3 I4 I5 I6 I7]. pose proof extend_range as Hb. split; rewrite ?Hib, ?Hsize; try done.
  - intros bn' Hbn'. rewrite Hmap by done. destruct (Z.eqb_spec bn' bn) as [->|Hn].
    + intros _. split; [apply Hal|]. split; [rewrite extend_bits by lia; by rewrite Z.eqb_refl|].
      destruct (decide (iblk ino = 0)) as [->|Hi]; [lia|]. by apply not_eq_sym, extend_iblk.
    + intros Ha. destruct (I3 bn' Hbn' Ha) as (Q1 & Q2 & Q3). split; [done|]. split; [by apply extend_used|done].
  - intros Ha. destruct (I4 Ha) as [Q1 Q2]. split; [done|by apply extend_used].
  - intros b1 b2 H1 H2. rewrite !Hmap by done. intros E En.
    destruct (Z.eqb_spec b1 bn) as [->|N1], (Z.eqb_spec b2 bn) as [->|N2]; try done; [exfalso|exfalso|by apply I5].
    + destruct (I3 b2 H2 ltac:(congruence)) as (Q1 & Q2 & _). by apply (extend_used _ Q1 Q2).
    + destruct (I3 b1 H1 En) as (Q1 & Q2 & _). by apply (extend_used _ Q1 Q2).
  - intros b1 H1 Hlt. assert (b1 < MAXFILE) by (rewrite MAXFILE_eq in *; unfold BSIZE in *; lia).
    rewrite Hmap by lia. case_match; [lia|by apply I7].
Qed.

Lemma extend_foreign x : foreign s D ino x → foreign s D2 ino' x ∧ D2 x = D x.
Proof.
  intros [X1 X2 X3 X4]. pose proof extend_range as Hb.
  assert (x ≠ b) as Hxb by (intros ->; pose proof (al_free _ _ _ _ Hal) as E; rewrite X1 in E; [done|lia]).
  split; [split|].
  - intros Hx. rewrite extend_bits by done. by rewrite (proj2 (Z.eqb_neq _ _)), X1 by done.
  - done.
  - by rewrite Hib.
  - intros bn' Hbn'. rewrite Hmap by done. case_match; [by intros _|by apply X4].
  - apply extend_rest; [|done|done]. destruct (decide (iblk ino = 0)) as [Ei|Ei]; [by right|left]. intros ->. by apply X3.
Qed.

Lemma extend_bytes : same_bytes D ino D2 ino'.
Proof.
  pose proof extend_range as Hb. intros bn' Hbn'. unfold fblock. rewrite Hmap by done. destruct (Z.eqb_spec bn' bn) as [->|Hn].
  - rewrite H0. cbn. rewrite (proj2 (Z.eqb_neq b 0)) by lia. rewrite HD; [apply Hal|].
    destruct (decide (iblk ino = 0)) as [Ei|Ei]; [by right|left]. by apply not_eq_sym, extend_iblk.
  - destruct (Z.eqb_spec (addr_of D ino bn') 0) as [|Ha]; [done|]. destruct (io_addr _ _ _ Hio bn' Hbn' Ha) as (Q1 & Q2 & Q3).
    apply extend_rest; [by left|by apply extend_used|apply Q1].
Qed.

Lemma extend_block : evolves s D ino D2 ino' ∧ same_bytes D ino D2 ino'.
Proof.
  split; [|apply extend_bytes]. split; [done|apply extend_inode|apply extend_foreign| |done].
  intros b1 H1 Ha. rewrite Hmap by done. destruct (Z.eqb_spec b1 bn) as [->|]; done.
Qed.

End extend.

(** The fresh block [b] becomes the indirect block. *)
Lemma extend_indirect s D ino D1 ino' b :
  inode_ok s D ino → allocated s D b D1 → iblk ino = 0 → iblk ino' = b →
  (∀ bn, 0 ≤ bn < NDIRECT → i_addrs ino' !!! Z.to_nat bn = i_addrs ino !!! Z.to_nat bn) →
  i_dev ino' = 1 → i_size ino' = i_size ino → length (i_addrs ino') = 13%nat →
  evolves s D ino D1 ino' ∧ same_bytes D ino D1 ino'.
Proof.
  intros Hio Hal H0 Hib Hdir Hdev Hsize Hlen. set (sb := fx_sb (fx s)).
  pose proof Hio as [I1 I2 I3 I4 I5 I6 I7]. pose proof Hal as [A1 A2 A3 A4 A5 A6]. fold sb in I3, I4, A2, A4, A5.
  assert (0 < b < sb_size sb) as Hb by apply A1.
  assert (∀ x, data_block s x → 0 ≤ x < sb_size sb) as Hdr by (intros x [Hx _ _ _]; fold sb in Hx; lia).
  assert (∀ bn, 0 ≤ bn < MAXFILE → addr_of D1 ino' bn = addr_of D ino bn) as Hmap.
  { intros bn Hbn. unfold addr_of. destruct (Z.ltb_spec bn NDIRECT); [apply Hdir; lia|].
    rewrite H0, Hib, A3, (proj2 (Z.eqb_neq b 0)) by lia. cbn [Z.eqb]. apply rd_zeros.
    rewrite MAXFILE_eq in *. unfold NDIRECT, BSIZE in *. lia. }
  assert (∀ bn, 0 ≤ bn < MAXFILE → addr_of D ino bn ≠ 0 → addr_of D ino bn ≠ b) as Hne.
  { intros bn Hbn Ha E. destruct (I3 bn Hbn Ha) as (_ & Q & _). rewrite E in Q. congruence. }
  split; [split; [done| | |intros b1 H1 _; by apply Hmap|done]|].
  - split; rewrite ?Hsize; try done.
    + intros bn Hbn. rewrite Hmap by done. intros Ha. destruct (I3 bn Hbn Ha) as (Q1 & Q2 & Q3). split; [done|].
      split; [|rewrite Hib; by apply Hne]. fold sb. rewrite A4 by by apply Hdr. by rewrite (proj2 (Z.eqb_neq _ _)) by by apply Hne.
    + rewrite Hib. intros _. split; [done|]. fold sb. rewrite A4 by lia. by rewrite Z.eqb_refl.
    + intros b1 b2 H1 H2. rewrite !Hmap by done. by apply I5.
    + intros b1 H1 Hlt. assert (b1 < MAXFILE) by (rewrite MAXFILE_eq in *; unfold BSIZE in *; lia).
      rewrite Hmap by lia. by apply I7.
  - intros x [X1 X2 X3 X4]. fold sb in X1, X2. assert (x ≠ b) as Hxb by (intros ->; rewrite X1 in A2; [done|lia]).
    split; [split; fold sb|by apply A5].
    + intros Hx. rewrite A4 by done. by rewrite (proj2 (Z.eqb_neq _ _)), X1 by done.
    + done.
    + by rewrite Hib.
    + intros bn Hbn. rewrite Hmap by done. by apply X4.
  - intros bn Hbn. unfold fblock. rewrite Hmap by done. destruct (Z.eqb_spec (addr_of D ino bn) 0) as [|Ha]; [done|].
    destruct (I3 bn Hbn Ha) as (Q1 & _). apply A5; [by apply Hne|apply Q1].
Qed.

(** *** Writing into a block of the file *)

(** The bytes [l] are at offset [off] of the file; the others are as they were. *)
Definition written D ino D' ino' (off : Z) (l : list Z) : Prop :=
  ∀ k, 0 ≤ k < MAXFILE * BSIZE →
    byte_at D' ino' k = if (off <=? k) && (k <? off + Z.of_nat (length l)) then l !!! Z.to_nat (k - off) else byte_at D ino k.

Lemma block_of k : 0 ≤ k < MAXFILE * BSIZE → 0 ≤ k / BSIZE < MAXFILE ∧ 0 ≤ k mod BSIZE < BSIZE ∧ k = BSIZE * (k / BSIZE) + k mod BSIZE.
Proof.
  intros Hk. pose proof (Z.div_mod k BSIZE ltac:(done)). pose proof (Z.mod_pos_bound k BSIZE ltac:(done)).
  split; [|done]. split; [apply Z.div_pos; [lia|done]|apply Z.div_lt_upper_bound; [done|lia]].
Qed.

Lemma written_same D ino D' ino' off : same_bytes D ino D' ino' → written D ino D' ino' off [].
Proof.
  intros H k Hk. rewrite (proj2 (andb_false_iff _ _)) by (simpl; destruct (Z.leb_spec off k); [right; apply Z.ltb_ge; lia|by left]).
  unfold byte_at. by rewrite H by by apply block_of.
Qed.

Lemma written_app D1 i1 D2 i2 D3 i3 off l l' :
  written D1 i1 D2 i2 off l → written D2 i2 D3 i3 (off + Z.of_nat (length l)) l' → written D1 i1 D3 i3 off (l ++ l').
Proof.
  intros H1 H2 k Hk. rewrite H2, H1 by done. rewrite length_app.
  destruct (Z.leb_spec (off + Z.of_nat (length l)) k), (Z.ltb_spec k (off + Z.of_nat (length l) + Z.of_nat (length l'))),
    (Z.leb_spec off k), (Z.ltb_spec k (off + Z.of_nat (length l))), (Z.ltb_spec k (off + Z.of_nat (length l + length l')));
    cbn [andb]; try lia; try done.
  - rewrite lookup_total_app_r by lia. f_equal. lia.
  - by rewrite lookup_total_app_l by lia.
Qed.

(** Reading the written bytes. *)
Lemma file_bytes_written D ino D' ino' off l :
  written D ino D' ino' off l → 0 ≤ off → off + Z.of_nat (length l) ≤ MAXFILE * BSIZE → file_bytes D' ino' off (length l) = l.
Proof.
  intros H H0 H1. apply list_eq. intros j. unfold file_bytes. rewrite list_lookup_fmap.
  destruct (decide (j < length l)%nat) as [Hj|Hj].
  - rewrite lookup_seq_lt by done. simpl. rewrite H by lia.
    rewrite (proj2 (Z.leb_le _ _)), (proj2 (Z.ltb_lt _ _)) by lia. simpl. symmetry.
    replace (Z.to_nat _) with j by lia. by apply list_lookup_lookup_total_lt.
  - rewrite lookup_seq_ge by lia. simpl. symmetry. apply lookup_ge_None. lia.
Qed.

Lemma store_block s D ino bn d :
  fs_ok s D → inode_ok s D ino → 0 ≤ bn < MAXFILE → addr_of D ino bn ≠ 0 → length d = Z.to_nat BSIZE →
  let D' := upd D (addr_of D ino bn) d in
  evolves s D ino D' ino ∧ (∀ bn', 0 ≤ bn' < MAXFILE → fblock D' ino bn' = if bn' =? bn then d else fblock D ino bn')
  ∧ ∀ x, 0 ≤ x < sb_size (fx_sb (fx s)) → bit D' (fx_sb (fx s)) x = bit D (fx_sb (fx s)) x.
Proof.
  intros Hfs Hio Hbn Ha Hd D'. destruct (io_addr _ _ _ Hio bn Hbn Ha) as (Q1 & Q2 & Q3).
  assert (∀ bn', addr_of D' ino bn' = addr_of D ino bn') as Hmap.
  { intros bn'. unfold D', addr_of at 1. rewrite upd_ne by done. done. }
  assert (∀ x, 0 ≤ x < sb_size (fx_sb (fx s)) → bit D' (fx_sb (fx s)) x = bit D (fx_sb (fx s)) x) as Hbits.
  { intros x Hx. rewrite !bit_testbit. unfold D'. rewrite upd_ne; [done|]. by apply Q1. }
  split; [|split; [|done]].
  - split; [eapply fs_ok_same; [done| |done]; intros x; by apply upd_length|by eapply inode_ok_same| |intros bn' _ _; apply Hmap|done].
    intros b [X1 X2 X3 X4]. split; [|unfold D'; rewrite upd_ne; [done|]; intros ->; by apply (X4 bn)].
    split; try done; [intros Hx; by rewrite Hbits, X1|]. intros bn'. rewrite Hmap. apply X4.
  - intros bn' Hbn'. unfold fblock. rewrite Hmap. destruct (Z.eqb_spec bn' bn) as [->|Hne].
    + rewrite (proj2 (Z.eqb_neq _ _)) by done. apply upd_eq.
    + destruct (Z.eqb_spec (addr_of D ino bn') 0); [done|]. unfold D'. rewrite upd_ne; [done|]. intros E. by apply Hne, (io_inj _ _ _ Hio).
Qed.

(** A chunk inside a block. *)
Lemma written_chunk D ino D' off chunk :
  0 ≤ off < MAXFILE * BSIZE → off mod BSIZE + Z.of_nat (length chunk) ≤ BSIZE → length (fblock D ino (off / BSIZE)) = Z.to_nat BSIZE →
  (∀ bn', 0 ≤ bn' < MAXFILE → fblock D' ino bn' =
     if bn' =? off / BSIZE then blit (fblock D ino (off / BSIZE)) (Z.to_nat (off mod BSIZE)) chunk else fblock D ino bn') →
  written D ino D' ino off chunk.
Proof.
  intros Hoff Hm Hlen H k Hk. destruct (block_of k Hk) as (K1 & K2 & K3). destruct (block_of off Hoff) as (O1 & O2 & O3).
  unfold byte_at. rewrite H by done. destruct (Z.eqb_spec (k / BSIZE) (off / BSIZE)) as [E|E].
  - rewrite E in K3 |- *. rewrite (list_lookup_total_alt (blit _ _ _)), lookup_blit by lia.
    destruct (decide _) as [Hd|Hd].
    + rewrite (proj2 (Z.leb_le _ _)), (proj2 (Z.ltb_lt _ _)) by lia. simpl. rewrite list_lookup_total_alt. do 2 f_equal. lia.
    + rewrite (proj2 (andb_false_iff _ _)); [by rewrite list_lookup_total_alt|].
      destruct (Z.leb_spec off k); [right|by left]. apply Z.ltb_ge. lia.
  - rewrite (proj2 (andb_false_iff _ _)); [done|]. unfold BSIZE in *. destruct (Z.leb_spec off k); [right|by left]. apply Z.ltb_ge.
    assert (off / 512 < k / 512 ∨ k / 512 < off / 512) by lia. lia.
Qed.

(** ** [bmap] *)

Section bmap.
Context (slp : nat) (i : nat) (c : cpu) (cur : nat) (pr : proc).
Notation tx := (tx i c cur pr).

Definition put_inode (ip : nat) (ino : inode) s : kstate (Xm * fsx) :=
  set_fx (set_fx_inodes (<[ip := ino]> (fx_inodes (fx s))) (fx s)) s.

Lemma tx_put_inode s hs blks D ip ino : tx s hs blks D → tx (put_inode ip ino s) hs blks D ∧ frame s (put_inode ip ino s).
Proof.
  intros [C W G O H Nd F V Dy Cl B]. split.
  - split; try done; [by eapply becomes_calm; [apply becomes_intro|]|].
    destruct W as [W1 W2 W3 W4 W5]. split; [done|done| |done|done]. intros n bf Hn Hbf. destruct (W3 n bf Hn Hbf). by split.
  - split; try done. apply becomes_intro.
Qed.

Lemma alter_inode_ok s ip ino f : fx_inodes (fx s) !! ip = Some ino → alter_inode ip f s = Ok tt (put_inode ip (f ino) s).
Proof. intros H. unfold alter_inode, fmodify, kmodify, put_inode. by rewrite (list_alter_as_insert _ _ _ ino H). Qed.

Lemma set_addr_ok s ip ino k v :
  fx_inodes (fx s) !! ip = Some ino →
  set_addr ip k v s = Ok tt (put_inode ip (set_i_addrs (<[Z.to_nat k := v]> (i_addrs ino)) ino) s).
Proof. intros H. unfold set_addr. by rewrite (alter_inode_ok s ip ino). Qed.

Lemma get_addr_ok s ip ino k :
  fx_inodes (fx s) !! ip = Some ino → (Z.to_nat k < length (i_addrs ino))%nat →
  get_addr ip k s = Ok (i_addrs ino !!! Z.to_nat k) s.
Proof.
  intros H Hk. unfold get_addr. rewrite (bind_get_inode ip ino) by done.
  destruct (lookup_lt_is_Some_2 _ _ Hk) as [a Ha]. by rewrite list_lookup_total_alt, Ha.
Qed.

(** A block of the bitmap; the blocks of the file that hold its blocks [bns], and
    its indirect block. *)
Definition of_bitmap s b : Prop := ∃ x, 0 ≤ x < sb_size (fx_sb (fx s)) ∧ b = BBLOCK x (fx_sb (fx s)).

Definition of_file D ino (bns : list Z) b : Prop :=
  b ≠ 0 ∧ (b = iblk ino ∨ ∃ bn, bn ∈ bns ∧ 0 ≤ bn < MAXFILE ∧ b = addr_of D ino bn).

Lemma of_file_evolves s D ino D' ino' bns bns' b :
  evolves s D ino D' ino' → bns ⊆ bns' → of_file D ino bns b → of_file D' ino' bns' b.
Proof.
  intros Hev Hsub [H0 [->|(bn & Hin & Hbn & ->)]]; split; try done.
  - left. symmetry. by apply (ev_iblk _ _ _ _ _ Hev).
  - right. exists bn. split; [by apply Hsub|]. split; [done|]. symmetry. by apply (ev_addr _ _ _ _ _ Hev).
Qed.

(** What [bmap] leaves: the bytes of the file are what they were, and it logged
    only blocks of the bitmap and of the file. *)
Record grown s blks D ip ino s' hs blks' D' ino' (n : nat) (bns : list Z) : Prop := Grown {
  gr_frame : frame s s';
  gr_inodes : fx_inodes (fx s') = <[ip := ino']> (fx_inodes (fx s));
  gr_tx : tx s' hs blks' D';
  gr_evolves : evolves s D ino D' ino';
  gr_meta : ∃ addrs, ino' = set_i_addrs addrs ino;
  gr_avail : avail s D' n;
  gr_logged : ∀ b, b ∈ blks' → b ∈ blks ∨ of_bitmap s b ∨ of_file D' ino' bns b
}.

Lemma grown_refl s hs blks D ip ino n :
  tx s hs blks D → fs_ok s D → inode_ok s D ino → fx_inodes (fx s) !! ip = Some ino → avail s D n →
  grown s blks D ip ino s hs blks D ino n [].
Proof.
  intros. split; [apply frame_refl|by rewrite list_insert_id|done|by apply evolves_refl| |done|auto].
  exists (i_addrs ino). by destruct ino.
Qed.

Lemma grown_more s blks D ip ino s' hs blks' D' ino' n bns bns' :
  bns ⊆ bns' → grown s blks D ip ino s' hs blks' D' ino' n bns → grown s blks D ip ino s' hs blks' D' ino' n bns'.
Proof.
  intros Hsub [G1 G2 G3 G4 G6 G7 G8]. split; try done. intros b [H|[H|H]]%G8; [auto|auto|].
  right. right. eapply of_file_evolves; [apply evolves_refl; apply G4|done|done].
Qed.

Lemma grown_trans s1 blks1 D1 ip ino1 s2 hs blks2 D2 ino2 s3 hs' blks3 D3 ino3 n m bns bns' :
  grown s1 blks1 D1 ip ino1 s2 hs blks2 D2 ino2 n bns → grown s2 blks2 D2 ip ino2 s3 hs' blks3 D3 ino3 m bns' →
  grown s1 blks1 D1 ip ino1 s3 hs' blks3 D3 ino3 m (bns ++ bns').
Proof.
  intros [F1 E1 T1 V1 [a1 M1] A1 L1] [F2 E2 T2 V2 [a2 M2] A2 L2].
  pose proof (eq_sym (layout_frame _ _ F1)) as L. pose proof (evolves_layout _ _ _ _ _ _ L V2) as V2'.
  split; [by eapply frame_trans| |done|by eapply evolves_trans| |by eapply avail_layout|].
  - by rewrite E2, E1, list_insert_insert_eq.
  - exists a2. by rewrite M2, M1.
  - intros b [[H|[H|H]]%L1|[H|H]]%L2; [auto|auto| | |].
    + right. right. eapply of_file_evolves; [exact V2'| |exact H]. set_solver.
    + right. left. unfold of_bitmap. by rewrite <- (layout_sb _ _ L).
    + right. right. eapply of_file_evolves; [apply evolves_refl; apply V2'| |exact H]. set_solver.
Qed.

Lemma grown_done s blks D ip ino s' hs blks' D' ino' n bns s'' hs' :
  grown s blks D ip ino s' hs blks' D' ino' n bns → done i c cur pr s' s'' hs' blks' D' →
  grown s blks D ip ino s'' hs' blks' D' ino' n bns.
Proof.
  intros [G1 G2 G3 G4 G6 G7 G8] (F & E & T). split; try done; [by eapply frame_trans|congruence].
Qed.

Lemma grown_le s blks D ip ino s' hs blks' D' ino' n m bns :
  (m ≤ n)%nat → grown s blks D ip ino s' hs blks' D' ino' n bns → grown s blks D ip ino s' hs blks' D' ino' m bns.
Proof. intros Hm [G1 G2 G3 G4 G6 G7 G8]. split; try done. by eapply avail_le. Qed.

(** The blocks [balloc] logs. *)
Lemma alloc_logged s D D' ino' bns blks b b' :
  allocated s D b D' → b ≠ 0 → of_file D' ino' bns b →
  b' ∈ add_block b (add_block (BBLOCK b (fx_sb (fx s))) blks) → b' ∈ blks ∨ of_bitmap s b' ∨ of_file D' ino' bns b'.
Proof.
  intros Hal Hb Hof. rewrite !elem_of_add_block. intros [->|[->|]]; auto. right. left. exists b. split; [|done].
  pose proof (db_range _ _ (al_block _ _ _ _ Hal)). lia.
Qed.

(** The words of the indirect block. *)
Lemma rd_word_put v d (j j' : nat) :
  0 ≤ v < 2 ^ 32 → (4 * j + 4 ≤ length d)%nat →
  rd 4 (wr 4 v d (4 * j)) (4 * j') = if decide (j' = j) then v else rd 4 d (4 * j').
Proof.
  intros Hv Hj. destruct (decide (j' = j)) as [->|Hne].
  - rewrite rd_wr_eq by done. by apply Z.mod_small.
  - apply rd_wr_ne. lia.
Qed.

(** A direct block that is missing is allocated. *)
Lemma bmap_direct s blks D ip ino bn n :
  tx s [] blks D → fs_ok s D → inode_ok s D ino → fx_inodes (fx s) !! ip = Some ino →
  0 ≤ bn < NDIRECT → avail s D (S n) → room s blks 2 →
  wp (bmap (S slp) ip bn) (λ a s', ∃ blks' D' ino', grown s blks D ip ino s' [] blks' D' ino' n [bn]
    ∧ same_bytes D ino D' ino' ∧ a = addr_of D' ino' bn ∧ a ≠ 0 ∧ (length blks' ≤ length blks + 2)%nat) s.
Proof.
  intros T Hfs Hio Hino Hbn Hav Hr. pose proof Hio as [I1 I2 I3 I4 I5 I6 I7]. assert (NDIRECT = 12) as EN by done.
  assert (addr_of D ino bn = i_addrs ino !!! Z.to_nat bn) as Ea by (unfold addr_of; by rewrite (proj2 (Z.ltb_lt _ _)) by lia).
  unfold bmap. eapply wp_same; [by apply (bind_get_inode ip ino)|]. rewrite (proj2 (Z.ltb_lt bn NDIRECT)) by lia.
  eapply wp_run; [apply (get_addr_ok _ _ ino); [done|lia]|]. rewrite <- Ea.
  destruct (Z.eqb_spec (addr_of D ino bn) 0) as [E0|Hne].
  - rewrite I1. eapply wp_step; [apply (alloc_ok slp i c cur pr s [] blks D n T Hfs); [|done|done]|].
    { intros b Hb. by apply elem_of_nil in Hb. }
    intros b s1 (D1 & Hal & Hav1 & (F1 & E1 & T1)). rewrite <- E1 in Hino.
    eapply wp_run; [by apply set_addr_ok|]. apply wp_ret. set (ino' := set_i_addrs _ ino).
    destruct (tx_put_inode s1 [] _ D1 ip ino' T1) as [T2 F2].
    assert (i_addrs ino' = <[Z.to_nat bn := b]> (i_addrs ino)) as Ead by done.
    assert (iblk ino' = iblk ino) as Eib by (unfold iblk; rewrite Ead, list_lookup_total_insert_ne by lia; done).
    assert (∀ bn', 0 ≤ bn' < MAXFILE → addr_of D1 ino' bn' = if bn' =? bn then b else addr_of D ino bn') as Hmap.
    { intros bn' Hbn'. unfold addr_of. rewrite Eib, Ead. destruct (Z.ltb_spec bn' NDIRECT).
      - destruct (Z.eqb_spec bn' bn) as [->|]; [by rewrite list_lookup_total_insert_eq by lia|].
        by rewrite list_lookup_total_insert_ne by lia.
      - rewrite (proj2 (Z.eqb_neq bn' bn)) by lia. destruct (Z.eqb_spec (iblk ino) 0) as [|Hi]; [done|].
        destruct (I4 Hi) as [Q1 Q2]. rewrite (al_rest _ _ _ _ Hal); [done| |apply Q1].
        intros E. rewrite E in Q2. pose proof (al_free _ _ _ _ Hal). congruence. }
    assert (length (i_addrs ino') = 13%nat) as Hlen' by (by rewrite Ead, length_insert).
    destruct (extend_block s D ino D1 D1 ino' bn b Hio Hal) as [Hev Hsb]; [rewrite MAXFILE_eq; lia|done|apply Hal|done|done|done|done|done|done|].
    pose proof (db_range _ _ (al_block _ _ _ _ Hal)) as Hb0.
    eexists _, D1, ino'. split; [|split; [done|split; [|split]]].
    + split; [by eapply frame_trans| |exact T2|done|by eexists|done|].
      * unfold put_inode. rewrite fx_set. cbn. by rewrite E1.
      * intros b'. apply (alloc_logged s D); [done|lia|]. split; [lia|]. right. exists bn. split; [by left|].
        assert (0 ≤ bn < MAXFILE) by (rewrite MAXFILE_eq; lia). split; [done|]. rewrite Hmap by done. by rewrite Z.eqb_refl.
    + rewrite Hmap by (rewrite MAXFILE_eq; lia). by rewrite Z.eqb_refl.
    + lia.
    + rewrite !length_add_block. repeat case_bool_decide; lia.
  - apply wp_ret. exists blks, D, ino. split; [|split; [done|split; [done|split; [done|lia]]]]. eapply grown_le; [|eapply grown_more; [|by apply grown_refl]]; [lia|set_solver].
Qed.

(** The blocks the allocation of the indirect block may log. *)
Definition iblk_cost ino : nat := if iblk ino =? 0 then 2 else 0.

Lemma iblk_cost_le ino : (iblk_cost ino ≤ 2)%nat.
Proof. unfold iblk_cost. case_match; lia. Qed.

(** The indirect block, allocated when it is missing. *)
Lemma bmap_iblk s blks D ip ino n :
  tx s [] blks D → fs_ok s D → inode_ok s D ino → fx_inodes (fx s) !! ip = Some ino →
  avail s D (S n) → room s blks (Z.of_nat (iblk_cost ino)) →
  wp (if iblk ino =? 0 then addr ← balloc (S slp) (i_dev ino); set_addr ip NDIRECT addr;; mret addr else mret (iblk ino))
     (λ a s', ∃ blks' D' ino', grown s blks D ip ino s' [] blks' D' ino' n []
       ∧ same_bytes D ino D' ino' ∧ a = iblk ino' ∧ a ≠ 0 ∧ (length blks' ≤ length blks + iblk_cost ino)%nat) s.
Proof.
  intros T Hfs Hio Hino Hav Hr. pose proof Hio as [I1 I2 _ _ _ _ _]. unfold iblk_cost in *. destruct (Z.eqb_spec (iblk ino) 0) as [E0|Hne].
  - rewrite I1. eapply wp_step; [apply (alloc_ok slp i c cur pr s [] blks D n T Hfs); [|done|done]|].
    { intros b Hb. by apply elem_of_nil in Hb. }
    intros b s1 (D1 & Hal & Hav1 & (F1 & E1 & T1)). rewrite <- E1 in Hino.
    eapply wp_run; [by apply set_addr_ok|]. apply wp_ret. set (ino' := set_i_addrs _ ino).
    destruct (tx_put_inode s1 [] _ D1 ip ino' T1) as [T2 F2].
    assert (i_addrs ino' = <[12%nat := b]> (i_addrs ino)) as Ead by done.
    assert (iblk ino' = b) as Eib by (unfold iblk; by rewrite Ead, list_lookup_total_insert_eq by lia).
    assert (length (i_addrs ino') = 13%nat) as Hlen' by (by rewrite Ead, length_insert).
    destruct (extend_indirect s D ino D1 ino' b Hio Hal E0 Eib) as [Hev Hsb]; [|done|done|done|].
    { intros bn Hbn. unfold NDIRECT in Hbn. by rewrite Ead, list_lookup_total_insert_ne by lia. }
    pose proof (db_range _ _ (al_block _ _ _ _ Hal)) as Hb0.
    eexists _, D1, ino'. split; [|split; [done|split; [|split]]].
    + split; [by eapply frame_trans| |exact T2|done|by eexists|done|].
      * unfold put_inode. rewrite fx_set. cbn. by rewrite E1.
      * intros b'. apply (alloc_logged s D); [done|lia|]. split; [lia|by left].
    + done.
    + lia.
    + rewrite !length_add_block. repeat case_bool_decide; lia.
  - apply wp_ret. exists blks, D, ino. split; [|split; [done|split; [done|split; [done|lia]]]]. eapply grown_le; [|eapply grown_more; [|by apply grown_refl]]; [lia|set_solver].
Qed.

(** The address of the indirect block's entry [j]. *)
Definition entry_of D ino (j : Z) : Z := rd 4 (D (iblk ino)) (Z.to_nat (4 * j)).

Lemma addr_of_entry D ino bn : NDIRECT ≤ bn → iblk ino ≠ 0 → addr_of D ino bn = entry_of D ino (bn - NDIRECT).
Proof. intros H1 H2. unfold addr_of, entry_of. by rewrite (proj2 (Z.ltb_ge _ _)), (proj2 (Z.eqb_neq _ _)) by lia. Qed.

(** Storing a fresh block's number in the indirect block. *)
Lemma store_entry s D ino D1 b bn :
  fs_ok s D → inode_ok s D ino → allocated s D b D1 → iblk ino ≠ 0 → NDIRECT ≤ bn < MAXFILE → addr_of D ino bn = 0 →
  let D2 := upd D1 (iblk ino) (wr 4 b (D1 (iblk ino)) (Z.to_nat (4 * (bn - NDIRECT)))) in
  evolves s D ino D2 ino ∧ same_bytes D ino D2 ino ∧ addr_of D2 ino bn = b
  ∧ ∀ x, 0 ≤ x < sb_size (fx_sb (fx s)) → bit D2 (fx_sb (fx s)) x = bit D1 (fx_sb (fx s)) x.
Proof.
  intros Hfs Hio Hal Hib Hbn H0 D2. rewrite MAXFILE_eq in Hbn. assert (NDIRECT = 12) as EN by done.
  pose proof Hio as [I1 I2 I3 I4 I5 I6 I7]. destruct (I4 Hib) as [Q1 Q2]. pose proof Hal as [A1 A2 A3 A4 A5 A6].
  assert (iblk ino ≠ b) as Hnb by congruence. assert (D1 (iblk ino) = D (iblk ino)) as ED by (apply A5; [done|apply Q1]).
  assert (length (D (iblk ino)) = 512%nat) as Hlen by (apply (fo_len _ _ Hfs), home_block_range, Q1).
  assert (0 ≤ b < 2 ^ 32) as Hb32 by (pose proof (db_range _ _ A1); pose proof (fo_size _ _ Hfs); lia).
  assert (∀ bn', 0 ≤ bn' < MAXFILE → addr_of D2 ino bn' = if bn' =? bn then b else addr_of D ino bn') as Hmap.
  { intros bn' Hbn'. rewrite MAXFILE_eq in Hbn'. destruct (Z.ltb_spec bn' NDIRECT) as [Hd|Hd].
    - rewrite (proj2 (Z.eqb_neq bn' bn)) by lia. unfold addr_of. by rewrite (proj2 (Z.ltb_lt _ _)).
    - rewrite !addr_of_entry by done. unfold entry_of, D2. rewrite upd_eq, ED.
      replace (Z.to_nat (4 * (bn' - NDIRECT))) with (4 * Z.to_nat (bn' - NDIRECT))%nat by lia.
      replace (Z.to_nat (4 * (bn - NDIRECT))) with (4 * Z.to_nat (bn - NDIRECT))%nat by lia.
      rewrite rd_word_put by lia. destruct (decide _), (Z.eqb_spec bn' bn); lia || done. }
  assert (∀ x, 0 ≤ x < sb_size (fx_sb (fx s)) → bit D2 (fx_sb (fx s)) x = bit D1 (fx_sb (fx s)) x) as Hbits.
  { intros x Hx. rewrite !bit_testbit. unfold D2. rewrite upd_ne; [done|]. by apply Q1. }
  assert (fs_ok s D2) as Hfs2.
  { destruct A6 as [F1 F2 F3 F4 F5 F6]. split; try done.
    - intros x Hx. rewrite Hbits by done. by apply F4.
    - intros x Hx. unfold D2, upd. destruct (Z.eqb_spec x (iblk ino)) as [->|]; [by rewrite length_wr, F5|by apply F5]. }
  assert (∀ b', b' ≠ iblk ino ∨ iblk ino = 0 → D2 b' = D1 b') as HD by (intros b' [|]; [by apply upd_ne|done]).
  assert (0 ≤ bn < MAXFILE) as Hbn0 by (rewrite MAXFILE_eq; lia).
  destruct (extend_block s D ino D1 D2 ino bn b Hio Hal Hbn0 H0 Hfs2 HD Hmap eq_refl I1 eq_refl I2) as [Hev Hsb].
  split; [done|]. split; [done|]. split; [|done]. rewrite Hmap by done. by rewrite Z.eqb_refl.
Qed.

(** An entry of the indirect block, filled when it is missing. *)
Lemma fill_entry s blks D ip ino bn n bp :
  let o := Z.to_nat (4 * (bn - NDIRECT)) in
  tx s [(bp, iblk ino)] blks D → fs_ok s D → inode_ok s D ino → fx_inodes (fx s) !! ip = Some ino →
  NDIRECT ≤ bn < MAXFILE → iblk ino ≠ 0 → addr_of D ino bn = 0 → avail s D (S n) → room s blks 3 →
  wp (addr ← balloc (S slp) 1; d ← get_data bp; set_data bp (wr 4 addr d o);; log_write bp;; mret addr)
     (λ a s', ∃ blks' D', grown s blks D ip ino s' [(bp, iblk ino)] blks' D' ino n [bn]
       ∧ same_bytes D ino D' ino ∧ a = addr_of D' ino bn ∧ a ≠ 0 ∧ (length blks' ≤ length blks + 3)%nat) s.
Proof.
  intros o T Hfs Hio Hino Hbn Hib E0 Hav Hr. destruct (io_iblk _ _ _ Hio Hib) as [Q1 Q2].
  eapply wp_step; [apply (alloc_ok slp i c cur pr s [(bp, iblk ino)] blks D n T Hfs); [|done|done]|].
  { intros b Hb%list_elem_of_singleton. by subst b. }
  intros b s2 (D1 & Hal & Hav1 & (F2 & E2 & T2)). pose proof (db_range _ _ (al_block _ _ _ _ Hal)) as Hb0.
  destruct (store_entry s D ino D1 b bn Hfs Hio Hal Hib Hbn E0) as (Hev & Hsb & Ha & Hbits). fold o in Hev, Hsb, Ha, Hbits.
  eapply wp_same; [apply (tx_get_data i c cur pr _ _ _ _ _ _ _ T2 ltac:(by left))|].
  destruct (held_data i c cur pr s2 _ _ _ bp (iblk ino) T2 ltac:(by left)) as (_ & _ & _ & _ & Hlen).
  eapply (tx_write i c cur pr); [exact T2|by left|by rewrite length_wr|by eapply home_block_frame, Q1| |].
  { eapply room_frame; [exact F2|]. apply room_add, room_add. done. }
  intros s3 F3 E3 T3. apply wp_ret. eexists _, _. split; [|split; [exact Hsb|split; [|split]]]; [|by symmetry|lia|].
  - split; [by eapply frame_trans|by rewrite E3, E2, list_insert_id|exact T3|done|by exists (i_addrs ino); destruct ino| |].
    + by eapply avail_bits.
    + intros x. rewrite !elem_of_add_block. intros [->|[->|[->|Hx]]]; [| | |by left].
      * right. right. split; [done|by left].
      * right. right. split; [lia|]. right. exists bn. split; [by left|]. unfold NDIRECT in Hbn. split; [lia|done].
      * right. left. exists b. split; [lia|done].
  - rewrite !length_add_block. repeat case_bool_decide; lia.
Qed.

Lemma bmap_entry s blks D ip ino bn n :
  let o := Z.to_nat (4 * (bn - NDIRECT)) in
  tx s [] blks D → fs_ok s D → inode_ok s D ino → fx_inodes (fx s) !! ip = Some ino →
  NDIRECT ≤ bn < MAXFILE → iblk ino ≠ 0 → avail s D (S n) → room s blks 3 →
  wp (bp ← bread (S slp) 1 (iblk ino); d ← get_data bp;
      addr ← (if rd 4 d o =? 0 then addr ← balloc (S slp) 1; d ← get_data bp; set_data bp (wr 4 addr d o);; log_write bp;; mret addr
              else mret (rd 4 d o));
      brelse bp;; mret addr)
     (λ a s', ∃ blks' D', grown s blks D ip ino s' [] blks' D' ino n [bn]
       ∧ same_bytes D ino D' ino ∧ a = addr_of D' ino bn ∧ a ≠ 0 ∧ (length blks' ≤ length blks + 3)%nat) s.
Proof.
  intros o T Hfs Hio Hino Hbn Hib Hav Hr. destruct (io_iblk _ _ _ Hio Hib) as [Q1 Q2].
  eapply wp_step; [apply (tx_bread slp i c cur pr s [] blks D _ T)|].
  { apply home_block_range, Q1. } { apply not_elem_of_nil. } { eapply (room_bufs s blks 3); [exact Hr|simpl; lia]. }
  intros bp s1 (F1 & E1 & T1). eapply wp_same; [apply (tx_get_data i c cur pr _ _ _ _ _ _ _ T1 ltac:(by left))|].
  assert (grown s blks D ip ino s1 [(bp, iblk ino)] blks D ino (S n) []) as G1.
  { eapply grown_done; [by apply (grown_refl s [])|done]. }
  pose proof (layout_frame _ _ F1) as L1. pose proof (addr_of_entry D ino bn ltac:(lia) Hib) as Ea. unfold entry_of in Ea. fold o in Ea. rewrite <- Ea.
  eapply (wp_step _ _ (λ a s', ∃ blks' D', grown s blks D ip ino s' [(bp, iblk ino)] blks' D' ino n [bn]
    ∧ same_bytes D ino D' ino ∧ a = addr_of D' ino bn ∧ a ≠ 0 ∧ (length blks' ≤ length blks + 3)%nat)).
  - destruct (Z.eqb_spec (addr_of D ino bn) 0) as [E0|Hne].
    + eapply wp_mono; [eapply (fill_entry s1 blks D ip ino bn n bp); try done|].
      { by eapply fs_ok_layout. } { by eapply inode_ok_layout. } { by rewrite E1. } { by eapply avail_layout. } { by eapply room_frame. }
      intros a s2 (blks' & D' & G2 & H). exists blks', D'. split; [|done]. by apply (grown_trans _ _ _ _ _ _ _ _ _ _ _ _ _ _ _ _ _ _ _ G1 G2).
    + apply wp_ret. exists blks, D. split; [|split; [done|split; [done|split; [done|lia]]]]. eapply grown_le; [|eapply grown_more; [|exact G1]]; [lia|set_solver].
  - intros a s2 (blks' & D' & G2 & H). eapply wp_step; [eapply tx_brelse, G2|]. intros [] s3 Dn. apply wp_ret.
    exists blks', D'. split; [|done]. by eapply grown_done.
Qed.

(** [bmap] maps every block of a file. *)
Lemma bmap_ok s blks D ip ino bn n :
  tx s [] blks D → fs_ok s D → inode_ok s D ino → fx_inodes (fx s) !! ip = Some ino →
  0 ≤ bn < MAXFILE → avail s D (S (S n)) → room s blks (Z.of_nat (3 + iblk_cost ino)) →
  wp (bmap (S slp) ip bn) (λ a s', ∃ blks' D' ino', grown s blks D ip ino s' [] blks' D' ino' n [bn]
    ∧ same_bytes D ino D' ino' ∧ a = addr_of D' ino' bn ∧ a ≠ 0 ∧ (length blks' ≤ length blks + 3 + iblk_cost ino)%nat) s.
Proof.
  intros T Hfs Hio Hino Hbn Hav Hr. destruct (Z.ltb_spec bn NDIRECT) as [Hd|Hd].
  - eapply wp_mono; [eapply (bmap_direct s blks D ip ino bn (S n)); try done; [lia|eapply room_le; [exact Hr|lia]]|].
    intros a s' (blks' & D' & ino' & G & Hsb & H1 & H2 & H3). exists blks', D', ino'. split; [by eapply grown_le; [|exact G]; lia|].
    split; [done|]. split; [done|]. split; [done|lia].
  - unfold bmap. eapply wp_same; [by apply (bind_get_inode ip ino)|]. rewrite (proj2 (Z.ltb_ge bn NDIRECT)) by lia. cbv zeta.
    rewrite (proj2 (Z.ltb_lt (bn - NDIRECT) NINDIRECT)) by (rewrite MAXFILE_eq in Hbn; unfold NDIRECT; change NINDIRECT with 128; lia).
    rewrite (io_dev _ _ _ Hio). eapply wp_run; [apply (get_addr_ok _ _ ino); [done|rewrite (io_len _ _ _ Hio); vm_compute; lia]|].
    change (i_addrs ino !!! Z.to_nat NDIRECT) with (iblk ino). rewrite <- (io_dev _ _ _ Hio) at 1.
    eapply wp_step; [eapply (bmap_iblk s blks D ip ino (S n)); try done; eapply room_le; [exact Hr|lia]|].
    intros a s1 (blks1 & D1 & ino1 & G1 & Hsb1 & -> & Hi & Hl). pose proof G1 as [G1f G1i G1t [G1fs G1o _ _ _] _ G1a _].
    pose proof (layout_frame _ _ G1f) as L.
    eapply wp_mono; [eapply (bmap_entry s1 blks1 D1 ip ino1 bn n); try done|].
    { by eapply fs_ok_layout. } { by eapply inode_ok_layout. }
    { rewrite G1i. apply list_lookup_insert_eq. by eapply lookup_lt_Some. }
    { lia. } { by eapply avail_layout. } { eapply room_frame; [done|]. destruct Hr. unfold room. split; lia. }
    intros a s2 (blks2 & D2 & G2 & Hsb2 & H2 & H3 & H4). exists blks2, D2, ino1.
    split; [by apply (grown_trans _ _ _ _ _ _ _ _ _ _ _ _ _ _ _ _ _ _ _ G1 G2)|].
    split; [by eapply same_bytes_trans|]. split; [done|]. split; [done|lia].
Qed.

(** It changes nothing when the block is there. *)
Lemma bmap_mapped s blks D ip ino bn :
  tx s [] blks D → inode_ok s D ino → fx_inodes (fx s) !! ip = Some ino →
  0 ≤ bn < MAXFILE → addr_of D ino bn ≠ 0 → (length blks < NBUF)%nat →
  wp (bmap (S slp) ip bn) (λ a s', a = addr_of D ino bn ∧ done i c cur pr s s' [] blks D) s.
Proof.
  intros T Hio Hino Hbn Ha Hr. pose proof (io_len _ _ _ Hio) as Hlen. unfold bmap. eapply wp_same; [by apply (bind_get_inode ip ino)|].
  destruct (Z.ltb_spec bn NDIRECT) as [Hd|Hd].
  - eapply wp_run; [apply (get_addr_ok _ _ ino); [done|unfold NDIRECT in Hd; lia]|].
    assert (addr_of D ino bn = i_addrs ino !!! Z.to_nat bn) as <- by (unfold addr_of; by rewrite (proj2 (Z.ltb_lt _ _)) by lia).
    rewrite (proj2 (Z.eqb_neq _ _)) by done. apply wp_ret. split; [done|]. split; [apply frame_refl|done].
  - cbv zeta. rewrite (proj2 (Z.ltb_lt (bn - NDIRECT) NINDIRECT)) by (rewrite MAXFILE_eq in Hbn; unfold NDIRECT; change NINDIRECT with 128; lia).
    rewrite (io_dev _ _ _ Hio). eapply wp_run; [apply (get_addr_ok _ _ ino); [done|rewrite Hlen; vm_compute; lia]|].
    change (i_addrs ino !!! Z.to_nat NDIRECT) with (iblk ino).
    assert (iblk ino ≠ 0) as Hib.
    { intros E. apply Ha. unfold addr_of. rewrite (proj2 (Z.ltb_ge _ _)) by lia. by rewrite E. }
    rewrite (proj2 (Z.eqb_neq _ _)) by done. eapply wp_run; [done|]. destruct (io_iblk _ _ _ Hio Hib) as [Q1 _].
    eapply wp_step; [apply (tx_bread slp i c cur pr s [] blks D _ T)|].
    { apply home_block_range, Q1. } { apply not_elem_of_nil. } { simpl. lia. }
    intros bp s1 (F1 & E1 & T1). eapply wp_same; [apply (tx_get_data i c cur pr _ _ _ _ _ _ _ T1 ltac:(by left))|].
    rewrite addr_of_entry in Ha |- * by done. unfold entry_of in Ha |- *. rewrite (proj2 (Z.eqb_neq _ _)) by done.
    eapply wp_run; [done|]. eapply wp_step; [by eapply tx_brelse|]. intros [] s2 Dn. apply wp_ret. split; [done|].
    by eapply done_trans.
Qed.

(** Both cases. *)
Lemma bmap_step s blks D ip ino bn n :
  tx s [] blks D → fs_ok s D → inode_ok s D ino → fx_inodes (fx s) !! ip = Some ino →
  0 ≤ bn < MAXFILE → avail s D (S (S n)) → room s blks (Z.of_nat (3 + iblk_cost ino)) →
  wp (bmap (S slp) ip bn) (λ a s', ∃ blks' D' ino', grown s blks D ip ino s' [] blks' D' ino' n [bn]
    ∧ same_bytes D ino D' ino' ∧ a = addr_of D' ino' bn ∧ a ≠ 0 ∧ (length blks' ≤ length blks + 3 + iblk_cost ino)%nat
    ∧ (addr_of D ino bn ≠ 0 → ino' = ino)) s.
Proof.
  intros T Hfs Hio Hino Hbn Hav Hr. destruct (decide (addr_of D ino bn = 0)) as [E|E].
  - eapply wp_mono; [by apply (bmap_ok s blks D ip ino bn n)|]. intros a s' (blks' & D' & ino' & H1 & H2 & H3 & H4 & H5).
    exists blks', D', ino'. tauto.
  - eapply wp_mono; [apply (bmap_mapped s blks D ip ino bn); try done|].
    { pose proof (room_bufs s blks _ [] Hr). simpl in *. lia. }
    intros a s' (-> & Dn). exists blks, D, ino. split; [|split; [done|split; [done|split; [done|split; [lia|done]]]]].
    eapply grown_le; [|eapply grown_more; [|eapply grown_done; [by apply (grown_refl s [])|exact Dn]]]; [lia|set_solver].
Qed.

End bmap.

(** ** How much is logged *)

Lemma logged_length s base D ino bns blks :
  0 < sb_size (fx_sb (fx s)) ≤ BPB → NoDup blks →
  (∀ b, b ∈ blks → b ∈ base ∨ of_bitmap s b ∨ of_file D ino bns b) →
  (length blks + iblk_cost ino ≤ length base + length bns + 3 ∧ length blks ≤ length base + length bns + 2)%nat.
Proof.
  intros Hone Hnd H. set (own := if iblk ino =? 0 then [] else [iblk ino]).
  set (all := base ++ map (addr_of D ino) bns ++ BBLOCK 0 (fx_sb (fx s)) :: own).
  assert (blks ⊆+ all) as Hsub.
  { apply NoDup_submseteq; [done|]. intros b Hb. unfold all. rewrite !elem_of_app. destruct (H b Hb) as [|[(x & Hx & ->)|[H0 [->|(bn & Hin & _ & ->)]]]].
    - by left.
    - right. right. unfold BBLOCK. rewrite (Z.div_small x), (Z.div_small 0) by lia. by left.
    - right. right. right. unfold own. rewrite (proj2 (Z.eqb_neq _ _)) by done. by left.
    - right. left. by apply (list_elem_of_fmap_2 (addr_of D ino)). }
  apply submseteq_length in Hsub. unfold all in Hsub. rewrite !length_app, length_map in Hsub. simpl in Hsub. unfold own, iblk_cost in *.
  destruct (iblk ino =? 0); simpl in *; lia.
Qed.

(** The blocks of a range of the file. *)
Definition blocks_of (off r : Z) : list Z :=
  if r =? 0 then [] else seqZ (off / BSIZE) ((off + r - 1) / BSIZE - off / BSIZE + 1).

Lemma blocks_of_step off r :
  0 ≤ off → 0 < r → let m := Z.min r (BSIZE - off mod BSIZE) in
  0 < m ≤ r ∧ off mod BSIZE + m ≤ BSIZE ∧ blocks_of off r = (off / BSIZE) :: blocks_of (off + m) (r - m).
Proof.
  intros H0 Hr m. pose proof (Z.div_mod off BSIZE ltac:(done)) as E. pose proof (Z.mod_pos_bound off BSIZE ltac:(done)) as Hm.
  pose proof (Z.div_le_mono off (off + r - 1) BSIZE ltac:(done) ltac:(lia)) as Hle. unfold blocks_of.
  split; [lia|]. split; [lia|]. rewrite (proj2 (Z.eqb_neq r 0)), seqZ_cons by lia. f_equal.
  destruct (Z.eqb_spec (r - m) 0) as [Em|Em].
  - apply seqZ_nil. enough ((off + r - 1) / BSIZE = off / BSIZE) by lia. symmetry. apply (Z.div_unique_pos _ _ _ (off mod BSIZE + r - 1)); lia.
  - assert ((off + m) / BSIZE = off / BSIZE + 1) as ->.
    { symmetry. apply (Z.div_unique_pos _ _ _ 0); [by unfold BSIZE|lia]. }
    replace (off + m + (r - m) - 1) with (off + r - 1) by lia. f_equal; lia.
Qed.

Lemma elem_of_blocks_of off r bn : 0 ≤ r → bn ∈ blocks_of off r ↔ off / BSIZE ≤ bn ∧ bn * BSIZE < off + r ∧ 0 < r.
Proof.
  intros Hr. unfold blocks_of. destruct (Z.eqb_spec r 0) as [->|Hne].
  - rewrite elem_of_nil. split; [done|lia].
  - rewrite elem_of_seqZ. pose proof (Z.div_mod (off + r - 1) BSIZE ltac:(done)). pose proof (Z.mod_pos_bound (off + r - 1) BSIZE ltac:(done)).
    unfold BSIZE in *. split; intros; lia.
Qed.

Lemma blocks_of_range off r bn : 0 ≤ off → 0 ≤ r → off + r ≤ MAXFILE * BSIZE → bn ∈ blocks_of off r → 0 ≤ bn < MAXFILE.
Proof.
  intros H0 Hr Hm Hbn. apply elem_of_blocks_of in Hbn as (H1 & H2 & _); [|done]. pose proof (Z.div_pos off BSIZE H0 ltac:(done)).
  split; [lia|]. unfold BSIZE in *. lia.
Qed.

Lemma blocks_of_fuel off n : 0 ≤ off → 0 ≤ n → (length (blocks_of off n) < blocks_fuel n)%nat.
Proof.
  intros H0 Hn. unfold blocks_of, blocks_fuel. pose proof (Z.div_pos n BSIZE Hn ltac:(done)) as Hp.
  destruct (Z.eqb_spec n 0) as [->|]; [simpl; lia|]. rewrite length_seqZ.
  enough ((off + n - 1) / BSIZE ≤ off / BSIZE + n / BSIZE + 1) by lia.
  pose proof (Z.div_mod off BSIZE ltac:(done)). pose proof (Z.mod_pos_bound off BSIZE ltac:(done)).
  pose proof (Z.div_mod n BSIZE ltac:(done)). pose proof (Z.mod_pos_bound n BSIZE ltac:(done)).
  assert ((off + n - 1) / BSIZE < off / BSIZE + n / BSIZE + 2); [|lia]. apply Z.div_lt_upper_bound; [done|lia].
Qed.

Lemma file_bytes_app D ino off a b :
  file_bytes D ino off (a + b) = file_bytes D ino off a ++ file_bytes D ino (off + Z.of_nat a) b.
Proof.
  unfold file_bytes. rewrite seq_app, map_app. f_equal. rewrite <- (Nat.add_0_r (0 + a)), <- fmap_add_seq.
  unfold fmap. rewrite map_map. apply map_ext. intros j. f_equal. lia.
Qed.

Lemma file_bytes_chunk D ino off m :
  0 ≤ off → off mod BSIZE + Z.of_nat m ≤ BSIZE → length (fblock D ino (off / BSIZE)) = Z.to_nat BSIZE →
  file_bytes D ino off m = sub_range (fblock D ino (off / BSIZE)) (Z.to_nat (off mod BSIZE)) m.
Proof.
  intros H0 Hm Hlen. pose proof (Z.mod_pos_bound off BSIZE ltac:(done)) as Hp.
  apply list_eq. intros j. unfold file_bytes, sub_range. rewrite list_lookup_fmap. destruct (decide (j < m)%nat) as [Hj|Hj].
  - rewrite lookup_seq_lt, lookup_take_lt, lookup_drop by done. simpl. unfold byte_at.
    pose proof (Z.div_mod off BSIZE ltac:(done)) as E.
    rewrite <- (Z.div_unique_pos (off + Z.of_nat j) BSIZE (off / BSIZE) (off mod BSIZE + Z.of_nat j)) by lia.
    rewrite <- (Z.mod_unique_pos (off + Z.of_nat j) BSIZE (off / BSIZE) (off mod BSIZE + Z.of_nat j)) by lia.
    rewrite <- list_lookup_lookup_total_lt by lia. f_equal. lia.
  - rewrite lookup_seq_ge, lookup_take_ge by lia. done.
Qed.

Section rw.
Context (slp : nat) (i : nat) (c : cpu) (cur : nat) (pr : proc).
Notation tx := (tx i c cur pr).
Notation grown := (grown i c cur pr).

(** The blocks of a file are on the disk. *)
Lemma mapped_block s blks D ino bn :
  tx s [] blks D → fs_ok s D → inode_ok s D ino → 0 ≤ bn < MAXFILE → addr_of D ino bn ≠ 0 →
  fblock D ino bn = D (addr_of D ino bn) ∧ length (fblock D ino bn) = Z.to_nat BSIZE
  ∧ home_block s (addr_of D ino bn) ∧ 0 ≤ addr_of D ino bn < Z.of_nat (length (fx_disk (fx s))).
Proof.
  intros T Hfs Hio Hbn Ha. destruct (io_addr _ _ _ Hio bn Hbn Ha) as (Q1 & _). pose proof (home_block_range _ _ (db_home _ _ Q1)) as Hr.
  assert (fblock D ino bn = D (addr_of D ino bn)) as -> by (unfold fblock; by rewrite (proj2 (Z.eqb_neq _ _))).
  split; [done|]. split; [by apply (fo_len _ _ Hfs)|]. split; [apply Q1|done].
Qed.

(** ** [readi] *)

Lemma readi_loop_ok ip ino blks D n fuel : ∀ s off tot,
  tx s [] blks D → fs_ok s D → inode_ok s D ino → fx_inodes (fx s) !! ip = Some ino →
  0 ≤ tot ≤ n → n < 2 ^ 32 → 0 ≤ off → off + (n - tot) ≤ i_size ino →
  (length (blocks_of off (n - tot)) < fuel)%nat → (length blks < NBUF)%nat →
  wp (readi_loop (S slp) fuel ip off n tot) (λ r s', r = file_bytes D ino off (Z.to_nat (n - tot)) ∧ done i c cur pr s s' [] blks D) s.
Proof.
  induction fuel as [|fuel IH]; intros s off tot T Hfs Hio Hino Htot Hn Hoff Hsz Hf Hb; [lia|]. cbn [readi_loop].
  pose proof (io_size _ _ _ Hio) as Hmax. destruct (Z.ltb_spec tot n) as [Hlt|Hge]; cbn [negb].
  - eapply wp_same; [by apply (bind_get_inode ip ino)|]. set (m := Z.min (n - tot) (BSIZE - off mod BSIZE)).
    destruct (blocks_of_step off (n - tot) Hoff ltac:(lia)) as (Hm & Hmb & Ebl). fold m in Hm, Hmb, Ebl.
    rewrite Ebl in Hf. simpl in Hf. destruct (block_of off ltac:(lia)) as (O1 & O2 & O3).
    assert (addr_of D ino (off / BSIZE) ≠ 0) as Ha by (apply (io_holes _ _ _ Hio); lia).
    destruct (mapped_block s blks D ino _ T Hfs Hio O1 Ha) as (Efb & Hlen & _ & Hrg).
    eapply wp_step; [by apply (bmap_mapped slp i c cur pr s blks D ip ino)|]. intros a s1 (-> & F1 & E1 & T1).
    rewrite (io_dev _ _ _ Hio). eapply wp_step; [apply (tx_bread slp i c cur pr s1 [] blks D _ T1)|].
    { by rewrite (fr_disk _ _ F1). } { apply not_elem_of_nil. } { simpl. lia. }
    intros bp s2 (F2 & E2 & T2). eapply wp_same; [apply (tx_get_data i c cur pr _ _ _ _ _ _ _ T2 ltac:(by left))|].
    eapply wp_step; [by eapply tx_brelse|]. intros [] s3 (F3 & E3 & T3).
    rewrite (u32_small (n - tot)) by lia. fold m. rewrite !u32_small by (rewrite MAXFILE_eq in Hmax; unfold BSIZE in *; lia).
    assert (frame s s3) as F by (eapply frame_trans; [exact F1|]; by eapply frame_trans). pose proof (layout_frame _ _ F) as L.
    eapply wp_step; [apply (IH s3 (off + m) (tot + m)); try done; try lia|].
    { by eapply fs_ok_layout. } { by eapply inode_ok_layout. } { congruence. }
    { by replace (n - (tot + m)) with (n - tot - m) by lia; lia. }
    intros rest s4 (-> & F4 & E4 & T4). apply wp_ret. split; [|split; [by eapply frame_trans|split; [congruence|done]]].
    rewrite <- Efb, <- file_bytes_chunk by lia. replace (Z.to_nat (n - tot)) with (Z.to_nat m + Z.to_nat (n - (tot + m)))%nat by lia.
    rewrite file_bytes_app. do 2 f_equal. lia.
  - apply wp_ret. replace (n - tot) with 0 by lia. split; [done|]. split; [apply frame_refl|done].
Qed.

Lemma readi_ok `{DevOps Xm} s blks D ip ino off n :
  tx s [] blks D → fs_ok s D → inode_ok s D ino → fx_inodes (fx s) !! ip = Some ino → i_type ino ≠ T_DEV →
  0 ≤ off ≤ i_size ino → 0 ≤ n → off + n < 2 ^ 32 → (length blks < NBUF)%nat →
  let m := Z.min n (i_size ino - off) in
  wp (readi (S slp) ip off n) (λ r s', r = (m, file_bytes D ino off (Z.to_nat m)) ∧ done i c cur pr s s' [] blks D) s.
Proof.
  intros T Hfs Hio Hino Hty Hoff Hn Hsum Hb m. pose proof (io_size _ _ _ Hio) as Hmax. rewrite MAXFILE_eq in Hmax. unfold BSIZE in Hmax.
  unfold readi. eapply wp_same; [by apply (bind_get_inode ip ino)|]. rewrite (proj2 (Z.eqb_neq _ _)) by done.
  rewrite !(u32_small (off + n)), (u32_small (i_size ino - off)) by lia. rewrite !(proj2 (Z.ltb_ge _ off)) by lia. cbn [orb].
  assert ((if i_size ino <? off + n then i_size ino - off else n) = m) as -> by (destruct (Z.ltb_spec (i_size ino) (off + n)); lia).
  cbv zeta. eapply wp_step; [apply (readi_loop_ok ip ino blks D m _ s off 0); try done; try lia|].
  { rewrite Z.sub_0_r. apply blocks_of_fuel; lia. }
  intros dst s' (-> & Dn). apply wp_ret. rewrite s32_small by lia. by rewrite Z.sub_0_r.
Qed.

(** ** [writei] *)

(** Blocks [bns] of the file are there. *)
Definition mapped D ino (bns : list Z) : Prop := ∀ bn, bn ∈ bns → addr_of D ino bn ≠ 0.

Lemma logged_step (base : list Z) s blks D ip ino s' hs blks' D' ino' n bns bns' :
  (∀ b, b ∈ blks → b ∈ base ∨ of_bitmap s b ∨ of_file D ino bns b) → grown s blks D ip ino s' hs blks' D' ino' n bns' →
  ∀ b, b ∈ blks' → b ∈ base ∨ of_bitmap s' b ∨ of_file D' ino' (bns ++ bns') b.
Proof.
  intros H G b Hb. pose proof G as [F _ _ Hev _ _ Hlog]. unfold of_bitmap. rewrite <- (layout_sb _ _ (layout_frame _ _ F)).
  destruct (Hlog b Hb) as [[|[|Ho]]%H|[|Ho]]; auto; right; right.
  - eapply of_file_evolves; [exact Hev| |exact Ho]. set_solver.
  - eapply of_file_evolves; [apply evolves_refl; apply Hev| |exact Ho]. set_solver.
Qed.

(** One block of the loop: [bmap], then the chunk. *)
Lemma write_chunk {B} (k : K (kstate (Xm * fsx)) B) Q s blks D ip ino off src tot m n :
  let chunk := sub_range src (Z.to_nat tot) (Z.to_nat m) in
  tx s [] blks D → fs_ok s D → inode_ok s D ino → fx_inodes (fx s) !! ip = Some ino →
  0 ≤ off < MAXFILE * BSIZE → off mod BSIZE + m ≤ BSIZE → 0 ≤ tot → 0 ≤ m → tot + m ≤ Z.of_nat (length src) →
  avail s D (S (S n)) → room s blks (Z.of_nat (4 + iblk_cost ino)) →
  (∀ s' blks' D' ino', grown s blks D ip ino s' [] blks' D' ino' n [off / BSIZE] →
     written D ino D' ino' off chunk → addr_of D' ino' (off / BSIZE) ≠ 0 → (addr_of D ino (off / BSIZE) ≠ 0 → ino' = ino) → wp k Q s') →
  wp (blk ← bmap (S slp) ip (off / BSIZE); bp ← bread (S slp) 1 blk; d ← get_data bp;
      if Z.of_nat (length src) <? tot + m then kundef "src" else
      set_data bp (blit d (Z.to_nat (off mod BSIZE)) chunk);; log_write bp;; brelse bp;; k) Q s.
Proof.
  intros chunk T Hfs Hio Hino Hoff Hch Ht Hm Hsrc Hav Hr Hk. assert (length chunk = Z.to_nat m) as Hcl by (apply length_sub_range; lia). destruct (block_of off Hoff) as (O1 & O2 & O3).
  eapply wp_step; [apply (bmap_step slp i c cur pr s blks D ip ino _ n); try done; eapply room_le; [exact Hr|lia]|].
  intros a s1 (blks1 & D1 & ino1 & G1 & Hsb & -> & Ha & Hl1 & Hsame).
  pose proof G1 as [F1 E1 T1 [Hfs1 Hio1 _ _ _] M1 Hav1 _]. pose proof (layout_frame _ _ F1) as L1.
  assert (tx s1 [] blks1 D1 ∧ fs_ok s1 D1 ∧ inode_ok s1 D1 ino1) as (_ & Hfs1' & Hio1').
  { split; [done|]. split; [by eapply fs_ok_layout|by eapply inode_ok_layout]. }
  destruct (mapped_block s1 blks1 D1 ino1 _ T1 Hfs1' Hio1' O1 Ha) as (Efb & Hlen & Hh & Hrg).
  eapply wp_step; [apply (tx_bread slp i c cur pr s1 [] blks1 D1 _ T1 Hrg); [apply not_elem_of_nil|]|].
  { pose proof (room_bufs s blks _ [] Hr). destruct Hr. simpl in *. change NBUF with 30%nat. change LOGSIZE with 30 in *. lia. }
  intros bp s2 (F2 & E2 & T2). eapply wp_same; [apply (tx_get_data i c cur pr _ _ _ _ _ _ _ T2 ltac:(by left))|].
  set (d := blit (D1 (addr_of D1 ino1 (off / BSIZE))) (Z.to_nat (off mod BSIZE)) chunk).
  assert (length d = Z.to_nat BSIZE) as Hd by (unfold d; rewrite length_blit; rewrite <- Efb; lia).
  destruct (store_block s D1 ino1 _ d Hfs1 Hio1 O1 Ha Hd) as (Hev & Hfb & Hbits).
  rewrite (proj2 (Z.ltb_ge _ _)) by lia. eapply (tx_write i c cur pr); [exact T2|by left|done|by eapply home_block_frame| |].
  { eapply room_frame; [exact F2|]. eapply room_frame; [exact F1|]. destruct Hr. unfold room. lia. }
  intros s3 F3 E3 T3. eapply wp_step; [by eapply tx_brelse|]. intros [] s4 (F4 & E4 & T4).
  apply (Hk s4 (add_block (addr_of D1 ino1 (off / BSIZE)) blks1) (upd D1 (addr_of D1 ino1 (off / BSIZE)) d) ino1).
  all: assert (frame s1 s4) as F by (eapply frame_trans; [exact F2|]; by eapply frame_trans).
  - eapply grown_more; [|eapply grown_trans; [exact G1|]]; [|split; [exact F| |exact T4|by eapply evolves_layout| | |]].
    + instantiate (1 := [off / BSIZE]). set_solver.
    + rewrite E4, E3, E2, list_insert_id; [done|]. rewrite E1. apply list_lookup_insert_eq. by eapply lookup_lt_Some.
    + exists (i_addrs ino1). by destruct ino1.
    + eapply avail_layout; [exact L1|]. eapply avail_bits; [exact Hbits|done].
    + intros b. rewrite elem_of_add_block. intros [->|]; [|by left]. right. right. split; [done|]. right.
      exists (off / BSIZE). split; [by left|]. split; [done|]. symmetry. by apply (ev_addr _ _ _ _ _ Hev).
  - apply (written_app _ _ D1 ino1 _ _ off [] chunk); [by apply written_same|]. replace (off + Z.of_nat (length [])) with off by (simpl; lia).
    apply written_chunk; [done|rewrite Hcl; lia|done|]. by rewrite Efb.
  - by rewrite (ev_addr _ _ _ _ _ Hev).
  - done.
Qed.

Lemma writei_loop_ok base ip src n avl fuel : ∀ s blks D ino bns off tot,
  tx s [] blks D → fs_ok s D → inode_ok s D ino → fx_inodes (fx s) !! ip = Some ino → 0 < sb_size (fx_sb (fx s)) ≤ BPB →
  0 ≤ tot ≤ n → n < 2 ^ 32 → n ≤ Z.of_nat (length src) → 0 ≤ off → off + (n - tot) ≤ MAXFILE * BSIZE →
  let todo := blocks_of off (n - tot) in
  (length todo < fuel)%nat → avail s D (2 * length todo + avl) →
  (∀ b, b ∈ blks → b ∈ base ∨ of_bitmap s b ∨ of_file D ino bns b) → room s base (Z.of_nat (length bns + length todo) + 6) →
  wp (writei_loop (S slp) fuel ip src off n tot)
     (λ r s', ∃ blks' D' ino', grown s blks D ip ino s' [] blks' D' ino' avl todo
       ∧ r = off + (n - tot) ∧ written D ino D' ino' off (sub_range src (Z.to_nat tot) (Z.to_nat (n - tot)))
       ∧ mapped D' ino' todo ∧ (mapped D ino todo → ino' = ino)) s.
Proof.
  induction fuel as [|fuel IH]; intros s blks D ino bns off tot T Hfs Hio Hino Hone Htot Hn Hsrc Hoff Hmax todo Hf Hav Hlog Hr; [lia|].
  cbn [writei_loop]. destruct (Z.ltb_spec tot n) as [Hlt|Hge]; cbn [negb].
  - eapply wp_same; [by apply (bind_get_inode ip ino)|]. set (m := Z.min (n - tot) (BSIZE - off mod BSIZE)).
    destruct (blocks_of_step off (n - tot) Hoff ltac:(lia)) as (Hm & Hmb & Ebl). fold m in Hm, Hmb, Ebl. subst todo.
    replace (n - tot - m) with (n - (tot + m)) in Ebl by lia.
    rewrite (io_dev _ _ _ Hio), Ebl in *. simpl in Hf, Hav, Hr. rewrite (u32_small (n - tot)) by lia. fold m.
    rewrite !u32_small by (rewrite MAXFILE_eq in Hmax; unfold BSIZE in *; lia).
    pose proof (logged_length s base D ino bns blks Hone (lo_nodup _ _ _ (tx_geom _ _ _ _ _ _ _ _ T)) Hlog) as [Hlen _].
    eapply (write_chunk _ _ s blks D ip ino off src tot m (2 * length (blocks_of (off + m) (n - (tot + m))) + avl)); try done; try lia.
    { eapply avail_le; [exact Hav|lia]. } { destruct Hr. unfold room. lia. }
    intros s1 blks1 D1 ino1 G1 Hw1 Ha1 Hsame1. pose proof G1 as [F1 E1 T1 Hev1 M1 Hav1 Hlog1]. pose proof (layout_frame _ _ F1) as L1.
    eapply wp_mono; [apply (IH s1 blks1 D1 ino1 (bns ++ [off / BSIZE]) (off + m) (tot + m)); try done; try lia|].
    { by eapply fs_ok_layout, Hev1. } { by eapply inode_ok_layout, Hev1. }
    { rewrite E1. apply list_lookup_insert_eq. by eapply lookup_lt_Some. } { by rewrite <- (layout_sb _ _ L1). }
    { by eapply avail_layout. } { by eapply logged_step. }
    { eapply room_frame; [exact F1|]. rewrite length_app. simpl. eapply room_le; [exact Hr|lia]. }
    intros r s2 (blks2 & D2 & ino2 & G2 & -> & Hw2 & Hm2 & Hsame2).
    pose proof (evolves_layout _ _ _ _ _ _ (eq_sym L1) (gr_evolves _ _ _ _ _ _ _ _ _ _ _ _ _ _ _ _ G2)) as Hev2.
    exists blks2, D2, ino2. split; [exact (grown_trans _ _ _ _ _ _ _ _ _ _ _ _ _ _ _ _ _ _ _ _ _ _ _ G1 G2)|].
    split; [lia|]. split; [|split].
    + replace (Z.to_nat (n - tot)) with (Z.to_nat m + Z.to_nat (n - (tot + m)))%nat by lia. rewrite sub_range_app.
      eapply written_app; [exact Hw1|]. rewrite length_sub_range, Z2Nat.id by lia.
      by replace (Z.to_nat tot + Z.to_nat m)%nat with (Z.to_nat (tot + m)) by lia.
    + intros bn [->|Hbn]%elem_of_cons; [|by apply Hm2]. rewrite (ev_addr _ _ _ _ _ Hev2); [done|apply block_of; lia|done].
    + intros Hmp. rewrite Hsame2; [apply Hsame1, Hmp; by left|]. intros bn Hbn. rewrite (ev_addr _ _ _ _ _ Hev1).
      * apply Hmp. by right.
      * eapply blocks_of_range; [| | |exact Hbn]; lia.
      * apply Hmp. by right.
  - apply wp_ret. subst todo. replace (n - tot) with 0 in * by lia. exists blks, D, ino.
    split; [by apply grown_refl|]. split; [lia|]. split; [by apply written_same|]. split; [|done].
    intros bn Hbn. by apply elem_of_nil in Hbn.
Qed.

(** ** [iupdate] *)

Definition inode_block s ino : Z := IBLOCK (i_inum ino) (fx_sb (fx s)).

Definition in_range s ino : Prop := 0 ≤ i_inum ino < sb_ninodes (fx_sb (fx s)).

(** The disk's copy of the inode is the one in the cache. *)
Definition synced s D ino : Prop := read_dinode (D (inode_block s ino)) (dinode_off (i_inum ino)) ino = ino.

Definition shorts ino : Prop := short (i_type ino) ∧ short (i_major ino) ∧ short (i_minor ino) ∧ short (i_nlink ino).

Lemma dinode_off_fits n : (dinode_off n + 64 ≤ Z.to_nat BSIZE)%nat.
Proof.
  unfold dinode_off. change IPB with 8. change (Z.to_nat BSIZE) with 512%nat. pose proof (Z.mod_pos_bound n 8 ltac:(done)). lia.
Qed.

Lemma inode_dinode s D ino : fs_ok s D → inode_ok s D ino → shorts ino → dinode_ok ino.
Proof.
  intros Hfs [I1 I2 I3 I4 I5 I6 I7] (S1 & S2 & S3 & S4). pose proof (fo_size _ _ Hfs) as Hsz.
  rewrite MAXFILE_eq in I6. unfold BSIZE in I6. split; try done; [lia|].
  intros k Hk. destruct (decide (i_addrs ino !!! k = 0)) as [->|Hne]; [lia|].
  destruct (decide (k = 12%nat)) as [->|Hk'].
  - destruct (I4 Hne) as [[Hr _ _ _] _]. unfold iblk in Hr. lia.
  - assert (addr_of D ino (Z.of_nat k) = i_addrs ino !!! k) as E.
    { unfold addr_of. rewrite (proj2 (Z.ltb_lt _ _)) by (unfold NDIRECT; lia). by rewrite Nat2Z.id. }
    destruct (I3 (Z.of_nat k)) as [[Hr _ _ _] _]; [rewrite MAXFILE_eq; lia|by rewrite E|]. rewrite E in Hr. lia.
Qed.

Lemma foreign_iblock s D ino : fs_ok s D → inode_ok s D ino → in_range s ino → foreign s D ino (inode_block s ino).
Proof.
  intros [F1 F2 F3 F4 F5 F6] [I1 I2 I3 I4 I5 I6 I7] Hr. unfold inode_block. split.
  - intros Hb. apply not_false_iff_true. intros E. destruct (F4 _ Hb E) as [_ _ _ H]. by apply (H (i_inum ino)).
  - by apply F6.
  - intros Hi. destruct (I4 Hi) as [[_ _ _ H] _]. by apply not_eq_sym, H.
  - intros bn Hbn Ha. destruct (I3 bn Hbn Ha) as [[_ _ _ H] _]. by apply not_eq_sym, H.
Qed.

Lemma store_dinode s D ino d :
  fs_ok s D → inode_ok s D ino → in_range s ino → length d = Z.to_nat BSIZE →
  let D' := upd D (inode_block s ino) d in fs_ok s D' ∧ inode_ok s D' ino ∧ same_bytes D ino D' ino.
Proof.
  intros Hfs Hio Hr Hd D'. pose proof (foreign_iblock s D ino Hfs Hio Hr) as [X1 X2 X3 X4].
  assert (∀ bn, addr_of D' ino bn = addr_of D ino bn) as Hmap.
  { intros bn. unfold addr_of. case_match; [done|]. destruct (Z.eqb_spec (iblk ino) 0); [done|]. unfold D'. by rewrite upd_ne by by apply X3. }
  assert (∀ x, 0 ≤ x < sb_size (fx_sb (fx s)) → bit D' (fx_sb (fx s)) x = bit D (fx_sb (fx s)) x) as Hbits.
  { intros x Hx. rewrite !bit_testbit. unfold D'. rewrite upd_ne; [done|]. by apply X2. }
  split; [eapply fs_ok_same; [done| |done]; intros x; by apply upd_length|]. split; [by eapply inode_ok_same|].
  - intros bn Hbn. unfold fblock. rewrite Hmap. destruct (Z.eqb_spec (addr_of D ino bn) 0); [done|]. unfold D'. by rewrite upd_ne by by apply X4.
Qed.

Lemma iupdate_ok s blks D ip ino :
  tx s [] blks D → fs_ok s D → inode_ok s D ino → in_range s ino → fx_inodes (fx s) !! ip = Some ino → room s blks 1 →
  wp (iupdate (S slp) ip) (λ _ s', done i c cur pr s s' [] (add_block (inode_block s ino) blks)
    (upd D (inode_block s ino) (write_dinode ino (D (inode_block s ino)) (dinode_off (i_inum ino))))) s.
Proof.
  intros T Hfs Hio Hr Hino Hroom. destruct (fo_inodes _ _ Hfs _ Hr) as [Hh _]. fold (inode_block s ino) in Hh.
  unfold iupdate. eapply wp_same; [by apply (bind_get_inode ip ino)|]. eapply wp_same; [apply bind_fgets|].
  rewrite (io_dev _ _ _ Hio). fold (inode_block s ino). pose proof (home_block_range _ _ Hh) as Hrg.
  eapply wp_step; [apply (tx_bread slp i c cur pr s [] blks D _ T Hrg); [apply not_elem_of_nil|]|].
  { eapply (room_bufs s blks 1); [exact Hroom|simpl; lia]. }
  intros bp s1 (F1 & E1 & T1). eapply wp_same; [apply (tx_get_data i c cur pr _ _ _ _ _ _ _ T1 ltac:(by left))|].
  eapply (tx_write i c cur pr); [exact T1|by left|rewrite length_write_dinode; by apply (fo_len _ _ Hfs)|by eapply home_block_frame|by eapply room_frame|].
  intros s2 F2 E2 T2. eapply wp_mono; [by eapply tx_brelse|]. intros [] s3 (F3 & E3 & T3).
  split; [eapply frame_trans; [exact F1|]; by eapply frame_trans|]. split; [congruence|done].
Qed.

(** ** [writei], whole *)

(** The bytes [l] were written at [off] by a transaction. *)
Record updated s blks D ip ino s' blks' D' ino' (off : Z) (l : list Z) : Prop := Updated {
  up_frame : frame s s';
  up_inodes : fx_inodes (fx s') = <[ip := ino']> (fx_inodes (fx s));
  up_tx : tx s' [] blks' D';
  up_fs : fs_ok s D';
  up_ok : inode_ok s D' ino';
  up_meta : ∃ addrs, ino' = set_i_size (Z.max (i_size ino) (off + Z.of_nat (length l))) (set_i_addrs addrs ino);
  up_written : written D ino D' ino' off l;
  up_foreign : ∀ b, foreign s D ino b → b ≠ inode_block s ino → D' b = D b;
  up_neighbours : ∀ j, (j < dinode_off (i_inum ino) ∨ dinode_off (i_inum ino) + 64 ≤ j)%nat →
      D' (inode_block s ino) !! j = D (inode_block s ino) !! j;
  up_synced : synced s D ino → synced s D' ino';
  up_logged : (length blks' ≤ length blks + length (blocks_of off (Z.of_nat (length l))) + 3)%nat
}.

(** The file grows: all its blocks are there. *)
Lemma inode_ok_size s D ino off n :
  inode_ok s D ino → 0 ≤ off ≤ i_size ino → 0 ≤ n → off + n ≤ MAXFILE * BSIZE → mapped D ino (blocks_of off n) →
  inode_ok s D (set_i_size (off + n) ino).
Proof.
  intros [I1 I2 I3 I4 I5 I6 I7] Hoff Hn Hmax Hm. split; try done; [cbn; lia|]. intros bn H0 Hlt. cbn in Hlt.
  change (addr_of D ino bn ≠ 0). destruct (decide (bn * BSIZE < i_size ino)) as [|Hge]; [by apply I7|].
  apply Hm, elem_of_blocks_of; [done|]. split; [|unfold BSIZE in *; lia].
  apply Z.div_le_upper_bound; [done|unfold BSIZE in *; lia].
Qed.

(** No block is allocated when the range is inside the file. *)
Lemma inside_mapped s D ino off n :
  inode_ok s D ino → 0 ≤ off → 0 ≤ n → off + n ≤ i_size ino → mapped D ino (blocks_of off n).
Proof.
  intros Hio H0 Hn Hle bn Hbn. apply elem_of_blocks_of in Hbn as (H1 & H2 & _); [|done].
  apply (io_holes _ _ _ Hio); [pose proof (Z.div_pos off BSIZE H0 ltac:(done)); lia|lia].
Qed.

Lemma writei_inside s blks D ip ino s' blks' D' ino' off l :
  fs_ok s D → inode_ok s D ino → in_range s ino → 0 < sb_size (fx_sb (fx s)) ≤ BPB → 0 ≤ off →
  off + Z.of_nat (length l) ≤ i_size ino → fx_inodes (fx s) !! ip = Some ino →
  grown s blks D ip ino s' [] blks' D' ino' 0 (blocks_of off (Z.of_nat (length l))) → written D ino D' ino' off l → ino' = ino →
  updated s blks D ip ino s' blks' D' ino off l.
Proof.
  intros Hfs Hio Hr Hone H0 Hle Hino [F E T Hev M Hav Hlog] Hw ->. pose proof (foreign_iblock s D ino Hfs Hio Hr) as Hib.
  destruct (ev_foreign _ _ _ _ _ Hev _ Hib) as [_ Eib].
  split; try done; try apply Hev.
  - exists (i_addrs ino). rewrite Z.max_l by lia. by destruct ino.
  - intros b Hb _. by apply Hev.
  - intros j _. by rewrite Eib.
  - unfold synced. by rewrite Eib.
  - pose proof (logged_length s blks D' ino _ blks' Hone (lo_nodup _ _ _ (tx_geom _ _ _ _ _ _ _ _ T)) Hlog). lia.
Qed.

Lemma writei_grow s blks D ip ino s1 blks1 D1 ino1 off l :
  fs_ok s D → inode_ok s D ino → in_range s ino → shorts ino → 0 < sb_size (fx_sb (fx s)) ≤ BPB → 0 ≤ off ≤ i_size ino →
  off + Z.of_nat (length l) ≤ MAXFILE * BSIZE → i_size ino < off + Z.of_nat (length l) → fx_inodes (fx s) !! ip = Some ino →
  let todo := blocks_of off (Z.of_nat (length l)) in
  grown s blks D ip ino s1 [] blks1 D1 ino1 0 todo → written D ino D1 ino1 off l → mapped D1 ino1 todo →
  room s blks (Z.of_nat (length todo) + 3) →
  wp (alter_inode ip (set_i_size (off + Z.of_nat (length l)));; iupdate (S slp) ip)
     (λ _ s', ∃ blks' D' ino', updated s blks D ip ino s' blks' D' ino' off l) s1.
Proof.
  intros Hfs Hio Hr Hsh Hone Hoff Hmax Hsize Hino todo [F1 E1 T1 Hev [addrs M1] Hav Hlog] Hw Hmp Hroom.
  pose proof (foreign_iblock s D ino Hfs Hio Hr) as Hib. destruct Hev as [Hfs1 Hio1 Hfg _ _]. destruct (Hfg _ Hib) as [_ Eib].
  pose proof (logged_length s blks D1 ino1 _ blks1 Hone (lo_nodup _ _ _ (tx_geom _ _ _ _ _ _ _ _ T1)) Hlog) as [_ Hlen].
  set (ino2 := set_i_size (off + Z.of_nat (length l)) ino1).
  assert (inode_ok s D1 ino2) as Hio2 by (apply inode_ok_size; try done; try lia; rewrite M1; cbn; lia).
  assert (fx_inodes (fx s1) !! ip = Some ino1) as Hino1 by (rewrite E1; apply list_lookup_insert_eq; by eapply lookup_lt_Some).
  eapply wp_run; [by apply alter_inode_ok|]. fold ino2. destruct (tx_put_inode i c cur pr s1 [] blks1 D1 ip ino2 T1) as [T2 F2].
  assert (frame s (put_inode ip ino2 s1)) as F by by eapply frame_trans. pose proof (layout_frame _ _ F) as L.
  assert (in_range s ino2 ∧ shorts ino2 ∧ i_inum ino2 = i_inum ino) as (Hr2 & Hsh2 & Enum) by (unfold ino2; rewrite M1; done).
  eapply wp_mono; [apply (iupdate_ok _ blks1 D1 ip ino2 T2)|].
  { by eapply fs_ok_layout. } { by eapply inode_ok_layout. } { unfold in_range. by rewrite <- (layout_sb _ _ L). }
  { apply list_lookup_insert_eq. by eapply lookup_lt_Some. } { eapply room_frame; [exact F|]. destruct Hroom. unfold room. lia. }
  assert (inode_block (put_inode ip ino2 s1) ino2 = inode_block s ino) as ->.
  { unfold inode_block. by rewrite <- (layout_sb _ _ L), Enum. }
  set (d := write_dinode ino2 _ _). assert (length (D1 (inode_block s ino)) = Z.to_nat BSIZE) as HlenB.
  { apply (fo_len _ _ Hfs1), home_block_range. by apply (fo_inodes _ _ Hfs). }
  destruct (store_dinode s D1 ino2 d Hfs1 Hio2 Hr2) as (Hfs3 & Hio3 & Hsb3); [by unfold d; rewrite length_write_dinode|].
  replace (inode_block s ino2) with (inode_block s ino) in * by (unfold inode_block; by rewrite Enum).
  intros [] s3 (F3 & E3 & T3). eexists _, _, ino2. split; try exact T3; try done.
  - by eapply frame_trans.
  - rewrite E3. unfold put_inode. rewrite fx_set. cbn. by rewrite E1, list_insert_insert_eq.
  - exists addrs. unfold ino2. rewrite Z.max_r by lia. by rewrite M1.
  - rewrite <- (app_nil_r l). eapply written_app; [|by apply written_same]. exact Hw.
  - intros b Hb Hne. rewrite upd_ne by done. by apply Hfg.
  - intros j Hj. rewrite upd_eq. unfold d. rewrite lookup_write_dinode_ne; [by rewrite Eib|apply Hio2|by rewrite Enum].
  - intros _. unfold synced. replace (inode_block s ino2) with (inode_block s ino) by (unfold inode_block; by rewrite Enum).
    rewrite upd_eq. apply read_write_dinode; [by eapply inode_dinode|]. rewrite HlenB. apply dinode_off_fits.
  - rewrite length_add_block. fold todo. case_bool_decide; lia.
Qed.

Lemma writei_ok `{DevOps Xm} s blks D ip ino src off n :
  tx s [] blks D → fs_ok s D → inode_ok s D ino → fx_inodes (fx s) !! ip = Some ino → i_type ino ≠ T_DEV →
  in_range s ino → shorts ino → 0 < sb_size (fx_sb (fx s)) ≤ BPB →
  0 ≤ off ≤ i_size ino → 0 ≤ n ≤ Z.of_nat (length src) → off + n ≤ MAXFILE * BSIZE →
  avail s D (2 * length (blocks_of off n)) → room s blks (Z.of_nat (length (blocks_of off n)) + 6) →
  wp (writei (S slp) ip src off n) (λ r s', r = n ∧ ∃ blks' D' ino', updated s blks D ip ino s' blks' D' ino' off (take (Z.to_nat n) src)) s.
Proof.
  intros T Hfs Hio Hino Hty Hr Hsh Hone Hoff Hn Hmax Hav Hroom. rewrite MAXFILE_eq in Hmax. unfold BSIZE in Hmax.
  unfold writei. eapply wp_same; [by apply (bind_get_inode ip ino)|]. rewrite (proj2 (Z.eqb_neq _ _)) by done.
  rewrite !(u32_small (off + n)) by lia. rewrite !(proj2 (Z.ltb_ge _ off)) by lia. cbn [orb].
  rewrite (proj2 (Z.ltb_ge (MAXFILE * BSIZE) _)) by (rewrite MAXFILE_eq; unfold BSIZE; lia).
  set (l := take (Z.to_nat n) src). assert (Z.of_nat (length l) = n) as Hl by (unfold l; rewrite length_take; lia).
  eapply wp_step; [apply (writei_loop_ok blks ip src n 0 _ s blks D ino [] off 0); try done; try lia|].
  { rewrite MAXFILE_eq. unfold BSIZE. lia. } { rewrite Z.sub_0_r. apply blocks_of_fuel; lia. }
  { rewrite Z.sub_0_r. eapply avail_le; [exact Hav|lia]. } { by left. } { by rewrite Z.sub_0_r. }
  rewrite Z.sub_0_r. change (sub_range src (Z.to_nat 0) (Z.to_nat n)) with l. rewrite <- Hl in * |-. rewrite <- Hl.
  intros r s1 (blks1 & D1 & ino1 & G & -> & Hw & Hmp & Hsame).
  assert (fx_inodes (fx s1) !! ip = Some ino1) as Hino1.
  { rewrite (gr_inodes _ _ _ _ _ _ _ _ _ _ _ _ _ _ _ _ G). apply list_lookup_insert_eq. by eapply lookup_lt_Some. }
  eapply wp_same; [by apply (bind_get_inode ip ino1)|].
  assert (i_size ino1 = i_size ino) as -> by (destruct (gr_meta _ _ _ _ _ _ _ _ _ _ _ _ _ _ _ _ G) as [a ->]; done).
  rewrite s32_small by lia. destruct (Z.ltb_spec (i_size ino) (off + Z.of_nat (length l))) as [Hg|Hg].
  - rewrite (proj2 (Z.ltb_lt 0 _)) by lia. cbn [andb]. eapply wp_step; [eapply (writei_grow s blks D ip ino s1); try done; try lia|].
    { eapply room_le; [exact Hroom|lia]. }
    intros [] s2 (blks2 & D2 & ino2 & U). apply wp_ret. split; [done|]. by exists blks2, D2, ino2.
  - rewrite andb_false_r. eapply wp_run; [done|]. apply wp_ret. split; [done|].
    assert (ino1 = ino) as E by (apply Hsame; apply (inside_mapped s); try done; lia). exists blks1, D1, ino.
    apply (writei_inside s blks D ip ino s1 blks1 D1 ino1); try done; lia.
Qed.

End rw.

End inode.

(** ** Files *)

(** A transaction on an inode the caller has locked: an ordinary file of a disk
    whose bitmap is one block. *)
Record file_tx {Xm : Type} i c cur pr (s : kstate (Xm * fsx)) blks D ip ino : Prop := FileTx {
  ft_tx : tx i c cur pr s [] blks D;
  ft_fs : fs_ok s D;
  ft_inode : inode_ok s D ino;
  ft_cached : fx_inodes (fx s) !! ip = Some ino;
  ft_type : i_type ino ≠ T_DEV;
  ft_range : in_range s ino;
  ft_shorts : shorts ino;
  ft_bitmap : 0 < sb_size (fx_sb (fx s)) ≤ BPB
}.

Lemma write_max_blocks off n : 0 ≤ off → 0 ≤ n ≤ write_max → (length (blocks_of off n) ≤ 4)%nat.
Proof.
  intros H0 Hn. change write_max with 1536 in Hn. unfold blocks_of. case_match; [simpl; lia|]. rewrite length_seqZ.
  pose proof (Z.div_mod off BSIZE ltac:(done)). pose proof (Z.mod_pos_bound off BSIZE ltac:(done)).
  enough ((off + n - 1) / BSIZE < off / BSIZE + 4) by lia. apply Z.div_lt_upper_bound; [done|]. unfold BSIZE in *. lia.
Qed.

Lemma write_max_ok {Xm : Type} `{DevOps Xm} slp i c cur pr (s : kstate (Xm * fsx)) blks D ip ino src off n :
  file_tx i c cur pr s blks D ip ino → 0 ≤ off ≤ i_size ino → 0 ≤ n ≤ write_max → n ≤ Z.of_nat (length src) →
  off + n ≤ MAXFILE * BSIZE → avail s D 8 → room s blks MAXOPBLOCKS →
  ∃ s' blks' D' ino', writei (S slp) ip src off n s = Ok n s'
    ∧ updated i c cur pr s blks D ip ino s' blks' D' ino' off (take (Z.to_nat n) src).
Proof.
  intros [T Hfs Hio Hino Hty Hr Hsh Hone] Hoff Hn Hsrc Hmax Hav Hroom. pose proof (write_max_blocks off n ltac:(lia) Hn) as Hb.
  destruct (writei_ok slp i c cur pr s blks D ip ino src off n) as (r & s' & R & -> & blks' & D' & ino' & U); try done.
  - lia.
  - eapply avail_le; [exact Hav|lia].
  - eapply room_le; [exact Hroom|]. unfold MAXOPBLOCKS. lia.
  - by exists s', blks', D', ino'.
Qed.

Lemma updated_file_tx {Xm : Type} i c cur pr (s : kstate (Xm * fsx)) blks D ip ino s' blks' D' ino' off l :
  file_tx i c cur pr s blks D ip ino → updated i c cur pr s blks D ip ino s' blks' D' ino' off l →
  file_tx i c cur pr s' blks' D' ip ino'.
Proof.
  intros [T Hfs Hio Hino Hty Hr Hsh Hone] [F E T' Hfs' Hio' [a M] _ _ _ _ _]. pose proof (layout_frame _ _ F) as L.
  split; try done.
  - by eapply fs_ok_layout.
  - by eapply inode_ok_layout.
  - rewrite E. apply list_lookup_insert_eq. by eapply lookup_lt_Some.
  - by rewrite M.
  - rewrite M. unfold in_range. rewrite <- (layout_sb _ _ L). exact Hr.
  - by rewrite M.
  - by rewrite <- (layout_sb _ _ L).
Qed.

Lemma file_bytes_ext D ino D' ino' off n :
  (∀ k, off ≤ k < off + Z.of_nat n → byte_at D' ino' k = byte_at D ino k) → file_bytes D' ino' off n = file_bytes D ino off n.
Proof.
  intros H. unfold file_bytes. apply map_ext_in. intros j Hj%in_seq. apply H. lia.
Qed.


(** C9: What [writei] wrote [readi] reads: right after such a write, reading the
    range gives the bytes written, and reading any range of the old file that the
    write does not touch gives what it gave before. *)
Theorem writei_readi_roundtrip {Xm : Type} `{DevOps Xm} slp i c cur pr (s : kstate (Xm * fsx)) blks D ip ino src off n :
  file_tx i c cur pr s blks D ip ino → 0 ≤ off ≤ i_size ino → 0 ≤ n ≤ write_max → n ≤ Z.of_nat (length src) →
  off + n ≤ MAXFILE * BSIZE → avail s D 8 → room s blks MAXOPBLOCKS →
  ∃ s', writei (S slp) ip src off n s = Ok n s'
    ∧ (∃ s'', readi (S slp) ip off n s' = Ok (n, take (Z.to_nat n) src) s'')
    ∧ ∀ off' n', 0 ≤ off' → 0 ≤ n' → off' + n' ≤ i_size ino → off' + n' ≤ off ∨ off + n ≤ off' →
        ∃ v s1 s2, readi (S slp) ip off' n' s = Ok (n', v) s1 ∧ readi (S slp) ip off' n' s' = Ok (n', v) s2.
Proof.
  intros Hft Hoff Hn Hsrc Hmax Hav Hroom. pose proof (write_max_blocks off n ltac:(lia) Hn) as Hb.
  destruct (write_max_ok slp i c cur pr s blks D ip ino src off n) as (s' & blks' & D' & ino' & R & U); try done.
  pose proof (updated_file_tx _ _ _ _ _ _ _ _ _ _ _ _ _ _ _ Hft U) as Hft'. pose proof U as [_ _ _ _ _ [a M] Hw _ _ _ Hlog].
  set (l := take (Z.to_nat n) src) in *. assert (Z.of_nat (length l) = n) as Hl by (unfold l; rewrite length_take; lia). rewrite Hl in *.
  destruct Hft as [T Hfs Hio Hino Hty _ _ _], Hft' as [T' Hfs' Hio' Hino' Hty' _ _ _].
  assert (i_size ino' = Z.max (i_size ino) (off + n)) as Hsz by (by rewrite M). rewrite MAXFILE_eq in Hmax. unfold BSIZE in Hmax.
  pose proof (io_size _ _ _ Hio) as Hs. rewrite MAXFILE_eq in Hs. unfold BSIZE in Hs. pose proof (room_bufs s blks _ [] Hroom) as Hbuf.
  assert (length blks' < NBUF)%nat as Hbuf'.
  { destruct Hroom as [Hr _]. unfold MAXOPBLOCKS, LOGSIZE, MAXOPBLOCKS, NBUF in *. lia. }
  exists s'. split; [done|]. split.
  - destruct (readi_ok slp i c cur pr s' blks' D' ip ino' off n) as (r & s'' & R' & -> & _); try done; try lia.
    exists s''. rewrite R', Z.min_l by lia. do 2 f_equal. rewrite <- Hl, Nat2Z.id. eapply file_bytes_written; [exact Hw|lia|].
    rewrite MAXFILE_eq. unfold BSIZE. lia.
  - intros off' n' H0 Hn' Hle Hd. exists (file_bytes D ino off' (Z.to_nat n')).
    destruct (readi_ok slp i c cur pr s blks D ip ino off' n') as (r & s1 & R1 & -> & _); try done; try lia.
    { simpl in Hbuf. unfold MAXOPBLOCKS in Hbuf. lia. }
    destruct (readi_ok slp i c cur pr s' blks' D' ip ino' off' n') as (r & s2 & R2 & -> & _); try done; try lia.
    exists s1, s2. rewrite R1, R2, !Z.min_l by lia. split; [done|]. do 2 f_equal. apply file_bytes_ext.
    intros k Hk. rewrite Hw, Hl by (rewrite MAXFILE_eq; unfold BSIZE; lia).
    destruct (Z.leb_spec off k), (Z.ltb_spec k (off + n)); try done. lia.
Qed.

(** *** A sample *)

Definition no_devices : DevOps unit := {| devsw_read := λ _, None; devsw_write := λ _, None |}.

(** An empty file. *)
Definition sample_file : inode := Inode 1 1 1 1 2 0 0 1 0 (replicate 13 0).

Definition sample_file_state : kstate (unit * fsx) := sample_tx_state sample_bitmap_disk [sample_file].

Definition sample_file_disk (b : Z) : list Z := default [] (sample_bitmap_disk !! Z.to_nat b).

Lemma sample_layout :
  let sb := Superblock 40 20 16 12 2 14 16 in
  (∀ b, 0 ≤ b < 40 → BBLOCK b sb = 16) ∧ (∀ n, 0 ≤ n < 16 → 14 ≤ IBLOCK n sb < 16)
  ∧ (∀ b, home_block sample_file_state b ↔ 0 ≤ b < 40 ∧ ¬ (2 ≤ b < 14))
  ∧ (∀ b, 0 ≤ b < 40 → bit sample_file_disk sb b = false → 17 ≤ b)
  ∧ ∀ b, b ∈ seqZ 17 8 → bit sample_file_disk sb b = false.
Proof.
  intros sb. split; [|split; [|split; [|split]]].
  - intros b Hb. unfold BBLOCK. by rewrite Z.div_small by (change BPB with 4096; lia).
  - intros n Hn. unfold IBLOCK. change IPB with 8. cbn [sb_inodestart sb].
    pose proof (Z.div_pos n 8 ltac:(lia) ltac:(lia)). pose proof (Z.div_lt_upper_bound n 8 2 ltac:(lia) ltac:(lia)).
    rewrite u32_small by lia. lia.
  - intros b. unfold home_block, home. reflexivity.
  - intros b Hb Hf. destruct (Z.ltb_spec b 17) as [Hlt|]; [|done].
    assert (forallb (bit sample_file_disk sb) (seqZ 0 17) = true) as Hall by (vm_compute; reflexivity).
    rewrite forallb_forall in Hall. rewrite Hall in Hf; [done|]. apply list_elem_of_In, elem_of_seqZ. lia.
  - intros b Hb. assert (forallb (λ b, negb (bit sample_file_disk sb b)) (seqZ 17 8) = true) as Hall by (vm_compute; reflexivity).
    rewrite forallb_forall in Hall. by apply negb_true_iff, Hall, list_elem_of_In.
Qed.

Lemma sample_file_tx :
  file_tx 0 (Cpu 0 1 0 512 (Some 0%nat) 0) 0 (sample_proc RUNNING 7 None) sample_file_state [] sample_file_disk 0 sample_file.
Proof.
  destruct sample_layout as (HB & HI & Hh & Hf & _).
  assert (fx_sb (fx sample_file_state) = Superblock 40 20 16 12 2 14 16) as Esb by done.
  assert (∀ bn, 0 ≤ bn → addr_of sample_file_disk sample_file bn = 0) as Haddr.
  { intros bn Hbn. unfold addr_of. case_match; [|done]. apply list_lookup_total_correct, lookup_replicate.
    split; [done|]. bool_to_prop. unfold NDIRECT in *. lia. }
  split; try done.
  - apply sample_tx; [done|]. vm_compute. repeat constructor.
  - split; rewrite ?Esb.
    + split; rewrite ?Esb; intros b Hb; [|apply not_elem_of_nil]. rewrite HB by exact Hb. apply Hh. lia.
    + vm_compute. split; congruence.
    + vm_compute. split; congruence.
    + intros b Hb Hfb. pose proof (Hf b Hb Hfb) as H17. assert (0 ≤ b < 40) as Hb40 by exact Hb. split; rewrite ?Esb.
      * change (0 < b < 40). lia.
      * apply Hh. lia.
      * intros b' Hb'. rewrite HB by exact Hb'. lia.
      * intros n Hn. pose proof (HI n Hn). lia.
    + intros b Hb. assert (Forall (λ d, length d = Z.to_nat BSIZE) sample_bitmap_disk) as Hall by (vm_compute; repeat constructor).
      unfold sample_file_disk. destruct (lookup_lt_is_Some_2 sample_bitmap_disk (Z.to_nat b)) as [d E].
      { change (length sample_bitmap_disk) with 40%nat. change (length _) with 40%nat in Hb. lia. }
      rewrite E. by apply (Forall_lookup_1 _ _ _ _ Hall E).
    + intros n Hn. pose proof (HI n Hn). split; [apply Hh; lia|]. intros b Hb. rewrite HB by exact Hb. lia.
  - split; try done.
    + intros bn Hbn. by rewrite Haddr by lia.
    + intros b1 b2 H1 H2 _. by rewrite Haddr by lia.
    + intros bn Hbn Hlt. cbn in Hlt. unfold BSIZE in Hlt. lia.
Qed.

Lemma sample_avail : avail sample_file_state sample_file_disk 8.
Proof.
  destruct sample_layout as (_ & _ & _ & _ & Hf). exists (seqZ 17 8). split; [apply NoDup_seqZ|]. split; [done|].
  intros b Hb. split; [apply elem_of_seqZ in Hb; cbn; lia|by apply Hf].
Qed.


Lemma writei_readi_roundtrip_witness :
  ∃ s' s'', @writei unit no_devices 1 0 [104; 105; 10] 0 3 sample_file_state = Ok 3 s'
    ∧ @readi unit no_devices 1 0 0 3 s' = Ok (3, [104; 105; 10]) s''.
Proof.
  destruct (@writei_readi_roundtrip unit no_devices 0 _ _ _ _ _ _ _ 0%nat sample_file [104; 105; 10] 0 3 sample_file_tx)
    as (s' & R & (s'' & R') & _); [by vm_compute|by vm_compute|by vm_compute|by vm_compute|exact sample_avail|by vm_compute|].
  exists s', s''. split; [exact R|exact R'].
Defined.
