(* ===== verification/Sysfile.v ===== *)
(** * File-system system calls

    Models [sysfile.c].  The user memory a process sees is reached through
    [load], as in [Syscall], and [store], which writes bytes at a user address
    under a page directory; [exec] is a parameter.  Messages on the console are
    left out.  [fuel] bounds the loop of [filecopy]. *)

From S2P Require Import Prelude Spinlock Printf CString CFloat State PrioLock Sched Proc Sleep Syscall.
From S2P Require Import Sleeplock Pipe FsState Bio Bytes Log Fs File.

Definition MAXARG : nat := 32.

Section sysfile.
Context {Xm : Type} `{!MemOps Xm fsx} `{!DevOps Xm} (slp pfuel : nat).
Context (load : Xm * fsx → Z → Z → Z) (store : Z → Z → list Z → Xm * fsx → Xm * fsx).
Context (exec : list Z → list (list Z) → K (kstate (Xm * fsx)) Z).
Notation M := (K (kstate (Xm * fsx))).

(** The bytes at a user address, and storing some. *)
Definition user_bytes (a n : Z) : M (list Z) :=
  p ← mycur;
  x ← kgets k_ext;
  mret (map (λ k, load x (p_pgdir p) (a + Z.of_nat k)) (seq 0 (Z.to_nat n))).

Definition user_store (a : Z) (d : list Z) : M unit :=
  p ← mycur;
  kmodify (λ s, set_k_ext (store (p_pgdir p) a d (k_ext s)) s).

(** [argstr]: the string with its NUL, [None] for -1. *)
Definition argpath (n : Z) : M (option (list Z)) :=
  o ← argstr load n;
  match o with
  | None => mret None
  | Some (a, len) => s ← user_bytes a (len + 1); mret (Some s)
  end.

Definition argfd (n : Z) : M (option (Z * nat)) :=
  o ← argint load n;
  match o with
  | None => mret None
  | Some fd =>
      if (fd <? 0) || (Z.of_nat NOFILE <=? fd) then mret None else
      p ← mycur;
      match p_ofile p !! Z.to_nat fd with
      | Some (Some f) => mret (Some (fd, f))
      | _ => mret None
      end
  end.

Definition set_ofile (fd : nat) (v : option nat) (p : proc) : proc := set_p_ofile (<[fd := v]> (p_ofile p)) p.

Definition fdalloc (f : nat) : M Z :=
  i ← curproc;
  p ← get_proc i;
  match find_index (λ o, match o with None => true | Some _ => false end) (p_ofile p) with
  | Some fd => alter_proc i (set_ofile fd (Some f));; mret (Z.of_nat fd)
  | None => mret (-1)
  end.

Definition sys_dup : M Z :=
  o ← argfd 0;
  match o with
  | None => mret (-1)
  | Some (_, f) =>
      fd ← fdalloc f;
      if fd <? 0 then mret (-1) else
      filedup f;;
      mret fd
  end.

(** [argfd(0, 0, &f) < 0 || argint(2, &n) < 0 || argptr(1, &p, n) < 0] *)
Definition rw_args : M (option (nat * Z * Z)) :=
  o ← argfd 0;
  match o with
  | None => mret None
  | Some (_, f) =>
      o ← argint load 2;
      match o with
      | None => mret None
      | Some n =>
          o ← argptr load 1 n;
          match o with None => mret None | Some p => mret (Some (f, n, p)) end
      end
  end.

Definition sys_read : M Z :=
  o ← rw_args;
  match o with
  | None => mret (-1)
  | Some (f, n, p) =>
      r ← fileread slp pfuel f n;
      user_store p (snd r);;
      mret (fst r)
  end.

Definition sys_write : M Z :=
  o ← rw_args;
  match o with
  | None => mret (-1)
  | Some (f, n, p) =>
      d ← user_bytes p n;
      filewrite slp pfuel f d n
  end.

Definition sys_close : M Z :=
  o ← argfd 0;
  match o with
  | None => mret (-1)
  | Some (fd, f) =>
      i ← curproc;
      alter_proc i (set_ofile (Z.to_nat fd) None);;
      fileclose slp f;;
      mret 0
  end.

(** [struct stat] in memory: 20 bytes. *)
Definition stat_bytes (st : stat) : list Z :=
  wr 4 (st_size st) (wr 2 (st_nlink st) (wr 4 (st_ino st) (wr 4 (st_dev st) (wr 2 (st_type st) (replicate 20 0) 0) 4) 8) 12) 16.

Definition sys_fstat : M Z :=
  o ← argfd 0;
  match o with
  | None => mret (-1)
  | Some (_, f) =>
      o ← argptr load 1 20;
      match o with
      | None => mret (-1)
      | Some a =>
          r ← filestat slp f;
          match r with
          | Some st => user_store a (stat_bytes st);; mret 0
          | None => mret (-1)
          end
      end
  end.

(** [ip->nlink += d] *)
Definition add_nlink (ip : nat) (d : Z) : M unit := alter_inode ip (λ i, set_i_nlink (s16 (i_nlink i + d)) i).

Definition no_name : list Z := replicate (Z.to_nat DIRSIZ) 0.

(** The error exit of [sys_link]. *)
Definition link_bad (ip : nat) : M Z :=
  ilock slp ip;;
  add_nlink ip (-1);;
  iupdate slp ip;;
  iunlockput slp ip;;
  end_op slp;;
  mret (-1).

Definition sys_link : M Z :=
  o ← argpath 0;
  match o with
  | None => mret (-1)
  | Some old =>
      o ← argpath 1;
      match o with
      | None => mret (-1)
      | Some new =>
          begin_op slp;;
          o ← namei slp old;
          match o with
          | None => end_op slp;; mret (-1)
          | Some ip =>
              ilock slp ip;;
              i ← get_inode ip;
              if i_type i =? T_DIR then iunlockput slp ip;; end_op slp;; mret (-1) else
              add_nlink ip 1;;
              iupdate slp ip;;
              iunlock ip;;
              r ← nameiparent slp new no_name;
              match r with
              | (None, _) => link_bad ip
              | (Some dp, name) =>
                  ilock slp dp;;
                  d ← get_inode dp;
                  i ← get_inode ip;
                  if negb (i_dev d =? i_dev i) then iunlockput slp dp;; link_bad ip else
                  r ← dirlink slp dp name (i_inum i);
                  if r <? 0 then iunlockput slp dp;; link_bad ip else
                  iunlockput slp dp;;
                  iput slp ip;;
                  end_op slp;;
                  mret 0
              end
          end
      end
  end.

Fixpoint isdirempty_loop (fuel : nat) (dp : nat) (off : Z) : M bool :=
  match fuel with
  | O => knofuel
  | S fuel' =>
      i ← get_inode dp;
      if negb (off <? i_size i) then mret true else
      r ← readi slp dp off DIRENT;
      let '(n, de) := r in
      if negb (n =? DIRENT) then kpanic "isdirempty: readi" else
      if negb (de_inum de =? 0) then mret false else isdirempty_loop fuel' dp (u32 (off + DIRENT))
  end.

Definition isdirempty (dp : nat) : M bool :=
  i ← get_inode dp;
  isdirempty_loop (entries_fuel (i_size i)) dp (2 * DIRENT).

(** The error exit of [sys_unlink]. *)
Definition unlink_bad (dp : nat) : M Z :=
  iunlockput slp dp;;
  end_op slp;;
  mret (-1).

Definition DOT : list Z := [46; 0].
Definition DOTDOT : list Z := [46; 46; 0].

(** [namecmp(name, t) == 0] *)
Definition name_is (name t : list Z) : bool :=
  match namecmp name t with Some v => v =? 0 | None => false end.

Definition sys_unlink : M Z :=
  o ← argpath 0;
  match o with
  | None => mret (-1)
  | Some path =>
      begin_op slp;;
      r ← nameiparent slp path no_name;
      match r with
      | (None, _) => end_op slp;; mret (-1)
      | (Some dp, name) =>
          ilock slp dp;;
          if name_is name DOT || name_is name DOTDOT then unlink_bad dp else
          o ← dirlookup slp dp name;
          match o with
          | None => unlink_bad dp
          | Some (ip, off) =>
              ilock slp ip;;
              i ← get_inode ip;
              if i_nlink i <? 1 then kpanic "unlink: nlink < 1" else
              e ← (if i_type i =? T_DIR then isdirempty ip else mret true);
              if negb (e : bool) then iunlockput slp ip;; unlink_bad dp else
              n ← writei slp dp (replicate 16 0) off DIRENT;
              if negb (n =? DIRENT) then kpanic "unlink: writei" else
              (if i_type i =? T_DIR then add_nlink dp (-1);; iupdate slp dp else mret tt);;
              iunlockput slp dp;;
              add_nlink ip (-1);;
              iupdate slp ip;;
              iunlockput slp ip;;
              end_op slp;;
              mret 0
          end
      end
  end.

(** [create]: the locked inode, [None] for 0. *)
Definition create (path : list Z) (type major minor : Z) : M (option nat) :=
  r ← nameiparent slp path no_name;
  match r with
  | (None, _) => mret None
  | (Some dp, name) =>
      ilock slp dp;;
      o ← dirlookup slp dp name;
      match o with
      | Some (ip, _) =>
          iunlockput slp dp;;
          ilock slp ip;;
          i ← get_inode ip;
          if (type =? T_FILE) && (i_type i =? T_FILE) then mret (Some ip) else
          iunlockput slp ip;;
          mret None
      | None =>
          d ← get_inode dp;
          ip ← ialloc slp (i_dev d) type;
          ilock slp ip;;
          alter_inode ip (λ i, set_i_nlink 1 (set_i_minor minor (set_i_major major i)));;
          iupdate slp ip;;
          i ← get_inode ip;
          d ← get_inode dp;
          (if type =? T_DIR then
             add_nlink dp 1;;
             iupdate slp dp;;
             r1 ← dirlink slp ip DOT (i_inum i);
             if r1 <? 0 then kpanic "create dots" else
             r2 ← dirlink slp ip DOTDOT (i_inum d);
             if r2 <? 0 then kpanic "create dots" else mret tt
           else mret tt);;
          r ← dirlink slp dp name (i_inum i);
          if r <? 0 then kpanic "create: dirlink" else
          iunlockput slp dp;;
          mret (Some ip)
      end
  end.

(** [sys_open] once the inode is found and locked. *)
Definition open_inode (ip : nat) (omode : Z) : M Z :=
  o ← filealloc;
  match o with
  | None => iunlockput slp ip;; end_op slp;; mret (-1)
  | Some f =>
      fd ← fdalloc f;
      if fd <? 0 then fileclose slp f;; iunlockput slp ip;; end_op slp;; mret (-1) else
      iunlock ip;;
      end_op slp;;
      alter_file f (set_f_type FD_INODE);;
      alter_file f (set_f_ip ip);;
      alter_file f (set_f_off 0);;
      alter_file f (set_f_readable (if Z.land omode O_WRONLY =? 0 then 1 else 0));;
      alter_file f (set_f_writable (if negb (Z.land omode O_WRONLY =? 0) || negb (Z.land omode O_RDWR =? 0) then 1 else 0));;
      mret fd
  end.

Definition sys_open : M Z :=
  o ← argpath 0;
  match o with
  | None => mret (-1)
  | Some path =>
      o ← argint load 1;
      match o with
      | None => mret (-1)
      | Some omode =>
          begin_op slp;;
          if negb (Z.land omode O_CREATE =? 0) then
            o ← create path T_FILE 0 0;
            match o with
            | None => end_op slp;; mret (-1)
            | Some ip => open_inode ip omode
            end
          else
            o ← namei slp path;
            match o with
            | None => end_op slp;; mret (-1)
            | Some ip =>
                ilock slp ip;;
                i ← get_inode ip;
                if (i_type i =? T_DIR) && negb (omode =? O_RDONLY) then iunlockput slp ip;; end_op slp;; mret (-1)
                else open_inode ip omode
            end
      end
  end.

(** [if (... (ip = create(...)) == 0) { end_op(); return -1; } iunlockput(ip); ...] *)
Definition create_only (path : option (list Z)) (type major minor : Z) : M Z :=
  match path with
  | None => end_op slp;; mret (-1)
  | Some path =>
      o ← create path type major minor;
      match o with
      | None => end_op slp;; mret (-1)
      | Some ip => iunlockput slp ip;; end_op slp;; mret 0
      end
  end.

Definition sys_mkdir : M Z :=
  begin_op slp;;
  path ← argpath 0;
  create_only path T_DIR 0 0.

Definition sys_mknod : M Z :=
  begin_op slp;;
  path ← argpath 0;
  match path with
  | None => create_only None T_DEV 0 0
  | Some _ =>
      major ← argint load 1;
      match major with
      | None => create_only None T_DEV 0 0
      | Some major =>
          minor ← argint load 2;
          match minor with
          | None => create_only None T_DEV 0 0
          | Some minor => create_only path T_DEV (s16 major) (s16 minor)
          end
      end
  end.

Definition sys_chdir : M Z :=
  cur ← curproc;
  begin_op slp;;
  path ← argpath 0;
  match path with
  | None => end_op slp;; mret (-1)
  | Some path =>
      o ← namei slp path;
      match o with
      | None => end_op slp;; mret (-1)
      | Some ip =>
          ilock slp ip;;
          i ← get_inode ip;
          if negb (i_type i =? T_DIR) then iunlockput slp ip;; end_op slp;; mret (-1) else
          iunlock ip;;
          p ← get_proc cur;
          (match p_cwd p with Some d => iput slp d | None => kundef "cwd" end);;
          end_op slp;;
          alter_proc cur (set_p_cwd (Some ip));;
          mret 0
      end
  end.

(** The loop of [sys_exec] from argument [i] on, with [k] of [argv] left. *)
Fixpoint exec_args (k : nat) (uargv i : Z) : M (option (list (list Z))) :=
  match k with
  | O => mret None
  | S k' =>
      o ← fetchint load (u32 (uargv + 4 * i));
      match o with
      | None => mret None
      | Some uarg =>
          if uarg =? 0 then mret (Some []) else
          o ← fetchstr load (u32 uarg);
          match o with
          | None => mret None
          | Some (a, len) =>
              s ← user_bytes a (len + 1);
              r ← exec_args k' uargv (i + 1);
              mret ((s ::.) <$> r)
          end
      end
  end.

Definition sys_exec : M Z :=
  o ← argpath 0;
  match o with
  | None => mret (-1)
  | Some path =>
      o ← argint load 1;
      match o with
      | None => mret (-1)
      | Some uargv =>
          r ← exec_args MAXARG uargv 0;
          match r with None => mret (-1) | Some argv => exec path argv end
      end
  end.

Definition sys_pipe : M Z :=
  o ← argptr load 0 8;
  match o with
  | None => mret (-1)
  | Some fd =>
      o ← pipealloc slp;
      match o with
      | None => mret (-1)
      | Some (rf, wf) =>
          fd0 ← fdalloc rf;
          if fd0 <? 0 then fileclose slp rf;; fileclose slp wf;; mret (-1) else
          fd1 ← fdalloc wf;
          if fd1 <? 0 then
            i ← curproc;
            alter_proc i (set_ofile (Z.to_nat fd0) None);;
            fileclose slp rf;;
            fileclose slp wf;;
            mret (-1)
          else
            user_store fd (wr 4 fd0 (replicate 4 0) 0);;
            user_store (fd + 4) (wr 4 fd1 (replicate 4 0) 0);;
            mret 0
      end
  end.

Definition sys_fcopy (fuel : nat) : M Z :=
  o ← argpath 0;
  match o with
  | None => mret (-1)
  | Some src_path =>
      o ← argpath 1;
      match o with
      | None => mret (-1)
      | Some dest_path =>
          begin_op slp;;
          src ← namei slp src_path;
          dest ← namei slp dest_path;
          match src, dest with
          | None, _ => message "source file does not exist!";; mret (-1)
          | Some src, Some dest =>
              if (src =? dest)%nat then
                message "a file can not be copy at itself!";;
                end_op slp;;
                mret (-1)
              else
              message "[WARNING] destination file exists, it will be overwriten!";;
              end_op slp;;
              filecopy slp fuel src dest
          | Some src, None =>
              dest ← create dest_path T_FILE 0 0;
              match dest with
              | None => kpanic "iunlock"
              | Some dest => iunlock dest;; filecopy slp fuel src dest
              end
          end
      end
  end.

End sysfile.
