(* ===== verification/Console.v ===== *)
(** * The console

    Models the screen, the line editor and the command history of [console.c],
    with the transmitter of [uart.c].  The state is the record [console]; the
    kernel routines that use it under [cons.lock] are in [ConsDev].  Characters
    are C [char]s, so signed; the screen is the 25 lines of 80 cells of the
    display, and a store outside of it has no meaning here. *)

From S2P Require Import Prelude.

Definition BACKSPACE : Z := 256.
Definition INPUT_BUF : Z := 128.
Definition COMMAND_BUF : Z := 10.
Definition CH_NL : Z := 10.

(** [panicked], [crt] and the two cursor registers behind [CRTPORT], [uart] and
    what was sent on the serial line, [input], and [cmds]. *)
Record console := Console {
  c_panicked : Z;
  c_crt : list Z;
  c_hi : Z;
  c_lo : Z;
  c_uart : Z;
  c_sent : list Z;
  c_buf : list Z;
  c_r : Z;
  c_w : Z;
  c_e : Z;
  c_shift : Z;
  h_buf : list (list Z);
  h_r : Z;
  h_w : Z;
  h_intab : Z;
  h_tmp : list Z;
  h_last : Z
}.

Definition set_crt v c := Console (c_panicked c) v (c_hi c) (c_lo c) (c_uart c) (c_sent c) (c_buf c) (c_r c) (c_w c) (c_e c) (c_shift c) (h_buf c) (h_r c) (h_w c) (h_intab c) (h_tmp c) (h_last c).
Definition set_cursor h l c := Console (c_panicked c) (c_crt c) h l (c_uart c) (c_sent c) (c_buf c) (c_r c) (c_w c) (c_e c) (c_shift c) (h_buf c) (h_r c) (h_w c) (h_intab c) (h_tmp c) (h_last c).
Definition set_sent v c := Console (c_panicked c) (c_crt c) (c_hi c) (c_lo c) (c_uart c) v (c_buf c) (c_r c) (c_w c) (c_e c) (c_shift c) (h_buf c) (h_r c) (h_w c) (h_intab c) (h_tmp c) (h_last c).
Definition set_buf v c := Console (c_panicked c) (c_crt c) (c_hi c) (c_lo c) (c_uart c) (c_sent c) v (c_r c) (c_w c) (c_e c) (c_shift c) (h_buf c) (h_r c) (h_w c) (h_intab c) (h_tmp c) (h_last c).
Definition set_r v c := Console (c_panicked c) (c_crt c) (c_hi c) (c_lo c) (c_uart c) (c_sent c) (c_buf c) v (c_w c) (c_e c) (c_shift c) (h_buf c) (h_r c) (h_w c) (h_intab c) (h_tmp c) (h_last c).
Definition set_w v c := Console (c_panicked c) (c_crt c) (c_hi c) (c_lo c) (c_uart c) (c_sent c) (c_buf c) (c_r c) v (c_e c) (c_shift c) (h_buf c) (h_r c) (h_w c) (h_intab c) (h_tmp c) (h_last c).
Definition set_e v c := Console (c_panicked c) (c_crt c) (c_hi c) (c_lo c) (c_uart c) (c_sent c) (c_buf c) (c_r c) (c_w c) v (c_shift c) (h_buf c) (h_r c) (h_w c) (h_intab c) (h_tmp c) (h_last c).
Definition set_shift v c := Console (c_panicked c) (c_crt c) (c_hi c) (c_lo c) (c_uart c) (c_sent c) (c_buf c) (c_r c) (c_w c) (c_e c) v (h_buf c) (h_r c) (h_w c) (h_intab c) (h_tmp c) (h_last c).
Definition set_hbuf v c := Console (c_panicked c) (c_crt c) (c_hi c) (c_lo c) (c_uart c) (c_sent c) (c_buf c) (c_r c) (c_w c) (c_e c) (c_shift c) v (h_r c) (h_w c) (h_intab c) (h_tmp c) (h_last c).
Definition set_hr v c := Console (c_panicked c) (c_crt c) (c_hi c) (c_lo c) (c_uart c) (c_sent c) (c_buf c) (c_r c) (c_w c) (c_e c) (c_shift c) (h_buf c) v (h_w c) (h_intab c) (h_tmp c) (h_last c).
Definition set_hw v c := Console (c_panicked c) (c_crt c) (c_hi c) (c_lo c) (c_uart c) (c_sent c) (c_buf c) (c_r c) (c_w c) (c_e c) (c_shift c) (h_buf c) (h_r c) v (h_intab c) (h_tmp c) (h_last c).
Definition set_intab v c := Console (c_panicked c) (c_crt c) (c_hi c) (c_lo c) (c_uart c) (c_sent c) (c_buf c) (c_r c) (c_w c) (c_e c) (c_shift c) (h_buf c) (h_r c) (h_w c) v (h_tmp c) (h_last c).
Definition set_tmp v c := Console (c_panicked c) (c_crt c) (c_hi c) (c_lo c) (c_uart c) (c_sent c) (c_buf c) (c_r c) (c_w c) (c_e c) (c_shift c) (h_buf c) (h_r c) (h_w c) (h_intab c) v (h_last c).
Definition set_last v c := Console (c_panicked c) (c_crt c) (c_hi c) (c_lo c) (c_uart c) (c_sent c) (c_buf c) (c_r c) (c_w c) (c_e c) (c_shift c) (h_buf c) (h_r c) (h_w c) (h_intab c) (h_tmp c) v.

Local Notation C := (K console).

(** ** The screen *)

(** [inb(CRTPORT + 1)] for the registers 14 and 15. *)
Definition getpos : C Z := c ← kget; mret (Z.lor (Z.shiftl (c_hi c) 8) (c_lo c)).

(** [outb] writes the low 8 bits. *)
Definition setpos (pos : Z) : C unit := kmodify (set_cursor (u8 (Z.shiftr pos 8)) (u8 pos)).

(** [crt[pos] = v] *)
Definition store_crt (pos v : Z) : C unit :=
  c ← kget;
  if (0 <=? pos) && (pos <? Z.of_nat (length (c_crt c)))
  then kput (set_crt (<[Z.to_nat pos := v]> (c_crt c)) c)
  else kundef "crt".

Definition glyph (ch : Z) : Z := Z.lor (Z.land ch 255) 1792.
Definition blank : Z := glyph 32.

Definition conserasechar (pos : Z) : C unit := store_crt pos blank.
Definition conswritechar (pos ch : Z) : C unit := store_crt pos (glyph ch).

(** [memmove(crt, crt + 80, ...)] of 23 lines and [memset] of the rest of line 23. *)
Definition scroll (pos : Z) (crt : list Z) : list Z :=
  let moved := take 1840 (drop 80 crt) ++ drop 1840 crt in
  take (Z.to_nat pos) moved ++ replicate (Z.to_nat (1920 - pos)) 0 ++ drop 1920 moved.

Definition cgaputc (ch : Z) : C unit :=
  pos ← getpos;
  pos ← (if ch =? CH_NL then mret (pos + (80 - pos mod 80))
         else if ch =? BACKSPACE then mret (if 0 <? pos then pos - 1 else pos)
         else store_crt pos (glyph ch);; mret (pos + 1));
  if (pos <? 0) || (25 * 80 <? pos) then kpanic "pos under/overflow" else
  pos ← (if 24 <=? pos / 80 then
           kmodify (λ c, set_crt (scroll (pos - 80) (c_crt c)) c);; mret (pos - 80)
         else mret pos);
  setpos pos;;
  conserasechar pos.

(** The wait for the transmitter is a delay of at most 128 polls. *)
Definition uartputc (ch : Z) : C unit :=
  kmodify (λ c, if c_uart c =? 0 then c else set_sent (c_sent c ++ [u8 ch]) c).

Definition consputc (ch : Z) : C unit :=
  p ← kgets c_panicked;
  if negb (p =? 0) then kspin else
  (if ch =? BACKSPACE then uartputc 8;; uartputc 32;; uartputc 8 else uartputc ch);;
  cgaputc ch.

(** ** The input line *)

(** [input.buf[k % INPUT_BUF]] *)
Definition slot (k : Z) : nat := Z.to_nat (k mod INPUT_BUF).
Definition get_in (k : Z) : C Z := c ← kget; mret (c_buf c !!! slot (u32 k)).
Definition put_in (k v : Z) : C unit := kmodify (λ c, set_buf (<[slot (u32 k) := v]> (c_buf c)) c).

(** One more character at the end of the input: [input.buf[input.e++ % INPUT_BUF] = ch]
    and its echo. *)
Definition append_in (ch : Z) : C unit :=
  e ← kgets c_e;
  kmodify (set_e (u32 (e + 1)));;
  put_in e ch;;
  consputc ch.

(** The loop over a string that ends at its NUL or after [INPUT_BUF] characters. *)
Fixpoint append_all (n : nat) (s : list Z) : C unit :=
  match n, s with
  | O, _ => mret tt
  | S _, [] => kundef "string without end"
  | S n', ch :: s' => if ch =? 0 then mret tt else append_in ch;; append_all n' s'
  end.

Definition consputs (s : list Z) : C unit := append_all (Z.to_nat INPUT_BUF) s.

Definition movpostoend : C unit := pos ← getpos; c ← kget; setpos (pos + c_shift c).
Definition movpostoleft : C unit := pos ← getpos; setpos (pos - 1).
Definition movpostoright : C unit := pos ← getpos; setpos (pos + 1).
Definition movpostostart : C unit :=
  kmodify (λ c, set_shift (u32 (c_e c - c_w c)) c);;
  pos ← getpos; c ← kget; setpos (pos - c_shift c).

Fixpoint erase_loop (fuel : nat) : C unit :=
  match fuel with
  | O => knofuel
  | S fuel' =>
      c ← kget;
      if c_e c =? c_w c then mret tt else
      ch ← get_in (c_e c - 1);
      if ch =? CH_NL then mret tt else
      kmodify (set_e (u32 (c_e c - 1)));;
      consputc BACKSPACE;;
      erase_loop fuel'
  end.

Definition conseraseline : C unit :=
  movpostoend;;
  kmodify (set_shift 0);;
  c ← kget;
  erase_loop (S (Z.to_nat (u32 (c_e c - c_w c)))).

Fixpoint consclear_loop (n : nat) : C unit :=
  match n with
  | O => mret tt
  | S n' => conserasechar (Z.of_nat n');; consclear_loop n'
  end.

Definition consclear : C unit := pos ← getpos; consclear_loop (S (Z.to_nat pos)).

Definition consnewcommand : C unit := conswritechar 0 36;; setpos 2.

Definition inputshiftleft : C unit :=
  c ← kget;
  kfor_ (rev (seq 2 (Z.to_nat (s32 (c_shift c + 1) - 1)))) (λ i,
    v ← get_in (c_e c - Z.of_nat i + 1);
    put_in (c_e c - Z.of_nat i) v);;
  kmodify (λ c, set_e (u32 (c_e c - 1)) c).

Definition inputshiftright : C unit :=
  c ← kget;
  kfor_ (seq 0 (Z.to_nat (c_shift c))) (λ i,
    v ← get_in (c_e c - Z.of_nat i - 1);
    put_in (c_e c - Z.of_nat i) v).

Definition consshiftleft : C unit :=
  movpostoend;;
  c ← kget;
  kfor_ (seq 0 (Z.to_nat (c_shift c + 1))) (λ _, consputc BACKSPACE);;
  kfor_ (rev (seq 1 (Z.to_nat (s32 (c_shift c))))) (λ i,
    ch ← get_in (c_e c - Z.of_nat i); consputc ch);;
  pos ← getpos;
  setpos (pos - c_shift c).

Definition consshiftright : C unit :=
  movpostoend;;
  c ← kget;
  kfor_ (seq 0 (Z.to_nat (c_shift c))) (λ _, consputc BACKSPACE);;
  kfor_ (rev (seq 0 (Z.to_nat (s32 (c_shift c) + 1)))) (λ i,
    ch ← get_in (c_e c - Z.of_nat i); consputc ch);;
  pos ← getpos;
  setpos (pos - c_shift c).

Definition inputputc (ch : Z) : C unit :=
  c ← kget;
  (if c_shift c =? 0 then put_in (c_e c) ch;; consputc ch
   else
     inputshiftright;;
     put_in (c_e c - c_shift c) ch;;
     consshiftright);;
  kmodify (λ c, set_e (u32 (c_e c + 1)) c).

Definition is_digit (ch : Z) : bool := (48 <=? ch) && (ch <=? 57).

(** The array [line] of [delnums]: its entries so far; [INPUT_BUF] fit. *)
Fixpoint delnums_loop (n : nat) (idx : Z) (line : list Z) : C (list Z) :=
  match n with
  | O => if Z.of_nat (length line) <? INPUT_BUF then mret (line ++ [0]) else kundef "line"
  | S n' =>
      c ← kget;
      ch ← get_in (c_w c + idx);
      if is_digit ch then delnums_loop n' (idx + 1) line
      else if Z.of_nat (length line) <? INPUT_BUF then delnums_loop n' (idx + 1) (line ++ [ch])
      else kundef "line"
  end.

Definition delnums : C unit :=
  c ← kget;
  line ← delnums_loop (Z.to_nat (u32 (c_e c - c_w c))) 0 [];
  conseraseline;;
  consputs line.

(** ** The command history *)

(** [cmds.buf[i]] *)
Definition get_cmd (i : Z) : C (list Z) :=
  c ← kget;
  match (if 0 <=? i then h_buf c !! Z.to_nat i else None) with
  | Some cmd => mret cmd
  | None => kundef "cmds.buf"
  end.

(** The current line as [storecmd] and [copycmd] read it, without reducing the
    indices: it must lie in the array, and so must the copy. *)
Definition plain_line : C (list Z) :=
  c ← kget;
  if c_e c <=? c_w c then mret (replicate (Z.to_nat INPUT_BUF) 0)
  else if INPUT_BUF <? c_e c then kundef "input.buf"
  else
    let line := take (Z.to_nat (c_e c - c_w c)) (drop (Z.to_nat (c_w c)) (c_buf c)) in
    mret (line ++ replicate (Z.to_nat INPUT_BUF - length line) 0).

Definition storecmd : C unit :=
  c ← kget;
  kfor_ (rev (seq 1 (Z.to_nat (h_w c - 1)))) (λ i,
    cmd ← get_cmd (Z.of_nat i - 1);
    kmodify (λ c, set_hbuf (<[i := cmd]> (h_buf c)) c));;
  line ← plain_line;
  kmodify (λ c, set_hbuf (<[0%nat := line]> (h_buf c)) c).

Definition loadcmd : C unit :=
  conseraseline;;
  c ← kget;
  cmd ← get_cmd (h_r c - 1);
  append_all (Z.to_nat INPUT_BUF) cmd.

Definition copycmd : C unit := line ← plain_line; kmodify (set_tmp line).

Definition recovercmd : C unit :=
  conseraseline;;
  c ← kget;
  append_all (Z.to_nat INPUT_BUF) (h_tmp c).

(** [ispred(cmd, input, size)]: both arrays are read as far as they agree. *)
Fixpoint ispred (cmd input : list Z) (size : nat) : C bool :=
  match size with
  | O => mret true
  | S size' =>
      match cmd, input with
      | x :: cmd', y :: input' => if x =? y then ispred cmd' input' size' else mret false
      | _, _ => kundef "ispred"
      end
  end.

Definition getpred (size lastusedidx : Z) : C Z :=
  c ← kget;
  r ← kfor (seq (Z.to_nat lastusedidx) (Z.to_nat (h_w c - lastusedidx))) (λ i,
    cmd ← get_cmd (Z.of_nat i);
    b ← ispred cmd (drop (Z.to_nat (c_w c)) (c_buf c)) (Z.to_nat size);
    mret (if (b : bool) then Some (Z.of_nat i) else None));
  mret (default (-1) r).

Definition predcmd : C unit :=
  c ← kget;
  predicted ←
    (if h_intab c =? 0 then
       kmodify (set_last 0);;
       p ← getpred (u32 (c_e c - c_w c)) 0;
       copycmd;;
       mret p
     else getpred (u32 (c_e c - c_w c)) (h_last c + 1));
  if 0 <=? predicted then
    kmodify (set_intab 1);;
    kmodify (set_last predicted);;
    conseraseline;;
    cmd ← get_cmd predicted;
    consputs cmd
  else mret tt.

Definition resetcmds : C unit :=
  kmodify (set_intab 0);;
  kmodify (λ c, set_tmp (<[0%nat := 0]> (h_tmp c)) c);;
  kmodify (set_last 0);;
  kmodify (λ c, set_hw (if COMMAND_BUF <? h_w c + 1 then COMMAND_BUF else h_w c + 1) c);;
  storecmd;;
  kmodify (set_hr 0);;
  movpostoend.

(** ** Keys *)

Definition Ctrl (ch : Z) : Z := ch - 64.
Definition ARROW_UP : Z := 226.
Definition ARROW_DOWN : Z := 227.
Definition TAB : Z := 9.

(** [input.e - input.r < INPUT_BUF] *)
Definition has_room (c : console) : bool := u32 (c_e c - c_r c) <? INPUT_BUF.

(** The default case; the result says whether the line is complete. *)
Definition put_key (ch : Z) : C bool :=
  c ← kget;
  if negb (ch =? 0) && has_room c then
    let ch := if ch =? 13 then CH_NL else ch in
    (if (ch =? CH_NL) && (0 <? u32 (c_e c - c_w c)) then
       resetcmds;; kmodify (set_shift 0)
     else mret tt);;
    inputputc (s8 ch);;
    c ← kget;
    if (ch =? CH_NL) || (ch =? Ctrl 68) || (c_e c =? u32 (c_r c + INPUT_BUF)) then
      kmodify (λ c, set_w (c_e c) c);;
      mret true
    else mret false
  else mret false.

(** The [switch] of [consoleintr] for all keys but [C('P')]. *)
Definition handle_key (ch : Z) : C bool :=
  c ← kget;
  if ch =? Ctrl 85 then conseraseline;; mret false
  else if (ch =? Ctrl 72) || (ch =? 127) then
    (if c_w c <? u32 (c_e c - c_shift c) then inputshiftleft;; consshiftleft else mret tt);;
    mret false
  else if ch =? Ctrl 76 then conseraseline;; consclear;; consnewcommand;; mret false
  else if ch =? Ctrl 66 then
    (if c_shift c <? u32 (c_e c - c_w c)
     then kmodify (set_shift (u32 (c_shift c + 1)));; movpostoleft else mret tt);;
    mret false
  else if ch =? Ctrl 70 then
    (if 0 <? c_shift c then kmodify (set_shift (c_shift c - 1));; movpostoright else mret tt);;
    mret false
  else if ch =? Ctrl 78 then delnums;; mret false
  else if ch =? Ctrl 65 then
    (if c_shift c <? u32 (c_e c - c_w c)
     then movpostostart;; kmodify (λ c, set_shift (u32 (c_e c - c_w c)) c) else mret tt);;
    mret false
  else if ch =? Ctrl 69 then movpostoend;; kmodify (set_shift 0);; mret false
  else if ch =? ARROW_UP then
    (if h_r c =? 0 then copycmd else mret tt);;
    kmodify (set_hr (h_r c + 1));;
    (if h_w c <? h_r c + 1 then kmodify (set_hr (h_w c)) else loadcmd);;
    mret false
  else if ch =? ARROW_DOWN then
    kmodify (set_hr (h_r c - 1));;
    (if 0 <? h_r c - 1 then loadcmd else kmodify (set_hr 0);; recovercmd);;
    mret false
  else if ch =? TAB then predcmd;; mret false
  else put_key ch.

(** ** Drawing *)

Definition pos_of (c : console) : Z := Z.lor (Z.shiftl (c_hi c) 8) (c_lo c).
Definition at_pos (pos : Z) : console → console := set_cursor (u8 (Z.shiftr pos 8)) (u8 pos).

Lemma pos_at_pos pos c : 0 ≤ pos < 2 ^ 16 → pos_of (at_pos pos c) = pos.
Proof.
  intros Hp. unfold pos_of, at_pos, u8. cbn [c_hi c_lo set_cursor]. apply Z.bits_inj'. intros n Hn.
  rewrite Z.lor_spec, Z.shiftl_spec by done. destruct (Z.ltb_spec n 8).
  - by rewrite Z.testbit_neg_r, Z.mod_pow2_bits_low by lia.
  - rewrite (Z.mod_pow2_bits_high pos) by lia. rewrite orb_false_r. destruct (Z.ltb_spec (n - 8) 8).
    + rewrite Z.mod_pow2_bits_low, Z.shiftr_spec by lia. f_equal. lia.
    + rewrite Z.mod_pow2_bits_high by lia. symmetry. apply Z.bits_above_log2; [lia|].
      destruct (decide (pos = 0)) as [->|]; [simpl; lia|]. apply Z.log2_lt_pow2; [lia|].
      eapply Z.lt_le_trans; [apply Hp|]. apply Z.pow_le_mono_r; lia.
Qed.

(** Only the screen and the serial line changed. *)
Definition drawn (c c' : console) : Prop :=
  ∃ crt h l sent, c' = set_sent sent (set_cursor h l (set_crt crt c)).

Lemma drawn_refl c : drawn c c.
Proof. exists (c_crt c), (c_hi c), (c_lo c), (c_sent c). by destruct c. Qed.

Lemma drawn_trans c1 c2 c3 : drawn c1 c2 → drawn c2 c3 → drawn c1 c3.
Proof. intros (?&?&?&?&->) (?&?&?&?&->). unfold drawn. cbn. by do 4 eexists. Qed.

Lemma drawn_at_pos pos c c' : drawn c c' → drawn c (at_pos pos c').
Proof. intros (?&?&?&?&->). unfold drawn. cbn. by do 4 eexists. Qed.

Lemma drawn_crt crt c c' : drawn c c' → drawn c (set_crt crt c').
Proof. intros (?&?&?&?&->). unfold drawn. cbn. by do 4 eexists. Qed.

Lemma drawn_sent sent c c' : drawn c c' → drawn c (set_sent sent c').
Proof. intros (?&?&?&?&->). unfold drawn. cbn. by do 4 eexists. Qed.

#[local] Hint Resolve drawn_refl drawn_at_pos drawn_crt drawn_sent : core.
#[local] Hint Extern 3 (drawn ?a ?c) =>
  match goal with H : drawn ?b c |- _ => apply (drawn_trans a b c); [|exact H] end : core.

(** The cells from [base] on show [l]. *)
Definition shown (crt : list Z) (base : Z) (l : list Z) : Prop :=
  ∀ j ch, l !! j = Some ch → crt !! Z.to_nat (base + Z.of_nat j) = Some (glyph ch).

Record screen (c : console) : Prop := Screen {
  sc_run : c_panicked c = 0;
  sc_crt : length (c_crt c) = 2000%nat
}.

(** The text [l] starts at [base] and the cursor is behind it. *)
Record shows (c : console) (base : Z) (l : list Z) : Prop := Shows {
  sh_screen : screen c;
  sh_base : 0 ≤ base;
  sh_fit : base + Z.of_nat (length l) < 1920;
  sh_pos : pos_of c = base + Z.of_nat (length l);
  sh_shown : shown (c_crt c) base l
}.

Lemma uart_drawn ch c : ∃ sent, uartputc ch c = Ok tt (set_sent sent c).
Proof.
  unfold uartputc, kmodify. destruct (c_uart c =? 0).
  - exists (c_sent c). by destruct c.
  - by eexists.
Qed.

Lemma consputc_cga ch c :
  c_panicked c = 0 → ∃ sent, consputc ch c = cgaputc ch (set_sent sent c).
Proof.
  intros Hp. unfold consputc. rewrite bind_kgets, Hp. cbn [Z.eqb negb].
  destruct (ch =? BACKSPACE).
  - destruct (uart_drawn 8 c) as [s1 E1]. destruct (uart_drawn 32 (set_sent s1 c)) as [s2 E2].
    destruct (uart_drawn 8 (set_sent s2 (set_sent s1 c))) as [s3 E3]. exists s3.
    unfold mbind, K_bind. rewrite E1. cbn [rbind]. rewrite E2. cbn [rbind]. by rewrite E3.
  - destruct (uart_drawn ch c) as [s1 E1]. exists s1. by rewrite (bind_ok _ _ _ _ _ E1).
Qed.

Lemma store_crt_ok pos v c :
  screen c → 0 ≤ pos < 2000 → store_crt pos v c = Ok tt (set_crt (<[Z.to_nat pos := v]> (c_crt c)) c).
Proof.
  intros [_ Hl] Hp. unfold store_crt, mbind, K_bind, kget. cbn [rbind]. rewrite Hl.
  rewrite (proj2 (Z.leb_le 0 pos)), (proj2 (Z.ltb_lt pos (Z.of_nat 2000))) by lia. done.
Qed.

Lemma length_scroll pos crt :
  0 ≤ pos ≤ 1920 → length crt = 2000%nat → length (scroll pos crt) = 2000%nat.
Proof.
  intros Hp Hl. unfold scroll. rewrite !length_app, length_take, length_replicate, length_drop, !length_app, !length_take, !length_drop, Hl. lia.
Qed.

Lemma scroll_lookup crt (n : nat) :
  length crt = 2000%nat → (n < 1840)%nat → scroll 1840 crt !! n = crt !! (n + 80)%nat.
Proof.
  intros Hl Hn. unfold scroll. change (Z.to_nat 1840) with 1840%nat.
  rewrite lookup_app_l by (rewrite length_take, length_app, length_take, !length_drop, Hl; lia).
  rewrite lookup_take_lt by done.
  rewrite lookup_app_l by (rewrite length_take, length_drop, Hl; lia).
  rewrite lookup_take_lt by done. rewrite lookup_drop. f_equal. lia.
Qed.

(** The end of [cgaputc], for a position above the last line. *)
Lemma cga_finish pos c :
  screen c → 0 ≤ pos < 1920 →
  (setpos pos;; conserasechar pos) c = Ok tt (set_crt (<[Z.to_nat pos := blank]> (c_crt c)) (at_pos pos c)).
Proof.
  intros Hs Hp. unfold setpos. rewrite bind_kmodify. fold (at_pos pos).
  unfold conserasechar. rewrite store_crt_ok; [done| |lia]. by destruct Hs.
Qed.

Lemma screen_crt crt c : length crt = length (c_crt c) → screen c → screen (set_crt crt c).
Proof. intros Hl [H1 H2]. split; [done|]. cbn. by rewrite Hl. Qed.

Lemma cga_char ch c :
  screen c → 0 ≤ pos_of c < 1919 → ch ≠ CH_NL → ch ≠ BACKSPACE →
  let p := pos_of c in
  cgaputc ch c = Ok tt (set_crt (<[Z.to_nat (p + 1) := blank]> (<[Z.to_nat p := glyph ch]> (c_crt c))) (at_pos (p + 1) c)).
Proof.
  intros Hs Hp H1 H2 p. subst p. apply Z.eqb_neq in H1, H2. unfold cgaputc.
  rewrite (bind_ok getpos _ c (pos_of c) c) by done. rewrite H1, H2.
  erewrite bind_ok; [|unfold mbind at 1, K_bind; rewrite store_crt_ok by (done || lia); done].
  rewrite (proj2 (Z.ltb_ge (pos_of c + 1) 0)), (proj2 (Z.ltb_ge (25 * 80) (pos_of c + 1))) by lia. cbn [orb].
  assert ((pos_of c + 1) / 80 < 24) by (apply Z.div_lt_upper_bound; lia).
  rewrite (proj2 (Z.leb_gt 24 ((pos_of c + 1) / 80))) by done. rewrite bind_mret.
  rewrite cga_finish; [done| |lia]. apply screen_crt; [by rewrite length_insert|done].
Qed.

Lemma cga_char_scroll ch c :
  screen c → pos_of c = 1919 → ch ≠ CH_NL → ch ≠ BACKSPACE →
  cgaputc ch c = Ok tt (set_crt (<[1840%nat := blank]> (scroll 1840 (<[1919%nat := glyph ch]> (c_crt c)))) (at_pos 1840 c)).
Proof.
  intros Hs Hp H1 H2. apply Z.eqb_neq in H1, H2. unfold cgaputc.
  rewrite (bind_ok getpos _ c (pos_of c) c) by done. rewrite H1, H2, Hp.
  erewrite bind_ok; [|unfold mbind at 1, K_bind; rewrite store_crt_ok by (done || lia); done].
  change ((1919 + 1 <? 0) || (25 * 80 <? 1919 + 1)) with false. cbn iota.
  change (24 <=? (1919 + 1) / 80) with true. cbn iota. erewrite bind_ok; [|done].
  change (1919 + 1 - 80) with 1840. rewrite cga_finish; [done| |lia].
  apply screen_crt; [|apply screen_crt; [by rewrite length_insert|done]].
  cbn [c_crt set_crt]. rewrite length_scroll; [|lia|rewrite length_insert; by destruct Hs].
  rewrite length_insert. by destruct Hs.
Qed.

Lemma cga_back c :
  screen c → 0 < pos_of c < 1920 →
  let p := pos_of c - 1 in cgaputc BACKSPACE c = Ok tt (set_crt (<[Z.to_nat p := blank]> (c_crt c)) (at_pos p c)).
Proof.
  intros Hs Hp p. subst p. unfold cgaputc.
  rewrite (bind_ok getpos _ c (pos_of c) c) by done.
  change (BACKSPACE =? CH_NL) with false. change (BACKSPACE =? BACKSPACE) with true. cbn iota.
  rewrite (proj2 (Z.ltb_lt 0 (pos_of c))) by lia. rewrite bind_mret.
  rewrite (proj2 (Z.ltb_ge (pos_of c - 1) 0)), (proj2 (Z.ltb_ge (25 * 80) (pos_of c - 1))) by lia. cbn [orb].
  assert ((pos_of c - 1) / 80 < 24) by (apply Z.div_lt_upper_bound; lia).
  rewrite (proj2 (Z.leb_gt 24 ((pos_of c - 1) / 80))) by done. rewrite bind_mret.
  rewrite cga_finish; [done|done|lia].
Qed.

(** A new line scrolls exactly when the cursor is on the last line but one. *)
Lemma cga_newline c :
  screen c → 0 ≤ pos_of c < 1920 →
  wp (cgaputc CH_NL) (λ _ c', drawn c c' ∧ screen c' ∧ 0 ≤ pos_of c' < 1920 ∧ pos_of c' mod 80 = 0) c.
Proof.
  intros Hs Hp. unfold cgaputc. pose proof (Z.div_mod (pos_of c) 80 ltac:(lia)).
  pose proof (Z.mod_pos_bound (pos_of c) 80 ltac:(lia)).
  eapply wp_run; [done|]. fold (pos_of c). change (CH_NL =? CH_NL) with true. cbn iota. eapply wp_run; [done|].
  assert (pos_of c + (80 - pos_of c mod 80) = 80 * (pos_of c / 80 + 1)) as -> by lia.
  set (r := pos_of c / 80) in *. rewrite (Z.mul_comm 80 (r + 1)), Z.div_mul by lia.
  rewrite (proj2 (Z.ltb_ge ((r + 1) * 80) 0)), (proj2 (Z.ltb_ge (25 * 80) ((r + 1) * 80))) by lia. cbn [orb].
  destruct (Z.leb_spec 24 (r + 1)).
  - assert (r = 23) as -> by lia. eapply wp_run; [done|]. change ((23 + 1) * 80 - 80) with 1840.
    assert (screen (set_crt (scroll 1840 (c_crt c)) c)) as Hs'.
    { apply screen_crt; [|done]. rewrite length_scroll; [by destruct Hs|lia|by destruct Hs]. }
    unfold wp. rewrite cga_finish; [|done|lia]. do 2 eexists. split; [done|]. split; [|split; [|split]].
    + eauto.
    + apply screen_crt; [by rewrite length_insert|]. by destruct Hs'.
    + change (pos_of (set_crt ?x ?y)) with (pos_of y). rewrite pos_at_pos; lia.
    + change (pos_of (set_crt ?x ?y)) with (pos_of y). by rewrite pos_at_pos by lia.
  - eapply wp_run; [done|]. unfold wp. rewrite cga_finish; [|done|lia]. do 2 eexists. split; [done|]. split; [|split; [|split]].
    + eauto.
    + apply screen_crt; [by rewrite length_insert|]. by destruct Hs.
    + change (pos_of (set_crt ?x ?y)) with (pos_of y). rewrite pos_at_pos; lia.
    + change (pos_of (set_crt ?x ?y)) with (pos_of y). rewrite pos_at_pos by lia. by rewrite Z.mod_mul.
Qed.

(** The text moved up by some lines. *)
Definition scrolled (base base' : Z) : Prop := ∃ k, 0 ≤ k ∧ base' = base - 80 * k.

Lemma scrolled_refl base : scrolled base base.
Proof. exists 0. lia. Qed.

Lemma scrolled_trans b1 b2 b3 : scrolled b1 b2 → scrolled b2 b3 → scrolled b1 b3.
Proof. intros (k & ? & ->) (k' & ? & ->). exists (k + k'). lia. Qed.

#[local] Hint Resolve scrolled_refl : core.
#[local] Hint Extern 3 (scrolled ?a ?c) =>
  match goal with H : scrolled ?b c |- _ => apply (scrolled_trans a b c); [|exact H] end : core.

(** Characters a line consists of. *)
Definition plain (ch : Z) : Prop := - 128 ≤ ch < 128 ∧ ch ≠ CH_NL ∧ ch ≠ 0.

Lemma plain_keys ch : plain ch → ch ≠ CH_NL ∧ ch ≠ BACKSPACE.
Proof. unfold plain, BACKSPACE. lia. Qed.

Lemma shown_app crt base l l' :
  shown crt base (l ++ l') ↔ shown crt base l ∧ shown crt (base + Z.of_nat (length l)) l'.
Proof.
  split; [intros H; split|intros [H1 H2]]; intros j ch Hj.
  - apply H. by apply lookup_app_l_Some.
  - replace (base + Z.of_nat (length l) + Z.of_nat j) with (base + Z.of_nat (length l + j)) by lia.
    apply H. by rewrite lookup_app_r, Nat.add_comm, Nat.add_sub by lia.
  - apply lookup_app_Some in Hj as [Hj|[? Hj]]; [by apply H1|].
    replace (base + Z.of_nat j) with (base + Z.of_nat (length l) + Z.of_nat (j - length l)) by lia. by apply H2.
Qed.

(** A store behind the text leaves it. *)
Lemma shown_insert crt base l pos v :
  0 ≤ base → base + Z.of_nat (length l) ≤ pos → shown crt base l → shown (<[Z.to_nat pos := v]> crt) base l.
Proof.
  intros Hb Hp H j ch Hj. pose proof (lookup_lt_Some _ _ _ Hj). rewrite list_lookup_insert_ne by lia. by apply H.
Qed.

Lemma shown_last crt base l ch :
  crt !! Z.to_nat (base + Z.of_nat (length l)) = Some (glyph ch) → shown crt base l → shown crt base (l ++ [ch]).
Proof.
  intros H1 H2. apply shown_app. split; [done|]. intros j x Hj.
  apply list_lookup_singleton_Some in Hj as [-> ->]. by rewrite Z.add_0_r.
Qed.

Lemma shows_sent sent c base l : shows c base l → shows (set_sent sent c) base l.
Proof. intros [[] ? ? ? ?]. by split. Qed.

Lemma put_char ch c base l :
  shows c base l → plain ch → (length l < 200)%nat →
  wp (consputc ch) (λ _ c', drawn c c' ∧ ∃ base', scrolled base base' ∧ shows c' base' (l ++ [ch])) c.
Proof.
  intros Hsh [H1 H2]%plain_keys Hl. destruct (consputc_cga ch c (sc_run _ (sh_screen _ _ _ Hsh))) as [sent E].
  apply (shows_sent sent) in Hsh. pose proof (drawn_sent sent c c (drawn_refl c)) as Hd. set (c1 := set_sent sent c) in *.
  unfold wp. rewrite E. clearbody c1. destruct Hsh as [Hs Hb Hf Hp Hsh].
  set (n := Z.of_nat (length l)) in *.
  destruct (decide (pos_of c1 = 1919)) as [E9|Hne].
  - rewrite cga_char_scroll by done. do 2 eexists. split; [done|]. split; [eauto|]. exists (base - 80).
    split; [exists 1; lia|]. change (pos_of (set_crt ?x ?y)) with (pos_of y).
    assert (length (<[1919%nat := glyph ch]> (c_crt c1)) = 2000%nat) as Hlen by (rewrite length_insert; by destruct Hs).
    split.
    + destruct Hs. split; [done|]. cbn [c_crt set_crt]. rewrite length_insert, length_scroll; [done|lia|done].
    + lia.
    + rewrite length_app. simpl. lia.
    + change (pos_of (set_crt ?x ?y)) with (pos_of y). rewrite pos_at_pos, length_app by lia. simpl. lia.
    + cbn [c_crt set_crt]. intros j x Hj. pose proof (lookup_lt_Some _ _ _ Hj) as Hlt. rewrite length_app in Hlt. simpl in Hlt.
      rewrite list_lookup_insert_ne by lia. rewrite scroll_lookup by (done || lia).
      replace (Z.to_nat (base - 80 + Z.of_nat j) + 80)%nat with (Z.to_nat (base + Z.of_nat j)) by lia.
      revert j x Hj Hlt. assert (shown (<[1919%nat := glyph ch]> (c_crt c1)) base (l ++ [ch])) as H; [|intros; by apply H].
      apply shown_last; [|replace 1919%nat with (Z.to_nat 1919) by done; apply shown_insert; (done || lia)].
      replace (Z.to_nat _) with 1919%nat by lia. apply list_lookup_insert_eq. destruct Hs. lia.
  - rewrite cga_char by (done || lia). do 2 eexists. split; [done|]. split; [eauto|]. exists base. split; [done|].
    assert (length (<[Z.to_nat (pos_of c1) := glyph ch]> (c_crt c1)) = 2000%nat) as Hlen by (rewrite length_insert; by destruct Hs).
    split.
    + destruct Hs. split; [done|]. cbn [c_crt set_crt]. by rewrite length_insert.
    + done.
    + rewrite length_app. simpl. lia.
    + change (pos_of (set_crt ?x ?y)) with (pos_of y). rewrite pos_at_pos, length_app by lia. simpl. lia.
    + cbn [c_crt set_crt]. apply shown_insert; [done|rewrite length_app; simpl; lia|]. apply shown_last.
      * fold n. rewrite <- Hp. apply list_lookup_insert_eq. destruct Hs. lia.
      * apply shown_insert; [done|lia|done].
Qed.

Lemma back_char c base l ch :
  shows c base (l ++ [ch]) → wp (consputc BACKSPACE) (λ _ c', drawn c c' ∧ shows c' base l) c.
Proof.
  intros Hsh. destruct (consputc_cga BACKSPACE c (sc_run _ (sh_screen _ _ _ Hsh))) as [sent E].
  apply (shows_sent sent) in Hsh. pose proof (drawn_sent sent c c (drawn_refl c)) as Hd. set (c1 := set_sent sent c) in *.
  unfold wp. rewrite E. clearbody c1. destruct Hsh as [Hs Hb Hf Hp Hsh]. rewrite length_app in Hp, Hf. simpl in Hp, Hf.
  rewrite cga_back by (done || lia). do 2 eexists. split; [done|]. split; [eauto|]. split.
  - destruct Hs. split; [done|]. cbn [c_crt set_crt]. by rewrite length_insert.
  - done.
  - lia.
  - change (pos_of (set_crt ?x ?y)) with (pos_of y). rewrite pos_at_pos; lia.
  - cbn [c_crt set_crt]. apply shown_insert; [done|lia|]. apply shown_app in Hsh. apply Hsh.
Qed.

Lemma get_in_drawn k c c' : drawn c c' → get_in k c' = Ok (c_buf c !!! slot (u32 k)) c'.
Proof. by intros (?&?&?&?&->). Qed.

(** Printing characters of the input buffer. *)
Lemma draw_loop (k : nat → Z) c0 js xs c base l :
  drawn c0 c → shows c base l →
  Forall2 (λ i x, c_buf c0 !!! slot (u32 (k i)) = x ∧ plain x) js xs → (length l + length xs < 200)%nat →
  wp (kfor_ js (λ i, ch ← get_in (k i); consputc ch))
     (λ _ c', drawn c0 c' ∧ ∃ base', scrolled base base' ∧ shows c' base' (l ++ xs)) c.
Proof.
  intros Hd Hsh HF. revert c base l Hd Hsh. induction HF as [|i x js xs [Hx Hpl] HF IH]; intros c base l Hd Hsh Hl.
  - apply wp_ret. rewrite app_nil_r. eauto.
  - simpl in Hl. cbn [kfor_]. eapply wp_step.
    + eapply wp_run; [by apply (get_in_drawn _ c0)|]. rewrite Hx. apply (put_char _ _ base l Hsh Hpl). lia.
    + intros [] c1 (Hd1 & b1 & Hb1 & Hsh1). eapply wp_mono; [apply (IH c1 b1); [auto|exact Hsh1|]|].
      * rewrite length_app. simpl. lia.
      * intros [] c2 (Hd2 & b2 & Hb2 & Hsh2). rewrite <- app_assoc in Hsh2. split; [done|]. exists b2. auto.
Qed.

Lemma back_loop js xs c base l :
  shows c base (l ++ xs) → length js = length xs →
  wp (kfor_ js (λ _, consputc BACKSPACE)) (λ _ c', drawn c c' ∧ shows c' base l) c.
Proof.
  revert xs c. induction js as [|i js IH]; intros xs c Hsh Hl.
  - destruct xs; [|done]. rewrite app_nil_r in Hsh. apply wp_ret. eauto.
  - destruct xs as [|x xs _] using rev_ind; [done|]. rewrite length_app in Hl. simpl in Hl. rewrite app_assoc in Hsh.
    cbn [kfor_]. eapply wp_step; [by eapply back_char|]. intros [] c1 [Hd1 Hsh1].
    eapply wp_mono; [eapply (IH xs); [done|lia]|]. intros [] c2 [Hd2 Hsh2]. eauto.
Qed.

(** ** The line in the ring *)

(** The entries of the buffer from counter [r] on are [l]. *)
Definition ring (buf : list Z) (r : Z) (l : list Z) : Prop :=
  ∀ j ch, l !! j = Some ch → buf !! slot (r + Z.of_nat j) = Some ch.

Lemma slot_lt k : (slot k < 128)%nat.
Proof. unfold slot, INPUT_BUF. pose proof (Z.mod_pos_bound k 128). lia. Qed.

Lemma slot_ne r (j j' : nat) :
  (j < 128)%nat → (j' < 128)%nat → j ≠ j' → slot (r + Z.of_nat j) ≠ slot (r + Z.of_nat j').
Proof.
  unfold slot, INPUT_BUF. intros Hj Hj' Hne E. apply Hne.
  pose proof (Z.mod_pos_bound (r + Z.of_nat j) 128). pose proof (Z.mod_pos_bound (r + Z.of_nat j') 128).
  assert ((r + Z.of_nat j) mod 128 = (r + Z.of_nat j') mod 128) as E' by lia.
  assert (((r + Z.of_nat j) - (r + Z.of_nat j')) mod 128 = 0) as Hz by (rewrite Zminus_mod, E', Z.sub_diag; done).
  replace (r + Z.of_nat j - (r + Z.of_nat j')) with (Z.of_nat j - Z.of_nat j') in Hz by lia.
  apply Z.mod_divide in Hz as [m Hm]; [|done]. lia.
Qed.

Lemma ring_app buf r l l' : ring buf r (l ++ l') ↔ ring buf r l ∧ ring buf (r + Z.of_nat (length l)) l'.
Proof.
  split; [intros H; split|intros [H1 H2]]; intros j ch Hj.
  - apply H. by apply lookup_app_l_Some.
  - replace (r + Z.of_nat (length l) + Z.of_nat j) with (r + Z.of_nat (length l + j)) by lia.
    apply H. by rewrite lookup_app_r, Nat.add_comm, Nat.add_sub by lia.
  - apply lookup_app_Some in Hj as [Hj|[? Hj]]; [by apply H1|].
    replace (r + Z.of_nat j) with (r + Z.of_nat (length l) + Z.of_nat (j - length l)) by lia. by apply H2.
Qed.

(** A store into the entry between [l] and [l']. *)
Lemma ring_put buf r l y l' ch :
  length buf = 128%nat → (length (l ++ y :: l') ≤ 128)%nat → ring buf r l →
  ring buf (r + Z.of_nat (S (length l))) l' →
  ring (<[slot (r + Z.of_nat (length l)) := ch]> buf) r (l ++ ch :: l').
Proof.
  rewrite length_app. simpl. intros Hb Hn H1 H2 j x Hj.
  destruct (decide (j = length l)) as [->|Hne].
  - rewrite list_lookup_insert_eq by (rewrite Hb; apply slot_lt).
    rewrite lookup_app_r, Nat.sub_diag in Hj by done. done.
  - pose proof (lookup_lt_Some _ _ _ Hj) as Hlt. rewrite length_app in Hlt. simpl in Hlt.
    rewrite list_lookup_insert_ne by (apply slot_ne; lia).
    apply lookup_app_Some in Hj as [Hj|[Hge Hj]]; [by apply H1|].
    destruct (j - length l)%nat as [|m] eqn:Em; [lia|]. simpl in Hj.
    replace (r + Z.of_nat j) with (r + Z.of_nat (S (length l)) + Z.of_nat m) by lia. by apply H2.
Qed.

Lemma ring_set buf r l y l' ch :
  length buf = 128%nat → (length (l ++ y :: l') ≤ 128)%nat → ring buf r (l ++ y :: l') →
  ring (<[slot (r + Z.of_nat (length l)) := ch]> buf) r (l ++ ch :: l').
Proof.
  intros Hb Hn [H1 H2]%ring_app. eapply ring_put; [done|done|done|].
  change (y :: l') with ([y] ++ l') in H2. apply ring_app in H2 as [_ H2]. simpl in H2.
  by replace (r + Z.of_nat (S (length l))) with (r + Z.of_nat (length l) + 1) by lia.
Qed.

Lemma ring_snoc buf r l ch :
  length buf = 128%nat → (length l < 128)%nat → ring buf r l →
  ring (<[slot (r + Z.of_nat (length l)) := ch]> buf) r (l ++ [ch]).
Proof. intros Hb Hn H. apply (ring_put buf r l ch [] ch Hb); [rewrite length_app; simpl; lia|done|]. by intros j x. Qed.

Lemma ring_lookup buf r l y l' : ring buf r (l ++ y :: l') → buf !!! slot (r + Z.of_nat (length l)) = y.
Proof. intros H. apply list_lookup_total_correct, H. by rewrite lookup_app_r, Nat.sub_diag by done. Qed.

(** A store outside of a stretch leaves it. *)
Lemma ring_other buf r (m n : nat) l ch :
  (n < m ∨ m + length l ≤ n)%nat → (n < 128)%nat → (m + length l ≤ 128)%nat →
  ring buf (r + Z.of_nat m) l → ring (<[slot (r + Z.of_nat n) := ch]> buf) (r + Z.of_nat m) l.
Proof.
  intros Hmn Hn Hm H j x Hj. pose proof (lookup_lt_Some _ _ _ Hj).
  rewrite list_lookup_insert_ne; [by apply H|].
  replace (r + Z.of_nat m + Z.of_nat j) with (r + Z.of_nat (m + j)) by lia. apply slot_ne; lia.
Qed.

Lemma ring_cons buf r ch l : buf !! slot r = Some ch → ring buf (r + 1) l → ring buf r (ch :: l).
Proof.
  intros H1 H2 [|j] x Hj; simpl in Hj; [simplify_eq; by rewrite Z.add_0_r|].
  replace (r + Z.of_nat (S j)) with (r + 1 + Z.of_nat j) by lia. by apply H2.
Qed.

Lemma ring_0 buf r l : ring buf r l ↔ ring buf (r + Z.of_nat 0) l.
Proof. by rewrite Z.add_0_r. Qed.

(** The loop of [inputshiftright]: [P] is left to be moved, [T] has been. *)
Lemma shiftright_loop r e A P T c :
  0 ≤ r → r + Z.of_nat (length (A ++ P ++ T)) = e → e < 2 ^ 32 →
  (length (A ++ P ++ T) < 128)%nat → length (c_buf c) = 128%nat →
  ring (c_buf c) r (A ++ P) → ring (c_buf c) (r + Z.of_nat (length (A ++ P) + 1)) T →
  wp (kfor_ (seq (length T) (length P)) (λ i, v ← get_in (e - Z.of_nat i - 1); put_in (e - Z.of_nat i) v))
     (λ _ c', ∃ buf, c' = set_buf buf c ∧ length buf = 128%nat ∧ ring buf r A
        ∧ ring buf (r + Z.of_nat (length A + 1)) (P ++ T)) c.
Proof.
  revert T c. induction P as [|y P IH] using rev_ind; intros T c Hr He Hmax Hn Hlen H1 H2.
  - rewrite app_nil_r in *. apply wp_ret. exists (c_buf c). split; [by destruct c|]. done.
  - rewrite length_app, Nat.add_comm. cbn [seq length kfor_ Nat.add]. rewrite !length_app in He, Hn. simpl in He, Hn.
    assert (r + Z.of_nat (length (A ++ P)) = e - Z.of_nat (length T) - 1) as Ey by (rewrite length_app; lia).
    assert (c_buf c !!! slot (r + Z.of_nat (length (A ++ P))) = y) as Hy.
    { eapply (ring_lookup _ _ _ _ []). by rewrite <- app_assoc. }
    eapply wp_run.
    { unfold get_in. rewrite <- Ey, (u32_small (r + _)) by lia. unfold mbind, K_bind, kget. cbn [rbind]. rewrite Hy. done. }
    unfold put_in at 1. rewrite (u32_small (e - _)) by lia.
    replace (e - Z.of_nat (length T)) with (r + Z.of_nat (length (A ++ P) + 1)) by (rewrite length_app; lia).
    set (c1 := set_buf _ c). rewrite app_assoc in H1. apply ring_app in H1 as [H1 _].
    eapply wp_mono; [apply (IH (y :: T) c1)|].
    + done.
    + rewrite !length_app. simpl. lia.
    + done.
    + rewrite !length_app. simpl. lia.
    + subst c1. cbn [c_buf set_buf]. by rewrite length_insert.
    + subst c1. cbn [c_buf set_buf]. apply ring_0, ring_other; rewrite ?length_app; [lia|lia|lia|]. by apply ring_0 in H1.
    + subst c1. cbn [c_buf set_buf]. apply ring_cons.
      * apply list_lookup_insert_eq. rewrite Hlen. apply slot_lt.
      * replace (r + Z.of_nat (length (A ++ P) + 1) + 1) with (r + Z.of_nat (length (A ++ P) + 2)) by lia.
        apply ring_other; [lia|rewrite length_app; lia|rewrite length_app; lia|].
        by replace (length (A ++ P) + 2)%nat with (length (A ++ P ++ [y]) + 1)%nat by (rewrite !length_app; simpl; lia).
    + intros [] c2 (buf & -> & Hb & Q1 & Q2). exists buf. rewrite <- app_assoc. by destruct c.
Qed.

(** The loop of [inputshiftleft]: [P] has been moved over the deleted character,
    [T] is left. *)
Lemma shiftleft_loop r e A P T y c :
  0 ≤ r → r + Z.of_nat (length (A ++ P ++ y :: T)) = e → e < 2 ^ 32 →
  (length (A ++ P ++ y :: T) ≤ 128)%nat → length (c_buf c) = 128%nat →
  ring (c_buf c) r (A ++ P ++ y :: T) →
  wp (kfor_ (rev (seq 2 (length T))) (λ i, v ← get_in (e - Z.of_nat i + 1); put_in (e - Z.of_nat i) v))
     (λ _ c', ∃ buf, c' = set_buf buf c ∧ length buf = 128%nat ∧ ring buf r (A ++ P ++ T)) c.
Proof.
  revert P y c. induction T as [|t T IH]; intros P y c Hr He Hmax Hn Hlen H.
  - apply wp_ret. exists (c_buf c). split; [by destruct c|]. split; [done|].
    rewrite app_assoc in H. apply ring_app in H as [H _]. by rewrite app_nil_r.
  - cbn [length]. rewrite seq_S, rev_app_distr. cbn [rev app kfor_]. rewrite !length_app in He, Hn. simpl in He, Hn.
    set (i := (2 + length T)%nat).
    assert (r + Z.of_nat (length (A ++ P)) = e - Z.of_nat i) as Ey by (rewrite length_app; lia).
    assert (c_buf c !!! slot (e - Z.of_nat i + 1) = t) as Hy.
    { replace (e - Z.of_nat i + 1) with (r + Z.of_nat (length (A ++ P ++ [y]))) by (rewrite !length_app; simpl; lia).
      apply (ring_lookup _ _ _ _ T). rewrite <- !app_assoc. exact H. }
    eapply wp_run.
    { unfold get_in. rewrite (u32_small (e - _ + 1)) by lia. unfold mbind, K_bind, kget. cbn [rbind]. rewrite Hy. done. }
    unfold put_in at 1. rewrite (u32_small (e - _)) by lia. rewrite <- Ey.
    set (c1 := set_buf _ c). eapply wp_mono; [apply (IH (P ++ [t]) t c1)|].
    + done.
    + rewrite !length_app. simpl. lia.
    + done.
    + rewrite !length_app. simpl. lia.
    + subst c1. cbn [c_buf set_buf]. by rewrite length_insert.
    + subst c1. cbn [c_buf set_buf]. rewrite app_assoc in H.
      replace (A ++ (P ++ [t]) ++ t :: T) with ((A ++ P) ++ t :: t :: T) by by rewrite <- !app_assoc.
      eapply ring_set; [done|rewrite !length_app; simpl; lia|exact H].
    + intros [] c2 (buf & -> & Hb & Q). exists buf. rewrite <- app_assoc in Q. by destruct c.
Qed.

(** ** The state of the editor *)

(** [q] has been entered and not yet read, [l] is the line being edited; fewer
    than [2 ^ 32] characters have been typed so far. *)
Record input_ok (c : console) (q l : list Z) : Prop := InputOk {
  in_len : length (c_buf c) = 128%nat;
  in_r : 0 ≤ c_r c;
  in_w : c_w c = c_r c + Z.of_nat (length q);
  in_e : c_e c = c_r c + Z.of_nat (length (q ++ l));
  in_max : c_e c < 2 ^ 32;
  in_room : (length (q ++ l) ≤ 128)%nat;
  in_ring : ring (c_buf c) (c_r c) (q ++ l);
  in_plain : Forall plain l
}.

(** The screen shows the text from [base] on, the cursor between [pre] and [post]. *)
Record on_screen (c : console) (pre post : list Z) (base : Z) : Prop := OnScreen {
  os_screen : screen c;
  os_base : 0 ≤ base;
  os_fit : base + Z.of_nat (length (pre ++ post)) < 1920;
  os_pos : pos_of c = base + Z.of_nat (length pre);
  os_shown : shown (c_crt c) base (pre ++ post);
  os_shift : c_shift c = Z.of_nat (length post)
}.

Record editing (c : console) (q pre post : list Z) (base : Z) : Prop := Editing {
  ed_in : input_ok c q (pre ++ post);
  ed_scr : on_screen c pre post base
}.

Definition hist (c : console) := (h_buf c, h_r c, h_w c, h_intab c, h_tmp c, h_last c).

(** What editing the line leaves alone. *)
Definition kept (c c' : console) : Prop := c_r c' = c_r c ∧ c_w c' = c_w c ∧ hist c' = hist c.

Lemma kept_refl c : kept c c.
Proof. done. Qed.

Lemma kept_trans c1 c2 c3 : kept c1 c2 → kept c2 c3 → kept c1 c3.
Proof. unfold kept. intros (-> & -> & ->) (-> & -> & ->). done. Qed.

Lemma kept_drawn c c' : drawn c c' → kept c c'.
Proof. by intros (?&?&?&?&->). Qed.

#[local] Hint Resolve kept_refl : core.
#[local] Hint Extern 3 (kept ?a ?c) =>
  match goal with
  | H : kept ?b c |- _ => apply (kept_trans a b c); [|exact H]
  | H : drawn ?b c |- _ => apply (kept_trans a b c); [|exact (kept_drawn b c H)]
  end : core.

Lemma input_drawn c c' q l : drawn c c' → input_ok c q l → input_ok c' q l.
Proof. intros (?&?&?&?&->) []. by split. Qed.

Lemma drawn_shift c c' : drawn c c' → c_shift c' = c_shift c ∧ c_e c' = c_e c ∧ c_buf c' = c_buf c.
Proof. by intros (?&?&?&?&->). Qed.

Lemma shows_at c base l : screen c → 0 ≤ base → base + Z.of_nat (length l) < 1920 → shown (c_crt c) base l →
  shows (at_pos (base + Z.of_nat (length l)) c) base l.
Proof. intros [H1 H2] ???. split; [by split|done|done|by rewrite pos_at_pos by lia|done]. Qed.

Lemma to_end c pre post base :
  on_screen c pre post base →
  let c1 := at_pos (base + Z.of_nat (length (pre ++ post))) c in
  movpostoend c = Ok tt c1 ∧ shows c1 base (pre ++ post).
Proof.
  intros E c1. split; [|by apply shows_at; destruct E].
  unfold movpostoend. erewrite bind_ok; [|done]. erewrite bind_ok; [|done]. fold (pos_of c).
  rewrite (os_pos _ _ _ _ E), (os_shift _ _ _ _ E). unfold c1. rewrite length_app, Nat2Z.inj_add, Z.add_assoc. done.
Qed.

(** Putting the cursor back into a text it is behind of. *)
Lemma back_to c base pre post :
  shows c base (pre ++ post) → c_shift c = Z.of_nat (length post) →
  wp (pos ← getpos; setpos (pos - Z.of_nat (length post))) (λ _ c', drawn c c' ∧ on_screen c' pre post base) c.
Proof.
  intros [[H1 H2] H3 H4 H5 H6] Hs. eapply wp_run; [done|]. fold (pos_of c). rewrite H5, length_app.
  replace (base + _ - _) with (base + Z.of_nat (length pre)) by lia.
  exists tt, (at_pos (base + Z.of_nat (length pre)) c). split; [done|]. split; [auto|].
  rewrite length_app in H4. split; try done; [rewrite length_app; lia|]. rewrite pos_at_pos; lia.
Qed.

(** The indices the redrawing loops count down. *)
Lemma ring_indices buf e (o : nat) xs :
  e < 2 ^ 32 → 0 ≤ e - Z.of_nat o - Z.of_nat (length xs) + 1 →
  ring buf (e - Z.of_nat o - Z.of_nat (length xs) + 1) xs → Forall plain xs →
  Forall2 (λ i x, buf !!! slot (u32 (e - Z.of_nat i)) = x ∧ plain x) (rev (seq o (length xs))) xs.
Proof.
  intros Hmax. induction xs as [|x xs IH]; intros Hlo H Hpl; [constructor|]. apply list.Forall_cons in Hpl as [Hx Hpl].
  cbn [length] in *. rewrite seq_S, rev_app_distr. cbn [rev app]. change (x :: xs) with ([x] ++ xs) in H.
  apply ring_app in H as [H1 H2]. constructor.
  - split; [|done]. rewrite u32_small by lia.
    replace (e - Z.of_nat (o + length xs)) with (e - Z.of_nat o - Z.of_nat (S (length xs)) + 1 + Z.of_nat (@length Z [])) by (simpl; lia).
    by apply (ring_lookup _ _ [] _ []).
  - apply IH; [lia| |done]. simpl in H2.
    by replace (e - Z.of_nat o - Z.of_nat (length xs) + 1) with (e - Z.of_nat o - Z.of_nat (S (length xs)) + 1 + 1) by lia.
Qed.

(** [consshiftright] draws the text with a character inserted at the cursor. *)
Lemma consshiftright_ok c pre post ch base q r :
  on_screen c pre post base → 0 ≤ r → c_e c = r + Z.of_nat (length (q ++ pre ++ post)) → c_e c < 2 ^ 32 →
  (length (pre ++ post) < 128)%nat →
  ring (c_buf c) r (q ++ pre ++ ch :: post) → plain ch → Forall plain post →
  wp consshiftright (λ _ c', drawn c c' ∧ ∃ base', scrolled base base' ∧ on_screen c' (pre ++ [ch]) post base') c.
Proof.
  intros Ho Hr He Hmax Hn Hring Hch Hpost. destruct (to_end _ _ _ _ Ho) as [R1 S1].
  pose proof (os_shift _ _ _ _ Ho) as Hs. set (c1 := at_pos _ c) in *.
  unfold consshiftright. eapply wp_run; [exact R1|]. eapply wp_run; [done|].
  change (c_shift c1) with (c_shift c). change (c_e c1) with (c_e c).
  rewrite app_assoc in Hring. apply ring_app in Hring as [_ Hring]. rewrite !length_app in *.
  eapply wp_step; [eapply (back_loop _ post); [exact S1|by rewrite length_seq; lia]|].
  intros [] c2 [D2 S2]. assert (drawn c c2) as Dc2 by eauto.
  rewrite Hs, s32_small by lia. replace (Z.to_nat (Z.of_nat (length post) + 1)) with (length (ch :: post)) by (simpl; lia).
  eapply wp_step; [eapply (draw_loop (λ i, c_e c - Z.of_nat i) c _ (ch :: post)); [done|exact S2| |simpl; lia]|].
  - apply ring_indices; [done|simpl; lia| |by constructor].
    by replace (c_e c - Z.of_nat 0 - Z.of_nat (length (ch :: post)) + 1) with (r + Z.of_nat (length q + length pre)) by (simpl; lia).
  - intros [] c3 (D3 & b3 & Hb3 & S3). change (ch :: post) with ([ch] ++ post) in S3. rewrite app_assoc in S3.
    eapply wp_mono; [apply (back_to _ _ _ _ S3)|].
    + by destruct (drawn_shift _ _ D3) as [-> _].
    + intros [] c4 [D4 S4]. split; [auto|]. exists b3. auto.
Qed.

(** [consshiftleft] draws the text without the character before the cursor. *)
Lemma consshiftleft_ok c pre x post base q r :
  on_screen c (pre ++ [x]) post base → 0 ≤ r → c_e c = r + Z.of_nat (length (q ++ pre ++ post)) → c_e c < 2 ^ 32 →
  (length (pre ++ post) < 128)%nat →
  ring (c_buf c) r (q ++ pre ++ post) → Forall plain post →
  wp consshiftleft (λ _ c', drawn c c' ∧ ∃ base', scrolled base base' ∧ on_screen c' pre post base') c.
Proof.
  intros Ho Hr He Hmax Hn Hring Hpost. destruct (to_end _ _ _ _ Ho) as [R1 S1].
  pose proof (os_shift _ _ _ _ Ho) as Hs. set (c1 := at_pos _ c) in *.
  unfold consshiftleft. eapply wp_run; [exact R1|]. eapply wp_run; [done|].
  change (c_shift c1) with (c_shift c). change (c_e c1) with (c_e c).
  rewrite app_assoc in Hring. apply ring_app in Hring as [_ Hring]. rewrite !length_app in *.
  rewrite <- app_assoc in S1.
  eapply wp_step; [eapply (back_loop _ ([x] ++ post)); [exact S1|by rewrite length_seq, length_app; simpl; lia]|].
  intros [] c2 [D2 S2]. assert (drawn c c2) as Dc2 by eauto.
  rewrite Hs, s32_small, Nat2Z.id by lia.
  eapply wp_step; [eapply (draw_loop (λ i, c_e c - Z.of_nat i) c _ post); [done|exact S2| |simpl; lia]|].
  - apply ring_indices; [done|lia| |done].
    by replace (c_e c - Z.of_nat 1 - Z.of_nat (length post) + 1) with (r + Z.of_nat (length q + length pre)) by lia.
  - intros [] c3 (D3 & b3 & Hb3 & S3). eapply wp_mono; [apply (back_to _ _ _ _ S3)|].
    + by destruct (drawn_shift _ _ D3) as [-> _].
    + intros [] c4 [D4 S4]. split; [auto|]. exists b3. auto.
Qed.

Lemma on_screen_input c c' pre post base :
  on_screen c pre post base → screen c' → c_crt c' = c_crt c → pos_of c' = pos_of c → c_shift c' = c_shift c →
  on_screen c' pre post base.
Proof. intros [] Hs E1 E2 E3. split; rewrite ?E1, ?E2, ?E3; done. Qed.

Lemma in_parts c q l : input_ok c q l → length (c_buf c) = 128%nat ∧ ring (c_buf c) (c_r c) q ∧ ring (c_buf c) (c_r c + Z.of_nat (length q)) l.
Proof. intros H. split; [apply H|]. apply ring_app, H. Qed.

Lemma input_insert c c1 q pre ch post :
  input_ok c q (pre ++ post) → (length (q ++ pre ++ post) < 128)%nat → c_e c + 1 < 2 ^ 32 → plain ch →
  kept c c1 → c_e c1 = c_e c → length (c_buf c1) = 128%nat → ring (c_buf c1) (c_r c) (q ++ pre ++ ch :: post) →
  input_ok (set_e (u32 (c_e c1 + 1)) c1) q ((pre ++ [ch]) ++ post).
Proof.
  intros [Hlen Hr Hw He Hmx Hroom Hring Hpl] Hn Hmax Hch (E2 & E3 & _) E4 E5 E6. rewrite !length_app in *.
  split; cbn; rewrite ?E2, ?E3, ?E4; try done.
  - rewrite u32_small by lia. rewrite He, !length_app. simpl. lia.
  - rewrite u32_small by lia. done.
  - rewrite !length_app. simpl. lia.
  - by rewrite <- app_assoc.
  - rewrite <- app_assoc. apply list.Forall_app in Hpl as [??]. by apply list.Forall_app; split; [|constructor].
Qed.

Lemma kept_e c c' v : kept c c' → kept c (set_e v c').
Proof. done. Qed.

Lemma kept_buf c c' v : kept c c' → kept c (set_buf v c').
Proof. done. Qed.

#[local] Hint Resolve kept_e kept_buf : core.

Lemma on_screen_e v c pre post base : on_screen c pre post base → on_screen (set_e v c) pre post base.
Proof. by intros [[] ?????]. Qed.

Lemma on_screen_buf v c pre post base : on_screen c pre post base → on_screen (set_buf v c) pre post base.
Proof. by intros [[] ?????]. Qed.

Lemma shows_end c base l : shows c base l → c_shift c = 0 → on_screen c l [] base.
Proof. intros [] ?. split; rewrite ?app_nil_r; done. Qed.

Lemma end_shows c base l : on_screen c l [] base → shows c base l.
Proof. intros []. rewrite app_nil_r in *. by split. Qed.

(** A character typed at the cursor. *)
Lemma inputputc_ok c q pre post base ch :
  editing c q pre post base → plain ch → (length (q ++ pre ++ post) < 128)%nat → c_e c + 1 < 2 ^ 32 →
  wp (inputputc ch) (λ _ c', kept c c' ∧ ∃ base', scrolled base base' ∧ editing c' q (pre ++ [ch]) post base') c.
Proof.
  intros [Hi Ho] Hch Hn Hmax. pose proof (os_shift _ _ _ _ Ho) as Hs. pose proof Hi as [Hlen Hr Hw He Hmx Hroom Hring Hpl].
  unfold inputputc. eapply wp_run; [done|]. rewrite Hs.
  eapply (wp_step _ _ (λ _ c1, kept c c1 ∧ c_e c1 = c_e c ∧ length (c_buf c1) = 128%nat
    ∧ ring (c_buf c1) (c_r c) (q ++ pre ++ ch :: post) ∧ ∃ base', scrolled base base' ∧ on_screen c1 (pre ++ [ch]) post base')).
  2: { intros [] c1 (K1 & E1 & L1 & R1 & b1 & Hb1 & S1). eexists tt, _. split; [done|]. split; [auto|]. exists b1.
       split; [done|]. split; [by apply (input_insert c)|by apply on_screen_e]. }
  rewrite !length_app in *. destruct post as [|x post]; cbn [length] in *.
  - cbn [Z.eqb]. rewrite Nat.add_0_r, app_nil_r in *. unfold put_in. eapply wp_run; [done|]. rewrite u32_small by lia.
    eapply wp_mono; [apply (put_char _ _ base pre); [by apply end_shows, on_screen_buf|done|lia]|].
    intros [] c2 (D2 & b2 & Hb2 & S2). destruct (drawn_shift _ _ D2) as (E1 & E2 & E3).
    split; [eauto|]. split; [by rewrite E2|]. rewrite E3. cbn [c_buf set_buf]. split; [by rewrite length_insert|]. split.
    + replace (c_e c) with (c_r c + Z.of_nat (length (q ++ pre))) by (rewrite length_app; lia).
      rewrite app_assoc. apply ring_snoc; [done|rewrite length_app; lia|done].
    + exists b2. split; [done|]. apply shows_end; [done|]. by rewrite E1.
  - rewrite (proj2 (Z.eqb_neq (Z.of_nat (S (length post))) 0)) by lia. unfold inputshiftright.
    eapply wp_step; [eapply wp_run; [done|]; rewrite Hs, Nat2Z.id; eapply (shiftright_loop (c_r c) (c_e c) (q ++ pre) (x :: post) []) |].
    + done.
    + rewrite !length_app. simpl. lia.
    + done.
    + rewrite !length_app. simpl. lia.
    + done.
    + by rewrite <- app_assoc.
    + by intros j y.
    + intros [] c1 (buf & -> & Hb & R1 & R2). rewrite app_nil_r in R2. unfold put_in at 1. eapply wp_run; [done|].
      rewrite u32_small by lia. set (c2 := set_buf _ _).
      assert (ring (c_buf c2) (c_r c) (q ++ pre ++ ch :: x :: post)) as R3.
      { subst c2. cbn [c_buf set_buf]. rewrite app_assoc.
        replace (c_e c - Z.of_nat (S (length post))) with (c_r c + Z.of_nat (length (q ++ pre))) by (rewrite length_app; lia).
        apply (ring_put _ _ _ ch); [done|rewrite !length_app; simpl; lia|done|]. by rewrite Nat.add_1_r in R2. }
      apply list.Forall_app in Hpl as [Hpl1 Hpl2].
      eapply wp_mono; [eapply (consshiftright_ok c2 pre (x :: post) ch base q (c_r c)); try done|].
      * by do 2 apply on_screen_buf.
      * cbn. rewrite !length_app. simpl. lia.
      * rewrite length_app. simpl. lia.
      * intros [] c3 (D3 & b3 & Hb3 & S3). destruct (drawn_shift _ _ D3) as (E1 & E2 & E3). split; [by apply (kept_trans _ c2); [|apply kept_drawn]|].
        split; [exact E2|]. rewrite E3. split; [cbn; by rewrite length_insert|]. eauto.
Qed.

(** The character before the cursor deleted. *)
Lemma backspace_ok c q pre x post base :
  editing c q (pre ++ [x]) post base →
  wp (inputshiftleft;; consshiftleft)
     (λ _ c', kept c c' ∧ ∃ base', scrolled base base' ∧ editing c' q pre post base') c.
Proof.
  intros [Hi Ho]. pose proof (os_shift _ _ _ _ Ho) as Hs. destruct Hi as [Hlen Hr Hw He Hmx Hroom Hring Hpl].
  rewrite <- app_assoc in *. cbn [app] in *. rewrite !length_app in *. cbn [length] in *.
  eapply (wp_step _ _ (λ _ c1, ∃ buf, c1 = set_e (u32 (c_e c - 1)) (set_buf buf c) ∧ length buf = 128%nat
    ∧ ring buf (c_r c) (q ++ pre ++ post))).
  - unfold inputshiftleft. eapply wp_run; [done|]. rewrite Hs, s32_small, Z.add_simpl_r, Nat2Z.id by lia.
    eapply wp_step; [eapply (shiftleft_loop (c_r c) (c_e c) (q ++ pre) [] post x)|].
    + done.
    + rewrite !length_app. simpl. lia.
    + done.
    + rewrite !length_app. simpl. lia.
    + done.
    + by rewrite <- app_assoc.
    + intros [] c1 (buf & -> & Hb & R1). rewrite <- app_assoc in R1. eexists tt, _. split; [done|]. by exists buf.
  - intros [] c1 (buf & -> & Hb & R1). rewrite u32_small by lia. apply list.Forall_app in Hpl as [Hp1 Hp2].
    apply list.Forall_cons in Hp2 as [Hx Hp2].
    eapply wp_mono; [eapply (consshiftleft_ok _ pre x post base q (c_r c))|].
    + by apply on_screen_e, on_screen_buf.
    + done.
    + cbn. rewrite !length_app. lia.
    + cbn. lia.
    + rewrite length_app. lia.
    + done.
    + done.
    + intros [] c2 (D2 & b2 & Hb2 & S2). split; [eauto|]. exists b2. split; [done|]. split; [|done].
      eapply input_drawn; [exact D2|]. split; cbn; try done; rewrite ?length_app; try lia.
      apply list.Forall_app. done.
Qed.

(** Erasing characters from the end of the line. *)
Lemma erase_loop_ok fuel c q l base :
  input_ok c q l → shows c base l → (length l < fuel)%nat →
  wp (erase_loop fuel) (λ _ c', kept c c' ∧ c_shift c' = c_shift c ∧ input_ok c' q [] ∧ shows c' base []) c.
Proof.
  revert c l. induction fuel as [|fuel IH]; intros c l Hi Hsh Hf; [lia|]. cbn [erase_loop]. eapply wp_run; [done|].
  destruct l as [|x l _] using rev_ind.
  - pose proof Hi as [Hlen Hr Hw He Hmx Hroom Hring Hpl]. rewrite app_nil_r in He.
    rewrite (proj2 (Z.eqb_eq (c_e c) (c_w c))) by lia. by apply wp_ret.
  - pose proof Hi as [Hlen Hr Hw He Hmx Hroom Hring Hpl]. rewrite !length_app in *. cbn [length] in *.
    rewrite (proj2 (Z.eqb_neq (c_e c) (c_w c))) by lia.
    apply list.Forall_app in Hpl as [Hp1 Hp2]. apply list.Forall_cons in Hp2 as [Hx _].
    assert (c_buf c !!! slot (u32 (c_e c - 1)) = x) as Ex.
    { rewrite u32_small by lia. replace (c_e c - 1) with (c_r c + Z.of_nat (length (q ++ l))) by (rewrite length_app; lia).
      apply (ring_lookup _ _ _ _ []). by rewrite <- app_assoc. }
    eapply wp_run; [unfold get_in, mbind, K_bind, kget; cbn [rbind]; rewrite Ex; done|].
    rewrite (proj2 (Z.eqb_neq x CH_NL)) by apply Hx. eapply wp_run; [done|]. rewrite u32_small by lia.
    eapply wp_step; [eapply (back_char _ base l x); by destruct Hsh as [[] ????]|].
    intros [] c1 [D1 S1]. destruct (drawn_shift _ _ D1) as (E1 & E2 & E3). eapply wp_mono; [apply (IH c1 l)|].
    + eapply input_drawn; [exact D1|]. split; cbn; try done; rewrite ?length_app; try lia.
      rewrite app_assoc in Hring. by apply ring_app in Hring as [??].
    + done.
    + lia.
    + intros [] c2 (K2 & E4 & I2 & S2). split; [eauto|]. split; [by rewrite E4, E1|]. done.
Qed.

Lemma input_shift v c q l : input_ok c q l → input_ok (set_shift v c) q l.
Proof. intros []. by split. Qed.

Lemma input_e_w c q l : input_ok c q l → u32 (c_e c - c_w c) = Z.of_nat (length l).
Proof.
  intros [Hlen Hr Hw He Hmx Hroom Hring Hpl]. rewrite length_app in *. rewrite u32_small; lia.
Qed.

Lemma conseraseline_ok c q pre post base :
  editing c q pre post base → wp conseraseline (λ _ c', kept c c' ∧ editing c' q [] [] base) c.
Proof.
  intros [Hi Ho]. destruct (to_end _ _ _ _ Ho) as [R1 S1]. unfold conseraseline. eapply wp_run; [exact R1|].
  eapply wp_run; [done|]. eapply wp_run; [done|]. set (c1 := set_shift 0 _).
  assert (input_ok c1 q (pre ++ post)) as I1 by (eapply input_shift, input_drawn; [|done]; auto).
  rewrite (input_e_w _ _ _ I1), Nat2Z.id.
  eapply wp_mono; [apply (erase_loop_ok _ _ q (pre ++ post) base I1)|].
  - by destruct S1 as [[] ????].
  - lia.
  - intros [] c2 (K2 & E2 & I2 & S2). split; [exact K2|]. split; [done|]. by apply shows_end.
Qed.

Lemma append_in_ok c q pre base ch :
  editing c q pre [] base → plain ch → (length (q ++ pre) < 128)%nat → c_e c + 1 < 2 ^ 32 →
  wp (append_in ch) (λ _ c', kept c c' ∧ c_e c' = c_e c + 1 ∧ ∃ base', scrolled base base' ∧ editing c' q (pre ++ [ch]) [] base') c.
Proof.
  intros [Hi Ho] Hch Hn Hmax. pose proof (os_shift _ _ _ _ Ho) as Hs. unfold append_in.
  eapply wp_run; [done|]. eapply wp_run; [done|]. eapply wp_run; [done|].
  pose proof Hi as [Hlen Hr Hw He Hmx Hroom Hring Hpl]. rewrite app_nil_r in *.
  rewrite (u32_small (c_e c + 1)), (u32_small (c_e c)) by (rewrite length_app in *; lia). set (c1 := set_buf _ _).
  assert (on_screen c1 pre [] base) as S1 by by apply on_screen_buf, on_screen_e.
  rewrite length_app in Hn. eapply wp_mono; [apply (put_char _ _ base pre); [by apply end_shows|done|lia]|].
  intros [] c2 (D2 & b2 & Hb2 & S2). destruct (drawn_shift _ _ D2) as (E1 & E2 & E3).
  split; [by apply (kept_trans _ c1); [|apply kept_drawn]|]. split; [by rewrite E2|]. exists b2. split; [done|]. split.
  - eapply input_drawn; [exact D2|]. rewrite app_nil_r.
    replace c1 with (set_e (u32 (c_e (set_buf (c_buf c1) c) + 1)) (set_buf (c_buf c1) c)) by (cbn; rewrite u32_small by lia; done).
    assert (input_ok c q (pre ++ [])) as Hi' by by rewrite app_nil_r. replace (pre ++ [ch]) with ((pre ++ [ch]) ++ []) by by rewrite app_nil_r.
    apply (input_insert c); try done; rewrite ?app_nil_r, ?length_app; try lia.
    + cbn. by rewrite length_insert.
    + cbn. rewrite He, app_assoc. apply ring_snoc; [done|rewrite length_app; lia|done].
  - apply shows_end; [done|]. by rewrite E1.
Qed.

(** The string [xs], which ends at a NUL or after [n] characters. *)
Lemma append_all_ok n xs rest c q pre base :
  editing c q pre [] base → Forall plain xs →
  (length xs = n ∨ (length xs < n)%nat ∧ head rest = Some 0) →
  (length (q ++ pre ++ xs) ≤ 128)%nat → c_e c + Z.of_nat (length xs) < 2 ^ 32 →
  wp (append_all n (xs ++ rest)) (λ _ c', kept c c' ∧ ∃ base', scrolled base base' ∧ editing c' q (pre ++ xs) [] base') c.
Proof.
  intros He HF. revert n c pre base He. induction HF as [|x xs Hx HF IH]; intros n c pre base He Hend Hn Hmax.
  - rewrite app_nil_r. destruct n as [|n]; [apply wp_ret; eauto|]. destruct Hend as [|[_ Hh]]; [done|].
    destruct rest as [|z rest]; [done|]. injection Hh as ->. apply wp_ret. eauto.
  - rewrite !length_app in Hn. simpl in Hn, Hmax, Hend. destruct n as [|n]; [lia|]. cbn [append_all app].
    rewrite (proj2 (Z.eqb_neq x 0)) by apply Hx.
    eapply wp_step; [apply (append_in_ok _ _ _ _ _ He Hx); [rewrite length_app|]; lia|].
    intros [] c1 (K1 & E1 & b1 & Hb1 & Ed1). eapply wp_mono; [apply (IH n c1 (pre ++ [x]) b1 Ed1)|].
    + destruct Hend as [|[]]; [left|right]; lia || (split; [lia|done]).
    + rewrite !length_app. simpl. lia.
    + lia.
    + intros [] c2 (K2 & b2 & Hb2 & Ed2). rewrite <- app_assoc in Ed2. split; [auto|]. exists b2. auto.
Qed.

(** Moving the cursor. *)
Lemma editing_at c q pre post pre' post' base :
  editing c q pre post base → pre ++ post = pre' ++ post' →
  editing (at_pos (base + Z.of_nat (length pre')) (set_shift (Z.of_nat (length post')) c)) q pre' post' base.
Proof.
  intros [Hi [[H1 H2] H3 H4 H5 H6 H7]] E. rewrite E in *. split.
  - eapply input_drawn; [apply drawn_at_pos, drawn_refl|]. by apply input_shift.
  - split; try done. rewrite length_app in H4. rewrite pos_at_pos; lia.
Qed.

Lemma delnums_loop_ok c q l seen rest :
  input_ok c q l → l = seen ++ rest → (length l < 128)%nat →
  delnums_loop (length rest) (Z.of_nat (length seen)) (filter (λ x, ¬ is_digit x) seen) c
  = Ok (filter (λ x, ¬ is_digit x) l ++ [0]) c.
Proof.
  intros Hi. revert seen. induction rest as [|x rest IH]; intros seen E Hn.
  - rewrite app_nil_r in E. subst seen. cbn [delnums_loop length].
    pose proof (length_filter (λ x, ¬ is_digit x) l). by rewrite (proj2 (Z.ltb_lt _ _)) by (unfold INPUT_BUF; lia).
  - cbn [delnums_loop length]. erewrite bind_ok; [|done].
    pose proof Hi as [Hlen Hr Hw He Hmx Hroom Hring Hpl].
    assert (c_buf c !!! slot (u32 (c_w c + Z.of_nat (length seen))) = x) as Ex.
    { rewrite u32_small by (rewrite length_app in *; subst l; rewrite length_app in *; lia).
      rewrite Hw, <- Z.add_assoc, <- Nat2Z.inj_add, <- length_app. apply (ring_lookup _ _ _ _ rest). rewrite <- app_assoc. by rewrite <- E. }
    rewrite (bind_ok _ _ _ x c) by (unfold get_in, mbind, K_bind, kget; cbn [rbind]; by rewrite Ex).
    assert (filter (λ x, ¬ is_digit x) (seen ++ [x]) = filter (λ x, ¬ is_digit x) seen ++ (if is_digit x then [] else [x])) as Ef.
    { rewrite list.filter_app. f_equal. cbn. destruct (is_digit x); by cbn. }
    specialize (IH (seen ++ [x])). rewrite Ef, length_app in IH. cbn [length] in IH.
    replace (Z.of_nat (length seen) + 1) with (Z.of_nat (length seen + 1)) by lia. rewrite <- app_assoc in IH. specialize (IH E Hn).
    destruct (is_digit x); [by rewrite app_nil_r in IH|].
    assert (length (filter (λ x, ¬ is_digit x) seen) < 128)%nat.
    { pose proof (length_filter (λ x, ¬ is_digit x) seen). subst l. rewrite length_app in Hn. lia. }
    by rewrite (proj2 (Z.ltb_lt _ _)) by (unfold INPUT_BUF; lia).
Qed.

(** ** The abstract editor *)

(** A line is the text before and the text after the cursor. *)
Definition edit (ch : Z) (line : list Z * list Z) : list Z * list Z :=
  let '(pre, post) := line in
  if (ch =? Ctrl 85) || (ch =? Ctrl 76) then ([], [])
  else if (ch =? Ctrl 72) || (ch =? 127) then (take (length pre - 1) pre, post)
  else if ch =? Ctrl 66 then (take (length pre - 1) pre, drop (length pre - 1) pre ++ post)
  else if ch =? Ctrl 70 then (pre ++ take 1 post, drop 1 post)
  else if ch =? Ctrl 78 then (filter (λ x, ¬ is_digit x) (pre ++ post), [])
  else if ch =? Ctrl 65 then ([], pre ++ post)
  else if ch =? Ctrl 69 then (pre ++ post, [])
  else (pre ++ [s8 ch], post).

(** The keys that edit the line: neither end of line or file, nor history, nor
    the process listing. *)
Definition edits (ch : Z) : bool :=
  (0 <? ch) && (ch <? 256) && negb (existsb (Z.eqb ch) [CH_NL; 13; Ctrl 68; Ctrl 80; ARROW_UP; ARROW_DOWN; TAB]).

Lemma edits_key ch : edits ch = true →
  0 < ch < 256 ∧ ch ≠ CH_NL ∧ ch ≠ 13 ∧ ch ≠ Ctrl 68 ∧ ch ≠ ARROW_UP ∧ ch ≠ ARROW_DOWN ∧ ch ≠ TAB.
Proof. unfold edits, CH_NL, Ctrl, ARROW_UP, ARROW_DOWN, TAB. cbn [existsb]. intros H. bool_to_prop. lia. Qed.

Lemma s8_plain ch : 0 < ch < 256 → ch ≠ CH_NL → plain (s8 ch).
Proof.
  intros H Hn. unfold plain, s8, u8, CH_NL in *. rewrite (Z.mod_small ch) by lia. destruct (ch <? 2 ^ 7) eqn:E; bool_to_prop; lia.
Qed.

(** The result of a key that completes nothing. *)
Definition edited (c : console) (q : list Z) (line : list Z * list Z) (base : Z) (b : bool) (c' : console) : Prop :=
  b = false ∧ kept c c' ∧ ∃ base', (base' = 2 ∨ scrolled base base') ∧ editing c' q line.1 line.2 base'.

Lemma edited_wp (m : C unit) c q line base :
  wp m (λ _ c', kept c c' ∧ ∃ base', (base' = 2 ∨ scrolled base base') ∧ editing c' q line.1 line.2 base') c →
  wp (m;; mret false) (edited c q line base) c.
Proof. intros H. eapply wp_step; [exact H|]. intros [] c' (K & b & Hb & E). apply wp_ret. split; [done|]. eauto. Qed.

Lemma consclear_loop_ok n c :
  screen c → (n ≤ 2000)%nat → wp (consclear_loop n) (λ _ c', drawn c c' ∧ screen c' ∧ pos_of c' = pos_of c) c.
Proof.
  revert c. induction n as [|n IH]; intros c Hs Hn; [apply wp_ret; auto|]. cbn [consclear_loop].
  eapply wp_run; [apply store_crt_ok; [done|lia]|]. eapply wp_mono; [apply IH; [|lia]|].
  - apply screen_crt; [by rewrite length_insert|done].
  - intros [] c' (D & S & P). split; [auto|]. done.
Qed.

(** [C('L')] leaves an empty screen with a prompt. *)
Lemma clear_ok c q base :
  editing c q [] [] base → wp (consclear;; consnewcommand) (λ _ c', kept c c' ∧ editing c' q [] [] 2) c.
Proof.
  intros [Hi [Hs Hb Hf Hp _ Hsh]]. cbn [app length] in *. eapply wp_step.
  - unfold consclear. eapply wp_run; [done|]. fold (pos_of c). apply consclear_loop_ok; [done|lia].
  - intros [] c1 (D1 & S1 & P1). unfold consnewcommand. eapply wp_run; [apply store_crt_ok; [done|lia]|].
    set (c2 := set_crt _ c1). exists tt, (at_pos 2 c2). split; [done|]. assert (drawn c (at_pos 2 c2)) as D2 by (subst c2; auto).
    split; [by apply kept_drawn|]. split; [by eapply input_drawn|].
    assert (screen c2) as S2 by (apply screen_crt; [by rewrite length_insert|done]). destruct S2.
    split; try done. by destruct (drawn_shift _ _ D2) as [-> _].
Qed.

(** The keys with a case of their own. *)
Definition commands : list Z :=
  [Ctrl 85; Ctrl 72; 127; Ctrl 76; Ctrl 66; Ctrl 70; Ctrl 78; Ctrl 65; Ctrl 69; ARROW_UP; ARROW_DOWN; TAB].

Lemma eqb_commands ch x : ch ∉ commands → x ∈ commands → (ch =? x) = false.
Proof. intros H Hx. apply Z.eqb_neq. by intros ->. Qed.

Lemma handle_key_default ch c : ch ∉ commands → handle_key ch c = put_key ch c.
Proof.
  intros H. unfold handle_key. erewrite bind_ok; [|done].
  rewrite (eqb_commands ch (Ctrl 85)), (eqb_commands ch (Ctrl 72)), (eqb_commands ch 127), (eqb_commands ch (Ctrl 76)),
    (eqb_commands ch (Ctrl 66)), (eqb_commands ch (Ctrl 70)), (eqb_commands ch (Ctrl 78)), (eqb_commands ch (Ctrl 65)),
    (eqb_commands ch (Ctrl 69)), (eqb_commands ch ARROW_UP), (eqb_commands ch ARROW_DOWN), (eqb_commands ch TAB); done || (unfold commands; set_solver).
Qed.

Lemma edit_default ch line : ch ∉ commands → edit ch line = (line.1 ++ [s8 ch], line.2).
Proof.
  intros H. destruct line as [pre post]. unfold edit.
  rewrite (eqb_commands ch (Ctrl 85)), (eqb_commands ch (Ctrl 72)), (eqb_commands ch 127), (eqb_commands ch (Ctrl 76)),
    (eqb_commands ch (Ctrl 66)), (eqb_commands ch (Ctrl 70)), (eqb_commands ch (Ctrl 78)), (eqb_commands ch (Ctrl 65)),
    (eqb_commands ch (Ctrl 69)); done || (unfold commands; set_solver).
Qed.

Lemma not_full e r : 0 ≤ e - r < 128 → (e =? u32 (r + 128)) = false.
Proof.
  intros H. apply Z.eqb_neq. unfold u32. pose proof (Z.div_mod (r + 128) (2 ^ 32) ltac:(lia)). lia.
Qed.

Section keys.
Context (c : console) (q pre post : list Z) (base : Z).
Hypothesis Hed : editing c q pre post base.
Hypothesis Hroom : (length (q ++ pre ++ post) < 127)%nat.
Hypothesis Hmax : c_e c + 1 < 2 ^ 32.

Lemma key_text ch :
  edits ch = true → ch ∉ commands → wp (handle_key ch) (edited c q (pre ++ [s8 ch], post) base) c.
Proof using All.
  intros (Hr & H1 & H2 & H3 & _)%edits_key Hc. eapply wp_same; [by apply handle_key_default|]. unfold put_key.
  pose proof Hed as [[Hlen Hrr Hw He Hmx Hrm Hring Hpl] Ho]. eapply wp_run; [done|].
  rewrite (proj2 (Z.eqb_neq ch 0)), (proj2 (Z.eqb_neq ch 13)), (proj2 (Z.eqb_neq ch CH_NL)), (proj2 (Z.eqb_neq ch (Ctrl 68))) by (done || lia).
  unfold has_room, INPUT_BUF. rewrite u32_small by lia. rewrite (proj2 (Z.ltb_lt (c_e c - c_r c) 128)) by lia. cbn [negb andb orb].
  eapply wp_run; [done|]. eapply wp_step; [apply (inputputc_ok _ _ _ _ _ _ Hed (s8_plain ch Hr H1)); [lia|done]|].
  intros [] c1 (K1 & b1 & Hb1 & E1). eapply wp_run; [done|]. pose proof (ed_in _ _ _ _ _ E1) as [Hlen1 Hr1 Hw1 He1 Hmx1 Hrm1 Hring1 Hpl1].
  rewrite !length_app in *. cbn [length] in *.
  rewrite (not_full (c_e c1) (c_r c1)) by lia.
  apply wp_ret. split; [done|]. split; [done|]. exists b1. split; [by right|done].
Qed.

Lemma key_backspace ch :
  ch = Ctrl 72 ∨ ch = 127 → wp (handle_key ch) (edited c q (edit ch (pre, post)) base) c.
Proof using All.
  intros Hch. assert (edit ch (pre, post) = (take (length pre - 1) pre, post)) as -> by by destruct Hch as [-> | ->].
  apply (wp_same _ ((if c_w c <? u32 (c_e c - c_shift c) then inputshiftleft;; consshiftleft else mret tt);; mret false) _ c c).
  { by destruct Hch as [-> | ->]. }
  apply edited_wp. pose proof Hed as [[Hlen Hrr Hw He Hmx Hrm Hring Hpl] Ho]. pose proof (os_shift _ _ _ _ Ho) as Hs.
  rewrite Hs. rewrite !length_app in *. rewrite u32_small by lia. destruct (Z.ltb_spec (c_w c) (c_e c - Z.of_nat (length post))).
  - destruct pre as [|x pre' _] using rev_ind; [simpl in *; lia|]. rewrite length_app, Nat.add_sub, take_app_length.
    eapply wp_mono; [by apply (backspace_ok _ _ _ _ _ _ Hed)|]. intros [] c1 (K1 & b1 & Hb1 & E1). eauto.
  - assert (length pre = 0)%nat by lia. destruct pre; [|done]. apply wp_ret. split; [done|]. exists base. auto.
Qed.

Lemma key_left : wp (handle_key (Ctrl 66)) (edited c q (edit (Ctrl 66) (pre, post)) base) c.
Proof using All.
  apply (wp_same _ ((if c_shift c <? u32 (c_e c - c_w c) then kmodify (set_shift (u32 (c_shift c + 1)));; movpostoleft else mret tt);; mret false) _ c c eq_refl).
  apply edited_wp. change (edit (Ctrl 66) (pre, post)) with (take (length pre - 1) pre, drop (length pre - 1) pre ++ post).
  pose proof Hed as [Hi Ho]. pose proof (os_shift _ _ _ _ Ho) as Hs. pose proof (os_pos _ _ _ _ Ho) as Hp.
  rewrite Hs, (input_e_w _ _ _ Hi), length_app. rewrite !length_app in Hroom. destruct (Z.ltb_spec (Z.of_nat (length post)) (Z.of_nat (length pre + length post))).
  - destruct pre as [|x pre' _] using rev_ind; [simpl in *; lia|]. cbn [fst snd]. rewrite !length_app in *. cbn [length] in *.
    rewrite Nat.add_sub, take_app_length, drop_app_length. eapply wp_run; [done|]. rewrite u32_small by lia.
    set (c1 := set_shift _ c). exists tt, (at_pos (pos_of c1 - 1) c1). split; [done|]. split; [done|]. exists base. split; [auto|].
    change (pos_of c1) with (pos_of c). rewrite Hp. replace (base + _ - 1) with (base + Z.of_nat (length pre')) by lia.
    subst c1. replace (Z.of_nat (length post) + 1) with (Z.of_nat (length ([x] ++ post))) by (simpl; lia).
    eapply editing_at; [exact Hed|]. by rewrite <- app_assoc.
  - assert (length pre = 0)%nat by lia. destruct pre; [|done]. apply wp_ret. split; [done|]. exists base. auto.
Qed.

Lemma key_right : wp (handle_key (Ctrl 70)) (edited c q (edit (Ctrl 70) (pre, post)) base) c.
Proof using All.
  apply (wp_same _ ((if 0 <? c_shift c then kmodify (set_shift (c_shift c - 1));; movpostoright else mret tt);; mret false) _ c c eq_refl).
  apply edited_wp. change (edit (Ctrl 70) (pre, post)) with (pre ++ take 1 post, drop 1 post).
  pose proof Hed as [Hi Ho]. pose proof (os_shift _ _ _ _ Ho) as Hs. pose proof (os_pos _ _ _ _ Ho) as Hp.
  rewrite Hs. destruct post as [|x post'].
  - apply wp_ret. split; [done|]. exists base. cbn [fst snd take drop]. rewrite app_nil_r. auto.
  - rewrite (proj2 (Z.ltb_lt 0 (Z.of_nat (length (x :: post'))))) by (simpl; lia). cbn [fst snd take drop]. rewrite take_0.
    eapply wp_run; [done|].
    set (c1 := set_shift _ c). exists tt, (at_pos (pos_of c1 + 1) c1). split; [done|]. split; [done|]. exists base. split; [auto|].
    change (pos_of c1) with (pos_of c). rewrite Hp. replace (base + _ + 1) with (base + Z.of_nat (length (pre ++ [x]))) by (rewrite length_app; simpl; lia).
    subst c1. replace (Z.of_nat (length (x :: post')) - 1) with (Z.of_nat (length post')) by (simpl; lia).
    eapply editing_at; [exact Hed|]. by rewrite <- app_assoc.
Qed.

(** [C('A')], when the line is not empty: the cursor goes back by the length of the
    whole line from where it is. *)
Lemma key_start_run :
  (0 < length pre)%nat →
  let n := Z.of_nat (length (pre ++ post)) in
  handle_key (Ctrl 65) c = Ok false (at_pos (pos_of c - n) (set_shift n c)).
Proof using All.
  intros Hpre n. pose proof Hed as [Hi Ho]. pose proof (os_shift _ _ _ _ Ho) as Hs.
  transitivity (((if c_shift c <? u32 (c_e c - c_w c) then movpostostart;; kmodify (λ c, set_shift (u32 (c_e c - c_w c)) c) else mret tt);; mret false) c);
    [done|].
  rewrite Hs, (input_e_w _ _ _ Hi), (proj2 (Z.ltb_lt _ _)) by (rewrite length_app; lia).
  assert (movpostostart c = Ok tt (at_pos (pos_of c - n) (set_shift n c))) as R.
  { transitivity (Ok tt (at_pos (pos_of c - u32 (c_e c - c_w c)) (set_shift (u32 (c_e c - c_w c)) c)) : res console unit); [done|].
    by rewrite (input_e_w _ _ _ Hi). }
  rewrite (bind_assoc_ok _ _ _ _ _ _ R). erewrite bind_ok; [|done]. cbn [c_e c_w at_pos set_cursor set_shift].
  by rewrite (input_e_w _ _ _ Hi).
Qed.

Lemma key_start : pre = [] ∨ post = [] → wp (handle_key (Ctrl 65)) (edited c q (edit (Ctrl 65) (pre, post)) base) c.
Proof using All.
  intros Hend. change (edit (Ctrl 65) (pre, post)) with ([] : list Z, pre ++ post).
  destruct (decide (pre = [])) as [E0|Hne].
  - apply (wp_same _ (mret false) _ c c).
    { transitivity (((if c_shift c <? u32 (c_e c - c_w c) then movpostostart;; kmodify (λ c, set_shift (u32 (c_e c - c_w c)) c) else mret tt);; mret false) c);
        [done|]. pose proof Hed as [Hi Ho]. rewrite (os_shift _ _ _ _ Ho), (input_e_w _ _ _ Hi), E0. cbn [app]. by rewrite Z.ltb_irrefl. }
    apply wp_ret. split; [done|]. split; [done|]. exists base. split; [auto|]. cbn [fst snd]. rewrite E0 in *. done.
  - destruct Hend as [?|Epost]; [done|]. assert (0 < length pre)%nat as Hpre by (destruct pre; [done|simpl; lia]).
    unfold wp. rewrite (key_start_run Hpre). eexists false, _. split; [done|]. split; [done|]. split; [done|].
    exists base. split; [auto|]. cbn [fst snd].
    replace (pos_of c - _) with (base + Z.of_nat (@length Z [])); [by eapply editing_at|].
    rewrite (os_pos _ _ _ _ (ed_scr _ _ _ _ _ Hed)), Epost, app_nil_r. simpl. lia.
Qed.

Lemma key_end : wp (handle_key (Ctrl 69)) (edited c q (edit (Ctrl 69) (pre, post)) base) c.
Proof using All.
  apply (wp_same _ (movpostoend;; kmodify (set_shift 0);; mret false) _ c c eq_refl).
  change (edit (Ctrl 69) (pre, post)) with (pre ++ post, [] : list Z). cbn [fst snd].
  destruct (to_end _ _ _ _ (ed_scr _ _ _ _ _ Hed)) as [R _]. eapply wp_run; [exact R|]. eexists false, _. split; [done|].
  split; [done|]. split; [done|]. exists base. split; [auto|].
  eapply (editing_at c q pre post (pre ++ post) []); [exact Hed|by rewrite app_nil_r].
Qed.

Lemma key_kill : wp (handle_key (Ctrl 85)) (edited c q (edit (Ctrl 85) (pre, post)) base) c.
Proof using All.
  apply (wp_same _ (conseraseline;; mret false) _ c c eq_refl). apply edited_wp.
  eapply wp_mono; [by apply (conseraseline_ok _ _ _ _ _ Hed)|]. intros [] c1 [K1 E1]. split; [done|]. exists base. auto.
Qed.

Lemma key_clear : wp (handle_key (Ctrl 76)) (edited c q (edit (Ctrl 76) (pre, post)) base) c.
Proof using All.
  apply (wp_same _ (conseraseline;; consclear;; consnewcommand;; mret false) _ c c eq_refl).
  eapply wp_step; [by apply (conseraseline_ok _ _ _ _ _ Hed)|]. intros [] c1 [K1 E1].
  destruct (clear_ok _ _ _ E1) as ([] & c2 & R2 & K2 & E2). apply bind_ok_inv in R2 as ([] & c3 & R3 & R4).
  eapply wp_run; [exact R3|]. eapply wp_run; [exact R4|]. apply wp_ret. split; [done|]. split; [auto|]. exists 2. auto.
Qed.

Lemma key_delnums : wp (handle_key (Ctrl 78)) (edited c q (edit (Ctrl 78) (pre, post)) base) c.
Proof using All.
  apply (wp_same _ (delnums;; mret false) _ c c eq_refl). apply edited_wp.
  change (edit (Ctrl 78) (pre, post)) with (filter (λ x, ¬ is_digit x) (pre ++ post), [] : list Z). cbn [fst snd].
  pose proof (ed_in _ _ _ _ _ Hed) as Hi. unfold delnums. eapply wp_run; [done|].
  rewrite (input_e_w _ _ _ Hi), Nat2Z.id. pose proof (length_filter (λ x, ¬ is_digit x) (pre ++ post)) as Hlf.
  eapply wp_run; [eapply (delnums_loop_ok c q (pre ++ post) [] (pre ++ post)); [done|done|rewrite !length_app in *; lia]|].
  eapply wp_step; [by apply (conseraseline_ok _ _ _ _ _ Hed)|]. intros [] c1 [K1 E1].
  pose proof (in_plain _ _ _ Hi) as Hpl. pose proof (in_e _ _ _ (ed_in _ _ _ _ _ E1)) as Ee.
  destruct K1 as (K1 & K1' & K1''). pose proof (in_e _ _ _ Hi) as Ee'. rewrite !length_app in *. cbn [length] in *.
  eapply wp_mono; [apply (append_all_ok _ _ [0] _ _ _ _ E1)|].
  - apply list.Forall_forall. intros x [_ Hx]%list_elem_of_filter. by eapply list.Forall_forall.
  - right. split; [unfold INPUT_BUF; lia|done].
  - rewrite !length_app. cbn [length app]. lia.
  - rewrite Ee, K1. lia.
  - intros [] c2 (K2 & b2 & Hb2 & E2). split; [|exists b2; auto]. apply (kept_trans _ c1); [by split|done].
Qed.

End keys.

Lemma key_ok ch c q pre post base :
  editing c q pre post base → (length (q ++ pre ++ post) < 127)%nat → c_e c + 1 < 2 ^ 32 →
  edits ch = true → (ch = Ctrl 65 → pre = [] ∨ post = []) →
  wp (handle_key ch) (edited c q (edit ch (pre, post)) base) c.
Proof.
  intros Hed Hn Hmax He HA. pose proof (edits_key ch He) as (Hr & _ & _ & _ & H1 & H2 & H3).
  destruct (decide (ch ∈ commands)) as [Hc|Hc].
  - unfold commands in Hc. repeat (apply elem_of_cons in Hc as [->|Hc]).
    + by apply key_kill.
    + apply key_backspace; auto.
    + apply key_backspace; auto.
    + by apply key_clear.
    + by apply key_left.
    + by apply key_right.
    + by apply key_delnums.
    + by apply key_start; auto.
    + by apply key_end.
    + done.
    + done.
    + done.
    + by apply elem_of_nil in Hc.
  - rewrite edit_default by done. by apply key_text.
Qed.

(** ** The history *)

(** A command as it is stored. *)
Definition row (cmd : list Z) : list Z := cmd ++ replicate (128 - length cmd) 0.

(** The most recent commands are [H], the latest first. *)
Record history (c : console) (H : list (list Z)) : Prop := History {
  hi_len : length (h_buf c) = 10%nat;
  hi_w : h_w c = Z.of_nat (length H);
  hi_max : (length H ≤ 10)%nat;
  hi_rows : ∀ k cmd, H !! k = Some cmd → h_buf c !! k = Some (row cmd);
  hi_plain : Forall (λ cmd, Forall plain cmd ∧ (length cmd < 128)%nat) H
}.

Lemma get_cmd_ok (k : nat) cmd c : h_buf c !! k = Some cmd → get_cmd (Z.of_nat k) c = Ok cmd c.
Proof.
  intros H. unfold get_cmd. erewrite bind_ok; [|done]. rewrite (proj2 (Z.leb_le 0 (Z.of_nat k))) by lia.
  by rewrite Nat2Z.id, H.
Qed.

(** The rows below [n] moved down by one. *)
Lemma shift_rows n c :
  (n < length (h_buf c))%nat →
  ∃ rows, kfor_ (rev (seq 1 n)) (λ i, cmd ← get_cmd (Z.of_nat i - 1); kmodify (λ c, set_hbuf (<[i := cmd]> (h_buf c)) c)) c
    = Ok tt (set_hbuf rows c) ∧ length rows = length (h_buf c)
    ∧ ∀ k, (0 < k)%nat → rows !! k = h_buf c !! (if decide (k ≤ n)%nat then k - 1 else k)%nat.
Proof.
  revert c. induction n as [|n IH]; intros c Hn.
  - exists (h_buf c). split; [by destruct c|]. split; [done|]. intros k Hk. by rewrite decide_False by lia.
  - rewrite seq_S, rev_app_distr. cbn [rev app kfor_ Nat.add].
    destruct (lookup_lt_is_Some_2 (h_buf c) n) as [cmd Hcmd]; [lia|].
    replace (Z.of_nat (S n) - 1) with (Z.of_nat n) by lia.
    erewrite bind_ok; [|erewrite bind_ok; [|by apply get_cmd_ok]; done].
    set (c1 := set_hbuf _ c). destruct (IH c1) as (rows & R & L & HR); [subst c1; cbn; rewrite length_insert; lia|].
    exists rows. rewrite R. split; [done|]. cbn [h_buf c1 set_hbuf] in L, HR. rewrite length_insert in L. split; [done|].
    intros k Hk. rewrite HR by done. destruct (decide (k = S n)) as [->|Hne].
    + rewrite decide_False, decide_True, list_lookup_insert_eq by lia. simpl. by rewrite Nat.sub_0_r.
    + repeat case_decide; rewrite list_lookup_insert_ne; done || lia.
Qed.

Lemma row_length cmd : (length cmd ≤ 128)%nat → length (row cmd) = 128%nat.
Proof. intros. unfold row. rewrite length_app, length_replicate. lia. Qed.

(** The line as [storecmd] reads it: right as long as it does not reach behind the
    buffer. *)
Lemma plain_line_ok c q l :
  input_ok c q l → l ≠ [] →
  plain_line c = if c_e c <=? INPUT_BUF then Ok (row l) c else Undef "input.buf".
Proof.
  intros Hi Hl. pose proof Hi as [Hlen Hr Hw He Hmx Hroom Hring Hpl]. rewrite length_app in *.
  assert (0 < length l)%nat by (destruct l; [done|simpl; lia]).
  unfold plain_line. erewrite bind_ok; [|done]. rewrite (proj2 (Z.leb_gt (c_e c) (c_w c))) by lia.
  destruct (Z.leb_spec (c_e c) INPUT_BUF) as [H1|H1]; [|by rewrite (proj2 (Z.ltb_lt _ _)) by lia].
  rewrite (proj2 (Z.ltb_ge _ _)) by lia. unfold INPUT_BUF in *. unfold mret, K_ret.
  assert (take (Z.to_nat (c_e c - c_w c)) (drop (Z.to_nat (c_w c)) (c_buf c)) = l) as ->; [|done].
  apply list_eq. intros j. destruct (decide (j < length l)%nat) as [Hj|Hj].
  - rewrite lookup_take_lt, lookup_drop by lia. destruct (lookup_lt_is_Some_2 l j Hj) as [x Hx]. rewrite Hx.
    rewrite <- (Hring (length q + j)%nat x) by (rewrite lookup_app_r by lia; by replace (length q + j - length q)%nat with j by lia).
    f_equal. unfold slot, INPUT_BUF. rewrite Z.mod_small; lia.
  - rewrite (lookup_ge_None_2 l) by lia. apply lookup_ge_None_2. rewrite length_take, length_drop. lia.
Qed.

Lemma storecmd_ok c q l H :
  input_ok c q l → l ≠ [] → (length l < 128)%nat → history (set_hw (Z.of_nat (length H)) c) H →
  let H' := take 10 (l :: H) in
  h_w c = Z.of_nat (length H') →
  if c_e c <=? INPUT_BUF then ∃ rows, storecmd c = Ok tt (set_hbuf rows c) ∧ history (set_hbuf rows c) H'
  else storecmd c = Undef "input.buf".
Proof.
  intros Hi Hl Hl128 [Hlen _ Hmax Hrows Hpls] H' Hw. cbn [h_buf set_hw] in *. unfold storecmd.
  assert (length H' ≤ 10 ∧ 0 < length H' ∧ length H' ≤ S (length H))%nat as HH by (unfold H'; rewrite length_take; cbn [length]; lia).
  destruct (shift_rows (length H' - 1) c) as (rows & R & L & HR); [lia|].
  assert (input_ok (set_hbuf rows c) q l) as Hi' by (destruct Hi; by split).
  pose proof (plain_line_ok _ _ _ Hi' Hl) as Hp. cbn [c_e set_hbuf] in Hp.
  erewrite bind_ok; [|done]. replace (Z.to_nat (h_w c - 1)) with (length H' - 1)%nat by lia.
  erewrite bind_ok; [|exact R]. destruct (c_e c <=? INPUT_BUF).
  - erewrite bind_ok; [|exact Hp]. eexists. split; [done|]. split; cbn [h_buf h_w set_hbuf].
    + rewrite length_insert. lia.
    + done.
    + lia.
    + intros [|k] cmd Hk.
      * rewrite list_lookup_insert_eq by lia. unfold H' in Hk. cbn in Hk. by simplify_eq.
      * rewrite list_lookup_insert_ne by lia. pose proof (lookup_lt_Some _ _ _ Hk).
        rewrite HR, decide_True by lia. simpl. rewrite Nat.sub_0_r. apply Hrows.
        unfold H' in Hk. apply lookup_take_Some in Hk as [Hk _]. done.
    + unfold H'. apply Forall_take. constructor; [|done]. by destruct Hi.
  - unfold mbind, K_bind. by rewrite Hp.
Qed.

(** ** Entering a line *)

(** The state after a line was entered: everything before [c_e] waits to be read. *)
Definition entered (c : console) (q : list Z) : Prop :=
  ∃ base, editing c q [] [] base ∧ base mod 80 = 0.

Lemma newline_ok c q l :
  input_ok c q l → screen c → 0 ≤ pos_of c < 1920 → c_shift c = 0 → (length (q ++ l) < 128)%nat → c_e c + 1 < 2 ^ 32 →
  wp (inputputc CH_NL) (λ _ c', kept c c' ∧ entered (set_w (c_e c') c') (q ++ l ++ [CH_NL])) c.
Proof.
  intros [Hlen Hr Hw He Hmx Hroom Hring Hpl] Hs Hp Hsh Hn Hmax. unfold inputputc. eapply wp_run; [done|]. rewrite Hsh. cbn [Z.eqb].
  set (c1 := set_buf (<[slot (u32 (c_e c)) := CH_NL]> (c_buf c)) c).
  destruct (consputc_cga CH_NL c1) as [sent E]; [apply Hs|].
  eapply wp_step; [eapply wp_run; [done|]; eapply wp_same; [exact E|]; apply cga_newline; [by destruct Hs|done]|].
  intros [] c2 (D2 & S2 & P2 & M2). eexists tt, _. split; [done|].
  destruct (drawn_shift _ _ D2) as (E1 & E2 & E3). pose proof (kept_drawn _ _ D2) as (K1 & K2 & K3). cbn in E1, E2, E3, K1, K2.
  split; [done|]. exists (pos_of c2). split; [|done]. split; cbn.
  - rewrite length_app in *. split; cbn; try done.
    + by rewrite E3, length_insert.
    + by rewrite K1.
    + rewrite E2, K1, u32_small by lia. rewrite !length_app. simpl. lia.
    + rewrite E2, K1, u32_small by lia. rewrite !length_app. simpl. lia.
    + rewrite E2, u32_small; lia.
    + rewrite !length_app. simpl. lia.
    + rewrite E3, K1, app_nil_r, app_assoc, u32_small by lia. rewrite He. rewrite <- length_app in *. by apply ring_snoc.
  - split; cbn; try done; [by destruct S2|lia|lia| |by rewrite E1, Hsh].
    change (pos_of (set_w _ _)) with (pos_of c2). lia.
Qed.

Lemma resetcmds_ok c q pre post base H :
  editing c q pre post base → history c H → pre ++ post ≠ [] → (length (pre ++ post) < 128)%nat →
  if c_e c <=? INPUT_BUF then
    ∃ c', resetcmds c = Ok tt c' ∧ input_ok c' q (pre ++ post) ∧ shows c' base (pre ++ post)
      ∧ history c' (take 10 ((pre ++ post) :: H)) ∧ c_r c' = c_r c ∧ c_e c' = c_e c
  else resetcmds c = Undef "input.buf".
Proof.
  intros [Hi Ho] Hh Hl Hl128. set (H' := take 10 ((pre ++ post) :: H)). unfold resetcmds.
  do 3 (erewrite bind_ok; [|done]). erewrite bind_ok; [|done].
  pose proof Hh as [Hlen Hw Hmax Hrows Hpls]. cbn [h_w set_last set_tmp set_intab].
  assert ((if COMMAND_BUF <? h_w c + 1 then COMMAND_BUF else h_w c + 1) = Z.of_nat (length H')) as ->.
  { unfold H', COMMAND_BUF. rewrite length_take. cbn [length]. destruct (Z.ltb_spec 10 (h_w c + 1)); lia. }
  set (c1 := set_hw _ _). pose proof (storecmd_ok c1 q (pre ++ post) H) as Hst. fold H' in Hst. cbn zeta in Hst.
  change (c_e c1) with (c_e c) in Hst. destruct (c_e c <=? INPUT_BUF).
  - destruct Hst as (rows & R & Hh'); [by destruct Hi|done|done|by split|done|].
    erewrite bind_ok; [|exact R]. erewrite bind_ok; [|done]. set (c2 := set_hr 0 _).
    destruct (to_end c2 pre post base) as [R2 S2]; [by destruct Ho as [[] ?????]|].
    exists (at_pos (base + Z.of_nat (length (pre ++ post))) c2). split; [exact R2|].
    split; [by destruct Hi|]. split; [done|]. split; [by destruct Hh'|]. done.
  - unfold mbind at 1, K_bind at 1. rewrite Hst; [done|by destruct Hi|done|done|by split|done].
Qed.

Lemma enter_ok c q pre post base H ch :
  editing c q pre post base → history c H → ch = CH_NL ∨ ch = 13 →
  (length (q ++ pre ++ post) < 128)%nat → c_e c + 1 < 2 ^ 32 →
  let l := pre ++ post in
  if bool_decide (l = []) || (c_e c <=? INPUT_BUF) then
    wp (handle_key ch) (λ b c', b = true ∧ c_r c' = c_r c ∧ entered c' (q ++ l ++ [CH_NL])
      ∧ history c' (if bool_decide (l = []) then H else take 10 (l :: H))) c
  else handle_key ch c = Undef "input.buf".
Proof.
  intros Hed Hh Hch Hn Hmax l. pose proof Hed as [Hi Ho].
  assert (handle_key ch c = ((if 0 <? u32 (c_e c - c_w c) then resetcmds;; kmodify (set_shift 0) else mret tt);;
    inputputc CH_NL;; kmodify (λ c, set_w (c_e c) c);; mret true) c) as E.
  { rewrite handle_key_default by (destruct Hch as [-> | ->]; unfold commands; set_solver). unfold put_key. erewrite bind_ok; [|done].
    pose proof Hi as [_ Hr _ He _ _ _ _]. unfold has_room, INPUT_BUF. rewrite u32_small by lia.
    rewrite (proj2 (Z.ltb_lt (c_e c - c_r c) 128)) by lia. by destruct Hch as [-> | ->]. }
  rewrite (input_e_w _ _ _ Hi) in E. fold l in E.
  assert (∀ c1 H', input_ok c1 q l → screen c1 → 0 ≤ pos_of c1 < 1920 → c_shift c1 = 0 → c_e c1 = c_e c → c_r c1 = c_r c →
    history c1 H' → wp (inputputc CH_NL;; kmodify (λ c, set_w (c_e c) c);; mret true)
      (λ b c', b = true ∧ c_r c' = c_r c ∧ entered c' (q ++ l ++ [CH_NL]) ∧ history c' H') c1) as Hnl.
  { intros c1 H' Hi1 Hs1 Hp1 Hsh1 E1 E2 Hh1.
    eapply wp_step; [apply (newline_ok c1 q l); rewrite ?E1; try done; by destruct Hi1|].
    intros [] c2 ((K1 & K2 & K3) & Q). eexists true, _. split; [done|]. split; [done|]. split; [cbn; congruence|].
    split; [done|]. destruct Hh1.
    assert (h_buf c2 = h_buf c1 ∧ h_w c2 = h_w c1) as [X1 X2] by (unfold hist in K3; split; congruence).
    split; cbn; rewrite ?X1, ?X2; done. }
  destruct (decide (l = [])) as [El|Hl].
  - rewrite !bool_decide_eq_true_2 by done. cbn [orb]. eapply wp_same; [exact E|]. rewrite El at 1.
    change (0 <? Z.of_nat (@length Z [])) with false. cbn iota. eapply wp_run; [done|].
    unfold l in El. apply app_nil in El as [-> ->]. apply Hnl; try done; destruct Ho as [? ? Hf Hp ? Hsh]; try done. cbn in *. lia.
  - rewrite !bool_decide_eq_false_2 by done. cbn [orb].
    rewrite (proj2 (Z.ltb_lt _ _)) in E by (destruct l; [done|simpl; lia]).
    assert (length l < 128)%nat as Hl128 by (rewrite length_app in Hn; unfold l; lia).
    pose proof (resetcmds_ok _ _ _ _ _ _ Hed Hh Hl Hl128) as Hrs. destruct (c_e c <=? INPUT_BUF).
    + destruct Hrs as (c1 & R1 & I1 & [S1 ? ? ? ?] & H1 & E1 & E2). eapply wp_same; [exact E|].
      eapply wp_run; [by rewrite (bind_ok _ _ _ _ _ R1)|]. apply Hnl; try done; try by destruct I1.
      * by destruct S1.
      * change (pos_of (set_shift 0 c1)) with (pos_of c1). lia.
      * by destruct H1.
    + rewrite E. unfold mbind, K_bind. by rewrite Hrs.
Qed.

(** The up arrow replaces the line by the next older command. *)
Lemma recall_ok c q pre post base H k cmd :
  editing c q pre post base → history c H → h_r c = Z.of_nat k → H !! k = Some cmd →
  (length (q ++ cmd) ≤ 128)%nat → c_r c + Z.of_nat (length (q ++ cmd)) < 2 ^ 32 →
  (k = 0%nat → pre ++ post = [] ∨ c_e c ≤ INPUT_BUF) →
  wp (handle_key ARROW_UP) (λ b c', b = false ∧ c_r c' = c_r c ∧ h_r c' = Z.of_nat (S k) ∧ history c' H
    ∧ ∃ base', scrolled base base' ∧ editing c' q cmd [] base') c.
Proof.
  intros Hed Hh Hk Hcmd Hn Hmax Hcopy. pose proof Hh as [Hlen Hw Hm Hrows Hpls]. pose proof (lookup_lt_Some _ _ _ Hcmd).
  eapply (wp_same _ ((if h_r c =? 0 then copycmd else mret tt);; kmodify (set_hr (h_r c + 1));;
    (if h_w c <? h_r c + 1 then kmodify (set_hr (h_w c)) else loadcmd);; mret false) _ c c eq_refl).
  eapply (wp_step _ _ (λ _ c1, ∃ tmp, c1 = set_tmp tmp c)).
  { destruct (Z.eqb_spec (h_r c) 0) as [E0|]; [|apply wp_ret; exists (h_tmp c); by destruct c]. unfold copycmd.
    destruct (decide (pre ++ post = [])) as [El|Hl].
    - eapply wp_run; [|by eexists tt, _; split; [done|]; eexists].
      unfold plain_line. erewrite bind_ok; [|done]. destruct (ed_in _ _ _ _ _ Hed) as [_ _ Hw' He' _ _ _ _].
      rewrite El, app_nil_r in He'. rewrite (proj2 (Z.leb_le (c_e c) (c_w c))) by lia. done.
    - pose proof (plain_line_ok _ _ _ (ed_in _ _ _ _ _ Hed) Hl) as Hp.
      rewrite (proj2 (Z.leb_le _ _)) in Hp by (destruct Hcopy; [lia|done|done]).
      eapply wp_run; [exact Hp|]. by eexists tt, _; split; [done|]; eexists. }
  intros [] c1 [tmp ->]. eapply wp_run; [done|]. rewrite (proj2 (Z.ltb_ge _ _)) by lia. set (c2 := set_hr _ _).
  assert (editing c2 q pre post base) as E2 by (destruct Hed as [[] [[] ?????]]; by split).
  unfold loadcmd. eapply (wp_step _ _ (λ _ c', c_r c' = c_r c ∧ h_r c' = Z.of_nat (S k) ∧ history c' H
    ∧ ∃ base', scrolled base base' ∧ editing c' q cmd [] base')); [|intros [] c3 Q; by apply wp_ret].
  eapply wp_step; [by apply (conseraseline_ok _ _ _ _ _ E2)|]. intros [] c3 [(K1 & K2 & K3) E3]. eapply wp_run; [done|].
  assert (h_buf c3 = h_buf c ∧ h_w c3 = h_w c ∧ h_r c3 = Z.of_nat (S k)) as (X1 & X2 & X3).
  { unfold hist in K3. cbn in K3. assert (h_r c3 = h_r c + 1) by congruence. split; [congruence|]. split; [congruence|lia]. }
  replace (h_r c3 - 1) with (Z.of_nat k) by lia. eapply wp_run; [apply get_cmd_ok; by rewrite X1, (Hrows k cmd)|].
  pose proof (proj1 (list.Forall_forall _ _) Hpls cmd (list_elem_of_lookup_2 _ _ _ Hcmd)) as [Hpl Hl].
  destruct (ed_in _ _ _ _ _ E3) as [_ Hr3 _ He3 _ _ _ _]. rewrite length_app in *. cbn in K1.
  eapply wp_mono; [apply (append_all_ok _ cmd _ _ _ _ _ E3 Hpl)|].
  - right. split; [unfold INPUT_BUF; lia|]. destruct (128 - length cmd)%nat eqn:E; [lia|done].
  - rewrite length_app. cbn. lia.
  - rewrite He3, length_app, K1. cbn. lia.
  - intros [] c4 ((K4 & K5 & K6) & b & Hb & E4).
    assert (h_buf c4 = h_buf c ∧ h_w c4 = h_w c ∧ h_r c4 = Z.of_nat (S k)) as (Y1 & Y2 & Y3) by (unfold hist in K6; repeat split; congruence).
    split; [congruence|]. split; [done|]. split; [split; rewrite ?Y1, ?Y2; done|]. eauto.
Qed.
