(* ===== verification/ConsDev.v ===== *)
(** * The console as a device

    The routines of [console.c] that run in the kernel: the interrupt handler
    [consoleintr], which hands the typed characters to the line editor of
    [Console], and [consoleread] and [consolewrite], which [consoleinit] enters
    in [devsw].  The console's data is the part of the state that [HasConsole]
    reaches; the characters the driver returns are the list [keys]. *)

From S2P Require Import Prelude Spinlock CString State PrioLock Sched Proc Sleep Sleeplock Pipe FsState Bio Bytes Log Fs Console.

Class HasConsole (X : Type) := {
  x_con : X → console;
  x_set_con : console → X → X;
  x_con_set c x : x_con (x_set_con c x) = c;
  x_set_con_set c c' x : x_set_con c (x_set_con c' x) = x_set_con c x;
  x_set_con_id x : x_set_con (x_con x) x = x
}.

#[export] Instance console_here : HasConsole console :=
  {| x_con := id; x_set_con c _ := c; x_con_set _ _ := eq_refl;
     x_set_con_set _ _ _ := eq_refl; x_set_con_id _ := eq_refl |}.

#[export] Instance console_fst (Xm Xf : Type) `{!HasConsole Xm} : HasConsole (Xm * Xf).
Proof.
  refine {| x_con x := x_con x.1; x_set_con c x := (x_set_con c x.1, x.2) |}.
  - intros c x. apply x_con_set.
  - intros c c' x. simpl. by rewrite x_set_con_set.
  - intros [x y]. simpl. by rewrite x_set_con_id.
Defined.

Section console_ops.
Context {X : Type} `{!HasConsole X}.
Notation M := (K (kstate X)).

Definition con (s : kstate X) : console := x_con (k_ext s).
Definition set_con (c : console) (s : kstate X) : kstate X := set_k_ext (x_set_con c (k_ext s)) s.

(** A routine of [Console] as part of the kernel; it never gives up the CPU. *)
Definition with_con {A} (m : K console A) : M A := λ s,
  match m (con s) with
  | Ok a c => Ok a (set_con c s)
  | Panic msg => Panic msg
  | Spin c => Spin (set_con c s)
  | Undef w => Undef w
  | NoFuel => NoFuel
  | Wait _ _ => Undef "swtch"
  end.

(** The loop of [consoleintr] until [getc] is negative; the result says whether
    [C('P')] was typed. *)
Fixpoint consoleintr_loop (keys : list Z) (doprocdump : bool) : M bool :=
  match keys with
  | [] => mret doprocdump
  | ch :: keys' =>
      if ch <? 0 then mret doprocdump
      else if ch =? Ctrl 80 then consoleintr_loop keys' true
      else
        complete ← with_con (handle_key ch);
        (if (complete : bool) then wakeup (Some Chan_input) else mret tt);;
        consoleintr_loop keys' doprocdump
  end.

Definition consoleintr (procdump : M unit) (keys : list Z) : M unit :=
  acquire L_cons;;
  doprocdump ← consoleintr_loop keys false;
  release L_cons;;
  if (doprocdump : bool) then procdump else mret tt.

(** Waiting for input, one unit of fuel per sleep: [false] when killed. *)
Fixpoint consoleread_wait (fuel : nat) : M bool :=
  match fuel with
  | O => knofuel
  | S fuel' =>
      c ← with_con kget;
      if c_r c =? c_w c then
        i ← curproc;
        p ← get_proc i;
        if negb (p_killed p =? 0) then mret false
        else sleep (Some Chan_input) (Some L_cons);; consoleread_wait fuel'
      else mret true
  end.

(** [input.buf[input.r++ % INPUT_BUF]] *)
Definition consoleread_next : M Z :=
  with_con (c ← kget; ch ← get_in (c_r c); kmodify (set_r (u32 (c_r c + 1)));; mret ch).

(** [n] more characters, at most, after those already stored at [dst]; [false]
    when the process was killed. *)
Fixpoint consoleread_loop (fuel : nat) (n : nat) (dst : list Z) : M (bool * list Z) :=
  match n with
  | O => mret (true, dst)
  | S n' =>
      ready ← consoleread_wait fuel;
      if negb ready then mret (false, dst) else
      ch ← consoleread_next;
      if ch =? Ctrl 68 then
        (if (0 <? length dst)%nat then with_con (kmodify (λ c, set_r (u32 (c_r c - 1)) c)) else mret tt);;
        mret (true, dst)
      else if ch =? CH_NL then mret (true, dst ++ [u8 ch])
      else consoleread_loop fuel n' (dst ++ [u8 ch])
  end.

End console_ops.

Section console_dev.
Context {Xm : Type} `{!HasConsole Xm} (slp fuel : nat).
Notation M := (K (kstate (Xm * fsx))).

Definition consoleread (ip : nat) (n : Z) : M (Z * list Z) :=
  iunlock ip;;
  acquire L_cons;;
  r ← consoleread_loop fuel (Z.to_nat n) [];
  release L_cons;;
  ilock slp ip;;
  mret (if (r.1 : bool) then (Z.of_nat (length r.2), r.2) else (-1, r.2)).

Definition consolewrite (ip : nat) (buf : list Z) (n : Z) : M Z :=
  iunlock ip;;
  acquire L_cons;;
  kfor_ (seq 0 (Z.to_nat n)) (λ i,
    match buf !! i with
    | Some ch => with_con (consputc (Z.land ch 255))
    | None => kundef "buf"
    end);;
  release L_cons;;
  ilock slp ip;;
  mret n.

Definition CONSOLE : Z := 1.

(** [devsw] after [consoleinit]. *)
Definition consoleinit : DevOps Xm := {|
  devsw_read d := if d =? CONSOLE then Some consoleread else None;
  devsw_write d := if d =? CONSOLE then Some consolewrite else None
|}.

End console_dev.

(** ** Typing *)

Section typing.
Context {X : Type} `{!HasConsole X}.
Implicit Types (s : kstate X).

Lemma con_set c s : con (set_con c s) = c.
Proof. apply x_con_set. Qed.

Lemma set_con_con c c' s : set_con c (set_con c' s) = set_con c s.
Proof. unfold set_con. cbn. by rewrite x_set_con_set. Qed.

Lemma set_con_same s : set_con (con s) s = s.
Proof. unfold set_con, con. rewrite x_set_con_id. by destruct s. Qed.

Lemma with_con_ok {A} (m : K console A) s a c : m (con s) = Ok a c → with_con m s = Ok a (set_con c s).
Proof. unfold with_con. by intros ->. Qed.

(** In a critical section of the console. *)
Record in_cons (s : kstate X) (i : nat) (c : cpu) : Prop := InCons {
  ic_at : mach_at (k_mach s) i c;
  ic_ncli : 0 < ncli c < 2 ^ 31 - 16;
  ic_free : locks (k_mach s) !! L_ptable = None;
  ic_len : length (k_ptable s) = NPROC
}.

Lemma in_cons_con s i c con' : in_cons s i c → in_cons (set_con con' s) i c.
Proof. by intros []. Qed.

Lemma in_cons_wakeup s i c ch :
  in_cons s i c → wakeup (Some ch) s = Ok tt (set_k_ptable (map (wake (Some ch)) (k_ptable s)) s).
Proof.
  intros [H1 H2 H3 H4]. rewrite (wakeup_ok _ s i c); [|by split; [|lia|]|done].
  rewrite settled_busy by (done || lia). by destruct s.
Qed.

(** Keys that end no line; [C('A')] with the cursor at one end of it only. *)
Fixpoint editable (keys : list Z) (line : list Z * list Z) : bool :=
  match keys with
  | [] => true
  | k :: keys' => edits k && (negb (k =? Ctrl 65) || bool_decide (line.1 = [] ∨ line.2 = [])) && editable keys' (edit k line)
  end.

Lemma length_edit k line : (length ((edit k line).1 ++ (edit k line).2) ≤ S (length (line.1 ++ line.2)))%nat.
Proof.
  destruct line as [pre post]. unfold edit. pose proof (length_filter (λ x, ¬ is_digit x) (pre ++ post)).
  repeat case_match; cbn [fst snd]; rewrite ?length_app, ?length_take, ?length_drop, ?length_app in *; cbn [length]; lia.
Qed.

Lemma length_edits keys line :
  let line' := foldl (λ l k, edit k l) line keys in
  (length (line'.1 ++ line'.2) ≤ length (line.1 ++ line.2) + length keys)%nat.
Proof.
  revert line. induction keys as [|k keys IH]; intros line; cbn [foldl length]; [lia|].
  specialize (IH (edit k line)). pose proof (length_edit k line). cbn zeta in *. lia.
Qed.

Lemma loop_edits keys s i c q line base more d :
  in_cons s i c → editing (con s) q line.1 line.2 base → editable keys line = true →
  (length (q ++ line.1 ++ line.2) + length keys < 128)%nat → c_e (con s) + Z.of_nat (length keys) < 2 ^ 32 →
  let line' := foldl (λ l k, edit k l) line keys in
  ∃ c' base', consoleintr_loop (keys ++ more) d s = consoleintr_loop more d (set_con c' s)
    ∧ kept (con s) c' ∧ (base' = 2 ∨ scrolled base base') ∧ editing c' q line'.1 line'.2 base'.
Proof.
  revert s line base. induction keys as [|k keys IH]; intros s line base Hin Hed Hks Hn Hmax line'.
  - exists (con s), base. rewrite set_con_same. split; [done|]. split; [done|]. split; [right; apply scrolled_refl|done].
  - cbn [editable] in Hks. apply andb_true_iff in Hks as [[Hk HA]%andb_true_iff Hks].
    destruct line as [pre post]. cbn [fst snd length] in *.
    pose proof (edits_key k Hk) as (Hr & _). assert (k ≠ Ctrl 80) by (intros ->; done).
    destruct (key_ok k (con s) q pre post base Hed) as (b & c1 & R & -> & K1 & b1 & Hb1 & E1); [lia|lia|done|by intros ->; apply bool_decide_eq_true in HA|].
    cbn [app consoleintr_loop]. rewrite (proj2 (Z.ltb_ge k 0)), (proj2 (Z.eqb_neq k (Ctrl 80))) by (done || lia).
    rewrite (bind_ok _ _ _ _ _ (with_con_ok _ _ _ _ R)), bind_mret.
    destruct (IH (set_con c1 s) (edit k (pre, post)) b1) as (c2 & b2 & R2 & K2 & Hb2 & E2).
    + by apply in_cons_con.
    + by rewrite con_set.
    + done.
    + pose proof (length_edit k (pre, post)) as Hle. cbn [fst snd] in Hle. rewrite !length_app in *. lia.
    + rewrite con_set, (in_e _ _ _ (ed_in _ _ _ _ _ E1)). destruct K1 as [-> _].
      rewrite (in_e _ _ _ (ed_in _ _ _ _ _ Hed)) in Hmax. pose proof (length_edit k (pre, post)) as Hle.
      cbn [fst snd] in Hle. rewrite !length_app in *. lia.
    + exists c2, b2. rewrite R2, set_con_con. split; [done|]. rewrite con_set in K2. split; [by eapply kept_trans|].
      split; [|exact E2]. pose proof (os_base _ _ _ _ (ed_scr _ _ _ _ _ E2)).
      destruct Hb2 as [|Hs]; [by left|]. destruct Hb1 as [->|Hs1]; [left; destruct Hs as (n & ? & ?); lia|].
      right. by eapply scrolled_trans.
Qed.

(** A device interrupt: the CPU is in no critical section. *)
Record interrupted (s : kstate X) (i : nat) (c : cpu) : Prop := Interrupted {
  ir_at : mach_at (k_mach s) i c;
  ir_ncli : ncli c = 0;
  ir_cons : locks (k_mach s) !! L_cons = None;
  ir_ptable : locks (k_mach s) !! L_ptable = None;
  ir_len : length (k_ptable s) = NPROC
}.

Definition entered_cons (s : kstate X) (i : nat) (c : cpu) : kstate X := set_k_mach (acquired L_cons i c (k_mach s)) s.

Lemma in_cons_entered s i c : interrupted s i c → in_cons (entered_cons s i c) i (push_cpu (eflags_if (k_mach s)) c).
Proof.
  intros [H1 H2 H3 H4 H5]. split.
  - by apply mach_at_acquired.
  - rewrite ncli_push. lia.
  - unfold entered_cons. kproj. by rewrite locks_acquired_ne.
  - done.
Qed.

(** The handler, from what its loop does. *)
Lemma consoleintr_run procdump keys s i c con' tab :
  interrupted s i c →
  consoleintr_loop keys false (entered_cons s i c) = Ok false (set_k_ptable tab (set_con con' (entered_cons s i c))) →
  consoleintr procdump keys s = Ok tt (set_k_mach (settled i c (k_mach s)) (set_k_ptable tab (set_con con' s))).
Proof.
  intros [H1 H2 H3 H4 H5] R. unfold consoleintr. rewrite (bind_acquire L_cons _ i c s) by (done || lia).
  rewrite (bind_ok _ _ _ _ _ R). rewrite (bind_release L_cons _ (k_mach s) i c) by (done || lia). done.
Qed.

Lemma ptable_con con' s : set_k_ptable (k_ptable s) (set_con con' s) = set_con con' s.
Proof. by destruct s. Qed.

(** ** Reading *)

Lemma consoleread_ready fuel s : c_r (con s) ≠ c_w (con s) → consoleread_wait (S fuel) s = Ok true s.
Proof.
  intros H. cbn [consoleread_wait]. rewrite (bind_ok _ _ _ (con s) s) by (unfold with_con; cbn; by rewrite set_con_same).
  by rewrite (proj2 (Z.eqb_neq _ _)).
Qed.

Lemma ring_tail buf r x l : ring buf r (x :: l) → ring buf (r + 1) l.
Proof. intros H. change (x :: l) with ([x] ++ l) in H. by apply ring_app in H as [_ H]. Qed.

Lemma consoleread_next_ok s x q l :
  input_ok (con s) (x :: q) l →
  consoleread_next s = Ok x (set_con (set_r (c_r (con s) + 1) (con s)) s)
  ∧ input_ok (set_r (c_r (con s) + 1) (con s)) q l.
Proof.
  intros [Hlen Hr Hw He Hmx Hroom Hring Hpl]. cbn [length app] in *. split.
  - unfold consoleread_next. apply with_con_ok. erewrite bind_ok; [|done].
    assert (c_buf (con s) !!! slot (u32 (c_r (con s))) = x) as Ex.
    { rewrite u32_small by lia. apply list_lookup_total_correct. rewrite <- (Z.add_0_r (c_r (con s))). by apply (Hring 0%nat). }
    rewrite (bind_ok _ _ _ x (con s)) by (unfold get_in, mbind, K_bind, kget; cbn [rbind]; by rewrite Ex).
    erewrite bind_ok; [|done]. by rewrite u32_small by lia.
  - split; cbn; try done; try lia. by eapply ring_tail.
Qed.

(** A complete line is there: it is returned, and what follows stays. *)
Lemma consoleread_line fuel line q l dst : ∀ n s,
  input_ok (con s) (line ++ CH_NL :: q) l → Forall (λ x, x ≠ CH_NL ∧ x ≠ Ctrl 68) line → (length line < n)%nat →
  ∃ r, let c' := set_r r (con s) in
    consoleread_loop (S fuel) n dst s = Ok (true, dst ++ map u8 (line ++ [CH_NL])) (set_con c' s) ∧ input_ok c' q l.
Proof.
  revert dst. induction line as [|x line IH]; intros dst n s Hi Hl Hn; (destruct n as [|n]; [simpl in Hn; lia|]).
  - assert (c_r (con s) ≠ c_w (con s)) as Hne by (destruct Hi as [_ _ Hw _ _ _ _ _]; simpl in Hw; lia).
    cbn [consoleread_loop app]. rewrite (bind_ok _ _ _ _ _ (consoleread_ready fuel s Hne)). cbn [negb].
    destruct (consoleread_next_ok _ _ _ _ Hi) as [R Hi']. rewrite (bind_ok _ _ _ _ _ R). eexists. split; [done|]. done.
  - apply list.Forall_cons in Hl as [[Hx1 Hx2] Hl]. cbn [app] in Hi.
    assert (c_r (con s) ≠ c_w (con s)) as Hne by (destruct Hi as [_ _ Hw _ _ _ _ _]; cbn [length] in Hw; lia).
    cbn [consoleread_loop]. rewrite (bind_ok _ _ _ _ _ (consoleread_ready fuel s Hne)). cbn [negb].
    destruct (consoleread_next_ok _ _ _ _ Hi) as [R Hi']. rewrite (bind_ok _ _ _ _ _ R).
    rewrite (proj2 (Z.eqb_neq x (Ctrl 68))), (proj2 (Z.eqb_neq x CH_NL)) by done.
    simpl in Hn. destruct (IH (dst ++ [u8 x]) n (set_con (set_r (c_r (con s) + 1) (con s)) s)) as (r & R' & Hi2).
    + by rewrite con_set.
    + done.
    + lia.
    + rewrite con_set in R', Hi2. exists r. cbv zeta. rewrite R', set_con_con, <- app_assoc. done.
Qed.

(** What editing keeps. *)
Lemma kept_input c c' q line : kept c c' → input_ok c q [] → input_ok c' q line →
  c_r c' = c_r c ∧ c_e c' = c_e c + Z.of_nat (length line).
Proof.
  intros (K1 & K2 & K3) [_ _ _ He _ _ _ _] [_ _ _ He' _ _ _ _]. rewrite length_app in *. cbn [length] in *. lia.
Qed.

Lemma history_kept c c' H : kept c c' → history c H → history c' H.
Proof.
  intros (_ & _ & K) [H1 H2 H3 H4 H5]. unfold hist in K.
  assert (h_buf c' = h_buf c ∧ h_w c' = h_w c) as [X1 X2] by (split; congruence). split; rewrite ?X1, ?X2; done.
Qed.

(** Editing keys never put a [C('D')] into the line. *)
Lemma edit_no_eof k line :
  edits k = true → Forall (λ x, x ≠ Ctrl 68) (line.1 ++ line.2) →
  Forall (λ x, x ≠ Ctrl 68) ((edit k line).1 ++ (edit k line).2).
Proof.
  intros Hk H. destruct line as [pre post]. cbn [fst snd] in H. pose proof H as [H1 H2]%list.Forall_app.
  pose proof (edits_key k Hk) as (Hr & _ & _ & Hd & _).
  unfold edit. repeat case_match; cbn [fst snd]; rewrite ?app_nil_r; rewrite ?list.Forall_app;
    repeat split; auto using Forall_take, Forall_drop, list.Forall_nil_2.
  - apply list.Forall_forall. intros x [_ Hx]%list_elem_of_filter. exact (proj1 (list.Forall_forall _ _) H x Hx).
  - constructor; [|done]. unfold s8, u8, Ctrl in *. rewrite Z.mod_small by lia. destruct (k <? 2 ^ 7); lia.
Qed.

Lemma edits_no_eof keys line :
  (∀ k, k ∈ keys → edits k = true) → Forall (λ x, x ≠ Ctrl 68) (line.1 ++ line.2) →
  let line' := foldl (λ l k, edit k l) line keys in Forall (λ x, x ≠ Ctrl 68) (line'.1 ++ line'.2).
Proof.
  revert line. induction keys as [|k keys IH]; intros line Hk H; [done|]. cbn [foldl]. apply IH; [set_solver|].
  apply edit_no_eof; [|done]. apply Hk. by left.
Qed.

Lemma editable_edits keys line k : editable keys line = true → k ∈ keys → edits k = true.
Proof.
  revert line. induction keys as [|k' keys IH]; intros line H Hk; [by apply elem_of_nil in Hk|].
  cbn [editable] in H. apply andb_true_iff in H as [[H _]%andb_true_iff H'].
  apply elem_of_cons in Hk as [->|Hk]; [done|by eapply IH].
Qed.

End typing.

(** ** Properties *)

Section properties.
Context {X : Type} `{!HasConsole X}.

(** [C('A')] puts the cursor at the wrong place in the middle of a
    line: it moves by the length of the whole line from where the cursor is, so the
    text after the cursor is counted twice, while the editor works at the start
    of the line; the next characters appear over what stands before the line. *)
Lemma ctrl_a_misplaced (s : kstate X) i c procdump q pre post base :
  interrupted s i c → editing (con s) q pre post base → pre ≠ [] → post ≠ [] →
  (length (q ++ pre ++ post) < 127)%nat → c_e (con s) + 1 < 2 ^ 32 → Z.of_nat (length post) ≤ base →
  ∃ con', consoleintr procdump [Ctrl 65] s = Ok tt (set_k_mach (settled i c (k_mach s)) (set_con con' s))
    ∧ input_ok con' q (pre ++ post) ∧ c_shift con' = Z.of_nat (length (pre ++ post))
    ∧ pos_of con' = base - Z.of_nat (length post).
Proof.
  intros Hir Hed Hpre Hpost Hn Hmax Hb. assert (0 < length pre)%nat as Hl by (destruct pre; [done|simpl; lia]).
  pose proof (key_start_run (con s) q pre post base Hed Hn Hmax Hl) as R. cbv zeta in R.
  set (con' := at_pos _ _) in R. exists con'. split; [|split; [|split; [done|]]].
  - rewrite (consoleintr_run procdump [Ctrl 65] s i c con' (k_ptable s) Hir); [by rewrite ptable_con|].
    cbn [consoleintr_loop]. change (Ctrl 65 <? 0) with false. change (Ctrl 65 =? Ctrl 80) with false. cbn iota.
    rewrite (bind_ok _ _ _ _ _ (with_con_ok (handle_key (Ctrl 65)) (entered_cons s i c) _ _ R)).
    rewrite bind_mret. by rewrite (ptable_con con' (entered_cons s i c)).
  - eapply input_drawn; [apply drawn_at_pos, drawn_refl|]. apply input_shift, Hed.
  - pose proof (ed_scr _ _ _ _ _ Hed) as [_ _ Hf Hp _ _]. subst con'. rewrite length_app in *. rewrite pos_at_pos; lia.
Qed.


(** C23: A line that is typed with editing keys and entered is what a process
    waiting for input then reads, the readers are woken, and a line that is not
    empty becomes the latest of the ten commands of the history.  The history is
    copied without reducing the index into the input buffer, so this holds only
    until 128 characters have been typed; after that the copy reaches behind the
    buffer. *)
Theorem console_typed_line_is_read (s : kstate X) i c procdump base keys H nl :
  interrupted s i c → editing (con s) [] [] [] base → history (con s) H → editable keys ([], []) = true →
  nl = CH_NL ∨ nl = 13 → (length keys < 127)%nat → c_e (con s) + Z.of_nat (length keys) + 1 < 2 ^ 32 →
  let line := foldl (λ l k, edit k l) ([], []) keys in
  let l := line.1 ++ line.2 in
  if bool_decide (l = []) || (c_e (con s) + Z.of_nat (length l) <=? INPUT_BUF) then
    ∃ con', consoleintr procdump (keys ++ [nl]) s
        = Ok tt (set_k_mach (settled i c (k_mach s)) (set_k_ptable (map (wake (Some Chan_input)) (k_ptable s)) (set_con con' s)))
      ∧ history con' (if bool_decide (l = []) then H else take 10 (l :: H))
      ∧ ∀ s2 n fuel, con s2 = con' → (length l < n)%nat →
          ∃ con2, consoleread_loop (S fuel) n [] s2 = Ok (true, map u8 (l ++ [CH_NL])) (set_con con2 s2) ∧ entered con2 []
  else consoleintr procdump (keys ++ [nl]) s = Undef "input.buf".
Proof.
  intros Hir Hed Hh Hks Hnl Hn Hmax line l. pose proof (in_cons_entered _ _ _ Hir) as Hin.
  destruct (loop_edits keys (entered_cons s i c) i _ [] ([], []) base [nl] false Hin Hed Hks) as (c1 & b1 & R1 & K1 & Hb1 & E1);
    [simpl; lia|change (con (entered_cons s i c)) with (con s); lia|].
  destruct (kept_input _ _ _ _ K1 (ed_in _ _ _ _ _ Hed) (ed_in _ _ _ _ _ E1)) as [Er Ee].
  pose proof (history_kept _ _ _ K1 Hh) as Hh1. pose proof (length_edits keys ([], [])) as Hle. cbv zeta in Hle. cbn [app length fst snd] in Hle.
  fold line in E1, Hle, Ee. fold l in Hle, Ee.
  pose proof (enter_ok c1 [] line.1 line.2 b1 H nl E1 Hh1 Hnl) as Hen. cbn [app] in Hen. fold l in Hen. rewrite Ee in Hen.
  change (con (entered_cons s i c)) with (con s) in Hen. specialize (Hen ltac:(lia) ltac:(lia)). rewrite <- (con_set c1 (entered_cons s i c)) in Hen.
  set (s1 := set_con c1 (entered_cons s i c)) in *.
  assert (∀ d, consoleintr_loop [nl] d s1 = (complete ← with_con (handle_key nl);
    (if (complete : bool) then wakeup (Some Chan_input) else mret tt);; mret d) s1) as Hloop.
  { intros d. cbn [consoleintr_loop]. destruct Hnl as [-> | ->]; done. }
  destruct (bool_decide (l = []) || (c_e (con s) + Z.of_nat (length l) <=? INPUT_BUF)).
  - destruct Hen as (b & c2 & R2 & -> & Er2 & (b2 & E2 & Hm2) & Hh2). exists c2. split; [|split; [done|]].
    + apply consoleintr_run; [done|]. rewrite R1, Hloop. rewrite (bind_ok _ _ _ _ _ (with_con_ok _ _ _ _ R2)).
      unfold s1. rewrite set_con_con.
      by rewrite (bind_ok _ _ _ _ _ (in_cons_wakeup _ i _ Chan_input (in_cons_con _ _ _ _ Hin))).
    + intros s2 n fuel <- Hln. destruct (consoleread_line fuel l [] [] [] n s2) as (r & R & Hi).
      * apply E2.
      * apply list.Forall_forall. intros x Hx. split.
        -- by destruct (proj1 (list.Forall_forall _ _) (in_plain _ _ _ (ed_in _ _ _ _ _ E1)) x Hx) as (_ & ? & _).
        -- pose proof (edits_no_eof keys ([], []) (λ k, editable_edits keys _ k Hks)) as Hne.
           exact (proj1 (list.Forall_forall _ _) (Hne ltac:(constructor)) x Hx).
      * done.
      * eexists. split; [exact R|]. exists b2. split; [|done]. split; [done|]. by destruct E2 as [_ [[] ?????]].
  - unfold consoleintr. destruct Hir. rewrite (bind_acquire L_cons _ i c s) by (done || lia).
    change (set_k_mach (acquired L_cons i c (k_mach s)) s) with (entered_cons s i c).
    unfold mbind at 1, K_bind at 1. rewrite R1, Hloop. unfold mbind, K_bind, with_con. by rewrite Hen.
Qed.

End properties.

(** ** Samples *)

(** A prompt on an empty screen. *)
Definition sample_console : console :=
  Console 0 (replicate 2000 blank) 0 2 0 [] (replicate 128 0) 0 0 0 0 (replicate 10 (replicate 128 0)) 0 0 0 (replicate 128 0) 0.

Definition sample_typing (c : console) : kstate console :=
  Kstate (Machine [Cpu 0 1 0 0 (Some 0%nat) 0] 0 false ∅)
    (sample_table [sample_proc RUNNING 7 None]) 20 (Some 0%nat) 0 0 (Prioritylock 0 0 [] 0) 0 [] c.

Lemma sample_interrupted c : interrupted (sample_typing c) 0 (Cpu 0 1 0 0 (Some 0%nat) 0).
Proof. split; [by split|reflexivity|reflexivity|reflexivity|reflexivity]. Qed.

Lemma sample_editing : editing (con (sample_typing sample_console)) [] [] [] 2.
Proof.
  split; [split|split]; try done; try (cbn; lia).
Qed.

Lemma sample_history : history (con (sample_typing sample_console)) [].
Proof. split; try done; cbn; lia. Qed.

Lemma console_typed_line_is_read_witness :
  ∃ c', history c' [[108; 115]] ∧ ∀ s2 : kstate console, con s2 = c' →
    ∃ c2, consoleread_loop 1 100 [] s2 = Ok (true, [108; 115; 10]) (set_con c2 s2).
Proof.
  destruct (console_typed_line_is_read (sample_typing sample_console) 0 (Cpu 0 1 0 0 (Some 0%nat) 0) (mret tt) 2
    [108; 97; 8; 115] [] 13 (sample_interrupted _) sample_editing sample_history) as (c' & R & H & Hr);
    [reflexivity|by right|simpl; lia|reflexivity|].
  exists c'. split; [exact H|]. intros s2 E. destruct (Hr s2 100%nat 0%nat E) as (c2 & R2 & _); [simpl; lia|]. by exists c2.
Defined.

(** The line [ab] with the cursor between the letters. *)
Definition sample_mid : console :=
  Console 0 (<[2%nat := glyph 97]> (<[3%nat := glyph 98]> (replicate 2000 blank))) 0 3 0 [] (97 :: 98 :: replicate 126 0)
    0 0 2 1 (replicate 10 (replicate 128 0)) 0 0 0 (replicate 128 0) 0.

Lemma sample_mid_editing : editing (con (sample_typing sample_mid)) [] [97] [98] 2.
Proof.
  split; [split|split]; try done; try (cbn; lia).
  - intros [|[|j]] ch Hj; by simplify_eq/=.
  - by repeat constructor.
  - intros [|[|j]] ch Hj; by simplify_eq/=.
Qed.


(** [C('D')] does not reset the cursor: after it, a character typed in the middle
    of the line goes into the input that has been entered ([input.w] is 3), in
    front of a character that no longer belongs to it. *)
Example ctrl_d_keeps_cursor :
  match consoleintr (mret tt) [Ctrl 68; 120] (sample_typing sample_mid) with
  | Ok _ s => (take 4 (c_buf (con s)), c_w (con s), c_e (con s), c_shift (con s)) = ([97; 4; 120; 98], 3, 4, 1)
  | _ => False
  end.
Proof. vm_compute. reflexivity. Qed.
