(* ===== verification/Kbd.v ===== *)
(** * The keyboard driver

    Models [kbd.c] and the tables of [kbd.h]: scan codes to characters, with the
    state of the modifier keys, and [kbdintr], which hands them to the console. *)

From S2P Require Import Prelude Spinlock Printf State Console ConsDev.

Definition SHIFT : Z := 1.
Definition CTL : Z := 2.
Definition ALT : Z := 4.
Definition CAPSLOCK : Z := 8.
Definition NUMLOCK : Z := 16.
Definition SCROLLLOCK : Z := 32.
Definition E0ESC : Z := 64.

Definition KEY_HOME : Z := 224.
Definition KEY_END : Z := 225.
Definition KEY_UP : Z := 226.
Definition KEY_DN : Z := 227.
Definition KEY_LF : Z := 228.
Definition KEY_RT : Z := 229.
Definition KEY_PGUP : Z := 230.
Definition KEY_PGDN : Z := 231.
Definition KEY_INS : Z := 232.
Definition KEY_DEL : Z := 233.

(** An array of 256 [uchar] with the given first elements and designated ones. *)
Definition initializer (front : list Z) (designated : list (Z * Z)) : list Z :=
  foldl (λ t '(i, v), <[Z.to_nat i := u8 v]> t) (map u8 front ++ replicate (256 - length front) 0) designated.

Definition shiftcode : list Z :=
  initializer [] [(0x1D, CTL); (0x2A, SHIFT); (0x36, SHIFT); (0x38, ALT); (0x9D, CTL); (0xB8, ALT)].

Definition togglecode : list Z :=
  initializer [] [(0x3A, CAPSLOCK); (0x45, NUMLOCK); (0x46, SCROLLLOCK)].

(** The keys after an [0xE0]. *)
Definition escaped_keys : list (Z * Z) :=
  [(0xC8, KEY_UP); (0xD0, KEY_DN); (0xC9, KEY_PGUP); (0xD1, KEY_PGDN); (0xCB, KEY_LF); (0xCD, KEY_RT);
   (0x97, KEY_HOME); (0xCF, KEY_END); (0xD2, KEY_INS); (0xD3, KEY_DEL)].

Definition normalmap : list Z :=
  initializer
    ([0; 0x1B] ++ str "1234567890-=" ++ [8; 9] ++ str "qwertyuiop[]" ++ [10; 0] ++ str "asdfghjkl;'`" ++ [0] ++ str "\zxcvbnm,./"
     ++ [0; 42; 0; 32] ++ replicate 13 0 ++ str "789-456+1230." ++ replicate 4 0)
    ([(0x9C, 10); (0xB5, 47)] ++ escaped_keys).

Definition shiftmap : list Z :=
  initializer
    ([0; 27] ++ str "!@#$%^&*()_+" ++ [8; 9] ++ str "QWERTYUIOP{}" ++ [10; 0] ++ str "ASDFGHJKL:" ++ [34; 126] ++ [0] ++ str "|ZXCVBNM<>?"
     ++ [0; 42; 0; 32] ++ replicate 13 0 ++ str "789-456+1230." ++ replicate 4 0)
    ([(0x9C, 10); (0xB5, 47)] ++ escaped_keys).

(** [C(x)] is [Ctrl] of [Console]. *)
Definition ctlmap : list Z :=
  initializer
    (replicate 16 0 ++ map Ctrl (str "QWERTYUIOP") ++ [0; 0; 13; 0] ++ map Ctrl (str "ASDFGHJKL") ++ [0; 0; 0; 0]
     ++ map Ctrl (str "\ZXCVBNM") ++ [0; 0; Ctrl 47; 0; 0])
    ([(0x9C, 13); (0xB5, Ctrl 47)] ++ escaped_keys).

(** The static variable [shift], and the bytes the controller has to deliver:
    [KBS_DIB] of the status port says whether there is one. *)
Record kbd := Kbd { kb_shift : Z; kb_data : list Z }.

Definition set_kb_shift (v : Z) (k : kbd) : kbd := Kbd v (kb_data k).

Definition table_at (t : list Z) (i : Z) : K kbd Z :=
  match t !! Z.to_nat i with Some v => mret v | None => kundef "index" end.

Definition charcode : list (list Z) := [normalmap; shiftmap; ctlmap; ctlmap].

(** [inb(KBDATAP)] *)
Definition next_data (data : list Z) : K kbd unit := kmodify (λ k, Kbd (kb_shift k) data).

Definition kbdgetc : K kbd Z :=
  k ← kget;
  match kb_data k with
  | [] => mret (-1)
  | data :: rest =>
      next_data rest;;
      let shift := kb_shift k in
      if data =? 0xE0 then kmodify (set_kb_shift (Z.lor shift E0ESC));; mret 0
      else if negb (Z.land data 0x80 =? 0) then
        let data := if negb (Z.land shift E0ESC =? 0) then data else Z.land data 0x7F in
        c ← table_at shiftcode data;
        kmodify (set_kb_shift (Z.land shift (2 ^ 32 - 1 - Z.lor c E0ESC)));;
        mret 0
      else
        let esc := negb (Z.land shift E0ESC =? 0) in
        let data := if esc then Z.lor data 0x80 else data in
        let shift := if esc then Z.land shift (2 ^ 32 - 1 - E0ESC) else shift in
        a ← table_at shiftcode data;
        b ← table_at togglecode data;
        let shift := Z.lxor (Z.lor shift a) b in
        kmodify (set_kb_shift shift);;
        match charcode !! Z.to_nat (Z.land shift (Z.lor CTL SHIFT)) with
        | None => kundef "index"
        | Some t =>
            c ← table_at t data;
            if negb (Z.land shift CAPSLOCK =? 0) then
              if (97 <=? c) && (c <=? 122) then mret (c + (65 - 97))
              else if (65 <=? c) && (c <=? 90) then mret (c + (97 - 65))
              else mret c
            else mret c
        end
  end.

(** What [consoleintr] gets from [kbdgetc], up to the first -1. *)
Fixpoint kbd_keys (fuel : nat) : K kbd (list Z) :=
  match fuel with
  | O => knofuel
  | S fuel' =>
      c ← kbdgetc;
      if c <? 0 then mret [] else l ← kbd_keys fuel'; mret (c :: l)
  end.

(** [kbdgetc] touches nothing but its own state, so the characters can be
    fetched before [consoleintr] runs. *)
Definition kbdintr {X : Type} `{!HasConsole X} (procdump : K (kstate X) unit) (k : kbd) : K (kstate X) kbd :=
  match kbd_keys (S (length (kb_data k))) k with
  | Ok keys k' => consoleintr procdump keys;; mret k'
  | _ => kundef "kbdgetc"
  end.

(** ** One byte *)

Definition kbd_ok (k : kbd) : Prop := 0 ≤ kb_shift k < 128 ∧ Forall (λ d, 0 ≤ d < 256) (kb_data k).

(** The byte decides together with [shift]; what follows it does not matter. *)
Lemma kbdgetc_rest sh d rest : kbdgetc (Kbd sh (d :: rest)) =
  match kbdgetc (Kbd sh [d]) with Ok c k => Ok c (Kbd (kb_shift k) rest) | Undef w => Undef w | _ => NoFuel end.
Proof.
  unfold kbdgetc, table_at, next_data, mbind, K_bind, mret, K_ret, kget, kmodify, kundef.
  cbn [rbind kb_data kb_shift set_kb_shift]. destruct (d =? 224); [reflexivity|].
  destruct (negb (Z.land d 128 =? 0)), (negb (Z.land sh E0ESC =? 0)).
  1,2: by destruct (shiftcode !! _).
  all: destruct (shiftcode !! _); [|reflexivity]; cbn [rbind]; destruct (togglecode !! _); [|reflexivity]; cbn [rbind];
    destruct (charcode !! _) as [t|]; [|reflexivity]; destruct (t !! _); [|reflexivity]; cbn [rbind]; repeat case_match; reflexivity.
Qed.

Definition byte_ok (sh d : nat) : bool :=
  match kbdgetc (Kbd (Z.of_nat sh) [Z.of_nat d]) with
  | Ok c k => (0 <=? c) && (c <? 256) && (0 <=? kb_shift k) && (kb_shift k <? 128)
  | _ => false
  end.

Lemma all_bytes_ok : forallb (λ sh, forallb (byte_ok sh) (seq 0 256)) (seq 0 128) = true.
Proof. vm_compute. reflexivity. Qed.

Lemma kbdgetc_byte sh d rest : 0 ≤ sh < 128 → 0 ≤ d < 256 →
  ∃ c sh', kbdgetc (Kbd sh (d :: rest)) = Ok c (Kbd sh' rest) ∧ 0 ≤ c < 256 ∧ 0 ≤ sh' < 128.
Proof.
  intros Hs Hd. pose proof all_bytes_ok as H. rewrite forallb_forall in H. specialize (H (Z.to_nat sh)). rewrite forallb_forall in H.
  assert (byte_ok (Z.to_nat sh) (Z.to_nat d) = true) as B by (apply H; apply in_seq; lia). clear H. unfold byte_ok in B.
  rewrite !Z2Nat.id in B by lia. rewrite kbdgetc_rest. destruct (kbdgetc _) as [c k| | | | |]; try done.
  exists c, (kb_shift k). split; [done|]. lia.
Qed.

(** ** All bytes *)

Lemma kbd_keys_ok : ∀ l sh, 0 ≤ sh < 128 → Forall (λ d, 0 ≤ d < 256) l →
  ∃ keys sh', kbd_keys (S (length l)) (Kbd sh l) = Ok keys (Kbd sh' []) ∧ length keys = length l ∧ Forall (λ c, 0 ≤ c < 256) keys ∧ 0 ≤ sh' < 128.
Proof.
  induction l as [|d l IH]; intros sh Hs Hl.
  - exists [], sh. split; [reflexivity|]. split; [done|]. split; [constructor|done].
  - apply list.Forall_cons in Hl as [Hd Hl]. destruct (kbdgetc_byte sh d l Hs Hd) as (c & sh1 & R & Hc & Hs1).
    destruct (IH sh1 Hs1 Hl) as (keys & sh' & R' & H1 & H2 & H3). exists (c :: keys), sh'.
    change (kbd_keys (S (length (d :: l)))) with (c ← kbdgetc; if c <? 0 then mret [] else ks ← kbd_keys (S (length l)); mret (c :: ks)).
    rewrite (bind_ok _ _ _ _ _ R), (proj2 (Z.ltb_ge _ _)) by lia. rewrite (bind_ok _ _ _ _ _ R'). split; [done|].
    split; [cbn; congruence|]. split; [by constructor|done].
Qed.

(** Bytes that arrive together are handled like bytes that arrive in two parts. *)
Lemma kbd_keys_app l1 l2 sh k1 sh1 k2 sh2 :
  kbd_keys (S (length l1)) (Kbd sh l1) = Ok k1 (Kbd sh1 []) → Forall (λ d, 0 ≤ d < 256) l1 → 0 ≤ sh < 128 →
  kbd_keys (S (length l2)) (Kbd sh1 l2) = Ok k2 (Kbd sh2 []) →
  kbd_keys (S (length (l1 ++ l2))) (Kbd sh (l1 ++ l2)) = Ok (k1 ++ k2) (Kbd sh2 []).
Proof.
  intros H1 Hb Hs H2. revert sh k1 Hs H1. induction Hb as [|d l1 Hd Hl IH]; intros sh k1 Hs H1.
  - injection H1 as <- ->. done.
  - assert (U : ∀ l, kbd_keys (S (length (d :: l))) = (c ← kbdgetc; if c <? 0 then mret [] else ks ← kbd_keys (S (length l)); mret (c :: ks))) by done.
    cbn [app]. rewrite U in H1 |- *. destruct (kbdgetc_byte sh d l1 Hs Hd) as (c & sh' & R & Hc & Hs').
    assert (R2 : kbdgetc (Kbd sh (d :: l1 ++ l2)) = Ok c (Kbd sh' (l1 ++ l2))).
    { rewrite kbdgetc_rest in R |- *. destruct (kbdgetc (Kbd sh [d])) as [c0 k0| | | | |]; try done. injection R as -> ->. done. }
    destruct (kbd_keys_ok l1 sh' Hs' Hl) as (ks & sh3 & R3 & _).
    rewrite (bind_ok _ _ _ _ _ R), (proj2 (Z.ltb_ge _ _)), (bind_ok _ _ _ _ _ R3) in H1 by lia. injection H1 as <- ->.
    rewrite (bind_ok _ _ _ _ _ R2), (proj2 (Z.ltb_ge _ _)) by lia. by rewrite (bind_ok _ _ _ _ _ (IH _ _ Hs' R3)).
Qed.

(** ** Typing text *)

(** The key of a character, without or with the shift key. *)
Definition key_of (t : list Z) (c : Z) : option Z := Z.of_nat ∘ fst <$> list_find (λ x, x = c) t.

(** Pressing and releasing a key; keys from 128 on have an escape. *)
Definition stroke (i : Z) : list Z := if i <? 128 then [i; i + 128] else [0xE0; i - 128; 0xE0; i].

(** The scan codes of typing a character: 0x2A and 0xAA are the left shift key. *)
Definition keystrokes (c : Z) : list Z :=
  match key_of normalmap c, key_of shiftmap c with
  | Some i, _ => stroke i
  | None, Some i => [0x2A] ++ stroke i ++ [0xAA]
  | None, None => []
  end.

(** The characters of a text: the printable ones, tab and newline, and the keys
    that move the cursor. *)
Definition typable (c : Z) : Prop := 32 ≤ c ≤ 126 ∨ c = 9 ∨ c = 10 ∨ KEY_HOME ≤ c ≤ KEY_DEL.

(** Caps lock swaps the case of letters. *)
Definition swapcase (c : Z) : Z := if (97 <=? c) && (c <=? 122) then c - 32 else if (65 <=? c) && (c <=? 90) then c + 32 else c.

Definition typed_ok (c : Z) : bool :=
  forallb (λ d, (0 <=? d) && (d <? 256)) (keystrokes c) &&
  match kbd_keys (S (length (keystrokes c))) (Kbd 0 (keystrokes c)), kbd_keys (S (length (keystrokes c))) (Kbd CAPSLOCK (keystrokes c)) with
  | Ok keys k, Ok keys' k' =>
      bool_decide (filter (λ x, x ≠ 0) keys = [c]) && bool_decide (filter (λ x, x ≠ 0) keys' = [swapcase c])
      && (kb_shift k =? 0) && (kb_shift k' =? CAPSLOCK)
  | _, _ => false
  end.

Lemma all_typed_ok : forallb typed_ok ([9; 10] ++ map Z.of_nat (seq 32 95 ++ seq 224 10)) = true.
Proof. vm_compute. reflexivity. Qed.

Lemma typed_char c (caps : bool) : typable c → Forall (λ d, 0 ≤ d < 256) (keystrokes c) ∧
  ∃ keys, kbd_keys (S (length (keystrokes c))) (Kbd (if caps then CAPSLOCK else 0) (keystrokes c)) = Ok keys (Kbd (if caps then CAPSLOCK else 0) [])
    ∧ filter (λ x, x ≠ 0) keys = [if caps then swapcase c else c].
Proof.
  intros Hc. pose proof all_typed_ok as H. rewrite forallb_forall in H.
  assert (typed_ok c = true) as B.
  { apply H, list_elem_of_In, elem_of_app. destruct Hc as [Hc|[-> |[-> |Hc]]]; [right|left; by left|left; right; by left|right].
    all: apply list_elem_of_fmap; exists (Z.to_nat c); rewrite elem_of_app, !elem_of_seq; unfold KEY_HOME, KEY_DEL in *; lia. }
  unfold typed_ok in B. apply andb_true_iff in B as [B1 B]. rewrite forallb_forall in B1.
  assert (Hb : Forall (λ d, 0 ≤ d < 256) (keystrokes c)).
  { apply list.Forall_forall. intros d Hd%list_elem_of_In%B1. lia. }
  split; [done|]. destruct (kbd_keys_ok (keystrokes c) (if caps then CAPSLOCK else 0) ltac:(by destruct caps) Hb) as (keys & sh & R & _).
  destruct (kbd_keys_ok (keystrokes c) (if caps then 0 else CAPSLOCK) ltac:(by destruct caps) Hb) as (keys' & sh' & R' & _).
  exists keys. destruct caps; rewrite R, R' in B; cbn [kb_shift] in B; rewrite !andb_true_iff, !bool_decide_eq_true, !Z.eqb_eq in B; rewrite R; naive_solver.
Qed.

Lemma typed_text text (caps : bool) : Forall typable text →
  ∃ keys, kbd_keys (S (length (text ≫= keystrokes))) (Kbd (if caps then CAPSLOCK else 0) (text ≫= keystrokes)) = Ok keys (Kbd (if caps then CAPSLOCK else 0) [])
    ∧ filter (λ x, x ≠ 0) keys = if caps then map swapcase text else text.
Proof.
  induction 1 as [|c text Hc Ht (keys & R & E)]; [exists []; by destruct caps|].
  destruct (typed_char c caps Hc) as (Hb & k1 & R1 & E1). exists (k1 ++ keys). rewrite bind_cons.
  split; [eapply kbd_keys_app; [exact R1|done|by destruct caps|exact R]|]. rewrite list.filter_app, E1, E. by destruct caps.
Qed.

(** C18: The keyboard driver keeps its types and types what is on the keys.  From
    any state of the modifiers and any bytes from the controller, [kbdgetc]
    stays inside its tables, returns -1 exactly when there is no byte and a
    character code otherwise, uses up one byte, and leaves [shift] a set of its
    seven flags; so an interrupt hands one code per byte to the console and ends.
    Pressing and releasing the keys of a text (cursor keys included), with the left shift key where a
    character needs it, delivers the text (with the case of letters swapped under
    caps lock) apart from zeros, and leaves the modifiers as they were. *)
Theorem keyboard_correct k : kbd_ok k →
  (∃ c k', kbdgetc k = Ok c k' ∧ kbd_ok k' ∧ -1 ≤ c < 256 ∧ kb_data k' = tail (kb_data k) ∧ (c = -1 ↔ kb_data k = []))
  ∧ (∃ keys k', kbd_keys (S (length (kb_data k))) k = Ok keys k' ∧ kbd_ok k' ∧ kb_data k' = []
       ∧ length keys = length (kb_data k) ∧ Forall (λ c, 0 ≤ c < 256) keys)
  ∧ (∀ text (caps : bool), Forall typable text → kb_shift k = (if caps then CAPSLOCK else 0) → kb_data k = text ≫= keystrokes →
       ∃ keys, kbd_keys (S (length (kb_data k))) k = Ok keys (Kbd (kb_shift k) [])
         ∧ filter (λ x, x ≠ 0) keys = if caps then map swapcase text else text).
Proof.
  destruct k as [sh l]. intros [Hs Hl]. cbn [kb_shift kb_data] in *. split; [|split].
  - destruct l as [|d l]; [exists (-1), (Kbd sh []); done|]. apply list.Forall_cons in Hl as [Hd Hl].
    destruct (kbdgetc_byte sh d l Hs Hd) as (c & sh' & R & Hc & Hs'). exists c, (Kbd sh' l).
    split; [done|]. split; [done|]. split; [lia|]. split; [done|]. split; [lia|done].
  - destruct (kbd_keys_ok l sh Hs Hl) as (keys & sh' & R & H1 & H2 & H3). exists keys, (Kbd sh' []). split; [done|]. split; [by split|done].
  - intros text caps Ht -> ->. by apply typed_text.
Qed.

(** Typing [Hi!] with caps lock on. *)
Lemma keyboard_correct_witness : ∃ keys, kbd_keys (S (length (str "Hi!" ≫= keystrokes))) (Kbd CAPSLOCK (str "Hi!" ≫= keystrokes)) = Ok keys (Kbd CAPSLOCK [])
  ∧ filter (λ x, x ≠ 0) keys = str "hI!".
Proof.
  destruct (keyboard_correct (Kbd CAPSLOCK (str "Hi!" ≫= keystrokes))) as (_ & _ & H).
  - split; [done|]. vm_compute. repeat constructor; congruence.
  - apply (H (str "Hi!") true); [|reflexivity|reflexivity]. vm_compute. repeat constructor; congruence.
Defined.
