(* ===== verification/Shell.v ===== *)
(** * The shell's parser

    Models the parsing half of [sh.c]: the tokens, the recursive-descent parser
    that builds the command nodes, and the final pass that ends the words with
    NULs.  The line is a buffer, pointers into it are positions; the nodes are
    kept in a heap, because [parseexec] goes on filling the [EXEC] node it has
    wrapped in redirections.  [malloc] is taken to succeed, as the code does. *)

From S2P Require Import Prelude Printf CString Bytes.

(** ** Data *)

Definition MAXARGS : nat := 10.

(** The nodes; pointers to nodes are indices of the heap, [argv] and [eargv] hold
    positions of the line, [None] for a null pointer. *)
Inductive node :=
| EXEC (argv eargv : list (option nat))
| REDIR (cmd : nat) (file efile : nat) (mode fd : Z)
| PIPE (left right : nat)
| LIST (left right : nat)
| BACK (cmd : nat).

Record shell := Shell { sh_buf : list Z; sh_heap : list node }.
Definition set_sh_buf (v : list Z) (s : shell) : shell := Shell v (sh_heap s).
Definition set_sh_heap (v : list node) (s : shell) : shell := Shell (sh_buf s) v.


Notation M := (K shell).

(** [*s] *)
Definition get (p : nat) : M Z :=
  b ← kgets sh_buf;
  match b !! p with Some c => mret c | None => kundef "*s" end.

Definition malloc_node (n : node) : M nat :=
  h ← kgets sh_heap;
  kmodify (set_sh_heap (h ++ [n]));;
  mret (length h).

Definition execcmd : M nat := malloc_node (EXEC (replicate MAXARGS None) (replicate MAXARGS None)).
Definition redircmd (subcmd file efile : nat) (mode fd : Z) : M nat := malloc_node (REDIR subcmd file efile mode fd).
Definition pipecmd (left right : nat) : M nat := malloc_node (PIPE left right).
Definition listcmd (left right : nat) : M nat := malloc_node (LIST left right).
Definition backcmd (subcmd : nat) : M nat := malloc_node (BACK subcmd).

(** ** Tokens *)

(** [strchr(set, c)] as a truth value. *)
Definition in_set (set : list Z) (c : Z) : bool :=
  match strchr (set ++ [0]) c with Some (Some _) => true | _ => false end.

Definition whitespace : list Z := [32; 9; 13; 10; 11].
Definition symbols : list Z := str "<|>&;()".

Definition CH_a : Z := 97.
Definition CH_PLUS : Z := 43.
Definition CH_LT : Z := 60.
Definition CH_GT : Z := 62.
Definition CH_BAR : Z := 124.
Definition CH_AMP : Z := 38.
Definition CH_SEMI : Z := 59.
Definition CH_OPEN : Z := 40.
Definition CH_CLOSE : Z := 41.

(** [while (s < es && cond( *s)) s++] *)
Fixpoint skip (fuel : nat) (cond : Z → bool) (s es : nat) : M nat :=
  match fuel with
  | O => knofuel
  | S fuel' =>
      if (s <? es)%nat then
        c ← get s;
        if cond c then skip fuel' cond (s + 1) es else mret s
      else mret s
  end.

Definition skip_space (s es : nat) : M nat := skip (S (es - s)) (in_set whitespace) s es.

Definition word_char (c : Z) : bool := negb (in_set whitespace c) && negb (in_set symbols c).

(** The result: the token, [*q], [*eq] and the new [*ps]. *)
Definition gettoken (s es : nat) : M (Z * nat * nat * nat) :=
  s ← skip_space s es;
  let q := s in
  c ← get s;
  r ← (if c =? 0 then mret (c, s)
       else if (c =? CH_BAR) || (c =? CH_OPEN) || (c =? CH_CLOSE) || (c =? CH_SEMI) || (c =? CH_AMP) || (c =? CH_LT) then
         mret (c, s + 1)%nat
       else if c =? CH_GT then
         c' ← get (s + 1);
         if c' =? CH_GT then mret (CH_PLUS, s + 2)%nat else mret (c, s + 1)%nat
       else
         s ← skip (S (es - s)) word_char s es;
         mret (CH_a, s));
  let '(ret, s) := r in
  let eq := s in
  s ← skip_space s es;
  mret (ret, q, eq, s).

Definition peek (s es : nat) (toks : string) : M (bool * nat) :=
  s ← skip_space s es;
  c ← get s;
  mret (negb (c =? 0) && in_set (str toks) c, s).

(** ** The parser *)

Fixpoint parseredirs (fuel : nat) (cmd s es : nat) : M (nat * nat) :=
  match fuel with
  | O => knofuel
  | S fuel' =>
      r ← peek s es "<>";
      let '(b, s) := r in
      if (b : bool) then
        r ← gettoken s es;
        let '(tok, _, _, s) := r in
        r ← gettoken s es;
        let '(t, q, eq, s) := r in
        if negb (t =? CH_a) then kpanic "missing file for redirection" else
        cmd ← (if tok =? CH_LT then redircmd cmd q eq O_RDONLY 0
               else if tok =? CH_GT then redircmd cmd q eq (Z.lor O_WRONLY O_CREATE) 1
               else if tok =? CH_PLUS then redircmd cmd q eq (Z.lor O_WRONLY O_CREATE) 1
               else mret cmd);
        parseredirs fuel' cmd s es
      else mret (cmd, s)
  end.

Definition redirs_of (cmd s es : nat) : M (nat * nat) := parseredirs (S (es - s)) cmd s es.

Definition alter_exec (cmd : nat) (f : list (option nat) → list (option nat) → node) : M unit :=
  kmodify (λ st, set_sh_heap (alter (λ n, match n with EXEC argv eargv => f argv eargv | _ => n end) cmd (sh_heap st)) st).

(** The loop of [parseexec]; [cmd] is the [EXEC] node, [ret] what wraps it. *)
Fixpoint parseexec_loop (fuel : nat) (cmd argc ret s es : nat) : M (nat * nat) :=
  match fuel with
  | O => knofuel
  | S fuel' =>
      let finish s :=
        alter_exec cmd (λ argv eargv, EXEC (<[argc := None]> argv) (<[argc := None]> eargv));;
        mret (ret, s) in
      r ← peek s es "|)&;";
      let '(b, s) := r in
      if (b : bool) then finish s else
      r ← gettoken s es;
      let '(tok, q, eq, s) := r in
      if tok =? 0 then finish s else
      if negb (tok =? CH_a) then kpanic "syntax" else
      alter_exec cmd (λ argv eargv, EXEC (<[argc := Some q]> argv) (<[argc := Some eq]> eargv));;
      let argc := (argc + 1)%nat in
      if (MAXARGS <=? argc)%nat then kpanic "too many args" else
      r ← redirs_of ret s es;
      let '(ret, s) := r in
      parseexec_loop fuel' cmd argc ret s es
  end.

(** The loop of [parseline] that takes the [&]s. *)
Fixpoint back_loop (fuel : nat) (cmd s es : nat) : M (nat * nat) :=
  match fuel with
  | O => knofuel
  | S fuel' =>
      r ← peek s es "&";
      let '(b, s) := r in
      if (b : bool) then
        r ← gettoken s es;
        let '(_, _, _, s) := r in
        cmd ← backcmd cmd;
        back_loop fuel' cmd s es
      else mret (cmd, s)
  end.

Fixpoint parseline (fuel : nat) (s es : nat) : M (nat * nat) :=
  match fuel with
  | O => knofuel
  | S fuel' =>
      r ← parsepipe fuel' s es;
      let '(cmd, s) := r in
      r ← back_loop (S (es - s)) cmd s es;
      let '(cmd, s) := r in
      r ← peek s es ";";
      let '(b, s) := r in
      if (b : bool) then
        r ← gettoken s es;
        let '(_, _, _, s) := r in
        r ← parseline fuel' s es;
        let '(cmd2, s) := r in
        cmd ← listcmd cmd cmd2;
        mret (cmd, s)
      else mret (cmd, s)
  end
with parsepipe (fuel : nat) (s es : nat) : M (nat * nat) :=
  match fuel with
  | O => knofuel
  | S fuel' =>
      r ← parseexec fuel' s es;
      let '(cmd, s) := r in
      r ← peek s es "|";
      let '(b, s) := r in
      if (b : bool) then
        r ← gettoken s es;
        let '(_, _, _, s) := r in
        r ← parsepipe fuel' s es;
        let '(cmd2, s) := r in
        cmd ← pipecmd cmd cmd2;
        mret (cmd, s)
      else mret (cmd, s)
  end
with parseexec (fuel : nat) (s es : nat) : M (nat * nat) :=
  match fuel with
  | O => knofuel
  | S fuel' =>
      r ← peek s es "(";
      let '(b, s) := r in
      if (b : bool) then parseblock fuel' s es else
      cmd ← execcmd;
      r ← redirs_of cmd s es;
      let '(ret, s) := r in
      parseexec_loop (S (es - s)) cmd 0 ret s es
  end
with parseblock (fuel : nat) (s es : nat) : M (nat * nat) :=
  match fuel with
  | O => knofuel
  | S fuel' =>
      r ← peek s es "(";
      let '(b, s) := r in
      if negb b then kpanic "parseblock" else
      r ← gettoken s es;
      let '(_, _, _, s) := r in
      r ← parseline fuel' s es;
      let '(cmd, s) := r in
      r ← peek s es ")";
      let '(b, s) := r in
      if negb b then kpanic "syntax - missing )" else
      r ← gettoken s es;
      let '(_, _, _, s) := r in
      redirs_of cmd s es
  end.

(** ** Ending the words *)

(** [*p = 0] *)
Definition put_nul (p : nat) : M unit :=
  b ← kgets sh_buf;
  if (p <? length b)%nat then kmodify (set_sh_buf (<[p := 0]> b)) else kundef "*p = 0".

(** [for (i = 0; argv[i]; i++) *eargv[i] = 0] *)
Fixpoint nul_args (argv eargv : list (option nat)) : M unit :=
  match argv, eargv with
  | Some _ :: argv', Some e :: eargv' => put_nul e;; nul_args argv' eargv'
  | None :: _, _ => mret tt
  | _, _ => kundef "argv[i]"
  end.

Fixpoint nulterminate (fuel : nat) (cmd : option nat) : M (option nat) :=
  match fuel with
  | O => knofuel
  | S fuel' =>
      match cmd with
      | None => mret None
      | Some c =>
          h ← kgets sh_heap;
          match h !! c with
          | None => kundef "cmd->type"
          | Some n =>
              (match n with
               | EXEC argv eargv => nul_args argv eargv
               | REDIR c file efile mode fd => nulterminate fuel' (Some c);; put_nul efile
               | PIPE l r => nulterminate fuel' (Some l);; nulterminate fuel' (Some r);; mret tt
               | LIST l r => nulterminate fuel' (Some l);; nulterminate fuel' (Some r);; mret tt
               | BACK c => nulterminate fuel' (Some c);; mret tt
               end);;
              mret (Some c)
          end
      end
  end.

(** How [parsecmd] ends: with a command, or with [leftovers: s] printed for the text
    [s] behind the command, after which it calls [panic("syntax")].  The panics of the
    routines it calls are those of the monad. *)
Inductive parsed := Parsed (cmd : nat) | Leftovers (s : list Z).

Definition parsecmd : M parsed :=
  b ← kgets sh_buf;
  match strlen b with
  | None => kundef "strlen"
  | Some n =>
      let es := Z.to_nat n in
      r ← parseline (4 * es + 4) 0 es;
      let '(cmd, s) := r in
      r ← peek s es "";
      let '(_, s) := r in
      if negb (s =? es)%nat then
        b ← kgets sh_buf;
        mret (Leftovers (cstr (drop s b)))
      else
      h ← kgets sh_heap;
      nulterminate (S (length h)) (Some cmd);;
      mret (Parsed cmd)
  end.

(** ** The language of the shell *)

Inductive sym := Bar | Open | Close | Semi | Amp | Lt | Gt | GtGt.
#[global] Instance sym_eq_dec : EqDecision sym.
Proof. solve_decision. Defined.

(** A token: a word or a symbol. *)
Inductive token := W (w : list Z) | Sym (s : sym).

(** What [gettoken] returns for a symbol, and the character [peek] sees. *)
Definition code (s : sym) : Z :=
  match s with
  | Bar => CH_BAR | Open => CH_OPEN | Close => CH_CLOSE | Semi => CH_SEMI
  | Amp => CH_AMP | Lt => CH_LT | Gt => CH_GT | GtGt => CH_PLUS
  end.

Definition first (s : sym) : Z := if decide (s = GtGt) then CH_GT else code s.

Definition sym_of (c : Z) : option sym :=
  if c =? CH_BAR then Some Bar else if c =? CH_OPEN then Some Open else if c =? CH_CLOSE then Some Close
  else if c =? CH_SEMI then Some Semi else if c =? CH_AMP then Some Amp else if c =? CH_LT then Some Lt
  else if c =? CH_GT then Some Gt else None.

Definition flush (w : list Z) : list token := match w with [] => [] | _ => [W w] end.

(** The tokens of a text, [w] being the word read so far. *)
Fixpoint lex (w l : list Z) : list token :=
  match l with
  | [] => flush w
  | c :: l' =>
      if in_set whitespace c then flush w ++ lex [] l' else
      match sym_of c with
      | None => lex (w ++ [c]) l'
      | Some Gt =>
          flush w ++
          match l' with
          | c' :: l'' => if c' =? CH_GT then Sym GtGt :: lex [] l'' else Sym Gt :: lex [] l'
          | [] => [Sym Gt]
          end
      | Some s => flush w ++ Sym s :: lex [] l'
      end
  end.

Definition tokens (l : list Z) : list token := lex [] l.

(** Commands: a simple command has its words, a redirection the file's name, the
    mode it is opened with and the descriptor it replaces. *)
Inductive tree :=
| Simple (args : list (list Z))
| Redir (t : tree) (file : list Z) (mode fd : Z)
| Pipe (l r : tree)
| Seq (l r : tree)
| Back (t : tree).

Definition redirection : Type := list Z * Z * Z.

Definition wrap : tree → list redirection → tree := foldl (λ t '(f, mode, fd), Redir t f mode fd).

(** The redirection a symbol stands for. *)
Definition redir (s : sym) : option (Z * Z) :=
  match s with
  | Lt => Some (O_RDONLY, 0)
  | Gt | GtGt => Some (Z.lor O_WRONLY O_CREATE, 1)
  | _ => None
  end.

(** Words and redirections in any order. *)
Inductive g_items : list token → list (list Z) → list redirection → Prop :=
| gi_nil : g_items [] [] []
| gi_word w u a rs : g_items u a rs → g_items (W w :: u) (w :: a) rs
| gi_redir s mode fd f u a rs :
    redir s = Some (mode, fd) → g_items u a rs → g_items (Sym s :: W f :: u) a ((f, mode, fd) :: rs).

(** The grammar:
    - line ::= pipe &* | pipe &* ; line
    - pipe ::= exec | exec | pipe
    - exec ::= words and redirections | ( line ) redirections *)
Inductive g_line : list token → tree → Prop :=
| gl_last u t n : g_pipe u t → g_line (u ++ replicate n (Sym Amp)) (Nat.iter n Back t)
| gl_seq u t n v t' :
    g_pipe u t → g_line v t' → g_line (u ++ replicate n (Sym Amp) ++ Sym Semi :: v) (Seq (Nat.iter n Back t) t')
with g_pipe : list token → tree → Prop :=
| gp_last u t : g_exec u t → g_pipe u t
| gp_pipe u t v t' : g_exec u t → g_pipe v t' → g_pipe (u ++ Sym Bar :: v) (Pipe t t')
with g_exec : list token → tree → Prop :=
| ge_simple u a rs : g_items u a rs → (length a < MAXARGS)%nat → g_exec u (wrap (Simple a) rs)
| ge_block u t v rs : g_line u t → g_items v [] rs → g_exec (Sym Open :: u ++ Sym Close :: v) (wrap t rs).

Scheme g_line_ind' := Minimality for g_line Sort Prop
with g_pipe_ind' := Minimality for g_pipe Sort Prop
with g_exec_ind' := Minimality for g_exec Sort Prop.
Combined Scheme grammar_ind from g_line_ind', g_pipe_ind', g_exec_ind'.

(** ** A parser on tokens *)

Inductive pres (A : Type) := POk (a : A) (rest : list token) | PErr | PFuel.
Arguments POk {A} a rest.
Arguments PErr {A}.
Arguments PFuel {A}.

Definition pbind {A B} (p : pres A) (f : A → list token → pres B) : pres B :=
  match p with POk a r => f a r | PErr => PErr | PFuel => PFuel end.

Fixpoint tredirs (ts : list token) : pres (list redirection) :=
  match ts with
  | Sym s :: ts' =>
      match redir s with
      | None => POk [] ts
      | Some (mode, fd) =>
          match ts' with
          | W f :: ts'' => pbind (tredirs ts'') (λ rs r, POk ((f, mode, fd) :: rs) r)
          | _ => PErr
          end
      end
  | _ => POk [] ts
  end.

Fixpoint titems (argc : nat) (ts : list token) : pres (list (list Z) * list redirection) :=
  match ts with
  | [] => POk ([], []) []
  | W w :: ts' =>
      if (MAXARGS <=? argc + 1)%nat then PErr
      else pbind (titems (argc + 1) ts') (λ '(a, rs) r, POk (w :: a, rs) r)
  | Sym s :: ts' =>
      match redir s with
      | Some (mode, fd) =>
          match ts' with
          | W f :: ts'' => pbind (titems argc ts'') (λ '(a, rs) r, POk (a, (f, mode, fd) :: rs) r)
          | _ => PErr
          end
      | None => if decide (s = Open) then PErr else POk ([], []) ts
      end
  end.

Fixpoint amps (ts : list token) : nat * list token :=
  match ts with
  | Sym Amp :: ts' => let '(n, r) := amps ts' in (S n, r)
  | _ => (0%nat, ts)
  end.

Fixpoint tline (fuel : nat) (ts : list token) : pres tree :=
  match fuel with
  | O => PFuel
  | S fuel' =>
      pbind (tpipe fuel' ts) (λ t r,
        let '(n, r) := amps r in
        match r with
        | Sym Semi :: r' => pbind (tline fuel' r') (λ t' r'', POk (Seq (Nat.iter n Back t) t') r'')
        | _ => POk (Nat.iter n Back t) r
        end)
  end
with tpipe (fuel : nat) (ts : list token) : pres tree :=
  match fuel with
  | O => PFuel
  | S fuel' =>
      pbind (texec fuel' ts) (λ t r,
        match r with
        | Sym Bar :: r' => pbind (tpipe fuel' r') (λ t' r'', POk (Pipe t t') r'')
        | _ => POk t r
        end)
  end
with texec (fuel : nat) (ts : list token) : pres tree :=
  match fuel with
  | O => PFuel
  | S fuel' =>
      match ts with
      | Sym Open :: _ => tblock fuel' ts
      | _ => pbind (titems 0 ts) (λ '(a, rs) r, POk (wrap (Simple a) rs) r)
      end
  end
with tblock (fuel : nat) (ts : list token) : pres tree :=
  match fuel with
  | O => PFuel
  | S fuel' =>
      match ts with
      | Sym Open :: ts' =>
          pbind (tline fuel' ts') (λ t r,
            match r with
            | Sym Close :: r' => pbind (tredirs r') (λ rs r'', POk (wrap t rs) r'')
            | _ => PErr
            end)
      | _ => PErr
      end
  end.

(** ** The parser on tokens accepts the grammar *)

(** What may follow a phrase. *)
Definition follows (l : list sym) (r : list token) : Prop :=
  match r with [] => True | Sym s :: _ => s ∈ l | W _ :: _ => False end.

Definition after_line : list sym := [Close].
Definition after_pipe : list sym := [Amp; Semi; Close].
Definition after_exec : list sym := [Bar; Amp; Semi; Close].

Lemma follows_incl l l' r : l ⊆ l' → follows l r → follows l' r.
Proof. destruct r as [|[]]; simpl; auto. Qed.

Lemma follows_amps l n r : Amp ∈ l → follows l r → follows l (replicate n (Sym Amp) ++ r).
Proof. destruct n; done. Qed.

Lemma amps_replicate n r : follows [Semi; Close] r → amps (replicate n (Sym Amp) ++ r) = (n, r).
Proof.
  intros H. induction n as [|n IH]; simpl; [|by rewrite IH].
  destruct r as [|[|[]]]; simpl in H; try done; set_solver.
Qed.

Lemma amps_inv ts n r : amps ts = (n, r) → ts = replicate n (Sym Amp) ++ r ∧ (∀ r', r ≠ Sym Amp :: r').
Proof.
  revert n r. induction ts as [|t ts IH]; intros n r; simpl; [intros [= <- <-]; done|].
  destruct t as [w|[]]; try (intros [= <- <-]; done).
  destruct (amps ts) as [m r0] eqn:E. intros [= <- <-]. destruct (IH _ _ eq_refl) as [-> H]. done.
Qed.

Lemma pbind_ok_inv {A B} (p : pres A) (f : A → list token → pres B) b r' :
  pbind p f = POk b r' → ∃ a r, p = POk a r ∧ f a r = POk b r'.
Proof. destruct p; simpl; naive_solver. Qed.

Lemma pbind_fuel_inv {A B} (p : pres A) (f : A → list token → pres B) :
  pbind p f = PFuel → p = PFuel ∨ ∃ a r, p = POk a r ∧ f a r = PFuel.
Proof. destruct p; simpl; naive_solver. Qed.

Lemma pbind_assoc {A B C} (p : pres A) (f : A → list token → pres B) (g : B → list token → pres C) :
  pbind (pbind p f) g = pbind p (λ a r, pbind (f a r) g).
Proof. by destruct p. Qed.

Lemma redir_follow s r : follows after_exec (Sym s :: r) → redir s = None ∧ s ≠ Open.
Proof. unfold follows, after_exec. destruct s; simpl; set_solver. Qed.

Lemma shorter_ind (P : list token → Prop) :
  (∀ ts, (∀ ts', (length ts' < length ts)%nat → P ts') → P ts) → ∀ ts, P ts.
Proof. intros H ts. apply (well_founded_induction (Wf_nat.well_founded_ltof _ length)). exact H. Qed.

(** A redirection at the head of the tokens. *)
Lemma redir_sym s mode fd : redir s = Some (mode, fd) → s = Lt ∨ s = Gt ∨ s = GtGt.
Proof. destruct s; naive_solver. Qed.

Lemma tredirs_sound ts rs r : tredirs ts = POk rs r → ∃ u, ts = u ++ r ∧ g_items u [] rs.
Proof.
  revert rs r. induction ts as [ts IH] using shorter_ind. intros rs r.
  assert (H0 : POk [] ts = POk rs r → ∃ u, ts = u ++ r ∧ g_items u [] rs).
  { intros [= <- <-]. exists []. split; [done|constructor]. }
  destruct ts as [|[w|s] ts]; [exact H0..|]. simpl.
  destruct (redir s) as [[mode fd]|] eqn:Es; [|exact H0].
  destruct ts as [|[f|] ts]; try done. intros (rs' & r' & E & [= <- <-])%pbind_ok_inv.
  apply IH in E as (u & -> & H); [|simpl; lia]. exists (Sym s :: W f :: u). split; [done|by constructor].
Qed.

Lemma titems_sound n ts a rs r :
  (n < MAXARGS)%nat → titems n ts = POk (a, rs) r →
  ∃ u, ts = u ++ r ∧ g_items u a rs ∧ (n + length a < MAXARGS)%nat.
Proof.
  revert n a rs r. induction ts as [ts IH] using shorter_ind. intros n a rs r Hn.
  assert (H0 : POk ([], []) ts = POk (a, rs) r → ∃ u, ts = u ++ r ∧ g_items u a rs ∧ (n + length a < MAXARGS)%nat).
  { intros [= <- <- <-]. exists []. split_and!; [done|constructor|]. change (n + 0 < MAXARGS)%nat. lia. }
  destruct ts as [|[w|s] ts]; [exact H0|cbn [titems]..].
  - destruct (Nat.leb_spec MAXARGS (n + 1)) as [|Hn1]; [done|]. intros ([a' rs'] & r' & E & [= <- <- <-])%pbind_ok_inv.
    apply IH in E as (u & -> & H & Hl); [|cbn [length]; lia|lia].
    exists (W w :: u). split; [done|]. split; [by constructor|cbn [length]; lia].
  - destruct (redir s) as [[mode fd]|] eqn:Es; [|case_decide; [done|exact H0]].
    destruct ts as [|[f|] ts]; try done. intros ([a' rs'] & r' & E & [= <- <- <-])%pbind_ok_inv.
    apply IH in E as (u & -> & H & Hl); [|simpl; lia|lia].
    exists (Sym s :: W f :: u). split; [done|]. split; [by constructor|done].
Qed.

Lemma titems_complete u a rs n r :
  g_items u a rs → (n + length a < MAXARGS)%nat → follows after_exec r → titems n (u ++ r) = POk (a, rs) r.
Proof.
  intros H. revert n. induction H as [|w u a rs H IH|s mode fd f u a rs Es H IH]; intros n Hn Hr; cbn [titems app].
  - destruct r as [|[|s] r]; [done..|]. cbn [titems]. destruct (redir_follow _ _ Hr) as [-> ?]. by rewrite decide_False.
  - cbn [length] in Hn. rewrite (proj2 (Nat.leb_gt _ _)) by lia. by rewrite IH by (done || lia).
  - rewrite Es. by rewrite IH.
Qed.

Lemma tredirs_complete u rs r : g_items u [] rs → follows after_exec r → tredirs (u ++ r) = POk rs r.
Proof.
  intros H. remember [] as a eqn:Ea. induction H as [|w u a rs H IH|s mode fd f u a rs Es H IH]; intros Hr; simpl; try done.
  - destruct r as [|[|s] r]; [done..|]. simpl. by destruct (redir_follow _ _ Hr) as [-> ?].
  - rewrite Es. by rewrite IH.
Qed.

(** After redirections comes something else, and they may be taken apart. *)
Lemma tredirs_rest ts rs r s r' : tredirs ts = POk rs r → r = Sym s :: r' → redir s = None.
Proof.
  revert rs. induction ts as [ts IH] using shorter_ind. intros rs. destruct ts as [|[w|s'] ts]; simpl; [naive_solver..|].
  destruct (redir s') as [[mode fd]|] eqn:Es; [|naive_solver]. destruct ts as [|[f|] ts]; try done.
  intros (rs' & r0 & E & [= <- <-])%pbind_ok_inv. eapply IH, E. simpl; lia.
Qed.

Lemma titems_redirs n ts :
  titems n ts =
  pbind (tredirs ts) (λ rs r, pbind (titems n r) (λ '(a, rs') r', POk (a, rs ++ rs') r')).
Proof.
  assert (H0 : ∀ ts, titems n ts = pbind (titems n ts) (λ '(a, rs') r', POk (a, rs') r')).
  { intros ts'. by destruct (titems n ts') as [[]| |]. }
  induction ts as [ts IH] using shorter_ind. destruct ts as [|[w|s] ts]; [exact (H0 _)..|]. cbn [titems tredirs].
  destruct (redir s) as [[mode fd]|] eqn:Es; [|cbn [pbind titems]; rewrite Es; by case_decide].
  destruct ts as [|[f|] ts]; [done| |done]. rewrite IH by (simpl; lia).
  destruct (tredirs ts) as [rs r| |]; simpl; [|done..]. by destruct (titems n r) as [[]| |].
Qed.

Lemma tredirs_fuel ts : tredirs ts ≠ PFuel.
Proof.
  induction ts as [ts IH] using shorter_ind. destruct ts as [|[w|s] ts]; simpl; try done.
  destruct (redir s) as [[mode fd]|]; [|done]. destruct ts as [|[f|] ts]; try done.
  intros [E|(? & ? & _ & [=])]%pbind_fuel_inv. by apply IH in E; [|simpl; lia].
Qed.

Lemma titems_fuel n ts : titems n ts ≠ PFuel.
Proof.
  revert n. induction ts as [ts IH] using shorter_ind. intros n. destruct ts as [|[w|s] ts]; simpl; try done.
  - case_match; [done|]. intros [E|([] & ? & _ & [=])]%pbind_fuel_inv. by apply IH in E; [|simpl; lia].
  - destruct (redir s) as [[mode fd]|]; [|by case_decide]. destruct ts as [|[f|] ts]; try done.
    intros [E|([] & ? & _ & [=])]%pbind_fuel_inv. by apply IH in E; [|simpl; lia].
Qed.

Lemma parser_sound fuel :
  (∀ ts t r, tline fuel ts = POk t r → ∃ u, ts = u ++ r ∧ g_line u t) ∧
  (∀ ts t r, tpipe fuel ts = POk t r → ∃ u, ts = u ++ r ∧ g_pipe u t) ∧
  (∀ ts t r, texec fuel ts = POk t r → ∃ u, ts = u ++ r ∧ g_exec u t) ∧
  (∀ ts t r, tblock fuel ts = POk t r → ∃ u, ts = u ++ r ∧ g_exec u t).
Proof.
  induction fuel as [|fuel (IHl & IHp & IHe & IHb)]; [done|]. split_and!; intros ts t r; simpl.
  - intros (t1 & r1 & (u & -> & Hu)%IHp & E)%pbind_ok_inv.
    destruct (amps r1) as [n r2] eqn:En. apply amps_inv in En as [-> _].
    assert (H0 : POk (Nat.iter n Back t1) r2 = POk t r → ∃ u0, u ++ replicate n (Sym Amp) ++ r2 = u0 ++ r ∧ g_line u0 t).
    { intros [= <- <-]. exists (u ++ replicate n (Sym Amp)). split; [by rewrite <- app_assoc|by constructor]. }
    destruct r2 as [|[|[]] r2]; auto.
    apply pbind_ok_inv in E as (t2 & r3 & (v & -> & Hv)%IHl & [= <- <-]).
    exists (u ++ replicate n (Sym Amp) ++ Sym Semi :: v). split; [by rewrite <- !app_assoc|by constructor].
  - intros (t1 & r1 & (u & -> & Hu)%IHe & E)%pbind_ok_inv.
    assert (H0 : POk t1 r1 = POk t r → ∃ u0, u ++ r1 = u0 ++ r ∧ g_pipe u0 t).
    { intros [= <- <-]. exists u. split; [done|by constructor]. }
    destruct r1 as [|[|[]] r1]; auto.
    apply pbind_ok_inv in E as (t2 & r3 & (v & -> & Hv)%IHp & [= <- <-]).
    exists (u ++ Sym Bar :: v). split; [by rewrite <- !app_assoc|by constructor].
  - assert (H0 : pbind (titems 0 ts) (λ '(a, rs) r, POk (wrap (Simple a) rs) r) = POk t r → ∃ u, ts = u ++ r ∧ g_exec u t).
    { intros ([a rs] & r1 & E & [= <- <-])%pbind_ok_inv.
      apply titems_sound in E as (u & -> & Hu & Hl); [|unfold MAXARGS; lia]. exists u. split; [done|by constructor]. }
    destruct ts as [|[|[]] ts]; auto.
  - destruct ts as [|[|[]] ts]; try done.
    intros (t1 & r1 & (u & -> & Hu)%IHl & E)%pbind_ok_inv. destruct r1 as [|[|[]] r1]; try done.
    apply pbind_ok_inv in E as (rs & r3 & (v & -> & Hv)%tredirs_sound & [= <- <-]).
    exists (Sym Open :: u ++ Sym Close :: v). split; [by simpl; rewrite <- app_assoc|by constructor].
Qed.

(** Completeness, up to fuel. *)
Definition gives {A} (p : pres A) (a : A) (r : list token) : Prop := p = POk a r ∨ p = PFuel.

Lemma gives_bind {A B} (p : pres A) (f : A → list token → pres B) a r b r' :
  gives p a r → gives (f a r) b r' → gives (pbind p f) b r'.
Proof. intros [->| ->] ?; [done|by right]. Qed.

Lemma parser_complete :
  (∀ u t, g_line u t → ∀ fuel r, follows after_line r → gives (tline fuel (u ++ r)) t r) ∧
  (∀ u t, g_pipe u t → ∀ fuel r, follows after_pipe r → gives (tpipe fuel (u ++ r)) t r) ∧
  (∀ u t, g_exec u t → ∀ fuel r, follows after_exec r → gives (texec fuel (u ++ r)) t r).
Proof.
  apply grammar_ind.
  - intros u t n _ IH fuel r Hr. destruct fuel as [|fuel]; [by right|]. simpl. rewrite <- app_assoc.
    eapply gives_bind; [apply IH, follows_amps; [set_solver|by eapply follows_incl, Hr; set_solver]|].
    cbn beta. rewrite amps_replicate by (eapply follows_incl, Hr; set_solver).
    destruct r as [|[|[]] r]; simpl in Hr; try set_solver; by left.
  - intros u t n v t' _ IH _ IHl fuel r Hr. destruct fuel as [|fuel]; [by right|]. simpl. rewrite <- !app_assoc.
    eapply gives_bind; [apply IH, follows_amps; set_solver|]. cbn beta.
    rewrite <- app_comm_cons, amps_replicate by set_solver.
    eapply gives_bind; [by apply IHl|by left].
  - intros u t _ IH fuel r Hr. destruct fuel as [|fuel]; [by right|]. simpl.
    eapply gives_bind; [apply IH; by eapply follows_incl, Hr; set_solver|]. cbn beta.
    destruct r as [|[|[]] r]; simpl in Hr; try set_solver; by left.
  - intros u t v t' _ IH _ IHp fuel r Hr. destruct fuel as [|fuel]; [by right|]. simpl. rewrite <- app_assoc.
    eapply gives_bind; [apply IH; set_solver|]. eapply gives_bind; [by apply IHp|by left].
  - intros u a rs H Hl fuel r Hr. destruct fuel as [|fuel]; [by right|]. left. simpl.
    pose proof (titems_complete u a rs 0 r H Hl Hr) as E.
    destruct (u ++ r) as [|[|[]] ts]; by rewrite ?E.
  - intros u t v rs _ IH Hv fuel r Hr. destruct fuel as [|[|fuel]]; [by right..|]. simpl. rewrite <- app_assoc.
    eapply gives_bind; [apply IH; set_solver|]. left. simpl. by rewrite (tredirs_complete v rs r).
Qed.

(** Four levels of the recursion consume a token. *)
Lemma parser_fuel fuel :
  (∀ ts, (4 * length ts + 4 <= fuel)%nat → tline fuel ts ≠ PFuel) ∧
  (∀ ts, (4 * length ts + 3 <= fuel)%nat → tpipe fuel ts ≠ PFuel) ∧
  (∀ ts, (4 * length ts + 2 <= fuel)%nat → texec fuel ts ≠ PFuel) ∧
  (∀ ts, (4 * length ts + 1 <= fuel)%nat → tblock fuel ts ≠ PFuel).
Proof.
  induction fuel as [|fuel (IHl & IHp & IHe & IHb)]; [split_and!; intros; lia|].
  pose proof (parser_sound fuel) as (Sl & Sp & Se & Sb).
  split_and!; intros ts Hf; simpl.
  - intros [E|(t & r & (u & -> & _)%Sp & E)]%pbind_fuel_inv; [by apply IHp in E; [|lia]|].
    destruct (amps r) as [n r2] eqn:En. apply amps_inv in En as [-> _].
    destruct r2 as [|[|[]] r2]; try done. apply pbind_fuel_inv in E as [E|(? & ? & _ & [=])].
    apply IHl in E; [done|]. rewrite !length_app in Hf. simpl in Hf. lia.
  - intros [E|(t & r & (u & -> & _)%Se & E)]%pbind_fuel_inv; [by apply IHe in E; [|lia]|].
    destruct r as [|[|[]] r]; try done. apply pbind_fuel_inv in E as [E|(? & ? & _ & [=])].
    apply IHp in E; [done|]. rewrite !length_app in Hf. simpl in Hf. lia.
  - assert (H0 : pbind (titems 0 ts) (λ '(a, rs) r, POk (wrap (Simple a) rs) r) ≠ PFuel).
    { intros [E%titems_fuel|([] & ? & _ & [=])]%pbind_fuel_inv; done. }
    destruct ts as [|[|[]] ts]; try exact H0. apply IHb. lia.
  - destruct ts as [|[|[]] ts]; try done. simpl in Hf.
    intros [E|(t & r & _ & E)]%pbind_fuel_inv; [by apply IHl in E; [|lia]|].
    destruct r as [|[|[]] r]; try done. apply pbind_fuel_inv in E as [E%tredirs_fuel|(? & ? & _ & [=])]; done.
Qed.

(** ** Lexical structure *)

Lemma in_set_elem set c : 0 ∉ set → in_set set c = bool_decide (c ∈ set).
Proof.
  unfold in_set. induction set as [|a set IH]; intros H0; [done|]. apply not_elem_of_cons in H0 as [Ha H0].
  cbn [app strchr]. rewrite (proj2 (Z.eqb_neq a 0)) by done.
  destruct (Z.eqb_spec a c) as [->|Hc]; [by rewrite bool_decide_true by set_solver|].
  transitivity (bool_decide (c ∈ set)); [|apply bool_decide_ext; set_solver].
  rewrite <- IH by done. by destruct (strchr (set ++ [0]) c) as [[]|].
Qed.

Lemma in_set_symbols c : in_set symbols c = bool_decide (is_Some (sym_of c)).
Proof.
  rewrite in_set_elem by (apply (bool_decide_unpack _); vm_compute; exact I). apply bool_decide_ext.
  unfold sym_of, symbols. simpl. rewrite !elem_of_cons, elem_of_nil.
  unfold CH_BAR, CH_OPEN, CH_CLOSE, CH_SEMI, CH_AMP, CH_LT, CH_GT.
  repeat (case_match; [bool_to_prop; subst; naive_solver|]). bool_to_prop. split; [lia|by intros [? [=]]].
Qed.

Lemma sym_of_code c s : sym_of c = Some s → c = code s ∧ s ≠ GtGt.
Proof. unfold sym_of. repeat (case_match; [intros [= <-]; bool_to_prop; by subst|]). done. Qed.

Lemma space_no_sym c : in_set whitespace c = true → sym_of c = None.
Proof.
  unfold in_set, whitespace. simpl. intros H. destruct (sym_of c) as [s|] eqn:E; [|done].
  apply sym_of_code in E as [-> Hs]. by destruct s.
Qed.

Lemma word_char_true c : word_char c = true ↔ in_set whitespace c = false ∧ sym_of c = None.
Proof.
  unfold word_char. rewrite in_set_symbols. destruct (in_set whitespace c), (sym_of c); simpl; naive_solver.
Qed.

(** The list ends or goes on with a character that does not satisfy [cond]. *)
Definition stops (cond : Z → bool) (l : list Z) : Prop := ∀ c, head l = Some c → cond c = false.

Lemma tokens_space w l : Forall (λ c, in_set whitespace c = true) w → tokens (w ++ l) = tokens l.
Proof. induction 1 as [|c w Hc _ IH]; [done|]. unfold tokens in *. simpl. by rewrite Hc. Qed.

Lemma lex_stop acc l : stops word_char l → lex acc l = flush acc ++ tokens l.
Proof.
  intros H. destruct l as [|c l]; [by rewrite app_nil_r|]. specialize (H c eq_refl). unfold tokens. simpl.
  destruct (in_set whitespace c) eqn:Ew; [done|]. destruct (sym_of c) as [s|] eqn:Es; [by destruct s|].
  rewrite (proj2 (word_char_true c)) in H; done.
Qed.

Lemma lex_word acc w l :
  Forall (λ c, word_char c = true) w → stops word_char l → lex acc (w ++ l) = flush (acc ++ w) ++ tokens l.
Proof.
  intros Hw. revert acc. induction Hw as [|c w Hc Hw IH]; intros acc Hl; simpl.
  - rewrite app_nil_r. by apply lex_stop.
  - apply word_char_true in Hc as [-> ->]. rewrite IH by done. by rewrite <- app_assoc.
Qed.

Lemma tokens_word w l :
  w ≠ [] → Forall (λ c, word_char c = true) w → stops word_char l → tokens (w ++ l) = W w :: tokens l.
Proof. intros. unfold tokens at 1. rewrite lex_word by done. by destruct w. Qed.

Lemma tokens_sym c s l : sym_of c = Some s → s ≠ Gt → tokens (c :: l) = Sym s :: tokens l.
Proof.
  intros Es Hs. unfold tokens. simpl. destruct (in_set whitespace c) eqn:E; [by rewrite space_no_sym in Es|].
  rewrite Es. by destruct s.
Qed.

Lemma tokens_gt l : (∀ l', l ≠ CH_GT :: l') → tokens (CH_GT :: l) = Sym Gt :: tokens l.
Proof.
  intros H. unfold tokens. simpl. destruct l as [|c l]; [done|]. destruct (Z.eqb_spec c CH_GT) as [->|]; [|done].
  by destruct (H l).
Qed.

Lemma length_flush w : (length (flush w) <= length w)%nat.
Proof. destruct w; simpl; lia. Qed.

Lemma length_lex w l : (length (lex w l) <= length w + length l)%nat.
Proof.
  remember (length l) as n eqn:Hn. revert w l Hn. induction n as [n IH] using lt_wf_ind. intros w l ->.
  pose proof (length_flush w) as Hf. destruct l as [|c l]; simpl; [lia|].
  pose proof (IH (length l) ltac:(simpl; lia) [] l eq_refl) as H0. simpl in H0.
  case_match; [rewrite length_app; lia|]. destruct (sym_of c) as [s|].
  - assert (length (flush w ++ Sym s :: lex [] l) <= length w + S (length l))%nat by (rewrite length_app; simpl; lia).
    destruct s; try done. destruct l as [|c' l]; [rewrite length_app; simpl; lia|].
    case_match; [|done]. rewrite length_app. simpl in *.
    pose proof (IH (length l) ltac:(lia) [] l eq_refl). simpl in *. lia.
  - pose proof (IH (length l) ltac:(simpl; lia) (w ++ [c]) l eq_refl) as H1. rewrite length_app in H1. simpl in H1. lia.
Qed.

Lemma length_tokens l : (length (tokens l) <= length l)%nat.
Proof. apply (length_lex []). Qed.

(** ** The tokens as the C code reads them *)

(** The text between [q] and [e] is the word [w], and no longer word starts at [q]. *)
Definition word_at (text : list Z) (q e : nat) (w : list Z) : Prop :=
  w ≠ [] ∧ Forall (λ c, word_char c = true) w ∧ drop q text = w ++ drop e text ∧ e = (q + length w)%nat ∧
  stops word_char (drop e text).

Section c_tokens.
Context (text rest : list Z) (Htext : Forall (λ c, c ≠ 0) text).

Notation es := (length text).
Definition buffer : list Z := text ++ 0 :: rest.

Lemma get_end st : sh_buf st = buffer → get es st = Ok 0 st.
Proof.
  intros Hb. unfold get. rewrite bind_kgets, Hb. unfold buffer. by rewrite lookup_app_r, Nat.sub_diag by lia.
Qed.

Lemma get_text st p c l : sh_buf st = buffer → drop p text = c :: l → get p st = Ok c st ∧ (p < es)%nat ∧ c ≠ 0.
Proof.
  intros Hb E. assert (Hc : text !! p = Some c) by (by rewrite <- (Nat.add_0_r p), <- lookup_drop, E).
  pose proof (lookup_lt_Some _ _ _ Hc). split_and!; [|done|by eapply Forall_lookup_1 in Htext].
  unfold get. rewrite bind_kgets, Hb. unfold buffer. by rewrite lookup_app_l, Hc by done.
Qed.

(** The character at a position: the text's, or the NUL at its end. *)
Lemma get_head st p :
  sh_buf st = buffer → (p <= es)%nat → get p st = Ok (default 0 (head (drop p text))) st.
Proof.
  intros Hb Hp. destruct (drop p text) as [|c l] eqn:E.
  - assert (p = es) as -> by (apply (f_equal length) in E; rewrite length_drop in E; simpl in E; lia).
    by apply get_end.
  - by destruct (get_text _ _ _ _ Hb E).
Qed.

Lemma skip_run fuel cond p st :
  sh_buf st = buffer → (p <= es)%nat → (es - p < fuel)%nat →
  ∃ w p', skip fuel cond p es st = Ok p' st ∧ p' = (p + length w)%nat ∧ (p' <= es)%nat ∧
    drop p text = w ++ drop p' text ∧ Forall (λ c, cond c = true) w ∧ stops cond (drop p' text).
Proof.
  intros Hb. revert p. induction fuel as [|fuel IH]; intros p Hp Hf; [lia|]. cbn [skip].
  destruct (drop p text) as [|c l] eqn:E.
  - assert (p = es) as -> by (apply (f_equal length) in E; rewrite length_drop in E; simpl in E; lia).
    rewrite Nat.ltb_irrefl. exists [], es. rewrite E. split_and!; simpl; done || lia || by constructor.
  - destruct (get_text _ _ _ _ Hb E) as (R & Hlt & _). rewrite (proj2 (Nat.ltb_lt _ _)) by done.
    rewrite (bind_ok _ _ _ _ _ R).
    assert (El : drop (p + 1) text = l) by (by rewrite <- drop_drop, E).
    destruct (cond c) eqn:Ec.
    + destruct (IH (p + 1)%nat ltac:(lia) ltac:(lia)) as (w & p' & R' & -> & Hp' & Ew & Hw & Hs).
      exists (c :: w), (p + 1 + length w)%nat. rewrite <- El, Ew. split_and!; simpl; done || lia || by constructor.
    + exists [], p. rewrite E. split_and!; simpl; try (done || lia). by intros ? [= <-].
Qed.

Lemma skip_space_run p st :
  sh_buf st = buffer → (p <= es)%nat →
  ∃ p', skip_space p es st = Ok p' st ∧ (p' <= es)%nat ∧ tokens (drop p' text) = tokens (drop p text) ∧
    stops (in_set whitespace) (drop p' text).
Proof.
  intros Hb Hp. destruct (skip_run (S (es - p)) (in_set whitespace) p st Hb Hp ltac:(lia))
    as (w & p' & R & _ & Hp' & E & Hw & Hs).
  exists p'. split_and!; auto. by rewrite E, tokens_space.
Qed.

(** What [gettoken] reports about the tokens [ts], leaving [ts']. *)
Definition token_ok (ts : list token) (ret : Z) (q e : nat) (ts' : list token) : Prop :=
  match ts with
  | [] => ret = 0 ∧ ts' = []
  | Sym s :: r => ret = code s ∧ ts' = r
  | W w :: r => ret = CH_a ∧ ts' = r ∧ word_at text q e w
  end.

Lemma drop_next p c l : drop p text = c :: l → drop (p + 1) text = l ∧ (p + 1 <= es)%nat.
Proof.
  intros E. split; [by rewrite <- drop_drop, E|]. apply (f_equal length) in E. rewrite length_drop in E. simpl in E. lia.
Qed.

Lemma gettoken_run p st :
  sh_buf st = buffer → (p <= es)%nat →
  wp (gettoken p es) (λ '(tok, q, e, p') st', st' = st ∧ (p' <= es)%nat ∧
    token_ok (tokens (drop p text)) tok q e (tokens (drop p' text))) st.
Proof.
  intros Hb Hp. unfold gettoken. destruct (skip_space_run p st Hb Hp) as (q & R & Hq & <- & Hs).
  eapply wp_run; [exact R|]. eapply wp_run; [by apply get_head|].
  eapply wp_step with (P := λ '(ret, e) st', st' = st ∧ (e <= es)%nat ∧
    token_ok (tokens (drop q text)) ret q e (tokens (drop e text))).
  - destruct (drop q text) as [|c l] eqn:E.
    { apply wp_ret. rewrite E. done. }
    change (default 0 (head (c :: l))) with c. destruct (get_text _ _ _ _ Hb E) as (_ & Hlt & H0).
    rewrite (proj2 (Z.eqb_neq c 0)) by done. destruct (drop_next _ _ _ E) as [El Hq1]. destruct (sym_of c) as [s|] eqn:Es.
    + destruct (sym_of_code _ _ Es) as [-> Hs']. destruct (decide (s = Gt)) as [->|].
      * simpl. eapply wp_run; [by apply get_head|]. rewrite El. destruct (Z.eqb_spec (default 0 (head l)) CH_GT) as [Hl|Hl].
        -- destruct l as [|c' l]; [done|]. simpl in Hl. subst c'. destruct (drop_next _ _ _ El) as [El' Hq2].
           apply wp_ret. replace (q + 1 + 1)%nat with (q + 2)%nat in El', Hq2 by lia. by rewrite El'.
        -- apply wp_ret. rewrite El. rewrite tokens_gt; [done|]. by intros l' ->.
      * rewrite (tokens_sym _ _ _ Es) by done. destruct s; try done; simpl; apply wp_ret; by rewrite El.
    + assert (Hne : ∀ k, sym_of k ≠ None → (c =? k) = false) by (intros k Hk; apply Z.eqb_neq; by intros <-).
      rewrite !Hne by done. simpl orb. cbv iota.
      destruct (skip_run (S (es - q)) word_char q st Hb Hq ltac:(lia)) as (w & e & R' & He & Hle & Ew & Hw & Hsw).
      eapply wp_run; [exact R'|]. apply wp_ret. rewrite <- E, Ew.
      assert (w ≠ []).
      { intros ->. simpl in He. rewrite Nat.add_0_r in He. subst e. specialize (Hsw c). rewrite E in Hsw.
        specialize (Hsw eq_refl). rewrite (proj2 (word_char_true c)) in Hsw; [done|]. split; [by apply Hs|done]. }
      rewrite tokens_word by done. split_and!; try done.
  - intros [ret e] st' (-> & He & Ht). destruct (skip_space_run e st Hb He) as (p' & R' & Hp' & Et & _).
    eapply wp_run; [exact R'|]. apply wp_ret. by rewrite Et.
Qed.

(** The first character of the next token is one of [toks]. *)
Definition starts (toks : string) (ts : list token) : bool :=
  match ts with Sym s :: _ => in_set (str toks) (first s) | _ => false end.

Lemma split_word l :
  ∃ w l', l = w ++ l' ∧ Forall (λ c, word_char c = true) w ∧ stops word_char l'.
Proof.
  induction l as [|c l (w & l' & -> & Hw & Hs)]; [by exists [], []|].
  destruct (word_char c) eqn:E; [exists (c :: w), l'; split_and!; auto|].
  exists [], (c :: w ++ l'). split_and!; auto. by intros ? [= <-].
Qed.

Lemma first_token c l :
  in_set whitespace c = false →
  (∃ s ts, tokens (c :: l) = Sym s :: ts ∧ first s = c ∧ is_Some (sym_of c)) ∨
  (∃ w ts, tokens (c :: l) = W w :: ts ∧ sym_of c = None).
Proof.
  intros Hc. destruct (sym_of c) as [s|] eqn:E.
  - left. destruct (sym_of_code _ _ E) as [-> Hs]. destruct (decide (s = Gt)) as [->|].
    + unfold tokens. simpl. destruct l as [|c' l]; [|case_match]; eexists _, _; done.
    + exists s, (tokens l). rewrite (tokens_sym _ _ _ E) by done. split_and!; try done.
      unfold first. by rewrite decide_False.
  - right. destruct (split_word l) as (w & l' & -> & Hw & Hs). exists (c :: w), (tokens l'). split; [|done].
    rewrite app_comm_cons. apply tokens_word; [done| |done]. constructor; [by apply word_char_true|done].
Qed.

Lemma peek_run toks p st :
  bool_decide (str toks ⊆ symbols) = true → sh_buf st = buffer → (p <= es)%nat →
  wp (peek p es toks) (λ '(b, p') st', st' = st ∧ (p' <= es)%nat ∧ b = starts toks (tokens (drop p text)) ∧
    tokens (drop p' text) = tokens (drop p text) ∧ (p' = es ↔ tokens (drop p text) = [])) st.
Proof.
  intros Hk%bool_decide_eq_true Hb Hp. unfold peek. destruct (skip_space_run p st Hb Hp) as (q & R & Hq & <- & Hs).
  eapply wp_run; [exact R|]. eapply wp_run; [by apply get_head|]. apply wp_ret.
  assert (Hsym : ∀ c, in_set (str toks) c = true → is_Some (sym_of c)).
  { intros c. assert (0 ∉ symbols) by (apply (bool_decide_unpack _); vm_compute; exact I).
    rewrite in_set_elem by set_solver. intros Hc%bool_decide_eq_true%Hk.
    apply (bool_decide_unpack _). rewrite <- in_set_symbols, in_set_elem by done. by apply bool_decide_pack. }
  assert (Hes : q = es ↔ drop q text = []) by (rewrite <- length_zero_iff_nil, length_drop; lia).
  destruct (drop q text) as [|c l] eqn:E; [split_and!; naive_solver|].
  destruct (get_text _ _ _ _ Hb E) as (_ & _ & H0). simpl. rewrite (proj2 (Z.eqb_neq _ _)) by done.
  rewrite Hes. destruct (first_token c l (Hs c eq_refl)) as [(s & ts & -> & <- & Hc)|(w & ts & -> & Hc)]; [done|].
  split_and!; try done. simpl. destruct (in_set (str toks) c) eqn:Ek; [|done].
  apply Hsym in Ek as [? Ek]. congruence.
Qed.

End c_tokens.

(** ** The nodes a command is built of *)

Section nodes.
(** [P q e w]: the word between [q] and [e] is [w]. *)
Context (P : nat → nat → list Z → Prop).

(** The first arguments of an [EXEC] node are the words [ws]. *)
Definition args_ok (ws : list (list Z)) (argv eargv : list (option nat)) : Prop :=
  length argv = MAXARGS ∧ length eargv = MAXARGS ∧
  ∀ i w, ws !! i = Some w → ∃ q e, argv !! i = Some (Some q) ∧ eargv !! i = Some (Some e) ∧ P q e w.

(** The node [c] is the command [t]; children come before their parents. *)
Inductive node_is (h : list node) : nat → tree → Prop :=
| ni_exec c argv eargv ws :
    h !! c = Some (EXEC argv eargv) → args_ok ws argv eargv → argv !! length ws = Some None →
    node_is h c (Simple ws)
| ni_redir c d q e mode fd f t :
    h !! c = Some (REDIR d q e mode fd) → (d < c)%nat → P q e f → node_is h d t →
    node_is h c (Redir t f mode fd)
| ni_pipe c l r tl tr :
    h !! c = Some (PIPE l r) → (l < c)%nat → (r < c)%nat → node_is h l tl → node_is h r tr → node_is h c (Pipe tl tr)
| ni_list c l r tl tr :
    h !! c = Some (LIST l r) → (l < c)%nat → (r < c)%nat → node_is h l tl → node_is h r tr → node_is h c (Seq tl tr)
| ni_back c d t :
    h !! c = Some (BACK d) → (d < c)%nat → node_is h d t → node_is h c (Back t).

(** [ret] is [c] inside the redirections [rs]. *)
Fixpoint wrapped (h : list node) (c ret : nat) (rs : list redirection) : Prop :=
  match rs with
  | [] => c = ret
  | (f, mode, fd) :: rs' =>
      ∃ d q e, h !! d = Some (REDIR c q e mode fd) ∧ (c < d)%nat ∧ P q e f ∧ wrapped h d ret rs'
  end.

Lemma node_is_mono h h' c t : h `prefix_of` h' → node_is h c t → node_is h' c t.
Proof. intros Hp. induction 1; econstructor; eauto using prefix_lookup_Some. Qed.

Lemma node_is_lt h c t : node_is h c t → (c < length h)%nat.
Proof. inversion 1; eauto using lookup_lt_Some. Qed.

Lemma wrapped_mono h h' c ret rs :
  (∀ i d q e mode fd, h !! i = Some (REDIR d q e mode fd) → h' !! i = Some (REDIR d q e mode fd)) →
  wrapped h c ret rs → wrapped h' c ret rs.
Proof.
  intros Hp. revert c. induction rs as [|[[f mode] fd] rs IH]; intros c; simpl; [done|].
  intros (d & q & e & H1 & H2 & H3 & H4). exists d, q, e. split_and!; eauto.
Qed.

Lemma wrapped_prefix h h' c ret rs : h `prefix_of` h' → wrapped h c ret rs → wrapped h' c ret rs.
Proof. intros Hp. apply wrapped_mono. eauto using prefix_lookup_Some. Qed.

Lemma wrapped_app h c d ret rs rs' : wrapped h c d rs → wrapped h d ret rs' → wrapped h c ret (rs ++ rs').
Proof.
  revert c. induction rs as [|[[f mode] fd] rs IH]; intros c; simpl; [by intros ->|].
  intros (d' & q & e & H1 & H2 & H3 & H4) H. exists d', q, e. split_and!; eauto.
Qed.

Lemma wrapped_node h c ret rs t : wrapped h c ret rs → node_is h c t → node_is h ret (wrap t rs).
Proof.
  revert c t. induction rs as [|[[f mode] fd] rs IH]; intros c t; simpl; [by intros ->|].
  intros (d & q & e & H1 & H2 & H3 & H4) H. eapply IH; [done|]. by econstructor.
Qed.

Lemma wrapped_lt h c ret rs : wrapped h c ret rs → (c < length h)%nat → (ret < length h)%nat.
Proof.
  revert c. induction rs as [|[[f mode] fd] rs IH]; intros c; simpl; [by intros ->|].
  intros (d & q & e & H1 & _ & _ & H4) _. eauto using lookup_lt_Some.
Qed.

Lemma args_ok_snoc ws argv eargv w q e :
  args_ok ws argv eargv → (length ws < MAXARGS)%nat → P q e w →
  args_ok (ws ++ [w]) (<[length ws := Some q]> argv) (<[length ws := Some e]> eargv).
Proof.
  intros (Ha & He & H) Hl Hw. unfold args_ok. rewrite !length_insert. split_and!; [done..|].
  intros i w' [Hi|[-> [= <-]]]%lookup_snoc_Some.
  - rewrite !list_lookup_insert_ne by lia. apply H, Hi.
  - rewrite !list_lookup_insert_eq by lia. eauto.
Qed.

Lemma args_ok_end ws argv eargv :
  args_ok ws argv eargv → args_ok ws (<[length ws := None]> argv) (<[length ws := None]> eargv).
Proof.
  intros (Ha & He & H). unfold args_ok. rewrite !length_insert. split_and!; [done..|]. intros i w Hi.
  pose proof (lookup_lt_Some _ _ _ Hi). rewrite !list_lookup_insert_ne by lia. apply H, Hi.
Qed.

End nodes.

(** ** The C parser does what the parser on tokens does *)

Section refinement.
Context (text rest : list Z) (Htext : Forall (λ c, c ≠ 0) text).

Notation es := (length text).
Notation buf := (buffer text rest).
Notation toks_at p := (tokens (drop p text)).

(** The run [r] of a C function, started with the heap [h], agrees with the
    parser's [pr]: it builds what [pr] describes, or panics. *)
Definition outcome {A B} (pr : pres A) (r : res shell (B * nat)) (h : list node) (R : list node → B → A → Prop) : Prop :=
  match pr with
  | POk a ts =>
      ∃ b p h', r = Ok (b, p) (Shell buf h') ∧ (p <= es)%nat ∧ toks_at p = ts ∧ h `prefix_of` h' ∧ R h' b a
  | PErr => ∃ msg, r = Panic msg
  | PFuel => True
  end.

Lemma outcome_bind {A B A' B'} (pr : pres A) (f : A → list token → pres A') (m : M (B * nat))
    (k : B * nat → M (B' * nat)) h1 h2 h0 R R' :
  outcome pr (m (Shell buf h1)) h2 R →
  (∀ a b p h', (p <= es)%nat → pr = POk a (toks_at p) → h2 `prefix_of` h' → R h' b a →
     outcome (f a (toks_at p)) (k (b, p) (Shell buf h')) h0 R') →
  outcome (pbind pr f) ((m ≫= k) (Shell buf h1)) h0 R'.
Proof.
  destruct pr as [a ts| |]; simpl.
  - intros (b & p & h' & E & Hp & <- & Hh & HR) H. rewrite (bind_ok _ _ _ _ _ E). by apply H.
  - intros (msg & E) _. exists msg. by apply bind_panic.
  - done.
Qed.

Lemma outcome_peek {A B} (pr : pres A) toks (k : bool * nat → M (B * nat)) p h h0 R :
  bool_decide (str toks ⊆ symbols) = true → (p <= es)%nat →
  (∀ p', (p' <= es)%nat → toks_at p' = toks_at p → outcome pr (k (starts toks (toks_at p'), p') (Shell buf h)) h0 R) →
  outcome pr ((peek p es toks ≫= k) (Shell buf h)) h0 R.
Proof.
  intros Hk Hp H. destruct (peek_run text rest Htext toks p (Shell buf h) Hk eq_refl Hp)
    as ([b p'] & st' & E & -> & Hp' & -> & Et & _).
  rewrite (bind_ok _ _ _ _ _ E). rewrite <- Et. auto.
Qed.

Lemma outcome_token {A B} (pr : pres A) (k : Z * nat * nat * nat → M (B * nat)) p h h0 R :
  (p <= es)%nat →
  (∀ tok q e p', (p' <= es)%nat → token_ok text (toks_at p) tok q e (toks_at p') →
     outcome pr (k (tok, q, e, p') (Shell buf h)) h0 R) →
  outcome pr ((gettoken p es ≫= k) (Shell buf h)) h0 R.
Proof.
  intros Hp H. destruct (gettoken_run text rest Htext p (Shell buf h) eq_refl Hp)
    as ([[[tok q] e] p'] & st' & E & -> & Hp' & Ht).
  rewrite (bind_ok _ _ _ _ _ E). auto.
Qed.

Lemma outcome_ret {A B} (a : A) ts (b : B) p h h0 (R : _ → _ → _ → Prop) :
  (p <= es)%nat → toks_at p = ts → h0 `prefix_of` h → R h b a → outcome (POk a ts) (Ok (b, p) (Shell buf h)) h0 R.
Proof. intros. by exists b, p, h. Qed.

Lemma outcome_eq {A B} (pr' pr : pres A) (r : res shell (B * nat)) h R :
  pr' = pr → outcome pr' r h R → outcome pr r h R.
Proof. by intros ->. Qed.

Lemma redirs_run fuel cmd p h :
  (p <= es)%nat → (length (toks_at p) < fuel)%nat → (cmd < length h)%nat →
  outcome (tredirs (toks_at p)) (parseredirs fuel cmd p es (Shell buf h)) h (λ h' ret rs, wrapped (word_at text) h' cmd ret rs).
Proof.
  revert cmd p h. induction fuel as [|fuel IH]; intros cmd p h Hp Hf Hc; [lia|]. cbn [parseredirs].
  apply outcome_peek; [done..|]. intros p1 Hp1 E0. rewrite <- E0 in Hf |- *. clear E0.
  destruct (toks_at p1) as [|[w|s] ts] eqn:E1; [by apply outcome_ret..|].
  cbn [tredirs starts]. destruct (redir s) as [[mode fd]|] eqn:Es.
  2: { by destruct s; try done; apply outcome_ret. }
  assert (Hb : in_set (str "<>") (first s) = true) by (by destruct (redir_sym _ _ _ Es) as [->|[->| ->]]). rewrite Hb.
  apply outcome_token; [done|]. intros tok q e p2 Hp2. rewrite E1. intros [-> <-]. simpl in Hf.
  apply outcome_token; [done|]. intros tok q' e' p3 Hp3 Ht.
  destruct (toks_at p2) as [|[f|s'] ts] eqn:E2; simpl in Ht.
  - destruct Ht as [-> _]. by eexists.
  - destruct Ht as (-> & Et & Hw). cbn [negb Z.eqb].
    assert (Hn : outcome (pbind (tredirs ts) (λ rs r, POk ((f, mode, fd) :: rs) r))
      ((redircmd cmd q' e' mode fd ≫= λ cmd, parseredirs fuel cmd p3 es) (Shell buf h)) h (λ h' ret rs, wrapped (word_at text) h' cmd ret rs)).
    { unfold redircmd, malloc_node. simpl in *. subst ts.
      pose proof (IH (length h) p3 (h ++ [REDIR cmd q' e' mode fd]) Hp3 ltac:(lia)) as H.
      specialize (H ltac:(rewrite length_app; simpl; lia)).
      change (outcome (pbind (tredirs (toks_at p3)) (λ rs r, POk ((f, mode, fd) :: rs) r))
        (parseredirs fuel (length h) p3 es (Shell buf (h ++ [REDIR cmd q' e' mode fd]))) h (λ h' ret rs, wrapped (word_at text) h' cmd ret rs)).
      destruct (tredirs (toks_at p3)) as [rs r| |]; simpl in *; [|done..].
      destruct H as (ret & p' & h' & -> & Hp' & Et & Hh & HR). exists ret, p', h'. split_and!; try done.
      - etrans; [by eexists|done].
      - exists (length h), q', e'. split_and!; try done. eapply prefix_lookup_Some; [|done].
        by rewrite lookup_app_r, Nat.sub_diag by lia. }
    destruct (redir_sym _ _ _ Es) as [->|[->| ->]]; simplify_eq Es; intros <- <-; exact Hn.
  - destruct Ht as [-> _]. destruct s'; by eexists.
Qed.

Lemma alter_exec_run cmd f h argv eargv :
  h !! cmd = Some (EXEC argv eargv) →
  alter_exec cmd f (Shell buf h) = Ok tt (Shell buf (<[cmd := f argv eargv]> h)).
Proof.
  intros H. unfold alter_exec, kmodify, set_sh_heap. simpl. do 2 f_equal. apply list_eq. intros i.
  destruct (decide (i = cmd)) as [->|Hi].
  - rewrite list_lookup_alter_eq, H, list_lookup_insert_eq by (by eapply lookup_lt_Some). done.
  - by rewrite list_lookup_alter_ne, list_lookup_insert_ne.
Qed.

Lemma insert_after_prefix (h0 h : list node) n : h0 `prefix_of` h → h0 `prefix_of` <[length h0 := n]> h.
Proof. intros [l ->]. rewrite insert_app_r_alt by lia. by eexists. Qed.

Lemma wrapped_insert h c ret rs argv eargv n :
  h !! c = Some (EXEC argv eargv) → wrapped (word_at text) h c ret rs → wrapped (word_at text) (<[c := n]> h) c ret rs.
Proof.
  intros Hc. apply wrapped_mono. intros i d q e mode fd Hi. rewrite list_lookup_insert_ne; [done|]. congruence.
Qed.

(** [parseexec]'s node after its last argument. *)
Lemma exec_end_run ret p h h0 ws rs argv eargv :
  (p <= es)%nat → h0 `prefix_of` h → h !! length h0 = Some (EXEC argv eargv) →
  args_ok (word_at text) ws argv eargv → (length ws < MAXARGS)%nat → wrapped (word_at text) h (length h0) ret rs →
  outcome (POk (wrap (Simple ws) rs) (toks_at p))
    ((alter_exec (length h0) (λ argv eargv, EXEC (<[length ws := None]> argv) (<[length ws := None]> eargv));; mret (ret, p))
      (Shell buf h)) h0 (node_is (word_at text)).
Proof.
  intros Hp Hh Hc Ha Hl Hw. rewrite (bind_ok _ _ _ _ _ (alter_exec_run _ _ _ _ _ Hc)).
  apply outcome_ret; [done|done|by apply insert_after_prefix|].
  eapply wrapped_node; [by eapply wrapped_insert|].
  eapply ni_exec; [by rewrite list_lookup_insert_eq by (by eapply lookup_lt_Some)|by apply args_ok_end|].
  destruct Ha as (Ha & _). by rewrite list_lookup_insert_eq by lia.
Qed.

Lemma exec_loop_run fuel ret p h h0 ws rs argv eargv :
  (p <= es)%nat → (length (toks_at p) < fuel)%nat → (∀ s r, toks_at p = Sym s :: r → redir s = None) →
  h0 `prefix_of` h → h !! length h0 = Some (EXEC argv eargv) →
  args_ok (word_at text) ws argv eargv → (length ws < MAXARGS)%nat → wrapped (word_at text) h (length h0) ret rs →
  outcome (pbind (titems (length ws) (toks_at p)) (λ '(a, rs') r, POk (wrap (Simple (ws ++ a)) (rs ++ rs')) r))
    (parseexec_loop fuel (length h0) (length ws) ret p es (Shell buf h)) h0 (node_is (word_at text)).
Proof.
  revert ret p h ws rs argv eargv. induction fuel as [|fuel IH]; intros ret p h ws rs argv eargv Hp Hf Hr Hh Hc Ha Hl Hw; [lia|].
  cbn [parseexec_loop]. apply outcome_peek; [done..|]. intros p1 Hp1 E0. rewrite <- E0 in Hf, Hr |- *. clear E0.
  destruct (toks_at p1) as [|[w|s] ts] eqn:E1.
  - apply outcome_token; [done|]. intros tok q e p2 Hp2. rewrite E1. intros [-> E2]. simpl.
    rewrite !app_nil_r. rewrite <- E2. by eapply exec_end_run.
  - apply outcome_token; [done|]. intros tok q e p2 Hp2. rewrite E1. intros (-> & <- & Hq). cbn [titems].
    cbn -[titems MAXARGS parseexec_loop redirs_of alter_exec outcome pbind Nat.leb mbind].
    rewrite (bind_ok _ _ _ _ _ (alter_exec_run _ _ _ _ _ Hc)).
    destruct (Nat.leb_spec MAXARGS (length ws + 1)) as [|Hl1]; [by eexists|].
    rewrite titems_redirs, !pbind_assoc.
    pose proof (lookup_lt_Some _ _ _ Hc) as Hlc.
    eapply outcome_bind.
    { apply redirs_run; [done|pose proof (length_tokens (drop p2 text)) as H; rewrite length_drop in H; lia|].
      rewrite length_insert. by eapply wrapped_lt. }
    cbv beta. intros rs0 ret' p3 h' Hp3 Ers Hh' Hw'. rewrite !pbind_assoc.
    specialize (IH ret' p3 h' (ws ++ [w]) (rs ++ rs0)).
    rewrite length_app in IH. simpl length in IH.
    eapply outcome_eq; [|eapply IH].
    + destruct (titems (length ws + 1) (toks_at p3)) as [[a rs']| |]; simpl; [|done..]. by rewrite <- !app_assoc.
    + done.
    + apply tredirs_sound in Ers as (u & Ers & _). rewrite Ers in Hf. simpl in Hf. rewrite length_app in Hf. lia.
    + intros s r Es. by eapply tredirs_rest.
    + etrans; [by apply insert_after_prefix|done].
    + eapply prefix_lookup_Some; [|done]. by apply list_lookup_insert_eq.
    + by apply args_ok_snoc.
    + lia.
    + eapply wrapped_app; [|done]. eapply wrapped_prefix; [done|]. by eapply wrapped_insert.
  - cbn [titems]. rewrite (Hr s ts) by done. case_decide as Hs.
    + subst s. apply outcome_token; [done|]. intros tok q e p2 Hp2. rewrite E1. intros [-> E2]. by eexists.
    + assert (Hb : in_set (str "|)&;") (first s) = true) by (specialize (Hr s ts eq_refl); by destruct s).
      cbn [starts]. rewrite Hb. simpl. rewrite !app_nil_r, <- E1. by eapply exec_end_run.
Qed.

Lemma malloc_run {B} n (k : nat → M B) h :
  (malloc_node n ≫= k) (Shell buf h) = k (length h) (Shell buf (h ++ [n])).
Proof. done. Qed.

Lemma last_node (h : list node) n : (h ++ [n]) !! length h = Some n.
Proof. by rewrite lookup_app_r, Nat.sub_diag by lia. Qed.

Lemma back_run fuel cmd p h t :
  (p <= es)%nat → (length (toks_at p) < fuel)%nat → node_is (word_at text) h cmd t →
  outcome (let '(n, r) := amps (toks_at p) in POk (Nat.iter n Back t) r) (back_loop fuel cmd p es (Shell buf h)) h (node_is (word_at text)).
Proof.
  revert cmd p h t. induction fuel as [|fuel IH]; intros cmd p h t Hp Hf Hc; [lia|].
  cbn [back_loop]. apply outcome_peek; [done..|]. intros p1 Hp1 E0. rewrite <- E0 in Hf |- *. clear E0.
  destruct (toks_at p1) as [|[w|s] ts] eqn:E1; [by apply outcome_ret..|].
  destruct (decide (s = Amp)) as [->|Hs]; [|by destruct s; try done; apply outcome_ret].
  cbn [starts]. replace (in_set (str "&") (first Amp)) with true by done.
  apply outcome_token; [done|]. intros tok q e p2 Hp2. rewrite E1. intros [-> <-]. simpl in Hf.
  unfold backcmd. rewrite malloc_run. cbn [amps].
  specialize (IH (length h) p2 (h ++ [BACK cmd]) (Back t) Hp2 ltac:(lia)).
  destruct (amps (toks_at p2)) as [n r]. destruct IH as (b & p' & h' & -> & Hp' & Er & Hh & HR).
  { econstructor; [apply last_node|by eapply node_is_lt|]. eapply node_is_mono; [by eexists|done]. }
  exists b, p', h'. split_and!; try done; [etrans; [by eexists|done]|]. by rewrite Nat.iter_succ_r.
Qed.

(** Two commands in one node. *)
Lemma pair_run n t1 t2 c1 c2 p h h0 t :
  (p <= es)%nat → h0 `prefix_of` h → node_is (word_at text) h c1 t1 → node_is (word_at text) h c2 t2 →
  (∀ h c, h !! c = Some n → (c1 < c)%nat → (c2 < c)%nat → node_is (word_at text) h c1 t1 → node_is (word_at text) h c2 t2 → node_is (word_at text) h c t) →
  outcome (POk t (toks_at p)) ((cmd ← malloc_node n; mret (cmd, p)) (Shell buf h)) h0 (node_is (word_at text)).
Proof.
  intros Hp Hh H1 H2 H. rewrite malloc_run. apply outcome_ret; [done|done|etrans; [done|by eexists]|].
  apply H; [apply last_node|by eapply node_is_lt..| |]; (eapply node_is_mono; [by eexists|done]).
Qed.

Definition agrees (tp : list token → pres tree) (f : nat → nat → M (nat * nat)) : Prop :=
  ∀ p h, (p <= es)%nat → outcome (tp (toks_at p)) (f p es (Shell buf h)) h (node_is (word_at text)).

Lemma tokens_left p : (p <= es)%nat → (length (toks_at p) < S (es - p))%nat.
Proof. intros Hp. pose proof (length_tokens (drop p text)) as H. rewrite length_drop in H. lia. Qed.

Lemma line_agrees fuel :
  agrees (tpipe fuel) (parsepipe fuel) → agrees (tline fuel) (parseline fuel) →
  agrees (tline (S fuel)) (parseline (S fuel)).
Proof.
  intros IHp IHl p h Hp.
  cbn [tline parseline]. eapply outcome_bind; [by apply IHp|]. intros t cmd p1 h1 Hp1 _ Hh1 Hc.
  pose proof (back_run (S (es - p1)) cmd p1 h1 t Hp1 (tokens_left _ Hp1) Hc) as Hb.
  destruct (amps (toks_at p1)) as [n r].
  eapply (outcome_eq (pbind (POk (Nat.iter n Back t) r) (λ t r, match r with
    | Sym Semi :: r' => pbind (tline fuel r') (λ t' r'', POk (Seq t t') r'') | _ => POk t r end))).
  { simpl. by destruct r as [|[|[]]]. }
  eapply outcome_bind; [exact Hb|]. clear Hb. intros t1 cmd1 p2 h2 Hp2 _ Hh2 Hc2.
  apply outcome_peek; [done..|]. intros p3 Hp3 <-.
  assert (H0 : outcome (POk t1 (toks_at p3)) (Ok (cmd1, p3) (Shell buf h2)) h (node_is (word_at text))).
  { apply outcome_ret; try done. by etrans. }
  destruct (toks_at p3) as [|[w|s] ts] eqn:E; [exact H0..|].
  destruct (decide (s = Semi)) as [->|Hs]; [|destruct s; try done; exact H0].
  apply outcome_token; [done|]. intros tok q e p4 Hp4. rewrite E. intros [_ <-].
  eapply outcome_bind; [by apply IHl|]. intros t' cmd' p5 h5 Hp5 _ Hh5 Hc5.
  eapply pair_run; [done|by do 2 (etrans; [done|])|by eapply node_is_mono|done|]. intros. by eapply ni_list.
Qed.

Lemma pipe_agrees fuel :
  agrees (texec fuel) (parseexec fuel) → agrees (tpipe fuel) (parsepipe fuel) →
  agrees (tpipe (S fuel)) (parsepipe (S fuel)).
Proof.
  intros IHe IHp p h Hp.
  cbn [tpipe parsepipe]. eapply outcome_bind; [by apply IHe|]. intros t cmd p1 h1 Hp1 _ Hh1 Hc.
  apply outcome_peek; [done..|]. intros p2 Hp2 <-.
  assert (H0 : outcome (POk t (toks_at p2)) (Ok (cmd, p2) (Shell buf h1)) h (node_is (word_at text))) by (by apply outcome_ret).
  destruct (toks_at p2) as [|[w|s] ts] eqn:E; [exact H0..|].
  destruct (decide (s = Bar)) as [->|Hs]; [|destruct s; try done; exact H0].
  apply outcome_token; [done|]. intros tok q e p3 Hp3. rewrite E. intros [_ <-].
  eapply outcome_bind; [by apply IHp|]. intros t' cmd' p4 h4 Hp4 _ Hh4 Hc4.
  eapply pair_run; [done|by etrans|by eapply node_is_mono|done|]. intros. by eapply ni_pipe.
Qed.

Lemma exec_agrees fuel :
  agrees (tblock fuel) (parseblock fuel) → agrees (texec (S fuel)) (parseexec (S fuel)).
Proof.
  intros IHb p h Hp.
  cbn [texec parseexec]. apply outcome_peek; [done..|]. intros p1 Hp1 <-.
  assert (Hd : (∃ ts, toks_at p1 = Sym Open :: ts) ∨ (∀ ts, toks_at p1 ≠ Sym Open :: ts))
    by (destruct (toks_at p1) as [|[|[]]]; naive_solver).
  destruct Hd as [[ts E]|Hn].
  { pose proof (IHb p1 h Hp1) as Hb. rewrite E in Hb |- *. exact Hb. }
  eapply (outcome_eq (pbind (titems 0 (toks_at p1)) (λ '(a, rs) r, POk (wrap (Simple a) rs) r))).
  { clear -Hn. revert Hn. destruct (toks_at p1) as [|[|[]] l]; intros Hn; try done. by destruct (Hn l). }
  replace (starts "(" (toks_at p1)) with false
    by (clear -Hn; revert Hn; destruct (toks_at p1) as [|[|[]] l]; intros Hn; try done; by destruct (Hn l)).
  unfold execcmd. rewrite malloc_run, titems_redirs, pbind_assoc. eapply outcome_bind.
  { apply redirs_run; [done|by apply tokens_left|rewrite length_app; simpl; lia]. }
  cbv beta. intros rs ret p2 h2 Hp2 Ers Hh2 Hw. rewrite pbind_assoc.
  eapply outcome_eq; [|eapply (exec_loop_run _ _ _ _ h [] rs)].
  - simpl length. by destruct (titems 0 (toks_at p2)) as [[]| |].
  - done.
  - by apply tokens_left.
  - intros s r Es. by eapply tredirs_rest.
  - etrans; [by eexists|done].
  - eapply prefix_lookup_Some; [apply last_node|done].
  - split_and!; [done..|]. intros i w. by rewrite lookup_nil.
  - unfold MAXARGS. simpl. lia.
  - done.
Qed.

Lemma block_agrees fuel :
  agrees (tline fuel) (parseline fuel) → agrees (tblock (S fuel)) (parseblock (S fuel)).
Proof.
  intros IHl p h Hp.
  cbn [tblock parseblock]. apply outcome_peek; [done..|]. intros p1 Hp1 <-.
  destruct (toks_at p1) as [|[w|s] ts] eqn:E; [by eexists..|].
  destruct (decide (s = Open)) as [->|Hs]; [|destruct s; try done; by eexists].
  apply outcome_token; [done|]. intros tok q e p2 Hp2. rewrite E. intros [_ <-].
  eapply outcome_bind; [by apply IHl|]. intros t cmd p3 h3 Hp3 _ Hh3 Hc.
  apply outcome_peek; [done..|]. intros p4 Hp4 <-.
  destruct (toks_at p4) as [|[w|s] ts] eqn:E4; [by eexists..|].
  destruct (decide (s = Close)) as [->|Hs]; [|destruct s; try done; by eexists].
  apply outcome_token; [done|]. intros tok' q' e' p5 Hp5. rewrite E4. intros [_ <-].
  pose proof (redirs_run (S (es - p5)) cmd p5 h3 Hp5 (tokens_left _ Hp5) ltac:(by eapply node_is_lt)) as H.
  unfold redirs_of. destruct (tredirs (toks_at p5)) as [rs r| |]; [|done..].
  destruct H as (ret & p' & h' & -> & Hp' & Er & Hh & HR). exists ret, p', h'. split_and!; try done; [by etrans|].
  eapply wrapped_node; [done|by eapply node_is_mono].
Qed.

Lemma parser_agrees fuel :
  agrees (tline fuel) (parseline fuel) ∧ agrees (tpipe fuel) (parsepipe fuel) ∧
  agrees (texec fuel) (parseexec fuel) ∧ agrees (tblock fuel) (parseblock fuel).
Proof.
  induction fuel as [|fuel (? & ? & ? & ?)]; [done|].
  split_and!; [by apply line_agrees|by apply pipe_agrees|by apply exec_agrees|by apply block_agrees].
Qed.

End refinement.

(** ** The words as C strings *)

(** A NUL-terminated string [w] at [q]. *)
Definition string_at (b : list Z) (q : nat) (w : list Z) : Prop :=
  Forall (λ c, c ≠ 0) w ∧ ∃ l, drop q b = w ++ 0 :: l.

Lemma node_is_impl (P Q : nat → nat → list Z → Prop) h c t :
  (∀ q e w, P q e w → Q q e w) → node_is P h c t → node_is Q h c t.
Proof.
  intros HPQ. induction 1 as [c argv eargv ws Hc (Ha & He & H) Hn| | | |]; [|econstructor; eauto..].
  eapply ni_exec; [done| |done]. split_and!; [done..|]. intros i w Hi. naive_solver.
Qed.

Section nulterminate.
Context (text rest : list Z) (Htext : Forall (λ c, c ≠ 0) text).
Notation buf := (buffer text rest).

(** The line with NULs written over characters that are not part of words. *)
Definition ended (b : list Z) : Prop :=
  length b = length buf ∧
  ∀ i, b !! i = buf !! i ∨ (b !! i = Some 0 ∧ ∀ c, text !! i = Some c → word_char c = false).

Definition word_ended (b : list Z) (q e : nat) (w : list Z) : Prop := word_at text q e w ∧ b !! e = Some 0.

(** More NULs. *)
Definition more (b b' : list Z) : Prop := ended b' ∧ ∀ i, b !! i = Some 0 → b' !! i = Some 0.

#[local] Instance more_trans : Transitive more.
Proof. intros b1 b2 b3 [_ H1] [H2 H3]. split; auto. Qed.

Lemma word_at_end q e w : word_at text q e w → (e <= length text)%nat ∧ (q < e)%nat.
Proof.
  intros (Hw & _ & E & -> & _). apply (f_equal length) in E. rewrite length_app, !length_drop in E.
  destruct w; [done|]. simpl in *. lia.
Qed.

Lemma put_nul_run b h q e w :
  ended b → word_at text q e w →
  put_nul e (Shell b h) = Ok tt (Shell (<[e := 0]> b) h) ∧ more b (<[e := 0]> b) ∧ (<[e := 0]> b) !! e = Some 0.
Proof.
  intros [Hl Hb] Hw. destruct (word_at_end _ _ _ Hw) as [He _].
  assert (Hlt : (e < length b)%nat) by (rewrite Hl; unfold buffer; rewrite length_app; simpl; lia).
  split_and!; [| |by apply list_lookup_insert_eq].
  { unfold put_nul. rewrite bind_kgets. simpl sh_buf. by rewrite (proj2 (Nat.ltb_lt _ _)). }
  split; [split; [by rewrite length_insert|]|]; intros i; destruct (decide (i = e)) as [->|Hi].
  - right. rewrite list_lookup_insert_eq by done. split; [done|]. intros c Hc.
    destruct Hw as (_ & _ & _ & _ & Hs). apply Hs. by rewrite head_lookup, lookup_drop, Nat.add_0_r.
  - rewrite list_lookup_insert_ne by done. apply Hb.
  - intros _. by apply list_lookup_insert_eq.
  - by rewrite list_lookup_insert_ne.
Qed.

Lemma word_ended_more b b' q e w : more b b' → word_ended b q e w → word_ended b' q e w.
Proof. intros [_ H] [? ?]. split; auto. Qed.

Lemma nul_args_run ws argv eargv b h :
  ended b →
  (∀ i w, ws !! i = Some w → ∃ q e, argv !! i = Some (Some q) ∧ eargv !! i = Some (Some e) ∧ word_at text q e w) →
  argv !! length ws = Some None →
  ∃ b', nul_args argv eargv (Shell b h) = Ok tt (Shell b' h) ∧ more b b' ∧
    ∀ i w, ws !! i = Some w → ∃ q e, argv !! i = Some (Some q) ∧ eargv !! i = Some (Some e) ∧ word_ended b' q e w.
Proof.
  revert argv eargv b. induction ws as [|w ws IH]; intros argv eargv b Hb H Hn.
  - destruct argv as [|[|] argv]; try done. exists b. by destruct eargv as [|[]].
  - destruct (H 0%nat w eq_refl) as (q & e & Ha & He & Hw).
    destruct argv as [|a argv]; [done|]. destruct eargv as [|e' eargv]; [done|]. simpl in Ha, He. simplify_eq.
    destruct (put_nul_run b h q e w Hb Hw) as (R & Hm & H0). cbn [nul_args]. rewrite (bind_ok _ _ _ _ _ R).
    destruct (IH argv eargv (<[e := 0]> b)) as (b' & R' & Hm' & H').
    { apply Hm. } { intros i w' Hi. apply (H (S i) w' Hi). } { done. }
    exists b'. split_and!; [done|by etrans|]. intros [|i] w' Hi; [|by apply H'].
    simpl in Hi. simplify_eq. exists q, e. split_and!; try done. by eapply word_ended_more.
Qed.

Lemma nulterminate_run h c t :
  node_is (word_at text) h c t → ∀ fuel b, (c < fuel)%nat → ended b →
  ∃ b', nulterminate fuel (Some c) (Shell b h) = Ok (Some c) (Shell b' h) ∧ more b b' ∧ node_is (word_ended b') h c t.
Proof.
  induction 1 as [c argv eargv ws Hc (Hla & Hle & Ha) Hn|c d q e mode fd f t Hc Hd Hw _ IH
    |c l r tl tr Hc Hl Hr _ IHl _ IHr|c l r tl tr Hc Hl Hr _ IHl _ IHr|c d t Hc Hd _ IH];
    intros fuel b Hf Hb; (destruct fuel as [|fuel]; [lia|]); cbn [nulterminate]; rewrite bind_kgets; cbn [sh_heap]; rewrite Hc.
  - destruct (nul_args_run ws argv eargv b h Hb Ha Hn) as (b' & R & Hm & H').
    rewrite (bind_ok _ _ _ _ _ R). exists b'. split_and!; [done..|]. eapply ni_exec; [done| |done]. by split_and!.
  - destruct (IH fuel b ltac:(lia) Hb) as (b1 & R1 & Hm1 & H1).
    destruct (put_nul_run b1 h q e f (proj1 Hm1) Hw) as (R2 & Hm2 & H2).
    exists (<[e := 0]> b1). split_and!.
    + unfold mbind, K_bind. by rewrite R1; simpl; rewrite R2.
    + by etrans.
    + econstructor; [done|done|by split|]. eapply node_is_impl; [|done]. intros *. by apply word_ended_more.
  - destruct (IHl fuel b ltac:(lia) Hb) as (b1 & R1 & Hm1 & H1).
    destruct (IHr fuel b1 ltac:(lia) (proj1 Hm1)) as (b2 & R2 & Hm2 & H2).
    exists b2. split_and!; [unfold mbind, K_bind; by rewrite R1; simpl; rewrite R2|by etrans|].
    econstructor; [done..| |done]. eapply node_is_impl; [|done]. intros *. by apply word_ended_more.
  - destruct (IHl fuel b ltac:(lia) Hb) as (b1 & R1 & Hm1 & H1).
    destruct (IHr fuel b1 ltac:(lia) (proj1 Hm1)) as (b2 & R2 & Hm2 & H2).
    exists b2. split_and!; [unfold mbind, K_bind; by rewrite R1; simpl; rewrite R2|by etrans|].
    econstructor; [done..| |done]. eapply node_is_impl; [|done]. intros *. by apply word_ended_more.
  - destruct (IH fuel b ltac:(lia) Hb) as (b1 & R1 & Hm1 & H1).
    exists b1. split_and!; [unfold mbind, K_bind; by rewrite R1|done|by econstructor].
Qed.

(** A word whose end was written over is a string. *)
Lemma word_ended_string b q e w : ended b → word_ended b q e w → string_at b q w.
Proof.
  intros [Hl Hb] [Hw He]. pose proof (word_at_end _ _ _ Hw) as [Hle _].
  destruct Hw as (_ & Hc & E & -> & _).
  assert (Hi : ∀ i c, w !! i = Some c → text !! (q + i)%nat = Some c).
  { intros i c Hi. rewrite <- lookup_drop, E. by apply lookup_app_l_Some. }
  split; [apply Forall_lookup; intros i c Hi'; by eapply Forall_lookup_1 in Htext; [|by apply Hi]|].
  exists (drop (q + length w + 1) b). apply list_eq. intros i. rewrite lookup_drop.
  destruct (decide (i < length w)%nat) as [Hlt|Hge].
  - destruct (lookup_lt_is_Some_2 w i Hlt) as [c Hwi]. rewrite lookup_app_l by done. rewrite Hwi.
    destruct (Hb (q + i)%nat) as [->|[_ Hn]].
    + unfold buffer. apply lookup_app_l_Some. by apply Hi.
    + eapply Forall_lookup_1 in Hc; [|done]. by rewrite (Hn c) in Hc by (by apply Hi).
  - rewrite lookup_app_r by lia. destruct (i - length w)%nat as [|k] eqn:Ek.
    + simpl. by replace (q + i)%nat with (q + length w)%nat by lia.
    + simpl. rewrite lookup_drop. f_equal. lia.
Qed.

End nulterminate.

(** ** The parser as a whole *)

Lemma strlen_app text rest : Forall (λ c, c ≠ 0) text → strlen (text ++ 0 :: rest) = Some (Z.of_nat (length text)).
Proof.
  induction 1 as [|c l Hc _ IH]; [done|]. simpl. rewrite (proj2 (Z.eqb_neq _ _)) by done. rewrite IH. simpl. f_equal. lia.
Qed.

Lemma cstr_app w l : Forall (λ c, c ≠ 0) w → cstr (w ++ 0 :: l) = w.
Proof. induction 1 as [|c w Hc _ IH]; [done|]. simpl. rewrite (proj2 (Z.eqb_neq _ _)) by done. by rewrite IH. Qed.

(** The language has one reading. *)
Lemma grammar_line_iff ts fuel t :
  (4 * length ts + 4 <= fuel)%nat → g_line ts t ↔ tline fuel ts = POk t [].
Proof.
  intros Hf. split.
  - intros H. destruct (proj1 parser_complete ts t H fuel [] I) as [E|E]; rewrite app_nil_r in E; [done|].
    by apply parser_fuel in E.
  - intros E. apply parser_sound in E as (u & -> & H). by rewrite app_nil_r.
Qed.

Lemma parsecmd_run text rest h :
  Forall (λ c, c ≠ 0) text →
  match tline (4 * length text + 4) (tokens text) with
  | POk t [] =>
      ∃ c b h', parsecmd (Shell (text ++ 0 :: rest) h) = Ok (Parsed c) (Shell b h') ∧
        node_is (λ q _ w, string_at b q w) h' c t
  | POk t r =>
      ∃ w s st, parsecmd (Shell (text ++ 0 :: rest) h) = Ok (Leftovers s) st ∧ text = w ++ s ∧ tokens s = r
  | PErr => ∃ msg, parsecmd (Shell (text ++ 0 :: rest) h) = Panic msg
  | PFuel => True
  end.
Proof.
  intros Ht. unfold parsecmd. rewrite bind_kgets. cbn [sh_buf]. rewrite strlen_app, Nat2Z.id by done.
  pose proof (proj1 (parser_agrees text rest Ht (4 * length text + 4)) 0%nat h ltac:(lia)) as R. rewrite drop_0 in R.
  cbv zeta. generalize dependent (4 * length text + 4)%nat. intros fuel R.
  destruct (tline fuel (tokens text)) as [t r| |]; [| |done].
  2: { destruct R as [msg R]. exists msg. by apply bind_panic. }
  destruct R as (c & p & h' & R & Hp & Er & _ & Hc). rewrite (bind_ok _ _ _ _ _ R). cbv beta iota.
  destruct (peek_run text rest Ht "" p (Shell (buffer text rest) h') eq_refl eq_refl Hp)
    as ([b p'] & st' & R' & -> & Hp' & _ & Et & Hes).
  rewrite (bind_ok _ _ _ _ _ R'). cbv beta iota. rewrite Er in Hes.
  destruct r as [|x r].
  - rewrite (proj2 Hes), Nat.eqb_refl by done. cbn [negb]. rewrite bind_kgets. cbn [sh_heap].
    destruct (nulterminate_run text rest h' c t Hc (S (length h')) (buffer text rest)) as (b' & R2 & Hm & Hn).
    { apply node_is_lt in Hc. lia. } { split; auto. }
    rewrite (bind_ok _ _ _ _ _ R2). exists c, b', h'. split; [done|].
    eapply node_is_impl, Hn. intros q e w. eapply word_ended_string; [done|apply Hm].
  - rewrite (proj2 (Nat.eqb_neq _ _)) by naive_solver. cbn [negb]. rewrite bind_kgets. cbn [sh_buf].
    unfold buffer. rewrite drop_app_le by done. rewrite cstr_app by by apply Forall_drop.
    eexists (take p' text), _, _. split; [done|]. by rewrite take_drop, Et.
Qed.


(** The command of a sample line. *)
Definition sample_line : list Z := str "ls -l | (grep x; cat <in) >>out &".

Definition sample_tree : tree :=
  Back (Pipe (Simple [str "ls"; str "-l"])
    (Redir (Seq (Simple [str "grep"; str "x"]) (Redir (Simple [str "cat"]) (str "in") O_RDONLY 0))
       (str "out") (Z.lor O_WRONLY O_CREATE) 1)).

Lemma sample_line_derives : g_line (tokens sample_line) sample_tree.
Proof. apply (grammar_line_iff _ 200); [apply Nat.leb_le; vm_compute; reflexivity|]. vm_compute. reflexivity. Qed.

