(* ===== verification/ShellRun.v ===== *)
(** * The shell at work

    Models the running half of [sh.c]: [runcmd], [fork1], [getcmd] and [main], as
    programs that make system calls.  An interpreter of the system calls over
    descriptor tables then tells which programs a line starts and on what files. *)

From S2P Require Import Prelude Printf CString Bytes Shell.

(** ** Programs of system calls *)

(** What a process goes on to do; [SysStuck] is a computation C leaves undefined,
    or the end of the fuel. *)
Inductive prog :=
| SysExit
| SysClose (fd : Z) (k : prog)
| SysOpen (path : list Z) (mode : Z) (k : Z → prog)
| SysDup (fd : Z) (k : prog)
| SysPipe (k : Z → Z * Z → prog)
| SysFork (k : Z → prog)
| SysWait (k : prog)
| SysExec (argv : list (list Z)) (k : prog)
| SysChdir (path : list Z) (k : Z → prog)
| SysGets (max : Z) (k : list Z → prog)
| SysPrintf (fd : Z) (fmt : string) (args : list (list Z)) (k : prog)
| SysStuck (why : string).

Definition newline : string := String.String (Ascii.ascii_of_nat 10) String.EmptyString.

Definition panic (s : string) : prog := SysPrintf 2 ("%s" ++ newline) [str s] SysExit.

(** Fork but panics on failure. *)
Definition fork1 (k : Z → prog) : prog := SysFork (λ pid, if pid =? -1 then panic "fork" else k pid).

(** The string a pointer into the line stands for. *)
Definition string_of (b : list Z) (q : nat) : list Z := cstr (drop q b).

(** The strings of a null-terminated array of pointers. *)
Fixpoint strings_of (b : list Z) (argv : list (option nat)) : list (list Z) :=
  match argv with
  | Some q :: argv' => string_of b q :: strings_of b argv'
  | _ => []
  end.

Fixpoint runcmd (fuel : nat) (st : shell) (cmd : option nat) : prog :=
  match fuel with
  | O => SysStuck "fuel"
  | S fuel' =>
      match cmd with
      | None => SysExit
      | Some c =>
          match sh_heap st !! c with
          | None => SysStuck "cmd->type"
          | Some (EXEC argv eargv) =>
              match argv with
              | Some q :: _ =>
                  SysExec (strings_of (sh_buf st) argv)
                    (SysPrintf 2 ("exec %s failed" ++ newline) [string_of (sh_buf st) q] SysExit)
              | None :: _ => SysExit
              | [] => SysStuck "argv[0]"
              end
          | Some (REDIR c file efile mode fd) =>
              SysClose fd
                (SysOpen (string_of (sh_buf st) file) mode (λ r,
                   if r <? 0 then SysPrintf 2 ("open %s failed" ++ newline) [string_of (sh_buf st) file] SysExit
                   else runcmd fuel' st (Some c)))
          | Some (LIST l r) =>
              fork1 (λ pid,
                if pid =? 0 then runcmd fuel' st (Some l)
                else SysWait (runcmd fuel' st (Some r)))
          | Some (PIPE l r) =>
              SysPipe (λ res p,
                if res <? 0 then panic "pipe"
                else
                  fork1 (λ pid,
                    if pid =? 0 then
                      SysClose 1 (SysDup (snd p) (SysClose (fst p) (SysClose (snd p) (runcmd fuel' st (Some l)))))
                    else
                      fork1 (λ pid,
                        if pid =? 0 then
                          SysClose 0 (SysDup (fst p) (SysClose (fst p) (SysClose (snd p) (runcmd fuel' st (Some r)))))
                        else SysClose (fst p) (SysClose (snd p) (SysWait (SysWait SysExit))))))
          | Some (BACK c) => fork1 (λ pid, if pid =? 0 then runcmd fuel' st (Some c) else SysExit)
          end
      end
  end.

(** [runcmd(parsecmd(buf))], as the child of the shell does it: the child's heap
    holds no nodes yet. *)
Definition run_line (buf : list Z) : prog :=
  match parsecmd (Shell buf []) with
  | Ok (Parsed c) st => runcmd (S c) st (Some c)
  | Ok (Leftovers s) _ => SysPrintf 2 ("leftovers: %s" ++ newline) [s] (panic "syntax")
  | Panic msg => panic msg
  | _ => SysStuck "parsecmd"
  end.

(** [getcmd] on a buffer of [nbuf] bytes: the buffer and the result. *)
Definition getcmd (nbuf : Z) (k : list Z → Z → prog) : prog :=
  SysPrintf 2 "$ " []
    (SysGets nbuf (λ line,
       let buf := line ++ replicate (Z.to_nat nbuf - length line) 0 in
       match buf with
       | [] => SysStuck "buf[0]"
       | c :: _ => k buf (if c =? 0 then -1 else 0)
       end)).

(** Ensure that three file descriptors are open. *)
Fixpoint open_console (fuel : nat) (k : prog) : prog :=
  match fuel with
  | O => SysStuck "fuel"
  | S fuel' =>
      SysOpen (str "console") O_RDWR (λ fd,
        if 0 <=? fd then
          if 3 <=? fd then SysClose fd k else open_console fuel' k
        else k)
  end.

Definition CH_c : Z := 99.
Definition CH_d : Z := 100.
Definition CH_SPACE : Z := 32.

(** Read and run input commands. *)
Fixpoint main_loop (fuel : nat) : prog :=
  match fuel with
  | O => SysStuck "fuel"
  | S fuel' =>
      getcmd 100 (λ buf r,
        if 0 <=? r then
          match buf with
          | c0 :: c1 :: c2 :: path =>
              if (c0 =? CH_c) && (c1 =? CH_d) && (c2 =? CH_SPACE) then
                match strlen buf with
                | None => SysStuck "strlen"
                | Some n =>
                    let path := drop 3 (<[Z.to_nat (n - 1) := 0]> buf) in
                    SysChdir (cstr path) (λ r,
                      if r <? 0 then SysPrintf 2 ("cannot cd %s" ++ newline) [cstr path] (main_loop fuel')
                      else main_loop fuel')
                end
              else
                fork1 (λ pid, if pid =? 0 then run_line buf else SysWait (main_loop fuel'))
          | _ => SysStuck "buf"
          end
        else SysExit)
  end.

Definition main (fuel : nat) : prog := open_console 4 (main_loop fuel).

(** ** The system calls *)

(** What a descriptor stands for. *)
Inductive obj := Console | File (path : list Z) (mode : Z) | PipeEnd (id : nat) (write : bool).

Notation fdtable := (gmap Z obj).

(** The lowest descriptor that is free. *)
Definition lowest_fd (t : fdtable) : option Z :=
  find (λ fd, bool_decide (t !! fd = None)) (seqZ 0 16).

(** The object a file that was opened stands for. *)
Definition opened (path : list Z) (mode : Z) : obj :=
  if decide (path = str "console") then Console else File path mode.

(** What happens: a program starts with its descriptors, a process waits for a child
    while it has these descriptors, something is printed, or a process gets stuck. *)
Inductive event :=
| Started (argv : list (list Z)) (t : fdtable)
| Waited (t : fdtable)
| Printed (fmt : string) (args : list (list Z))
| Stuck (why : string).

Section system.
(** Which files can be opened and which programs can be run, and where [chdir]
    may go. *)
Context (can_open : list Z → Z → bool) (can_exec : list Z → bool) (can_cd : list Z → bool).

(** The events of a process and its children, in the order in which the processes
    are created; [n] numbers the pipes, [inp] is what is left to read.
    Children get [0] from [fork], which has a process to give: the panic of [fork1] is
    not reached here. *)
Fixpoint launch (t : fdtable) (n : nat) (inp : list Z) (p : prog) : list event * nat * list Z :=
  match p with
  | SysExit => ([], n, inp)
  | SysClose fd k => launch (delete fd t) n inp k
  | SysOpen path mode k =>
      match lowest_fd t with
      | Some fd =>
          if can_open path mode
          then launch (<[fd := opened path mode]> t) n inp (k fd)
          else launch t n inp (k (-1))
      | None => launch t n inp (k (-1))
      end
  | SysDup fd k =>
      match t !! fd, lowest_fd t with
      | Some o, Some fd' => launch (<[fd' := o]> t) n inp k
      | _, _ => launch t n inp k
      end
  | SysPipe k =>
      match lowest_fd t with
      | Some r =>
          let t1 := <[r := PipeEnd n false]> t in
          match lowest_fd t1 with
          | Some w => launch (<[w := PipeEnd n true]> t1) (S n) inp (k 0 (r, w))
          | None => launch t n inp (k (-1) (0, 0))
          end
      | None => launch t n inp (k (-1) (0, 0))
      end
  | SysFork k =>
      let '(e1, n1, inp1) := launch t n inp (k 0) in
      let '(e2, n2, inp2) := launch t n1 inp1 (k 1) in
      (e1 ++ e2, n2, inp2)
  | SysWait k => let '(e, n', inp') := launch t n inp k in (Waited t :: e, n', inp')
  | SysExec argv k =>
      match argv with
      | path :: _ => if can_exec path then ([Started argv t], n, inp) else launch t n inp k
      | [] => launch t n inp k
      end
  | SysChdir path k => launch t n inp (k (if can_cd path then 0 else -1))
  | SysGets max k => let '(l, inp') := gets max inp in launch t n inp' (k l)
  | SysPrintf fd fmt args k =>
      let '(e, n', inp') := launch t n inp k in (Printed fmt args :: e, n', inp')
  | SysStuck why => ([Stuck why], n, inp)
  end.

(** ** What a command means *)

(** The programs of a command: a redirection changes one descriptor, a pipeline
    joins the output of its left side to the input of its right side and is waited for
    on both sides by a process that holds no end of the pipe, a list runs its right side
    after waiting for its left side, a background command is not waited for. *)
Fixpoint plan (c : tree) (t : fdtable) (n : nat) : list event * nat :=
  match c with
  | Simple [] => ([], n)
  | Simple (w :: ws) =>
      ([if can_exec w then Started (w :: ws) t else Printed ("exec %s failed" ++ newline) [w]], n)
  | Redir c f mode fd =>
      if can_open f mode then plan c (<[fd := opened f mode]> t) n
      else ([Printed ("open %s failed" ++ newline) [f]], n)
  | Pipe l r =>
      let '(e1, n1) := plan l (<[1 := PipeEnd n true]> t) (S n) in
      let '(e2, n2) := plan r (<[0 := PipeEnd n false]> t) n1 in
      (e1 ++ e2 ++ [Waited t; Waited t], n2)
  | Seq l r =>
      let '(e1, n1) := plan l t n in
      let '(e2, n2) := plan r t n1 in
      (e1 ++ Waited t :: e2, n2)
  | Back c => plan c t n
  end.

(** The descriptors of a program the shell starts: 0, 1 and 2 are open, nothing
    else is. *)
Definition std (t : fdtable) : Prop := ∀ fd, is_Some (t !! fd) ↔ 0 <= fd < 3.

Fixpoint redirs_ok (c : tree) : Prop :=
  match c with
  | Simple _ => True
  | Redir c _ _ fd => 0 <= fd < 3 ∧ redirs_ok c
  | Pipe l r | Seq l r => redirs_ok l ∧ redirs_ok r
  | Back c => redirs_ok c
  end.

Lemma lowest_fd_least t fd :
  0 <= fd < 16 → t !! fd = None → (∀ i, 0 <= i < fd → is_Some (t !! i)) → lowest_fd t = Some fd.
Proof.
  intros Hfd Hn Hi. unfold lowest_fd. replace (seqZ 0 16) with (seqZ 0 fd ++ fd :: seqZ (fd + 1) (15 - fd)).
  2: { replace (fd :: seqZ (fd + 1) (15 - fd)) with (seqZ (0 + fd) (16 - fd)).
       - rewrite <- seqZ_app by lia. f_equal. lia.
       - rewrite (seqZ_cons (0 + fd)) by lia. f_equal. f_equal; lia. }
  assert (H : Forall (λ i, is_Some (t !! i)) (seqZ 0 fd)).
  { apply list.Forall_forall. intros i [? ?]%elem_of_seqZ. apply Hi. lia. }
  induction H as [|i l [o Ho] _ IH]; simpl.
  - by rewrite bool_decide_true.
  - by rewrite bool_decide_false by congruence.
Qed.

Lemma std_insert t fd o : std t → 0 <= fd < 3 → std (<[fd := o]> t).
Proof.
  intros Ht Hfd i. destruct (decide (i = fd)) as [->|Hi].
  - rewrite lookup_insert_eq. naive_solver.
  - rewrite lookup_insert_ne by done. apply Ht.
Qed.

Lemma std_none t fd : std t → ¬ (0 <= fd < 3) → t !! fd = None.
Proof. intros Ht Hfd. apply eq_None_not_Some. by rewrite (Ht fd). Qed.

(** Closing one of them makes it the lowest free one. *)
Lemma lowest_fd_delete t t' fd :
  std t → 0 <= fd < 3 → (∀ i, 0 <= i < 3 → i ≠ fd → t' !! i = t !! i) → t' !! fd = None → lowest_fd t' = Some fd.
Proof.
  intros Ht Hfd Ht' Hn. apply lowest_fd_least; [lia|done|]. intros i Hi. rewrite Ht' by lia. apply Ht. lia.
Qed.

Lemma lowest_fd_std t : std t → lowest_fd t = Some 3.
Proof. intros Ht. apply lowest_fd_least; [lia|apply std_none; [done|lia]|]. intros i Hi. by apply Ht. Qed.

Lemma lowest_fd_std_next t o : std t → lowest_fd (<[3 := o]> t) = Some 4.
Proof.
  intros Ht. apply lowest_fd_least; [lia|rewrite lookup_insert_ne by lia; apply std_none; [done|lia]|].
  intros i Hi. destruct (decide (i = 3)) as [->|]; [rewrite lookup_insert_eq; eauto|].
  rewrite lookup_insert_ne by done. apply Ht. lia.
Qed.

(** [close(fd); dup(end); close(p[0]); close(p[1])] leaves [fd] joined to the pipe. *)
Lemma dup_end t fd o r w :
  std t → 0 <= fd < 3 →
  delete 4 (delete 3 (<[fd := o]> (delete fd (<[4 := w]> (<[3 := r]> t))))) = <[fd := o]> t.
Proof.
  intros Ht Hfd. apply map_eq. intros i.
  destruct (decide (i = 4)) as [->|]; [rewrite lookup_delete_eq, lookup_insert_ne by lia; by rewrite std_none by (done || lia)|].
  rewrite lookup_delete_ne by done.
  destruct (decide (i = 3)) as [->|]; [rewrite lookup_delete_eq, lookup_insert_ne by lia; by rewrite std_none by (done || lia)|].
  rewrite lookup_delete_ne by done.
  destruct (decide (i = fd)) as [->|]; [by rewrite !lookup_insert_eq|].
  rewrite lookup_insert_ne, lookup_delete_ne, !lookup_insert_ne by done. done.
Qed.

Lemma join_run t fd e o r w n inp k :
  std t → 0 <= fd < 3 → 3 <= e → (<[4 := w]> (<[3 := r]> t)) !! e = Some o →
  launch (<[4 := w]> (<[3 := r]> t)) n inp (SysClose fd (SysDup e (SysClose 3 (SysClose 4 k)))) =
  launch (<[fd := o]> t) n inp k.
Proof.
  intros Ht Hfd He Ho. cbn [launch]. rewrite lookup_delete_ne, Ho by lia.
  rewrite (lowest_fd_delete t _ fd Ht Hfd); [by rewrite dup_end| |by rewrite lookup_delete_eq].
  intros i Hi Hne. by rewrite lookup_delete_ne, !lookup_insert_ne by lia.
Qed.

Lemma close_ends t r w : std t → delete 4 (delete 3 (<[4 := w]> (<[3 := r]> t))) = t.
Proof.
  intros Ht. apply map_eq. intros i.
  destruct (decide (i = 4)) as [->|]; [rewrite lookup_delete_eq; by rewrite std_none by (done || lia)|].
  rewrite lookup_delete_ne by done.
  destruct (decide (i = 3)) as [->|]; [rewrite lookup_delete_eq; by rewrite std_none by (done || lia)|].
  by rewrite lookup_delete_ne, !lookup_insert_ne by done.
Qed.

Lemma string_of_at b q w : string_at b q w → string_of b q = w.
Proof.
  intros [Hw [l E]]. unfold string_of. rewrite E. clear E. induction Hw as [|c w Hc _ IH]; [done|].
  simpl. rewrite (proj2 (Z.eqb_neq _ _)) by done. by rewrite IH.
Qed.

Lemma strings_of_args b ws argv :
  (∀ i w, ws !! i = Some w → ∃ q, argv !! i = Some (Some q) ∧ string_at b q w) → argv !! length ws = Some None →
  strings_of b argv = ws.
Proof.
  revert argv. induction ws as [|w ws IH]; intros argv H Hn.
  - by destruct argv as [|[]].
  - destruct (H 0%nat w eq_refl) as (q & Ha & Hq). destruct argv as [|a argv]; [done|]. simpl in Ha. simplify_eq.
    simpl. f_equal; [by apply string_of_at|]. apply IH; [|done]. intros i w' Hi. by apply (H (S i)).
Qed.

Lemma runcmd_plan b h c tr :
  node_is (λ q _ w, string_at b q w) h c tr → ∀ fuel t n inp,
  (c < fuel)%nat → redirs_ok tr → std t →
  launch t n inp (runcmd fuel (Shell b h) (Some c)) = (plan tr t n, inp).
Proof.
  induction 1 as [c argv eargv ws Hc (Hla & Hle & Ha) Hn|c d q e mode fd f tr Hc Hd Hw _ IH
    |c l r tl tr Hc Hl Hr _ IHl _ IHr|c l r tl tr Hc Hl Hr _ IHl _ IHr|c d tr Hc Hd _ IH];
    intros fuel t n inp Hf Hok Ht; (destruct fuel as [|fuel]; [lia|]); cbn [runcmd sh_heap sh_buf]; rewrite Hc.
  - assert (Es : strings_of b argv = ws).
    { apply strings_of_args; [|done]. intros i w Hi. destruct (Ha i w Hi) as (q & e & ? & _ & ?). eauto. }
    destruct argv as [|[q|] argv]; [done| |].
    + destruct ws as [|w ws]; [done|]. destruct (Ha 0%nat w eq_refl) as (q' & e & [= <-] & _ & Hq).
      cbn [launch plan]. rewrite Es, (string_of_at b q w Hq). by destruct (can_exec w).
    + simpl in Es. by subst ws.
  - destruct Hok as [Hfd Hok]. cbn [launch plan]. rewrite (string_of_at b q f Hw).
    rewrite (lowest_fd_delete t _ fd Ht Hfd) by (intros; by rewrite ?lookup_delete_eq, ?lookup_delete_ne).
    destruct (can_open f mode); [|done]. rewrite (proj2 (Z.ltb_ge _ _)) by lia.
    rewrite insert_delete_eq. apply IH; [lia|done|by apply std_insert].
  - destruct Hok as [Hokl Hokr]. cbn [launch plan]. rewrite lowest_fd_std by done.
    rewrite lowest_fd_std_next by done.
    change (0 <? 0) with false. cbv iota. unfold fork1. cbn [fst snd].
    set (T := <[4 := _]> _). cbn [launch Z.eqb]. subst T.
    pose proof (join_run t 1 4 _ (PipeEnd n false) (PipeEnd n true) (S n) inp (runcmd fuel (Shell b h) (Some l)) Ht
      ltac:(lia) ltac:(lia) (lookup_insert_eq _ _ _)) as E1.
    cbn [launch] in E1. rewrite E1, (IHl fuel) by (done || lia || by apply std_insert; [|lia]).
    destruct (plan tl _ _) as [e1 n1].
    pose proof (join_run t 0 3 (PipeEnd n false) (PipeEnd n false) (PipeEnd n true) n1 inp (runcmd fuel (Shell b h) (Some r)) Ht
      ltac:(lia) ltac:(lia) ltac:(by rewrite lookup_insert_ne, lookup_insert_eq)) as E2.
    cbn [launch] in E2. rewrite E2, (IHr fuel) by (done || lia || by apply std_insert; [|lia]).
    destruct (plan tr _ _) as [e2 n2]. by rewrite close_ends.
  - destruct Hok as [Hokl Hokr]. unfold fork1. cbn [launch plan Z.eqb].
    rewrite (IHl fuel t n inp) by (done || lia). destruct (plan tl t n) as [e1 n1].
    rewrite (IHr fuel t n1 inp) by (done || lia). by destruct (plan tr t n1).
  - unfold fork1. cbn [launch plan Z.eqb]. rewrite (IH fuel t n inp) by (done || lia).
    destruct (plan tr t n). by rewrite app_nil_r.
Qed.

(** A program is started with descriptors 0, 1 and 2 and no others. *)
Lemma plan_std tr t n argv t' : redirs_ok tr → std t → Started argv t' ∈ (plan tr t n).1 → std t'.
Proof.
  revert t n. induction tr as [ws|tr IH f mode fd|l IHl r IHr|l IHl r IHr|tr IH]; intros t n Hok Ht; simpl in Hok |- *.
  - destruct ws as [|w ws]; simpl; [by intros ?%elem_of_nil|]. intros E%list_elem_of_singleton.
    destruct (can_exec w); simplify_eq. done.
  - destruct Hok. destruct (can_open f mode); [apply IH; [done|by apply std_insert]|].
    simpl. by intros ?%list_elem_of_singleton.
  - destruct Hok. specialize (IHl (<[1 := PipeEnd n true]> t) (S n)).
    destruct (plan l _ _) as [e1 n1]. specialize (IHr (<[0 := PipeEnd n false]> t) n1).
    destruct (plan r _ _) as [e2 n2]. simpl in *. rewrite !elem_of_app, !elem_of_cons, elem_of_nil.
    intros [?|[?|[?|[?|?]]]]; [apply IHl|apply IHr|..]; auto using std_insert with lia || done.
  - destruct Hok. specialize (IHl t n). destruct (plan l _ _) as [e1 n1]. specialize (IHr t n1).
    destruct (plan r _ _) as [e2 n2]. simpl in *. rewrite elem_of_app, elem_of_cons.
    intros [?|[?|?]]; [apply IHl|done|apply IHr]; auto.
  - by apply IH.
Qed.

Lemma redir_fd s mode fd : redir s = Some (mode, fd) → 0 <= fd < 3.
Proof. destruct s; intros [= <- <-] || intros [=]; lia. Qed.

Lemma wrap_redirs_ok u a rs tr : g_items u a rs → redirs_ok tr → redirs_ok (wrap tr rs).
Proof.
  intros H. revert tr. induction H as [|w u a rs _ IH|s mode fd f u a rs Es _ IH]; intros tr Hok; simpl; auto.
  apply IH. split; [by eapply redir_fd|done].
Qed.

Lemma iter_redirs_ok n tr : redirs_ok tr → redirs_ok (Nat.iter n Back tr).
Proof. induction n; simpl; auto. Qed.

Lemma grammar_redirs_ok :
  (∀ u tr, g_line u tr → redirs_ok tr) ∧ (∀ u tr, g_pipe u tr → redirs_ok tr) ∧ (∀ u tr, g_exec u tr → redirs_ok tr).
Proof.
  apply grammar_ind; simpl; intros; try split; eauto using iter_redirs_ok, wrap_redirs_ok.
  eapply wrap_redirs_ok; [done|exact I].
Qed.

Lemma run_line_plan text rest tr t n inp :
  Forall (λ c, c ≠ 0) text → g_line (tokens text) tr → std t →
  launch t n inp (run_line (text ++ 0 :: rest)) = (plan tr t n, inp).
Proof.
  intros Htext H Ht. unfold run_line.
  pose proof (parsecmd_run text rest [] Htext) as R. apply (grammar_line_iff _ (4 * length text + 4)) in H as H'.
  2: { pose proof (length_tokens text). lia. }
  rewrite H' in R. destruct R as (c & b & h' & -> & Hn).
  apply runcmd_plan; [done|lia|by apply (proj1 grammar_redirs_ok _ _ H)|done].
Qed.

(** What is printed about a text that is not a command: the message of a panic, behind
    the end of the text when that is left over. *)
Inductive complaint (text : list Z) : list event → Prop :=
| complaint_panic msg : complaint text [Printed ("%s" ++ newline) [str msg]]
| complaint_leftovers w s :
    text = w ++ s → tokens s ≠ [] →
    complaint text [Printed ("leftovers: %s" ++ newline) [s]; Printed ("%s" ++ newline) [str "syntax"]].

(** A line the grammar does not accept. *)
Lemma run_line_bad text rest t n inp :
  Forall (λ c, c ≠ 0) text → ¬ (∃ tr, g_line (tokens text) tr) →
  ∃ e, complaint text e ∧ launch t n inp (run_line (text ++ 0 :: rest)) = (e, n, inp).
Proof.
  intros Htext H. pose proof (parsecmd_run text rest [] Htext) as R. unfold run_line.
  pose proof (length_tokens text) as Hl.
  pose proof (proj1 (parser_fuel (4 * length text + 4)) (tokens text) ltac:(lia)) as Hf.
  destruct (tline (4 * length text + 4) (tokens text)) as [tr [|x r]| |] eqn:E; [| | |done].
  - destruct H. exists tr. by apply (grammar_line_iff _ (4 * length text + 4)); [lia|].
  - destruct R as (w & s & st & -> & Et & Es). eexists. split; [|reflexivity].
    apply (complaint_leftovers _ w); [done|by rewrite Es].
  - destruct R as [msg ->]. eexists. split; [apply complaint_panic|done].
Qed.

(** ** Sessions *)

(** A line as it can be typed: it fits the buffer with its newline and its NUL. *)
Definition line_ok (l : list Z) : Prop :=
  Forall (λ c, c ≠ 0 ∧ c ≠ 10 ∧ c ≠ 13) l ∧ (length l <= 98)%nat.

(** What the shell does with the lines typed to it. *)
Inductive session (t : fdtable) : nat → list (list Z) → list event → Prop :=
| ses_eof n : session t n [] [Printed "$ " []]
| ses_run n l ls tr e n' es :
    (∀ path, l ≠ str "cd " ++ path) → g_line (tokens l) tr → plan tr t n = (e, n') → session t n' ls es →
    session t n (l :: ls) (Printed "$ " [] :: e ++ Waited t :: es)
| ses_syntax n l ls e es :
    (∀ path, l ≠ str "cd " ++ path) → ¬ (∃ tr, g_line (tokens l) tr) → complaint (l ++ [10]) e → session t n ls es →
    session t n (l :: ls) (Printed "$ " [] :: e ++ Waited t :: es)
| ses_cd n path ls es :
    can_cd path = true → session t n ls es → session t n ((str "cd " ++ path) :: ls) (Printed "$ " [] :: es)
| ses_no_cd n path ls es :
    can_cd path = false → session t n ls es →
    session t n ((str "cd " ++ path) :: ls) (Printed "$ " [] :: Printed ("cannot cd %s" ++ newline) [path] :: es).

Lemma tokens_newline l : tokens (l ++ [10]) = tokens l.
Proof.
  unfold tokens. enough (H : ∀ w, lex w (l ++ [10]) = lex w l) by apply H. remember (length l) as n eqn:Hn. revert l Hn.
  induction n as [n IH] using lt_wf_ind. intros l ->. destruct l as [|c l]; intros w.
  { change (flush w ++ [] = flush w). by rewrite app_nil_r. }
  simpl.
  pose proof (IH (length l) ltac:(simpl; lia) l eq_refl) as H1.
  case_match; [by rewrite H1|]. destruct (sym_of c) as [[]|]; rewrite ?H1; try done.
  destruct l as [|c' l]; [done|]. cbn [app] in H1 |- *. case_match; [|done].
  by rewrite (IH (length l) ltac:(simpl; lia) l eq_refl).
Qed.

Lemma gets_line l inp :
  line_ok l → gets 100 (l ++ 10 :: inp) = (l ++ [10; 0], inp).
Proof.
  intros [Hl Hlen]. unfold gets.
  assert (G : ∀ fuel i, (length l < fuel)%nat → i + Z.of_nat (length l) < 99 →
    gets_loop fuel 100 i (l ++ 10 :: inp) = (l ++ [10], inp)).
  { clear Hlen. induction Hl as [|c l (H0 & H1 & H2) _ IH]; intros [|fuel] i Hf Hi; simpl in Hf, Hi; try lia.
    - simpl. rewrite (proj2 (Z.ltb_lt _ _)) by lia. done.
    - cbn [gets_loop app]. rewrite (proj2 (Z.ltb_lt _ _)) by lia.
      rewrite (proj2 (Z.eqb_neq c 10)), (proj2 (Z.eqb_neq c 13)) by done. simpl. by rewrite IH by lia. }
  rewrite G by lia. by rewrite <- app_assoc.
Qed.

(** The buffer after [getcmd] has read a line. *)
Definition line_buffer (l : list Z) : list Z := (l ++ [10]) ++ 0 :: replicate (98 - length l) 0.

Lemma line_text l : line_ok l → Forall (λ c, c ≠ 0) (l ++ [10]).
Proof. intros [Hl _]. apply Forall_app. split; [|by repeat constructor]. eapply list.Forall_impl; [exact Hl|]. by intros c (? & _). Qed.

Lemma getcmd_run t n l inp k :
  line_ok l →
  launch t n (l ++ 10 :: inp) (getcmd 100 k) =
  (let '(e, n', inp') := launch t n inp (k (line_buffer l) 0) in (Printed "$ " [] :: e, n', inp')).
Proof.
  intros Hl. unfold getcmd. cbn [launch]. rewrite gets_line by done.
  replace ((l ++ [10; 0]) ++ replicate (Z.to_nat 100 - length (l ++ [10; 0])) 0) with (line_buffer l).
  2: { unfold line_buffer. rewrite <- !app_assoc. simpl. rewrite length_app. simpl. do 3 f_equal. f_equal. lia. }
  destruct (line_buffer l) as [|c b] eqn:E; [by destruct l|].
  assert (Hc : c ≠ 0).
  { pose proof (line_text _ Hl) as Ht. unfold line_buffer in E.
    destruct l as [|c' l]; injection E as <- _; [done|]. by apply Forall_inv in Ht. }
  by rewrite (proj2 (Z.eqb_neq c 0)).
Qed.

Lemma getcmd_eof t n k :
  launch t n [] (getcmd 100 k) =
  (let '(e, n', inp') := launch t n [] (k (replicate 100 0) (-1)) in (Printed "$ " [] :: e, n', inp')).
Proof. done. Qed.

(** The path of a [cd]. *)
Lemma cd_path path :
  line_ok (str "cd " ++ path) →
  strlen (line_buffer (str "cd " ++ path)) = Some (Z.of_nat (length path) + 4) ∧
  cstr (drop 3 (<[Z.to_nat (Z.of_nat (length path) + 4 - 1) := 0]> (line_buffer (str "cd " ++ path)))) = path.
Proof.
  intros Hl. pose proof (line_text _ Hl) as Ht. unfold line_buffer. split.
  - rewrite strlen_app by done. f_equal. rewrite !length_app. simpl. lia.
  - replace (Z.to_nat (Z.of_nat (length path) + 4 - 1)) with (3 + length path)%nat by lia.
    simpl. rewrite <- !app_assoc. rewrite insert_app_r_alt, Nat.sub_diag by lia. simpl.
    apply cstr_app. destruct Hl as [Hl _]. apply Forall_app in Hl as [_ Hl]. eapply list.Forall_impl; [exact Hl|]. by intros c (? & _).
Qed.

(** The test for [cd]. *)
Lemma cd_test l :
  line_ok l →
  ∃ c0 c1 c2 b, line_buffer l = c0 :: c1 :: c2 :: b ∧
    ((c0 =? CH_c) && (c1 =? CH_d) && (c2 =? CH_SPACE) = true ↔ ∃ path, l = str "cd " ++ path).
Proof.
  intros [_ Hl].
  destruct l as [|c0 [|c1 [|c2 l]]]; eexists _, _, _, _; (split; [reflexivity|]).
  - split; [done|]. by intros [path [=]].
  - split; [|by intros [path [=]]]. by destruct (c0 =? CH_c).
  - split; [|by intros [path [=]]]. by destruct (c0 =? CH_c), (c1 =? CH_d).
  - rewrite !andb_true_iff, !Z.eqb_eq. split; [intros [[-> ->] ->]; by exists l|]. by intros [path [= -> -> -> _]].
Qed.

(** What the child makes of a line. *)
Lemma child_line l t n inp :
  line_ok l → std t →
  (∃ tr, g_line (tokens l) tr ∧ launch t n inp (run_line (line_buffer l)) = (plan tr t n, inp)) ∨
  ((¬ ∃ tr, g_line (tokens l) tr) ∧
   ∃ e, complaint (l ++ [10]) e ∧ launch t n inp (run_line (line_buffer l)) = (e, n, inp)).
Proof.
  intros Hl Ht. pose proof (line_text _ Hl) as Htext. rewrite <- tokens_newline.
  assert (Hd : (∃ tr, g_line (tokens (l ++ [10])) tr) ∨ ¬ ∃ tr, g_line (tokens (l ++ [10])) tr).
  { pose proof (λ tr, grammar_line_iff (tokens (l ++ [10])) _ tr (Nat.le_refl _)) as G. setoid_rewrite G.
    destruct (tline _ _) as [tr [|]| |]; [left; eauto|right; naive_solver..]. }
  destruct Hd as [[tr Htr]|Hn]; [left|right].
  - exists tr. split; [done|]. by apply run_line_plan.
  - split; [done|]. by apply run_line_bad.
Qed.

Lemma main_loop_session t n ls fuel :
  std t → Forall line_ok ls → (length ls < fuel)%nat →
  ∃ es n', launch t n (concat (map (λ l, l ++ [10]) ls)) (main_loop fuel) = (es, n', []) ∧ session t n ls es.
Proof.
  intros Ht Hls. revert n fuel. induction Hls as [|l ls Hl _ IH]; intros n fuel Hf; (destruct fuel as [|fuel]; [lia|]); cbn [main_loop].
  - rewrite getcmd_eof. exists [Printed "$ " []], n. split; [done|constructor].
  - cbn [map concat]. rewrite <- app_assoc. cbn [app]. rewrite getcmd_run by done. change (0 <=? 0) with true. cbv iota.
    destruct (cd_test l Hl) as (c0 & c1 & c2 & b & Eb & Hcd). rewrite Eb.
    destruct ((c0 =? CH_c) && (c1 =? CH_d) && (c2 =? CH_SPACE)); rewrite <- Eb.
    + destruct (proj1 Hcd eq_refl) as [path ->]. destruct (cd_path path Hl) as [-> Hp]. rewrite Hp.
      destruct (IH n fuel ltac:(simpl in Hf; lia)) as (es & n' & E & Hs).
      cbn [launch]. destruct (can_cd path) eqn:Ec; simpl; rewrite E; (eexists _, _; split; [reflexivity|]); [by apply ses_cd|by apply ses_no_cd].
    + assert (Hn : ∀ path, l ≠ str "cd " ++ path).
      { intros path E. by assert (false = true) by (apply Hcd; eauto). }
      unfold fork1. cbn [launch Z.eqb].
      destruct (child_line l t n (concat (map (λ l, l ++ [10]) ls)) Hl Ht) as [(tr & Htr & ->)|(Hnt & e & He & ->)].
      * destruct (plan tr t n) as [e n1] eqn:Ep. destruct (IH n1 fuel ltac:(simpl in Hf; lia)) as (es & n' & E & Hs).
        rewrite E. eexists _, _. split; [reflexivity|]. by eapply ses_run.
      * destruct (IH n fuel ltac:(simpl in Hf; lia)) as (es & n' & E & Hs).
        rewrite E. eexists _, _. split; [reflexivity|]. by apply ses_syntax.
Qed.



End system.

(** ** A sample session *)

Definition console_table : fdtable := <[0 := Console]> (<[1 := Console]> (<[2 := Console]> ∅)).

Lemma console_table_std : std console_table.
Proof.
  intros fd. unfold console_table.
  destruct (decide (fd = 0)) as [->|]; [by rewrite lookup_insert_eq; split; [lia|eauto]|].
  destruct (decide (fd = 1)) as [->|]; [by rewrite lookup_insert_ne, lookup_insert_eq by done; split; [lia|eauto]|].
  destruct (decide (fd = 2)) as [->|]; [by rewrite !lookup_insert_ne, lookup_insert_eq by done; split; [lia|eauto]|].
  rewrite !lookup_insert_ne, lookup_empty by done. split; [by intros []|lia].
Qed.

Definition all_files (_ : list Z) (_ : Z) : bool := true.
Definition all_programs (_ : list Z) : bool := true.


Definition sample_session : list (list Z) := [sample_line; str "cd /bin"; str "ls )"; []].

