(* ===== verification/Umalloc.v ===== *)
(** * The memory allocator of user programs

    Models [umalloc.c] (the allocator of Kernighan and Ritchie): the circular list
    of free blocks kept in address order, [free] with its merging of neighbours,
    [morecore] and [malloc].  Pointers are byte addresses, a header is 8 bytes.
    [sbrk] is a system call: the kernel grants or refuses the memory. *)

From S2P Require Import Prelude.

(** ** State *)

Record header := Hdr { h_ptr : Z; h_size : Z }.

(** The headers in memory (fresh memory holds zeros), [freep] and the end of the
    process's memory. *)
Record uheap := Uheap { u_hdrs : gmap Z header; u_freep : Z; u_brk : Z }.
Definition set_u_hdrs (v : gmap Z header) (s : uheap) : uheap := Uheap v (u_freep s) (u_brk s).
Definition set_u_freep (v : Z) (s : uheap) : uheap := Uheap (u_hdrs s) v (u_brk s).
Definition set_u_brk (v : Z) (s : uheap) : uheap := Uheap (u_hdrs s) (u_freep s) v.

Notation M := (K uheap).

(** [sizeof(Header)] *)
Definition HDR : Z := 8.

Definition hdr (st : uheap) (p : Z) : header := default (Hdr 0 0) (u_hdrs st !! p).

(** [p->s.ptr], [p->s.size] and the assignments to them. *)
Definition ptr (p : Z) : M Z := if p =? 0 then kundef "p->s.ptr" else kgets (λ st, h_ptr (hdr st p)).
Definition size (p : Z) : M Z := if p =? 0 then kundef "p->s.size" else kgets (λ st, h_size (hdr st p)).
Definition set_ptr (p v : Z) : M unit :=
  kmodify (λ st, set_u_hdrs (<[p := Hdr v (h_size (hdr st p))]> (u_hdrs st)) st).
Definition set_size (p v : Z) : M unit :=
  kmodify (λ st, set_u_hdrs (<[p := Hdr (h_ptr (hdr st p)) v]> (u_hdrs st)) st).

(** [p + n] on pointers to headers. *)
Definition plus (p n : Z) : Z := u32 (p + HDR * n).

Section umalloc.
(** The address of [base], and what the kernel makes of a request to change the
    memory of a process that ends at [brk] by [n] bytes: its new end, or nothing. *)
Context (base : Z) (grow : Z → Z → option Z).

(** The system call. *)
Definition sbrk (n : Z) : M Z :=
  brk ← kgets u_brk;
  match grow brk (s32 n) with
  | Some brk' => kmodify (set_u_brk brk');; mret brk
  | None => mret (u32 (-1))
  end.

(** The loop of [free] that looks for the place of [bp]. *)
Fixpoint free_loop (fuel : nat) (bp p : Z) : M Z :=
  match fuel with
  | O => knofuel
  | S fuel' =>
      n ← ptr p;
      if (p <? bp) && (bp <? n) then mret p
      else if (n <=? p) && ((p <? bp) || (bp <? n)) then mret p
      else free_loop fuel' bp n
  end.

(** [free] joins the block to the one above it, then to the one below it. *)
Definition free_upper (bp p : Z) : M unit :=
  sz ← size bp;
  n ← ptr p;
  if plus bp sz =? n then
    nsz ← size n;
    set_size bp (u32 (sz + nsz));;
    nn ← ptr n;
    set_ptr bp nn
  else set_ptr bp n.

Definition free_lower (bp p : Z) : M unit :=
  psz ← size p;
  if plus p psz =? bp then
    sz ← size bp;
    set_size p (u32 (psz + sz));;
    n ← ptr bp;
    set_ptr p n
  else set_ptr p bp.

Definition free (fuel : nat) (ap : Z) : M unit :=
  let bp := u32 (ap - HDR) in
  p ← kgets u_freep;
  p ← free_loop fuel bp p;
  free_upper bp p;;
  free_lower bp p;;
  kmodify (set_u_freep p).

Definition morecore (fuel : nat) (nu : Z) : M Z :=
  let nu := if nu <? 4096 then 4096 else nu in
  p ← sbrk (u32 (nu * HDR));
  if p =? u32 (-1) then mret 0
  else
    set_size p nu;;
    free fuel (plus p 1);;
    kgets u_freep.

(** The loop of [malloc]; [ffuel] is the fuel of the loop of [free]. *)
Fixpoint malloc_loop (fuel ffuel : nat) (nunits prevp p : Z) : M Z :=
  match fuel with
  | O => knofuel
  | S fuel' =>
      sz ← size p;
      if nunits <=? sz then
        p ← (if sz =? nunits then
               n ← ptr p;
               set_ptr prevp n;;
               mret p
             else
               set_size p (u32 (sz - nunits));;
               let q := plus p (u32 (sz - nunits)) in
               set_size q nunits;;
               mret q);
        kmodify (set_u_freep prevp);;
        mret (plus p 1)
      else
        freep ← kgets u_freep;
        if p =? freep then
          p ← morecore ffuel nunits;
          if p =? 0 then mret 0
          else n ← ptr p; malloc_loop fuel' ffuel nunits p n
        else n ← ptr p; malloc_loop fuel' ffuel nunits p n
  end.

Definition malloc (fuel ffuel : nat) (nbytes : Z) : M Z :=
  let nunits := u32 (u32 (nbytes + HDR - 1) / HDR + 1) in
  prevp ← kgets u_freep;
  prevp ← (if prevp =? 0 then
             set_ptr base base;;
             kmodify (set_u_freep base);;
             set_size base 0;;
             mret base
           else mret prevp);
  p ← ptr prevp;
  malloc_loop fuel ffuel nunits prevp p.

(** ** The free list *)

(** The headers from [a] (of size [sz]) through the blocks [l] to [nx]. *)
Fixpoint seg (H : Z → header) (a sz : Z) (l : list (Z * Z)) (nx : Z) : Prop :=
  match l with
  | [] => H a = Hdr nx sz
  | (b, n) :: l' => H a = Hdr b sz ∧ seg H b n l' nx
  end.

(** Blocks in address order between [lo] and [hi] with gaps in between: neighbours
    have been merged. *)
Fixpoint blocks (lo : Z) (l : list (Z * Z)) (hi : Z) : Prop :=
  match l with
  | [] => lo <= hi
  | (a, n) :: l' => lo < a ∧ 0 < n ∧ blocks (a + HDR * n) l' hi
  end.

(** Two blocks that do not overlap. *)
Definition apart (a n b m : Z) : Prop := a + HDR * n <= b ∨ b + HDR * m <= a.

(** The heap: [fl] are the free blocks, [A] the allocated ones with their sizes. *)
Record heap_ok (st : uheap) (fl : list (Z * Z)) (A : gmap Z Z) : Prop := {
  ho_base : 0 < base;
  ho_brk : base + HDR <= u_brk st <= 2 ^ 31;
  ho_chain : seg (hdr st) base 0 fl base;
  ho_blocks : blocks (base + HDR - 1) fl (u_brk st);
  ho_freep : u_freep st ∈ base :: fl.*1;
  ho_alloc a n : A !! a = Some n → 0 < n ∧ base + HDR <= a ∧ a + HDR * n <= u_brk st ∧ h_size (hdr st a) = n;
  ho_apart a n b m : A !! a = Some n → (b, m) ∈ fl → apart a n b m;
  ho_disjoint a n b m : A !! a = Some n → A !! b = Some m → a ≠ b → apart a n b m
}.

Lemma chain_app H a sz l1 p n l2 nx : seg H a sz (l1 ++ (p, n) :: l2) nx ↔ seg H a sz l1 p ∧ seg H p n l2 nx.
Proof. revert a sz. induction l1 as [|[b m] l1 IH]; intros a sz; simpl; [done|]. rewrite IH. tauto. Qed.

Lemma seg_frame H H' a sz l nx : (∀ x, x ∈ a :: l.*1 → H' x = H x) → seg H a sz l nx → seg H' a sz l nx.
Proof.
  revert a sz. induction l as [|[b m] l IH]; intros a sz HH; simpl; [rewrite HH by set_solver; done|].
  intros [E Hs]. rewrite HH by set_solver. split; [done|]. apply IH; [|done]. set_solver.
Qed.

(** A new first header for the same blocks. *)
Lemma seg_head H H' a sz b sz' l nx :
  H' b = Hdr (h_ptr (H a)) sz' → (∀ x, x ∈ l.*1 → H' x = H x) → seg H a sz l nx → seg H' b sz' l nx.
Proof.
  destruct l as [|[c m] l]; simpl; intros Hb HH; [by intros E; rewrite Hb, E|].
  intros [E Hs]. rewrite Hb, E. split; [done|]. eapply seg_frame, Hs. set_solver.
Qed.

Definition lastn (b : Z * Z) (l : list (Z * Z)) : Z * Z := foldl (λ _ x, x) b l.

Lemma lastn_snoc b l x : lastn b (l ++ [x]) = x.
Proof. unfold lastn. by rewrite foldl_app. Qed.

Lemma lastn_in b l : lastn b l ∈ b :: l.
Proof. revert b. induction l as [|x l IH]; intros b; simpl; [set_solver|]. specialize (IH x). set_solver. Qed.

Lemma chain_last H a sz l nx : seg H a sz l nx → H (lastn (a, sz) l).1 = Hdr nx (lastn (a, sz) l).2.
Proof. revert a sz. induction l as [|[b m] l IH]; intros a sz; simpl; [done|]. intros [_ Hs]. by apply IH. Qed.

(** The last header points elsewhere. *)
Lemma seg_retarget H H' a sz l nx nx' :
  NoDup (a :: l.*1) → (∀ x, x ∈ a :: l.*1 → x ≠ (lastn (a, sz) l).1 → H' x = H x) →
  H' (lastn (a, sz) l).1 = Hdr nx' (lastn (a, sz) l).2 → seg H a sz l nx → seg H' a sz l nx'.
Proof.
  revert a sz. induction l as [|[b m] l IH]; intros a sz Hd HH HL; simpl; [done|]. simpl in *. intros [E Hs].
  apply list.NoDup_cons in Hd as [Ha Hd]. split.
  - rewrite HH; [done|set_solver|]. intros ->. apply Ha.
    pose proof (list_elem_of_fmap_2 fst _ _ (lastn_in (b, m) l)) as Hin. done.
  - apply IH; [done| |done|done]. intros x Hx. apply HH. set_solver.
Qed.

Lemma blocks_weaken lo lo' l hi : lo' <= lo → blocks lo l hi → blocks lo' l hi.
Proof. destruct l as [|[a n] l]; simpl; [lia|]. intros ? (? & ? & ?). split_and!; try done. lia. Qed.

Lemma blocks_raise lo l hi hi' : hi <= hi' → blocks lo l hi → blocks lo l hi'.
Proof. intros Hh. revert lo. induction l as [|[a n] l IH]; intros lo; simpl; [lia|]. naive_solver. Qed.

Lemma blocks_le lo l hi : blocks lo l hi → lo <= hi.
Proof.
  revert lo. induction l as [|[a n] l IH]; intros lo; simpl; [done|]. intros (? & ? & H%IH). unfold HDR in *. lia.
Qed.

Lemma blocks_in lo l hi a n : blocks lo l hi → (a, n) ∈ l → lo < a ∧ 0 < n ∧ a + HDR * n <= hi.
Proof.
  revert lo. induction l as [|[b m] l IH]; intros lo; simpl; [set_solver|]. intros (? & ? & Hb) [[= -> ->]|Hin]%elem_of_cons.
  - split_and!; try done. by eapply blocks_le.
  - destruct (IH _ Hb Hin) as (? & ? & ?). unfold HDR in *. split_and!; lia.
Qed.

Lemma blocks_app lo l1 l2 hi : blocks lo (l1 ++ l2) hi ↔ ∃ mid, blocks lo l1 mid ∧ blocks mid l2 hi.
Proof.
  revert lo. induction l1 as [|[a n] l1 IH]; intros lo; simpl.
  - split; [intros H; by exists lo|]. intros (mid & ? & H). by eapply blocks_weaken.
  - rewrite IH. naive_solver.
Qed.

Lemma blocks_nodup lo l hi : blocks lo l hi → NoDup l.*1.
Proof.
  revert lo. induction l as [|[a n] l IH]; intros lo; simpl; [constructor|]. intros (? & ? & Hb). constructor; [|by eapply IH].
  intros ([b m] & -> & Hin)%list_elem_of_fmap. destruct (blocks_in _ _ _ _ _ Hb Hin). simpl in *. unfold HDR in *. lia.
Qed.

(** The place of a block that does not overlap the others. *)
Lemma blocks_split lo l hi a n :
  blocks lo l hi → lo <= a → 0 < n → a + HDR * n <= hi → (∀ b m, (b, m) ∈ l → apart a n b m) →
  ∃ l1 l2, l = l1 ++ l2 ∧ blocks lo l1 a ∧ blocks (a + HDR * n - 1) l2 hi.
Proof.
  unfold apart, HDR. revert lo. induction l as [|[b m] l IH]; intros lo Hb Ha Hn Hh Hap.
  - exists [], []. simpl. split_and!; [done|lia..].
  - destruct Hb as (Hlo & Hm & Hb). unfold HDR in *. destruct (Hap b m) as [Hle|Hge]; [set_solver|..].
    + exists [], ((b, m) :: l). simpl. split_and!; try done; unfold HDR; lia.
    + destruct (IH (b + 8 * m)) as (l1 & l2 & -> & H1 & H2); [done|lia|done|done|set_solver|].
      exists ((b, m) :: l1), l2. split_and!; done.
Qed.

(** The address that follows the blocks before [l]. *)
Definition next_of (l : list (Z * Z)) : Z := match l with [] => base | (b, _) :: _ => b end.

Lemma seg_cut H a sz l1 l2 : seg H a sz (l1 ++ l2) base → seg H a sz l1 (next_of l2).
Proof. destruct l2 as [|[b n] l2]; simpl; [by rewrite app_nil_r|]. rewrite chain_app. tauto. Qed.

Lemma ptr_run st p : p ≠ 0 → ptr p st = Ok (h_ptr (hdr st p)) st.
Proof. intros H. unfold ptr. by rewrite (proj2 (Z.eqb_neq _ _)). Qed.

Lemma size_run st p : p ≠ 0 → size p st = Ok (h_size (hdr st p)) st.
Proof. intros H. unfold size. by rewrite (proj2 (Z.eqb_neq _ _)). Qed.

(** From a node below [bp] the loop stops at the last one below it. *)
Lemma free_loop_low st bp p sz l nx lo fuel :
  seg (hdr st) p sz l nx → 0 < p → p < bp → blocks lo l bp → p <= lo → bp < nx ∨ nx <= p → (length l < fuel)%nat →
  free_loop fuel bp p st = Ok (lastn (p, sz) l).1 st.
Proof.
  revert p sz lo fuel. induction l as [|[b m] l IH]; intros p sz lo fuel Hs H0 Hp Hb Hlo Hnx Hf;
    (destruct fuel as [|fuel]; [simpl in Hf; lia|]); cbn [free_loop]; rewrite (bind_ok _ _ _ _ _ (ptr_run st p ltac:(lia))).
  - simpl in Hs. rewrite Hs. cbn [h_ptr]. rewrite (proj2 (Z.ltb_lt p bp)) by done.
    destruct Hnx as [Hnx|Hnx]; [by rewrite (proj2 (Z.ltb_lt bp nx))|].
    destruct (bp <? nx); [done|]. by rewrite (proj2 (Z.leb_le nx p)).
  - destruct Hs as [E Hs]. rewrite E. cbn [h_ptr]. destruct Hb as (Hlt & Hm & Hb).
    pose proof (blocks_le _ _ _ Hb) as Hle. unfold HDR in *.
    rewrite (proj2 (Z.ltb_ge bp b)), (proj2 (Z.leb_gt b p)), andb_false_r by lia. cbn [andb].
    eapply IH; [done|lia|lia|done|unfold HDR; lia|lia|simpl in Hf; lia].
Qed.

(** From a node above [bp] it goes on to [base]. *)
Lemma free_loop_high st bp p sz l lo hi fuel :
  seg (hdr st) p sz l base → 0 < p → bp < p → 0 < base → base < bp → blocks lo l hi → p <= lo →
  free_loop (S (length l) + fuel) bp p st = free_loop fuel bp base st.
Proof.
  revert p sz lo. induction l as [|[b m] l IH]; intros p sz lo Hs H0 Hp Hb0 Hb1 Hb Hlo;
    cbn [free_loop Nat.add length]; rewrite (bind_ok _ _ _ _ _ (ptr_run st p ltac:(lia))).
  - simpl in Hs. rewrite Hs. cbn [h_ptr].
    rewrite (proj2 (Z.ltb_ge p bp)), (proj2 (Z.ltb_ge bp base)) by lia. cbn [andb orb]. by rewrite andb_false_r.
  - destruct Hs as [E Hs]. rewrite E. cbn [h_ptr]. destruct Hb as (Hlt & Hm & Hb).
    rewrite (proj2 (Z.ltb_ge p bp)), (proj2 (Z.leb_gt b p)) by lia. cbn [andb].
    eapply (IH b m (b + HDR * m)); try done; unfold HDR; lia.
Qed.

Lemma free_loop_run st fl A bp l1 l2 hi hi' fuel :
  heap_ok st fl A → fl = l1 ++ l2 → base + HDR - 1 <= bp → blocks (base + HDR - 1) l1 bp → blocks hi l2 hi' → bp <= hi →
  (length fl + 2 <= fuel)%nat →
  free_loop fuel bp (u_freep st) st = Ok (lastn (base, 0) l1).1 st.
Proof.
  intros [H0 _ Hc Hbl Hf _ _ _] -> Hbp H1 H2 Hhi Hfuel. rewrite length_app in Hfuel.
  assert (Hnx : bp < next_of l2 ∨ next_of l2 <= base).
  { destruct l2 as [|[b m] l2]; simpl; [lia|]. destruct H2. left. lia. }
  assert (Hbase : ∀ k, (length l1 < k)%nat → free_loop k bp base st = Ok (lastn (base, 0) l1).1 st).
  { intros k Hk. eapply free_loop_low; [by apply seg_cut|done|unfold HDR in *; lia|done|unfold HDR; lia|done|done]. }
  apply elem_of_cons in Hf as [->|Hf]; [apply Hbase; lia|].
  apply list_elem_of_fmap in Hf as ([f m] & -> & Hin). simpl. apply elem_of_app in Hin as [Hin|Hin].
  - apply list_elem_of_split in Hin as (la & lb & ->). rewrite <- app_assoc in Hc. simpl in Hc.
    apply chain_app in Hc as [_ Hc]. apply blocks_app in H1 as (mid & Ha & Hlt & Hm & Hb).
    pose proof (blocks_le _ _ _ Ha). pose proof (blocks_le _ _ _ Hb). unfold HDR in *.
    rewrite !length_app in Hfuel. simpl in Hfuel.
    erewrite free_loop_low; [|by apply seg_cut|lia|lia|done|unfold HDR; lia|lia|lia].
    unfold lastn. by rewrite foldl_app.
  - apply list_elem_of_split in Hin as (la & lb & ->). rewrite app_assoc in Hc.
    apply chain_app in Hc as [_ Hc]. apply blocks_app in H2 as (mid & Ha & Hlt & Hm & Hb).
    pose proof (blocks_le _ _ _ Ha). unfold HDR in *. rewrite !length_app in Hfuel. simpl in Hfuel.
    replace fuel with (S (length lb) + (fuel - S (length lb)))%nat by lia.
    erewrite free_loop_high; [apply Hbase; lia|done|lia|lia|done|lia|done|unfold HDR; lia].
Qed.

(** ** [free] *)

Definition upd (st : uheap) (p : Z) (h : header) : uheap := set_u_hdrs (<[p := h]> (u_hdrs st)) st.

Lemma hdr_upd st p h q : hdr (upd st p h) q = if decide (q = p) then h else hdr st q.
Proof.
  unfold hdr, upd. simpl. destruct (decide (q = p)) as [->|]; [by rewrite lookup_insert_eq|by rewrite lookup_insert_ne].
Qed.

Lemma hdr_upd_eq st p h : hdr (upd st p h) p = h.
Proof. rewrite hdr_upd. by rewrite decide_True. Qed.

Lemma hdr_upd_ne st p h q : q ≠ p → hdr (upd st p h) q = hdr st q.
Proof. intros. rewrite hdr_upd. by rewrite decide_False. Qed.

Lemma upd_upd st p h h' : upd (upd st p h) p h' = upd st p h'.
Proof. unfold upd, set_u_hdrs. simpl. by rewrite insert_insert_eq. Qed.

Lemma chain_first H a sz l nx : seg H a sz l nx → h_size (H a) = sz.
Proof. destruct l as [|[b m] l]; simpl; [by intros ->|by intros [-> _]]. Qed.

Lemma set_ptr_run st p v : set_ptr p v st = Ok tt (upd st p (Hdr v (h_size (hdr st p)))).
Proof. done. Qed.

Lemma set_size_run st p v : set_size p v st = Ok tt (upd st p (Hdr (h_ptr (hdr st p)) v)).
Proof. done. Qed.

(** The header of [a] is the only one that differs. *)
Definition changes (st st' : uheap) (a : Z) (h : header) : Prop :=
  u_freep st' = u_freep st ∧ u_brk st' = u_brk st ∧ hdr st' a = h ∧ ∀ x, x ≠ a → hdr st' x = hdr st x.

Lemma changes_upd st a h : changes st (upd st a h) a h.
Proof. split_and!; [done..|apply hdr_upd_eq|intros; by apply hdr_upd_ne]. Qed.

Lemma changes_upd2 st a h h' : changes st (upd (upd st a h) a h') a h'.
Proof. split_and!; [done..|apply hdr_upd_eq|intros; by rewrite !hdr_upd_ne]. Qed.

(** The units of a list of blocks. *)
Definition total (l : list (Z * Z)) : Z := foldr (λ b s, b.2 + s) 0 l.

Lemma total_app l1 l2 : total (l1 ++ l2) = total l1 + total l2.
Proof. induction l1 as [|b l1 IH]; simpl; [done|]. rewrite IH. lia. Qed.

(** From [st] to [st'] the free blocks lose [n] units, apart from new memory. *)
Definition spends (st st' : uheap) (fl fl' : list (Z * Z)) (n : Z) : Prop :=
  u_brk st' - HDR * (total fl' + n) = u_brk st - HDR * total fl.

(** [c] does not overlap any of the blocks. *)
Definition clear (c k : Z) (l : list (Z * Z)) : Prop := ∀ b m, (b, m) ∈ l → apart c k b m.

Lemma clear_app c k l1 l2 : clear c k (l1 ++ l2) ↔ clear c k l1 ∧ clear c k l2.
Proof. unfold clear. setoid_rewrite elem_of_app. naive_solver. Qed.

Lemma clear_cons c k a n l : clear c k ((a, n) :: l) ↔ apart c k a n ∧ clear c k l.
Proof. unfold clear. setoid_rewrite elem_of_cons. naive_solver. Qed.

(** Two neighbours are one block. *)
Lemma apart_join c k a n m : 0 < k → apart c k a n → apart c k (a + HDR * n) m → apart c k a (n + m).
Proof. unfold apart, HDR. lia. Qed.

Lemma free_upper_run st a n p psz l2 :
  0 < base → base < a → 0 < n → u_brk st <= 2 ^ 31 → 0 < p → p ≠ a → h_size (hdr st a) = n →
  hdr st p = Hdr (next_of l2) psz → (∀ b m l, l2 = (b, m) :: l → seg (hdr st) b m l base) →
  blocks (a + HDR * n - 1) l2 (u_brk st) → a + HDR * n <= u_brk st →
  ∃ st1 sz2 l2', free_upper a p st = Ok tt st1 ∧ changes st st1 a (Hdr (next_of l2') sz2) ∧
    seg (hdr st1) a sz2 l2' base ∧ blocks (a + HDR * sz2) l2' (u_brk st) ∧
    sz2 + total l2' = n + total l2 ∧ n <= sz2 ∧ (length l2' <= length l2)%nat ∧
    (∀ c k, 0 < k → clear c k ((a, n) :: l2) → clear c k ((a, sz2) :: l2')).
Proof.
  intros H0 Ha Hn Hbrk Hp0 Hpa Hsz Hp Hs Hb Hle. unfold free_upper.
  rewrite (bind_ok _ _ _ _ _ (size_run st a ltac:(lia))), (bind_ok _ _ _ _ _ (ptr_run st p ltac:(lia))).
  rewrite Hsz, Hp. cbn [h_ptr]. unfold plus. unfold HDR in Hle. rewrite u32_small by (unfold HDR; lia).
  destruct (Z.eqb_spec (a + HDR * n) (next_of l2)) as [E|E].
  - destruct l2 as [|[b m] l2]; simpl in E; [unfold HDR in E; lia|]. subst b. destruct Hb as (_ & Hm & Hb).
    pose proof (blocks_le _ _ _ Hb) as Hle2. specialize (Hs _ _ _ eq_refl).
    set (b := a + HDR * n) in *. assert (Hba : b ≠ a) by (unfold b, HDR; lia). assert (Hb0 : b ≠ 0) by (unfold b, HDR; lia).
    assert (Hbm : hdr st b = Hdr (next_of l2) m) by (destruct l2 as [|[]]; [exact Hs|apply Hs]).
    simpl next_of. rewrite (bind_ok _ _ _ _ _ (size_run st b Hb0)), (bind_ok _ _ _ _ _ (set_size_run _ _ _)).
    rewrite (bind_ok _ _ _ _ _ (ptr_run _ b Hb0)), hdr_upd_ne by done. rewrite Hbm. cbn [h_ptr h_size].
    rewrite set_ptr_run, hdr_upd_eq. cbn [h_size]. rewrite u32_small by (unfold HDR in *; lia).
    eexists _, (n + m), l2. split; [reflexivity|]. split; [apply changes_upd2|].
    assert (Hnin : a ∉ l2.*1).
    { intros ([c k] & Hc & Hin)%list_elem_of_fmap. destruct (blocks_in _ _ _ _ _ Hb Hin). simpl in Hc. unfold b, HDR in *. lia. }
    split_and!.
    + eapply (seg_head (hdr st) _ b); [rewrite hdr_upd_eq, Hbm; done| |done]. intros x Hx. rewrite !hdr_upd_ne; [done|set_solver..].
    + replace (a + HDR * (n + m)) with (b + HDR * m) by (unfold b, HDR; lia). done.
    + simpl. lia.
    + lia.
    + simpl. lia.
    + intros c k Hk. rewrite !clear_cons. intros (H1 & H2 & H3). split; [by apply apart_join|done].
  - rewrite set_ptr_run, Hsz. eexists _, n, l2. split; [reflexivity|]. split; [apply changes_upd|]. split_and!; try done; try lia.
    + destruct l2 as [|[b m] l2]; simpl; [apply hdr_upd_eq|]. split; [apply hdr_upd_eq|].
      eapply seg_frame; [|by apply Hs]. intros x Hx. apply hdr_upd_ne.
      destruct Hb as (Hlt & Hm & Hb). apply elem_of_cons in Hx as [->|([c k] & -> & Hin)%list_elem_of_fmap]; [unfold HDR in *; lia|].
      destruct (blocks_in _ _ _ _ _ Hb Hin). simpl. unfold HDR in *. lia.
    + destruct l2 as [|[b m] l2]; simpl in *; [done|]. destruct Hb as (Hlt & Hm & Hb). split_and!; try done. lia.
Qed.

(** The blocks before and after [a] around it. *)
Lemma blocks_insert lo l1 p psz b0 a n l2 hi :
  lastn (b0, 0) l1 = (p, psz) → p + HDR * psz ≠ a → lo < a → 0 < n →
  blocks lo l1 a → blocks (a + HDR * n) l2 hi → blocks lo (l1 ++ (a, n) :: l2) hi.
Proof.
  intros Hl Hne Hlo Hn H1 H2. apply blocks_app. destruct l1 as [|[c k] l1 _] using rev_ind; [exists lo; cbn [blocks app]; split_and!; done || lia|].
  rewrite lastn_snoc in Hl. simplify_eq. exists (p + HDR * psz). apply blocks_app in H1 as (mid & Ha & Hb).
  destruct Hb as (Hb1 & Hb2 & Hb3). cbn [blocks] in Hb3. split; [|cbn [blocks]; split_and!; done || lia].
  apply blocks_app. exists mid. split; [done|]. split_and!; [done..|cbn [blocks]; lia].
Qed.

(** The last node below [a]. *)
Lemma last_facts l1 a p psz :
  0 < base → base + HDR <= a → blocks (base + HDR - 1) l1 a → lastn (base, 0) l1 = (p, psz) →
  (p, psz) ∈ (base, 0) :: l1 ∧ 0 < p ∧ base <= p ∧ p + HDR * psz <= a ∧ 0 <= psz ∧ p < a.
Proof.
  intros H0 Ha Hb1 Hl. assert (Hin : (p, psz) ∈ (base, 0) :: l1) by (rewrite <- Hl; apply lastn_in). split; [done|].
  apply elem_of_cons in Hin as [[= -> ->]|Hin]; [unfold HDR in *; lia|].
  destruct (blocks_in _ _ _ _ _ Hb1 Hin) as (? & ? & ?). unfold HDR in *. lia.
Qed.

Lemma free_lower_run st a n p psz l1 l2 nx :
  0 < base → base + HDR <= a → 0 < n → u_brk st <= 2 ^ 31 →
  lastn (base, 0) l1 = (p, psz) → seg (hdr st) base 0 l1 nx → seg (hdr st) a n l2 base →
  blocks (base + HDR - 1) l1 a → blocks (a + HDR * n) l2 (u_brk st) →
  ∃ h fl, free_lower a p st = Ok tt (upd st p h) ∧ seg (hdr (upd st p h)) base 0 fl base ∧
    blocks (base + HDR - 1) fl (u_brk st) ∧ p ∈ base :: fl.*1 ∧ total fl = total l1 + n + total l2 ∧
    (∃ b m, (b, m) ∈ fl ∧ n <= m) ∧ (length fl <= length l1 + S (length l2))%nat ∧
    (∀ c k, 0 < k → clear c k (l1 ++ (a, n) :: l2) → clear c k fl).
Proof.
  intros H0 Ha Hn Hbrk Hl Hs1 Hs2 Hb1 Hb2.
  pose proof (blocks_le _ _ _ Hb2) as Hle2.
  pose proof (chain_last _ _ _ _ _ Hs1) as Hp. rewrite Hl in Hp. simpl in Hp.
  destruct (last_facts _ _ _ _ H0 Ha Hb1 Hl) as [Hin Hpa].
  assert (Hl2 : ∀ x, x ∈ a :: l2.*1 → x ≠ p).
  { intros x [->|([c k] & -> & Hc)%list_elem_of_fmap]%elem_of_cons; [lia|].
    destruct (blocks_in _ _ _ _ _ Hb2 Hc). simpl. unfold HDR in *. lia. }
  unfold free_lower. rewrite (bind_ok _ _ _ _ _ (size_run st p ltac:(lia))), Hp. cbn [h_size]. unfold plus.
  rewrite u32_small by (unfold HDR in *; lia). destruct (Z.eqb_spec (p + HDR * psz) a) as [E|E].
  - destruct l1 as [|[c k] l1 _] using rev_ind; [simpl in Hl; simplify_eq; unfold HDR in *; lia|].
    rewrite lastn_snoc in Hl. injection Hl as -> ->. apply chain_app in Hs1 as [Hs1 _]. apply blocks_app in Hb1 as (mid & Hb1 & Hm & Hk & _).
    pose proof (blocks_le _ _ _ Hb1) as Hmid.
    rewrite (bind_ok _ _ _ _ _ (size_run st a ltac:(lia))), (chain_first _ _ _ _ _ Hs2).
    rewrite (bind_ok _ _ _ _ _ (set_size_run _ _ _)), (bind_ok _ _ _ _ _ (ptr_run _ a ltac:(lia))).
    rewrite set_ptr_run, hdr_upd_eq, upd_upd, hdr_upd_ne by lia. cbn [h_size].
    rewrite u32_small by (unfold HDR in *; lia). eexists _, (l1 ++ (p, psz + n) :: l2). split_and!; [reflexivity|..].
    + apply chain_app. split.
      * eapply seg_frame, Hs1. intros x [->|([c k] & -> & Hc)%list_elem_of_fmap]%elem_of_cons; apply hdr_upd_ne; [unfold HDR in *; lia|].
        destruct (blocks_in _ _ _ _ _ Hb1 Hc). simpl in *. unfold HDR in *. lia.
      * eapply seg_head, Hs2; [apply hdr_upd_eq|]. intros x Hx. apply hdr_upd_ne, Hl2. set_solver.
    + apply blocks_app. exists mid. split; [done|]. split_and!; [done|lia|]. by replace (p + HDR * (psz + n)) with (a + HDR * n) by lia.
    + rewrite fmap_app. set_solver.
    + rewrite !total_app. simpl. lia.
    + exists p, (psz + n). split; [set_solver|lia].
    + rewrite !length_app. simpl. lia.
    + intros c k' Hk'. rewrite !clear_app, !clear_cons. intros ((H1 & H2 & _) & H3 & H4). split_and!; try done. apply apart_join; [done..|]. by rewrite E.
  - rewrite set_ptr_run, Hp. cbn [h_size]. eexists _, (l1 ++ (a, n) :: l2). split_and!; [reflexivity|..].
    + apply chain_app. split; [|eapply seg_frame, Hs2; intros x Hx; apply hdr_upd_ne; by apply Hl2].
      eapply seg_retarget, Hs1; rewrite ?Hl; simpl.
      * constructor; [|by eapply blocks_nodup]. intros ([c k] & -> & Hc)%list_elem_of_fmap.
        destruct (blocks_in _ _ _ _ _ Hb1 Hc). simpl in *. unfold HDR in *. lia.
      * intros x _ Hx. by apply hdr_upd_ne.
      * apply hdr_upd_eq.
    + eapply blocks_insert; [done..|unfold HDR in *; lia|done|done|done].
    + apply (list_elem_of_fmap_2 fst) in Hin. simpl in Hin. rewrite fmap_app. set_solver.
    + rewrite total_app. simpl. lia.
    + exists a, n. split; [set_solver|lia].
    + rewrite length_app. simpl. lia.
    + done.
Qed.

Lemma free_run st fl A a n fuel :
  heap_ok st fl A → A !! a = Some n → (length fl + 2 <= fuel)%nat →
  ∃ st' fl', free fuel (a + HDR) st = Ok tt st' ∧ heap_ok st' fl' (delete a A) ∧ u_brk st' = u_brk st ∧
    total fl' = total fl + n ∧ (∃ b m, (b, m) ∈ fl' ∧ n <= m) ∧ (length fl' <= S (length fl))%nat.
Proof.
  intros Hok Ha Hf. pose proof Hok as [H0 Hbrk Hc Hb Hfp Hal Hap Hdi].
  destruct (Hal _ _ Ha) as (Hn & Hba & Hend & Hsz).
  destruct (blocks_split _ _ _ a n Hb ltac:(unfold HDR in *; lia) Hn Hend) as (l1 & l2 & -> & Hb1 & Hb2).
  { intros b m Hin. by eapply Hap. }
  unfold free. replace (u32 (a + HDR - HDR)) with a by (rewrite u32_small; unfold HDR in *; lia).
  rewrite bind_kgets.
  rewrite (bind_ok _ _ _ _ _ (free_loop_run st _ A a l1 l2 _ _ fuel Hok eq_refl ltac:(unfold HDR in *; lia) Hb1 Hb2 ltac:(unfold HDR in *; lia) Hf)).
  destruct (lastn (base, 0) l1) as [p psz] eqn:El. cbn [fst].
  destruct (last_facts _ _ _ _ H0 Hba Hb1 El) as (Hin & Hp0 & _ & _ & _ & Hpa).
  pose proof (chain_last _ _ _ _ _ (seg_cut _ _ _ _ _ Hc)) as Hp. rewrite El in Hp. simpl in Hp.
  destruct (free_upper_run st a n p psz l2) as (st1 & n2 & l2' & R1 & (Hf1 & Hk1 & Hh1 & Hx1) & Hs1 & Hbl1 & Ht1 & Hn1 & Hln1 & Hcl1); try done; try (unfold HDR in *; lia).
  { intros b m l ->. by apply chain_app in Hc as [_ ?]. }
  rewrite (bind_ok _ _ _ _ _ R1).
  assert (Hsl : seg (hdr st1) base 0 l1 (next_of l2)).
  { eapply seg_frame; [|by apply seg_cut]. intros x Hx. apply Hx1.
    apply elem_of_cons in Hx as [->|([c k] & -> & Hcin)%list_elem_of_fmap]; [unfold HDR in *; lia|].
    destruct (blocks_in _ _ _ _ _ Hb1 Hcin). simpl. unfold HDR in *. lia. }
  destruct (free_lower_run st1 a n2 p psz l1 l2' (next_of l2)) as (h & fl & R2 & Hs2 & Hbl2 & Hp2 & Ht2 & (b & m & Hbm & Hm) & Hln2 & Hcl2);
    rewrite ?Hk1; try done; try lia.
  rewrite (bind_ok _ _ _ _ _ R2).
  assert (Hclear : ∀ c k, delete a A !! c = Some k → 0 < k ∧ c ≠ a ∧ A !! c = Some k ∧ clear c k (l1 ++ (a, n2) :: l2')).
  { intros c k [Hne Hc']%lookup_delete_Some. destruct (Hal _ _ Hc') as (Hk & _). split_and!; [done..|].
    apply clear_app. split; [intros b' m' Hbm'; eapply Hap; [done|set_solver]|]. apply Hcl1; [done|]. apply clear_cons.
    split; [by eapply Hdi|]. intros b' m' Hbm'. eapply Hap; [done|set_solver]. }
  eexists _, fl. split; [reflexivity|]. split_and!; [|done|rewrite Ht2, total_app; lia|exists b, m; split; [done|lia]|rewrite length_app; lia].
  constructor; [done|simpl; lia|done|done|done|..].
  - intros c k Hck. destruct (Hclear _ _ Hck) as (Hk & Hne & Hc' & Hcl). destruct (Hal _ _ Hc') as (_ & Hcb & Hce & Hcs).
    split_and!; [done|done|simpl; lia|]. unfold hdr at 1. simpl. change (h_size (hdr (upd st1 p h) c) = k).
    rewrite hdr_upd_ne, Hx1; [done|done|]. apply elem_of_cons in Hin as [[= -> _]|Hin]; [unfold HDR in *; lia|].
    destruct (Hcl p psz) as [Hx|Hx]; [set_solver|unfold HDR in *; lia|].
    destruct (blocks_in _ _ _ _ _ Hb1 Hin) as (_ & ? & _). unfold HDR in *; lia.
  - intros c k b' m' Hck Hin'. destruct (Hclear _ _ Hck) as (Hk & _ & _ & Hcl). by apply (Hcl2 c k Hk Hcl).
  - intros c k c' k' Hck Hck'. destruct (Hclear _ _ Hck) as (_ & _ & ? & _), (Hclear _ _ Hck') as (_ & _ & ? & _). by apply Hdi.
Qed.

(** ** [morecore] *)

(** A process grows by what it asks for, and not into the kernel's half. *)
Hypothesis grow_below_kernel : ∀ brk n brk', 0 < n → grow brk n = Some brk' → brk' = brk + n ∧ brk + n <= 2 ^ 31.

(** New memory is a block in use. *)
Lemma heap_grow st fl A n v :
  heap_ok st fl A → 0 < n → u_brk st + HDR * n <= 2 ^ 31 →
  heap_ok (upd (set_u_brk (u_brk st + HDR * n) st) (u_brk st) (Hdr v n)) fl (<[u_brk st := n]> A) ∧ A !! u_brk st = None.
Proof.
  intros [H0 Hbrk Hc Hb Hfp Hal Hap Hdi] Hn Hmax.
  assert (HA : A !! u_brk st = None).
  { destruct (A !! u_brk st) as [k|] eqn:E; [|done]. destruct (Hal _ _ E) as (? & _ & ? & _). unfold HDR in *. lia. }
  split; [|done]. constructor; simpl; [done|unfold HDR in *; lia|..].
  - eapply seg_frame, Hc. intros x Hx. rewrite hdr_upd_ne; [done|].
    apply elem_of_cons in Hx as [->|([c k] & -> & Hin)%list_elem_of_fmap]; [unfold HDR in *; lia|].
    destruct (blocks_in _ _ _ _ _ Hb Hin) as (_ & ? & ?). simpl. unfold HDR in *. lia.
  - eapply blocks_raise, Hb. unfold HDR. lia.
  - done.
  - intros a m [[<- <-]|[Hne Ha]]%lookup_insert_Some.
    + rewrite hdr_upd_eq. simpl. unfold HDR in *. split_and!; lia.
    + rewrite hdr_upd_ne by done. destruct (Hal _ _ Ha) as (? & ? & ? & ?). split_and!; try done. unfold HDR in *. lia.
  - intros a m b k [[<- <-]|[Hne Ha]]%lookup_insert_Some Hin; [|by eapply Hap].
    destruct (blocks_in _ _ _ _ _ Hb Hin) as (_ & ? & ?). right. done.
  - intros a m b k [[<- <-]|[Hne Ha]]%lookup_insert_Some [[<- <-]|[Hne' Hb']]%lookup_insert_Some ?; [done|..].
    + right. destruct (Hal _ _ Hb') as (_ & _ & ? & _). done.
    + left. destruct (Hal _ _ Ha) as (_ & _ & ? & _). done.
    + by apply Hdi.
Qed.

Lemma morecore_run st fl A nu fuel :
  heap_ok st fl A → 0 < nu → HDR * nu < 2 ^ 31 → (length fl + 2 <= fuel)%nat →
  morecore fuel nu st = Ok 0 st ∧ grow (u_brk st) (HDR * Z.max 4096 nu) = None ∨
  ∃ st' fl', morecore fuel nu st = Ok (u_freep st') st' ∧ heap_ok st' fl' A ∧
    (∃ b m, (b, m) ∈ fl' ∧ nu <= m) ∧ (length fl' <= S (length fl))%nat ∧ spends st st' fl fl' 0.
Proof.
  intros Hok Hnu Hmax Hf. unfold morecore. set (n := if nu <? 4096 then 4096 else nu).
  assert (Hn : nu <= n ∧ HDR * n < 2 ^ 31) by (unfold n, HDR in *; destruct (Z.ltb_spec nu 4096); lia).
  pose proof (ho_brk _ _ _ Hok) as Hbrk. pose proof (ho_base _ _ _ Hok) as H0.
  assert (Es : s32 (u32 (n * HDR)) = n * HDR).
  { rewrite u32_small by (unfold HDR in *; lia). apply s32_small. unfold HDR in *. lia. }
  destruct (grow (u_brk st) (n * HDR)) as [brk'|] eqn:Eg.
  - right. destruct (grow_below_kernel (u_brk st) (n * HDR) brk' ltac:(unfold HDR; lia) Eg) as [-> Hg].
    assert (Rs : sbrk (u32 (n * HDR)) st = Ok (u_brk st) (set_u_brk (u_brk st + HDR * n) st)).
    { unfold sbrk. rewrite bind_kgets, Es, Eg. rewrite bind_kmodify. unfold mret, K_ret. do 2 f_equal. lia. }
    rewrite (bind_ok _ _ _ _ _ Rs). change (u32 (-1)) with 4294967295.
    rewrite (proj2 (Z.eqb_neq (u_brk st) _)) by lia.
    rewrite (bind_ok _ _ _ _ _ (set_size_run _ _ _)).
    destruct (heap_grow st fl A n (h_ptr (hdr (set_u_brk (u_brk st + HDR * n) st) (u_brk st))) Hok) as [Hok' HA]; [lia|unfold HDR in *; lia|].
    destruct (free_run _ _ _ (u_brk st) n fuel Hok') as (st' & fl' & R & Hok2 & Hbr & Htot & (b & m & Hin & Hm) & Hl); [by rewrite lookup_insert_eq|done|].
    unfold plus. rewrite Z.mul_1_r, u32_small by (unfold HDR in *; lia).
    rewrite (bind_ok _ _ _ _ _ R). exists st', fl'. split; [done|]. rewrite delete_insert_id in Hok2 by done.
    split_and!; try done; [exists b, m; split; [done|lia]|]. unfold spends. rewrite Hbr, Htot. simpl. unfold HDR. lia.
  - left. split; [unfold sbrk; unfold mbind, K_bind; simpl; by rewrite Es, Eg|]. rewrite <- Eg. f_equal. unfold n.
    destruct (Z.ltb_spec nu 4096); unfold HDR; lia.
Qed.

(** ** [malloc] *)

(** Part [q], [k] of the free block [p], [n] comes into use. *)
Lemma heap_alloc st st' fl fl' A p n q k :
  heap_ok st fl A → (p, n) ∈ fl → p <= q → q + HDR * k <= p + HDR * n → 0 < k →
  u_brk st' = u_brk st → seg (hdr st') base 0 fl' base → blocks (base + HDR - 1) fl' (u_brk st) → u_freep st' ∈ base :: fl'.*1 →
  clear q k fl' → (∀ c j, 0 < j → clear c j fl → clear c j fl') →
  h_size (hdr st' q) = k → (∀ c j, A !! c = Some j → h_size (hdr st' c) = h_size (hdr st c)) →
  heap_ok st' fl' (<[q := k]> A) ∧ A !! q = None.
Proof.
  intros [H0 Hbrk Hc Hb Hfp Hal Hap Hdi] Hin Hpq Hqk Hk Ebrk Hc' Hb' Hfp' Hq Hcl Hsq Hsz.
  destruct (blocks_in _ _ _ _ _ Hb Hin) as (Hp1 & Hn & Hp2).
  assert (HA : ∀ c j, A !! c = Some j → 0 < j ∧ apart c j q k).
  { intros c j Hcj. destruct (Hal _ _ Hcj) as (Hj & _). split; [done|].
    destruct (Hap _ _ _ _ Hcj Hin); unfold apart, HDR in *; lia. }
  assert (Hnone : A !! q = None).
  { destruct (A !! q) as [j|] eqn:E; [|done]. destruct (HA _ _ E). unfold apart, HDR in *. lia. }
  split; [|done]. constructor; rewrite ?Ebrk; try done.
  - intros c j [[<- <-]|[Hne Hcj]]%lookup_insert_Some; [split_and!; try done; unfold HDR in *; lia|].
    destruct (Hal _ _ Hcj) as (? & ? & ? & ?). split_and!; try done. by rewrite (Hsz _ _ Hcj).
  - intros c j b m [[<- <-]|[Hne Hcj]]%lookup_insert_Some Hbm; [by apply Hq|].
    apply (Hcl c j); [by destruct (HA _ _ Hcj)|intros b' m'; by apply Hap|done].
  - intros a m b j [[<- <-]|[Hne Ha]]%lookup_insert_Some [[<- <-]|[Hne' Hb'']]%lookup_insert_Some ?; [done|..|by apply Hdi].
    + destruct (HA _ _ Hb'') as [_ []]; [right|left]; done.
    + by destruct (HA _ _ Ha).
Qed.

(** A block of the list does not overlap the others. *)
Lemma blocks_clear lo l1 p n l2 hi : blocks lo (l1 ++ (p, n) :: l2) hi → clear p n (l1 ++ l2).
Proof.
  intros (mid & H1 & Hm & Hn & H2)%blocks_app b m [Hin|Hin]%elem_of_app.
  - right. destruct (blocks_in _ _ _ _ _ H1 Hin) as (_ & _ & ?). lia.
  - left. destruct (blocks_in _ _ _ _ _ H2 Hin) as (? & _). lia.
Qed.

(** Facts about a block and its predecessor in the list. *)
Lemma pred_facts st fl A l1 p n l2 :
  heap_ok st fl A → fl = l1 ++ (p, n) :: l2 → let x := (lastn (base, 0) l1).1 in
  0 < x ∧ x < p ∧ x ∈ base :: l1.*1 ∧ NoDup (base :: fl.*1) ∧ p ∉ base :: l1.*1 ++ l2.*1 ∧ 0 < n ∧ p + HDR * n <= u_brk st ∧
  base + HDR <= p ∧ hdr st x = Hdr p (lastn (base, 0) l1).2 ∧ hdr st p = Hdr (next_of l2) n ∧
  (∀ c j, A !! c = Some j → c ≠ x ∧ c ≠ p).
Proof.
  intros Hok -> x. pose proof Hok as [H0 Hbrk Hc Hb _ Hal Hap _].
  pose proof (lastn_in (base, 0) l1) as Hin. pose proof (list_elem_of_fmap_2 fst _ _ Hin) as Hx. fold x in Hx.
  destruct (blocks_in _ _ _ p n Hb ltac:(set_solver)) as (Hp1 & Hn & Hp2).
  assert (Hd : NoDup (base :: (l1 ++ (p, n) :: l2).*1)).
  { constructor; [|by eapply blocks_nodup]. intros ([c k] & -> & Hck)%list_elem_of_fmap.
    destruct (blocks_in _ _ _ _ _ Hb Hck). simpl in *. unfold HDR in *. lia. }
  apply chain_app in Hc as [Hc1 Hc2]. pose proof (chain_last _ _ _ _ _ Hc1) as E1. fold x in E1.
  assert (Hxp : 0 < x ∧ x < p).
  { apply elem_of_cons in Hx as [E|Hx']; [simpl in E; unfold HDR in *; lia|].
    apply list_elem_of_fmap in Hx' as ([c k] & E & Hck).
    apply blocks_app in Hb as (mid & Hb1 & Hm & _). destruct (blocks_in _ _ _ _ _ Hb1 Hck) as (? & ? & ?). simpl in E. unfold HDR in *. lia. }
  split_and!; try done; try (unfold HDR in *; lia).
  - rewrite fmap_app in Hd. cbn [fmap list_fmap fst] in Hd.
    change (base :: l1.*1 ++ p :: l2.*1) with ((base :: l1.*1) ++ p :: l2.*1) in Hd.
    rewrite <- Permutation_middle in Hd. apply list.NoDup_cons in Hd as [Hd _]. exact Hd.
  - destruct l2 as [|[b m] l2]; [exact Hc2|apply Hc2].
  - intros c j Hcj. destruct (Hal _ _ Hcj) as (Hj & Hcb & _).
    split; [|destruct (Hap _ _ p n Hcj ltac:(set_solver)); unfold HDR in *; lia].
    apply elem_of_cons in Hx as [E|Hx']; [simpl in E; unfold HDR in *; lia|].
    apply list_elem_of_fmap in Hx' as ([x' k] & -> & Hck). simpl.
    destruct (blocks_in _ _ _ x' k Hb ltac:(set_solver)) as (_ & ? & _).
    destruct (Hap _ _ x' k Hcj ltac:(set_solver)); unfold HDR in *; lia.
Qed.

(** A block of the right size is unlinked, a larger one gives its tail. *)
Lemma take_exact st fl A l1 p n l2 fuel ffuel :
  heap_ok st fl A → fl = l1 ++ (p, n) :: l2 →
  ∃ st' fl', malloc_loop (S fuel) ffuel n (lastn (base, 0) l1).1 p st = Ok (p + HDR) st' ∧ spends st st' fl fl' n ∧
    heap_ok st' fl' (<[p := n]> A) ∧ A !! p = None.
Proof.
  intros Hok Efl. destruct (pred_facts _ _ _ _ _ _ _ Hok Efl) as (Hx0 & Hxp & Hx & Hd & Hpn & Hn & Hpb & Hbp & Ex & Ep & HA).
  set (x := (lastn (base, 0) l1).1) in *. set (xs := (lastn (base, 0) l1).2) in *. pose proof Hok as [H0 Hbrk Hc Hb Hfp Hal Hap Hdi].
  cbn [malloc_loop]. rewrite (bind_ok _ _ _ _ _ (size_run st p ltac:(lia))), Ep. cbn [h_size]. rewrite Z.leb_refl, Z.eqb_refl.
  set (st' := set_u_freep x (upd st x (Hdr (next_of l2) xs))). exists st', (l1 ++ l2). split.
  { unfold mbind, K_bind. rewrite ptr_run, Ep by lia. simpl. unfold set_ptr, kmodify. simpl. rewrite Ex. simpl.
    unfold plus. rewrite u32_small by (unfold HDR in *; lia). done. }
  split; [unfold spends; subst fl; rewrite !total_app; simpl; unfold HDR; lia|].
  subst fl. eapply (heap_alloc st st' _ _ _ p n); try done; try lia.
  - set_solver.
  - change (hdr st') with (hdr (upd st x (Hdr (next_of l2) xs))). apply chain_app in Hc as [Hc1 Hc2].
    rewrite fmap_app, app_comm_cons in Hd. apply list.NoDup_app in Hd as (Hd1 & Hd2 & _).
    assert (Hs1 : seg (hdr (upd st x (Hdr (next_of l2) xs))) base 0 l1 (next_of l2)).
    { eapply seg_retarget, Hc1; [done|intros y _ Hy; by apply hdr_upd_ne|apply hdr_upd_eq]. }
    destruct l2 as [|[b m] l2]; [by rewrite app_nil_r|]. apply chain_app. split; [done|].
    eapply seg_frame; [|apply Hc2]. intros y Hy. apply hdr_upd_ne. intros ->. by apply (Hd2 x); [|right].
  - apply blocks_app in Hb as (mid & Hb1 & Hm & Hnn & Hb2). apply blocks_app. exists mid. split; [done|].
    eapply blocks_weaken, Hb2. unfold HDR. lia.
  - simpl. rewrite fmap_app. set_solver.
  - by eapply blocks_clear.
  - intros c j _ Hcl b m Hbm. apply Hcl. set_solver.
  - change (hdr st' p) with (hdr (upd st x (Hdr (next_of l2) xs)) p). rewrite hdr_upd_ne, Ep by lia. done.
  - intros c j Hcj. change (hdr st' c) with (hdr (upd st x (Hdr (next_of l2) xs)) c). rewrite hdr_upd_ne; [done|]. by eapply HA.
Qed.

Lemma take_tail st fl A l1 p n l2 nunits fuel ffuel :
  heap_ok st fl A → fl = l1 ++ (p, n) :: l2 → 0 < nunits < n →
  ∃ q st' fl', malloc_loop (S fuel) ffuel nunits (lastn (base, 0) l1).1 p st = Ok (q + HDR) st' ∧ spends st st' fl fl' nunits ∧
    heap_ok st' fl' (<[q := nunits]> A) ∧ A !! q = None.
Proof.
  intros Hok Efl Hnu. destruct (pred_facts _ _ _ _ _ _ _ Hok Efl) as (Hx0 & Hxp & Hx & Hd & Hpn & Hn & Hpb & Hbp & Ex & Ep & HA).
  set (x := (lastn (base, 0) l1).1) in *. pose proof Hok as [H0 Hbrk Hc Hb Hfp Hal Hap Hdi].
  cbn [malloc_loop]. rewrite (bind_ok _ _ _ _ _ (size_run st p ltac:(lia))), Ep. cbn [h_size].
  rewrite (proj2 (Z.leb_le _ _)), (proj2 (Z.eqb_neq _ _)) by lia.
  assert (Eu : u32 (n - nunits) = n - nunits) by (rewrite u32_small; unfold HDR in *; lia). rewrite !Eu.
  set (q := p + HDR * (n - nunits)). assert (Eq : plus p (n - nunits) = q) by (unfold plus; rewrite u32_small; unfold q, HDR in *; lia).
  rewrite Eq. assert (Hqp : q ≠ p) by (unfold q, HDR; lia).
  set (st1 := upd st p (Hdr (next_of l2) (n - nunits))). set (st' := set_u_freep x (upd st1 q (Hdr (h_ptr (hdr st1 q)) nunits))).
  exists q, st', (l1 ++ (p, n - nunits) :: l2). split.
  { unfold mbind, K_bind. simpl. unfold set_size, kmodify. simpl. rewrite Ep. simpl.
    unfold plus. rewrite u32_small by (unfold q, HDR in *; lia). done. }
  split; [unfold spends; subst fl; rewrite !total_app; simpl; unfold HDR; lia|].
  assert (Hh : ∀ y, y ≠ q → hdr st' y = hdr st1 y) by (intros y Hy; by apply hdr_upd_ne).
  subst fl. apply blocks_app in Hb as (mid & Hb1 & Hm & Hnn & Hb2).
  assert (Hq : ∀ b m, (b, m) ∈ l1 ++ l2 → 0 < m ∧ apart q nunits b m).
  { intros b m [Hin|Hin]%elem_of_app; [destruct (blocks_in _ _ _ _ _ Hb1 Hin)|destruct (blocks_in _ _ _ _ _ Hb2 Hin)]; unfold apart, q, HDR in *; lia. }
  assert (Hqn : q ∉ base :: l1.*1 ++ l2.*1).
  { rewrite <- fmap_app. intros [E|([b m] & E & Hin)%list_elem_of_fmap]%elem_of_cons; [unfold q, HDR in *; lia|].
    destruct (Hq _ _ Hin). simpl in E. unfold apart, HDR in *. lia. }
  apply chain_app in Hc as [Hc1 Hc2].
  eapply (heap_alloc st st' _ _ _ p n q); try done; try (unfold q, HDR in *; lia).
  - set_solver.
  - apply chain_app. split; [eapply seg_frame, Hc1|eapply seg_head, Hc2].
    + intros y Hy. rewrite Hh by set_solver. apply hdr_upd_ne. set_solver.
    + rewrite Hh by done. unfold st1. rewrite hdr_upd_eq, Ep. done.
    + intros y Hy. rewrite Hh by set_solver. apply hdr_upd_ne. set_solver.
  - apply blocks_app. exists mid. split; [done|]. split_and!; [done|lia|]. eapply blocks_weaken, Hb2. unfold HDR. lia.
  - simpl. rewrite fmap_app. set_solver.
  - apply clear_app. split; [intros b m Hin; by apply Hq; set_solver|]. apply clear_cons.
    split; [right; unfold q; lia|]. intros b m Hin. apply Hq. set_solver.
  - intros c j Hj. rewrite !clear_app, !clear_cons. intros (H1 & H2 & H3). split_and!; try done. unfold apart, HDR in *. lia.
  - unfold st'. change (hdr (set_u_freep x ?s) q) with (hdr s q). rewrite hdr_upd_eq. done.
  - intros c j Hcj. destruct (HA _ _ Hcj) as [Hcx Hcp]. destruct (Hal _ _ Hcj) as (Hj & _).
    rewrite Hh; [unfold st1; by rewrite hdr_upd_ne|]. intros ->. destruct (Hap _ _ p n Hcj ltac:(set_solver)); unfold q, HDR in *; lia.
Qed.

(** Different headers of the list point to different blocks. *)
Lemma seg_target H a sz l nx x : seg H a sz l nx → x ∈ a :: l.*1 → h_ptr (H x) ∈ l.*1 ++ [nx].
Proof.
  revert a sz. induction l as [|[b m] l IH]; intros a sz; simpl.
  - intros E ->%list_elem_of_singleton. rewrite E. set_solver.
  - intros [E Hs] [->|Hx]%elem_of_cons; [rewrite E; set_solver|]. specialize (IH _ _ Hs Hx). set_solver.
Qed.

Lemma seg_inj H a sz l nx x y :
  seg H a sz l nx → NoDup (l.*1 ++ [nx]) → x ∈ a :: l.*1 → y ∈ a :: l.*1 → h_ptr (H x) = h_ptr (H y) → x = y.
Proof.
  revert a sz. induction l as [|[b m] l IH]; intros a sz; simpl; [set_solver|].
  intros [E Hs] [Hb Hd]%list.NoDup_cons [->|Hx]%elem_of_cons [->|Hy]%elem_of_cons Exy; [done| | |by eapply IH].
  - destruct Hb. rewrite E in Exy. simpl in Exy. subst b. by eapply seg_target.
  - destruct Hb. rewrite E in Exy. simpl in Exy. subst b. by eapply seg_target.
Qed.

(** The circular list from [freep]. *)
Lemma rotate st fl A :
  heap_ok st fl A →
  ∃ nf rest, seg (hdr st) (u_freep st) nf rest (u_freep st) ∧ (u_freep st, nf) :: rest ≡ₚ (base, 0) :: fl.
Proof.
  intros Hok. pose proof Hok as [H0 Hbrk Hc Hb Hfp Hal Hap Hdi]. apply elem_of_cons in Hfp as [->|Hf]; [by exists 0, fl|].
  apply list_elem_of_fmap in Hf as ([f nf] & -> & Hin). apply list_elem_of_split in Hin as (l1 & l2 & ->).
  apply chain_app in Hc as [Hc1 Hc2]. exists nf, (l2 ++ (base, 0) :: l1). simpl. split; [by apply chain_app|].
  rewrite <- !Permutation_middle, (Permutation_app_comm l2 l1). apply Permutation_swap.
Qed.

(** Passing over blocks that are too small. *)
Lemma walk st nunits ffuel prevp np r p fuel :
  seg (hdr st) prevp np r p → (∀ a n, (a, n) ∈ r → n < nunits ∧ a ≠ u_freep st ∧ a ≠ 0) →
  malloc_loop (length r + fuel) ffuel nunits prevp (h_ptr (hdr st prevp)) st =
  malloc_loop fuel ffuel nunits (lastn (prevp, np) r).1 p st.
Proof.
  revert prevp np. induction r as [|[a n] r IH]; intros prevp np; simpl; [by intros ->|].
  intros [E Hs] Hr. rewrite E. cbn [h_ptr]. destruct (Hr a n) as (Hn & Hf & H0); [set_solver|].
  rewrite (bind_ok _ _ _ _ _ (size_run st a H0)), (chain_first _ _ _ _ _ Hs).
  rewrite (proj2 (Z.leb_gt _ _)) by done. rewrite bind_kgets, (proj2 (Z.eqb_neq _ _)) by done.
  rewrite (bind_ok _ _ _ _ _ (ptr_run st a H0)). apply IH; [done|]. intros a' n' Hin. apply Hr. set_solver.
Qed.

Lemma first_fit (nunits : Z) (l : list (Z * Z)) :
  (∃ r1 p n r2, l = r1 ++ (p, n) :: r2 ∧ (∀ a m, (a, m) ∈ r1 → m < nunits) ∧ nunits <= n) ∨
  (∀ a m, (a, m) ∈ l → m < nunits).
Proof.
  induction l as [|[a n] l IH]; [right; set_solver|]. destruct (decide (nunits <= n)) as [Hn|Hn].
  - left. exists [], a, n, l. split_and!; [done|set_solver|done].
  - destruct IH as [(r1 & p & m & r2 & -> & Hr & Hm)|Hr].
    + left. exists ((a, n) :: r1), p, m, r2. split_and!; [done| |done]. intros b k [[= -> ->]|Hin]%elem_of_cons; [lia|by eapply Hr].
    + right. intros b k [[= -> ->]|Hin]%elem_of_cons; [lia|by eapply Hr].
Qed.

(** What [malloc]'s loop does from [freep] on. *)
Definition malloc_result (st : uheap) (fl : list (Z * Z)) (A : gmap Z Z) (nunits : Z) (r : res uheap Z) : Prop :=
  ∃ q st' fl', r = Ok (q + HDR) st' ∧ spends st st' fl fl' nunits ∧ heap_ok st' fl' (<[q := nunits]> A) ∧ A !! q = None.

Lemma take_run st fl A x p n nunits fuel ffuel :
  heap_ok st fl A → (p, n) ∈ fl → x ∈ base :: fl.*1 → h_ptr (hdr st x) = p → 0 < nunits <= n →
  malloc_result st fl A nunits (malloc_loop (S fuel) ffuel nunits x p st).
Proof.
  intros Hok Hin Hx Hp Hn. apply list_elem_of_split in Hin as (l1 & l2 & Efl).
  destruct (pred_facts _ _ _ _ _ _ _ Hok Efl) as (_ & _ & Hy & Hd & _ & _ & _ & _ & Ey & _).
  assert (x = (lastn (base, 0) l1).1) as ->.
  { eapply (seg_inj (hdr st) base 0 fl base); [apply Hok| |done| |by rewrite Hp, Ey].
    - rewrite <- Permutation_cons_append. done.
    - subst fl. rewrite fmap_app. set_solver. }
  destruct (decide (nunits = n)) as [->|Hne].
  - destruct (take_exact st fl A l1 p n l2 fuel ffuel Hok Efl) as (st' & fl' & R & Hsp & H1 & H2). by exists p, st', fl'.
  - destruct (take_tail st fl A l1 p n l2 nunits fuel ffuel Hok Efl) as (q & st' & fl' & R & Hsp & H1 & H2); [lia|]. by exists q, st', fl'.
Qed.

(** A round of the circular list, as [malloc] makes it. *)
Lemma round_facts st fl A :
  heap_ok st fl A →
  ∃ nf rest, let f := u_freep st in
    seg (hdr st) f nf (rest ++ [(f, nf)]) (h_ptr (hdr st f)) ∧ length rest = length fl ∧ f ∉ rest.*1 ∧ h_size (hdr st f) = nf ∧
    (∀ b m, (b, m) ∈ (f, nf) :: rest ↔ (b, m) = (base, 0) ∨ (b, m) ∈ fl) ∧ (∀ b m, (b, m) ∈ (f, nf) :: rest → b ≠ 0).
Proof.
  intros Hok. pose proof Hok as [H0 Hbrk Hc Hb _ _ _ _]. destruct (rotate _ _ _ Hok) as (nf & rest & Hs & Hperm).
  assert (Hmem : ∀ b m, (b, m) ∈ (u_freep st, nf) :: rest ↔ (b, m) = (base, 0) ∨ (b, m) ∈ fl).
  { intros b m. rewrite Hperm. apply elem_of_cons. }
  pose proof (chain_first _ _ _ _ _ Hs) as Hnf. exists nf, rest. split_and!; try done.
  - apply chain_app. split; [done|]. simpl. by destruct (hdr st (u_freep st)); simplify_eq/=.
  - apply Permutation_length in Hperm. simpl in Hperm. lia.
  - assert (Hd : NoDup ((u_freep st, nf) :: rest).*1).
    { rewrite Hperm. constructor; [|by eapply blocks_nodup]. intros ([c k] & E & Hck)%list_elem_of_fmap.
      destruct (blocks_in _ _ _ _ _ Hb Hck). simpl in *. unfold HDR in *. lia. }
    by apply list.NoDup_cons in Hd as [Hd _].
  - intros b m [[= -> ->]|Hin]%Hmem; [lia|]. destruct (blocks_in _ _ _ _ _ Hb Hin). unfold HDR in *. lia.
Qed.

Lemma loop_found st fl A nunits fuel ffuel :
  heap_ok st fl A → 0 < nunits → (∃ b m, (b, m) ∈ fl ∧ nunits <= m) → (S (length fl) <= fuel)%nat →
  malloc_result st fl A nunits (malloc_loop fuel ffuel nunits (u_freep st) (h_ptr (hdr st (u_freep st))) st).
Proof.
  intros Hok Hnu (b & m & Hbm & Hm) Hf. destruct (round_facts _ _ _ Hok) as (nf & rest & Hs & Hl & Hfr & _ & Hmem & H0).
  set (f := u_freep st) in *.
  assert (HL : ∀ x, x ∈ rest ++ [(f, nf)] ↔ x ∈ (f, nf) :: rest) by set_solver.
  destruct (first_fit nunits (rest ++ [(f, nf)])) as [(r1 & p & n & r2 & E & Hr1 & Hn)|Hno].
  2: { specialize (Hno b m). rewrite HL, Hmem in Hno. specialize (Hno ltac:(by right)). lia. }
  rewrite E in Hs. apply chain_app in Hs as [Hs _].
  assert (Hpre : r1 `prefix_of` rest).
  { destruct r2 as [|z r2] using rev_ind; [apply app_inj_tail in E as [-> _]; done|].
    rewrite app_comm_cons, app_assoc in E. apply app_inj_tail in E as [-> _]. by eexists. }
  assert (Hr1len : (length r1 <= length fl)%nat) by (rewrite <- Hl; by apply prefix_length).
  assert (Hsub : ∀ x, x ∈ r1 → x ∈ rest) by (intros x Hx; destruct Hpre as [k ->]; set_solver).
  replace fuel with (length r1 + S (fuel - S (length r1)))%nat by lia.
  rewrite (walk st nunits ffuel f nf r1 p).
  - eapply (take_run _ _ _ _ _ n); [done| | |by rewrite (chain_last _ _ _ _ _ Hs)|lia].
    + assert (Hin : (p, n) ∈ (f, nf) :: rest) by (apply HL; rewrite E; set_solver).
      apply Hmem in Hin as [[= -> ->]|Hin]; [lia|done].
    + pose proof (lastn_in (f, nf) r1) as Hin. destruct (lastn (f, nf) r1) as [x k].
      assert (Hx : (x, k) ∈ (f, nf) :: rest) by set_solver. apply Hmem in Hx as [[= -> ->]|Hx]; [set_solver|].
      right. by apply (list_elem_of_fmap_2 fst) in Hx.
  - done.
  - intros a k Hin. split_and!; [by eapply Hr1| |by apply (H0 a k); set_solver].
    intros ->. apply Hfr. apply Hsub, (list_elem_of_fmap_2 fst) in Hin. done.
Qed.

Lemma malloc_loop_run st fl A nunits fuel ffuel :
  heap_ok st fl A → 0 < nunits → HDR * nunits < 2 ^ 31 →
  (2 * length fl + 3 <= fuel)%nat → (length fl + 2 <= ffuel)%nat →
  let r := malloc_loop fuel ffuel nunits (u_freep st) (h_ptr (hdr st (u_freep st))) st in
  r = Ok 0 st ∧ grow (u_brk st) (HDR * Z.max 4096 nunits) = None ∨ malloc_result st fl A nunits r.
Proof.
  intros Hok Hnu Hmax Hf Hff r.
  destruct (first_fit nunits fl) as [(r1 & p & n & r2 & -> & _ & Hn)|Hno].
  { right. eapply loop_found; [done..| |lia]. exists p, n. split; [set_solver|done]. }
  destruct (round_facts _ _ _ Hok) as (nf & rest & Hs & Hl & Hfr & Enf & Hmem & H0). apply chain_app in Hs as [Hs _].
  assert (Hsmall : ∀ a m, (a, m) ∈ (u_freep st, nf) :: rest → m < nunits).
  { intros a m [[= -> ->]|Hin]%Hmem; [done|by eapply Hno]. }
  unfold r. replace fuel with (length rest + S (fuel - S (length rest)))%nat by lia.
  rewrite (walk st nunits ffuel _ nf rest (u_freep st)); [|done|].
  2: { intros a m Hin. split_and!; [apply (Hsmall a m); set_solver| |apply (H0 a m); set_solver].
       intros ->. apply Hfr. by apply (list_elem_of_fmap_2 fst) in Hin. }
  cbn [malloc_loop]. rewrite (bind_ok _ _ _ _ _ (size_run st _ (H0 _ _ (list_elem_of_here _ _)))), Enf.
  rewrite (proj2 (Z.leb_gt _ _)) by (exact (Hsmall _ _ (list_elem_of_here _ _))). rewrite bind_kgets, Z.eqb_refl.
  destruct (morecore_run st fl A nunits ffuel Hok Hnu Hmax Hff) as [[R Hg]|(st' & fl' & R & Hok' & Hbig & Hlen & Hsp)];
    rewrite (bind_ok _ _ _ _ _ R); [by left|right].
  destruct (round_facts _ _ _ Hok') as (nf' & rest' & _ & _ & _ & _ & _ & H0').
  pose proof (H0' _ _ (list_elem_of_here _ _)) as Hf0. rewrite (proj2 (Z.eqb_neq _ _)) by done.
  rewrite (bind_ok _ _ _ _ _ (ptr_run st' _ Hf0)).
  destruct (loop_found st' fl' A nunits (fuel - S (length rest)) ffuel Hok' Hnu Hbig ltac:(lia)) as (q & st2 & fl2 & R2 & Hsp2 & H1 & H2).
  exists q, st2, fl2. split_and!; try done. unfold spends in *. lia.
Qed.

(** ** The allocator as a whole *)

(** The list determines the blocks. *)
Lemma seg_unique H a sz l sz' l' : seg H a sz l base → seg H a sz' l' base → base ∉ l.*1 → base ∉ l'.*1 → l = l'.
Proof.
  revert a sz sz' l'. induction l as [|[b m] l IH]; intros a sz sz' [|[c k] l']; simpl; [done|..].
  - intros E [E' _] _ Hb. rewrite E in E'. injection E' as <- _. set_solver.
  - intros [E _] E' Hb _. rewrite E in E'. injection E' as -> _. set_solver.
  - intros [E Hs] [E' Hs'] Hb Hb'. rewrite E in E'. injection E' as <- _.
    pose proof (chain_first _ _ _ _ _ Hs) as <-. pose proof (chain_first _ _ _ _ _ Hs') as <-. f_equal. eapply IH; [done..|set_solver|set_solver].
Qed.

Lemma base_not_free st fl A : heap_ok st fl A → base ∉ fl.*1.
Proof.
  intros Hok ([c k] & -> & Hck)%list_elem_of_fmap. destruct (blocks_in _ _ _ _ _ (ho_blocks _ _ _ Hok) Hck). simpl in *. unfold HDR in *. lia.
Qed.

Lemma free_blocks_unique st fl A fl' A' : heap_ok st fl A → heap_ok st fl' A' → fl = fl'.
Proof. intros H H'. eapply seg_unique; [apply H|apply H'|by eapply base_not_free|by eapply base_not_free]. Qed.

(** The units in use. *)
Definition units (A : gmap Z Z) : Z := map_fold (λ _ n s, n + s) 0 A.

Lemma units_insert A a n : A !! a = None → units (<[a := n]> A) = n + units A.
Proof. intros Ha. unfold units. by rewrite map_fold_insert_L by (done || lia). Qed.

Lemma units_delete A a n : A !! a = Some n → units A = n + units (delete a A).
Proof. intros Ha. rewrite <- (units_insert (delete a A) a n) by apply lookup_delete_eq. by rewrite insert_delete_id. Qed.

(** The heap before the first call, or at work; [A] are the blocks in use.  All of
    the memory got from the kernel, from [lo] on, is free or in use. *)
Definition heap_inv (lo : Z) (st : uheap) (A : gmap Z Z) : Prop :=
  (u_freep st = 0 ∧ A = ∅ ∧ u_brk st = lo ∧ 0 < base ∧ base + HDR <= u_brk st <= 2 ^ 31)
  ∨ ∃ fl, heap_ok st fl A ∧ HDR * (total fl + units A) = u_brk st - lo.

(** A block in use is not free. *)
Lemma heap_inv_exact lo st A a n : heap_inv lo st A → A !! a = Some n → ¬ heap_inv lo st (delete a A).
Proof.
  intros [(_ & -> & _)|(fl & Hok & Ht)] Ha; [by rewrite lookup_empty in Ha|]. pose proof (units_delete _ _ _ Ha) as Eu.
  destruct (ho_alloc _ _ _ Hok _ _ Ha) as (Hn & _). pose proof (ho_base _ _ _ Hok) as Hb.
  intros [(Hf & _)|(fl' & Hok' & Ht')].
  - pose proof (ho_freep _ _ _ Hok) as Hp. rewrite Hf in Hp. apply elem_of_cons in Hp as [Hp|([c k] & Hc & Hck)%list_elem_of_fmap]; [lia|].
    destruct (blocks_in _ _ _ _ _ (ho_blocks _ _ _ Hok) Hck). simpl in Hc. unfold HDR in *. lia.
  - rewrite (free_blocks_unique _ _ _ _ _ Hok' Hok) in Ht'. unfold HDR in *. lia.
Qed.

(** The first call makes [base] the whole list. *)
Definition init_heap (st : uheap) : uheap := set_u_freep base (upd st base (Hdr base 0)).

Lemma init_heap_ok st : 0 < base → base + HDR <= u_brk st <= 2 ^ 31 → heap_ok (init_heap st) [] ∅.
Proof.
  intros H0 Hb. constructor; simpl; try done; try lia.
  - apply (hdr_upd_eq st).
  - set_solver.
Qed.

(** What [malloc] needs for a request. *)
Lemma nunits_facts nbytes :
  0 <= nbytes < 2 ^ 31 - 15 →
  let nunits := u32 (u32 (nbytes + HDR - 1) / HDR + 1) in
  0 < nunits ∧ HDR * nunits < 2 ^ 31 ∧ nbytes <= HDR * (nunits - 1) < nbytes + HDR.
Proof.
  intros Hn nunits. assert (E : nunits = (nbytes + 7) / 8 + 1).
  { unfold nunits, HDR. rewrite (u32_small (nbytes + 8 - 1)) by lia. replace (nbytes + 8 - 1) with (nbytes + 7) by lia.
    apply u32_small. pose proof (Z.div_le_upper_bound (nbytes + 7) 8 (2 ^ 31)). pose proof (Z.div_pos (nbytes + 7) 8). lia. }
  pose proof (Z.div_mod (nbytes + 7) 8). pose proof (Z.mod_pos_bound (nbytes + 7) 8). unfold HDR. lia.
Qed.

(** The kernel does not grow the memory by what a request of [nbytes] needs, or
    by the least that [morecore] asks for. *)
Definition refused (brk nbytes : Z) : Prop := ∃ n, nbytes < n < Z.max 32769 (nbytes + 2 * HDR) ∧ grow brk n = None.

Lemma umalloc_run st fl A nbytes fuel ffuel :
  heap_ok st fl A → 0 <= nbytes < 2 ^ 31 - 15 → (2 * length fl + 3 <= fuel)%nat → (length fl + 2 <= ffuel)%nat →
  malloc fuel ffuel nbytes st = Ok 0 st ∧ refused (u_brk st) nbytes ∨
  ∃ a n st' fl', malloc fuel ffuel nbytes st = Ok (a + HDR) st' ∧ nbytes <= HDR * (n - 1) < nbytes + HDR ∧ A !! a = None ∧
    heap_ok st' fl' (<[a := n]> A) ∧ spends st st' fl fl' n.
Proof.
  intros Hok Hn Hf Hff. destruct (nunits_facts _ Hn) as (Hu & Hmax & Hle & Hlt). unfold malloc.
  destruct (round_facts _ _ _ Hok) as (nf & rest & _ & _ & _ & _ & _ & H0).
  pose proof (H0 _ _ (list_elem_of_here _ _)) as Hf0.
  cbv zeta. rewrite bind_kgets, (proj2 (Z.eqb_neq (u_freep st) 0) Hf0), bind_mret, (bind_ok _ _ _ _ _ (ptr_run st _ Hf0)).
  destruct (malloc_loop_run st fl A _ fuel ffuel Hok Hu Hmax Hf Hff) as [[R Hg]|(a & st' & fl' & R & Hsp & Hok' & HA)]; [left|right].
  { split; [done|]. eexists. split; [|exact Hg]. unfold HDR in *. lia. }
  by exists a, (u32 (u32 (nbytes + HDR - 1) / HDR + 1)), st', fl'.
Qed.

(** Before the first call [malloc] behaves as on the initialised heap. *)
Lemma malloc_first st fuel ffuel nbytes :
  u_freep st = 0 → base ≠ 0 → malloc fuel ffuel nbytes st = malloc fuel ffuel nbytes (init_heap st).
Proof.
  intros Hf Hb. unfold malloc. cbv zeta. rewrite !bind_kgets, Hf. change (u_freep (init_heap st)) with base.
  rewrite (proj2 (Z.eqb_neq base 0) Hb), bind_mret.
  assert (R : (set_ptr base base;; kmodify (set_u_freep base);; set_size base 0;; mret base) st = Ok base (init_heap st)).
  { unfold mbind, K_bind. simpl. unfold set_ptr, set_size, kmodify. simpl. do 2 f_equal. unfold init_heap, upd, set_u_freep, set_u_hdrs.
    simpl. unfold hdr. simpl. rewrite lookup_insert_eq. simpl. by rewrite insert_insert_eq. }
  by rewrite (bind_ok _ _ _ _ _ R).
Qed.


(** A request of nearly 2^32 bytes wraps around: it is served like a request of none. *)
Lemma malloc_wraps fuel ffuel nbytes st :
  2 ^ 32 - 7 <= nbytes < 2 ^ 32 → malloc fuel ffuel nbytes st = malloc fuel ffuel 0 st.
Proof.
  intros Hn. unfold malloc. replace (u32 (nbytes + HDR - 1)) with (u32 (nbytes + HDR - 1 - 2 ^ 32)).
  - rewrite (u32_small (nbytes + HDR - 1 - 2 ^ 32)), (u32_small (0 + HDR - 1)) by (unfold HDR; lia).
    by rewrite (Z.div_small (nbytes + HDR - 1 - 2 ^ 32)) by (unfold HDR; lia).
  - unfold u32. rewrite <- (Z.mod_add (nbytes + HDR - 1 - 2 ^ 32) 1 (2 ^ 32)) by done. f_equal. lia.
Qed.

End umalloc.

(** ** A sample heap *)

Definition sample_grow (brk n : Z) : option Z := if (0 <? n) && (brk + n <=? 2 ^ 31) then Some (brk + n) else None.

Lemma sample_grow_below : ∀ brk n brk', 0 < n → sample_grow brk n = Some brk' → brk' = brk + n ∧ brk + n <= 2 ^ 31.
Proof.
  intros brk n brk' Hn. unfold sample_grow. destruct (0 <? n); [|done]. simpl.
  destruct (Z.leb_spec (brk + n) (2 ^ 31)); [|done]. intros [= <-]. done.
Qed.

Definition sample_heap : uheap := Uheap ∅ 0 16384.

