(* ===== verification/Mkfs.v ===== *)
(** * Making a file system

    Models [mkfs.c], which builds the disk image the kernel boots from.  The image
    is the list of its blocks; [exit(1)] and a failed [assert] end the program
    (the outcome [Panic]).  A host file is read 512 bytes at a time.  The theorems
    connect the image to what [Inode.v] assumes of a disk. *)

From S2P Require Import Prelude Spinlock CString State PrioLock Sched Proc Sleep Sleeplock Pipe FsState Bio Bytes Log Fs FsTx File Inode.

(** ** Parameters of the image *)

Definition FSSIZE : Z := 1000.
Definition NINODES : Z := 200.
Definition nbitmap : Z := FSSIZE / (BSIZE * 8) + 1.
Definition ninodeblocks : Z := NINODES / IPB + 1.
Definition nlog : Z := LOGSIZE.
Definition nmeta : Z := 2 + nlog + ninodeblocks + nbitmap.
Definition nblocks : Z := FSSIZE - nmeta.

(** Intel byte order: the bytes are stored one by one and read as an integer of the
    host, which is taken to be little-endian too. *)
Definition xshort (x : Z) : Z := rd 2 (wr 2 x (replicate 2 0) 0) 0.
Definition xint (x : Z) : Z := rd 4 (wr 4 x (replicate 4 0) 0) 0.

(** [sb] as [main] fills it in. *)
Definition mk_sb : superblock :=
  Superblock (xint FSSIZE) (xint nblocks) (xint NINODES) (xint nlog) (xint 2) (xint (2 + nlog))
    (xint (2 + nlog + ninodeblocks)).

(** ** State *)

Record image := Image { im_disk : list (list Z); im_freeinode : Z; im_freeblock : Z }.
Definition set_im_disk (v : list (list Z)) (s : image) : image := Image v (im_freeinode s) (im_freeblock s).
Definition set_im_freeinode (v : Z) (s : image) : image := Image (im_disk s) v (im_freeblock s).
Definition set_im_freeblock (v : Z) (s : image) : image := Image (im_disk s) (im_freeinode s) v.

Notation M := (K image).

(** ** Blocks and inodes of the image *)

(** Writing behind the end of the image makes it longer. *)
Definition wsect (sec : Z) (buf : list Z) : M unit :=
  kmodify (λ st,
    let n := Z.to_nat sec in let d := im_disk st in
    set_im_disk (if (n <? length d)%nat then <[n := buf]> d else d ++ replicate (n - length d) zeros ++ [buf]) st).

Definition rsect (sec : Z) : M (list Z) :=
  d ← kgets im_disk;
  match d !! Z.to_nat sec with Some b => mret b | None => kpanic "read" end.

(** [struct dinode] is the inode without what the kernel adds to it. *)
Definition blank_dinode (inum : Z) : inode := Inode 1 inum 0 1 0 0 0 0 0 (replicate 13 0).

Definition winode (inum : Z) (ip : inode) : M unit :=
  let bn := IBLOCK inum mk_sb in
  buf ← rsect bn;
  wsect bn (write_dinode ip buf (dinode_off inum)).

Definition rinode (inum : Z) : M inode :=
  let bn := IBLOCK inum mk_sb in
  buf ← rsect bn;
  mret (read_dinode buf (dinode_off inum) (blank_dinode inum)).

Definition mk_ialloc (type : Z) : M Z :=
  inum ← kgets im_freeinode;
  kmodify (set_im_freeinode (u32 (inum + 1)));;
  winode inum (set_i_size (xint 0) (set_i_nlink (xshort 1) (set_i_type (xshort type) (blank_dinode inum))));;
  mret inum.

(** [freeblock++] *)
Definition next_block : M Z :=
  b ← kgets im_freeblock;
  kmodify (set_im_freeblock (u32 (b + 1)));;
  mret b.

(** The bits of the first [used] blocks. *)
Fixpoint set_bits (used : nat) (buf : list Z) : list Z :=
  match used with
  | O => buf
  | S i =>
      let buf := set_bits i buf in
      <[(i / 8)%nat := u8 (Z.lor (buf !!! (i / 8)%nat) (Z.shiftl 1 (Z.of_nat (i mod 8))))]> buf
  end.

Definition mk_balloc (used : Z) : M unit :=
  if used <? BSIZE * 8 then wsect (sb_bmapstart mk_sb) (set_bits (Z.to_nat used) zeros)
  else kpanic "assert".

(** ** [iappend] *)

(** The indirect block with the entry at offset [o] allocated if needed. *)
Definition entry_block (ib : Z) (o : nat) : M (list Z) :=
  indirect ← rsect ib;
  if rd 4 indirect o =? 0 then
    b ← next_block;
    let indirect := wr 4 (xint b) indirect o in
    wsect ib indirect;;
    mret indirect
  else mret indirect.

(** The block of the image that holds block [fbn] of the file, allocated if
    needed. *)
Definition file_block (fbn : Z) (din : inode) : M (Z * inode) :=
  if fbn <? NDIRECT then
    din ← (if xint (i_addrs din !!! Z.to_nat fbn) =? 0 then
             b ← next_block;
             mret (set_i_addrs (<[Z.to_nat fbn := xint b]> (i_addrs din)) din)
           else mret din);
    mret (xint (i_addrs din !!! Z.to_nat fbn), din)
  else
    din ← (if xint (i_addrs din !!! Z.to_nat NDIRECT) =? 0 then
             b ← next_block;
             mret (set_i_addrs (<[Z.to_nat NDIRECT := xint b]> (i_addrs din)) din)
           else mret din);
    let ib := xint (i_addrs din !!! Z.to_nat NDIRECT) in
    let o := Z.to_nat (4 * (fbn - NDIRECT)) in
    indirect ← entry_block ib o;
    mret (xint (rd 4 indirect o), din).

Fixpoint iappend_loop (fuel : nat) (din : inode) (off : Z) (p : list Z) : M (inode * Z) :=
  match fuel with
  | O => knofuel
  | S fuel' =>
      if 0 <? Z.of_nat (length p) then
        let fbn := off / BSIZE in
        if negb (fbn <? MAXFILE) then kpanic "assert" else
        r ← file_block fbn din;
        let '(x, din) := r in
        let n1 := Z.min (Z.of_nat (length p)) ((fbn + 1) * BSIZE - off) in
        buf ← rsect x;
        wsect x (blit buf (Z.to_nat (off - fbn * BSIZE)) (take (Z.to_nat n1) p));;
        iappend_loop fuel' din (u32 (off + n1)) (drop (Z.to_nat n1) p)
      else mret (din, off)
  end.

Definition iappend (inum : Z) (p : list Z) : M unit :=
  din ← rinode inum;
  let off := xint (i_size din) in
  r ← iappend_loop (S (length p)) din off p;
  let '(din, off) := r in
  winode inum (set_i_size (xint off) din).

(** ** [main] *)

(** A directory entry with a name of at most [DIRSIZ] characters. *)
Definition mk_dirent (inum : Z) (name : list Z) : M (list Z) :=
  match strncpy_bytes (Z.to_nat DIRSIZ) (name ++ [0]) with
  | Some n => mret (dirent (xshort inum) n)
  | None => kundef "strncpy"
  end.

(** [while ((cc = read(fd, buf, sizeof(buf))) > 0) iappend(inum, buf, cc)] *)
Fixpoint copy_file (fuel : nat) (inum : Z) (content : list Z) : M unit :=
  match fuel with
  | O => knofuel
  | S fuel' =>
      let buf := take (Z.to_nat BSIZE) content in
      if 0 <? Z.of_nat (length buf) then
        iappend inum buf;;
        copy_file fuel' inum (drop (Z.to_nat BSIZE) content)
      else mret tt
  end.

Definition CH_SLASH : Z := 47.
Definition CH_UNDER : Z := 95.

(** Skip leading _ in the name. *)
Definition image_name (name : list Z) : list Z :=
  match name with c :: n => if c =? CH_UNDER then n else name | [] => [] end.

(** One of the files of the command line, with its contents. *)
Definition add_file (file : list Z * list Z) : M unit :=
  let '(name, content) := file in
  if bool_decide (CH_SLASH ∈ name) then kpanic "assert" else
  let name := image_name name in
  inum ← mk_ialloc T_FILE;
  de ← mk_dirent inum name;
  iappend ROOTINO de;;
  copy_file (S (length content)) inum content.

Fixpoint add_files (files : list (list Z * list Z)) : M unit :=
  match files with
  | [] => mret tt
  | f :: fs => add_file f;; add_files fs
  end.

(** [struct superblock] in its block. *)
Definition sb_block : list Z :=
  wr_words [sb_size mk_sb; sb_nblocks mk_sb; sb_ninodes mk_sb; sb_nlog mk_sb; sb_logstart mk_sb; sb_inodestart mk_sb;
    sb_bmapstart mk_sb] zeros 0.

Definition fix_root : M unit :=
  din ← rinode ROOTINO;
  let off := xint (i_size din) in
  let off := u32 ((off / BSIZE + 1) * BSIZE) in
  winode ROOTINO (set_i_size (xint off) din).

Definition mkfs (files : list (list Z * list Z)) : M unit :=
  kmodify (set_im_freeblock nmeta);;
  kfor_ (seq 0 (Z.to_nat FSSIZE)) (λ i, wsect (Z.of_nat i) zeros);;
  wsect 1 sb_block;;
  rootino ← mk_ialloc T_DIR;
  if negb (rootino =? ROOTINO) then kpanic "assert" else
  de ← mk_dirent rootino (Printf.str ".");
  iappend rootino de;;
  de ← mk_dirent rootino (Printf.str "..");
  iappend rootino de;;
  add_files files;;
  fix_root;;
  freeblock ← kgets im_freeblock;
  mk_balloc freeblock.

(** The program starts with an empty image. *)
Definition empty_image : image := Image [] 1 0.

(** ** Files of the image *)

Lemma xint_small x : 0 ≤ x < 2 ^ 32 → xint x = x.
Proof. intros H. unfold xint. rewrite rd_wr_eq by done. by apply Z.mod_small. Qed.

Lemma xshort_small x : 0 ≤ x < 2 ^ 16 → xshort x = x.
Proof. intros H. unfold xshort. rewrite rd_wr_eq by done. by apply Z.mod_small. Qed.

(** The blocks of a file: its indirect block (-1) and its data blocks. *)
Definition slot (D : Z → list Z) (ino : inode) (j : Z) : Z := if j =? -1 then iblk ino else addr_of D ino j.

(** A file under construction: its inode, its bytes, how many data blocks it has and
    whether it has its indirect block. *)
Record entry := Entry { e_ino : inode; e_bytes : list Z; e_m : Z; e_ib : bool }.

Record file_ok (D : Z → list Z) (fb : Z) (e : entry) : Prop := FileOk {
  fk_len : length (i_addrs (e_ino e)) = 13%nat;
  fk_m : 0 ≤ e_m e ≤ MAXFILE;
  fk_addr : ∀ bn, 0 ≤ bn < MAXFILE → addr_of D (e_ino e) bn ≠ 0 ↔ bn < e_m e;
  fk_iblk : iblk (e_ino e) ≠ 0 ↔ e_ib e = true;
  fk_indirect : NDIRECT < e_m e → e_ib e = true;
  fk_range : ∀ j, -1 ≤ j < MAXFILE → slot D (e_ino e) j ≠ 0 → nmeta ≤ slot D (e_ino e) j < fb;
  fk_fit : Z.of_nat (length (e_bytes e)) ≤ MAXFILE * BSIZE;
  fk_bytes : ∀ k, 0 ≤ k < MAXFILE * BSIZE → byte_at D (e_ino e) k = default 0 (e_bytes e !! Z.to_nat k)
}.

(** The image under construction: [fb] is the next free block. *)
Record built (D : Z → list Z) (fb : Z) (E : list entry) : Prop := Built {
  bu_fb : nmeta ≤ fb ≤ FSSIZE;
  bu_len : ∀ b, 0 ≤ b < FSSIZE → length (D b) = Z.to_nat BSIZE;
  bu_zero : ∀ b, fb ≤ b < FSSIZE → D b = zeros;
  bu_file : ∀ k e, E !! k = Some e → file_ok D fb e;
  bu_inj : ∀ k k' e e' j j', E !! k = Some e → E !! k' = Some e' → -1 ≤ j < MAXFILE → -1 ≤ j' < MAXFILE →
      slot D (e_ino e) j = slot D (e_ino e') j' → slot D (e_ino e) j ≠ 0 → k = k' ∧ j = j'
}.

Lemma slot_addr D ino bn : 0 ≤ bn → slot D ino bn = addr_of D ino bn.
Proof. intros. unfold slot. by rewrite (proj2 (Z.eqb_neq _ _)) by lia. Qed.

(** Blocks that do not belong to a file do not matter to it. *)
Lemma addr_of_frame D D' ino bn : (iblk ino ≠ 0 → D' (iblk ino) = D (iblk ino)) → addr_of D' ino bn = addr_of D ino bn.
Proof. intros H. unfold addr_of. case_match; [done|]. destruct (Z.eqb_spec (iblk ino) 0); [done|]. by rewrite H. Qed.

Lemma slot_frame D D' ino j : (iblk ino ≠ 0 → D' (iblk ino) = D (iblk ino)) → slot D' ino j = slot D ino j.
Proof. intros H. unfold slot. case_match; [done|]. by apply addr_of_frame. Qed.

Lemma byte_at_frame D D' ino k :
  (∀ j, -1 ≤ j < MAXFILE → slot D ino j ≠ 0 → D' (slot D ino j) = D (slot D ino j)) → 0 ≤ k < MAXFILE * BSIZE →
  byte_at D' ino k = byte_at D ino k.
Proof.
  intros H Hk. unfold byte_at, fblock. rewrite MAXFILE_eq in *. unfold BSIZE in *.
  rewrite (addr_of_frame D D') by (intros Hi; apply (H (-1)); [lia|done]).
  destruct (Z.eqb_spec (addr_of D ino (k / 512)) 0) as [|Hne]; [done|].
  pose proof (Z.div_pos k 512). pose proof (Z.div_lt_upper_bound k 512 140).
  specialize (H (k / 512)). rewrite slot_addr in H by lia. by rewrite H by (done || lia).
Qed.

Lemma file_ok_frame D D' fb fb' e :
  fb ≤ fb' → (∀ j, -1 ≤ j < MAXFILE → slot D (e_ino e) j ≠ 0 → D' (slot D (e_ino e) j) = D (slot D (e_ino e) j)) →
  file_ok D fb e → file_ok D' fb' e.
Proof.
  intros Hfb H [F1 F2 F3 F4 F5 F6 F7 F8].
  assert (Hi : iblk (e_ino e) ≠ 0 → D' (iblk (e_ino e)) = D (iblk (e_ino e))) by (apply (H (-1)); rewrite MAXFILE_eq; lia).
  split; try done.
  - intros bn Hbn. rewrite (addr_of_frame D D') by done. by apply F3.
  - intros j Hj. rewrite (slot_frame D D') by done. intros Hs. specialize (F6 j Hj Hs). lia.
  - intros k Hk. rewrite (byte_at_frame D D') by done. by apply F8.
Qed.

(** One file changes: its old blocks may be written, new ones come from the free
    ones. *)
Lemma built_step D fb E k e D' fb' e' :
  built D fb E → E !! k = Some e → fb ≤ fb' ≤ FSSIZE →
  (∀ b, D' b = D b ∨ ∃ j, -1 ≤ j < MAXFILE ∧ slot D (e_ino e) j = b ∧ b ≠ 0) →
  (∀ b, 0 ≤ b < FSSIZE → length (D' b) = Z.to_nat BSIZE) →
  file_ok D' fb' e' →
  (∀ j, -1 ≤ j < MAXFILE → slot D' (e_ino e') j = slot D (e_ino e) j ∨ fb ≤ slot D' (e_ino e') j) →
  (∀ j j', -1 ≤ j < MAXFILE → -1 ≤ j' < MAXFILE → slot D' (e_ino e') j = slot D' (e_ino e') j' →
     slot D' (e_ino e') j ≠ 0 → j = j') →
  built D' fb' (<[k := e']> E).
Proof.
  intros [B1 B2 B3 B4 B5] Hk Hfb Hch Hlen Hok Hnew Hinj.
  assert (Hother : ∀ k2 e2 j, E !! k2 = Some e2 → k2 ≠ k → -1 ≤ j < MAXFILE → slot D (e_ino e2) j ≠ 0 →
    D' (slot D (e_ino e2) j) = D (slot D (e_ino e2) j)).
  { intros k2 e2 j H2 Hne Hj Hs. destruct (Hch (slot D (e_ino e2) j)) as [?|(j' & Hj' & Ej & _)]; [done|].
    destruct (B5 k2 k e2 e j j' H2 Hk Hj Hj'); [by rewrite Ej|done|]. done. }
  assert (Hslot : ∀ k2 e2 j, E !! k2 = Some e2 → k2 ≠ k → slot D' (e_ino e2) j = slot D (e_ino e2) j).
  { intros k2 e2 j H2 Hne. apply slot_frame. intros Hi. apply (Hother k2 e2 (-1) H2 Hne); [rewrite MAXFILE_eq; lia|done]. }
  split.
  - lia.
  - done.
  - intros b Hb. destruct (Hch b) as [->|(j & Hj & <- & Hs)]; [apply B3; lia|].
    pose proof (fk_range _ _ _ (B4 _ _ Hk) j Hj Hs). lia.
  - intros k2 e2 [(<- & <- & _)|[Hne H2]]%list_lookup_insert_Some; [done|].
    eapply file_ok_frame; [|by intros j Hj; eapply Hother|by eapply B4]. lia.
  - assert (Hcross : ∀ k2 e2 j j2, E !! k2 = Some e2 → k2 ≠ k → -1 ≤ j < MAXFILE → -1 ≤ j2 < MAXFILE →
      slot D' (e_ino e') j = slot D (e_ino e2) j2 → slot D (e_ino e2) j2 ≠ 0 → False).
    { intros k2 e2 j j2 H2 Hne Hj Hj2 Es Hs. pose proof (fk_range _ _ _ (B4 _ _ H2) j2 Hj2 Hs).
      destruct (Hnew j Hj) as [En|En]; [|lia]. destruct (B5 k2 k e2 e j2 j H2 Hk Hj2 Hj); [by rewrite <- Es, En|done|done]. }
    intros k1 k2 e1 e2 j1 j2 [(<- & <- & _)|[Hne1 H1]]%list_lookup_insert_Some [(<- & <- & _)|[Hne2 H2]]%list_lookup_insert_Some Hj1 Hj2 Es Hs.
    + split; [done|by apply Hinj].
    + rewrite (Hslot k2 e2) in Es by done. destruct (Hcross k2 e2 j1 j2); try done. by rewrite <- Es.
    + rewrite (Hslot k1 e1) in Es, Hs by done. by destruct (Hcross k1 e1 j2 j1).
    + rewrite (Hslot k1 e1), (Hslot k2 e2) in Es by done. rewrite (Hslot k1 e1) in Hs by done. by eapply B5.
Qed.

(** *** Allocating a block *)

Definition put_addr (k : Z) (v : Z) (ino : inode) : inode := set_i_addrs (<[Z.to_nat k := v]> (i_addrs ino)) ino.

Lemma iblk_put_addr k v ino :
  0 ≤ k → length (i_addrs ino) = 13%nat → iblk (put_addr k v ino) = if k =? 12 then v else iblk ino.
Proof.
  intros Hk Hl. unfold iblk, put_addr. simpl. destruct (Z.eqb_spec k 12) as [->|Hne].
  - rewrite list_lookup_total_insert_eq; [done|]. rewrite Hl. simpl. lia.
  - apply list_lookup_total_insert_ne. lia.
Qed.

Lemma addr_of_put_addr D k v ino bn :
  0 ≤ k < NDIRECT → length (i_addrs ino) = 13%nat → 0 ≤ bn →
  addr_of D (put_addr k v ino) bn = if bn =? k then v else addr_of D ino bn.
Proof.
  intros Hk Hl Hbn. unfold addr_of. rewrite iblk_put_addr by (done || lia).
  unfold NDIRECT in *. rewrite (proj2 (Z.eqb_neq k 12)) by lia.
  destruct (Z.ltb_spec bn 12); [|by rewrite (proj2 (Z.eqb_neq bn k)) by lia].
  unfold put_addr. simpl. destruct (Z.eqb_spec bn k) as [->|Hne].
  - apply list_lookup_total_insert_eq. lia.
  - apply list_lookup_total_insert_ne. lia.
Qed.

(** A block that was missing and one that holds zeros read the same. *)
Lemma byte_at_ext D D' ino ino' k :
  (∀ bn, 0 ≤ bn < MAXFILE → fblock D' ino' bn = fblock D ino bn) → 0 ≤ k < MAXFILE * BSIZE → byte_at D' ino' k = byte_at D ino k.
Proof.
  intros H Hk. unfold byte_at. rewrite H; [done|]. rewrite MAXFILE_eq in *. unfold BSIZE in *.
  pose proof (Z.div_pos k 512). pose proof (Z.div_lt_upper_bound k 512 140). lia.
Qed.

Lemma alloc_direct D fb E k ino by_ m ib :
  built D fb E → E !! k = Some (Entry ino by_ m ib) → m < NDIRECT → fb < FSSIZE →
  built D (fb + 1) (<[k := Entry (put_addr m fb ino) by_ (m + 1) ib]> E).
Proof.
  intros HB Hk Hm Hfb. pose proof HB as [B1 B2 B3 B4 _]. pose proof (B4 _ _ Hk) as [F1 F2 F3 F4 F5 F6 F7 F8]. cbn [e_ino e_bytes e_m e_ib] in *.
  assert (Hnm : nmeta = 59) by done. assert (Hmf := MAXFILE_eq). unfold NDIRECT in Hm.
  assert (Ha : ∀ bn, 0 ≤ bn → addr_of D (put_addr m fb ino) bn = if bn =? m then fb else addr_of D ino bn).
  { intros bn Hbn. apply addr_of_put_addr; unfold NDIRECT; done || lia. }
  assert (Hi : iblk (put_addr m fb ino) = iblk ino).
  { rewrite iblk_put_addr by (done || lia). by rewrite (proj2 (Z.eqb_neq m 12)) by lia. }
  assert (Hs : ∀ j, -1 ≤ j → slot D (put_addr m fb ino) j = if j =? m then fb else slot D ino j).
  { intros j Hj. unfold slot. destruct (Z.eqb_spec j (-1)) as [->|]; [by rewrite (proj2 (Z.eqb_neq (-1) m)) by lia|]. apply Ha. lia. }
  assert (Hm0 : addr_of D ino m = 0).
  { destruct (decide (addr_of D ino m = 0)); [done|]. assert (m < m) by (apply F3; [lia|done]). lia. }
  eapply (built_step D fb); [done|done|lia|by left|done| |cbn [e_ino]..].
  - split; cbn [e_ino e_bytes e_m e_ib]; try done.
    + simpl. by rewrite length_insert.
    + lia.
    + intros bn Hbn. rewrite Ha by lia. destruct (Z.eqb_spec bn m); [lia|]. rewrite F3 by done. lia.
    + by rewrite Hi.
    + unfold NDIRECT. lia.
    + intros j Hj. rewrite Hs by lia. destruct (j =? m); [lia|]. intros H. specialize (F6 j Hj H). lia.
    + intros b Hb. rewrite <- F8 by done. apply byte_at_ext; [|done]. intros bn Hbn. unfold fblock. rewrite Ha by lia.
      destruct (Z.eqb_spec bn m) as [->|]; [|done]. rewrite Hm0, (proj2 (Z.eqb_neq fb 0)) by lia. apply B3. lia.
  - intros j Hj. rewrite Hs by lia. destruct (j =? m); [right; lia|by left].
  - intros j j' Hj Hj'. rewrite !Hs by lia. destruct (Z.eqb_spec j m), (Z.eqb_spec j' m); intros E1 Hne; try lia.
    + rewrite E1 in Hne. specialize (F6 j' Hj' Hne). lia.
    + specialize (F6 j Hj Hne). lia.
    + by destruct (bu_inj _ _ _ HB k k _ _ j j' Hk Hk Hj Hj' E1 Hne).
Qed.

Lemma alloc_indirect D fb E k ino by_ m :
  built D fb E → E !! k = Some (Entry ino by_ m false) → fb < FSSIZE →
  built D (fb + 1) (<[k := Entry (put_addr NDIRECT fb ino) by_ m true]> E).
Proof.
  intros HB Hk Hfb. pose proof HB as [B1 B2 B3 B4 _]. pose proof (B4 _ _ Hk) as [F1 F2 F3 F4 F5 F6 F7 F8]. cbn [e_ino e_bytes e_m e_ib] in *.
  assert (Hnm : nmeta = 59) by done. assert (Hmf := MAXFILE_eq).
  assert (Hi0 : iblk ino = 0) by (destruct (decide (iblk ino = 0)); [done|]; by apply F4 in n).
  assert (Hi : iblk (put_addr NDIRECT fb ino) = fb) by (by rewrite iblk_put_addr).
  assert (Ha : ∀ bn, 0 ≤ bn < MAXFILE → addr_of D (put_addr NDIRECT fb ino) bn = addr_of D ino bn).
  { intros bn Hbn. unfold addr_of. rewrite Hi, Hi0. unfold NDIRECT. destruct (Z.ltb_spec bn 12).
    - unfold put_addr. simpl. apply list_lookup_total_insert_ne. unfold NDIRECT. lia.
    - rewrite (proj2 (Z.eqb_neq fb 0)), Z.eqb_refl by lia. rewrite B3 by lia. apply rd_zeros. unfold BSIZE. lia. }
  assert (Hs : ∀ j, -1 ≤ j < MAXFILE → slot D (put_addr NDIRECT fb ino) j = if j =? -1 then fb else slot D ino j).
  { intros j Hj. unfold slot. destruct (Z.eqb_spec j (-1)); [done|]. apply Ha. lia. }
  eapply (built_step D fb); [done|done|lia|by left|done| |cbn [e_ino]..].
  - split; cbn [e_ino e_bytes e_m e_ib]; try done.
    + simpl. by rewrite length_insert.
    + intros bn Hbn. rewrite Ha by done. by apply F3.
    + rewrite Hi. split; [done|]. lia.
    + intros j Hj. rewrite Hs by lia. destruct (j =? -1); [lia|]. intros H. specialize (F6 j Hj H). lia.
    + intros b Hb. rewrite <- F8 by done. apply byte_at_ext; [|done]. intros bn Hbn. unfold fblock. by rewrite Ha by lia.
  - intros j Hj. rewrite Hs by lia. destruct (j =? -1); [right; lia|by left].
  - intros j j' Hj Hj'. rewrite !Hs by lia. destruct (Z.eqb_spec j (-1)), (Z.eqb_spec j' (-1)); intros E1 Hne; try lia.
    + rewrite E1 in Hne. specialize (F6 j' Hj' Hne). lia.
    + specialize (F6 j Hj Hne). lia.
    + by destruct (bu_inj _ _ _ HB k k _ _ j j' Hk Hk Hj Hj' E1 Hne).
Qed.

Lemma alloc_entry D fb E k ino by_ m :
  built D fb E → E !! k = Some (Entry ino by_ m true) → NDIRECT ≤ m < MAXFILE → fb < FSSIZE →
  built (upd D (iblk ino) (wr 4 fb (D (iblk ino)) (Z.to_nat (4 * (m - NDIRECT))))) (fb + 1)
    (<[k := Entry ino by_ (m + 1) true]> E).
Proof.
  intros HB Hk Hm Hfb. pose proof HB as [B1 B2 B3 B4 _]. pose proof (B4 _ _ Hk) as [F1 F2 F3 F4 F5 F6 F7 F8]. cbn [e_ino e_bytes e_m e_ib] in *.
  set (D' := upd _ _ _). assert (Hnm : nmeta = 59) by done. assert (Hmf := MAXFILE_eq). unfold NDIRECT in *. unfold FSSIZE in *.
  assert (Hi0 : iblk ino ≠ 0) by (by apply F4).
  assert (Hir : 59 ≤ iblk ino < fb) by (apply (F6 (-1)); [lia|done]).
  assert (Hother : ∀ bn, 0 ≤ bn < MAXFILE → addr_of D ino bn ≠ iblk ino).
  { intros bn Hbn E1. destruct (bu_inj _ _ _ HB k k _ _ bn (-1) Hk Hk); simpl; try lia; rewrite slot_addr by lia; rewrite E1; done. }
  assert (Ha : ∀ bn, 0 ≤ bn < MAXFILE → addr_of D' ino bn = if bn =? m then fb else addr_of D ino bn).
  { intros bn Hbn. unfold addr_of. unfold NDIRECT. rewrite (proj2 (Z.eqb_neq (iblk ino) 0)) by done.
    destruct (Z.ltb_spec bn 12); [by rewrite (proj2 (Z.eqb_neq bn m)) by lia|]. unfold D', NDIRECT. rewrite upd_eq.
    destruct (Z.eqb_spec bn m) as [->|].
    - rewrite rd_wr_eq by (rewrite B2 by lia; unfold BSIZE; lia). apply Z.mod_small. lia.
    - rewrite rd_wr_ne by lia. done. }
  assert (Hs : ∀ j, -1 ≤ j < MAXFILE → slot D' ino j = if j =? m then fb else slot D ino j).
  { intros j Hj. unfold slot. destruct (Z.eqb_spec j (-1)) as [->|]; [by rewrite (proj2 (Z.eqb_neq (-1) m)) by lia|]. apply Ha. lia. }
  assert (Hm0 : addr_of D ino m = 0).
  { destruct (decide (addr_of D ino m = 0)); [done|]. assert (m < m) by (apply F3; [lia|done]). lia. }
  eapply (built_step D fb); [done|done|unfold FSSIZE; lia| | | |cbn [e_ino]..].
  - intros b. destruct (decide (b = iblk ino)) as [->|]; [right; exists (-1); split_and!; try done; lia|left; by apply upd_ne].
  - intros b Hb. unfold D', upd. case_match; [|by apply B2]. rewrite length_wr. apply B2. lia.
  - split; cbn [e_ino e_bytes e_m e_ib]; try done.
    + lia.
    + intros bn Hbn. rewrite Ha by lia. destruct (Z.eqb_spec bn m); [lia|]. rewrite F3 by done. lia.
    + intros j Hj. rewrite Hs by lia. destruct (j =? m); [lia|]. intros H. specialize (F6 j Hj H). lia.
    + intros b Hb. rewrite <- F8 by done. apply byte_at_ext; [|done]. intros bn Hbn. unfold fblock. rewrite Ha by lia.
      destruct (Z.eqb_spec bn m) as [->|].
      * rewrite Hm0, (proj2 (Z.eqb_neq fb 0)) by lia. simpl. unfold D'. rewrite upd_ne by lia. apply B3. unfold FSSIZE. lia.
      * case_match; [done|]. unfold D'. by rewrite upd_ne by (by apply Hother).
  - intros j Hj. rewrite Hs by lia. destruct (j =? m); [right; lia|by left].
  - intros j j' Hj Hj'. rewrite !Hs by lia. destruct (Z.eqb_spec j m), (Z.eqb_spec j' m); intros E1 Hne; try lia.
    + rewrite E1 in Hne. specialize (F6 j' Hj' Hne). lia.
    + specialize (F6 j Hj Hne). lia.
    + by destruct (bu_inj _ _ _ HB k k _ _ j j' Hk Hk Hj Hj' E1 Hne).
Qed.

(** *** Writing to a block *)

Lemma append_byte D ino by_ c bn o k :
  let x := addr_of D ino bn in let D' := upd D x (blit (D x) o c) in
  length (D x) = Z.to_nat BSIZE → x ≠ 0 → (o + length c ≤ Z.to_nat BSIZE)%nat → Z.of_nat (length by_) = bn * BSIZE + Z.of_nat o →
  (∀ j, 0 ≤ j < MAXFILE → addr_of D' ino j = addr_of D ino j) →
  (∀ j, 0 ≤ j < MAXFILE → addr_of D ino j = x → j = bn) →
  0 ≤ bn → 0 ≤ k < MAXFILE * BSIZE → byte_at D ino k = default 0 (by_ !! Z.to_nat k) →
  byte_at D' ino k = default 0 ((by_ ++ c) !! Z.to_nat k).
Proof.
  intros x D' Hlen Hx Ho Hpos Hd Hinj Hbn Hk. unfold byte_at, fblock. rewrite MAXFILE_eq in *. unfold BSIZE in *.
  pose proof (Z.div_mod k 512 ltac:(lia)) as Hdm. pose proof (Z.mod_pos_bound k 512 ltac:(lia)) as Hmb.
  assert (Hkr : 0 ≤ k / 512 < 140) by (pose proof (Z.div_pos k 512); pose proof (Z.div_lt_upper_bound k 512 140); lia).
  rewrite Hd by done. destruct (decide (addr_of D ino (k / 512) = x)) as [E|E].
  - pose proof (Hinj _ Hkr E) as Ebn. rewrite E, (proj2 (Z.eqb_neq x 0)) by done. unfold D'. rewrite upd_eq.
    rewrite !list_lookup_total_alt, lookup_blit by lia. intros Hold.
    destruct (decide (o ≤ Z.to_nat (k mod 512) < o + length c)%nat) as [Hin|Hout].
    + rewrite lookup_app_r by lia. replace (Z.to_nat k - length by_)%nat with (Z.to_nat (k mod 512) - o)%nat by lia.
      destruct (lookup_lt_is_Some_2 c (Z.to_nat (k mod 512) - o)) as [v ->]; [lia|done].
    + rewrite Hold. destruct (decide (Z.to_nat k < length by_)%nat); [by rewrite lookup_app_l|].
      rewrite !lookup_ge_None_2 by (rewrite ?length_app; lia). done.
  - assert (Hne : ¬ (length by_ ≤ Z.to_nat k < length by_ + length c)%nat).
    { intros Hr. apply E. replace (k / 512) with bn; [done|]. apply (Z.div_unique_pos _ _ _ (k - bn * 512)); lia. }
    intros Hold. replace (default 0 ((by_ ++ c) !! Z.to_nat k)) with (default 0 (by_ !! Z.to_nat k)).
    + rewrite <- Hold. case_match; [done|]. unfold D'. by rewrite upd_ne.
    + destruct (decide (Z.to_nat k < length by_)%nat); [by rewrite lookup_app_l|].
      by rewrite !lookup_ge_None_2 by (rewrite ?length_app; lia).
Qed.

Lemma write_block D fb E k ino by_ m ib bn o c :
  built D fb E → E !! k = Some (Entry ino by_ m ib) → 0 ≤ bn < m → (o + length c ≤ Z.to_nat BSIZE)%nat →
  Z.of_nat (length by_) = bn * BSIZE + Z.of_nat o →
  let x := addr_of D ino bn in
  nmeta ≤ x < fb ∧ built (upd D x (blit (D x) o c)) fb (<[k := Entry ino (by_ ++ c) m ib]> E).
Proof.
  intros HB Hk Hbn Ho Hpos x. pose proof HB as [B1 B2 B3 B4 _]. pose proof (B4 _ _ Hk) as [F1 F2 F3 F4 F5 F6 F7 F8].
  cbn [e_ino e_bytes e_m e_ib] in *. set (D' := upd _ _ _). assert (Hnm : nmeta = 59) by done. assert (Hmf := MAXFILE_eq).
  assert (Hx0 : x ≠ 0) by (apply F3; lia).
  assert (Hxr : nmeta ≤ x < fb) by (unfold x; rewrite <- (slot_addr D ino bn) by lia; apply F6; [lia|]; by rewrite slot_addr by lia).
  assert (Hxs : ∀ j, -1 ≤ j < MAXFILE → slot D ino j = x → j = bn).
  { intros j Hj E1. destruct (bu_inj _ _ _ HB k k _ _ j bn Hk Hk) as [_ ->]; simpl; try lia; try done; by rewrite ?(slot_addr D ino bn) by lia. }
  assert (Hi : iblk ino ≠ 0 → D' (iblk ino) = D (iblk ino)).
  { intros Hi0. apply upd_ne. intros E1. specialize (Hxs (-1) ltac:(lia) E1). lia. }
  assert (Hd : ∀ j, addr_of D' ino j = addr_of D ino j) by (intros j; by apply addr_of_frame).
  assert (Hs : ∀ j, slot D' ino j = slot D ino j) by (intros j; by apply slot_frame).
  assert (Hlx : length (D x) = Z.to_nat BSIZE) by (apply B2; lia).
  split; [done|]. eapply (built_step D fb); [done|done|lia| | | |cbn [e_ino]..].
  - intros b. destruct (decide (b = x)) as [->|]; [right; exists bn; split_and!; [lia..|by apply slot_addr; lia|done]|left; by apply upd_ne].
  - intros b Hb. unfold D', upd. case_match; [|by apply B2]. rewrite length_blit; rewrite Hlx; done.
  - split; cbn [e_ino e_bytes e_m e_ib]; try done.
    + intros j Hj. rewrite Hd. by apply F3.
    + intros j Hj. rewrite Hs. by apply F6.
    + rewrite length_app. rewrite MAXFILE_eq in *. unfold BSIZE in *. lia.
    + intros b Hb. eapply append_byte; try done; [|lia|by apply F8].
      intros j Hj E1. apply Hxs; [lia|]. by rewrite slot_addr by lia.
  - intros j Hj. left. apply Hs.
  - intros j j' Hj Hj'. rewrite !Hs. intros E1 Hne. by destruct (bu_inj _ _ _ HB k k _ _ j j' Hk Hk Hj Hj' E1 Hne).
Qed.

(** ** Runs of the program *)

(** The image holds the blocks [D]; the counters are [fi] and [fb]. *)
Record img (st : image) (D : Z → list Z) (fi fb : Z) : Prop := Img {
  im_len : length (im_disk st) = Z.to_nat FSSIZE;
  im_at : ∀ b, 0 ≤ b < FSSIZE → im_disk st !! Z.to_nat b = Some (D b);
  im_fi : im_freeinode st = fi;
  im_fb : im_freeblock st = fb
}.

Lemma rsect_run st D fi fb b : img st D fi fb → 0 ≤ b < FSSIZE → rsect b st = Ok (D b) st.
Proof. intros [_ H _ _] Hb. unfold rsect. rewrite bind_kgets. by rewrite H. Qed.

Lemma wsect_run st D fi fb b d :
  img st D fi fb → 0 ≤ b < FSSIZE → wp (wsect b d) (λ _ st', img st' (upd D b d) fi fb) st.
Proof.
  intros [H1 H2 H3 H4] Hb. eexists tt, _. split; [reflexivity|]. simpl.
  rewrite H1, (proj2 (Nat.ltb_lt _ _)) by (unfold FSSIZE in *; lia). split; simpl; try done.
  - by rewrite length_insert.
  - intros b' Hb'. unfold upd. destruct (Z.eqb_spec b' b) as [->|Hne].
    + apply list_lookup_insert_eq. rewrite H1. unfold FSSIZE in *. lia.
    + rewrite list_lookup_insert_ne by lia. by apply H2.
Qed.

Lemma next_block_run st D fi fb :
  img st D fi fb → 0 ≤ fb < FSSIZE → wp next_block (λ b st', b = fb ∧ img st' D fi (fb + 1)) st.
Proof.
  intros [H1 H2 H3 H4] Hfb. exists fb, (set_im_freeblock (fb + 1) st). split; [|by split].
  unfold next_block. rewrite bind_kgets, H4, bind_kmodify, u32_small by (unfold FSSIZE in *; lia). done.
Qed.

Lemma alloc_addr_run st D fi fb n ino :
  img st D fi fb → 0 ≤ fb < FSSIZE →
  wp (b ← next_block; mret (set_i_addrs (<[Z.to_nat n := xint b]> (i_addrs ino)) ino))
    (λ ino' st', ino' = put_addr n fb ino ∧ img st' D fi (fb + 1)) st.
Proof.
  intros Hst Hfb. eapply wp_step; [by apply next_block_run|]. intros b st' [-> Hst']. apply wp_ret.
  by rewrite xint_small by (unfold FSSIZE in *; lia).
Qed.

(** Blocks in use by a file of [m] data blocks. *)
Definition tot (m : Z) : Z := m + (if NDIRECT <? m then 1 else 0).

Definition nblk (n : Z) : Z := (n + (BSIZE - 1)) / BSIZE.

(** Only the addresses of an inode differ, and nothing below the data blocks. *)
Definition same_meta (ino ino' : inode) : Prop := ∃ l, ino' = set_i_addrs l ino.

Definition same_low (D D' : Z → list Z) : Prop := ∀ b, b < nmeta → D' b = D b.

Lemma direct_run st D fi fb E k ino by_ fbn m :
  img st D fi fb → built D fb E → E !! k = Some (Entry ino by_ m (NDIRECT <? m)) →
  0 ≤ fbn ≤ m → fbn < NDIRECT → fb + (tot (Z.max m (fbn + 1)) - tot m) ≤ FSSIZE →
  wp (file_block fbn ino) (λ '(x, ino') st', let m' := Z.max m (fbn + 1) in
    img st' D fi (fb + (tot m' - tot m)) ∧ built D (fb + (tot m' - tot m)) (<[k := Entry ino' by_ m' (NDIRECT <? m')]> E) ∧
    x = addr_of D ino' fbn ∧ same_meta ino ino') st.
Proof.
  intros Hst HB Hk Hfbn Hd Hroom. pose proof (bu_file _ _ _ HB _ _ Hk) as [F1 F2 F3 _ _ F6 _ _]. cbn [e_ino e_m] in *.
  pose proof (bu_fb _ _ _ HB) as Hfb. assert (Hmf := MAXFILE_eq). assert (Hnm : nmeta = 59) by done.
  assert (Hadd : ∀ i, addr_of D i fbn = i_addrs i !!! Z.to_nat fbn) by (intros i; unfold addr_of; by rewrite (proj2 (Z.ltb_lt _ _))).
  assert (Hx : 0 ≤ i_addrs ino !!! Z.to_nat fbn < 2 ^ 32).
  { rewrite <- Hadd, <- (slot_addr D) by lia. destruct (decide (slot D ino fbn = 0)) as [->|Hne]; [lia|].
    specialize (F6 fbn ltac:(unfold NDIRECT in *; lia) Hne). unfold FSSIZE in *. lia. }
  unfold file_block. rewrite (proj2 (Z.ltb_lt _ _)) by done. rewrite (xint_small (i_addrs ino !!! _)) by done.
  destruct (decide (fbn < m)) as [Hlt|Hge].
  - assert (Hne : addr_of D ino fbn ≠ 0) by (apply F3; [unfold NDIRECT in *; lia|done]). rewrite Hadd in Hne.
    rewrite (proj2 (Z.eqb_neq _ _)) by done. eapply wp_run; [reflexivity|]. apply wp_ret. cbv beta.
    replace (Z.max m (fbn + 1)) with m by lia. rewrite Z.sub_diag, Z.add_0_r. rewrite list_insert_id by done.
    rewrite Hadd, xint_small by done. split_and!; try done. exists (i_addrs ino). by destruct ino.
  - assert (fbn = m) as -> by lia. unfold NDIRECT in *.
    assert (Hz : i_addrs ino !!! Z.to_nat m = 0).
    { rewrite <- Hadd. destruct (decide (addr_of D ino m = 0)); [done|]. assert (m < m) by (apply F3; [lia|done]). lia. }
    replace (Z.max m (m + 1)) with (m + 1) in * by lia. unfold tot, NDIRECT in *.
    rewrite (proj2 (Z.ltb_ge 12 m)), (proj2 (Z.ltb_ge 12 (m + 1))) in * by lia.
    replace (fb + (m + 1 + 0 - (m + 0))) with (fb + 1) in * by lia.
    rewrite Hz. cbn [Z.eqb]. eapply wp_step; [apply alloc_addr_run; [done|lia]|].
    intros ino' st' [-> Hst']. apply wp_ret.
    split_and!; [done|eapply alloc_direct; [done|done|unfold NDIRECT; lia|lia]|..|by eexists].
    rewrite Hadd. simpl. rewrite list_lookup_total_insert_eq by lia. apply xint_small. unfold FSSIZE in *. lia.
Qed.

Lemma entry_block_run st D fi fb E k ino by_ fbn m :
  img st D fi fb → built D fb E → E !! k = Some (Entry ino by_ m true) → NDIRECT ≤ fbn < MAXFILE → fbn ≤ m →
  fb + (if fbn <? m then 0 else 1) ≤ FSSIZE → let o := Z.to_nat (4 * (fbn - NDIRECT)) in
  wp (entry_block (iblk ino) o) (λ ind st', ∃ D', let fb' := fb + (if fbn <? m then 0 else 1) in
    img st' D' fi fb' ∧ built D' fb' (<[k := Entry ino by_ (Z.max m (fbn + 1)) true]> E) ∧
    rd 4 ind o = addr_of D' ino fbn ∧ same_low D D') st.
Proof.
  intros Hst HB Hk Hfbn Hle Hroom o. assert (Hmf := MAXFILE_eq). assert (Hnd : NDIRECT = 12) by done. assert (Hnm : nmeta = 59) by done. pose proof (bu_fb _ _ _ HB) as Hfb.
  pose proof (bu_file _ _ _ HB _ _ Hk) as [F1 F2 F3 F4 F5 F6 _ _]. cbn [e_ino e_m e_ib] in *.
  assert (Hne : iblk ino ≠ 0) by (by apply F4). assert (Hr := F6 (-1) ltac:(lia) Hne). change (slot D ino (-1)) with (iblk ino) in Hr.
  assert (Ha : ∀ D, addr_of D ino fbn = rd 4 (D (iblk ino)) o).
  { intros D0. unfold addr_of. rewrite (proj2 (Z.ltb_ge fbn NDIRECT)), (proj2 (Z.eqb_neq _ _)) by (done || lia). done. }
  unfold entry_block. eapply wp_run; [eapply rsect_run; [done|unfold FSSIZE in *; lia]|]. rewrite <- Ha.
  destruct (Z.ltb_spec fbn m) as [Hlt|Hge].
  - rewrite (proj2 (Z.eqb_neq _ _)) by (apply F3; lia). apply wp_ret. exists D. rewrite Z.add_0_r.
    replace (Z.max m (fbn + 1)) with m by lia. rewrite list_insert_id by done. split_and!; done.
  - assert (fbn = m) as -> by lia.
    assert (Hz : addr_of D ino m = 0).
    { destruct (decide (addr_of D ino m = 0)); [done|]. assert (m < m) by (apply F3; [lia|done]). lia. }
    rewrite Hz, Z.eqb_refl. eapply wp_step; [apply next_block_run; [done|lia]|]. intros b st1 [-> Hst1].
    cbv zeta. rewrite xint_small by (unfold FSSIZE in *; lia).
    eapply wp_step; [apply wsect_run; [done|unfold FSSIZE in *; lia]|]. intros [] st2 Hst2. apply wp_ret.
    replace (Z.max m (m + 1)) with (m + 1) by lia. eexists. split_and!; [exact Hst2|by apply alloc_entry; [..|lia]|by rewrite Ha, upd_eq|].
    intros b Hb. apply upd_ne. lia.
Qed.

Lemma indirect_run st D fi fb E k ino by_ fbn m :
  img st D fi fb → built D fb E → E !! k = Some (Entry ino by_ m (NDIRECT <? m)) →
  0 ≤ fbn ≤ m → NDIRECT ≤ fbn < MAXFILE → fb + (tot (Z.max m (fbn + 1)) - tot m) ≤ FSSIZE →
  wp (file_block fbn ino) (λ '(x, ino') st', let m' := Z.max m (fbn + 1) in ∃ D',
    img st' D' fi (fb + (tot m' - tot m)) ∧ built D' (fb + (tot m' - tot m)) (<[k := Entry ino' by_ m' (NDIRECT <? m')]> E) ∧
    x = addr_of D' ino' fbn ∧ same_meta ino ino' ∧ same_low D D') st.
Proof.
  intros Hst HB Hk Hfbn Hd Hroom. assert (Hmf := MAXFILE_eq). assert (Hnm : nmeta = 59) by done.
  unfold file_block. rewrite (proj2 (Z.ltb_ge _ _)) by lia. pose proof (bu_fb _ _ _ HB) as Hfb.
  (* the indirect block *)
  eapply (wp_step _ _ (λ ino1 st1, ∃ fb1, img st1 D fi fb1 ∧ built D fb1 (<[k := Entry ino1 by_ m true]> E) ∧ same_meta ino ino1 ∧
    fb1 + (if fbn <? m then 0 else 1) = fb + (tot (Z.max m (fbn + 1)) - tot m))).
  { pose proof (bu_file _ _ _ HB _ _ Hk) as [F1 F2 F3 F4 F5 F6 _ _]. cbn [e_ino e_m e_ib] in *. unfold tot, NDIRECT in *.
    destruct (Z.ltb_spec 12 m) as [Hm|Hm].
    - assert (Hne : iblk ino ≠ 0) by (by apply F4). assert (Hr := F6 (-1) ltac:(lia) Hne). cbn [slot Z.eqb] in Hr.
      fold (iblk ino). change (slot D ino (-1)) with (iblk ino) in Hr. change (i_addrs ino !!! Z.to_nat 12) with (iblk ino).
      rewrite xint_small by (unfold FSSIZE in *; lia). rewrite (proj2 (Z.eqb_neq _ _)) by done.
      apply wp_ret. exists fb. rewrite list_insert_id by done. split_and!; try done; [exists (i_addrs ino); by destruct ino|].
      rewrite (proj2 (Z.ltb_lt 12 (Z.max m (fbn + 1)))) by lia. destruct (Z.ltb_spec fbn m); lia.
    - assert (Hz : iblk ino = 0) by (destruct (decide (iblk ino = 0)); [done|]; by apply F4 in n).
      change (i_addrs ino !!! Z.to_nat 12) with (iblk ino). rewrite Hz. assert (m = 12 ∧ fbn = 12) as [-> ->] by lia.
      replace (Z.max 12 (12 + 1)) with 13 in * by lia. simpl in Hroom.
      eapply wp_mono; [apply alloc_addr_run; [done|unfold FSSIZE in *; lia]|]. intros ino1 st1 [-> Hst1].
      exists (fb + 1). split_and!; [done|by apply alloc_indirect; [..|lia]|by eexists|simpl; lia]. }
  cbv beta. intros ino1 st1 (fb1 & Hst1 & HB1 & Hmeta & Hcost). cbv zeta.
  assert (Hk1 : <[k := Entry ino1 by_ m true]> E !! k = Some (Entry ino1 by_ m true)).
  { apply list_lookup_insert_eq. by eapply lookup_lt_Some. }
  pose proof (bu_fb _ _ _ HB1) as Hfb1.
  pose proof (bu_file _ _ _ HB1 _ _ Hk1) as [_ _ _ F4 _ F6 _ _]. cbn [e_ino e_m e_ib] in *.
  assert (Hr := F6 (-1) ltac:(lia) (proj2 F4 eq_refl)). change (slot D ino1 (-1)) with (iblk ino1) in Hr.
  change (i_addrs ino1 !!! Z.to_nat NDIRECT) with (iblk ino1). rewrite (xint_small (iblk ino1)) by (unfold FSSIZE in *; lia).
  eapply wp_step; [eapply entry_block_run; [done|done|done|done|lia|lia]|]. cbv beta zeta.
  intros ind st2 (D' & Hst2 & HB2 & Ha & Hlow). apply wp_ret. exists D'. rewrite <- Hcost, list_insert_insert_eq in *.
  replace (NDIRECT <? Z.max m (fbn + 1)) with true by (symmetry; apply Z.ltb_lt; lia).
  split_and!; try done. rewrite Ha. apply xint_small. pose proof (rd_range 4 ind (Z.to_nat (4 * (fbn - NDIRECT)))) as Hrd.
  rewrite Ha in Hrd. exact Hrd.
Qed.

Lemma file_block_run st D fi fb E k ino by_ fbn m :
  img st D fi fb → built D fb E → E !! k = Some (Entry ino by_ m (NDIRECT <? m)) →
  0 ≤ fbn ≤ m → fbn < MAXFILE → fb + (tot (Z.max m (fbn + 1)) - tot m) ≤ FSSIZE →
  wp (file_block fbn ino) (λ '(x, ino') st', let m' := Z.max m (fbn + 1) in ∃ D',
    img st' D' fi (fb + (tot m' - tot m)) ∧ built D' (fb + (tot m' - tot m)) (<[k := Entry ino' by_ m' (NDIRECT <? m')]> E) ∧
    x = addr_of D' ino' fbn ∧ same_meta ino ino' ∧ same_low D D') st.
Proof.
  intros Hst HB Hk Hfbn Hmax Hroom. destruct (decide (fbn < NDIRECT)) as [Hd|Hd].
  - eapply wp_mono; [by eapply direct_run|]. intros [x ino'] st' (? & ? & ? & ?). by exists D.
  - eapply indirect_run; done || lia.
Qed.

Lemma nblk_spec n : 0 ≤ n → nblk n * BSIZE - BSIZE < n ≤ nblk n * BSIZE ∧ 0 ≤ nblk n.
Proof.
  intros Hn. unfold nblk, BSIZE. pose proof (Z.div_mod (n + (512 - 1)) 512 ltac:(lia)).
  pose proof (Z.mod_pos_bound (n + (512 - 1)) 512 ltac:(lia)). lia.
Qed.

Lemma nblk_unique n m : 0 ≤ n → m * BSIZE - BSIZE < n ≤ m * BSIZE → nblk n = m.
Proof. intros Hn Hm. pose proof (nblk_spec n Hn). unfold BSIZE in *. lia. Qed.

Lemma tot_mono m m' : m ≤ m' → tot m ≤ tot m'.
Proof. intros H. unfold tot, NDIRECT. destruct (Z.ltb_spec 12 m), (Z.ltb_spec 12 m'); lia. Qed.

Lemma same_meta_trans i1 i2 i3 : same_meta i1 i2 → same_meta i2 i3 → same_meta i1 i3.
Proof. intros [l1 ->] [l2 ->]. by exists l2. Qed.

Lemma same_low_trans D1 D2 D3 : same_low D1 D2 → same_low D2 D3 → same_low D1 D3.
Proof. intros H1 H2 b Hb. by rewrite H2, H1. Qed.

(** A file of [by_] and at rest. *)
Definition rest_entry (ino : inode) (by_ : list Z) : entry :=
  let m := nblk (Z.of_nat (length by_)) in Entry ino by_ m (NDIRECT <? m).

(** The blocks a file needs. *)
Definition cost (by_ : list Z) : Z := tot (nblk (Z.of_nat (length by_))).

Lemma cost_app by_ p : cost by_ ≤ cost (by_ ++ p).
Proof.
  unfold cost. apply tot_mono. rewrite length_app.
  pose proof (nblk_spec (Z.of_nat (length by_)) ltac:(lia)). pose proof (nblk_spec (Z.of_nat (length by_ + length p)) ltac:(lia)).
  unfold BSIZE in *. lia.
Qed.

Lemma iappend_loop_run fuel p st D fi fb E k ino by_ :
  img st D fi fb → built D fb E → E !! k = Some (rest_entry ino by_) → (length p < fuel)%nat →
  Z.of_nat (length (by_ ++ p)) ≤ MAXFILE * BSIZE → fb + (cost (by_ ++ p) - cost by_) ≤ FSSIZE →
  wp (iappend_loop fuel ino (Z.of_nat (length by_)) p) (λ '(ino', off) st', ∃ D',
    let fb' := fb + (cost (by_ ++ p) - cost by_) in
    off = Z.of_nat (length (by_ ++ p)) ∧ img st' D' fi fb' ∧ built D' fb' (<[k := rest_entry ino' (by_ ++ p)]> E) ∧
    same_meta ino ino' ∧ same_low D D') st.
Proof.
  revert p st D fb E ino by_. induction fuel as [|fuel IH]; intros p st D fb E ino by_ Hst HB Hk Hf Hfit Hroom; [lia|].
  cbn [iappend_loop]. destruct p as [|c p].
  { simpl. apply wp_ret. exists D. cbv zeta. rewrite app_nil_r, Z.sub_diag, Z.add_0_r, list_insert_id by done.
    split_and!; try done. exists (i_addrs ino). by destruct ino. }
  set (q := c :: p) in *. set (n := Z.of_nat (length by_)). assert (En : n = Z.of_nat (length by_)) by done.
  set (fbn := n / BSIZE). set (m := nblk n).
  assert (Hq : 0 < Z.of_nat (length q)) by (simpl; lia). rewrite (proj2 (Z.ltb_lt _ _)) by done.
  assert (Hmf := MAXFILE_eq). pose proof (nblk_spec n ltac:(lia)) as Hm. fold m in Hm.
  pose proof (Z.div_mod n BSIZE ltac:(done)) as Hdm. pose proof (Z.mod_pos_bound n BSIZE ltac:(done)) as Hmb. fold fbn in Hdm.
  rewrite length_app in Hfit. unfold BSIZE in *.
  assert (Hfbn : 0 ≤ fbn ≤ m ∧ fbn < MAXFILE) by lia. rewrite (proj2 (Z.ltb_lt fbn MAXFILE)) by lia. cbn [negb].
  assert (Hm1 : Z.max m (fbn + 1) = fbn + 1) by lia.
  set (n1 := Z.min (Z.of_nat (length q)) ((fbn + 1) * 512 - n)). assert (Hn1 : 0 < n1) by lia.
  set (a := take (Z.to_nat n1) q). assert (Hla : length a = Z.to_nat n1) by (unfold a; rewrite length_take; lia).
  assert (Hn' : Z.of_nat (length (by_ ++ a)) = n + n1) by (rewrite length_app; lia).
  assert (Hma : nblk (Z.of_nat (length (by_ ++ a))) = fbn + 1) by (apply nblk_unique; unfold BSIZE; lia).
  assert (Ha : cost (by_ ++ a) = tot (fbn + 1)) by (unfold cost; by rewrite Hma).
  assert (Hcb : cost by_ = tot m) by done.
  assert (Hq' : (by_ ++ a) ++ drop (Z.to_nat n1) q = by_ ++ q) by (rewrite <- app_assoc; unfold a; by rewrite take_drop).
  pose proof (cost_app (by_ ++ a) (drop (Z.to_nat n1) q)) as Hca. rewrite Hq' in Hca.
  eapply wp_step; [eapply file_block_run; [done|done|exact Hk|exact (proj1 Hfbn)|exact (proj2 Hfbn)|]|].
  { fold n m. rewrite Hm1. lia. }
  fold n m. rewrite Hm1. cbv zeta. intros [x ino1] st1 (D1 & Hst1 & HB1 & -> & Hmeta1 & Hlow1).
  set (fb1 := fb + (tot (fbn + 1) - tot m)) in *.
  assert (Hk1 : ∀ e, <[k := e]> E !! k = Some e) by (intros e; apply list_lookup_insert_eq; by eapply lookup_lt_Some).
  destruct (write_block D1 fb1 _ k ino1 by_ (fbn + 1) (NDIRECT <? fbn + 1) fbn (Z.to_nat (n - fbn * 512)) a HB1 (Hk1 _)) as [Hx HB2];
    [lia|unfold BSIZE; lia|unfold BSIZE; lia|].
  pose proof (bu_fb _ _ _ HB1) as Hfb1. assert (Hnm : nmeta = 59) by done.
  eapply wp_run; [eapply rsect_run; [done|lia]|]. eapply wp_step; [apply wsect_run; [done|lia]|]. intros [] st2 Hst2.
  rewrite list_insert_insert_eq in HB2. rewrite u32_small by lia. fold n1. rewrite <- Hn'.
  eapply wp_mono.
  - eapply (IH _ _ _ fb1 _ ino1 (by_ ++ a)); [exact Hst2|exact HB2|rewrite Hk1; unfold rest_entry; by rewrite Hma| |rewrite Hq', length_app; lia|].
    + rewrite length_drop. lia.
    + rewrite Hq', Ha. lia.
  - cbv beta zeta. intros [ino' off] st3 (D3 & -> & Hst3 & HB3 & Hmeta3 & Hlow3). rewrite Hq', Ha, list_insert_insert_eq in *.
    exists D3. replace (fb + (cost (by_ ++ q) - cost by_)) with (fb1 + (cost (by_ ++ q) - tot (fbn + 1)))
      by lia.
    split_and!; try done; [by eapply same_meta_trans|]. eapply same_low_trans, same_low_trans; [done| |done].
    intros b Hb. apply upd_ne. lia.
Qed.

(** ** Inodes in their blocks *)

Lemma read_dinode_ext d d' o ip :
  (∀ j, (o ≤ j < o + 64)%nat → d' !! j = d !! j) → read_dinode d' o ip = read_dinode d o ip.
Proof.
  intros H. unfold read_dinode.
  rewrite !(rd_ext _ d d') by (intros i Hi; apply H; lia). f_equal. apply map_ext_in. intros k Hk%in_seq.
  apply rd_ext. intros i Hi. apply H. change (Z.to_nat NDIRECT) with 12%nat in Hk. lia.
Qed.

Lemma IBLOCK_range n : 0 ≤ n < NINODES → IBLOCK n mk_sb = n / 8 + 32 ∧ 32 ≤ IBLOCK n mk_sb < 58.
Proof.
  unfold NINODES. intros Hn. unfold IBLOCK. change (sb_inodestart mk_sb) with 32. change IPB with 8.
  assert (0 ≤ n / 8 < 25) by (split; [apply Z.div_pos; lia|apply Z.div_lt_upper_bound; lia]). rewrite u32_small by lia. lia.
Qed.

(** Two inodes do not share bytes. *)
Lemma dinode_apart n n' :
  0 ≤ n < NINODES → 0 ≤ n' < NINODES → n ≠ n' → IBLOCK n mk_sb = IBLOCK n' mk_sb →
  (dinode_off n + 64 ≤ dinode_off n' ∨ dinode_off n' + 64 ≤ dinode_off n)%nat.
Proof.
  intros Hn Hn' Hne E. rewrite (proj1 (IBLOCK_range n Hn)), (proj1 (IBLOCK_range n' Hn')) in E. unfold dinode_off. change IPB with 8.
  pose proof (Z.div_mod n 8). pose proof (Z.div_mod n' 8). pose proof (Z.mod_pos_bound n 8). pose proof (Z.mod_pos_bound n' 8). lia.
Qed.

(** The inode of a finished file. *)
Definition mk_inode (inum ty size : Z) (addrs : list Z) : inode := Inode 1 inum 0 1 ty 0 0 1 size addrs.

(** The inode [n] as the image has it. *)
Definition dinode_at (D : Z → list Z) (n : Z) : inode := read_dinode (D (IBLOCK n mk_sb)) (dinode_off n) (blank_dinode n).

(** Putting an inode into its block. *)
Definition put_dinode (D : Z → list Z) (n : Z) (ino : inode) : Z → list Z :=
  upd D (IBLOCK n mk_sb) (write_dinode ino (D (IBLOCK n mk_sb)) (dinode_off n)).

Lemma winode_run st D fi fb n ino :
  img st D fi fb → 0 ≤ n < NINODES → wp (winode n ino) (λ _ st', img st' (put_dinode D n ino) fi fb) st.
Proof.
  intros Hst Hn. destruct (IBLOCK_range n Hn) as [_ Hb]. unfold winode.
  eapply wp_run; [eapply rsect_run; [done|unfold FSSIZE; lia]|]. apply wsect_run; [done|]. unfold FSSIZE. lia.
Qed.

Lemma rinode_run st D fi fb n : img st D fi fb → 0 ≤ n < NINODES → rinode n st = Ok (dinode_at D n) st.
Proof.
  intros Hst Hn. destruct (IBLOCK_range n Hn) as [_ Hb]. unfold rinode.
  rewrite (bind_ok _ _ _ _ _ (rsect_run _ _ _ _ (IBLOCK n mk_sb) Hst ltac:(unfold FSSIZE; lia))). done.
Qed.

Lemma dinode_at_put D n ty size addrs :
  0 ≤ n < NINODES → length (D (IBLOCK n mk_sb)) = Z.to_nat BSIZE → dinode_ok (mk_inode n ty size addrs) →
  dinode_at (put_dinode D n (mk_inode n ty size addrs)) n = mk_inode n ty size addrs.
Proof.
  intros Hn Hl Hok. unfold dinode_at, put_dinode. rewrite upd_eq.
  change (read_dinode ?d ?o (blank_dinode n)) with (read_dinode d o (mk_inode n ty size addrs)). apply read_write_dinode; [done|].
  rewrite Hl. apply dinode_off_fits.
Qed.

Lemma dinode_at_put_ne D n n' ino :
  0 ≤ n < NINODES → 0 ≤ n' < NINODES → n ≠ n' → length (i_addrs ino) = 13%nat →
  dinode_at (put_dinode D n ino) n' = dinode_at D n' ∧
  rd 2 (put_dinode D n ino (IBLOCK n' mk_sb)) (dinode_off n') = rd 2 (D (IBLOCK n' mk_sb)) (dinode_off n').
Proof.
  intros Hn Hn' Hne Hl. unfold dinode_at, put_dinode, upd. destruct (Z.eqb_spec (IBLOCK n' mk_sb) (IBLOCK n mk_sb)) as [E|E]; [|done].
  rewrite E. pose proof (dinode_apart n n' Hn Hn' Hne (eq_sym E)) as Hap.
  split; [apply read_dinode_ext|apply rd_ext]; intros j Hj; apply lookup_write_dinode_ne; try done; lia.
Qed.

(** Blocks below the data do not matter to files. *)
Lemma built_low D D' fb E :
  built D fb E → (∀ b, nmeta ≤ b → D' b = D b) → (∀ b, 0 ≤ b < FSSIZE → length (D' b) = Z.to_nat BSIZE) → built D' fb E.
Proof.
  intros [B1 B2 B3 B4 B5] HD Hlen.
  assert (Hs : ∀ k e j, E !! k = Some e → -1 ≤ j < MAXFILE → slot D (e_ino e) j ≠ 0 → D' (slot D (e_ino e) j) = D (slot D (e_ino e) j)).
  { intros k e j Hk Hj Hs. apply HD. pose proof (fk_range _ _ _ (B4 _ _ Hk) j Hj Hs). lia. }
  assert (He : ∀ k e j, E !! k = Some e → slot D' (e_ino e) j = slot D (e_ino e) j).
  { intros k e j Hk. apply slot_frame. intros Hi. apply (Hs k e (-1) Hk); [rewrite MAXFILE_eq; lia|done]. }
  split; [done|done| | |].
  - intros b Hb. rewrite HD by lia. by apply B3.
  - intros k e Hk. eapply file_ok_frame; [reflexivity| |by eapply B4]. intros j Hj. by eapply Hs.
  - intros k k' e e' j j' Hk Hk' Hj Hj'. rewrite (He k e), (He k' e') by done. by apply B5.
Qed.

Lemma built_put D fb E n ino : built D fb E → 0 ≤ n < NINODES → built (put_dinode D n ino) fb E.
Proof.
  intros HB Hn. destruct (IBLOCK_range n Hn) as [_ Hb]. assert (Hnm : nmeta = 59) by done. eapply built_low; [done|..].
  - intros b Hb'. apply upd_ne. lia.
  - intros b Hb'. unfold put_dinode, upd. case_match; [rewrite length_write_dinode|]; apply (bu_len _ _ _ HB); unfold FSSIZE in *; lia.
Qed.

(** ** The image between the steps of [main] *)

(** The blocks of all files. *)
Definition used (F : list (Z * list Z)) : Z := foldr (λ f s, cost f.2 + s) 0 F.

(** [F] holds the type and the contents of inodes 1, 2, ... *)
Record made (st : image) (D : Z → list Z) (E : list entry) (F : list (Z * list Z)) (fb : Z) : Prop := Made {
  md_img : img st D (Z.of_nat (length F) + 1) fb;
  md_built : built D fb E;
  md_len : length E = length F;
  md_ent : ∀ k ty by_, F !! k = Some (ty, by_) → 0 ≤ ty < 2 ^ 15 ∧
      E !! k = Some (rest_entry (dinode_at D (Z.of_nat k + 1)) by_) ∧
      ∃ addrs, dinode_at D (Z.of_nat k + 1) = mk_inode (Z.of_nat k + 1) ty (Z.of_nat (length by_)) addrs;
  md_free : ∀ n, Z.of_nat (length F) < n < NINODES → rd 2 (D (IBLOCK n mk_sb)) (dinode_off n) = 0;
  md_fb : fb = nmeta + used F;
  md_inodes : Z.of_nat (length F) < NINODES;
  md_super : D 1 = sb_block;
  md_log : ∀ b, 2 ≤ b < 2 + nlog → D b = zeros
}.

Lemma used_insert F k ty by_ by' : F !! k = Some (ty, by_) → used (<[k := (ty, by')]> F) = used F + (cost by' - cost by_).
Proof.
  revert k. induction F as [|[ty0 b0] F IH]; intros [|k] H; simpl in *; simplify_eq; [lia|]. rewrite IH by done. lia.
Qed.

Lemma used_app F f : used (F ++ [f]) = used F + cost f.2.
Proof. induction F as [|f0 F IH]; simpl; [lia|]. rewrite IH. lia. Qed.

Lemma file_dinode_ok D fb ino by_ n ty addrs :
  file_ok D fb (rest_entry ino by_) → fb ≤ FSSIZE → ino = mk_inode n ty (i_size ino) addrs → 0 ≤ ty < 2 ^ 15 →
  dinode_ok (mk_inode n ty (Z.of_nat (length by_)) addrs).
Proof.
  intros [F1 F2 F3 F4 F5 F6 F7 F8] Hfb Ei Hty. cbn [e_ino e_bytes rest_entry] in *. rewrite Ei in F1, F6. simpl in F1.
  assert (Hmf := MAXFILE_eq). assert (Hnm : nmeta = 59) by done. unfold FSSIZE, BSIZE in *.
  split; unfold short; simpl; try lia; try done.
  intros k Hk. destruct (decide (k = 12%nat)) as [->|].
  - specialize (F6 (-1) ltac:(lia)). change (slot D _ (-1)) with (addrs !!! 12%nat) in F6. lia.
  - specialize (F6 (Z.of_nat k) ltac:(lia)). rewrite slot_addr in F6 by lia. unfold addr_of in F6.
    rewrite (proj2 (Z.ltb_lt (Z.of_nat k) NDIRECT)) in F6 by (unfold NDIRECT; lia). simpl in F6. rewrite Nat2Z.id in F6. lia.
Qed.

(** The size of an inode does not matter to its blocks. *)
Lemma built_size D fb E k ino by_ m ib v :
  built D fb E → E !! k = Some (Entry ino by_ m ib) → built D fb (<[k := Entry (set_i_size v ino) by_ m ib]> E).
Proof.
  intros HB Hk. eapply (built_step D fb _ k _ D fb); [done|done|pose proof (bu_fb _ _ _ HB); lia|by left|apply HB| |by left|].
  - pose proof (bu_file _ _ _ HB _ _ Hk) as [F1 F2 F3 F4 F5 F6 F7 F8]. by split.
  - intros j j' Hj Hj' E1 Hne. by destruct (bu_inj _ _ _ HB k k _ _ j j' Hk Hk Hj Hj' E1 Hne).
Qed.

(** A file is replaced, its inode written last. *)
Lemma made_update st D E F fb st2 D1 k ty by_ by' ino2 l :
  let n := Z.of_nat k + 1 in let fb' := fb + (cost by' - cost by_) in let D2 := put_dinode D1 n ino2 in
  made st D E F fb → F !! k = Some (ty, by_) → same_low D D1 → built D1 fb' (<[k := rest_entry ino2 by']> E) →
  ino2 = mk_inode n ty (Z.of_nat (length by')) l → img st2 D2 (Z.of_nat (length F) + 1) fb' →
  made st2 D2 (<[k := rest_entry ino2 by']> E) (<[k := (ty, by')]> F) fb'.
Proof.
  intros n fb' D2 [M1 M2 M3 M4 M5 M6 M7 M8 M9] Hk Hlow HB Ei Hst2. pose proof (lookup_lt_Some _ _ _ Hk) as Hlt.
  assert (Hn : 0 ≤ n < NINODES) by lia. destruct (M4 _ _ _ Hk) as (Hty & _). assert (Hnm : nmeta = 59) by done.
  assert (Hk1 : ∀ e, <[k := e]> E !! k = Some e) by (intros e; apply list_lookup_insert_eq; lia).
  pose proof (bu_file _ _ _ HB k _ (Hk1 _)) as Hf. pose proof (bu_fb _ _ _ HB) as Hfb.
  assert (Hat : dinode_at D2 n = ino2).
  { unfold D2. rewrite Ei. apply dinode_at_put; [done|apply (bu_len _ _ _ HB); destruct (IBLOCK_range n Hn); unfold FSSIZE; lia|].
    eapply file_dinode_ok; [exact Hf|lia|by rewrite Ei|done]. }
  assert (Hlen : length (i_addrs ino2) = 13%nat) by apply (fk_len _ _ _ Hf).
  assert (Hother : ∀ n', 0 ≤ n' < NINODES → n ≠ n' → dinode_at D2 n' = dinode_at D n' ∧
    rd 2 (D2 (IBLOCK n' mk_sb)) (dinode_off n') = rd 2 (D (IBLOCK n' mk_sb)) (dinode_off n')).
  { intros n' Hn' Hne. destruct (dinode_at_put_ne D1 n n' ino2 Hn Hn' Hne Hlen) as [E1 E2]. unfold D2. rewrite E1, E2. unfold dinode_at.
    destruct (IBLOCK_range n' Hn'). by rewrite Hlow by lia. }
  split; try done; rewrite ?length_insert; try done.
  - by apply built_put.
  - intros k' ty' by0 [(<- & [= <- <-] & _)|[Hne Hk']]%list_lookup_insert_Some.
    + fold n. rewrite Hk1, Hat. do 2 (split; [done|]). by exists l.
    + pose proof (lookup_lt_Some _ _ _ Hk') as Hlt'. destruct (Hother (Z.of_nat k' + 1)) as [-> _]; [lia..|].
      rewrite list_lookup_insert_ne by done. by apply M4.
  - intros n' Hn'. destruct (Hother n') as [_ ->]; [lia..|]. by apply M5.
  - unfold fb'. rewrite (used_insert _ _ _ _ _ Hk). lia.
  - unfold D2, put_dinode. destruct (IBLOCK_range n Hn). rewrite upd_ne, Hlow by lia. done.
  - intros b Hb. unfold D2, put_dinode. destruct (IBLOCK_range n Hn). change nlog with 30 in *. rewrite upd_ne, Hlow by lia. by apply M9.
Qed.

Lemma iappend_run st D E F fb k ty by_ p :
  made st D E F fb → F !! k = Some (ty, by_) → Z.of_nat (length (by_ ++ p)) ≤ MAXFILE * BSIZE →
  fb + (cost (by_ ++ p) - cost by_) ≤ FSSIZE →
  wp (iappend (Z.of_nat k + 1) p) (λ _ st', ∃ D' E',
    made st' D' E' (<[k := (ty, by_ ++ p)]> F) (fb + (cost (by_ ++ p) - cost by_))) st.
Proof.
  intros Hmade Hk Hfit Hroom. pose proof Hmade as [M1 M2 M3 M4 M5 M6 M7 M8 M9]. pose proof (lookup_lt_Some _ _ _ Hk) as Hlt.
  destruct (M4 k ty by_ Hk) as (Hty & HE & addrs & Hino). unfold iappend.
  assert (Hn : 0 ≤ Z.of_nat k + 1 < NINODES) by lia. assert (Hmf := MAXFILE_eq). assert (Hnm : nmeta = 59) by done.
  eapply wp_run; [by apply (rinode_run _ _ _ _ _ M1)|]. set (n := Z.of_nat k + 1) in *.
  assert (Hsz : i_size (dinode_at D n) = Z.of_nat (length by_)) by (by rewrite Hino). rewrite Hsz.
  rewrite length_app in Hfit. rewrite xint_small by (unfold BSIZE in *; lia).
  eapply wp_step; [eapply iappend_loop_run; [done|done|exact HE|lia|rewrite length_app; lia|done]|]. cbv beta zeta.
  intros [ino' off] st1 (D1 & -> & Hst1 & HB1 & [l Hmeta] & Hlow). set (fb' := fb + _) in *.
  rewrite xint_small by (rewrite length_app; unfold BSIZE in *; lia).
  set (ino2 := set_i_size _ _). assert (Ei2 : ino2 = mk_inode n ty (Z.of_nat (length (by_ ++ p))) l) by (unfold ino2; by rewrite Hmeta, Hino).
  eapply wp_mono; [by apply winode_run|]. cbv beta. intros [] st2 Hst2.
  assert (Hk1 : ∀ e, <[k := e]> E !! k = Some e) by (intros e; apply list_lookup_insert_eq; lia).
  pose proof (bu_fb _ _ _ HB1) as Hfb1. pose proof (built_size _ _ _ k _ _ _ _ (Z.of_nat (length (by_ ++ p))) HB1 (Hk1 _)) as HB2.
  rewrite list_insert_insert_eq in HB2. fold ino2 in HB2.
  exists (put_dinode D1 n ino2), (<[k := rest_entry ino2 (by_ ++ p)]> E). by eapply made_update.
Qed.

(** A new file has no blocks. *)
Lemma addr_of_blank_dinode D n ty sz bn : 0 ≤ bn → addr_of D (mk_inode n ty sz (replicate 13 0)) bn = 0.
Proof.
  intros Hbn. unfold addr_of. destruct (Z.ltb_spec bn NDIRECT); [|done]. apply list_lookup_total_correct.
  apply lookup_replicate. unfold NDIRECT in *. split; [done|]. lia.
Qed.

Lemma slot_blank_dinode D n ty sz j : -1 ≤ j → slot D (mk_inode n ty sz (replicate 13 0)) j = 0.
Proof. intros Hj. unfold slot. destruct (Z.eqb_spec j (-1)); [done|]. apply addr_of_blank_dinode. lia. Qed.

Lemma file_ok_blank_dinode D fb n ty : file_ok D fb (rest_entry (mk_inode n ty 0 (replicate 13 0)) []).
Proof.
  assert (Hmf := MAXFILE_eq). change (rest_entry ?i []) with (Entry i [] 0 false). split; cbn [e_ino e_bytes e_m e_ib]; try done.
  - intros bn Hbn. rewrite addr_of_blank_dinode by lia. lia.
  - intros j Hj. by rewrite slot_blank_dinode by lia.
  - intros k Hk. unfold byte_at, fblock. rewrite addr_of_blank_dinode by (apply Z.div_pos; unfold BSIZE; lia). simpl.
    apply list_lookup_total_correct, lookup_replicate. split; [done|]. pose proof (Z.mod_pos_bound k BSIZE). unfold BSIZE in *. lia.
Qed.

Lemma built_new D fb E n ty : built D fb E → built D fb (E ++ [rest_entry (mk_inode n ty 0 (replicate 13 0)) []]).
Proof.
  intros [B1 B2 B3 B4 B5]. split; try done.
  - intros k e [[_ Hk]|[_ <-]]%lookup_snoc_Some; [by apply (B4 k)|apply file_ok_blank_dinode].
  - intros k k' e e' j j' [[_ Hk]|[-> <-]]%lookup_snoc_Some [[_ Hk']|[-> <-]]%lookup_snoc_Some Hj Hj';
      cbn [e_ino rest_entry]; rewrite ?slot_blank_dinode by lia; intros E1 Hne; [by eapply B5|congruence|done|done].
Qed.

Lemma ialloc_run st D E F fb ty :
  made st D E F fb → Z.of_nat (length F) + 1 < NINODES → 0 ≤ ty < 2 ^ 15 →
  wp (mk_ialloc ty) (λ n st', n = Z.of_nat (length F) + 1 ∧ ∃ D' E', made st' D' E' (F ++ [(ty, [])]) fb) st.
Proof.
  intros [M1 M2 M3 M4 M5 M6 M7 M8 M9] Hni Hty. set (n := Z.of_nat (length F) + 1) in *. assert (Hn : 0 ≤ n < NINODES) by lia.
  assert (Hnm : nmeta = 59) by done. unfold mk_ialloc. eapply wp_run; [reflexivity|]. rewrite (im_fi _ _ _ _ M1). fold n.
  rewrite u32_small by (unfold NINODES in *; lia). eapply wp_run; [reflexivity|].
  assert (Hst1 : img (set_im_freeinode (n + 1) st) D (n + 1) fb) by (destruct M1; by split).
  set (ino := set_i_size _ _). assert (Ei : ino = mk_inode n ty 0 (replicate 13 0)).
  { unfold ino. rewrite xint_small, !xshort_small by lia. done. }
  eapply wp_step; [by apply (winode_run _ _ _ _ n ino Hst1)|]. intros [] st2 Hst2. apply wp_ret. split; [done|].
  pose proof (built_new D fb E n ty M2) as HB. rewrite <- Ei in HB.
  assert (Hlast : (E ++ [rest_entry ino []]) !! length E = Some (rest_entry ino [])) by (by rewrite lookup_app_r, Nat.sub_diag by lia).
  pose proof (bu_file _ _ _ HB _ _ Hlast) as Hf. pose proof (bu_fb _ _ _ HB) as Hfb.
  assert (Hat : dinode_at (put_dinode D n ino) n = ino).
  { rewrite Ei. apply dinode_at_put; [done|apply (bu_len _ _ _ HB); destruct (IBLOCK_range n Hn); unfold FSSIZE; lia|].
    eapply (file_dinode_ok D fb _ []); [exact Hf|lia|by rewrite Ei|done]. }
  assert (Hlen : length (i_addrs ino) = 13%nat) by apply (fk_len _ _ _ Hf).
  exists (put_dinode D n ino), (E ++ [rest_entry ino []]). split; rewrite ?length_app; cbn [length].
  - replace (Z.of_nat (length F + 1) + 1) with (n + 1) by lia. done.
  - by apply built_put.
  - lia.
  - intros k ty' by_ [[_ Hk]|[-> [= <- <-]]]%lookup_snoc_Some.
    + pose proof (lookup_lt_Some _ _ _ Hk). destruct (dinode_at_put_ne D n (Z.of_nat k + 1) ino) as [-> _]; [done|lia|lia|done|].
      rewrite lookup_app_l by lia. by apply M4.
    + fold n. rewrite Hat, <- M3. split; [done|]. split; [done|]. by exists (replicate 13 0).
  - intros n' Hn'. destruct (dinode_at_put_ne D n n' ino) as [_ ->]; [done|lia|lia|done|]. apply M5. lia.
  - rewrite used_app. change (cost _) with 0. lia.
  - lia.
  - unfold put_dinode. destruct (IBLOCK_range n Hn). by rewrite upd_ne by lia.
  - intros b Hb. unfold put_dinode. destruct (IBLOCK_range n Hn). change nlog with 30 in *. rewrite upd_ne by lia. by apply M9.
Qed.

(** ** Files and the root directory *)

Lemma cost_nonneg by_ : 0 ≤ cost by_.
Proof. unfold cost, tot. pose proof (nblk_spec (Z.of_nat (length by_)) ltac:(lia)) as [_ H]. case_match; lia. Qed.

Lemma used_nonneg F : 0 ≤ used F.
Proof. induction F as [|f F IH]; simpl; [lia|]. pose proof (cost_nonneg f.2). lia. Qed.

Lemma used_app2 F F' : used (F ++ F') = used F + used F'.
Proof. induction F as [|f F IH]; simpl; [done|]. rewrite IH. lia. Qed.

(** Appending within the bound of the image. *)
Lemma iappend_made st D E F fb k ty by_ p :
  made st D E F fb → F !! k = Some (ty, by_) → Z.of_nat (length (by_ ++ p)) ≤ MAXFILE * BSIZE →
  nmeta + used (<[k := (ty, by_ ++ p)]> F) ≤ FSSIZE →
  wp (iappend (Z.of_nat k + 1) p) (λ _ st', ∃ D' E' fb', made st' D' E' (<[k := (ty, by_ ++ p)]> F) fb') st.
Proof.
  intros Hm Hk Hfit Hroom. rewrite (used_insert _ _ _ _ _ Hk) in Hroom. pose proof (md_fb _ _ _ _ _ Hm).
  eapply wp_mono; [eapply iappend_run; [done..|lia]|]. cbv beta. intros _ st' (D' & E' & Hm'). eauto.
Qed.

Lemma copy_file_run fuel content st D E F fb k ty by_ :
  made st D E F fb → F !! k = Some (ty, by_) → Z.of_nat (length (by_ ++ content)) ≤ MAXFILE * BSIZE →
  nmeta + used (<[k := (ty, by_ ++ content)]> F) ≤ FSSIZE → (length content < fuel)%nat →
  wp (copy_file fuel (Z.of_nat k + 1) content) (λ _ st', ∃ D' E' fb', made st' D' E' (<[k := (ty, by_ ++ content)]> F) fb') st.
Proof.
  revert content st D E F fb by_. induction fuel as [|fuel IH]; intros content st D E F fb by_ Hm Hk Hfit Hroom Hf; [lia|].
  cbn [copy_file]. set (a := take (Z.to_nat BSIZE) content). destruct content as [|c l].
  { simpl. apply wp_ret. rewrite app_nil_r, list_insert_id by done. eauto. }
  set (content := c :: l) in *. assert (Hb : Z.to_nat BSIZE = 512%nat) by done. rewrite Hb in *.
  assert (Hla : (0 < length a)%nat) by (unfold a; rewrite length_take; simpl; lia). rewrite (proj2 (Z.ltb_lt _ _)) by lia.
  assert (Eq : (by_ ++ a) ++ drop 512 content = by_ ++ content) by (rewrite <- app_assoc; unfold a; by rewrite take_drop).
  pose proof (cost_app (by_ ++ a) (drop 512 content)) as Hc. rewrite Eq in Hc.
  assert (Hlen : (length (by_ ++ a) ≤ length (by_ ++ content))%nat) by (rewrite <- Eq, !length_app; lia).
  eapply wp_step; [apply (iappend_made _ _ _ _ _ _ ty by_ a Hm Hk); [lia|]|].
  { rewrite (used_insert _ _ _ _ _ Hk) in Hroom. rewrite (used_insert _ _ _ _ _ Hk). lia. }
  cbv beta. intros [] st' (D' & E' & fb' & Hm'). pose proof (lookup_lt_Some _ _ _ Hk).
  eapply wp_mono.
  - eapply (IH _ _ _ _ _ _ (by_ ++ a) Hm'); [by apply list_lookup_insert_eq|by rewrite Eq| |].
    + by rewrite Eq, list_insert_insert_eq.
    + rewrite length_drop. simpl in *. lia.
  - cbv beta. intros _ st2 (D2 & E2 & fb2 & Hm2). rewrite Eq, list_insert_insert_eq in Hm2. eauto.
Qed.

(** The bytes of a directory entry. *)
Definition entry_bytes (inum : Z) (name : list Z) : list Z :=
  dirent inum (default [] (strncpy_bytes (Z.to_nat DIRSIZ) (name ++ [0]))).

Lemma strncpy_total n name : ∃ w, strncpy_bytes n (name ++ [0]) = Some w.
Proof.
  revert n. induction name as [|c name IH]; intros [|n]; simpl; eauto. case_match; [eauto|].
  destruct (IH n) as [w ->]. simpl. eauto.
Qed.

Lemma mk_dirent_run st inum name : 0 ≤ inum < 2 ^ 16 → mk_dirent inum name st = Ok (entry_bytes inum name) st.
Proof.
  intros Hi. unfold mk_dirent, entry_bytes. destruct (strncpy_total (Z.to_nat DIRSIZ) name) as [w ->]. by rewrite xshort_small.
Qed.

(** The entries of the files, from inode [n] on. *)
Fixpoint entries (n : Z) (files : list (list Z * list Z)) : list Z :=
  match files with
  | [] => []
  | f :: fs => entry_bytes n (image_name f.1) ++ entries (n + 1) fs
  end.

Definition file_list (files : list (list Z * list Z)) : list (Z * list Z) := map (λ f, (T_FILE, f.2)) files.

(** What [mkfs] can put on the image. *)
Definition fits (rb : list Z) (F : list (Z * list Z)) (files : list (list Z * list Z)) : Prop :=
  Forall (λ f, CH_SLASH ∉ f.1 ∧ Z.of_nat (length f.2) ≤ MAXFILE * BSIZE) files ∧
  Z.of_nat (length F + 1 + length files) < NINODES ∧
  Z.of_nat (length (rb ++ entries (Z.of_nat (length F) + 2) files)) ≤ MAXFILE * BSIZE ∧
  nmeta + used ((T_DIR, rb ++ entries (Z.of_nat (length F) + 2) files) :: F ++ file_list files) ≤ FSSIZE.

Lemma add_file_run st D E F fb rb f fs :
  made st D E ((T_DIR, rb) :: F) fb → fits rb F (f :: fs) →
  let rb' := rb ++ entry_bytes (Z.of_nat (length F) + 2) (image_name f.1) in
  wp (add_file f) (λ _ st', ∃ D' E' fb', made st' D' E' ((T_DIR, rb') :: F ++ [(T_FILE, f.2)]) fb') st ∧
  fits rb' (F ++ [(T_FILE, f.2)]) fs.
Proof.
  destruct f as [name content]. intros Hm (Hf & Hn & Hd & Hu) rb'. apply list.Forall_cons in Hf as [[Hs Hc] Hf]. cbn [fst snd] in *.
  cbn [entries fst] in Hd, Hu. rewrite app_assoc in Hd, Hu. fold rb' in Hd, Hu.
  assert (Hfits : fits rb' (F ++ [(T_FILE, content)]) fs).
  { unfold fits. rewrite length_app. cbn [length] in *. replace (Z.of_nat (length F + 1) + 2) with (Z.of_nat (length F) + 2 + 1) by lia.
    split_and!; [done|lia|done|]. rewrite <- app_assoc. exact Hu. }
  split; [|done]. unfold add_file. rewrite bool_decide_false by done.
  eapply wp_step; [apply (ialloc_run _ _ _ _ _ T_FILE Hm); [cbn [length] in *; lia|done]|].
  cbv beta. intros n st1 [-> (D1 & E1 & Hm1)]. cbn [length]. set (n := Z.of_nat (S (length F)) + 1).
  assert (En : n = Z.of_nat (length F) + 2) by lia. unfold NINODES in Hn. cbn [length] in Hn.
  eapply wp_run; [apply mk_dirent_run; lia|]. rewrite En. clearbody n.
  pose proof (cost_app rb' (entries (Z.of_nat (length F) + 2 + 1) fs)) as Hc1. pose proof (cost_nonneg content) as Hc2.
  assert (Hu' : nmeta + (cost rb' + (used F + cost content)) ≤ FSSIZE).
  { cbn [used foldr snd] in Hu. fold (used (F ++ file_list ((name, content) :: fs))) in Hu.
    change (file_list ((name, content) :: fs)) with ([(T_FILE, content)] ++ file_list fs) in Hu.
    rewrite app_assoc in Hu. rewrite used_app2, used_app in Hu. cbn [snd] in Hu. pose proof (used_nonneg (file_list fs)). lia. }
  assert (Hrb : Z.of_nat (length rb') ≤ MAXFILE * BSIZE) by (rewrite length_app in Hd; lia).
  change (iappend ROOTINO) with (iappend (Z.of_nat 0 + 1)).
  eapply wp_step; [apply (iappend_made _ _ _ _ _ 0 T_DIR rb _ Hm1); [done|exact Hrb|]|].
  { cbn [app insert list_insert used foldr snd]. fold (used (F ++ [(T_FILE, [])])). rewrite used_app. fold rb'. cbn [snd].
    change (cost []) with 0. lia. }
  cbv beta. intros [] st2 (D2 & E2 & fb2 & Hm2). cbn [app insert list_insert] in Hm2. fold rb' in Hm2.
  replace (Z.of_nat (length F) + 2) with (Z.of_nat (S (length F)) + 1) by lia.
  assert (Ei : ∀ x : Z * list Z, <[S (length F) := x]> ((T_DIR, rb') :: F ++ [(T_FILE, [])]) = (T_DIR, rb') :: F ++ [x]).
  { intros x. simpl. by rewrite insert_app_r_alt, Nat.sub_diag by lia. }
  eapply wp_mono; [eapply (copy_file_run _ content _ _ _ _ _ (S (length F)) T_FILE [] Hm2)|].
  - simpl. by rewrite lookup_app_r, Nat.sub_diag by lia.
  - done.
  - rewrite Ei. cbn [used foldr snd app]. fold (used (F ++ [(T_FILE, content)])). rewrite used_app. cbn [snd]. lia.
  - lia.
  - cbv beta. intros _ st3 (D3 & E3 & fb3 & Hm3). rewrite Ei in Hm3. eauto.
Qed.

Lemma add_files_run files st D E F fb rb :
  made st D E ((T_DIR, rb) :: F) fb → fits rb F files →
  wp (add_files files) (λ _ st', ∃ D' E' fb',
    made st' D' E' ((T_DIR, rb ++ entries (Z.of_nat (length F) + 2) files) :: F ++ file_list files) fb') st.
Proof.
  revert st D E F fb rb. induction files as [|f fs IH]; intros st D E F fb rb Hm Hfits; cbn [add_files].
  { apply wp_ret. simpl. rewrite !app_nil_r. eauto. }
  destruct (add_file_run _ _ _ _ _ _ _ _ Hm Hfits) as [R Hfits']. eapply wp_step; [exact R|].
  cbv beta. intros [] st' (D' & E' & fb' & Hm'). eapply wp_mono; [by apply (IH _ _ _ _ _ _ Hm')|].
  cbv beta. intros _ st2 H2. cbn [entries fst file_list map]. rewrite app_assoc. rewrite length_app in H2. cbn [length] in H2.
  replace (Z.of_nat (length F + 1) + 2) with (Z.of_nat (length F) + 2 + 1) in H2 by lia. rewrite <- (app_assoc F) in H2. exact H2.
Qed.

(** ** The empty image *)

Lemma zero_loop n st :
  im_disk st = [] →
  kfor_ (seq 0 n) (λ i, wsect (Z.of_nat i) zeros) st = Ok tt (set_im_disk (replicate n zeros) st).
Proof.
  intros Hd. assert (G : ∀ m k st, im_disk st = replicate k zeros →
    kfor_ (seq k m) (λ i, wsect (Z.of_nat i) zeros) st = Ok tt (set_im_disk (replicate (k + m) zeros) st)).
  { induction m as [|m IH]; intros k st0 H0; cbn [seq kfor_].
    - rewrite Nat.add_0_r, <- H0. by destruct st0.
    - assert (R : wsect (Z.of_nat k) zeros st0 = Ok tt (set_im_disk (replicate (S k) zeros) st0)).
      { unfold wsect, kmodify. rewrite H0, length_replicate, Nat2Z.id, Nat.ltb_irrefl, Nat.sub_diag. simpl.
        change [zeros] with (replicate 1 zeros). rewrite <- replicate_add, Nat.add_1_r. done. }
      rewrite (bind_ok _ _ _ _ _ R), IH by done. by replace (S k + m)%nat with (k + S m)%nat by lia. }
  rewrite (G n 0%nat) by done. done.
Qed.

(** The blocks after the super block was written. *)
Definition first_blocks (b : Z) : list Z := if b =? 1 then sb_block else zeros.

Lemma length_sb_block : length sb_block = Z.to_nat BSIZE.
Proof. unfold sb_block. rewrite length_wr_words. done. Qed.

Lemma made_first st : img st first_blocks 1 nmeta → made st first_blocks [] [] nmeta.
Proof.
  intros Hst. assert (Hnm : nmeta = 59) by done. split; try done.
  - split; try done.
    + intros b Hb. unfold first_blocks. case_match; [apply length_sb_block|done].
    + intros b Hb. unfold first_blocks. by rewrite (proj2 (Z.eqb_neq b 1)) by lia.
  - intros n Hn. simpl in Hn. destruct (IBLOCK_range n ltac:(lia)) as [_ Hb]. unfold first_blocks. rewrite (proj2 (Z.eqb_neq _ 1)) by lia.
    apply rd_zeros. pose proof (dinode_off_fits n). lia.
  - intros b Hb. unfold first_blocks. by rewrite (proj2 (Z.eqb_neq b 1)) by lia.
Qed.

(** ** The bitmap *)

Lemma length_set_bits n buf : length (set_bits n buf) = length buf.
Proof. induction n as [|n IH]; simpl; [done|]. by rewrite length_insert. Qed.

Lemma set_bits_testbit n j :
  (n ≤ 4096)%nat → (j < 4096)%nat →
  Z.testbit (set_bits n zeros !!! (j / 8)%nat) (Z.of_nat (j mod 8)) = (j <? n)%nat.
Proof.
  intros Hn Hj. assert (Hj8 : (j / 8 < 512)%nat) by (apply Nat.Div0.div_lt_upper_bound; lia).
  pose proof (Nat.mod_upper_bound j 8 ltac:(lia)) as Hjm.
  induction n as [|i IH]; cbn [set_bits].
  - replace (zeros !!! (j / 8)%nat) with 0; [by rewrite Z.bits_0|]. symmetry. apply list_lookup_total_correct, lookup_replicate. done.
  - specialize (IH ltac:(lia)). assert (Hi8 : (i / 8 < 512)%nat) by (apply Nat.Div0.div_lt_upper_bound; lia).
    destruct (decide (i / 8 = j / 8)%nat) as [E|E].
    + rewrite E, list_lookup_total_insert_eq by (rewrite length_set_bits; exact Hj8).
      rewrite u8_bit by lia. rewrite Z.lor_spec, IH, Z.shiftl_1_l, Z.pow2_bits_eqb by lia.
      pose proof (Nat.div_mod_eq i 8). pose proof (Nat.div_mod_eq j 8).
      destruct (Z.eqb_spec (Z.of_nat (i mod 8)) (Z.of_nat (j mod 8))), (Nat.ltb_spec j i), (Nat.ltb_spec j (S i)); simpl; try done; lia.
    + rewrite list_lookup_total_insert_ne, IH by done.
      destruct (Nat.ltb_spec j i), (Nat.ltb_spec j (S i)); try done; try lia. assert (j = i) as -> by lia. done.
Qed.

Lemma BBLOCK_image b : 0 ≤ b < FSSIZE → BBLOCK b mk_sb = 58.
Proof. unfold FSSIZE. intros Hb. unfold BBLOCK. change (sb_bmapstart mk_sb) with 58. change BPB with 4096. rewrite Z.div_small by lia. done. Qed.

Lemma bit_image D fb b :
  nmeta ≤ fb ≤ FSSIZE → 0 ≤ b < FSSIZE → bit (upd D 58 (set_bits (Z.to_nat fb) zeros)) mk_sb b = (b <? fb).
Proof.
  intros Hfb Hb. assert (Hnm : nmeta = 59) by done. rewrite bit_testbit, BBLOCK_image by done. rewrite upd_eq. change BPB with 4096.
  unfold FSSIZE in *. rewrite (Z.mod_small b) by lia.
  pose proof (set_bits_testbit (Z.to_nat fb) (Z.to_nat b) ltac:(lia) ltac:(lia)) as H.
  rewrite Nat2Z.inj_mod, Z2Nat.id in H by lia. change (Z.of_nat 8) with 8 in H.
  rewrite Z2Nat.inj_div by lia. change (Z.to_nat 8) with 8%nat. rewrite H.
  destruct (Nat.ltb_spec (Z.to_nat b) (Z.to_nat fb)), (Z.ltb_spec b fb); done || lia.
Qed.

(** ** What the kernel finds *)

(** A kernel state that has mounted the image: the super block and the log are the
    ones [mkfs] describes. *)
Definition mounted {Xm : Type} (s : kstate (Xm * fsx)) : Prop :=
  layout s = (mk_sb, Z.to_nat FSSIZE, 2, nlog).

Section mounted.
Context {Xm : Type} (s : kstate (Xm * fsx)) (Hs : mounted s).

Lemma mounted_facts :
  fx_sb (fx s) = mk_sb ∧ length (fx_disk (fx s)) = Z.to_nat FSSIZE ∧ (∀ b, 32 ≤ b < FSSIZE → home_block s b).
Proof.
  unfold mounted, layout in Hs. injection Hs as E1 E2 E3 E4. split_and!; try done. intros b Hb.
  unfold home_block, home. rewrite E2, E3, E4. change nlog with 30. unfold FSSIZE in *. lia.
Qed.

Lemma image_data_block b : nmeta ≤ b < FSSIZE → data_block s b.
Proof.
  intros Hb. destruct mounted_facts as (E1 & _ & Hh). assert (Hnm : nmeta = 59) by done.
  split; rewrite ?E1; change (sb_size mk_sb) with FSSIZE; change (sb_ninodes mk_sb) with NINODES.
  - lia.
  - apply Hh. lia.
  - intros b' Hb'. rewrite BBLOCK_image by done. lia.
  - intros n Hn. destruct (IBLOCK_range n Hn). lia.
Qed.

Lemma image_fs_ok D fb E : built D fb E → (∀ b, 0 ≤ b < FSSIZE → bit D mk_sb b = (b <? fb)) → fs_ok s D.
Proof.
  intros HB Hbit. destruct mounted_facts as (E1 & E2 & Hh). pose proof (bu_fb _ _ _ HB) as Hfb. assert (Hnm : nmeta = 59) by done.
  split; rewrite ?E1, ?E2; change (sb_size mk_sb) with FSSIZE; change (sb_ninodes mk_sb) with NINODES.
  - split; rewrite E1; change (sb_size mk_sb) with FSSIZE; intros b Hb; rewrite BBLOCK_image by done; [apply Hh; unfold FSSIZE; lia|set_solver].
  - done.
  - done.
  - intros b Hb. rewrite Hbit by done. intros Hlt%Z.ltb_ge. apply image_data_block. lia.
  - intros b Hb. apply (bu_len _ _ _ HB). unfold FSSIZE in *. lia.
  - intros n Hn. destruct (IBLOCK_range n Hn). split; [apply Hh; unfold FSSIZE; lia|].
    intros b Hb. rewrite BBLOCK_image by done. lia.
Qed.

Lemma image_inode_ok D fb E k e :
  built D fb E → (∀ b, 0 ≤ b < FSSIZE → bit D mk_sb b = (b <? fb)) → E !! k = Some e → i_dev (e_ino e) = 1 →
  0 ≤ i_size (e_ino e) ≤ e_m e * BSIZE → inode_ok s D (e_ino e).
Proof.
  intros HB Hbit Hk Hdev Hsz. destruct mounted_facts as (E1 & _). assert (Hmf := MAXFILE_eq). assert (Hnm : nmeta = 59) by done.
  pose proof (bu_file _ _ _ HB _ _ Hk) as [F1 F2 F3 F4 F5 F6 F7 F8]. pose proof (bu_fb _ _ _ HB) as Hfb.
  assert (Hslot : ∀ j, -1 ≤ j < MAXFILE → slot D (e_ino e) j ≠ 0 →
    data_block s (slot D (e_ino e) j) ∧ bit D (fx_sb (fx s)) (slot D (e_ino e) j) = true).
  { intros j Hj Hne. specialize (F6 j Hj Hne). split; [apply image_data_block; lia|]. rewrite E1, Hbit by lia. apply Z.ltb_lt. lia. }
  assert (Hinj := λ j j', bu_inj _ _ _ HB k k e e j j' Hk Hk).
  split; try done.
  - intros bn Hbn. rewrite <- (slot_addr D) by lia. intros Hne. destruct (Hslot bn ltac:(lia) Hne). split_and!; try done.
    intros E2. destruct (Hinj bn (-1)) as [_ E3]; [lia..|done|done|lia].
  - apply (Hslot (-1)). lia.
  - intros bn bn' Hbn Hbn'. rewrite <- !(slot_addr D) by lia. intros E2 Hne. by destruct (Hinj bn bn') as [_ E3]; [lia..| | |].
  - unfold BSIZE in *. lia.
  - intros bn Hbn Hlt. unfold BSIZE in *. apply F3; lia.
Qed.

End mounted.

(** ** The finished image *)

(** The size of the root directory after [mkfs] has rounded it up. *)
Definition root_size (n : Z) : Z := (n / BSIZE + 1) * BSIZE.

(** The image [D] with the root directory [rb] and the files [F] (inodes 2, 3, ...);
    the blocks below [fb] are in use. *)
Record image_of (D : Z → list Z) (fb : Z) (rb : list Z) (F : list (Z * list Z)) : Prop := ImageOf {
  if_super : Superblock (rd 4 (D 1) 0) (rd 4 (D 1) 4) (rd 4 (D 1) 8) (rd 4 (D 1) 12) (rd 4 (D 1) 16) (rd 4 (D 1) 20) (rd 4 (D 1) 24) = mk_sb;
  if_log : ∀ b, 2 ≤ b < 2 + nlog → D b = zeros;
  if_bitmap : ∀ b, 0 ≤ b < FSSIZE → bit D mk_sb b = (b <? fb);
  if_root : ∃ addrs, dinode_at D 1 = mk_inode 1 T_DIR (root_size (Z.of_nat (length rb))) addrs ∧
      ∀ k, 0 ≤ k < MAXFILE * BSIZE → byte_at D (dinode_at D 1) k = default 0 (rb !! Z.to_nat k);
  if_files : ∀ k ty content, F !! k = Some (ty, content) → ∃ addrs,
      dinode_at D (Z.of_nat k + 2) = mk_inode (Z.of_nat k + 2) ty (Z.of_nat (length content)) addrs ∧
      file_bytes D (dinode_at D (Z.of_nat k + 2)) 0 (length content) = content;
  if_free : ∀ n, Z.of_nat (length F) + 1 < n < NINODES → rd 2 (D (IBLOCK n mk_sb)) (dinode_off n) = 0;
  if_kernel : ∀ Xm (s : kstate (Xm * fsx)), mounted s →
      fs_ok s D ∧ (∀ k f, F !! k = Some f → inode_ok s D (dinode_at D (Z.of_nat k + 2))) ∧
      (inode_ok s D (dinode_at D 1) ↔ Z.of_nat (length rb) mod BSIZE ≠ 0)
}.

Lemma file_bytes_content D fb ino by_ : file_ok D fb (rest_entry ino by_) → file_bytes D ino 0 (length by_) = by_.
Proof.
  intros [_ _ _ _ _ _ F7 F8]. cbn [e_ino e_bytes rest_entry] in *. apply list_eq. intros i. unfold file_bytes.
  destruct (decide (i < length by_)%nat) as [Hi|Hi].
  - rewrite list_lookup_fmap, lookup_seq_lt by done. cbn [fmap option_fmap option_map]. rewrite F8 by lia.
    rewrite Z.add_0_l, Nat.add_0_l, Nat2Z.id. by destruct (lookup_lt_is_Some_2 by_ i Hi) as [v ->].
  - rewrite !lookup_ge_None_2; [done|lia|rewrite length_map, length_seq; lia].
Qed.

(** A last block of the root directory that does not exist. *)
Lemma root_hole n : 0 ≤ n → n mod BSIZE ≠ 0 ↔ root_size n ≤ nblk n * BSIZE.
Proof.
  intros Hn. pose proof (nblk_spec n Hn). unfold root_size, BSIZE in *. pose proof (Z.div_mod n 512 ltac:(lia)).
  pose proof (Z.mod_pos_bound n 512 ltac:(lia)). lia.
Qed.

(** The kernel finds the root directory without holes unless its entries fill
    whole blocks. *)
Lemma root_inode_ok {Xm} (s : kstate (Xm * fsx)) (Hs : mounted s) D fb E k root rb :
  built D fb E → (∀ b, 0 ≤ b < FSSIZE → bit D mk_sb b = (b <? fb)) → E !! k = Some (rest_entry root rb) → i_dev root = 1 →
  i_size root = root_size (Z.of_nat (length rb)) →
  inode_ok s D root ↔ Z.of_nat (length rb) mod BSIZE ≠ 0.
Proof.
  intros HB Hbit HE Hdev Hsz. rewrite root_hole by lia. assert (0 ≤ Z.of_nat (length rb)) by lia.
  set (n := Z.of_nat (length rb)) in *. assert (0 ≤ root_size n) by (unfold root_size, BSIZE; pose proof (Z.div_pos n 512); lia). split.
  - intros [_ _ _ _ _ I6 I7]. destruct (Z.le_gt_cases (root_size n) (nblk n * BSIZE)) as [|Hgt]; [done|exfalso].
    pose proof (nblk_spec n ltac:(lia)) as [_ Hnn]. rewrite Hsz in I6, I7. specialize (I7 (nblk n) Hnn ltac:(lia)).
    apply (fk_addr _ _ _ (bu_file _ _ _ HB _ _ HE)) in I7; [|unfold BSIZE in *; lia]. cbn [e_m rest_entry] in I7. fold n in I7. lia.
  - intros Hle. apply (image_inode_ok s Hs _ _ _ _ _ HB Hbit HE); [done|]. cbn [e_ino e_m rest_entry]. rewrite Hsz. fold n. lia.
Qed.

(** The blocks after the last two steps of [main]. *)
Definition last_blocks (D : Z → list Z) (fb : Z) (root : inode) : Z → list Z :=
  upd (put_dinode D 1 root) 58 (set_bits (Z.to_nat fb) zeros).

Lemma last_blocks_facts st D E F fb rb :
  made st D E ((T_DIR, rb) :: F) fb →
  ∃ addrs, let root := mk_inode 1 T_DIR (root_size (Z.of_nat (length rb))) addrs in let D' := last_blocks D fb root in
  dinode_at D 1 = mk_inode 1 T_DIR (Z.of_nat (length rb)) addrs ∧
  built D' fb (<[0%nat := Entry root rb (nblk (Z.of_nat (length rb))) (NDIRECT <? nblk (Z.of_nat (length rb)))]> E) ∧
  dinode_at D' 1 = root ∧
  (∀ n, 0 ≤ n < NINODES → n ≠ 1 → dinode_at D' n = dinode_at D n ∧
     rd 2 (D' (IBLOCK n mk_sb)) (dinode_off n) = rd 2 (D (IBLOCK n mk_sb)) (dinode_off n)) ∧
  (∀ b, b < 32 → D' b = D b).
Proof.
  intros [M1 M2 M3 M4 M5 M6 M7 M8 M9]. destruct (M4 0%nat T_DIR rb eq_refl) as (_ & HE & addrs & Ha).
  change (Z.of_nat 0 + 1) with 1 in *. rewrite Ha in HE. exists addrs. intros root D'.
  assert (Hn1 : 0 ≤ 1 < NINODES) by done. assert (Hnm : nmeta = 59) by done. assert (Hmf := MAXFILE_eq).
  pose proof (bu_fb _ _ _ M2) as Hfb. pose proof (bu_file _ _ _ M2 _ _ HE) as Hf.
  assert (Hsz : 0 ≤ root_size (Z.of_nat (length rb)) < 2 ^ 32).
  { pose proof (fk_fit _ _ _ Hf) as Hfit. cbn [e_bytes rest_entry] in Hfit. unfold root_size, BSIZE in *.
    pose proof (Z.div_pos (Z.of_nat (length rb)) 512). pose proof (Z.div_le_upper_bound (Z.of_nat (length rb)) 512 MAXFILE). lia. }
  assert (Hdok : dinode_ok root).
  { destruct (file_dinode_ok D fb _ rb 1 T_DIR addrs Hf) as [D1 D2 D3 D4 _ D6 D7]; [lia|done|done|]. by split. }
  assert (Hl1 : length (D (IBLOCK 1 mk_sb)) = Z.to_nat BSIZE) by (by apply (bu_len _ _ _ M2)).
  assert (Hlen : length (i_addrs root) = 13%nat) by apply Hdok.
  assert (Hlow : ∀ b, b ≠ 58 → D' b = put_dinode D 1 root b) by (intros b Hb; by apply upd_ne).
  split_and!; [done|..].
  - pose proof (built_put _ _ _ 1 root (built_size _ _ _ _ _ _ _ _ (root_size (Z.of_nat (length rb))) M2 HE) Hn1) as HB.
    eapply built_low; [exact HB|..].
    + intros b Hb. apply Hlow. lia.
    + intros b Hb. unfold D', last_blocks, upd. case_match; [by rewrite length_set_bits|]. by apply (bu_len _ _ _ HB).
  - unfold dinode_at. rewrite Hlow by done. by apply dinode_at_put.
  - intros n Hn Hne. destruct (IBLOCK_range n Hn) as [_ Hr]. unfold dinode_at. rewrite Hlow by lia. by apply dinode_at_put_ne.
  - intros b Hb. rewrite Hlow by lia. unfold put_dinode. apply upd_ne. destruct (IBLOCK_range 1 Hn1). lia.
Qed.

Lemma made_image st D E F fb rb :
  made st D E ((T_DIR, rb) :: F) fb →
  ∃ addrs, dinode_at D 1 = mk_inode 1 T_DIR (Z.of_nat (length rb)) addrs ∧
    image_of (last_blocks D fb (mk_inode 1 T_DIR (root_size (Z.of_nat (length rb))) addrs)) fb rb F.
Proof.
  intros Hm. pose proof Hm as [M1 M2 M3 M4 M5 M6 M7 M8 M9]. cbn [length] in M3.
  destruct (last_blocks_facts _ _ _ _ _ _ Hm) as (addrs & Ha & HB & Hroot & Hother & Hlow). exists addrs. split; [done|].
  set (root := mk_inode 1 T_DIR (root_size _) addrs) in *. set (D' := last_blocks D fb root) in *. set (E' := <[_ := _]> E) in *.
  assert (Hnm : nmeta = 59) by done. pose proof (bu_fb _ _ _ M2) as Hfb. cbn [length] in M7.
  assert (Hbit : ∀ b, 0 ≤ b < FSSIZE → bit D' mk_sb b = (b <? fb)) by (intros b Hb; by apply bit_image).
  assert (HE0 : E' !! 0%nat = Some (Entry root rb (nblk (Z.of_nat (length rb))) (NDIRECT <? nblk (Z.of_nat (length rb))))).
  { apply list_lookup_insert_eq. lia. }
  assert (Hfile : ∀ k ty content, F !! k = Some (ty, content) → ∃ addrs,
    dinode_at D' (Z.of_nat k + 2) = mk_inode (Z.of_nat k + 2) ty (Z.of_nat (length content)) addrs ∧
    E' !! S k = Some (rest_entry (dinode_at D' (Z.of_nat k + 2)) content)).
  { intros k ty content Hk. pose proof (lookup_lt_Some _ _ _ Hk). destruct (M4 (S k) ty content Hk) as (_ & HE & l & Hl).
    replace (Z.of_nat (S k) + 1) with (Z.of_nat k + 2) in * by lia. destruct (Hother (Z.of_nat k + 2)) as [-> _]; [lia..|].
    exists l. split; [done|]. unfold E'. by rewrite list_lookup_insert_ne. }
  split; try done.
  - rewrite Hlow, M8 by done. vm_compute. reflexivity.
  - intros b Hb. change nlog with 30 in Hb. rewrite Hlow by lia. apply M9. change nlog with 30. lia.
  - exists addrs. rewrite Hroot. split; [done|]. intros k Hk. by apply (fk_bytes _ _ _ (bu_file _ _ _ HB _ _ HE0)).
  - intros k ty content Hk. destruct (Hfile _ _ _ Hk) as (l & Hl & HE). exists l. split; [done|].
    eapply file_bytes_content, (bu_file _ _ _ HB _ _ HE).
  - intros n Hn. destruct (Hother n) as [_ ->]; [lia..|]. apply M5. simpl. lia.
  - intros Xm s Hs. split; [by eapply (image_fs_ok s Hs)|]. split.
    + intros k [ty content] Hk. destruct (Hfile _ _ _ Hk) as (l & Hl & HE).
      eapply (image_inode_ok s Hs _ _ _ _ _ HB Hbit HE); cbn [e_ino e_m rest_entry]; rewrite Hl; [done|]. cbn [i_size mk_inode].
      pose proof (nblk_spec (Z.of_nat (length content)) ltac:(lia)). lia.
    + rewrite Hroot. by apply (root_inode_ok s Hs _ _ _ _ _ _ HB Hbit HE0).
Qed.

(** *** [mkfs] runs to the end *)

Lemma fix_root_run st D E F fb rb addrs :
  made st D E ((T_DIR, rb) :: F) fb → dinode_at D 1 = mk_inode 1 T_DIR (Z.of_nat (length rb)) addrs →
  wp (fix_root;; freeblock ← kgets im_freeblock; mk_balloc freeblock)
    (λ _ st', img st' (last_blocks D fb (mk_inode 1 T_DIR (root_size (Z.of_nat (length rb))) addrs)) (Z.of_nat (length F) + 2) fb) st.
Proof.
  intros Hm Ha. pose proof Hm as [M1 M2 M3 M4 _ _ _ _ _]. destruct (M4 0%nat T_DIR rb eq_refl) as (_ & HE & _).
  pose proof (fk_fit _ _ _ (bu_file _ _ _ M2 _ _ HE)) as Hfit. cbn [e_bytes rest_entry] in Hfit. assert (Hmf := MAXFILE_eq).
  pose proof (bu_fb _ _ _ M2) as Hfb. assert (Hnm : nmeta = 59) by done. unfold BSIZE in Hfit.
  assert (Hsz : 0 ≤ root_size (Z.of_nat (length rb)) < 2 ^ 32).
  { unfold root_size, BSIZE. pose proof (Z.div_pos (Z.of_nat (length rb)) 512).
    pose proof (Z.div_le_upper_bound (Z.of_nat (length rb)) 512 MAXFILE). lia. }
  eapply wp_step.
  { unfold fix_root. eapply wp_run; [by apply (rinode_run _ _ _ _ ROOTINO M1)|]. change ROOTINO with 1. rewrite Ha. cbn [i_size mk_inode].
    rewrite (xint_small (Z.of_nat _)) by lia. fold (root_size (Z.of_nat (length rb))). rewrite u32_small, xint_small by done.
    by apply (winode_run _ _ _ _ 1 _ M1). }
  cbv beta. intros [] st1 H1. eapply wp_run; [reflexivity|]. rewrite (im_fb _ _ _ _ H1). unfold mk_balloc.
  rewrite (proj2 (Z.ltb_lt _ _)) by (unfold FSSIZE, BSIZE in *; lia). eapply wp_mono; [by apply (wsect_run _ _ _ _ _ _ H1)|].
  cbv beta. intros _ st2 H2. cbn [length] in H2. replace (Z.of_nat (length F) + 2) with (Z.of_nat (S (length F)) + 1) by lia. exact H2.
Qed.

(** The first two entries of the root directory. *)
Definition dots : list Z := entry_bytes ROOTINO (Printf.str ".") ++ entry_bytes ROOTINO (Printf.str "..").

Lemma mkfs_run files :
  fits dots [] files →
  wp (mkfs files) (λ _ st, ∃ D fb, img st D (Z.of_nat (length files) + 2) fb ∧
    image_of D fb (dots ++ entries 2 files) (file_list files)) empty_image.
Proof.
  intros Hfits. assert (Hmf := MAXFILE_eq). unfold mkfs. eapply wp_run; [reflexivity|].
  eapply wp_run; [by apply zero_loop|]. set (st0 := set_im_disk _ _).
  assert (H0 : img st0 (λ _, zeros) 1 nmeta).
  { split; try done. intros b Hb. apply lookup_replicate. unfold FSSIZE in *. split; [done|lia]. }
  eapply wp_step; [by apply (wsect_run _ _ _ _ 1 sb_block H0)|]. cbv beta. intros [] st1 H1.
  assert (Hm1 : made st1 first_blocks [] [] nmeta) by (by apply made_first).
  eapply wp_step; [by apply (ialloc_run _ _ _ _ _ T_DIR Hm1)|]. cbv beta. intros n st2 [-> (D2 & E2 & Hm2)].
  cbn [length app Z.of_nat] in *. change (0 + 1) with 1 in *. change (negb (1 =? ROOTINO)) with false. cbn match.
  eapply wp_run; [by apply mk_dirent_run|]. eapply wp_step; [by apply (iappend_made _ _ _ _ _ 0 T_DIR [] _ Hm2)|].
  cbv beta. intros [] st3 (D3 & E3 & fb3 & Hm3). eapply wp_run; [by apply mk_dirent_run|].
  change (made st3 D3 E3 [(T_DIR, entry_bytes ROOTINO (Printf.str "."))] fb3) in Hm3.
  eapply wp_step; [by apply (iappend_made _ _ _ _ _ 0 T_DIR (entry_bytes ROOTINO (Printf.str ".")) _ Hm3)|].
  cbv beta. intros [] st4 (D4 & E4 & fb4 & Hm4).
  eapply wp_step; [by apply (add_files_run files _ _ _ [] _ dots Hm4)|]. cbv beta. intros [] st5 (D5 & E5 & fb5 & Hm5).
  cbn [app length Z.of_nat] in Hm5. change (0 + 2) with 2 in Hm5. destruct (made_image _ _ _ _ _ _ Hm5) as (addrs & Ha & Him).
  eapply wp_mono; [by apply (fix_root_run _ _ _ _ _ _ _ Hm5 Ha)|]. cbv beta. intros _ st6 H6. eexists _, _. split; [|exact Him].
  unfold file_list in H6. by rewrite length_map in H6.
Qed.

(** C13: [mkfs] on files that fit (no slash in a name, no file above [MAXFILE]
    blocks, fewer than [NINODES] inodes, and blocks enough) ends without an
    error and writes [FSSIZE] blocks that form a file system: the super block
    reads back as the layout, the log is empty, the bitmap marks exactly the
    blocks below the first free one, the root directory holds ["."], [".."] and
    one entry per file, every file has its content, the other inodes are free,
    and a kernel that mounts it meets the invariants of [fs.c] for the file
    system and for every file. The root directory, whose size [mkfs] rounds up,
    meets them exactly when its entries do not fill whole blocks. *)
Theorem mkfs_correct files :
  fits dots [] files →
  ∃ st D fb, mkfs files empty_image = Ok tt st ∧ length (im_disk st) = Z.to_nat FSSIZE ∧
    (∀ b, 0 ≤ b < FSSIZE → im_disk st !! Z.to_nat b = Some (D b)) ∧
    image_of D fb (dots ++ entries 2 files) (file_list files).
Proof. intros ([] & st & R & D & fb & [H1 H2 _ _] & Him)%mkfs_run. exact (ex_intro _ st (ex_intro _ D (ex_intro _ fb (conj R (conj H1 (conj H2 Him)))))). Qed.

(** A kernel that has mounted the image. *)
Definition sample_mounted : kstate (unit * fsx) :=
  set_fx (Fsx sample_bufs ∅ (replicate (Z.to_nat FSSIZE) zeros) [] (Log 2 nlog 0 0 1 0 (replicate 30 0)) mk_sb [] [] ∅) sample_fs.

Definition sample_files : list (list Z * list Z) := [(Printf.str "_cat", Printf.str "meow"); (Printf.str "README", replicate 600 7)].

Lemma mkfs_correct_witness :
  fits dots [] sample_files ∧ mounted sample_mounted ∧
  ∃ st D, mkfs sample_files empty_image = Ok tt st ∧
    file_bytes D (dinode_at D 2) 0 4 = Printf.str "meow" ∧ inode_ok sample_mounted D (dinode_at D 1).
Proof.
  assert (Hfits : fits dots [] sample_files).
  { split.
    - apply (bool_decide_unpack _). vm_compute. reflexivity.
    - split; [|split]; vm_compute; [reflexivity|discriminate|discriminate]. }
  assert (Hs : mounted sample_mounted) by (vm_compute; reflexivity).
  split; [exact Hfits|]. split; [exact Hs|]. destruct (mkfs_correct sample_files Hfits) as (st & D & fb & R & _ & _ & Him).
  exists st, D. split; [exact R|]. split.
  - destruct (if_files _ _ _ _ Him 0%nat T_FILE (Printf.str "meow") eq_refl) as (_ & _ & Hb). exact Hb.
  - apply (if_kernel _ _ _ _ Him _ _ Hs). vm_compute. discriminate.
Defined.
